(* ===== verification/_CoqProject ===== *)
-Q . S2P
Prelude.v
CLib.v
Storage.v
Inet.v
Inet6.v
Cksum.v
BufIO.v
WebChild.v
StrCli.v
SelectServ.v
Prefork.v
PreforkLive.v
Ring.v
SigIO.v
Pool.v
Rtt.v
Sockaddr.v
Gai.v
FreeGai.v
Icmpd.v
Conn.v
UdpCksum.v
Web.v
Traceroute.v
PingLoop.v
Frame.v
DList.v
Node.v
Demo.v
Release.v
Utils.v
Ifi.v
Ports.v
RTable.v
Print.v
PQueue.v
Send.v
Handlers.v
Spec.v
SpecFacts.v
Network.v
NetDemo.v
Flood.v
Shortest.v
Chain.v
Talk.v
Refine.v
Peer.v
Api.v
Behaviour.v
NetSim.v
NetFlood.v
NetBound.v
NetChain.v
Daemon.v
Apps.v
System.v
