(* ===== verification/Prelude.v ===== *)
(** * On-demand routing (ODR): a verification of the daemon, its API and its clients

    The program (src/assign3) is an on-demand shortest-hop routing protocol over
    Ethernet, a simplified AODV.  On every machine a daemon (odr_and.c,
    odr_functions.c) serves local processes over a Unix-domain socket and talks
    to the daemons of neighbouring machines in Ethernet frames over a packet
    socket.  A time client and a time server (client_and.c, server_and.c) use it
    through two API calls (msg_send and msg_recv of utils.c).  Between two events
    the daemon keeps a table of ports and the paths of their owners, a routing
    table, a queue of frames parked until a route is known, two counters, and
    cached facts about its own machine.

    ** Files

    - Prelude: outcomes of C code ([Ok], [Aborted], [Undef] with the kind of
      undefined behaviour), the state monad [M], total-correctness triples [wp]
      with their rules and tactics, the triples [wpe] that also say how a program may
      abort, the hint database [odr].
    - CLib: what the sources use of C and its library, on byte arrays
      ([buf = list ascii]): integers at their width, byte order, string.h,
      decimal conversions, the directives of sscanf.
    - Inet, Inet6: the address conversions of the vendored libfree (inet_ntop,
      inet_pton, inet_aton).  Cksum: the Internet checksum and the packets of
      ping and udpcksum built with it.
    - BufIO: readn, writen, readline.  StrCli: the nonblocking client of
      strclinonb.c.  SelectServ: the server of tcpservselect01.c.
    - Ring: queues in an array used in a circle.  SigIO: the datagram server of
      sigio/dgecho01.c, interrupted by its signal handler.  Pool: the server with
      a pool of threads of server/serv08.c.
    - WebChild: the service of one client, server/web_child.c, on top of BufIO.
      Prefork, PreforkLive: the server with a pool of processes, server/serv05.c and
      child05.c, which passes connections as descriptors (lib/write_fd.c, read_fd.c)
      and whose children run [web_child]: the processes, their descriptor tables and
      the invariant; its runs.
    - UdpCksum: the program of udpcksum, on top of Cksum and Conn.
    - Ifi: the interface list of the book, lib/get_ifi_info.c, with ioctl/prifinfo.c
      and the servers advio/udpserv03.c and udpserv04.c, which use it.
    - Rtt: the retransmission timer and the reliable exchange dg_send_recv.
    - Icmpd: the daemon of icmpd, which tells processes of the ICMP errors about
      their datagrams.
    - Sockaddr, Gai, Conn: socket addresses, getaddrinfo and getnameinfo, and the
      functions of lib that open the two ends of a connection with them.  FreeGai:
      the older getaddrinfo of libfree, compared with that of libgai.  Web: the
      client of nonblock/web.c, which fetches files over several connections.
    - Traceroute: the program of traceroute, with the interface [Receiver] that its
      loop needs and its two implementations for IPv4 and IPv6; the theorem is about
      these two ([version]).  PingLoop: the program ping, in the same way, on top of
      Cksum; answers are made of the packets the program has sent.
    - Frame: [struct odr_frame_struct], construct_odr, byte-order conversion,
      memory layout, the Ethernet frame of send_raw_frame, process_recvd_frame.
    - DList: doubly linked lists in a heap, with the pointer surgery of the
      sources, and the sequence they represent.
    - Node: the structures of odr.h and utils.h, all variables of the process as
      the record [node], and the class [OS]: clock, sendto, ioctl, name service,
      which are not part of the repository; theorems hold for every instance,
      under the laws they name.
    - Demo: an instance of [OS] for the ten machines of the test bed, on which
      the witnesses are evaluated.
    - Storage, Release: the storage of the interface and address lists: how
      get_hw_addrs allocates and links its structures and how free_hwa_info and
      freeaddrinfo release them.
    - Utils: utils.c except the API calls (interfaces, own address, names,
      broadcast ids, hardware addresses).
    - Ports: the port table.  RTable: the routing table.  Print: its printer.
      PQueue: the pending queue.
    - Send: the transmission functions of odr_functions.c.
    - Handlers: handle_peer_msg and handle_ethernet_msg, with one definition per
      case of the switch ([on_rreq], [on_rrep], [on_data], [on_asent]).
    - Spec: the protocol over mathematical data: a router is a finite map of
      routes, a sequence of parked messages, a counter and a clock; [spec_frame]
      and [spec_request] say what it does and what it sends.  SpecFacts:
      consequences of that specification.
    - Network: routers of [Spec] joined by links that delay, reorder and lose
      packets, as a machine driven by events.  NetDemo: small networks run on
      it.  Flood, Shortest: the spread of a route request.  Chain: a discovery
      and the delivery after it, on a chain of machines of any length.  Talk: messages
      both ways over the routes it leaves.
    - Refine, Peer: the node invariant [inv], the abstraction [abs_router], and
      the proofs that the handlers implement the specification.
    - Behaviour: the refinement at the level of received bytes, and what follows
      for the program.
    - Api: msg_send, msg_recv, get_send_params.
    - NetSim: the network of the daemons themselves, and its simulation by the
      network of routers.  NetFlood, NetBound, NetChain: the results of Shortest,
      Flood and Chain for the daemons, their heaps and the bytes they exchange.
    - Daemon: main of odr_and.c: start-up, one turn of the loop, reachability.
    - Apps: the time client and the time server.
    - System: client, server and daemons together.

    ** What the theorems show

    - The system: on a chain of machines of any length, whatever the order of
      deliveries, a client that asks for the time again and again is shown the time
      of the server at the other end, through the texts the programs exchange, the
      bytes the daemons send and the route they find (System).  This is proved for
      networks that lose nothing, as long as the kernel accepts every datagram
      ([accepted], [refused] of NetSim) and the staleness time has not passed on any
      machine ([recent] of Chain, [crecent] of NetChain), so that no route has to be
      found a second time.
    - Refinement: the handlers, down to buffers, heap nodes and byte order,
      compute what the abstract protocol computes and transmit the wire forms of
      what it sends, up to the first failing sendto (Behaviour, RTable, PQueue).
    - Safety: within 4591 turns (the number of ports before the port counter
      meets the server's port) no turn of the daemon on well-formed input
      overruns a buffer, follows a bad pointer, reads an unset value or overflows
      a counter; it fails an assertion only on a request for an unused port of its own
      machine, and ends only after a failed receive, a frame of an unknown type or a
      failed sendto (Daemon).  Well-formed are texts of msg_send and frames of
      neighbours; and since get_send_params copies texts without their terminator,
      malloc must return storage with a NUL right behind each ([clean_behind] of Api):
      otherwise the daemon reads what happens to be there.  The
      interface list gives its storage back exactly once (Release).
    - Invariants: the node invariant in every reachable state, freshness of
      routes, distinct ports and paths (Daemon, Behaviour, Ports).
    - Round trips: frames over the wire, request and delivery texts, parking and
      release, dotted addresses (Frame, Api, PQueue, Inet).
    - Bounds and termination: traffic per frame, array bounds of construct_odr,
      the SIOCGIFCONF loop, list traversals (Behaviour, Frame, Utils, Print).
    - Completion of a route discovery at the node that starts it (Behaviour).
    - The network: the daemons on their links refine the network of routers, so
      what is proved of routers holds of the routing tables of the daemons
      (NetSim); every route follows links that exist (Network); a flood ends,
      with a bound on the frames it costs (Flood, NetBound); when it has ended
      the tables of all daemons it reached hold shortest paths back, and the next
      hops lead to the origin (Shortest, NetFlood); on a chain of machines the
      daemons deliver data whatever the order of deliveries (Chain, NetChain).
    - The applications: what a session of the client and of the server sends and
      shows (Apps).
    - The library: the checksum equals the sum of RFC 1071 and is accepted where
      it was computed (Cksum); short reads and writes lose nothing (BufIO,
      StrCli, SelectServ); under every interleaving with a signal handler, or
      of threads, or of processes that pass descriptors, nothing is lost, doubled
      or stuck inside the server; a client that stays connected and silent keeps a
      thread or a process for itself, and a client with a bad request stops the whole
      server (SigIO, Pool, Prefork, PreforkLive); an exchange
      over UDP sends at most four times and returns only the matching reply
      (Rtt); a client of the ICMP daemon hears of the errors about its UDP datagrams,
      once, and of no others, unless a message that is too short ends the daemon (Icmpd);
      addresses survive printing and parsing (Inet, Inet6, Sockaddr); every
      entry of getaddrinfo honours the hints, the two implementations of it agree
      where both work (Gai, FreeGai), and the endpoint functions return
      the first usable one (Conn); the client with several connections
      fetches every file once and ends (Web, the home page first); traceroute shows the routers of the
      path to a host, in order (Traceroute); ping shows every reply to one of its
      requests and, unless verbose, nothing else (PingLoop); udpcksum sends at most three queries
      and answers from a packet that passed its checks (UdpCksum); the interface
      list of the book misses, on Linux, all but every fourth address (Ifi).
    - What the code does where it departs from its comments: an inverted
      comparison, a comparison of pointers, exchanged arguments, missing
      terminators and length checks (the last theorems of RTable, Ports,
      Behaviour, Api, Apps).

    ** Modelling choices

    A function of the sources that can fail in the sense of the C standard
    returns [chk] or runs in [M node]; [Undef] carries no state.  Pointers to
    structures that are only filled once and never shared are values; the
    routing table and the pending queue, whose nodes are shared and relinked,
    live in a heap.  Loops over lists in a heap have fuel one more than the
    number of nodes, so running out of it means the list is cyclic, and is
    proved not to happen; the loop over SIOCGIFCONF has fuel 1000, enough for
    10,080 addresses (it grows its buffer by ten each time).  [print_int] has
    twenty digits of fuel, enough for any 64-bit value.  A sendto may fail at
    any call; the log of calls and results is part of the state.
    The loops of BufIO go round once more for every interrupted call, so their
    fuel must exceed the bytes wanted plus the interruptions and reads to come
    ([patience]), which the theorems assume; running out of it is [EndlessLoop].
    The loop of Web goes round at most twice for each of its twenty files and once
    for every piece of data, so 40 and the number of pieces are enough; a list in the
    heap of Storage needs one more than its length; traceroute needs [max_ttl] lines;
    [web_child] goes round once per line, so the bytes of the stream, of the array it
    sends from and the interruptions together are enough.
    The other loops of the library recur on what they consume (bytes left,
    results of system calls, addresses, what happens to the program).  The runs of NetDemo, Flood and Shortest
    that evaluate a witness take a number of steps; the theorems on floods hold
    for runs of any length.

    ** Not modelled

    Console output except the table printer; the creation of sockets and files
    (their results are inputs); storage that is never released, as the sources
    never release it.  Of the vendored
    Stevens library the parts listed above are modelled.  Its wrappers that call
    one system function and stop on an error are the [Aborted] outcomes here.
    Left out are interface enumeration by routing sockets, multicast
    options and the example programs other than those named above.  *)

(** * Shared vocabulary *)

From Stdlib Require Export Ascii Lia.
From stdpp Require Export base tactics gmap strings numbers.
From stdpp Require Export list.

#[export] Set Default Proof Using "Type".
Declare Scope odr_scope.
Delimit Scope odr_scope with odr.
Open Scope Z_scope.

(** ** Outcomes of C code

    A C function either returns ([Ok]), stops the process ([Aborted]: a failed
    [assert], or one of the [err_quit]/[err_sys] wrappers), or has undefined
    behaviour ([Undef], with the reason).  Undefined behaviour carries no
    state: nothing is known after it. *)
Inductive ub :=
  | BufferOverflow    (** a write past the end of a [char] array *)
  | Unterminated      (** a string function run on an array without a NUL *)
  | Uninitialised     (** a value read that no statement has written *)
  | SignedOverflow    (** [int] arithmetic out of range *)
  | BadPointer        (** a null or dangling pointer followed *)
  | EndlessLoop.      (** a pointer chase that comes back to a node it visited *)

Inductive abort :=
  | AssertFailed
  | ErrExit.

Inductive outcome (S A : Type) :=
  | Ok (a : A) (s : S)
  | Aborted (w : abort)
  | Undef (u : ub).
Arguments Ok {S A} a s.
Arguments Aborted {S A} w.
Arguments Undef {S A} u.

(** Stateless code whose only effect is that it may be undefined. *)
Inductive chk (A : Type) :=
  | Def (a : A)
  | Bad (u : ub).
Arguments Def {A} a.
Arguments Bad {A} u.

#[export] Instance chk_ret : MRet chk := fun A a => Def a.
#[export] Instance chk_bind : MBind chk := fun A B f m =>
  match m with Def a => f a | Bad u => Bad u end.

Lemma chk_bind_Def {A B} (a : A) (f : A -> chk B) : (Def a ≫= f) = f a.
Proof. done. Qed.

(** Stateful code: a state monad over [outcome]. *)
Definition M (S A : Type) : Type := S -> outcome S A.

#[export] Instance M_ret {S} : MRet (M S) := fun A a s => Ok a s.
#[export] Instance M_bind {S} : MBind (M S) := fun A B f m s =>
  match m s with
  | Ok a s' => f a s'
  | Aborted w => Aborted w
  | Undef u => Undef u
  end.

Section Actions.
Context {S : Type}.

Definition get : M S S := fun s => Ok s s.
Definition modify (f : S -> S) : M S unit := fun s => Ok tt (f s).
Definition gets {A} (f : S -> A) : M S A := fun s => Ok (f s) s.
Definition abort_with {A} (w : abort) : M S A := fun _ => Aborted w.
Definition lift {A} (c : chk A) : M S A := fun s =>
  match c with Def a => Ok a s | Bad u => Undef u end.

(** [assert(p)] on a pointer that may be null: the pointer itself after the
    assertion. *)
Definition assert_some {A} (p : option A) : M S A := fun s =>
  match p with Some a => Ok a s | None => Aborted AssertFailed end.
(** A pointer followed with no check. *)
Definition follow {A} (p : option A) : M S A := fun s =>
  match p with Some a => Ok a s | None => Undef BadPointer end.
End Actions.

(** ** Total correctness

    [wp m Q s]: started in [s], [m] returns (no abort, no undefined
    behaviour) and its result and final state satisfy [Q]. *)
Definition wp {S A} (m : M S A) (Q : A -> S -> Prop) (s : S) : Prop :=
  match m s with Ok a s' => Q a s' | _ => False end.

Section Wp.
Context {S : Type}.
Implicit Types s : S.

Lemma wp_ret {A} (a : A) (Q : A -> S -> Prop) s : Q a s -> wp (mret a) Q s.
Proof. exact id. Qed.

Lemma wp_bind {A B} (m : M S A) (f : A -> M S B) Q s :
  wp m (fun a => wp (f a) Q) s -> wp (m ≫= f) Q s.
Proof. unfold wp, mbind, M_bind. by destruct (m s). Qed.

Lemma wp_mono {A} (m : M S A) (Q Q' : A -> S -> Prop) s :
  wp m Q s -> (forall a s', Q a s' -> Q' a s') -> wp m Q' s.
Proof. unfold wp. destruct (m s); auto. Qed.

Lemma wp_get Q s : Q s s -> wp get Q s.
Proof. exact id. Qed.
Lemma wp_gets {A} (f : S -> A) Q s : Q (f s) s -> wp (gets f) Q s.
Proof. exact id. Qed.
Lemma wp_modify f (Q : unit -> S -> Prop) s : Q tt (f s) -> wp (modify f) Q s.
Proof. exact id. Qed.
Lemma wp_lift {A} (c : chk A) a Q s : c = Def a -> Q a s -> wp (lift c) Q s.
Proof. by intros ->. Qed.
Lemma wp_assert_some {A} (p : option A) a Q s :
  p = Some a -> Q a s -> wp (assert_some p) Q s.
Proof. by intros ->. Qed.
Lemma wp_follow {A} (p : option A) a Q s : p = Some a -> Q a s -> wp (follow p) Q s.
Proof. by intros ->. Qed.
Lemma wp_conj {A} (m : M S A) (Q1 Q2 : A -> S -> Prop) s :
  wp m Q1 s -> wp m Q2 s -> wp m (fun a s' => Q1 a s' /\ Q2 a s') s.
Proof. unfold wp. destruct (m s); auto. Qed.

(** From the triple to the run. *)
Lemma wp_run {A} (m : M S A) Q s :
  wp m Q s <-> exists a s', m s = Ok a s' /\ Q a s'.
Proof.
  unfold wp. split.
  - destruct (m s) as [a s'| |]; [eauto | done..].
  - by intros (a & s' & -> & ?).
Qed.
End Wp.

(** ** Correctness with exits

    [wpe m Q A s]: started in [s], [m] meets no undefined behaviour; its result and
    final state satisfy [Q] if it returns, and [A] holds of the way it stops if it
    stops the process. *)
Definition wpe {S A} (m : M S A) (Q : A -> S -> Prop) (E : abort -> Prop) (s : S) : Prop :=
  match m s with Ok a s' => Q a s' | Aborted w => E w | Undef _ => False end.

Section Wpe.
Context {S : Type}.
Implicit Types s : S.

Lemma wpe_wp {A} (m : M S A) Q E s : wp m Q s -> wpe m Q E s.
Proof. unfold wp, wpe. by destruct (m s). Qed.

Lemma wp_wpe {A} (m : M S A) Q s : wpe m Q (fun _ => False) s -> wp m Q s.
Proof. unfold wp, wpe. by destruct (m s). Qed.

Lemma wpe_abort {A} w (Q : A -> S -> Prop) (E : abort -> Prop) s : E w -> wpe (abort_with w) Q E s.
Proof. exact id. Qed.

Lemma wpe_bind {A B} (m : M S A) (f : A -> M S B) Q E s :
  wpe m (fun a => wpe (f a) Q E) E s -> wpe (m ≫= f) Q E s.
Proof. unfold wpe, mbind, M_bind. by destruct (m s). Qed.

(** A part that always returns, in front of one that may stop. *)
Lemma wpe_wp_bind {A B} (m : M S A) (f : A -> M S B) Q E s :
  wp m (fun a => wpe (f a) Q E) s -> wpe (m ≫= f) Q E s.
Proof. unfold wp, wpe, mbind, M_bind. by destruct (m s). Qed.

Lemma wpe_mono {A} (m : M S A) (Q Q' : A -> S -> Prop) (E E' : abort -> Prop) s :
  wpe m Q E s -> (forall a s', Q a s' -> Q' a s') -> (forall w, E w -> E' w) -> wpe m Q' E' s.
Proof. unfold wpe. destruct (m s); auto. Qed.

Lemma wpe_post {A} (m : M S A) (Q Q' : A -> S -> Prop) E s :
  wpe m Q E s -> (forall a s', Q a s' -> Q' a s') -> wpe m Q' E s.
Proof. intros H HQ. by eapply wpe_mono. Qed.
End Wpe.

(** Equational steps, for evaluating a handler on a branch. *)
Lemma bind_Ok {S A B} (m : M S A) (f : A -> M S B) s a s' :
  m s = Ok a s' -> (m ≫= f) s = f a s'.
Proof. unfold mbind, M_bind. by intros ->. Qed.

Ltac wp_step :=
  match goal with
  | |- wp (mbind _ _) _ _ => apply wp_bind
  | |- wp (mret _) _ _ => apply wp_ret
  | |- wp get _ _ => apply wp_get
  | |- wp (gets _) _ _ => apply wp_gets
  | |- wp (modify _) _ _ => apply wp_modify
  end.
(** A [Forall] over an explicit list, taken apart. *)
Ltac split_all H := repeat (apply Forall_cons_1 in H as [? H]).

(** A [Forall] over a concatenation of pieces: the pieces are solved by
    assumption or by the lemmas of the database [odr]. *)
Create HintDb odr discriminated.
Ltac all_pieces :=
  repeat first [ assumption | solve [eauto 2 with odr] | apply Forall_app_2
               | apply Forall_cons_2; [done|] | apply Forall_nil_2 ].

Ltac wp_steps := repeat (wp_step; cbn beta).

(** ** Lists changed in one place *)

(** The elements with a property, when element [i] changes. *)
Lemma count_insert {A} (f : A -> bool) (l : list A) (i : nat) x y :
  l !! i = Some x ->
  (length (filter (fun a => f a = true) (<[i := y]> l)) + Nat.b2n (f x)
   = length (filter (fun a => f a = true) l) + Nat.b2n (f y))%nat.
Proof.
  intros Hi. rewrite <- (take_drop_middle l i x Hi) at 2.
  rewrite insert_take_drop by (by eapply lookup_lt_Some).
  rewrite !filter_app, !length_app, !filter_cons.
  destruct (f x) eqn:E1, (f y) eqn:E2; repeat case_decide; try congruence; cbn; lia.
Qed.

(** The list of what each element has, when element [i] gets more. *)
Lemma bind_insert {A B} (f : A -> list B) (l : list A) (i : nat) x y e :
  l !! i = Some x -> f y ≡ₚ f x ++ e -> (<[i := y]> l ≫= f) ≡ₚ (l ≫= f) ++ e.
Proof.
  intros Hi Hf. rewrite <- (take_drop_middle l i x Hi) at 2.
  rewrite insert_take_drop by (by eapply lookup_lt_Some). rewrite !bind_app, !bind_cons, Hf.
  rewrite <- !app_assoc. f_equiv. f_equiv. apply Permutation_app_comm.
Qed.

(** A sum over a list, when element [i] changes. *)
Lemma sum_insert {A} (f : A -> nat) (l : list A) (i : nat) x y :
  l !! i = Some x -> (sum_list_with f (<[i := y]> l) + f x = sum_list_with f l + f y)%nat.
Proof.
  revert i. induction l as [|z l IH]; intros [|i]; [done..|cbn|].
  - intros [= ->]. lia.
  - intros Hi. specialize (IH i Hi). change (<[S i := y]> (z :: l)) with (z :: <[i := y]> l).
    cbn [sum_list_with]. lia.
Qed.
