(* ===== verification/CLib.v ===== *)
(** * The C language and library the program uses

    Bytes, [int] at its 32-bit width, [char] arrays and the string functions
    of <string.h>, the decimal conversions of [sprintf]/[atoi], the directives
    of [sscanf] the sources use, and the byte order of [htonl].  The machine is
    a little-endian one with 8-bit bytes and 32-bit [int] (x86 Linux, the
    target of src/assign3/Makefile).

    A [char *] argument is modelled by the bytes from the pointer to the end
    of the object it points into ([buf]); a function that needs a string and
    finds no NUL in the object is undefined ([Unterminated]). *)

From S2P Require Import Prelude.

Abbreviation buf := (list ascii).

(** ** Bytes and machine integers *)

Definition NUL : ascii := Ascii.zero.

Definition byte_of_Z (z : Z) : ascii := ascii_of_N (Z.to_N (z mod 256)).
Definition Z_of_byte (c : ascii) : Z := Z.of_N (N_of_ascii c).

Definition INT_MAX : Z := 2147483647.
Definition INT_MIN : Z := -2147483648.
Definition int_ok (z : Z) : bool := (INT_MIN <=? z) && (z <=? INT_MAX).

(** Conversion of an unsigned 32-bit value to [int]. *)
Definition wrap_int (z : Z) : Z := (z + 2147483648) mod 4294967296 - 2147483648.

(** [int] addition: out of range it is undefined. *)
Definition int_add (a b : Z) : chk Z :=
  if int_ok (a + b) then Def (a + b) else Bad SignedOverflow.

(** The four bytes of an [int] in memory, lowest address first. *)
Definition le32 (z : Z) : buf :=
  [byte_of_Z z; byte_of_Z (z / 256); byte_of_Z (z / 65536); byte_of_Z (z / 16777216)].

Definition of_le32 (b : buf) : Z :=
  match b with
  | [b0; b1; b2; b3] =>
      Z_of_byte b0 + 256 * Z_of_byte b1 + 65536 * Z_of_byte b2 + 16777216 * Z_of_byte b3
  | _ => 0
  end.

(** [htonl]/[ntohl] on an [int] lvalue: the bytes reversed, read back as [int]. *)
Definition htonl (z : Z) : Z := wrap_int (of_le32 (reverse (le32 z))).
Definition ntohl (z : Z) : Z := htonl z.

(** [htons], as the two bytes it leaves in memory. *)
Definition htons_bytes (z : Z) : buf := [byte_of_Z (z / 256); byte_of_Z z].

(** ** Strings *)

(** The string at the start of an array: the bytes before the first NUL. *)
Fixpoint cstr (b : buf) : option buf :=
  match b with
  | [] => None
  | c :: b' => if Ascii.eqb c NUL then Some [] else (cons c) <$> cstr b'
  end.

Definition nonul (s : buf) : Prop := Forall (fun c => c <> NUL) s.

(** A string literal, with its terminating NUL. *)
Definition lit (s : string) : buf := String.list_ascii_of_string s ++ [NUL].
Definition chars (s : string) : buf := String.list_ascii_of_string s.

Definition need_str (b : buf) : chk buf :=
  match cstr b with Some s => Def s | None => Bad Unterminated end.

Definition strlen (b : buf) : chk nat := s ← need_str b; mret (length s).

(** [strcmp(a, b) == 0]. *)
Definition streq (a b : buf) : chk bool :=
  s ← need_str a; t ← need_str b; mret (bool_decide (s = t)).

Definition strcpy (dst src : buf) : chk buf :=
  s ← need_str src;
  if (length s <? length dst)%nat
  then mret (s ++ NUL :: drop (S (length s)) dst)
  else Bad BufferOverflow.

(** The [n] bytes [strncpy] writes: the string truncated to [n], padded with
    NULs. *)
Fixpoint strn (n : nat) (src : buf) : chk buf :=
  match n, src with
  | O, _ => Def []
  | S _, [] => Bad Unterminated
  | S n', c :: src' =>
      if Ascii.eqb c NUL then Def (replicate n NUL)
      else r ← strn n' src'; mret (c :: r)
  end.

Definition strncpy (dst src : buf) (n : nat) : chk buf :=
  w ← strn n src;
  if (n <=? length dst)%nat then mret (w ++ drop n dst) else Bad BufferOverflow.

Definition memcpy (dst src : buf) (n : nat) : chk buf :=
  if (n <=? length dst)%nat
  then if (n <=? length src)%nat then Def (take n src ++ drop n dst) else Bad BadPointer
  else Bad BufferOverflow.

(** ** Decimal conversions *)

Definition digit (d : Z) : ascii := byte_of_Z (48 + d).

Fixpoint dec_aux (fuel : nat) (n : Z) (acc : buf) : buf :=
  match fuel with
  | O => acc
  | S f =>
      let acc' := digit (n mod 10) :: acc in
      if n / 10 =? 0 then acc' else dec_aux f (n / 10) acc'
  end.

(** ["%d"]: twenty digits are enough for any 64-bit value. *)
Definition print_int (z : Z) : buf :=
  if z <? 0 then "-"%char :: dec_aux 20 (- z) [] else dec_aux 20 z [].

Definition isdigit (c : ascii) : bool := (48 <=? Z_of_byte c) && (Z_of_byte c <=? 57).
Definition isspace (c : ascii) : bool :=
  (Z_of_byte c =? 32) || ((9 <=? Z_of_byte c) && (Z_of_byte c <=? 13)).

Fixpoint skip_space (s : buf) : buf :=
  match s with
  | c :: s' => if isspace c then skip_space s' else s
  | [] => []
  end.

Fixpoint digits_val (s : buf) (acc : Z) : Z :=
  match s with
  | c :: s' => if isdigit c then digits_val s' (10 * acc + (Z_of_byte c - 48)) else acc
  | [] => acc
  end.

Definition atoi_val (s : buf) : Z :=
  match skip_space s with
  | c :: s' =>
      if Ascii.eqb c "-"%char then - digits_val s' 0
      else if Ascii.eqb c "+"%char then digits_val s' 0
      else digits_val (c :: s') 0
  | [] => 0
  end.

(** [atoi]: undefined when the value is not an [int]. *)
Definition atoi (b : buf) : chk Z :=
  s ← need_str b;
  let v := atoi_val s in if int_ok v then Def v else Bad SignedOverflow.

(** ** [sscanf] *)

(** The directives the sources use: a scanset (the characters it refuses) or
    [%s], each with the size of the array it fills, and a literal. *)
Inductive directive :=
  | DSet (size : nat) (stop : ascii -> bool)
  | DStr (size : nat)
  | DLit (c : ascii).

Fixpoint span (p : ascii -> bool) (s : buf) : buf * buf :=
  match s with
  | c :: s' => if p c then let '(a, r) := span p s' in (c :: a, r) else ([], s)
  | [] => ([], [])
  end.

(** The strings assigned, in order; scanning stops at the first directive that
    does not match. *)
Fixpoint sscanf_str (fmt : list directive) (s : buf) : chk (list buf) :=
  match fmt with
  | [] => Def []
  | DLit c :: fmt' =>
      match s with
      | c' :: s' => if Ascii.eqb c c' then sscanf_str fmt' s' else Def []
      | [] => Def []
      end
  | DSet size stop :: fmt' =>
      let '(w, r) := span (fun c => negb (stop c)) s in
      if (length w =? 0)%nat then Def []
      else if (length w <? size)%nat
      then ws ← sscanf_str fmt' r; mret (w :: ws) else Bad BufferOverflow
  | DStr size :: fmt' =>
      let '(w, r) := span (fun c => negb (isspace c)) (skip_space s) in
      if (length w =? 0)%nat then Def []
      else if (length w <? size)%nat
      then ws ← sscanf_str fmt' r; mret (w :: ws) else Bad BufferOverflow
  end.

Definition sscanf (b : buf) (fmt : list directive) : chk (list buf) :=
  s ← need_str b; sscanf_str fmt s.

(** * Lemmas *)

(** ** Bytes *)

Lemma Z_of_byte_range c : 0 <= Z_of_byte c < 256.
Proof. unfold Z_of_byte. pose proof (N_ascii_bounded c). lia. Qed.

Lemma Z_of_byte_of_Z z : Z_of_byte (byte_of_Z z) = z mod 256.
Proof.
  unfold Z_of_byte, byte_of_Z.
  pose proof (Z.mod_pos_bound z 256 ltac:(lia)).
  rewrite N_ascii_embedding by lia. lia.
Qed.

Lemma byte_of_Z_of_byte c : byte_of_Z (Z_of_byte c) = c.
Proof.
  unfold byte_of_Z. pose proof (Z_of_byte_range c).
  rewrite Z.mod_small by lia. unfold Z_of_byte.
  by rewrite N2Z.id, ascii_N_embedding.
Qed.

Lemma Z_of_byte_inj c d : Z_of_byte c = Z_of_byte d -> c = d.
Proof. intros H. by rewrite <- (byte_of_Z_of_byte c), H, byte_of_Z_of_byte. Qed.

Lemma int_ok_spec z : int_ok z = true <-> INT_MIN <= z <= INT_MAX.
Proof. unfold int_ok. rewrite andb_true_iff, !Z.leb_le. done. Qed.

Lemma of_le32_range b : 0 <= of_le32 b < 4294967296.
Proof.
  unfold of_le32.
  destruct b as [|b0 [|b1 [|b2 [|b3 [|]]]]]; try lia.
  pose proof (Z_of_byte_range b0); pose proof (Z_of_byte_range b1);
  pose proof (Z_of_byte_range b2); pose proof (Z_of_byte_range b3). lia.
Qed.

Lemma of_le32_le32 z : of_le32 (le32 z) = z mod 4294967296.
Proof.
  unfold of_le32, le32. rewrite !Z_of_byte_of_Z.
  pose proof (Z.div_mod z 256). pose proof (Z.mod_pos_bound z 256).
  replace (z / 65536) with (z / 256 / 256) by (by rewrite Z.div_div by lia).
  replace (z / 16777216) with (z / 256 / 256 / 256) by (by rewrite !Z.div_div by lia).
  set (q := z / 256) in *. set (q2 := q / 256). set (q3 := q2 / 256).
  pose proof (Z.div_mod q 256). pose proof (Z.div_mod q2 256).
  pose proof (Z.div_mod q3 256).
  pose proof (Z.mod_pos_bound q 256). pose proof (Z.mod_pos_bound q2 256).
  pose proof (Z.mod_pos_bound q3 256).
  apply Z.mod_unique with (q := q3 / 256); lia.
Qed.

Lemma byte_of_Z_add q (c : ascii) : byte_of_Z (Z_of_byte c + 256 * q) = c.
Proof.
  apply Z_of_byte_inj. rewrite Z_of_byte_of_Z.
  rewrite Z.mul_comm, Z.mod_add by lia. apply Z.mod_small, Z_of_byte_range.
Qed.

Lemma le32_of_le32 b : length b = 4%nat -> le32 (of_le32 b) = b.
Proof.
  intros Hl. destruct b as [|b0 [|b1 [|b2 [|b3 [|]]]]]; try done.
  unfold le32, of_le32.
  pose proof (Z_of_byte_range b0); pose proof (Z_of_byte_range b1);
  pose proof (Z_of_byte_range b2); pose proof (Z_of_byte_range b3).
  set (z := _ + _ + _ + _).
  assert (z / 256 = Z_of_byte b1 + 256 * (Z_of_byte b2 + 256 * Z_of_byte b3)) as E1
    by (symmetry; apply Z.div_unique with (r := Z_of_byte b0); subst z; lia).
  assert (z / 65536 = Z_of_byte b2 + 256 * Z_of_byte b3) as E2
    by (symmetry; apply Z.div_unique with (r := Z_of_byte b0 + 256 * Z_of_byte b1);
        subst z; lia).
  assert (z / 16777216 = Z_of_byte b3 + 256 * 0) as E3
    by (symmetry; apply Z.div_unique with
          (r := Z_of_byte b0 + 256 * Z_of_byte b1 + 65536 * Z_of_byte b2); subst z; lia).
  rewrite E1, E2, E3, !byte_of_Z_add.
  replace z with (Z_of_byte b0 + 256 * (Z_of_byte b1 + 256 * (Z_of_byte b2 + 256 * Z_of_byte b3)))
    by (subst z; lia).
  by rewrite byte_of_Z_add.
Qed.

Lemma wrap_int_id z : int_ok z = true -> wrap_int z = z.
Proof.
  rewrite int_ok_spec. unfold INT_MIN, INT_MAX, wrap_int. intros.
  rewrite Z.mod_small; lia.
Qed.

Lemma wrap_int_ok z : int_ok (wrap_int z) = true.
Proof.
  apply int_ok_spec. unfold wrap_int, INT_MIN, INT_MAX.
  pose proof (Z.mod_pos_bound (z + 2147483648) 4294967296). lia.
Qed.

Lemma wrap_int_mod z : wrap_int (z mod 4294967296) = wrap_int z.
Proof. unfold wrap_int. by rewrite Zplus_mod_idemp_l. Qed.

Lemma byte_of_Z_mod a b : a mod 256 = b mod 256 -> byte_of_Z a = byte_of_Z b.
Proof. unfold byte_of_Z. by intros ->. Qed.

Lemma le32_mod z : le32 (z mod 4294967296) = le32 z.
Proof.
  rewrite <- of_le32_le32. by rewrite le32_of_le32.
Qed.

Lemma le32_wrap z : le32 (wrap_int z) = le32 z.
Proof.
  rewrite <- le32_mod. unfold wrap_int.
  rewrite Zminus_mod_idemp_l.
  replace (z + 2147483648 - 2147483648) with z by lia.
  apply le32_mod.
Qed.

Lemma htonl_ok z : int_ok (htonl z) = true.
Proof. apply wrap_int_ok. Qed.

(** The bytes [htonl] leaves in memory are the value's, most significant
    first. *)
Lemma le32_htonl z : le32 (htonl z) = reverse (le32 z).
Proof. unfold htonl. by rewrite le32_wrap, le32_of_le32. Qed.

Lemma ntohl_htonl z : int_ok z = true -> ntohl (htonl z) = z.
Proof.
  intros Hz. unfold ntohl. unfold htonl at 1.
  rewrite le32_htonl, reverse_involutive, of_le32_le32, wrap_int_mod.
  by apply wrap_int_id.
Qed.

(** ** Strings *)

Lemma nonul_app s t : nonul (s ++ t) <-> nonul s /\ nonul t.
Proof. apply Forall_app. Qed.

Lemma cstr_app s r : nonul s -> cstr (s ++ NUL :: r) = Some s.
Proof.
  induction 1 as [|c s Hc _ IH]; [done|]. cbn.
  destruct (Ascii.eqb_spec c NUL); [done|]. by rewrite IH.
Qed.

Lemma cstr_Some b s : cstr b = Some s <-> nonul s /\ exists r, b = s ++ NUL :: r.
Proof.
  split; [|intros [? [r ->]]; by apply cstr_app].
  revert s. induction b as [|c b IH]; intros s; cbn; [done|].
  destruct (Ascii.eqb_spec c NUL) as [->|Hc].
  - intros [= <-]. split; [constructor | by exists b].
  - destruct (cstr b) as [t|]; [|done]. cbn. intros [= <-].
    destruct (IH t eq_refl) as [Ht [r ->]]. split; [by constructor | by exists r].
Qed.

Lemma cstr_nonul b s : cstr b = Some s -> nonul s.
Proof. intros [H _]%cstr_Some. done. Qed.

Lemma cstr_length b s : cstr b = Some s -> (length s < length b)%nat.
Proof. intros [_ [r ->]]%cstr_Some. rewrite length_app. cbn. lia. Qed.

Lemma cstr_lit s : nonul (chars s) -> cstr (lit s) = Some (chars s).
Proof. apply cstr_app. Qed.

Lemma cstr_term s : nonul s -> cstr (s ++ [NUL]) = Some s.
Proof. apply cstr_app. Qed.

Lemma need_str_Some b s : cstr b = Some s -> need_str b = Def s.
Proof. unfold need_str. by intros ->. Qed.

Lemma streq_Some a b s t :
  cstr a = Some s -> cstr b = Some t -> streq a b = Def (bool_decide (s = t)).
Proof. intros Ha Hb. unfold streq. by rewrite (need_str_Some _ _ Ha), (need_str_Some _ _ Hb). Qed.

Lemma strcpy_Some dst src s :
  cstr src = Some s -> (length s < length dst)%nat ->
  exists d, strcpy dst src = Def d /\ cstr d = Some s /\ length d = length dst.
Proof.
  intros Hs Hl. unfold strcpy. rewrite (need_str_Some _ _ Hs), chk_bind_Def.
  rewrite (proj2 (Nat.ltb_lt _ _) Hl). eexists. split; [done|]. split.
  - apply cstr_app. by eapply cstr_nonul.
  - rewrite length_app. cbn. rewrite length_drop. lia.
Qed.

Lemma strcpy_overflow dst src s :
  cstr src = Some s -> (length dst <= length s)%nat -> strcpy dst src = Bad BufferOverflow.
Proof.
  intros Hs Hl. unfold strcpy. rewrite (need_str_Some _ _ Hs), chk_bind_Def.
  by rewrite (proj2 (Nat.ltb_ge _ _) Hl).
Qed.

Lemma strn_short n s r :
  nonul s -> (length s < n)%nat ->
  strn n (s ++ NUL :: r) = Def (s ++ replicate (n - length s) NUL).
Proof.
  intros Hs. revert n. induction Hs as [|c s Hc _ IH]; intros n Hn.
  - destruct n; [cbn in Hn; lia|]. done.
  - destruct n as [|n]; [cbn in Hn; lia|]. cbn.
    destruct (Ascii.eqb_spec c NUL); [done|].
    cbn in Hn. rewrite IH by lia. done.
Qed.

Lemma strn_exact s r : nonul s -> strn (length s) (s ++ r) = Def s.
Proof.
  induction 1 as [|c s Hc _ IH]; [done|]. cbn.
  destruct (Ascii.eqb_spec c NUL); [done|]. by rewrite IH.
Qed.

Lemma replicate_NUL_S k r : (0 < k)%nat -> exists r', replicate k NUL ++ r = NUL :: r'.
Proof. destruct k; [lia|]. cbn. eauto. Qed.

(** A string padded with NULs to a longer array. *)
Lemma cstr_pad s n : nonul s -> (length s < n)%nat -> cstr (s ++ replicate (n - length s) NUL) = Some s.
Proof.
  intros Hs Hl. destruct (replicate_NUL_S (n - length s) []) as [r Hr]; [lia|].
  rewrite app_nil_r in Hr. rewrite Hr. by apply cstr_app.
Qed.

(** [strncpy] of a string shorter than the bound: the string, terminated. *)
Lemma strncpy_Some dst src s n :
  cstr src = Some s -> (length s < n)%nat -> (n <= length dst)%nat ->
  exists d, strncpy dst src n = Def d /\ cstr d = Some s /\ length d = length dst.
Proof.
  intros [Hs [r ->]]%cstr_Some Hl Hn. unfold strncpy. rewrite strn_short, chk_bind_Def by done.
  rewrite (proj2 (Nat.leb_le _ _) Hn). eexists. split; [done|]. split.
  - rewrite <- app_assoc.
    destruct (replicate_NUL_S (n - length s) (drop n dst)) as [r' ->]; [lia|].
    by apply cstr_app.
  - rewrite !length_app, length_replicate, length_drop. lia.
Qed.

(** [strncpy(dst, src, strlen(src))] writes no NUL: the string that results
    ends where the old contents of [dst] let it. *)
Lemma strncpy_strlen dst src s :
  cstr src = Some s -> (length s <= length dst)%nat ->
  strncpy dst src (length s) = Def (s ++ drop (length s) dst).
Proof.
  intros [Hs [r ->]]%cstr_Some Hl. unfold strncpy. rewrite strn_exact, chk_bind_Def by done.
  by rewrite (proj2 (Nat.leb_le _ _) Hl).
Qed.

Lemma memcpy_Def dst src n :
  (n <= length dst)%nat -> (n <= length src)%nat ->
  memcpy dst src n = Def (take n src ++ drop n dst).
Proof.
  intros Hd Hs. unfold memcpy.
  by rewrite (proj2 (Nat.leb_le _ _) Hd), (proj2 (Nat.leb_le _ _) Hs).
Qed.

(** ** Decimal conversions *)

Lemma Z_of_digit d : 0 <= d < 10 -> Z_of_byte (digit d) = 48 + d.
Proof. intros. unfold digit. rewrite Z_of_byte_of_Z. apply Z.mod_small. lia. Qed.

Lemma isdigit_digit d : 0 <= d < 10 -> isdigit (digit d) = true.
Proof.
  intros. unfold isdigit. rewrite Z_of_digit by done.
  apply andb_true_iff. rewrite !Z.leb_le. lia.
Qed.

Lemma Forall_dec_aux (P : ascii -> Prop) fuel n acc :
  (forall d, 0 <= d < 10 -> P (digit d)) -> Forall P acc -> Forall P (dec_aux fuel n acc).
Proof.
  intros HP. revert n acc. induction fuel as [|f IH]; intros n acc Hacc; [done|]. cbn.
  pose proof (Z.mod_pos_bound n 10).
  destruct (_ =? _); [|apply IH]; (constructor; [apply HP; lia | done]).
Qed.

Lemma digits_val_app s t acc :
  Forall (fun c => isdigit c = true) s ->
  digits_val (s ++ t) acc = digits_val t (digits_val s acc).
Proof.
  intros Hs. revert acc. induction Hs as [|c s Hc _ IH]; intros acc; [done|].
  cbn. by rewrite Hc.
Qed.

Lemma digits_val_shift s acc :
  Forall (fun c => isdigit c = true) s ->
  digits_val s acc = acc * 10 ^ Z.of_nat (length s) + digits_val s 0.
Proof.
  intros Hs. revert acc. induction Hs as [|c s Hc _ IH]; intros acc; [cbn; lia|].
  cbn [digits_val length]. rewrite Hc, IH, (IH (10 * 0 + _)).
  rewrite Nat2Z.inj_succ, Z.pow_succ_r by lia. ring.
Qed.

Lemma digits_val_dec fuel n acc :
  0 <= n < 10 ^ Z.of_nat fuel -> (fuel <> 0)%nat ->
  Forall (fun c => isdigit c = true) acc ->
  digits_val (dec_aux fuel n acc) 0
  = n * 10 ^ Z.of_nat (length acc) + digits_val acc 0.
Proof.
  revert n acc. induction fuel as [|f IH]; intros n acc Hn Hf Hacc; [done|].
  cbn [dec_aux].
  pose proof (Z.mod_pos_bound n 10 ltac:(lia)) as Hm.
  pose proof (Z.div_mod n 10 ltac:(lia)) as Hd.
  assert (isdigit (digit (n mod 10)) = true) as Hdig by (by apply isdigit_digit).
  assert (digits_val (digit (n mod 10) :: acc) 0
          = (n mod 10) * 10 ^ Z.of_nat (length acc) + digits_val acc 0) as Hv.
  { cbn [digits_val]. rewrite Hdig, Z_of_digit by done.
    rewrite digits_val_shift by done. f_equal. f_equal. lia. }
  destruct (Z.eqb_spec (n / 10) 0) as [E|E].
  - rewrite Hv. f_equal. f_equal. lia.
  - rewrite Nat2Z.inj_succ, Z.pow_succ_r in Hn by lia.
    rewrite IH.
    + rewrite Hv. cbn [length]. rewrite Nat2Z.inj_succ, Z.pow_succ_r by lia.
      rewrite Hd at 3. ring.
    + split; [apply Z.div_pos; lia | apply Z.div_lt_upper_bound; lia].
    + intros ->. rewrite Z.pow_0_r in Hn. apply E. apply Z.div_small. lia.
    + by constructor.
Qed.

Lemma dec_aux_cons fuel n acc : (fuel <> 0)%nat -> exists d s,
  0 <= d < 10 /\ dec_aux fuel n acc = digit d :: s.
Proof.
  revert n acc. induction fuel as [|f IH]; intros n acc Hf; [done|]. cbn.
  pose proof (Z.mod_pos_bound n 10 ltac:(lia)).
  destruct (_ =? _); [by eauto|].
  destruct f as [|f]; [by eauto|]. apply IH. done.
Qed.

Lemma length_dec_aux fuel n acc : (length (dec_aux fuel n acc) <= fuel + length acc)%nat.
Proof.
  revert n acc. induction fuel as [|f IH]; intros n acc; cbn; [lia|].
  destruct (_ =? _); cbn; [lia|]. etrans; [apply IH|]. cbn. lia.
Qed.

Lemma dec_aux_length k fuel n acc :
  0 <= n < 10 ^ Z.of_nat k -> (0 < k)%nat ->
  (length (dec_aux fuel n acc) <= k + length acc)%nat.
Proof.
  revert k n acc. induction fuel as [|f IH]; intros k n acc Hn Hk; cbn; [lia|].
  destruct (Z.eqb_spec (n / 10) 0) as [E|E]; cbn; [lia|].
  destruct k as [|k]; [lia|].
  rewrite Nat2Z.inj_succ, Z.pow_succ_r in Hn by lia.
  assert (0 < k)%nat.
  { destruct k; [|lia]. rewrite Z.pow_0_r in Hn. exfalso. apply E. apply Z.div_small. lia. }
  etrans; [apply (IH k)|cbn; lia]; [|done].
  split; [apply Z.div_pos; lia | apply Z.div_lt_upper_bound; lia].
Qed.

(** An [int] takes at most eleven characters. *)
Lemma length_print_int z : int_ok z = true -> (length (print_int z) <= 11)%nat.
Proof.
  rewrite int_ok_spec. unfold INT_MIN, INT_MAX, print_int. intros Hz.
  destruct (Z.ltb_spec z 0).
  - pose proof (dec_aux_length 10 20 (- z) [] ltac:(lia) ltac:(lia)) as H1.
    cbn [length] in *. lia.
  - pose proof (dec_aux_length 10 20 z [] ltac:(lia) ltac:(lia)) as H1.
    cbn [length] in *. lia.
Qed.

(** Every character of ["%d"] output is a digit or the minus sign. *)
Lemma Forall_print_int (P : ascii -> Prop) z :
  P "-"%char -> (forall d, 0 <= d < 10 -> P (digit d)) -> Forall P (print_int z).
Proof.
  intros Hm Hd. unfold print_int.
  destruct (z <? 0); [constructor; [done|]|]; by apply Forall_dec_aux.
Qed.

Lemma print_int_cons z : exists c s, print_int z = c :: s.
Proof.
  unfold print_int. destruct (z <? 0); [eauto|].
  destruct (dec_aux_cons 20 z []) as (d & s & _ & ->); [done|eauto].
Qed.

(** A test on characters that fails on each digit fails on any digit. *)
Lemma digit_forall (p : ascii -> bool) :
  forallb p (map (fun d => digit (Z.of_nat d)) (seq 0 10)) = true ->
  forall d, 0 <= d < 10 -> p (digit d) = true.
Proof.
  intros H d Hd. rewrite forallb_forall in H.
  apply H. apply in_map_iff. exists (Z.to_nat d).
  rewrite Z2Nat.id by lia. split; [done|]. apply in_seq. lia.
Qed.

Lemma nonul_print_int z : nonul (print_int z).
Proof.
  apply Forall_print_int; [done|]. intros d Hd Heq.
  pose proof (digit_forall (fun c => negb (Ascii.eqb c NUL)) eq_refl d Hd) as H.
  by rewrite Heq in H.
Qed.
#[export] Hint Resolve nonul_print_int : odr.
#[export] Hint Extern 1 (Forall _ (print_int _)) => apply nonul_print_int : odr.

Lemma digits_val_stop s r acc :
  Forall (fun c => isdigit c = true) s ->
  (forall c r', r = c :: r' -> isdigit c = false) ->
  digits_val (s ++ r) acc = digits_val s acc.
Proof.
  intros Hs Hr. rewrite digits_val_app by done.
  destruct r as [|c r]; [done|]. cbn. by rewrite (Hr c r eq_refl).
Qed.

Lemma skip_space_cons c s : isspace c = false -> skip_space (c :: s) = c :: s.
Proof. cbn. by intros ->. Qed.

Lemma isspace_digit d : 0 <= d < 10 -> isspace (digit d) = false.
Proof.
  intros Hd. apply negb_true_iff.
  by apply (digit_forall (fun c => negb (isspace c)) eq_refl).
Qed.

Lemma eqb_minus_digit d : 0 <= d < 10 -> Ascii.eqb (digit d) "-"%char = false.
Proof.
  intros Hd. apply negb_true_iff.
  by apply (digit_forall (fun c => negb (Ascii.eqb c "-"%char)) eq_refl).
Qed.

Lemma eqb_plus_digit d : 0 <= d < 10 -> Ascii.eqb (digit d) "+"%char = false.
Proof.
  intros Hd. apply negb_true_iff.
  by apply (digit_forall (fun c => negb (Ascii.eqb c "+"%char)) eq_refl).
Qed.

(** [atoi] reads back what ["%d"] printed, whatever non-digit follows. *)
Lemma atoi_val_print z r :
  int_ok z = true ->
  (forall c r', r = c :: r' -> isdigit c = false) ->
  atoi_val (print_int z ++ r) = z.
Proof.
  rewrite int_ok_spec. unfold INT_MIN, INT_MAX. intros Hz Hr.
  assert (forall n, 0 <= n <= 2147483648 ->
            digits_val (dec_aux 20 n [] ++ r) 0 = n) as Hdec.
  { intros n Hn.
    rewrite digits_val_stop; [|by apply Forall_dec_aux; [apply isdigit_digit|]|done].
    rewrite digits_val_dec by (done || lia). cbn. lia. }
  unfold atoi_val, print_int. destruct (Z.ltb_spec z 0).
  - cbn [app]. rewrite skip_space_cons by done. rewrite Ascii.eqb_refl, Hdec; lia.
  - specialize (Hdec z). revert Hdec.
    destruct (dec_aux_cons 20 z []) as (d & s & Hd & ->); [done|].
    cbn [app]. rewrite skip_space_cons by (by apply isspace_digit).
    rewrite eqb_minus_digit, eqb_plus_digit by done. intros Hdec. apply Hdec. lia.
Qed.

Lemma atoi_print z r :
  int_ok z = true -> atoi (print_int z ++ NUL :: r) = Def z.
Proof.
  intros Hz. unfold atoi.
  rewrite (need_str_Some _ (print_int z)) by (apply cstr_app, nonul_print_int).
  rewrite chk_bind_Def. pose proof (atoi_val_print z [] Hz) as E.
  rewrite app_nil_r in E. rewrite E by done. by rewrite Hz.
Qed.

(** ** [sscanf] *)

Lemma span_app p w r :
  Forall (fun c => p c = true) w ->
  (forall c r', r = c :: r' -> p c = false) ->
  span p (w ++ r) = (w, r).
Proof.
  induction 1 as [|c w Hc _ IH]; intros Hr.
  - destruct r as [|c r]; [done|]. cbn. by rewrite (Hr c r eq_refl).
  - cbn. rewrite Hc, IH by done. done.
Qed.

(** One scanset directive followed by the literal that ends it. *)
Lemma sscanf_set_lit size stop c fmt w r :
  Forall (fun x => stop x = false) w -> stop c = true ->
  (0 < length w < size)%nat ->
  sscanf_str (DSet size stop :: DLit c :: fmt) (w ++ c :: r)
  = (ws ← sscanf_str fmt r; mret (w :: ws)).
Proof.
  intros Hw Hc Hl. cbn [sscanf_str].
  rewrite span_app.
  - rewrite (proj2 (Nat.eqb_neq _ _)) by lia.
    rewrite (proj2 (Nat.ltb_lt _ _)) by lia. by rewrite Ascii.eqb_refl.
  - eapply Forall_impl; [exact Hw|]. by intros x ->.
  - intros x r' [= <- _]. by rewrite Hc.
Qed.

(** A final [%s] that stops at the first white space. *)
Lemma sscanf_str_last size w r :
  Forall (fun c => isspace c = false) w ->
  (forall c r', r = c :: r' -> isspace c = true) ->
  (0 < length w < size)%nat ->
  sscanf_str [DStr size] (w ++ r) = Def [w].
Proof.
  intros Hw Hr Hl. cbn [sscanf_str].
  destruct w as [|c w]; [cbn in Hl; lia|].
  change ((c :: w) ++ r) with (c :: (w ++ r)).
  rewrite skip_space_cons by (by inversion Hw).
  change (c :: (w ++ r)) with ((c :: w) ++ r).
  rewrite span_app.
  - rewrite (proj2 (Nat.eqb_neq _ _)) by lia.
    by rewrite (proj2 (Nat.ltb_lt _ _)) by lia.
  - eapply Forall_impl; [exact Hw|]. by intros x ->.
  - intros x r' E. by rewrite (Hr x r' E).
Qed.

(** A scanset at the end of the format: [%[^:]] and the like. *)
Lemma sscanf_set_last size stop w r :
  Forall (fun x => stop x = false) w ->
  (forall c r', r = c :: r' -> stop c = true) ->
  (0 < length w < size)%nat ->
  sscanf_str [DSet size stop] (w ++ r) = Def [w].
Proof.
  intros Hw Hr Hl. cbn [sscanf_str]. rewrite span_app.
  - rewrite (proj2 (Nat.eqb_neq _ _)) by lia.
    by rewrite (proj2 (Nat.ltb_lt _ _)) by lia.
  - eapply Forall_impl; [exact Hw|]. by intros x ->.
  - intros x r' E. by rewrite (Hr x r' E).
Qed.
