(* ===== verification/Storage.v ===== *)
(** * Lists of structures on the heap

    get_hw_addrs (utils.c), get_ifi_info (lib) and getaddrinfo (libgai) return lists
    of structures, each with some blocks of its own (addresses, names), built through
    a pointer to the last link; free_hwa_info, free_ifi_info and freeaddrinfo release
    them.  The files that model these functions work with the lists as values; here
    are their links and their storage, and the proof that storage is given back
    exactly once. *)

From stdpp Require Import gmap.
From S2P Require Import Prelude CLib.

Abbreviation place := positive.

Section Storage.
Context {A D : Type}.

(** A block: a structure (its contents, the pointers to its blocks, the link) or a
    block of its own. *)
Inductive block := BNode (a : A) (owned : list (option place)) (next : option place) | BData (b : D).
Abbreviation heap := (gmap place block).

(** [Calloc]. *)
Definition calloc (b : block) (m : heap) : place * heap :=
  let x := fresh (dom m : gset place) in (x, <[x := b]> m).

(** The list under construction: its head, and the structure whose link the pointer to
    the last link points to, [None] for the head itself. *)
Record building := Building { store : heap; first : option place; latest : option place }.

(** [*pnext = x]. *)
Definition set_link (b : building) (x : place) : chk building :=
  match latest b with
  | None => Def (Building (store b) (Some x) (latest b))
  | Some z =>
      match store b !! z with
      | Some (BNode a os _) => Def (Building (<[z := BNode a os (Some x)]> (store b)) (first b) (latest b))
      | _ => Bad BadPointer
      end
  end.

(** The blocks of a structure, those it has: allocated, filled, and the pointer set. *)
Fixpoint alloc_owned (x : place) (j : nat) (ds : list (option D)) (m : heap) : chk heap :=
  match ds with
  | [] => Def m
  | None :: ds' => alloc_owned x (S j) ds' m
  | Some d :: ds' =>
      let '(y, m1) := calloc (BData d) m in
      match m1 !! x with
      | Some (BNode a os nx) => alloc_owned x (S j) ds' (<[x := BNode a (<[j := Some y]> os) nx]> m1)
      | _ => Bad BadPointer
      end
  end.

(** One structure: allocated, linked in, the pointer to the last link moved, its blocks
    allocated. *)
Definition append_node (n : A * list (option D)) (b : building) : chk building :=
  let '(x, m1) := calloc (BNode n.1 (replicate (length n.2) None) None) (store b) in
  b2 ← set_link (Building m1 (first b) (latest b)) x;
  m2 ← alloc_owned x 0 n.2 (store b2);
  mret (Building m2 (first b2) (Some x)).

Fixpoint append_all (l : list (A * list (option D))) (b : building) : chk building :=
  match l with
  | [] => Def b
  | n :: l' => b' ← append_node n b; append_all l' b'
  end.

(** What a caller sees when it follows the links. *)
Definition see (m : heap) (o : option place) : chk (option D) :=
  match o with
  | None => Def None
  | Some y => match m !! y with Some (BData b) => Def (Some b) | _ => Bad BadPointer end
  end.
Fixpoint see_all (m : heap) (os : list (option place)) : chk (list (option D)) :=
  match os with
  | [] => Def []
  | o :: os' => d ← see m o; ds ← see_all m os'; mret (d :: ds)
  end.
Fixpoint walk (fuel : nat) (p : option place) (m : heap) : chk (list (A * list (option D))) :=
  match fuel, p with
  | O, _ => Bad EndlessLoop
  | S _, None => Def []
  | S fuel', Some x =>
      match m !! x with
      | Some (BNode a os nx) => ds ← see_all m os; l ← walk fuel' nx m; mret ((a, ds) :: l)
      | _ => Bad BadPointer
      end
  end.

(** [free]: a null pointer is let pass. *)
Definition free (p : option place) (m : heap) : chk heap :=
  match p with
  | None => Def m
  | Some x => if m !! x then Def (delete x m) else Bad BadPointer
  end.
Fixpoint free_owned (os : list (option place)) (m : heap) : chk heap :=
  match os with
  | [] => Def m
  | o :: os' => m1 ← free o m; free_owned os' m1
  end.

(** The loop of the three functions: the blocks, then the structure, whose link is
    fetched before it is released. *)
Fixpoint free_chain (fuel : nat) (p : option place) (m : heap) : chk heap :=
  match fuel, p with
  | O, _ => Bad EndlessLoop
  | S _, None => Def m
  | S fuel', Some x =>
      match m !! x with
      | Some (BNode _ os _) =>
          m1 ← free_owned os m;
          match m1 !! x with
          | Some (BNode _ _ next) => m2 ← free (Some x) m1; free_chain fuel' next m2
          | _ => Bad BadPointer
          end
      | _ => Bad BadPointer
      end
  end.

(** * Lemmas *)

(** The nodes of a list: the place of the structure, the pointers to its blocks, its
    contents and those of its blocks.  [links m p ns q]: they are linked from [p] on,
    and the last link is [q]. *)
Abbreviation nodes := (list (place * list (option place) * (A * list (option D)))).

Definition holds (m : heap) (o : option place) (d : option D) : Prop :=
  match o, d with
  | None, None => True
  | Some y, Some b => m !! y = Some (BData b)
  | _, _ => False
  end.

Fixpoint links (m : heap) (p : option place) (ns : nodes) (q : option place) : Prop :=
  match ns with
  | [] => p = q
  | (x, os, (a, ds)) :: ns' =>
      p = Some x /\ exists nx, m !! x = Some (BNode a os nx) /\ Forall2 (holds m) os ds /\ links m nx ns' q
  end.

Definition given (os : list (option place)) : list place := omap id os.
Definition places (ns : nodes) : list place := ns ≫= fun n => n.1.1 :: given n.1.2.

Lemma places_app ns ns' : places (ns ++ ns') = places ns ++ places ns'.
Proof. apply bind_app. Qed.

Lemma given_elem y os : y ∈ given os <-> Some y ∈ os.
Proof. unfold given. rewrite list_elem_of_omap. split; [intros (o & H & E); cbn in E; by subst|]. intros H. by exists (Some y). Qed.

Lemma links_app m p ns ns' q :
  links m p (ns ++ ns') q <-> exists r, links m p ns r /\ links m r ns' q.
Proof.
  revert p. induction ns as [|[[x os] [a ds]] ns IH]; intros p; cbn; [naive_solver|].
  split.
  - intros (-> & nx & H1 & H2 & H3). apply IH in H3 as (r & H4 & H5). exists r. split; [|done]. eauto.
  - intros (r & (-> & nx & H1 & H2 & H3) & H5). split; [done|]. exists nx. split_and!; [done..|]. apply IH. by exists r.
Qed.

(** Other places do not matter. *)
Lemma holds_ext m m' os ds :
  (forall y, y ∈ given os -> m' !! y = m !! y) -> Forall2 (holds m) os ds -> Forall2 (holds m') os ds.
Proof.
  intros Hm H. induction H as [|o d os ds Ho H IH]; constructor.
  - destruct o as [y|], d as [b|]; try done. cbn. rewrite Hm; [done|]. apply given_elem. left.
  - apply IH. intros y Hy. apply Hm. apply given_elem. right. by apply given_elem.
Qed.

Lemma links_ext m m' p ns q :
  (forall x, x ∈ places ns -> m' !! x = m !! x) -> links m p ns q -> links m' p ns q.
Proof.
  revert p. induction ns as [|[[x os] [a ds]] ns IH]; intros p Hm; cbn; [done|].
  intros (-> & nx & H1 & H2 & H3). split; [done|]. exists nx. cbn in Hm.
  split; [rewrite Hm by (left); done|]. split.
  - eapply holds_ext, H2. intros y Hy. apply Hm. right. apply elem_of_app. by left.
  - apply IH; [|done]. intros z Hz. apply Hm. right. apply elem_of_app. by right.
Qed.

Lemma links_places m p ns q x : links m p ns q -> x ∈ places ns -> is_Some (m !! x).
Proof.
  revert p. induction ns as [|[[y os] [a ds]] ns IH]; intros p; cbn; [by intros _ ?%not_elem_of_nil|].
  intros (_ & nx & H1 & H2 & H3) [->|[Hx|Hx]%elem_of_app]%elem_of_cons; [by eexists| |by eapply IH].
  apply given_elem in Hx. apply list_elem_of_lookup_1 in Hx as [i Hi].
  destruct (Forall2_lookup_l _ _ _ _ _ H2 Hi) as ([b|] & _ & Hb); [by eexists|done].
Qed.

Lemma calloc_fresh (m : heap) : m !! fresh (dom m : gset place) = None.
Proof. apply not_elem_of_dom, is_fresh. Qed.

(** The blocks of a structure, allocated one after the other. *)
Lemma alloc_owned_spec x ds : forall m a pre nx,
  m !! x = Some (BNode a (pre ++ replicate (length ds) None) nx) ->
  exists m' os', alloc_owned x (length pre) ds m = Def m' /\ m' !! x = Some (BNode a (pre ++ os') nx) /\
    Forall2 (holds m') os' ds /\ NoDup (given os') /\ (forall y, y ∈ given os' -> m !! y = None) /\
    (forall y, y <> x -> y ∉ given os' -> m' !! y = m !! y).
Proof.
  induction ds as [|[d|] ds IH]; intros m a pre nx Hx; cbn [alloc_owned length replicate] in *.
  { exists m, []. split_and!; try done; [constructor|by intros y ?%not_elem_of_nil]. }
  - unfold calloc. set (y := fresh (dom m)). assert (Hy : m !! y = None) by apply calloc_fresh.
    assert (Hxy : x <> y) by congruence. cbn beta iota zeta. rewrite lookup_insert_ne, Hx by done.
    rewrite (insert_app_r_alt pre), Nat.sub_diag by lia.
    change (<[0%nat := Some y]> (None :: replicate (length ds) None)) with (Some y :: replicate (length ds) (@None place)).
    set (m2 := <[x := _]> _).
    destruct (IH m2 a (pre ++ [Some y]) nx) as (m' & os' & E & Hx' & Hh & Hnd & Hnew & Hold).
    { unfold m2. rewrite lookup_insert_eq. by rewrite <- app_assoc. }
    assert (m2 !! y = Some (BData d)) as Hy2 by (unfold m2; by rewrite lookup_insert_ne, lookup_insert_eq).
    assert (y ∉ given os') as Hyn by (intros H%Hnew; congruence).
    exists m', (Some y :: os'). rewrite length_app, Nat.add_1_r in E. split; [done|].
    split; [by rewrite Hx', <- app_assoc|]. split; [|split; [|split]].
    + constructor; [|done]. cbn. by rewrite Hold.
    + cbn. by constructor.
    + cbn. intros z [->|Hz]%elem_of_cons; [done|]. apply Hnew in Hz as Hz'. unfold m2 in Hz'.
      rewrite !lookup_insert_None in Hz'. tauto.
    + intros z Hzx Hz. cbn in Hz. rewrite Hold; [|done|by intros ?; apply Hz; right]. unfold m2.
      rewrite !lookup_insert_ne; [done| |done]. intros ->. apply Hz. left.
  - destruct (IH m a (pre ++ [None]) nx) as (m' & os' & E & Hx' & Hh & Hnd & Hnew & Hold); [by rewrite <- app_assoc|].
    exists m', (None :: os'). rewrite length_app, Nat.add_1_r in E. split; [done|].
    split; [by rewrite Hx', <- app_assoc|]. split; [by constructor|]. done.
Qed.

(** The state between two structures: [ns] on top of what was there before. *)
Record built (m0 : heap) (ns : nodes) (b : building) : Prop := {
  bu_links : links (store b) (first b) ns None;
  bu_nodup : NoDup (places ns);
  bu_last : latest b = (fun n => n.1.1) <$> last ns;
  bu_new : forall x, x ∈ places ns -> m0 !! x = None;
  bu_old : forall x, x ∉ places ns -> store b !! x = m0 !! x;
}.

(** Setting the link of the last structure. *)
Lemma set_link_built m0 ns b x m1 :
  built m0 ns b -> x ∉ places ns ->
  (forall z, z ∈ places ns -> m1 !! z = store b !! z) ->
  exists m2 hd, set_link (Building m1 (first b) (latest b)) x = Def (Building m2 hd (latest b)) /\
    links m2 hd ns (Some x) /\ forall z, z ∉ places ns -> m2 !! z = m1 !! z.
Proof.
  intros [Hl Hnd Hlast _ _] Hx Hm. unfold set_link. cbn [latest store first].
  destruct ns as [|[[z os] [a ds]] ns _] using rev_ind.
  { cbn in Hlast. rewrite Hlast. by exists m1, (Some x). }
  rewrite last_snoc in Hlast. cbn in Hlast. rewrite Hlast.
  rewrite places_app in *. cbn in Hx, Hnd, Hm |- *. rewrite app_nil_r in *.
  apply links_app in Hl as (r & Hl & -> & nx & H1 & H2 & _).
  rewrite (Hm z), H1 by (apply elem_of_app; right; left). eexists _, _. split; [done|].
  apply NoDup_app in Hnd as (_ & Hd & Hz). apply NoDup_cons in Hz as [Hz _].
  split.
  - apply links_app. exists (Some z). split.
    + eapply links_ext, Hl. intros v Hv. rewrite lookup_insert_ne; [apply Hm, elem_of_app; by left|].
      intros <-. apply (Hd z Hv). left.
    + cbn. split; [done|]. exists (Some x). rewrite lookup_insert_eq. split; [done|]. split; [|done].
      eapply holds_ext, H2. intros y Hy. rewrite lookup_insert_ne by (intros ->; done).
      apply Hm, elem_of_app. right. by right.
  - intros v Hv. rewrite lookup_insert_ne; [done|]. intros ->. apply Hv, elem_of_app. right. left.
Qed.

(** One structure more. *)
Lemma append_node_built m0 ns b n :
  built m0 ns b -> exists x os b', append_node n b = Def b' /\ built m0 (ns ++ [(x, os, n)]) b'.
Proof.
  intros Hb. destruct n as [a ds]. unfold append_node, calloc. cbn [fst snd].
  set (x := fresh (dom (store b))). set (m1 := <[x:=_]> (store b)).
  assert (Hx : store b !! x = None) by apply calloc_fresh.
  assert (Hxns : x ∉ places ns).
  { intros Hin. apply (links_places _ _ _ _ _ (bu_links _ _ _ Hb)) in Hin as [? ?]. congruence. }
  destruct (set_link_built m0 ns b x m1 Hb Hxns) as (m2 & hd & -> & Hl2 & Hm2).
  { intros z Hz. apply lookup_insert_ne. by intros ->. }
  rewrite chk_bind_Def. cbn [store first].
  assert (Hx2 : m2 !! x = Some (BNode a ([] ++ replicate (length ds) None) None)) by (rewrite Hm2 by done; apply lookup_insert_eq).
  destruct (alloc_owned_spec x ds m2 a [] None Hx2) as (m3 & os & E & Hx3 & Hh & Hnd3 & Hnew3 & Hold3).
  cbn [length] in E. rewrite E, chk_bind_Def. exists x, os. eexists. split; [done|].
  assert (Hxos : x ∉ given os) by (intros H%Hnew3; congruence).
  assert (Hnsos : forall z, z ∈ places ns -> z ∉ given os).
  { intros z Hz H%Hnew3. apply (links_places _ _ _ _ _ Hl2) in Hz as [? ?]. congruence. }
  destruct Hb as [Hl Hnd Hlast Hnew Hold].
  split; cbn [store first latest]; rewrite ?places_app; cbn; rewrite ?app_nil_r.
  - apply links_app. exists (Some x). split.
    + eapply links_ext, Hl2. intros z Hz. apply Hold3; [by intros ->|by apply Hnsos].
    + cbn. split; [done|]. by exists None.
  - apply NoDup_app. split_and!; [done| |by constructor]. intros z Hz [->|H]%elem_of_cons; [done|]. by apply (Hnsos z).
  - by rewrite last_snoc.
  - intros z [Hz|[->|Hz]%elem_of_cons]%elem_of_app; [by apply Hnew| |].
    + by rewrite <- Hold.
    + assert (z ∉ places ns) as Hzn by (intros H; by apply (Hnsos z H)). rewrite <- Hold by done.
      apply Hnew3 in Hz. rewrite Hm2 in Hz by done. apply lookup_insert_None in Hz. tauto.
  - intros z Hz. assert (z ∉ places ns /\ z <> x /\ z ∉ given os) as (H1 & H2 & H3).
    { split_and!; [|intros ->|]; [intros ?; apply Hz, elem_of_app; by left|apply Hz, elem_of_app; right; left|].
      intros ?. apply Hz, elem_of_app. right. by right. }
    rewrite Hold3, Hm2 by done. unfold m1. rewrite lookup_insert_ne by done. by apply Hold.
Qed.

Lemma append_all_built m0 l ns b :
  built m0 ns b -> exists ns' b', append_all l b = Def b' /\ built m0 (ns ++ ns') b' /\ ns'.*2 = l.
Proof.
  revert ns b. induction l as [|n l IH]; intros ns b Hb; cbn [append_all].
  { exists [], b. by rewrite app_nil_r. }
  destruct (append_node_built m0 ns b n Hb) as (x & os & b1 & -> & Hb1).
  destruct (IH _ _ Hb1) as (ns' & b' & Hr & Hb' & Hl). exists ((x, os, n) :: ns'), b'.
  rewrite <- app_assoc in Hb'. split_and!; [done|done|]. cbn. by f_equal.
Qed.

Lemma see_holds m os ds : Forall2 (holds m) os ds -> see_all m os = Def ds.
Proof.
  induction 1 as [|o d os ds Ho _ IH]; [done|]. cbn [see_all].
  assert (see m o = Def d) as -> by (destruct o, d; cbn in *; try done; by rewrite Ho). by rewrite chk_bind_Def, IH.
Qed.

Lemma walk_links m p ns : links m p ns None -> walk (S (length ns)) p m = Def (ns.*2).
Proof.
  revert p. induction ns as [|[[x os] [a ds]] ns IH]; intros p; [by intros ->|].
  intros (-> & nx & H1 & H2 & H3). cbn [length]. specialize (IH nx H3).
  remember (S (length ns)) as n. cbn [walk]. by rewrite H1, (see_holds _ _ _ H2), chk_bind_Def, IH.
Qed.

(** Releasing the blocks of a structure. *)
Lemma free_owned_spec os : forall m,
  NoDup (given os) -> (forall y, y ∈ given os -> is_Some (m !! y)) ->
  exists m', free_owned os m = Def m' /\ (forall z, z ∈ given os -> m' !! z = None) /\
    (forall z, z ∉ given os -> m' !! z = m !! z).
Proof.
  induction os as [|[y|] os IH]; intros m Hnd Hm; cbn [free_owned].
  { exists m. split; [done|]. split; [by intros z ?%not_elem_of_nil|done]. }
  - cbn in Hnd, Hm. apply NoDup_cons in Hnd as [Hy Hnd]. destruct (Hm y ltac:(left)) as [b Hb].
    cbn [free]. rewrite Hb, chk_bind_Def. destruct (IH (delete y m) Hnd) as (m' & -> & Hin & Hout).
    { intros z Hz. rewrite lookup_delete_ne by (by intros ->). apply Hm. by right. }
    exists m'. split; [done|]. cbn. split.
    + intros z [->|Hz]%elem_of_cons; [|by apply Hin]. rewrite Hout by done. apply lookup_delete_eq.
    + intros z Hz. rewrite Hout by (intros ?; apply Hz; by right). apply lookup_delete_ne. intros ->. apply Hz. left.
  - cbn [free]. rewrite chk_bind_Def. by apply IH.
Qed.

(** Releasing the list takes exactly its places away. *)
Lemma free_links ns : forall m p,
  NoDup (places ns) -> links m p ns None ->
  exists m', free_chain (S (length ns)) p m = Def m' /\
    (forall z, z ∈ places ns -> m' !! z = None) /\ (forall z, z ∉ places ns -> m' !! z = m !! z).
Proof.
  induction ns as [|[[x os] [a ds]] ns IH]; intros m p Hnd Hlk.
  { rewrite Hlk. exists m. split; [done|]. split; [by intros z ?%not_elem_of_nil|done]. }
  assert (Hsome : forall z, z ∈ places ((x, os, (a, ds)) :: ns) -> is_Some (m !! z)) by (intros z; by eapply links_places).
  destruct Hlk as (-> & nx & H1 & H2 & H3). cbn in Hnd, Hsome.
  apply NoDup_cons in Hnd as [Hx Hnd]. apply NoDup_app in Hnd as (Hos & Hdis & Hnd).
  destruct (free_owned_spec os m Hos) as (m1 & E1 & Hin1 & Hout1).
  { intros y Hy. apply Hsome. right. apply elem_of_app. by left. }
  assert (x ∉ given os /\ x ∉ places ns) as [Hxo Hxn] by (split; intros ?; apply Hx, elem_of_app; auto).
  assert (m1 !! x = Some (BNode a os nx)) as Hx1 by by rewrite Hout1.
  destruct (IH (delete x m1) nx Hnd) as (m' & Hf & Hin & Hout).
  { eapply links_ext, H3. intros z Hz. rewrite lookup_delete_ne by (by intros ->). apply Hout1. intros ?. by apply (Hdis z). }
  exists m'. cbn [length]. remember (S (length ns)) as n. cbn [free_chain].
  rewrite H1, E1, chk_bind_Def, Hx1. cbn [free]. rewrite Hx1, chk_bind_Def. split; [done|]. cbn. split.
  - intros z [->|[Hz|Hz]%elem_of_app]%elem_of_cons; [..|by apply Hin].
    + rewrite Hout by done. apply lookup_delete_eq.
    + assert (z <> x) by (by intros ->). rewrite Hout by (by apply Hdis). rewrite lookup_delete_ne by done. by apply Hin1.
  - intros z Hz. assert (z <> x /\ z ∉ given os /\ z ∉ places ns) as (N1 & N2 & N3).
    { split_and!; [intros ->; apply Hz; left|intros ?; apply Hz; right; apply elem_of_app; by left|].
      intros ?. apply Hz. right. apply elem_of_app. by right. }
    rewrite Hout, lookup_delete_ne by done. by apply Hout1.
Qed.

(** * Theorems *)

(** A list that is built is read back by following its links, and releasing it gives
    back all of its storage: afterwards the heap is what it was before, nothing is
    released twice and nothing is left. *)
Theorem storage_returned (m0 : heap) (l : list (A * list (option D))) :
  exists b, append_all l (Building m0 None None) = Def b /\
    walk (S (length l)) (first b) (store b) = Def l /\
    free_chain (S (length l)) (first b) (store b) = Def m0.
Proof.
  destruct (append_all_built m0 l [] (Building m0 None None)) as (ns & b & Hr & [Hl Hnd _ Hnew Hold] & Hns).
  { split; cbn; [done|constructor|done|by intros x ?%not_elem_of_nil|done]. }
  cbn [app] in *. exists b. split; [done|].
  assert (Hlen : length l = length ns) by (rewrite <- Hns; apply length_fmap). rewrite Hlen.
  split; [rewrite <- Hns; by apply walk_links|].
  destruct (free_links ns _ _ Hnd Hl) as (m' & -> & Hin & Hout). f_equal. apply map_eq. intros z.
  destruct (decide (z ∈ places ns)) as [Hz|Hz].
  - by rewrite Hin, Hnew.
  - by rewrite Hout, Hold.
Qed.
End Storage.
Arguments block : clear implicits.
Arguments building : clear implicits.
