(* ===== verification/Inet.v ===== *)
(** * Presentation format of IPv4 addresses

    Stevens/unpv13e/libfree/inet_ntop.c and inet_pton.c, the IPv4 half: the
    conversions the routing daemon uses to keep addresses as dotted-quad
    strings ([get_self_ip], [get_name_ip], [get_canonical_ip] of utils.c).
    An [in_addr] is its four bytes in network order. *)

From S2P Require Import Prelude CLib.

Definition INET_ADDRSTRLEN : nat := 16.
Definition ENOSPC : Z := 28.

(** ** [inet_ntop4] *)

(** ["%u.%u.%u.%u"] of four bytes. *)
Definition dotted_quad (src : buf) : buf :=
  match src with
  | [a; b; c; d] =>
      print_int (Z_of_byte a) ++ "."%char :: print_int (Z_of_byte b) ++ "."%char ::
      print_int (Z_of_byte c) ++ "."%char :: print_int (Z_of_byte d)
  | _ => []
  end.

(** The result is [dst] after the call, or the error number on the [NULL]
    return. *)
Definition inet_ntop4 (src dst : buf) (size : nat) : chk (Z + buf) :=
  if negb (length src =? 4)%nat then Bad BadPointer else
  tmp ← strcpy (replicate INET_ADDRSTRLEN NUL) (dotted_quad src ++ [NUL]);
  n ← strlen tmp;
  if (size <? n)%nat then mret (inl ENOSPC)
  else dst' ← strcpy dst tmp; mret (inr dst').

(** ** [inet_pton4] *)

(** The scanning loop.  [tmp] holds the cells of the array written so far, the
    one [tp] points at first. *)
Fixpoint pton4_loop (src : buf) (saw_digit : bool) (octets : nat) (tmp : list Z)
    : chk (option (list Z)) :=
  match src with
  | [] => if (octets <? 4)%nat then Def None else Def (Some tmp)
  | ch :: src' =>
      if isdigit ch then
        let new := hd 0 tmp * 10 + (Z_of_byte ch - 48) in
        if 255 <? new then Def None
        else
          let tmp' := new :: tl tmp in
          if saw_digit then pton4_loop src' true octets tmp'
          else if (4 <? S octets)%nat then Def None
          else pton4_loop src' true (S octets) tmp'
      else if Ascii.eqb ch "."%char && saw_digit then
        if (octets =? 4)%nat then Def None
        else if (length tmp <? 4)%nat then pton4_loop src' false octets (0 :: tmp)
        else Bad BufferOverflow
      else Def None
  end.

(** [None]: the return value is 0 and [dst] is untouched; [Some a]: the return
    value is 1 and [dst] holds the four bytes [a]. *)
Definition inet_pton4 (src : buf) : chk (option buf) :=
  s ← need_str src;
  r ← pton4_loop s false 0 [0];
  match r with
  | None => mret None
  | Some tmp =>
      if (length tmp =? 4)%nat then mret (Some (byte_of_Z <$> reverse tmp))
      else Bad Uninitialised
  end.

(** ** Printing *)

Lemma print_byte_length c : (length (print_int (Z_of_byte c)) <= 3)%nat.
Proof.
  pose proof (Z_of_byte_range c) as Hc. unfold print_int.
  destruct (Z.ltb_spec (Z_of_byte c) 0); [lia|].
  pose proof (dec_aux_length 3 20 (Z_of_byte c) [] ltac:(lia) ltac:(lia)) as Hl.
  by rewrite Nat.add_0_r in Hl.
Qed.

Lemma dotted_quad_length src : (length (dotted_quad src) <= 15)%nat.
Proof.
  destruct src as [|a [|b [|c [|d [|]]]]]; cbn; try lia.
  pose proof (print_byte_length a); pose proof (print_byte_length b);
  pose proof (print_byte_length c); pose proof (print_byte_length d).
  repeat (rewrite length_app || cbn [length]). lia.
Qed.

Lemma dotted_quad_nonul src : nonul (dotted_quad src).
Proof.
  destruct src as [|a [|b [|c [|d [|]]]]]; cbn; try constructor.
  all_pieces.
Qed.
#[export] Hint Resolve dotted_quad_nonul : odr.
#[export] Hint Extern 1 (Forall _ (dotted_quad _)) => apply dotted_quad_nonul : odr.

(** The function on every branch. *)
Lemma inet_ntop4_spec src dst size :
  length src = 4%nat ->
  inet_ntop4 src dst size
  = let s := dotted_quad src in
    if (size <? length s)%nat then Def (inl ENOSPC)
    else if (length s <? length dst)%nat then Def (inr (s ++ NUL :: drop (S (length s)) dst))
    else Bad BufferOverflow.
Proof.
  intros Hs. unfold inet_ntop4. rewrite Hs. cbn [Nat.eqb negb].
  pose proof (dotted_quad_length src) as Hl.
  destruct (strcpy_Some (replicate INET_ADDRSTRLEN NUL) (dotted_quad src ++ [NUL])
              (dotted_quad src)) as (tmp & -> & Htmp & _).
  { apply cstr_term, dotted_quad_nonul. }
  { rewrite length_replicate. unfold INET_ADDRSTRLEN. lia. }
  rewrite chk_bind_Def. unfold strlen, strcpy. rewrite (need_str_Some _ _ Htmp), !chk_bind_Def.
  cbv zeta. destruct (_ <? _)%nat; [done|]. by destruct (_ <? _)%nat.
Qed.

(** Into a buffer of [INET_ADDRSTRLEN] bytes the conversion never fails. *)
Lemma inet_ntop4_ok src dst :
  length src = 4%nat -> length dst = INET_ADDRSTRLEN ->
  exists d, inet_ntop4 src dst INET_ADDRSTRLEN = Def (inr d) /\
            cstr d = Some (dotted_quad src) /\ length d = INET_ADDRSTRLEN.
Proof.
  intros Hs Hd. pose proof (dotted_quad_length src) as Hl.
  rewrite inet_ntop4_spec by done. cbv zeta. rewrite Hd. unfold INET_ADDRSTRLEN.
  rewrite (proj2 (Nat.ltb_ge _ _)), (proj2 (Nat.ltb_lt _ _)) by lia.
  eexists. split; [done|]. split; [apply cstr_app, dotted_quad_nonul|].
  rewrite length_app. cbn [length]. rewrite length_drop, Hd. unfold INET_ADDRSTRLEN. lia.
Qed.

(** The bound does not count the NUL: a buffer exactly as long as the text is
    overrun by one byte. *)
Lemma inet_ntop4_off_by_one src dst :
  length src = 4%nat -> length dst = length (dotted_quad src) ->
  inet_ntop4 src dst (length dst) = Bad BufferOverflow.
Proof.
  intros Hs Hd. rewrite inet_ntop4_spec by done. cbv zeta. by rewrite Hd, Nat.ltb_irrefl.
Qed.

(** ** Parsing *)

Lemma digits_val_mono s acc :
  Forall (fun c => isdigit c = true) s -> 0 <= acc -> acc <= digits_val s acc.
Proof.
  intros Hs. revert acc. induction Hs as [|c s Hc _ IH]; intros acc Ha; cbn; [lia|].
  rewrite Hc. unfold isdigit in Hc. apply andb_true_iff in Hc.
  rewrite !Z.leb_le in Hc. etrans; [|apply IH]; lia.
Qed.

Lemma pton4_digits s r k v t :
  Forall (fun c => isdigit c = true) s -> 0 <= v -> digits_val s v <= 255 ->
  pton4_loop (s ++ r) true k (v :: t) = pton4_loop r true k (digits_val s v :: t).
Proof.
  intros Hs. revert v. induction Hs as [|c s Hc Hs IH]; intros v Hv Hb; [done|].
  cbn [app pton4_loop hd tl]. cbn [digits_val] in *. rewrite Hc in *.
  assert (0 <= Z_of_byte c - 48) as H0.
  { unfold isdigit in Hc. apply andb_true_iff in Hc. rewrite !Z.leb_le in Hc. lia. }
  pose proof (digits_val_mono s (10 * v + (Z_of_byte c - 48)) Hs ltac:(lia)).
  destruct (Z.ltb_spec 255 (v * 10 + (Z_of_byte c - 48))); [lia|].
  replace (v * 10 + (Z_of_byte c - 48)) with (10 * v + (Z_of_byte c - 48)) by lia.
  apply IH; [lia | done].
Qed.

Lemma dec_aux_digits fuel n : Forall (fun c => isdigit c = true) (dec_aux fuel n []).
Proof. apply Forall_dec_aux; [apply isdigit_digit | constructor]. Qed.

(** One octet: from the state before its first digit to the state after its
    last. *)
Lemma pton4_octet c r k t :
  (k < 4)%nat ->
  pton4_loop (print_int (Z_of_byte c) ++ r) false k (0 :: t)
  = pton4_loop r true (S k) (Z_of_byte c :: t).
Proof.
  intros Hk. pose proof (Z_of_byte_range c) as Hc. unfold print_int.
  destruct (Z.ltb_spec (Z_of_byte c) 0); [lia|].
  pose proof (dec_aux_digits 20 (Z_of_byte c)) as Hd.
  pose proof (digits_val_dec 20 (Z_of_byte c) [] ltac:(lia) ltac:(lia) ltac:(constructor)) as Hv.
  cbn [length digits_val] in Hv. rewrite Z.pow_0_r in Hv.
  destruct (dec_aux 20 (Z_of_byte c) []) as [|x s] eqn:E.
  { destruct (dec_aux_cons 20 (Z_of_byte c) []) as (?&?&_&E'); [done|]. by rewrite E in E'. }
  inversion Hd as [|? ? Hx Hs]; subst.
  cbn [digits_val] in Hv. rewrite Hx in Hv.
  cbn [app pton4_loop hd tl]. rewrite Hx.
  assert (0 <= Z_of_byte x - 48) as H0.
  { unfold isdigit in Hx. apply andb_true_iff in Hx. rewrite !Z.leb_le in Hx. lia. }
  pose proof (digits_val_mono s (10 * 0 + (Z_of_byte x - 48)) Hs ltac:(lia)).
  destruct (Z.ltb_spec 255 (0 * 10 + (Z_of_byte x - 48))); [lia|].
  rewrite (proj2 (Nat.ltb_ge _ _)) by lia.
  replace (0 * 10) with (10 * 0) in * by lia.
  rewrite pton4_digits by (done || lia). by rewrite Hv, Z.mul_1_r, Z.add_0_r.
Qed.

Lemma isdigit_dot : isdigit "."%char = false.
Proof. done. Qed.

Lemma pton4_dot r k t :
  (k <> 4)%nat -> (length t < 4)%nat ->
  pton4_loop ("."%char :: r) true k t = pton4_loop r false k (0 :: t).
Proof.
  intros Hk Ht. cbn [pton4_loop]. rewrite isdigit_dot. cbn [andb].
  rewrite (proj2 (Nat.eqb_neq _ _)) by done.
  by rewrite (proj2 (Nat.ltb_lt _ _)) by done.
Qed.

(** [inet_pton4] reads back the dotted quad of any address. *)
Lemma inet_pton4_dotted b src :
  length src = 4%nat -> cstr b = Some (dotted_quad src) ->
  inet_pton4 b = Def (Some src).
Proof.
  intros Hs Hb. unfold inet_pton4. rewrite (need_str_Some _ _ Hb), chk_bind_Def.
  destruct src as [|a [|c1 [|c2 [|c3 [|]]]]]; try done. cbn [dotted_quad].
  rewrite pton4_octet, pton4_dot by (cbn; lia).
  rewrite pton4_octet, pton4_dot by (cbn; lia).
  rewrite pton4_octet, pton4_dot by (cbn; lia).
  rewrite <- (app_nil_r (print_int (Z_of_byte c3))).
  rewrite pton4_octet by lia. cbn. by rewrite !byte_of_Z_of_byte.
Qed.

(** ** Properties *)

(** Printing an IPv4 address with [inet_ntop4] into an
    [INET_ADDRSTRLEN]-byte buffer always succeeds and [inet_pton4] reads the
    same address back, so the string form of an address identifies it. *)
Theorem inet_ntop_pton_roundtrip src dst :
  length src = 4%nat -> length dst = INET_ADDRSTRLEN ->
  exists d, inet_ntop4 src dst INET_ADDRSTRLEN = Def (inr d) /\
            inet_pton4 d = Def (Some src).
Proof.
  intros Hs Hd. destruct (inet_ntop4_ok src dst Hs Hd) as (d & H1 & H2 & _).
  exists d. split; [done|]. by apply inet_pton4_dotted.
Qed.

Lemma inet_ntop_pton_roundtrip_witness :
  exists d, inet_ntop4 (byte_of_Z <$> [130; 245; 156; 27]) (replicate 16 NUL) INET_ADDRSTRLEN
              = Def (inr d) /\
            inet_pton4 d = Def (Some (byte_of_Z <$> [130; 245; 156; 27])).
Proof. apply inet_ntop_pton_roundtrip; reflexivity. Defined.
