(* ===== verification/Inet6.v ===== *)
(** * Presentation format of IPv6 addresses

    Stevens/unpv13e/libfree/inet_ntop.c and inet_pton.c, the IPv6 half and the
    dispatch on the address family, and inet_aton.c.  An [in6_addr] is its
    sixteen bytes in network order. *)

From S2P Require Import Prelude CLib Inet.

Definition IN6ADDRSZ : nat := 16.
Definition TMPSZ : nat := 46.   (** [sizeof "ffff:...:255.255.255.255"] *)
Definition EAFNOSUPPORT : Z := 97.
Definition AF_INET : Z := 2.
Definition AF_INET6 : Z := 10.

(** ** [inet_ntop6] *)

(** ["%x"] of an [unsigned int]: eight digits at most. *)
Definition xdigits_l : buf := chars "0123456789abcdef".
Definition xdigits_u : buf := chars "0123456789ABCDEF".

Definition hexdigit (d : Z) : ascii := nth (Z.to_nat d) xdigits_l NUL.

Fixpoint hex_aux (fuel : nat) (n : Z) (acc : buf) : buf :=
  match fuel with
  | O => acc
  | S f =>
      let acc' := hexdigit (n mod 16) :: acc in
      if n / 16 =? 0 then acc' else hex_aux f (n / 16) acc'
  end.

Definition print_hex (z : Z) : buf := hex_aux 8 z [].

(** The bytewise array as words. *)
Fixpoint words (src : buf) : list Z :=
  match src with
  | a :: b :: src' => Z.lor (Z.shiftl (Z_of_byte a) 8) (Z_of_byte b) :: words src'
  | _ => []
  end.

(** [struct { int base, len; }]; the base -1, "no run", is [None]. *)
Definition run : Type := option (nat * nat).

Definition longer (best cur : run) : run :=
  match best, cur with
  | None, _ => cur
  | Some (_, bl), Some (_, cl) => if (bl <? cl)%nat then cur else best
  | _, None => best
  end.

Fixpoint scan_runs (ws : list Z) (i : nat) (best cur : run) : run * run :=
  match ws with
  | [] => (best, cur)
  | w :: ws' =>
      if w =? 0 then
        scan_runs ws' (S i) best
          (match cur with None => Some (i, 1%nat) | Some (b, l) => Some (b, S l) end)
      else
        match cur with
        | Some _ => scan_runs ws' (S i) (longer best cur) None
        | None => scan_runs ws' (S i) best None
        end
  end.

Definition best_run (ws : list Z) : run :=
  let '(best, cur) := scan_runs ws 0 None None in
  let best' := match cur with Some _ => longer best cur | None => best end in
  match best' with
  | Some (_, l) => if (l <? 2)%nat then None else best'
  | None => None
  end.

(** [*tp++ = c] and [sprintf(tp, ...)] into [tmp]; [acc] is what is before
    [tp]. *)
Definition put (acc : buf) (c : ascii) : chk buf :=
  if (length acc <? TMPSZ)%nat then Def (acc ++ [c]) else Bad BufferOverflow.

Definition sput (acc s : buf) : chk buf :=
  if (length acc + length s <? TMPSZ)%nat then Def (acc ++ s) else Bad BufferOverflow.

(** Is this address an encapsulated IPv4? *)
Definition encap4 (i : nat) (best : run) (ws : list Z) : bool :=
  (i =? 6)%nat &&
  match best with
  | Some (b, l) =>
      (b =? 0)%nat && ((l =? 6)%nat || ((l =? 5)%nat && (nth 5 ws 0 =? 65535)))
  | None => false
  end.

Definition in_run (i : nat) (best : run) : bool :=
  match best with
  | Some (b, l) => (b <=? i)%nat && (i <? b + l)%nat
  | None => false
  end.

Definition run_base (best : run) (i : nat) : bool :=
  match best with Some (b, _) => (i =? b)%nat | None => false end.

(** The formatting loop, over the words from index [i] on.  [inl] is the [NULL]
    return with its error number. *)
Fixpoint fmt6 (rest : list Z) (i : nat) (src : buf) (ws : list Z) (best : run) (acc : buf)
    : chk (Z + buf) :=
  match rest with
  | [] => Def (inr acc)
  | w :: rest' =>
      if in_run i best then
        acc' ← (if run_base best i then put acc ":"%char else Def acc);
        fmt6 rest' (S i) src ws best acc'
      else
        acc1 ← (if (i =? 0)%nat then Def acc else put acc ":"%char);
        if encap4 i best ws then
          r ← inet_ntop4 (drop 12 src) (replicate (TMPSZ - length acc1) NUL)
                         (TMPSZ - length acc1);
          match r with
          | inl e => Def (inl e)
          | inr tp => s ← need_str tp; Def (inr (acc1 ++ s))
          end
        else
          acc2 ← sput acc1 (print_hex w);
          fmt6 rest' (S i) src ws best acc2
  end.

Definition inet_ntop6 (src dst : buf) (size : nat) : chk (Z + buf) :=
  if negb (length src =? IN6ADDRSZ)%nat then Bad BadPointer else
  let ws := words src in
  let best := best_run ws in
  r ← fmt6 ws 0 src ws best [];
  match r with
  | inl e => mret (inl e)
  | inr acc =>
      acc1 ← (match best with
              | Some (b, l) =>
                  if (b + l =? 8)%nat then put acc ":"%char else Def acc
              | None => Def acc
              end);
      tmp ← put acc1 NUL;
      if (size <? length tmp)%nat then mret (inl ENOSPC)
      else dst' ← strcpy dst tmp; mret (inr dst')
  end.

Definition inet_ntop (af : Z) (src dst : buf) (size : nat) : chk (Z + buf) :=
  if af =? AF_INET then inet_ntop4 src dst size
  else if af =? AF_INET6 then inet_ntop6 src dst size
  else mret (inl EAFNOSUPPORT).

(** ** [inet_pton6] *)

(** [strchr(s, c) - s]. *)
Fixpoint strchr (s : buf) (c : ascii) : option Z :=
  match s with
  | [] => None
  | d :: s' => if Ascii.eqb d c then Some 0 else Z.succ <$> strchr s' c
  end.

Definition xdigit (ch : ascii) : option Z :=
  match strchr xdigits_l ch with
  | Some d => Some d
  | None => strchr xdigits_u ch
  end.

(** The variables of the scanning loop: [tmp] up to [tp], [colonp] as an offset
    in [tmp], and the token being read. *)
Record scan6 := Scan6 {
  s6_out : buf;
  s6_colonp : option nat;
  s6_saw : bool;
  s6_val : Z }.

(** [*tp++ = val >> 8; *tp++ = val], after the test for room. *)
Definition put_word (out : buf) (val : Z) : option buf :=
  if (IN6ADDRSZ <? length out + 2)%nat then None
  else Some (out ++ [byte_of_Z (Z.shiftr val 8); byte_of_Z val]).

(** [None]: the function returns 0.  [curtok] is the string at [curtok]. *)
Fixpoint pton6_loop (src curtok : buf) (st : scan6) : chk (option scan6) :=
  match src with
  | [] => Def (Some st)
  | ch :: src' =>
      match xdigit ch with
      | Some d =>
          let val := Z.lor (Z.shiftl (s6_val st) 4) d in
          if 65535 <? val then Def None
          else pton6_loop src' curtok (Scan6 (s6_out st) (s6_colonp st) true val)
      | None =>
          if Ascii.eqb ch ":"%char then
            if s6_saw st then
              match put_word (s6_out st) (s6_val st) with
              | None => Def None
              | Some out => pton6_loop src' src' (Scan6 out (s6_colonp st) false 0)
              end
            else
              match s6_colonp st with
              | Some _ => Def None
              | None =>
                  pton6_loop src' src'
                    (Scan6 (s6_out st) (Some (length (s6_out st))) (s6_saw st) (s6_val st))
              end
          else if Ascii.eqb ch "."%char && (length (s6_out st) + 4 <=? IN6ADDRSZ)%nat then
            r ← inet_pton4 (curtok ++ [NUL]);
            match r with
            | Some q =>
                mret (Some (Scan6 (s6_out st ++ q) (s6_colonp st) false (s6_val st)))
            | None => mret None
            end
          else Def None
      end
  end.

(** The shift by hand, [for (i = 1; i <= n; i++)]: [todo] iterations left. *)
Fixpoint shift6 (todo i n colonp : nat) (tmp : buf) : buf :=
  match todo with
  | O => tmp
  | S todo' =>
      let tmp1 := <[(IN6ADDRSZ - i)%nat := nth (colonp + (n - i)) tmp NUL]> tmp in
      shift6 todo' (S i) n colonp (<[(colonp + (n - i))%nat := NUL]> tmp1)
  end.

Definition finish6 (st : scan6) : option buf :=
  match (if s6_saw st then put_word (s6_out st) (s6_val st) else Some (s6_out st)) with
  | None => None
  | Some out =>
      let tmp := out ++ replicate (IN6ADDRSZ - length out) NUL in
      match s6_colonp st with
      | Some c =>
          let n := (length out - c)%nat in Some (shift6 n 1 n c tmp)
      | None => if (length out =? IN6ADDRSZ)%nat then Some tmp else None
      end
  end.

Definition inet_pton6 (src : buf) : chk (option buf) :=
  s ← need_str src;
  let go s := r ← pton6_loop s s (Scan6 [] None false 0); mret (r ≫= finish6) in
  match s with
  | c :: s' =>
      if Ascii.eqb c ":"%char then
        match s' with
        | c' :: _ => if Ascii.eqb c' ":"%char then go s' else mret None
        | [] => mret None
        end
      else go s
  | [] => go s
  end.

(** [inl] is the return value -1 with its error number. *)
Definition inet_pton (af : Z) (src : buf) : chk (Z + option buf) :=
  if af =? AF_INET then r ← inet_pton4 src; mret (inr r)
  else if af =? AF_INET6 then r ← inet_pton6 src; mret (inr r)
  else mret (inl EAFNOSUPPORT).

(** ** [inet_aton] *)

Definition ULONG_MOD : Z := 18446744073709551616.

(** The loop; the string is given without its NUL, so that the empty rest is
    the case of the NUL. *)
Fixpoint aton_loop (cp : buf) (dots acc addr : Z) : option (Z * Z) :=
  match cp with
  | [] => if 255 <? acc then None
          else Some (dots, Z.lor (Z.shiftl addr 8 mod ULONG_MOD) acc)
  | cc :: cp' =>
      if isdigit cc then
        aton_loop cp' dots ((acc * 10 + (Z_of_byte cc - 48)) mod ULONG_MOD) addr
      else if Ascii.eqb cc "."%char then
        if 3 <? dots + 1 then None
        else if 255 <? acc then None
        else aton_loop cp' (dots + 1) 0 (Z.lor (Z.shiftl addr 8 mod ULONG_MOD) acc)
      else None
  end.

(** [None]: the return value is 0.  [Some a]: it is 1 and [ap->s_addr] holds
    the four bytes [a]. *)
Definition inet_aton (cp : buf) : chk (option buf) :=
  s ← need_str cp;
  mret (match aton_loop s 0 0 0 with
        | None => None
        | Some (dots, addr) =>
            let addr' := if dots <? 3 then Z.shiftl addr (8 * (3 - dots)) mod ULONG_MOD
                         else addr in
            Some (reverse (le32 addr'))
        end).

(** * Lemmas *)

(** ** Words and bytes *)

(** Shifting in a digit is multiplying by the base and adding. *)
Lemma lor_shiftl_add v d k :
  0 <= k -> 0 <= d < 2 ^ k -> Z.lor (Z.shiftl v k) d = v * 2 ^ k + d.
Proof.
  intros Hk Hd. rewrite <- Z.shiftl_mul_pow2 by done.
  rewrite <- Z.add_lor_land.
  replace (Z.land (Z.shiftl v k) d) with 0; [lia|].
  apply Z.bits_inj'. intros i Hi. rewrite Z.bits_0, Z.land_spec, Z.shiftl_spec by done.
  destruct (Z.ltb_spec i k) as [H|H].
  - by rewrite Z.testbit_neg_r by lia.
  - replace (Z.testbit d i) with false; [by rewrite andb_false_r|].
    symmetry. rewrite <- (Z.mod_small d (2 ^ k)) by done.
    by apply Z.mod_pow2_bits_high.
Qed.

Definition word_bytes (w : Z) : buf := [byte_of_Z (Z.shiftr w 8); byte_of_Z w].
Definition unwords (ws : list Z) : buf := concat (word_bytes <$> ws).

Lemma word_range a b : 0 <= Z.lor (Z.shiftl (Z_of_byte a) 8) (Z_of_byte b) < 65536.
Proof.
  pose proof (Z_of_byte_range a). pose proof (Z_of_byte_range b).
  rewrite lor_shiftl_add by lia. lia.
Qed.

Lemma word_bytes_word a b :
  word_bytes (Z.lor (Z.shiftl (Z_of_byte a) 8) (Z_of_byte b)) = [a; b].
Proof.
  pose proof (Z_of_byte_range a). pose proof (Z_of_byte_range b).
  rewrite lor_shiftl_add by lia. unfold word_bytes. change (2 ^ 8) with 256.
  rewrite Z.shiftr_div_pow2 by lia. change (2 ^ 8) with 256.
  rewrite Z.div_add_l by lia. rewrite (Z.div_small (Z_of_byte b)), Z.add_0_r, byte_of_Z_of_byte by lia.
  by rewrite Z.add_comm, Z.mul_comm, byte_of_Z_add.
Qed.

Lemma unwords_app ws ws' : unwords (ws ++ ws') = unwords ws ++ unwords ws'.
Proof. unfold unwords. by rewrite fmap_app, concat_app. Qed.

Lemma length_unwords ws : length (unwords ws) = (2 * length ws)%nat.
Proof.
  induction ws as [|w ws IH]; [done|].
  change (unwords (w :: ws)) with (word_bytes w ++ unwords ws).
  rewrite length_app, IH. cbn [length word_bytes]. lia.
Qed.

(** An address as its eight words. *)
Lemma words_spec src :
  length src = 16%nat ->
  length (words src) = 8%nat /\ Forall (fun w => 0 <= w < 65536) (words src) /\
  unwords (words src) = src.
Proof.
  intros H. do 16 (destruct src as [|? src]; [done|]). destruct src; [|done].
  split; [done|]. cbn [words]. split.
  - repeat (apply Forall_cons_2; [apply word_range|]). constructor.
  - unfold unwords. cbn [fmap list_fmap concat app]. by rewrite !word_bytes_word.
Qed.

(** ** Hexadecimal numbers *)

Lemma nat16_cases (P : Z -> Prop) :
  Forall P (Z.of_nat <$> seq 0 16) -> forall d, 0 <= d < 16 -> P d.
Proof.
  intros H d Hd. rewrite Forall_fmap, Forall_seq in H.
  specialize (H (Z.to_nat d)). cbn in H. rewrite Z2Nat.id in H by lia. apply H. lia.
Qed.

Lemma xdigit_hexdigit d : 0 <= d < 16 -> xdigit (hexdigit d) = Some d.
Proof. revert d. apply nat16_cases. cbn. by repeat constructor. Qed.

Lemma hexdigit_nonul d : 0 <= d < 16 -> hexdigit d <> NUL.
Proof. revert d. apply nat16_cases. cbn. by repeat constructor. Qed.

Lemma hex_aux_app f n acc : hex_aux f n acc = hex_aux f n [] ++ acc.
Proof.
  revert n acc. induction f as [|f IH]; intros n acc; [done|]. cbn.
  destruct (_ =? _); [done|]. by rewrite IH, (IH _ [_]), <- app_assoc.
Qed.

Lemma hex_aux_S f n :
  hex_aux (S f) n []
  = (if n / 16 =? 0 then [] else hex_aux f (n / 16) []) ++ [hexdigit (n mod 16)].
Proof. cbn [hex_aux]. destruct (_ =? _); [done|]. apply hex_aux_app. Qed.

Lemma length_hex_aux k f n :
  0 <= n < 16 ^ Z.of_nat k -> (0 < k)%nat -> (length (hex_aux f n []) <= k)%nat.
Proof.
  revert k n. induction f as [|f IH]; intros k n Hn Hk; cbn; [lia|].
  destruct (Z.eqb_spec (n / 16) 0) as [E|E]; [cbn; lia|].
  destruct k as [|k]; [lia|]. rewrite hex_aux_app, length_app. cbn [length].
  rewrite Nat2Z.inj_succ, Z.pow_succ_r in Hn by lia.
  assert (0 < k)%nat.
  { destruct k; [|lia]. rewrite Z.pow_0_r in Hn. exfalso. apply E. apply Z.div_small. lia. }
  assert (length (hex_aux f (n / 16) []) <= k)%nat; [|lia].
  apply IH; [|done].
  split; [apply Z.div_pos; lia | apply Z.div_lt_upper_bound; lia].
Qed.

Lemma length_print_hex w : 0 <= w < 65536 -> (length (print_hex w) <= 4)%nat.
Proof. intros. apply length_hex_aux; lia. Qed.

Lemma nonul_print_hex w : nonul (print_hex w).
Proof.
  unfold print_hex. generalize 8%nat. intros f. revert w.
  induction f as [|f IH]; intros w; [constructor|]. cbn.
  pose proof (Z.mod_pos_bound w 16 ltac:(lia)) as Hm.
  destruct (_ =? _).
  - constructor; [by apply hexdigit_nonul | constructor].
  - rewrite hex_aux_app. apply Forall_app. split; [apply IH|].
    constructor; [by apply hexdigit_nonul | constructor].
Qed.
#[export] Hint Resolve nonul_print_hex : odr.

(** ** The scanning loop on the pieces of an address *)

Lemma loop_digit d r cur out c saw v :
  0 <= d < 16 -> 0 <= v -> v * 16 + d <= 65535 ->
  pton6_loop (hexdigit d :: r) cur (Scan6 out c saw v)
  = pton6_loop r cur (Scan6 out c true (v * 16 + d)).
Proof.
  intros Hd Hv Hb. cbn [pton6_loop s6_val s6_out s6_colonp].
  rewrite xdigit_hexdigit, lor_shiftl_add by (done || lia). change (2 ^ 4) with 16.
  by rewrite (proj2 (Z.ltb_ge _ _) Hb).
Qed.

Lemma loop_hex_aux f w r cur out c saw :
  0 <= w < 16 ^ Z.of_nat (S f) -> w <= 65535 ->
  pton6_loop (hex_aux (S f) w [] ++ r) cur (Scan6 out c saw 0)
  = pton6_loop r cur (Scan6 out c true w).
Proof.
  revert w r. induction f as [|f IH]; intros w r Hw Hb; rewrite hex_aux_S;
    pose proof (Z.mod_pos_bound w 16 ltac:(lia)); pose proof (Z.div_mod w 16 ltac:(lia)).
  - rewrite Z.div_small, Z.eqb_refl by (change (16 ^ Z.of_nat 1) with 16 in Hw; lia).
    cbn [app]. rewrite loop_digit by lia. do 2 f_equal. f_equal.
    rewrite Z.mod_small; lia.
  - destruct (Z.eqb_spec (w / 16) 0) as [E|E].
    + cbn [app]. rewrite loop_digit by lia. do 3 f_equal. lia.
    + rewrite <- app_assoc. rewrite Nat2Z.inj_succ, Z.pow_succ_r in Hw by lia.
      rewrite IH;
        [|split; [apply Z.div_pos; lia | apply Z.div_lt_upper_bound; lia]|lia].
      cbn [app]. rewrite loop_digit by lia. do 3 f_equal. lia.
Qed.

Lemma loop_word w r cur out c :
  0 <= w < 65536 ->
  pton6_loop (print_hex w ++ r) cur (Scan6 out c false 0)
  = pton6_loop r cur (Scan6 out c true w).
Proof. intros Hw. apply loop_hex_aux; lia. Qed.

Lemma loop_sep r cur out c w :
  (length out + 2 <= 16)%nat ->
  pton6_loop (":"%char :: r) cur (Scan6 out c true w)
  = pton6_loop r r (Scan6 (out ++ word_bytes w) c false 0).
Proof.
  intros Ho. cbn [pton6_loop]. change (xdigit ":"%char) with (@None Z).
  rewrite Ascii.eqb_refl. cbn [s6_saw s6_out s6_val s6_colonp]. unfold put_word.
  by rewrite (proj2 (Nat.ltb_ge _ _)) by (unfold IN6ADDRSZ; lia).
Qed.

(** Words, each followed by a colon, and then [r]. *)
Fixpoint hexes (ws : list Z) (r : buf) : buf :=
  match ws with
  | [] => r
  | w :: ws' => print_hex w ++ ":"%char :: hexes ws' r
  end.

Lemma loop_hexes ws r out c :
  Forall (fun w => 0 <= w < 65536) ws -> (length out + 2 * length ws <= 16)%nat ->
  pton6_loop (hexes ws r) (hexes ws r) (Scan6 out c false 0)
  = pton6_loop r r (Scan6 (out ++ unwords ws) c false 0).
Proof.
  intros Hw. revert out. induction Hw as [|w ws Hw _ IH]; intros out Hl.
  - by rewrite app_nil_r.
  - cbn [hexes length] in *. rewrite loop_word, loop_sep by (done || lia).
    rewrite IH by (rewrite length_app; cbn; lia). by rewrite <- app_assoc.
Qed.

(** The decimal digits of an octet are read as a hexadecimal number, which the
    dot discards. *)
Lemma loop_decimals ds r cur out c saw v :
  Forall (fun x => exists d, 0 <= d < 10 /\ x = digit d) ds ->
  0 <= v -> (v + 1) * 16 ^ Z.of_nat (length ds) <= 65536 ->
  exists saw' v', pton6_loop (ds ++ r) cur (Scan6 out c saw v)
                  = pton6_loop r cur (Scan6 out c saw' v').
Proof.
  intros Hd. revert saw v. induction Hd as [|x ds (d & Hd & ->) _ IH]; intros saw v Hv Hb.
  { by exists saw, v. }
  cbn [length] in Hb. rewrite Nat2Z.inj_succ, Z.pow_succ_r in Hb by lia.
  assert (0 < 16 ^ Z.of_nat (length ds)) by (apply Z.pow_pos_nonneg; lia).
  assert (digit d = hexdigit d) as ->.
  { clear Hb. assert (0 <= d < 16) as Hd' by lia. revert Hd. pattern d.
    revert d Hd'. apply nat16_cases. cbn. repeat constructor; lia. }
  cbn [app]. rewrite loop_digit by nia. apply IH; nia.
Qed.

Lemma loop_quad q out c :
  length q = 4%nat -> (length out + 4 <= 16)%nat ->
  exists v, pton6_loop (dotted_quad q) (dotted_quad q) (Scan6 out c false 0)
            = Def (Some (Scan6 (out ++ q) c false v)).
Proof.
  intros Hq Ho.
  pose proof (inet_pton4_dotted (dotted_quad q ++ [NUL]) q Hq
                (cstr_term _ (dotted_quad_nonul q))) as Hp.
  revert Hp. generalize (dotted_quad q) at 1 3. intros cur Hp.
  destruct q as [|a [|b [|e [|f [|]]]]]; try done. cbn [dotted_quad].
  destruct (loop_decimals (print_int (Z_of_byte a))
              ("."%char :: print_int (Z_of_byte b) ++ "."%char ::
               print_int (Z_of_byte e) ++ "."%char :: print_int (Z_of_byte f))
              cur out c false 0) as (saw & v & ->).
  - pose proof (Z_of_byte_range a). unfold print_int.
    destruct (Z.ltb_spec (Z_of_byte a) 0); [lia|].
    apply Forall_dec_aux; [by eauto | constructor].
  - done.
  - pose proof (print_byte_length a).
    assert (16 ^ Z.of_nat (length (print_int (Z_of_byte a))) <= 16 ^ 3); [|lia].
    apply Z.pow_le_mono_r; lia.
  - exists v. cbn [pton6_loop]. change (xdigit "."%char) with (@None Z).
    cbn [Ascii.eqb Bool.eqb andb s6_out s6_colonp s6_val].
    rewrite (proj2 (Nat.leb_le _ _)) by (unfold IN6ADDRSZ; lia).
    by rewrite Hp.
Qed.

(** ** The shift *)

Lemma insert_middle {A} (l1 l2 : list A) x y k :
  k = length l1 -> <[k := y]> (l1 ++ x :: l2) = l1 ++ y :: l2.
Proof.
  intros ->. rewrite <- (Nat.add_0_r (length l1)) at 1. by rewrite insert_app_r.
Qed.

(** With a gap of at least one byte the tail moves to the end. *)
Lemma shift6_gap q1 : forall i n m p q2,
  length (p ++ q1 ++ replicate (S m) NUL ++ q2) = 16%nat ->
  n = (length q1 + length q2)%nat -> i = S (length q2) ->
  shift6 (length q1) i n (length p) (p ++ q1 ++ replicate (S m) NUL ++ q2)
  = p ++ replicate (S m) NUL ++ q1 ++ q2.
Proof.
  induction q1 as [|x q1 IH] using rev_ind; intros i n m p q2 Hl Hn Hi; [done|].
  rewrite !length_app, length_replicate in Hl. cbn [length] in Hl.
  rewrite length_app in Hn. cbn [length] in Hn.
  rewrite length_app, Nat.add_1_r. cbn [shift6]. unfold IN6ADDRSZ.
  replace (nth (length p + (n - i)) (p ++ (q1 ++ [x]) ++ replicate (S m) NUL ++ q2) NUL)
    with x.
  2:{ rewrite app_nth2_plus, <- app_assoc. cbn [app].
      replace (n - i)%nat with (length q1) by lia. by rewrite nth_middle. }
  replace (p ++ (q1 ++ [x]) ++ replicate (S m) NUL ++ q2)
    with ((p ++ q1 ++ x :: replicate m NUL) ++ NUL :: q2).
  2:{ rewrite replicate_S_end, <- !app_assoc. cbn [app]. by rewrite <- ?app_assoc. }
  rewrite insert_middle
    by (rewrite !length_app; cbn [length]; rewrite length_replicate; lia).
  replace ((p ++ q1 ++ x :: replicate m NUL) ++ x :: q2)
    with ((p ++ q1) ++ x :: (replicate m NUL ++ x :: q2))
    by (rewrite <- !app_assoc; done).
  rewrite insert_middle by (rewrite length_app; lia).
  replace ((p ++ q1) ++ NUL :: replicate m NUL ++ x :: q2)
    with (p ++ q1 ++ replicate (S m) NUL ++ x :: q2) by (rewrite <- !app_assoc; done).
  rewrite IH; [by rewrite <- app_assoc | | cbn [length]; lia..].
  rewrite !length_app, length_replicate. cbn [length]. lia.
Qed.

(** With no gap every byte is copied onto itself and then cleared. *)
Lemma shift6_full q1 : forall i n p k,
  length (p ++ q1 ++ replicate k NUL) = 16%nat ->
  n = (length q1 + k)%nat -> i = S k ->
  shift6 (length q1) i n (length p) (p ++ q1 ++ replicate k NUL)
  = p ++ replicate (length q1 + k) NUL.
Proof.
  induction q1 as [|x q1 IH] using rev_ind; intros i n p k Hl Hn Hi; [done|].
  rewrite !length_app, length_replicate in Hl. cbn [length] in Hl.
  rewrite length_app in Hn. cbn [length] in Hn.
  rewrite length_app, Nat.add_1_r. cbn [shift6]. unfold IN6ADDRSZ.
  replace (p ++ (q1 ++ [x]) ++ replicate k NUL)
    with ((p ++ q1) ++ x :: replicate k NUL) by (rewrite <- !app_assoc; done).
  rewrite !insert_middle by (rewrite length_app; lia).
  rewrite <- app_assoc. change (NUL :: replicate k NUL) with (replicate (S k) NUL).
  rewrite IH; [f_equal; f_equal; lia | | lia..].
  rewrite !length_app, length_replicate. lia.
Qed.

(** [finish6] with a gap in an address of less than sixteen bytes. *)
Lemma finish6_gap p q (saw : bool) v :
  let q' := q ++ (if saw then word_bytes v else []) in
  (length p + length q' < 16)%nat ->
  finish6 (Scan6 (p ++ q) (Some (length p)) saw v)
  = Some (p ++ replicate (16 - (length p + length q')) NUL ++ q').
Proof.
  intros q' Hl. unfold finish6. cbn [s6_saw s6_out s6_val s6_colonp].
  assert ((if saw then put_word (p ++ q) v else Some (p ++ q)) = Some (p ++ q')) as ->.
  { subst q'. destruct saw; [|by rewrite app_nil_r]. unfold put_word.
    rewrite !length_app in *. cbn [length word_bytes] in Hl.
    rewrite (proj2 (Nat.ltb_ge _ _)) by (unfold IN6ADDRSZ; lia).
    by rewrite <- app_assoc. }
  clearbody q'. rewrite length_app. unfold IN6ADDRSZ.
  replace (length p + length q' - length p)%nat with (length q') by lia. f_equal.
  destruct (16 - (length p + length q'))%nat as [|m] eqn:E; [lia|].
  rewrite <- app_assoc.
  pose proof (shift6_gap q' 1 (length q') m p []) as Hs. rewrite !app_nil_r in Hs.
  apply Hs; [|cbn [length]; lia..].
  rewrite !length_app, length_replicate. lia.
Qed.

(** ** Texts and the bytes they stand for *)

(** [reads t bs]: from a fresh token on, the loop reads [t] as the bytes [bs],
    the last two of them possibly still in [val]. *)
Definition reads (t bs : buf) : Prop :=
  forall out c, (length out + length bs <= 16)%nat ->
  exists o saw v, pton6_loop t t (Scan6 out c false 0) = Def (Some (Scan6 (out ++ o) c saw v)) /\
                  bs = o ++ (if saw then word_bytes v else []).

(** Words separated by colons. *)
Fixpoint tail6 (ws : list Z) : buf :=
  match ws with
  | [] => []
  | [w] => print_hex w
  | w :: ws' => print_hex w ++ ":"%char :: tail6 ws'
  end.

Lemma tail6_snoc ws w : tail6 (ws ++ [w]) = hexes ws (print_hex w).
Proof.
  induction ws as [|w' ws IH]; [done|]. cbn [hexes]. rewrite <- IH.
  by destruct ws.
Qed.

Lemma reads_hexes ws t bs :
  Forall (fun w => 0 <= w < 65536) ws -> reads t bs -> reads (hexes ws t) (unwords ws ++ bs).
Proof.
  intros Hw Ht out c Hl. rewrite length_app, length_unwords in Hl.
  rewrite loop_hexes by (done || lia).
  destruct (Ht (out ++ unwords ws) c) as (o & saw & v & -> & ->).
  { rewrite length_app, length_unwords. lia. }
  exists (unwords ws ++ o), saw, v. by rewrite <- !app_assoc.
Qed.

Lemma reads_tail ws : Forall (fun w => 0 <= w < 65536) ws -> reads (tail6 ws) (unwords ws).
Proof.
  intros Hw. destruct ws as [|w ws' _] using rev_ind.
  { intros out c _. exists [], false, 0. by rewrite app_nil_r. }
  apply Forall_app in Hw as [Hw' Hw]. rewrite tail6_snoc, unwords_app.
  apply reads_hexes; [done|]. intros out c Hl. exists [], true, w.
  rewrite <- (app_nil_r (print_hex w)) at 1.
  rewrite loop_word by (by inversion Hw). by rewrite app_nil_r.
Qed.

Lemma reads_quad q : length q = 4%nat -> reads (dotted_quad q) q.
Proof.
  intros Hq out c Hl. destruct (loop_quad q out c) as [v ->]; [done|lia|].
  exists q, false, v. by rewrite app_nil_r.
Qed.

Lemma print_hex_head w : exists d s, 0 <= d < 16 /\ print_hex w = hexdigit d :: s.
Proof.
  unfold print_hex. generalize 7%nat. intros f. revert w.
  induction f as [|f IH]; intros w; rewrite hex_aux_S;
    pose proof (Z.mod_pos_bound w 16 ltac:(lia)); destruct (_ =? _); try by eauto.
  destruct (IH (w / 16)) as (d & s & Hd & ->). by eauto.
Qed.

Lemma hexdigit_colon d : 0 <= d < 16 -> Ascii.eqb (hexdigit d) ":"%char = false.
Proof. revert d. apply nat16_cases. cbn. by repeat constructor. Qed.

(** A text that starts with a word goes to the loop as it is. *)
Lemma inet_pton6_word src w r :
  cstr src = Some (print_hex w ++ r) ->
  inet_pton6 src = (x ← pton6_loop (print_hex w ++ r) (print_hex w ++ r) (Scan6 [] None false 0);
                    mret (x ≫= finish6)).
Proof.
  intros H. unfold inet_pton6. rewrite (need_str_Some _ _ H), chk_bind_Def.
  destruct (print_hex_head w) as (d & s & Hd & ->). cbn [app].
  by rewrite hexdigit_colon.
Qed.

Lemma pton6_plain src ws :
  length ws = 8%nat -> Forall (fun w => 0 <= w < 65536) ws ->
  cstr src = Some (tail6 ws) -> inet_pton6 src = Def (Some (unwords ws)).
Proof.
  intros Hl Hw Hs. pose proof (reads_tail ws Hw [] None) as Hr.
  rewrite length_unwords in Hr. destruct Hr as (o & saw & v & Hr & Hb); [cbn; lia|].
  pose proof (length_unwords ws) as Hlu.
  destruct ws as [|w [|w' ws]]; try done. cbn [tail6] in Hs, Hr.
  rewrite (inet_pton6_word _ _ _ Hs). fold (tail6 (w' :: ws)) in Hs, Hr |- *.
  rewrite Hr, chk_bind_Def. cbn [app]. unfold mret, chk_ret. f_equal. cbn.
  unfold finish6. cbn [s6_saw s6_out s6_val s6_colonp]. rewrite Hb, length_app in Hlu.
  assert ((if saw then put_word o v else Some o) = Some (unwords (w :: w' :: ws))) as ->.
  { rewrite Hb. destruct saw; [|by rewrite app_nil_r]. unfold put_word.
    cbn [length word_bytes] in Hlu.
    by rewrite (proj2 (Nat.ltb_ge _ _)) by (unfold IN6ADDRSZ; cbn [length] in *; lia). }
  rewrite length_unwords, Hl. cbn. by rewrite app_nil_r.
Qed.

(** The text of an address with a gap: a double colon at the start, or words,
    each with its colon, and one more colon. *)
Definition gap_text (ws : list Z) (t : buf) : buf :=
  match ws with
  | [] => ":"%char :: ":"%char :: t
  | _ => hexes ws (":"%char :: t)
  end.

Lemma loop_gap t out v :
  pton6_loop (":"%char :: t) (":"%char :: t) (Scan6 out None false v)
  = pton6_loop t t (Scan6 out (Some (length out)) false v).
Proof. done. Qed.

Lemma pton6_gap src ws t bs :
  Forall (fun w => 0 <= w < 65536) ws -> reads t bs ->
  (2 * length ws + length bs < 16)%nat -> cstr src = Some (gap_text ws t) ->
  inet_pton6 src
  = Def (Some (unwords ws ++ replicate (16 - (2 * length ws + length bs)) NUL ++ bs)).
Proof.
  intros Hw Ht Hl Hs.
  assert (inet_pton6 src = (x ← pton6_loop (hexes ws (":"%char :: t)) (hexes ws (":"%char :: t))
                              (Scan6 [] None false 0); mret (x ≫= finish6))) as ->.
  { destruct ws as [|w ws]; [|exact (inet_pton6_word _ _ _ Hs)].
    unfold inet_pton6. by rewrite (need_str_Some _ _ Hs). }
  rewrite loop_hexes, loop_gap by (done || cbn; lia). cbn [app].
  destruct (Ht (unwords ws) (Some (length (unwords ws)))) as (o & saw & v & -> & ->).
  { rewrite length_unwords. lia. }
  rewrite chk_bind_Def. cbn [mbind option_bind].
  rewrite finish6_gap by (rewrite length_unwords; lia). by rewrite length_unwords.
Qed.

(** ** The run that is abbreviated *)

(** [m] zero words from index [j] on. *)
Definition zero_run (ws : list Z) (j m : nat) : bool :=
  (j + m <=? length ws)%nat && forallb (Z.eqb 0) (take m (drop j ws)).

(** The leftmost of the longest runs of two or more zero words. *)
Definition is_best (ws : list Z) (r : run) : Prop :=
  match r with
  | None => forall j m, zero_run ws j m = true -> (m < 2)%nat
  | Some (b, l) =>
      (2 <= l)%nat /\ zero_run ws b l = true /\
      forall j m, zero_run ws j m = true -> (m < l)%nat \/ (m = l /\ (b <= j)%nat)
  end.

Definition is_best_b (ws : list Z) (r : run) : bool :=
  let all p := forallb (fun j => forallb (fun m => implb (zero_run ws j m) (p j m))
                                   (seq 0 (S (length ws)))) (seq 0 (S (length ws))) in
  match r with
  | None => all (fun _ m => (m <? 2)%nat)
  | Some (b, l) =>
      (2 <=? l)%nat && zero_run ws b l &&
      all (fun j m => (m <? l)%nat || ((m =? l)%nat && (b <=? j)%nat))
  end.

Lemma is_best_b_sound ws r : is_best_b ws r = true -> is_best ws r.
Proof.
  assert (forall p : nat -> nat -> bool,
    forallb (fun j => forallb (fun m => implb (zero_run ws j m) (p j m))
               (seq 0 (S (length ws)))) (seq 0 (S (length ws))) = true ->
    forall j m, zero_run ws j m = true -> p j m = true) as Hall.
  { intros p H j m Hz. rewrite forallb_forall in H.
    assert (j + m <= length ws)%nat as Hb.
    { apply andb_true_iff in Hz as [Hz _]. by apply Nat.leb_le. }
    specialize (H j). rewrite in_seq, forallb_forall in H.
    specialize (H ltac:(lia) m). rewrite in_seq, Hz in H. apply H. lia. }
  destruct r as [[b l]|]; cbn [is_best is_best_b].
  - rewrite !andb_true_iff, Nat.leb_le. intros [[H1 H2] H3]. split_and!; [done..|].
    intros j m Hz. specialize (Hall _ H3 j m Hz). cbn beta in Hall.
    rewrite orb_true_iff, andb_true_iff, Nat.ltb_lt, Nat.eqb_eq, Nat.leb_le in Hall. done.
  - intros H j m Hz. specialize (Hall _ H j m Hz). by apply Nat.ltb_lt.
Qed.

(** Only where the zeros are matters. *)
Definition zeros (ws : list Z) : list Z := (fun w => if w =? 0 then 0 else 1) <$> ws.

Lemma scan_runs_zeros ws i best cur : scan_runs (zeros ws) i best cur = scan_runs ws i best cur.
Proof.
  revert i best cur. induction ws as [|w ws IH]; intros i best cur; [done|].
  cbn [zeros fmap list_fmap scan_runs]. destruct (w =? 0); cbn [Z.eqb]; [|destruct cur]; apply IH.
Qed.

Lemma best_run_zeros ws : best_run (zeros ws) = best_run ws.
Proof. unfold best_run. by rewrite scan_runs_zeros. Qed.

Lemma zero_run_zeros ws j m : zero_run (zeros ws) j m = zero_run ws j m.
Proof.
  unfold zero_run, zeros. rewrite length_fmap, <- fmap_drop, <- fmap_take. f_equal.
  generalize (take m (drop j ws)). intros l. induction l as [|w l IH]; [done|].
  cbn [forallb fmap list_fmap]. f_equal; [|exact IH].
  rewrite (Z.eqb_sym 0 w). by destruct (w =? 0).
Qed.

Fixpoint patterns (n : nat) : list (list Z) :=
  match n with
  | O => [[]]
  | S n' => p ← patterns n'; [0 :: p; 1 :: p]
  end.

Lemma zeros_pattern ws : zeros ws ∈ patterns (length ws).
Proof.
  induction ws as [|w ws IH]; [by left|]. cbn [length patterns].
  apply list_elem_of_bind. exists (zeros ws). split; [|done].
  cbn [zeros fmap list_fmap]. destruct (w =? 0); [left | right; left].
Qed.

Lemma is_best_patterns :
  forallb (fun p => is_best_b p (best_run p)) (patterns 8) = true.
Proof. by vm_compute. Qed.

Lemma best_run_is_best ws : length ws = 8%nat -> is_best ws (best_run ws).
Proof.
  intros Hl. pose proof is_best_patterns as H. rewrite forallb_forall in H.
  specialize (H (zeros ws)). pose proof (zeros_pattern ws) as Hz. rewrite Hl in Hz.
  apply list_elem_of_In in Hz. specialize (H Hz). apply is_best_b_sound in H.
  rewrite best_run_zeros in H. revert H.
  destruct (best_run ws) as [[b l]|]; cbn [is_best].
  - rewrite zero_run_zeros. intros (H1 & H2 & H3). split_and!; [done..|].
    intros j m Hm. apply H3. by rewrite zero_run_zeros.
  - intros H1 j m Hm. apply (H1 j m). by rewrite zero_run_zeros.
Qed.

Lemma zero_run_split ws b l :
  zero_run ws b l = true ->
  (b + l <= length ws)%nat /\ ws = take b ws ++ replicate l 0 ++ drop (b + l) ws.
Proof.
  unfold zero_run. rewrite andb_true_iff, Nat.leb_le. intros [Hl Hz]. split; [done|].
  rewrite <- (take_drop b ws) at 1. f_equal. rewrite <- (take_drop l (drop b ws)), drop_drop.
  f_equal. assert (length (take l (drop b ws)) = l) as Hlen.
  { rewrite length_take, length_drop. lia. }
  rewrite <- Hlen at 2. rewrite forallb_forall in Hz. revert Hz.
  generalize (take l (drop b ws)). intros u. induction u as [|x u IH]; intros Hz; [done|].
  cbn. f_equal; [|apply IH; intros y Hy; apply Hz; by right].
  symmetry. apply Z.eqb_eq, Hz. by left.
Qed.

(** ** The formatted text *)

(** What the formatting loop writes, without the bounds of [tmp]. *)
Fixpoint body6 (rest : list Z) (i : nat) (src : buf) (ws : list Z) (best : run) : buf :=
  match rest with
  | [] => []
  | w :: rest' =>
      if in_run i best then
        (if run_base best i then [":"%char] else []) ++ body6 rest' (S i) src ws best
      else
        (if (i =? 0)%nat then [] else [":"%char]) ++
        if encap4 i best ws then dotted_quad (drop 12 src)
        else print_hex w ++ body6 rest' (S i) src ws best
  end.

Definition trail (best : run) : buf :=
  match best with
  | Some (b, l) => if (b + l =? 8)%nat then [":"%char] else []
  | None => []
  end.

(** Bounds: five characters for a word, and at most six more than that for the
    dotted quad, which takes the place of two words. *)
Lemma length_body6 rest i src ws best :
  Forall (fun w => 0 <= w < 65536) rest -> (i + length rest = 8)%nat -> (i < 8)%nat ->
  (length (body6 rest i src ws best) + (if (i =? 0)%nat then 1 else 0)
   <= 5 * length rest + (if encap4 6 best ws then 6 else 0))%nat.
Proof.
  intros Hw. revert i. induction Hw as [|w rest Hw Hf IH]; intros i Hi Hi8.
  { cbn in Hi. lia. }
  cbn [body6 length] in *. pose proof (length_print_hex w Hw).
  assert (length (body6 rest (S i) src ws best)
          <= 5 * length rest + (if encap4 6 best ws then 6 else 0))%nat as Hrest.
  { destruct rest as [|w' rest]; [cbn; lia|]. specialize (IH (S i)).
    cbn [Nat.eqb] in IH. rewrite Nat.add_0_r in IH. apply IH; cbn [length] in *; lia. }
  destruct (in_run i best).
  - rewrite length_app. destruct (run_base best i), (i =? 0)%nat; cbn [length]; lia.
  - rewrite length_app. destruct (encap4 i best ws) eqn:E.
    + assert (i = 6)%nat as -> by (apply andb_true_iff in E as [E _]; by apply Nat.eqb_eq).
      rewrite E. pose proof (dotted_quad_length (drop 12 src)). cbn [Nat.eqb length]. lia.
    + rewrite length_app. destruct (i =? 0)%nat; cbn [length]; lia.
Qed.

Lemma put_Def acc c : (length acc < 46)%nat -> put acc c = Def (acc ++ [c]).
Proof. intros H. unfold put, TMPSZ. by rewrite (proj2 (Nat.ltb_lt _ _) H). Qed.

(** [inet_ntop4] into what is left of [tmp]. *)
Lemma inet_ntop4_room src k :
  length src = 4%nat -> (length (dotted_quad src) < k)%nat ->
  exists d, inet_ntop4 src (replicate k NUL) k = Def (inr d) /\
            need_str d = Def (dotted_quad src).
Proof.
  intros Hs Hk. rewrite inet_ntop4_spec by done. cbv zeta. rewrite length_replicate.
  rewrite (proj2 (Nat.ltb_ge _ _)), (proj2 (Nat.ltb_lt _ _)) by lia.
  eexists. split; [done|]. apply need_str_Some, cstr_app, dotted_quad_nonul.
Qed.

Lemma fmt6_body rest i src ws best acc :
  length src = 16%nat -> (length acc + length (body6 rest i src ws best) < 46)%nat ->
  fmt6 rest i src ws best acc = Def (inr (acc ++ body6 rest i src ws best)).
Proof.
  intros Hs. revert i acc. induction rest as [|w rest IH]; intros i acc Hl.
  { by rewrite app_nil_r. }
  cbn [fmt6 body6] in *. destruct (in_run i best).
  - destruct (run_base best i); cbn [app length] in *.
    + rewrite put_Def, chk_bind_Def by lia. rewrite IH by (rewrite length_app; cbn; lia).
      by rewrite <- app_assoc.
    + rewrite chk_bind_Def. by apply IH.
  - rewrite length_app in Hl.
    assert ((if (i =? 0)%nat then Def acc else put acc ":"%char)
            = Def (acc ++ (if (i =? 0)%nat then [] else [":"%char]))) as ->.
    { destruct (i =? 0)%nat; [by rewrite app_nil_r|]. apply put_Def. lia. }
    rewrite chk_bind_Def, (app_assoc acc). set (acc1 := acc ++ _).
    assert (length acc1 = length acc + length (if (i =? 0)%nat then [] else [":"%char]))%nat
      as Hacc by (subst acc1; apply length_app).
    destruct (encap4 i best ws).
    + destruct (inet_ntop4_room (drop 12 src) (TMPSZ - length acc1)) as (d & -> & Hd).
      { rewrite length_drop. lia. }
      { unfold TMPSZ. lia. }
      by rewrite chk_bind_Def, Hd.
    + rewrite length_app in Hl. unfold sput.
      rewrite (proj2 (Nat.ltb_lt _ _)), chk_bind_Def by (unfold TMPSZ; lia).
      rewrite IH by (rewrite length_app; lia). by rewrite <- app_assoc.
Qed.

(** What follows the double colon. *)
Definition after_gap (ws : list Z) (src : buf) (best : run) (k : nat) : buf :=
  if encap4 6 best ws
  then hexes (take (6 - k) (drop k ws)) (dotted_quad (drop 12 src))
  else tail6 (drop k ws).

Ltac flat6 :=
  repeat first [ rewrite <- app_assoc | rewrite app_nil_r | progress cbn -[print_hex dotted_quad] ].

(** The text of an address in terms of the pieces the parser reads. *)
Lemma body6_gap ws src b l :
  length ws = 8%nat -> (2 <= l)%nat -> (b + l <= 8)%nat ->
  body6 ws 0 src ws (Some (b, l)) ++ trail (Some (b, l))
  = gap_text (take b ws) (after_gap ws src (Some (b, l)) (b + l)).
Proof.
  intros Hl Hl2 Hbl. do 8 (destruct ws as [|? ws]; [done|]). destruct ws; [|done].
  unfold after_gap.
  do 7 (try destruct b as [|b]); try lia;
    do 9 (try destruct l as [|l]); try lia;
    flat6; try done; destruct (_ =? 65535); flat6; done.
Qed.

Lemma body6_plain ws src :
  length ws = 8%nat -> body6 ws 0 src ws None ++ trail None = tail6 ws.
Proof.
  intros Hl. do 8 (destruct ws as [|? ws]; [done|]). destruct ws; [|done].
  cbn -[print_hex]. by rewrite !app_nil_r.
Qed.

(** ** [inet_ntop6] *)

Definition ntop6_text (src : buf) : buf :=
  let ws := words src in body6 ws 0 src ws (best_run ws) ++ trail (best_run ws).

Lemma nonul_body6 rest i src ws best : nonul (body6 rest i src ws best).
Proof.
  revert i. induction rest as [|w rest IH]; intros i; [constructor|]. cbn [body6].
  destruct (in_run i best), (run_base best i), (i =? 0)%nat, (encap4 i best ws);
    unfold nonul in *; all_pieces; try apply IH; try apply nonul_print_hex.
Qed.

Lemma nonul_ntop6_text src : nonul (ntop6_text src).
Proof.
  apply Forall_app. split; [apply nonul_body6|].
  unfold trail. destruct (best_run (words src)) as [[b l]|]; [|constructor].
  destruct (_ =? _)%nat; all_pieces.
Qed.

Lemma length_ntop6_text src : length src = 16%nat -> (length (ntop6_text src) <= 45)%nat.
Proof.
  intros Hs. destruct (words_spec src Hs) as (Hl & Hw & _). unfold ntop6_text.
  pose proof (length_body6 (words src) 0 src (words src) (best_run (words src)) Hw) as H.
  rewrite Hl in H. specialize (H eq_refl ltac:(lia)). cbn [Nat.eqb] in H.
  rewrite length_app. destruct (encap4 6 (best_run (words src)) (words src)) eqn:E.
  - replace (trail (best_run (words src))) with (@nil ascii); [cbn [length]; lia|].
    destruct (best_run (words src)) as [[b l]|]; [|done]. revert E. unfold encap4, trail.
    cbn [Nat.eqb andb]. destruct b; [cbn [Nat.eqb andb Nat.add]|done].
    destruct (Nat.eqb_spec l 8) as [->|]; done.
  - assert (length (trail (best_run (words src))) <= 1)%nat; [|lia].
    unfold trail. destruct (best_run (words src)) as [[b l]|]; [|cbn; lia].
    destruct (_ =? _)%nat; cbn; lia.
Qed.

(** The function on every branch: it refuses a buffer that is too small for
    the text and its NUL, and otherwise writes them. *)
Lemma inet_ntop6_spec src dst size :
  length src = 16%nat -> (size <= length dst)%nat ->
  inet_ntop6 src dst size
  = Def (if (size <? S (length (ntop6_text src)))%nat then inl ENOSPC
         else inr (ntop6_text src ++ NUL :: drop (S (length (ntop6_text src))) dst)).
Proof.
  intros Hs Hd. unfold inet_ntop6. rewrite Hs. cbn [Nat.eqb negb IN6ADDRSZ].
  pose proof (length_ntop6_text src Hs) as Hl. pose proof (nonul_ntop6_text src) as Hn.
  unfold ntop6_text in *. set (ws := words src) in *. set (best := best_run ws) in *.
  rewrite length_app in Hl. rewrite fmt6_body by (cbn [length]; done || lia).
  rewrite chk_bind_Def. cbn [app].
  assert ((match best with
           | Some (b, l) => if (b + l =? 8)%nat then put (body6 ws 0 src ws best) ":"%char
                            else Def (body6 ws 0 src ws best)
           | None => Def (body6 ws 0 src ws best)
           end) = Def (body6 ws 0 src ws best ++ trail best)) as ->.
  { unfold trail. destruct best as [[b l]|]; [|by rewrite app_nil_r].
    destruct (_ =? 8)%nat eqn:E; [|by rewrite app_nil_r]. apply put_Def.
    unfold trail in Hl. rewrite E in Hl. cbn [length] in Hl. lia. }
  rewrite chk_bind_Def, put_Def, chk_bind_Def by (rewrite length_app; lia).
  rewrite !length_app. cbn [length]. rewrite Nat.add_1_r.
  destruct (_ <? _)%nat eqn:E; [done|]. apply Nat.ltb_ge in E.
  unfold strcpy. rewrite (need_str_Some _ _ (cstr_term _ Hn)), chk_bind_Def, length_app.
  by rewrite (proj2 (Nat.ltb_lt _ _)) by lia.
Qed.

(** The parser reads the text of any address. *)
Lemma inet_pton6_text src b :
  length src = 16%nat -> cstr b = Some (ntop6_text src) -> inet_pton6 b = Def (Some src).
Proof.
  intros Hs Hb. destruct (words_spec src Hs) as (Hl & Hw & Hu).
  unfold ntop6_text in Hb. set (ws := words src) in *. clearbody ws.
  pose proof (best_run_is_best ws Hl) as Hbest.
  destruct (best_run ws) as [[b0 l]|].
  2:{ rewrite body6_plain in Hb by done. rewrite <- Hu. by apply pton6_plain. }
  destruct Hbest as (Hl2 & [Hbl Hsplit]%zero_run_split & _). rewrite Hl in Hbl.
  rewrite body6_gap in Hb by done.
  assert (reads (after_gap ws src (Some (b0, l)) (b0 + l)) (unwords (drop (b0 + l) ws))) as Hr.
  { unfold after_gap. destruct (encap4 6 (Some (b0, l)) ws) eqn:E;
      [|by apply reads_tail, Forall_drop].
    assert (unwords (drop (b0 + l) ws)
            = unwords (take (6 - (b0 + l)) (drop (b0 + l) ws)) ++ drop 12 src) as ->.
    { revert E. unfold encap4. cbn [Nat.eqb andb].
      destruct b0; [cbn [Nat.eqb andb Nat.add]|done].
      rewrite <- Hu. clear -Hl.
      do 8 (destruct ws as [|? ws]; [done|]). destruct ws; [|done].
      by destruct l as [|[|[|[|[|[|[|]]]]]]]. }
    apply reads_hexes; [by apply Forall_take, Forall_drop|].
    apply reads_quad. rewrite length_drop. lia. }
  rewrite (pton6_gap _ _ _ _ (Forall_take _ b0 _ Hw) Hr); [| |exact Hb].
  - do 2 f_equal. rewrite <- Hu.
    transitivity (unwords (take b0 ws ++ replicate l 0 ++ drop (b0 + l) ws));
      [|by rewrite <- Hsplit].
    rewrite !unwords_app. f_equal. f_equal.
    rewrite length_unwords, length_take, length_drop, Hl, Nat.min_l by lia.
    replace (16 - (2 * b0 + 2 * (8 - (b0 + l))))%nat with (l * 2)%nat by lia.
    clear. induction l as [|l IH]; [done|]. cbn in *. by rewrite IH.
  - rewrite length_unwords, length_take, length_drop, Hl. lia.
Qed.

(** ** [inet_aton] and [inet_pton4] *)

(** The address the scanning loop of [inet_pton4] has in [tmp], as a number. *)
Fixpoint quad_val (tmp : list Z) : Z :=
  match tmp with [] => 0 | x :: t => quad_val t * 256 + x end.

Lemma quad_val_bound tmp :
  Forall (fun x => 0 <= x <= 255) tmp ->
  0 <= quad_val tmp < 256 ^ Z.of_nat (length tmp).
Proof.
  induction 1 as [|x t Hx _ IH]; [cbn; lia|].
  cbn [quad_val length]. rewrite Nat2Z.inj_succ, Z.pow_succ_r by lia. lia.
Qed.

Lemma aton_shift addr x :
  0 <= x <= 255 -> 0 <= addr < 256 ^ 3 ->
  Z.lor (Z.shiftl addr 8 mod ULONG_MOD) x = addr * 256 + x.
Proof.
  intros Hx Ha. change (256 ^ 3) with 16777216 in Ha. unfold ULONG_MOD.
  rewrite Z.mod_small by (rewrite Z.shiftl_mul_pow2 by lia; lia).
  rewrite lor_shiftl_add; lia.
Qed.

(** The two loops in step: [acc] is the octet being read, [addr] the octets
    before it. *)
Lemma aton_follows_pton s saw k x t tmp' :
  (k = if saw : bool then S (length t) else length t) ->
  Forall (fun x => 0 <= x <= 255) (x :: t) -> (length t <= 3)%nat ->
  pton4_loop s saw k (x :: t) = Def (Some tmp') ->
  length tmp' = 4%nat /\ Forall (fun x => 0 <= x <= 255) tmp' /\
  aton_loop s (Z.of_nat (length t)) x (quad_val t) = Some (3, quad_val tmp').
Proof.
  revert saw k x t. induction s as [|ch s IH]; intros saw k x t Hk Hxt Ht H.
  - cbn [pton4_loop aton_loop] in *. destruct (Nat.ltb_spec k 4); [done|]. simplify_eq.
    destruct saw; [|lia]. assert (length t = 3%nat) as Hl by lia.
    apply Forall_cons in Hxt as Hxt'. destruct Hxt' as [Hx Hq].
    pose proof (quad_val_bound t Hq) as Hb. rewrite Hl in Hb.
    split; [cbn; lia|]. split; [done|]. rewrite Hl.
    rewrite (proj2 (Z.ltb_ge _ _)), aton_shift by (done || lia). done.
  - apply Forall_cons in Hxt as [Hx Hq]. pose proof (quad_val_bound t Hq) as Hb.
    cbn [pton4_loop aton_loop hd tl] in *. destruct (isdigit ch) eqn:Ed.
    + assert (0 <= Z_of_byte ch - 48) as H0.
      { unfold isdigit in Ed. apply andb_true_iff in Ed. rewrite !Z.leb_le in Ed. lia. }
      destruct (Z.ltb_spec 255 (x * 10 + (Z_of_byte ch - 48))) as [|Hn]; [done|].
      rewrite Z.mod_small by (unfold ULONG_MOD; lia).
      assert (Forall (fun x => 0 <= x <= 255) (x * 10 + (Z_of_byte ch - 48) :: t))
        by (constructor; [lia|done]).
      destruct saw; [by apply (IH true k)|].
      destruct (Nat.ltb_spec 4 (S k)); [done|].
      apply (IH true (S k)); [by subst k|done..].
    + destruct (Ascii.eqb ch "."%char); [|done]. cbn [andb] in H.
      destruct saw; [|done]. destruct (Nat.eqb_spec k 4) as [|Hk4]; [done|].
      cbn [length] in H. destruct (Nat.ltb_spec (S (length t)) 4); [|done].
      rewrite (proj2 (Z.ltb_ge 3 _)) by lia. rewrite (proj2 (Z.ltb_ge 255 x)) by lia.
      assert (256 ^ Z.of_nat (length t) <= 256 ^ 3) by (apply Z.pow_le_mono_r; lia).
      rewrite aton_shift by lia.
      replace (Z.of_nat (length t) + 1) with (Z.of_nat (length (x :: t))) by (cbn; lia).
      apply (IH false k); [done| |cbn; lia|done]. constructor; [lia|]. by constructor.
Qed.

Lemma le32_quad_val tmp :
  length tmp = 4%nat -> Forall (fun x => 0 <= x <= 255) tmp ->
  reverse (le32 (quad_val tmp)) = byte_of_Z <$> reverse tmp.
Proof.
  intros Hl Hf. destruct tmp as [|a [|b [|c [|d [|]]]]]; try done. split_all Hf.
  rewrite fmap_reverse. f_equal.
  rewrite <- (le32_of_le32 (byte_of_Z <$> [a; b; c; d])) by done. f_equal.
  cbn [fmap list_fmap of_le32 quad_val]. rewrite !Z_of_byte_of_Z, !Z.mod_small by lia. lia.
Qed.

(** ** Properties *)

(** An IPv6 address printed by [inet_ntop6] into a buffer of 46 bytes or
    more is read back by [inet_pton6], whatever run of zeros was abbreviated and
    whether or not the last words were printed as a dotted quad. *)
Theorem inet6_ntop_pton_roundtrip src dst size :
  length src = IN6ADDRSZ -> (46 <= size <= length dst)%nat ->
  exists d, inet_ntop AF_INET6 src dst size = Def (inr d) /\
            inet_pton AF_INET6 d = Def (inr (Some src)).
Proof.
  intros Hs Hd. unfold inet_ntop, inet_pton. cbn [Z.eqb AF_INET AF_INET6 Pos.eqb].
  rewrite inet_ntop6_spec by (done || lia).
  pose proof (length_ntop6_text src Hs).
  rewrite (proj2 (Nat.ltb_ge _ _)) by lia. eexists. split; [done|].
  rewrite (inet_pton6_text src); [done..|]. apply cstr_app, nonul_ntop6_text.
Qed.

Lemma inet6_ntop_pton_roundtrip_witness :
  exists d, inet_ntop AF_INET6 (byte_of_Z <$> [254; 128; 0; 0; 0; 0; 0; 0; 2; 80; 86; 255; 254; 0; 0; 1])
              (replicate 46 NUL) 46 = Def (inr d) /\
            inet_pton AF_INET6 d
            = Def (inr (Some (byte_of_Z <$> [254; 128; 0; 0; 0; 0; 0; 0; 2; 80; 86; 255; 254; 0; 0; 1]))).
Proof. apply inet6_ntop_pton_roundtrip; [reflexivity | vm_compute; lia]. Defined.

(** Whatever [inet_pton4] accepts, [inet_aton] accepts as the same
    address. *)
Theorem inet_aton_extends_pton4 s a :
  inet_pton4 s = Def (Some a) -> inet_aton s = Def (Some a).
Proof.
  unfold inet_pton4, inet_aton. destruct (need_str s) as [t|]; [|done].
  rewrite !chk_bind_Def. destruct (pton4_loop t false 0 [0]) as [[tmp|]|] eqn:E; try done.
  rewrite chk_bind_Def. destruct (aton_follows_pton t false 0 0 [] tmp) as (Hl & Hf & Ha);
    [done | by repeat constructor | cbn; lia | done |].
  change (aton_loop t 0 0 0 = Some (3, quad_val tmp)) in Ha.
  rewrite Hl. intros [= <-]. rewrite Ha. cbn [Z.ltb]. unfold mret, chk_ret.
  do 2 f_equal. by apply le32_quad_val.
Qed.

Lemma inet_aton_extends_pton4_witness :
  inet_aton (lit "130.245.156.27") = Def (Some (byte_of_Z <$> [130; 245; 156; 27])).
Proof. apply inet_aton_extends_pton4. reflexivity. Defined.

(** A double colon in an address that already has eight words is not
    ignored: every word after it is cleared, because the shift by hand copies
    each byte onto itself and then zeroes it. *)
Theorem full_address_gap_clears_tail ws1 ws2 src :
  Forall (fun w => 0 <= w < 65536) (ws1 ++ ws2) -> length (ws1 ++ ws2) = 8%nat ->
  ws1 <> [] -> cstr src = Some (gap_text ws1 (tail6 ws2)) ->
  inet_pton6 src = Def (Some (unwords ws1 ++ replicate (2 * length ws2) NUL)).
Proof.
  intros [Hw1 Hw2]%Forall_app Hl Hne Hs. rewrite length_app in Hl.
  destruct ws1 as [|w ws1]; [done|]. rewrite (inet_pton6_word _ _ _ Hs).
  fold (hexes (w :: ws1) (":"%char :: tail6 ws2)).
  rewrite loop_hexes, loop_gap by (done || cbn [length] in *; lia). cbn [app].
  destruct (reads_tail ws2 Hw2 (unwords (w :: ws1)) (Some (length (unwords (w :: ws1)))))
    as (o & saw & v & -> & Hb).
  { rewrite !length_unwords. lia. }
  rewrite chk_bind_Def. cbn [mbind option_bind]. unfold mret, chk_ret. f_equal.
  pose proof (length_unwords ws2) as Hl2. pose proof (length_unwords (w :: ws1)) as Hl1.
  revert Hl1. generalize (unwords (w :: ws1)). intros p Hl1.
  unfold finish6. cbn [s6_saw s6_out s6_val s6_colonp].
  assert ((if saw then put_word (p ++ o) v else Some (p ++ o)) = Some (p ++ unwords ws2)) as ->.
  { rewrite Hb in Hl2 |- *. destruct saw; [|by rewrite app_nil_r]. unfold put_word.
    rewrite !length_app in *. cbn [length word_bytes] in *.
    rewrite (proj2 (Nat.ltb_ge _ _)) by (unfold IN6ADDRSZ; lia). by rewrite <- app_assoc. }
  rewrite length_app. unfold IN6ADDRSZ.
  replace (16 - (length p + length (unwords ws2)))%nat with 0%nat by lia.
  replace (length p + length (unwords ws2) - length p)%nat with (length (unwords ws2)) by lia.
  rewrite <- Hl2, <- app_assoc. rewrite <- (Nat.add_0_r (length (unwords ws2))) at 3.
  f_equal. apply (shift6_full (unwords ws2) 1 _ p 0); [|lia|done].
  rewrite !length_app. cbn [length replicate]. lia.
Qed.

Lemma full_address_gap_clears_tail_witness :
  inet_pton6 (lit "1:2:3:4:5:6:7::8")
  = Def (Some (unwords [1; 2; 3; 4; 5; 6; 7] ++ replicate 2 NUL)).
Proof.
  apply (full_address_gap_clears_tail [1; 2; 3; 4; 5; 6; 7] [8]);
    [repeat constructor; done | reflexivity | done | reflexivity].
Defined.
