(* ===== verification/Cksum.v ===== *)
(** * The Internet checksum and the packets that carry it

    Stevens/unpv13e/libfree/in_cksum.c, the ICMP echo of ping/send_v4.c and
    proc_v4.c with tv_sub.c, and the UDP datagrams of udpcksum/udpwrite.c and
    udpread.c.  Packets are byte arrays; a field of a header structure is its
    bytes at its offset, 16-bit fields in the byte order of the machine. *)

From S2P Require Import Prelude CLib.

(** ** [in_cksum] *)

Definition U32 : Z := 4294967296.

(** A [uint16_t] of a little-endian machine. *)
Definition le16 (z : Z) : buf := [byte_of_Z z; byte_of_Z (z / 256)].
Definition word16 (x y : ascii) : Z := Z_of_byte x + 256 * Z_of_byte y.

(** The loop, and the odd byte after it; [sum] is a [uint32_t]. *)
Fixpoint cksum_loop (w : buf) (sum : Z) : Z :=
  match w with
  | x :: y :: w' => cksum_loop w' ((sum + word16 x y) mod U32)
  | [x] => (sum + Z_of_byte x) mod U32
  | [] => sum
  end.

Definition in_cksum (addr : buf) (len : Z) : chk Z :=
  if Z.of_nat (length addr) <? len then Bad BadPointer else
  let sum := cksum_loop (take (Z.to_nat len) addr) 0 in
  let sum1 := (Z.shiftr sum 16 + Z.land sum 65535) mod U32 in
  let sum2 := (sum1 + Z.shiftr sum1 16) mod U32 in
  mret (Z.lnot sum2 mod 65536).

(** ** ICMP echo (ping) *)

Definition BUFSIZE : nat := 1500.
Definition ICMP_ECHO : Z := 8.
Definition ICMP_ECHOREPLY : Z := 0.
Definition IPPROTO_ICMP : Z := 1.

(** A [struct timeval] of two 64-bit members, as it lies in memory. *)
Record timeval := TV { tv_sec : Z; tv_usec : Z }.

Definition le64 (z : Z) : buf := le32 z ++ le32 (z / U32).
Definition tv_bytes (tv : timeval) : buf := le64 (tv_sec tv) ++ le64 (tv_usec tv).

(** The globals of ping.h that the functions below use. *)
Record ping := Ping { sendbuf : buf; datalen : Z; nsent : Z; pid : Z }.

(** Write [s] at offset [k] of an array. *)
Definition store (b : buf) (k : nat) (s : buf) : chk buf :=
  if (k + length s <=? length b)%nat
  then Def (take k b ++ s ++ drop (k + length s) b) else Bad BufferOverflow.

(** The packet given to [Sendto], and the globals afterwards. *)
Definition send_v4 (now : timeval) (g : ping) : chk (buf * ping) :=
  b1 ← store (sendbuf g) 0 [byte_of_Z ICMP_ECHO; byte_of_Z 0];
  b2 ← store b1 4 (le16 (pid g) ++ le16 (nsent g));
  n' ← int_add (nsent g) 1;
  b3 ← store b2 8 (replicate (Z.to_nat (datalen g)) (byte_of_Z 165));
  b4 ← store b3 8 (tv_bytes now);
  let len := 8 + datalen g in
  b5 ← store b4 2 (le16 0);
  c ← in_cksum b5 len;
  b6 ← store b5 2 (le16 c);
  mret (take (Z.to_nat len) b6, Ping b6 (datalen g) n' (pid g)).

Definition tv_sub (out inn : timeval) : timeval :=
  let us := tv_usec out - tv_usec inn in
  if us <? 0 then TV (tv_sec out - 1 - tv_sec inn) (us + 1000000)
  else TV (tv_sec out - tv_sec inn) us.

(** ** UDP datagrams with a checksum (udpcksum) *)

Definition IPPROTO_UDP : Z := 17.
Definition TTL_OUT : Z := 64.

(** An IPv4 socket address: port and address as they lie in memory. *)
Record endpoint := Endpoint { ep_port : buf; ep_addr : buf }.

(** [struct udpiphdr] as [udp_write] fills it before the checksum: nine zero
    bytes, the protocol, the length, the addresses, the ports and the length
    again. *)
Definition udpiphdr (local dest : endpoint) (len : Z) (sum : buf) : buf :=
  replicate 9 NUL ++ [byte_of_Z IPPROTO_UDP] ++ htons_bytes len ++
  ep_addr local ++ ep_addr dest ++ ep_port local ++ ep_port dest ++ htons_bytes len ++ sum.

(** The value of [ui->ui_sum] after the assignments, as its two bytes. *)
Definition udp_sum (zerosum : bool) (local dest : endpoint) (user : buf) : chk buf :=
  let userlen := Z.of_nat (length user) in
  if zerosum then mret (le16 0) else
  c ← in_cksum (udpiphdr local dest (8 + userlen) (le16 0) ++ user) (28 + userlen);
  mret (le16 (if c =? 0 then 65535 else c)).

(** The datagram given to [Sendto]: the IP header is written over the first ten
    bytes of [struct udpiphdr]; [ui_len], where the IP checksum belongs, stays. *)
Definition udp_write (zerosum : bool) (local dest : endpoint) (user : buf) : chk buf :=
  let userlen := Z.of_nat (length user) in
  s ← udp_sum zerosum local dest user;
  mret ([byte_of_Z 69; byte_of_Z 0] ++ htons_bytes (28 + userlen) ++ replicate 4 NUL ++
        [byte_of_Z TTL_OUT] ++
        drop 9 (udpiphdr local dest (8 + userlen) s) ++ user).

(** [udp_check]: the packet if it is accepted, with the checksum of its IP
    header stored over the field (it is zero then); every other path ends in
    [err_quit] ([None]).  The comparisons of [len] with a [size_t] are
    unsigned. *)
Definition udp_check (ptr : buf) (len : Z) : chk (option buf) :=
  let ulen := len mod 18446744073709551616 in
  if ulen <? 28 then mret None else
  match ptr with
  | [] => Bad BadPointer
  | vhl :: _ =>
      if negb (Z_of_byte vhl / 16 =? 4) then mret None else
      let hlen := (Z_of_byte vhl mod 16) * 4 in
      if hlen <? 20 then mret None
      else if ulen <? hlen + 8 then mret None
      else
        c ← in_cksum ptr hlen;
        ptr' ← store ptr 10 (le16 c);
        if negb (c =? 0) then mret None
        else
          match nth_error ptr' 9 with
          | None => Bad BadPointer
          | Some p => mret (if Z_of_byte p =? IPPROTO_UDP then Some ptr' else None)
          end
  end.

(** ** The reply (proc_v4) *)

Definition byte_at (b : buf) (k : nat) : chk Z :=
  match nth_error b k with Some c => Def (Z_of_byte c) | None => Bad BadPointer end.

(** A [uint16_t] and a [struct timeval] read at an offset. *)
Definition u16_at (b : buf) (k : nat) : chk Z :=
  x ← byte_at b k; y ← byte_at b (S k); mret (x + 256 * y).

Definition of_le64 (b : buf) : Z :=
  let u := of_le32 (take 4 b) + U32 * of_le32 (drop 4 b) in
  (u + 9223372036854775808) mod 18446744073709551616 - 9223372036854775808.

Definition tv_at (b : buf) (k : nat) : chk timeval :=
  if (length b <? k + 16)%nat then Bad BadPointer
  else mret (TV (of_le64 (take 8 (drop k b))) (of_le64 (take 8 (drop (k + 8) b)))).

(** What [proc_v4] reports. *)
Inductive echo :=
  | Ignored
  | Reply (icmplen seq ttl : Z) (rtt : timeval)
  | Verbose (icmplen typ code : Z).

Definition proc_v4 (ptr : buf) (len : Z) (tvrecv : timeval) (pid : Z) (verbose : bool)
    : chk echo :=
  b0 ← byte_at ptr 0;
  let hlen1 := (b0 mod 16) * 4 in
  p ← byte_at ptr 9;
  if negb (p =? IPPROTO_ICMP) then mret Ignored else
  let icmplen := len - hlen1 in
  if icmplen <? 8 then mret Ignored else
  let icmp := Z.to_nat hlen1 in
  typ ← byte_at ptr icmp;
  if typ =? ICMP_ECHOREPLY then
    id ← u16_at ptr (icmp + 4);
    if negb (id =? pid) then mret Ignored
    else if icmplen <? 16 then mret Ignored
    else
      tvsend ← tv_at ptr (icmp + 8);
      seq ← u16_at ptr (icmp + 6);
      ttl ← byte_at ptr 8;
      mret (Reply icmplen seq ttl (tv_sub tvrecv tvsend))
  else if verbose then
    code ← byte_at ptr (icmp + 1);
    mret (Verbose icmplen typ code)
  else mret Ignored.

(** * Lemmas *)

(** ** Sums of words *)

(** The sum the checksum is about, with no bound. *)
Fixpoint wsum (w : buf) : Z :=
  match w with
  | x :: y :: w' => word16 x y + wsum w'
  | [x] => Z_of_byte x
  | [] => 0
  end.

(** Ones'-complement sum: the representative of [s] modulo 65535, never zero
    unless [s] is. *)
Definition ocsum (s : Z) : Z := if s =? 0 then 0 else (s - 1) mod 65535 + 1.

Lemma word16_range x y : 0 <= word16 x y < 65536.
Proof. pose proof (Z_of_byte_range x). pose proof (Z_of_byte_range y). unfold word16. lia. Qed.

(** Induction two bytes at a time. *)
Lemma pairs_ind (P : buf -> Prop) :
  P [] -> (forall x, P [x]) -> (forall x y w, P w -> P (x :: y :: w)) -> forall w, P w.
Proof.
  intros H0 H1 H2. fix IH 1. intros [|x [|y w]]; [done | apply H1 | apply H2, IH].
Qed.

Lemma wsum_range w : 0 <= wsum w <= 65535 * ((Z.of_nat (length w) + 1) / 2).
Proof.
  induction w as [|x|x y w IH] using pairs_ind; cbn [wsum length].
  - change ((Z.of_nat 0 + 1) / 2) with 0. lia.
  - pose proof (Z_of_byte_range x). change ((Z.of_nat 1 + 1) / 2) with 1. lia.
  - pose proof (word16_range x y).
    replace (Z.of_nat (S (S (length w))) + 1) with (Z.of_nat (length w) + 1 + 1 * 2) by lia.
    rewrite Z.div_add by lia. lia.
Qed.

Lemma cksum_loop_wsum w s : 0 <= s -> s + wsum w < U32 -> cksum_loop w s = s + wsum w.
Proof.
  revert s. induction w as [|x|x y w IH] using pairs_ind; intros s Hs Hb;
    cbn [cksum_loop wsum] in *; unfold U32 in *.
  - lia.
  - pose proof (Z_of_byte_range x). apply Z.mod_small. lia.
  - pose proof (word16_range x y). pose proof (wsum_range w).
    rewrite Z.mod_small by lia. rewrite IH; lia.
Qed.

Lemma wsum_app p q :
  Nat.Even (length p) -> wsum (p ++ q) = wsum p + wsum q.
Proof.
  induction p as [|x|x y p IH] using pairs_ind; intros He; cbn [app wsum].
  - lia.
  - destruct He as [k Hk]. cbn in Hk. lia.
  - rewrite IH; [lia|]. destruct He as [k Hk]. exists (k - 1)%nat. cbn in Hk. lia.
Qed.

Lemma wsum_le16 c : 0 <= c < 65536 -> wsum (le16 c) = c.
Proof.
  intros Hc. cbn [wsum le16]. unfold word16. rewrite !Z_of_byte_of_Z.
  pose proof (Z.div_mod c 256). pose proof (Z.mod_pos_bound c 256).
  rewrite (Z.mod_small (c / 256)); [lia|].
  split; [apply Z.div_pos; lia | apply Z.div_lt_upper_bound; lia].
Qed.

(** Folding the carries once and adding the last one normalises the sum. *)
Lemma fold_carries s :
  0 <= s < U32 ->
  let s1 := (Z.shiftr s 16 + Z.land s 65535) mod U32 in
  let s2 := (s1 + Z.shiftr s1 16) mod U32 in
  s2 mod 65536 = ocsum s.
Proof.
  intros Hs. cbv zeta. unfold U32 in *.
  change 65535 with (Z.ones 16). rewrite Z.land_ones, Z.shiftr_div_pow2 by lia.
  change (2 ^ 16) with 65536.
  pose proof (Z.div_mod s 65536). pose proof (Z.mod_pos_bound s 65536).
  assert (0 <= s / 65536 < 65536)
    by (split; [apply Z.div_pos; lia | apply Z.div_lt_upper_bound; lia]).
  set (hi := s / 65536) in *. set (lo := s mod 65536) in *.
  rewrite (Z.mod_small (hi + lo)) by lia. rewrite Z.shiftr_div_pow2 by lia.
  change (2 ^ 16) with 65536. unfold ocsum.
  destruct (Z.lt_ge_cases (hi + lo) 65536) as [Hc|Hc].
  - rewrite (Z.div_small (hi + lo)), Z.add_0_r by lia.
    rewrite (Z.mod_small (hi + lo)) by lia. rewrite Z.mod_small by lia.
    destruct (Z.eqb_spec s 0); [lia|].
    rewrite <- (Z.mod_unique (s - 1) 65535 hi (hi + lo - 1)); lia.
  - assert ((hi + lo) / 65536 = 1) as ->
      by (symmetry; apply (Z.div_unique _ _ _ (hi + lo - 65536)); lia).
    rewrite (Z.mod_small (hi + lo + 1)) by lia.
    rewrite <- (Z.mod_unique (hi + lo + 1) 65536 1 (hi + lo - 65535)) by lia.
    destruct (Z.eqb_spec s 0); [lia|].
    rewrite <- (Z.mod_unique (s - 1) 65535 (hi + 1) (hi + lo - 65536)); lia.
Qed.

Lemma lnot_mod s : Z.lnot s mod 65536 = 65535 - s mod 65536.
Proof.
  unfold Z.lnot. pose proof (Z.div_mod s 65536). pose proof (Z.mod_pos_bound s 65536).
  symmetry. apply (Z.mod_unique _ _ (- (s / 65536) - 1)); lia.
Qed.

Lemma ocsum_range s : 0 <= s -> 0 <= ocsum s <= 65535.
Proof.
  intros Hs. unfold ocsum. destruct (_ =? _); [lia|].
  pose proof (Z.mod_pos_bound (s - 1) 65535). lia.
Qed.

(** A positive multiple of 65535 has the ones'-complement sum 65535. *)
Lemma ocsum_multiple k : 0 < k -> ocsum (65535 * k) = 65535.
Proof.
  intros Hk. unfold ocsum. destruct (Z.eqb_spec (65535 * k) 0); [lia|].
  rewrite <- (Z.mod_unique (65535 * k - 1) 65535 (k - 1) 65534); lia.
Qed.

Lemma ocsum_complement s : 0 <= s -> exists k, 0 < k /\ s + (65535 - ocsum s) = 65535 * k.
Proof.
  intros Hs. unfold ocsum. destruct (Z.eqb_spec s 0) as [->|].
  - exists 1. lia.
  - pose proof (Z.div_mod (s - 1) 65535). pose proof (Z.mod_pos_bound (s - 1) 65535).
    assert (0 <= (s - 1) / 65535) by (apply Z.div_pos; lia).
    exists ((s - 1) / 65535 + 1). lia.
Qed.

(** [in_cksum] on a whole array of up to 131070 bytes. *)
Lemma in_cksum_ocsum b :
  (Z.of_nat (length b) <= 131070) ->
  in_cksum b (Z.of_nat (length b)) = Def (65535 - ocsum (wsum b)).
Proof.
  intros Hb. unfold in_cksum. rewrite Z.ltb_irrefl, Nat2Z.id, firstn_all.
  assert (0 <= wsum b < U32) as Hw.
  { pose proof (wsum_range b). unfold U32.
    assert ((Z.of_nat (length b) + 1) / 2 < 65536) by (apply Z.div_lt_upper_bound; lia).
    lia. }
  rewrite cksum_loop_wsum, Z.add_0_l by lia. cbv zeta. unfold mret, chk_ret.
  by rewrite lnot_mod, fold_carries.
Qed.

(** Storing the complement of a sum in a field of two zero bytes makes the
    checksum of the whole zero; so does any value congruent to it. *)
Lemma in_cksum_field p q c :
  Nat.Even (length p) -> Z.of_nat (length (p ++ le16 0 ++ q)) <= 131070 ->
  (c = 65535 - ocsum (wsum (p ++ le16 0 ++ q)) \/
   c = 65535 /\ ocsum (wsum (p ++ le16 0 ++ q)) = 65535) ->
  in_cksum (p ++ le16 c ++ q) (Z.of_nat (length (p ++ le16 c ++ q))) = Def 0.
Proof.
  intros He Hl Hc.
  assert (length (p ++ le16 c ++ q) = length (p ++ le16 0 ++ q)) as Hlen
    by (by rewrite !length_app).
  rewrite in_cksum_ocsum by (by rewrite Hlen). do 2 f_equal.
  assert (forall x, 0 <= x < 65536 -> wsum (p ++ le16 x ++ q) = wsum p + wsum q + x) as Hsum.
  { intros x Hx. rewrite !wsum_app, wsum_le16; [lia|done| |done]. by exists 1%nat. }
  pose proof (wsum_range p). pose proof (wsum_range q).
  rewrite (Hsum 0) in Hc by lia. rewrite Z.add_0_r in Hc.
  set (s := wsum p + wsum q) in *.
  pose proof (ocsum_range s ltac:(lia)).
  destruct (ocsum_complement s) as (k & Hk & Ek); [lia|].
  rewrite Hsum by lia. destruct Hc as [->|[-> Ho]].
  - rewrite Ek, ocsum_multiple by done. done.
  - replace (s + 65535) with (65535 * (k + 1)) by lia. by rewrite ocsum_multiple by lia.
Qed.

(** ** Stores into a packet *)

Lemma store_at p m q s k :
  k = length p -> length m = length s -> store (p ++ m ++ q) k s = Def (p ++ s ++ q).
Proof.
  intros -> Hm. unfold store. rewrite !length_app, <- Hm.
  rewrite (proj2 (Nat.leb_le _ _)) by lia. rewrite take_app_length.
  by rewrite <- drop_drop, !drop_app_length.
Qed.

Lemma take_len {A} n (a b : list A) : length a = n -> take n (a ++ b) = a.
Proof. intros <-. apply take_app_length. Qed.

(** The first [len] bytes decide the checksum. *)
Lemma in_cksum_prefix p q :
  in_cksum (p ++ q) (Z.of_nat (length p)) = in_cksum p (Z.of_nat (length p)).
Proof.
  unfold in_cksum. rewrite length_app.
  rewrite (proj2 (Z.ltb_ge _ _)), Z.ltb_irrefl by lia.
  by rewrite Nat2Z.id, take_app_length, firstn_all.
Qed.

(** The ICMP message with a given checksum. *)
Definition echo_request (now : timeval) (n : Z) (pid seq : Z) (sum : buf) : buf :=
  [byte_of_Z ICMP_ECHO; byte_of_Z 0] ++ sum ++ le16 pid ++ le16 seq ++ tv_bytes now ++
  replicate (Z.to_nat n - 16) (byte_of_Z 165).

Lemma length_tv_bytes tv : length (tv_bytes tv) = 16%nat.
Proof. done. Qed.

Lemma length_echo_request now n pid seq sum :
  16 <= n -> length sum = 2%nat ->
  Z.of_nat (length (echo_request now n pid seq sum)) = 8 + n.
Proof.
  intros Hn Hs. unfold echo_request. rewrite !length_app, Hs, length_tv_bytes, length_replicate.
  cbn [length le16]. lia.
Qed.

Lemma take_drop_3 {A} n m (l : list A) : l = take n l ++ take m (drop n l) ++ drop (n + m) l.
Proof. by rewrite <- drop_drop, !take_drop. Qed.

(** What [send_v4] sends. *)
Lemma send_v4_packet now g :
  length (sendbuf g) = BUFSIZE -> 16 <= datalen g <= 1492 -> int_ok (nsent g + 1) = true ->
  exists g' c,
    send_v4 now g = Def (echo_request now (datalen g) (pid g) (nsent g) (le16 c), g') /\
    in_cksum (echo_request now (datalen g) (pid g) (nsent g) (le16 0)) (8 + datalen g) = Def c /\
    nsent g' = nsent g + 1 /\ length (sendbuf g') = BUFSIZE /\
    datalen g' = datalen g /\ pid g' = pid g.
Proof.
  intros Hb Hd Hn. unfold BUFSIZE in *. destruct g as [sb dl ns id]. cbn [sendbuf datalen nsent pid] in *.
  do 8 (destruct sb as [|? sb]; [done|]). cbn [length] in Hb.
  set (n := Z.to_nat dl). assert (16 <= n <= 1492)%nat as Hn' by lia.
  assert (length (take n sb) = n) as Hdl by (rewrite length_take; lia).
  assert (length (drop n sb) = 1492 - n)%nat as Hrl by (rewrite length_drop; lia).
  rewrite <- (take_drop n sb).
  set (d := take n sb) in *. set (r := drop n sb) in *. clearbody d r. clear Hb sb. unfold send_v4. cbn [sendbuf datalen nsent pid].
  rewrite (store_at [] [a; a0] ([a1; a2; a3; a4; a5; a6] ++ d ++ r)) by done. rewrite chk_bind_Def.
  rewrite (store_at ([byte_of_Z ICMP_ECHO; byte_of_Z 0] ++ [a1; a2]) [a3; a4; a5; a6] (d ++ r)) by done.
  rewrite chk_bind_Def. unfold int_add. rewrite Hn, chk_bind_Def. fold n.
  rewrite <- app_assoc.
  set (h := [byte_of_Z ICMP_ECHO; byte_of_Z 0]) in *. set (t := le16 id ++ le16 ns).
  rewrite !(app_assoc h), !(app_assoc _ t).
  rewrite (store_at ((h ++ [a1; a2]) ++ t) d r) by (rewrite ?length_replicate; done).
  rewrite chk_bind_Def.
  replace (replicate n (byte_of_Z 165))
    with (replicate 16 (byte_of_Z 165) ++ replicate (n - 16) (byte_of_Z 165))
    by (rewrite <- replicate_add; f_equal; lia).
  rewrite <- (app_assoc (replicate 16 _)).
  rewrite (store_at ((h ++ [a1; a2]) ++ t)) by done. rewrite chk_bind_Def.
  rewrite <- !(app_assoc h), <- !app_assoc.
  rewrite (store_at h [a1; a2]) by done. rewrite chk_bind_Def.
  assert (forall s, h ++ s ++ t ++ tv_bytes now ++ replicate (n - 16) (byte_of_Z 165) ++ r
          = echo_request now dl id ns s ++ r) as He
    by (intros s; unfold echo_request; fold n h; subst t; by rewrite <- !app_assoc).
  rewrite He. rewrite <- (length_echo_request now dl id ns (le16 0)) by (done || lia).
  rewrite in_cksum_prefix, in_cksum_ocsum
    by (rewrite length_echo_request by (done || lia); lia).
  rewrite chk_bind_Def, <- He. rewrite (store_at h (le16 0)) by done. rewrite chk_bind_Def.
  rewrite He, take_len.
  2:{ apply Nat2Z.inj. rewrite Z2Nat.id by lia. by rewrite !length_echo_request by (done || lia). }
  eexists _, _. split; [done|]. split; [done|]. cbn [nsent sendbuf datalen pid].
  split; [done|]. split; [|done]. rewrite length_app.
  pose proof (length_echo_request now dl id ns (le16 (65535 - ocsum (wsum (echo_request now dl id ns (le16 0))))) ltac:(lia) eq_refl).
  lia.
Qed.

(** A request with its checksum in place verifies. *)
Lemma echo_request_verifies now n pid seq c :
  16 <= n <= 1492 -> in_cksum (echo_request now n pid seq (le16 0)) (8 + n) = Def c ->
  in_cksum (echo_request now n pid seq (le16 c)) (8 + n) = Def 0.
Proof.
  intros Hn Hc. pose proof (length_echo_request now n pid seq (le16 0) ltac:(lia) eq_refl) as Hl.
  rewrite <- Hl, in_cksum_ocsum in Hc by lia. injection Hc as <-.
  set (c := 65535 - _). rewrite <- (length_echo_request now n pid seq (le16 c)) by (done || lia).
  apply (in_cksum_field [byte_of_Z ICMP_ECHO; byte_of_Z 0]);
    [by exists 1%nat | fold (echo_request now n pid seq (le16 0)); lia | by left].
Qed.

(** ** Reading a packet back *)

Lemma byte_at_app p c q k : k = length p -> byte_at (p ++ c :: q) k = Def (Z_of_byte c).
Proof.
  intros ->. unfold byte_at. rewrite nth_error_app2, Nat.sub_diag by lia. done.
Qed.

Lemma u16_at_app p z q k : k = length p -> u16_at (p ++ le16 z ++ q) k = Def (z mod 65536).
Proof.
  intros ->. unfold u16_at, le16. cbn [app].
  rewrite (byte_at_app p _ _ (length p)) by done. rewrite chk_bind_Def.
  replace (p ++ byte_of_Z z :: byte_of_Z (z / 256) :: q)
    with ((p ++ [byte_of_Z z]) ++ byte_of_Z (z / 256) :: q) by (by rewrite <- app_assoc).
  rewrite byte_at_app by (rewrite length_app; cbn; lia). rewrite chk_bind_Def.
  unfold mret, chk_ret. f_equal. rewrite !Z_of_byte_of_Z.
  pose proof (Z.div_mod z 256). pose proof (Z.div_mod (z / 256) 256).
  pose proof (Z.mod_pos_bound z 256). pose proof (Z.mod_pos_bound (z / 256) 256).
  apply (Z.mod_unique _ _ (z / 256 / 256)); lia.
Qed.

Lemma of_le64_le64 z :
  - 9223372036854775808 <= z < 9223372036854775808 -> of_le64 (le64 z) = z.
Proof.
  intros Hz. unfold of_le64, le64, U32. cbn [take drop le32 app].
  fold (le32 z) (le32 (z / 4294967296)).
  rewrite !of_le32_le32.
  pose proof (Z.div_mod z 4294967296). pose proof (Z.mod_pos_bound z 4294967296).
  set (q := z / 4294967296) in *.
  pose proof (Z.div_mod q 4294967296). pose proof (Z.mod_pos_bound q 4294967296).
  rewrite <- (Z.mod_unique _ 18446744073709551616 (- (q / 4294967296)) (z + 9223372036854775808)); lia.
Qed.

Definition tv_ok (tv : timeval) : Prop :=
  0 <= tv_sec tv < 9223372036854775808 /\ 0 <= tv_usec tv < 1000000.

Lemma tv_at_app p tv q k :
  tv_ok tv -> k = length p -> tv_at (p ++ tv_bytes tv ++ q) k = Def tv.
Proof.
  intros [Hs Hu] ->. unfold tv_at. rewrite !length_app, length_tv_bytes.
  rewrite (proj2 (Nat.ltb_ge _ _)) by lia. rewrite <- (drop_drop _ 8), drop_app_length.
  change (take 8 (tv_bytes tv ++ q)) with (le64 (tv_sec tv)).
  change (take 8 (drop 8 (tv_bytes tv ++ q))) with (le64 (tv_usec tv)).
  rewrite !of_le64_le64 by lia. by destruct tv.
Qed.

(** The difference of two normalised times, in microseconds. *)
Lemma tv_sub_diff out inn :
  tv_ok out -> tv_ok inn ->
  let d := tv_sub out inn in
  0 <= tv_usec d < 1000000 /\
  1000000 * tv_sec d + tv_usec d
  = (1000000 * tv_sec out + tv_usec out) - (1000000 * tv_sec inn + tv_usec inn).
Proof.
  intros [_ Ho] [_ Hi]. cbv zeta. unfold tv_sub.
  destruct (Z.ltb_spec (tv_usec out - tv_usec inn) 0); cbn; lia.
Qed.

(** ** The reference definition of the checksum

    RFC 1071: the 16-bit ones' complement of the ones' complement sum of the
    16-bit words, a last odd byte padded with zero; in a ones' complement addition
    the carry out of the top bit is added back at the bottom. *)
Definition oc_add (a b : Z) : Z := if 65535 <? a + b then a + b - 65535 else a + b.
Fixpoint rfc1071_sum (w : buf) : Z :=
  match w with
  | x :: y :: w' => oc_add (word16 x y) (rfc1071_sum w')
  | [x] => Z_of_byte x
  | [] => 0
  end.

Lemma ocsum_add a s : 0 <= a < 65536 -> 0 <= s -> ocsum (a + s) = oc_add a (ocsum s).
Proof.
  intros Ha Hs. unfold oc_add, ocsum.
  destruct (Z.eqb_spec s 0) as [->|Hs0]; [rewrite Z.add_0_r|].
  - destruct (Z.eqb_spec a 0) as [->|]; [done|]. rewrite (Z.mod_small (a - 1)) by lia.
    destruct (Z.ltb_spec 65535 a); lia.
  - destruct (Z.eqb_spec (a + s) 0); [lia|].
    pose proof (Z.div_mod (s - 1) 65535). pose proof (Z.mod_pos_bound (s - 1) 65535).
    set (q := (s - 1) / 65535) in *. set (r := (s - 1) mod 65535) in *.
    destruct (Z.ltb_spec 65535 (a + (r + 1))).
    + rewrite <- (Z.mod_unique (a + s - 1) 65535 (q + 1) (a + r - 65535)); lia.
    + rewrite <- (Z.mod_unique (a + s - 1) 65535 q (a + r)); lia.
Qed.

Lemma rfc1071_ocsum w : rfc1071_sum w = ocsum (wsum w).
Proof.
  induction w as [|x|x y w IH] using pairs_ind; [done| |].
  - cbn [rfc1071_sum wsum]. pose proof (Z_of_byte_range x). unfold ocsum.
    destruct (Z.eqb_spec (Z_of_byte x) 0); [done|]. rewrite Z.mod_small by lia. lia.
  - cbn [rfc1071_sum wsum]. pose proof (wsum_range w).
    rewrite IH, ocsum_add; [done|apply word16_range|]. lia.
Qed.

(** ** Properties *)

(** C29: on every array of up to 131070 bytes [in_cksum], which adds in 32 bits
    and folds the carries back at the end in two additions, computes the checksum
    of RFC 1071, which adds every carry back at once. *)
Theorem in_cksum_reference b :
  Z.of_nat (length b) <= 131070 ->
  in_cksum b (Z.of_nat (length b)) = Def (65535 - rfc1071_sum b).
Proof. intros Hb. by rewrite in_cksum_ocsum, rfc1071_ocsum. Qed.

Lemma in_cksum_reference_witness : in_cksum (chars "hello") 5 = Def (65535 - rfc1071_sum (chars "hello")).
Proof. apply (in_cksum_reference (chars "hello")). cbn. lia. Defined.

(** A reply behind a twenty-byte IP header, whatever follows the time. *)
Lemma proc_v4_reply hd sum id ns sent rest len tvrecv verbose :
  tv_ok sent -> 0 <= id < 65536 -> length hd = 20%nat -> Z_of_byte (nth 0 hd NUL) mod 16 = 5 ->
  Z_of_byte (nth 9 hd NUL) = IPPROTO_ICMP -> length sum = 2%nat -> 36 <= len ->
  proc_v4 (hd ++ [byte_of_Z ICMP_ECHOREPLY; byte_of_Z 0] ++ sum ++ le16 id ++ le16 ns ++ tv_bytes sent ++ rest)
          len tvrecv id verbose
  = Def (Reply (len - 20) (ns mod 65536) (Z_of_byte (nth 8 hd NUL)) (tv_sub tvrecv sent)).
Proof.
  intros Hnow Hpid Hhd Hihl Hproto Hsum Hlen.
  do 20 (destruct hd as [|? hd]; [done|]). destruct hd; [|done]. cbn [nth] in *.
  destruct sum as [|s0 [|s1 [|]]]; try done.
  set (hd := [_; _; _; _; _; _; _; _; _; _; _; _; _; _; _; _; _; _; _; _]).
  unfold proc_v4. change (byte_at (hd ++ _) 0) with (Def (Z_of_byte a)).
  change (byte_at (hd ++ _) 9) with (Def (Z_of_byte a8)).
  change (byte_at (hd ++ _) 8) with (Def (Z_of_byte a7)).
  rewrite !chk_bind_Def, Hihl, Hproto, Z.eqb_refl. cbn [negb].
  replace (len - 5 * 4) with (len - 20) by lia.
  rewrite (proj2 (Z.ltb_ge _ _)) by lia. change (Z.to_nat (5 * 4)) with 20%nat.
  change (byte_at (hd ++ _) 20) with (Def 0). rewrite chk_bind_Def. cbn [Z.eqb ICMP_ECHOREPLY].
  change (hd ++ [byte_of_Z ICMP_ECHOREPLY; byte_of_Z 0] ++ [s0; s1] ++ ?r)
    with ((hd ++ [byte_of_Z ICMP_ECHOREPLY; byte_of_Z 0; s0; s1]) ++ r).
  rewrite (u16_at_app _ _ _ (20 + 4)) by done. rewrite chk_bind_Def.
  rewrite (Z.mod_small id), Z.eqb_refl by done. cbn [negb].
  rewrite (proj2 (Z.ltb_ge _ _)) by lia. rewrite app_assoc.
  rewrite (u16_at_app _ ns _ (20 + 6)) by done. rewrite app_assoc.
  rewrite (tv_at_app _ sent _ (20 + 8)) by done. by rewrite !chk_bind_Def.
Qed.

(** The echo request [send_v4] builds verifies (its checksum is zero), and
    when a host sends it back as an echo reply behind any twenty-byte IP header
    that says ICMP, [proc_v4] reports the length and sequence number of the
    request and the microseconds since it was sent. *)
Theorem ping_echo_roundtrip now g hd sum tvrecv verbose :
  length (sendbuf g) = BUFSIZE -> 16 <= datalen g <= 1472 -> int_ok (nsent g + 1) = true ->
  tv_ok now -> tv_ok tvrecv -> 0 <= pid g < 65536 ->
  length hd = 20%nat -> Z_of_byte (nth 0 hd NUL) mod 16 = 5 ->
  Z_of_byte (nth 9 hd NUL) = IPPROTO_ICMP -> length sum = 2%nat ->
  exists pkt g' d,
    send_v4 now g = Def (pkt, g') /\ in_cksum pkt (8 + datalen g) = Def 0 /\
    proc_v4 (hd ++ [byte_of_Z ICMP_ECHOREPLY; byte_of_Z 0] ++ sum ++ drop 4 pkt)
            (28 + datalen g) tvrecv (pid g) verbose
    = Def (Reply (8 + datalen g) (nsent g mod 65536) (Z_of_byte (nth 8 hd NUL)) d) /\
    1000000 * tv_sec d + tv_usec d
    = (1000000 * tv_sec tvrecv + tv_usec tvrecv) - (1000000 * tv_sec now + tv_usec now).
Proof.
  intros Hb Hd Hn Hnow Hrecv Hpid Hhd Hihl Hproto Hsum.
  destruct (send_v4_packet now g Hb ltac:(lia) Hn) as (g' & c & Hsend & Hc & _).
  exists (echo_request now (datalen g) (pid g) (nsent g) (le16 c)), g', (tv_sub tvrecv now).
  split; [done|]. split; [|split; [|by apply tv_sub_diff]].
  - apply echo_request_verifies; [lia|done].
  - change (drop 4 (echo_request now (datalen g) (pid g) (nsent g) (le16 c)))
      with (le16 (pid g) ++ le16 (nsent g) ++ tv_bytes now ++ replicate (Z.to_nat (datalen g) - 16) (byte_of_Z 165)).
    rewrite proc_v4_reply by (done || lia). do 2 f_equal. lia.
Qed.

Definition demo_ping : ping := Ping (replicate 1500 NUL) 56 3 4711.
Definition demo_iphdr : buf :=
  byte_of_Z <$> [69; 0; 0; 84; 0; 0; 0; 0; 64; 1; 0; 0; 130; 245; 156; 27; 130; 245; 156; 22].

Lemma ping_echo_roundtrip_witness :
  exists pkt g' d,
    send_v4 (TV 1000 999999) demo_ping = Def (pkt, g') /\ in_cksum pkt 64 = Def 0 /\
    proc_v4 (demo_iphdr ++ [byte_of_Z ICMP_ECHOREPLY; byte_of_Z 0] ++ [NUL; NUL] ++ drop 4 pkt)
            84 (TV 1001 250) 4711 false
    = Def (Reply 64 3 64 d) /\
    1000000 * tv_sec d + tv_usec d = 251.
Proof.
  apply (ping_echo_roundtrip (TV 1000 999999) demo_ping demo_iphdr [NUL; NUL] (TV 1001 250) false);
    unfold tv_ok; cbn; first [reflexivity | lia].
Defined.

(** The checksum field of a UDP datagram. *)
Lemma udp_sum_field local dest user :
  Z.of_nat (length user) <= 65507 ->
  length (ep_addr local) = 4%nat -> length (ep_addr dest) = 4%nat ->
  length (ep_port local) = 2%nat -> length (ep_port dest) = 2%nat ->
  exists c, udp_sum false local dest user = Def (le16 c) /\ 0 < c < 65536 /\
    in_cksum (udpiphdr local dest (8 + Z.of_nat (length user)) (le16 c) ++ user)
             (28 + Z.of_nat (length user)) = Def 0.
Proof.
  intros Hu H1 H2 H3 H4. set (n := Z.of_nat (length user)) in *.
  set (h := replicate 9 NUL ++ [byte_of_Z IPPROTO_UDP] ++ htons_bytes (8 + n) ++ ep_addr local ++
            ep_addr dest ++ ep_port local ++ ep_port dest ++ htons_bytes (8 + n)).
  assert (forall s, udpiphdr local dest (8 + n) s ++ user = h ++ s ++ user) as Hh.
  { intros s. unfold udpiphdr. subst h. by rewrite <- !app_assoc. }
  assert (length h = 26%nat) as Hhl.
  { subst h. rewrite !length_app, H1, H2, H3, H4. done. }
  assert (forall s, length s = 2%nat -> Z.of_nat (length (h ++ s ++ user)) = 28 + n) as Hl
    by (intros s Hs; rewrite !length_app, Hhl, Hs; lia).
  set (o := ocsum (wsum (h ++ le16 0 ++ user))).
  assert (in_cksum (h ++ le16 0 ++ user) (28 + n) = Def (65535 - o)) as Hin
    by (rewrite <- (Hl (le16 0)) by done; apply in_cksum_ocsum; rewrite Hl by done; lia).
  pose proof (wsum_range (h ++ le16 0 ++ user)) as Hw.
  pose proof (ocsum_range (wsum (h ++ le16 0 ++ user)) ltac:(lia)) as Ho. fold o in Ho.
  exists (if 65535 - o =? 0 then 65535 else 65535 - o).
  set (c := if 65535 - o =? 0 then 65535 else 65535 - o).
  assert (0 < c < 65536 /\ (c = 65535 - o \/ c = 65535 /\ o = 65535)) as [Hc Hor]
    by (subst c; destruct (Z.eqb_spec (65535 - o) 0); lia).
  split; [|split; [done|]].
  - unfold udp_sum. fold n. by rewrite Hh, Hin.
  - rewrite Hh, <- (Hl (le16 c)) by done.
    apply in_cksum_field; [by exists 13%nat | rewrite Hl by done; lia | done].
Qed.

(** The datagram [udp_write] hands to the raw socket carries a non-zero
    checksum under which pseudo-header, UDP header and data sum to zero, also in
    the case where the computed checksum is zero and 0xffff is sent for it. *)
Theorem udp_write_verifies local dest user :
  Z.of_nat (length user) <= 65507 ->
  length (ep_addr local) = 4%nat -> length (ep_addr dest) = 4%nat ->
  length (ep_port local) = 2%nat -> length (ep_port dest) = 2%nat ->
  let n := Z.of_nat (length user) in
  exists pkt c, udp_write false local dest user = Def pkt /\
    length pkt = (28 + length user)%nat /\ take 2 (drop 26 pkt) = le16 c /\ 0 < c < 65536 /\
    in_cksum (replicate 9 NUL ++ [byte_of_Z IPPROTO_UDP] ++ htons_bytes (8 + n) ++ drop 12 pkt)
             (28 + n) = Def 0.
Proof.
  intros Hu H1 H2 H3 H4. cbv zeta.
  destruct (udp_sum_field local dest user Hu H1 H2 H3 H4) as (c & Hs & Hc & Hv).
  unfold udp_write. rewrite Hs, chk_bind_Def. eexists _, c. split; [done|].
  destruct local as [lp la], dest as [dp da]. cbn [ep_addr ep_port] in *.
  destruct la as [|? [|? [|? [|? [|]]]]]; try done. destruct da as [|? [|? [|? [|? [|]]]]]; try done.
  destruct lp as [|? [|? [|]]]; try done. destruct dp as [|? [|? [|]]]; try done.
Qed.

Lemma udp_write_verifies_witness :
  exists pkt c, udp_write false (Endpoint (chars "45") (chars "abcd")) (Endpoint (chars "67") (chars "wxyz"))
                  (chars "hello") = Def pkt /\
    length pkt = 33%nat /\ take 2 (drop 26 pkt) = le16 c /\ 0 < c < 65536 /\
    in_cksum (replicate 9 NUL ++ [byte_of_Z IPPROTO_UDP] ++ htons_bytes 13 ++ drop 12 pkt) 33 = Def 0.
Proof.
  apply (udp_write_verifies (Endpoint (chars "45") (chars "abcd")) (Endpoint (chars "67") (chars "wxyz"))
           (chars "hello")); first [reflexivity | cbn; lia].
Defined.

(** A negative length is converted to a large unsigned one: the two length
    checks of [udp_check] let it pass. *)
Lemma udp_check_negative_len ptr len :
  -2147483648 <= len < 0 -> udp_check ptr len = udp_check ptr 2147483647.
Proof.
  intros Hl. unfold udp_check.
  rewrite <- (Z.mod_unique len 18446744073709551616 (-1) (18446744073709551616 + len)) by lia.
  rewrite (Z.mod_small 2147483647) by lia.
  rewrite (proj2 (Z.ltb_ge (18446744073709551616 + len) 28)) by lia.
  rewrite (proj2 (Z.ltb_ge 2147483647 28)) by lia. destruct ptr as [|v p]; [done|].
  pose proof (Z.mod_pos_bound (Z_of_byte v) 16).
  rewrite (proj2 (Z.ltb_ge (18446744073709551616 + len) _)) by lia.
  by rewrite (proj2 (Z.ltb_ge 2147483647 _)) by lia.
Qed.
