(* ===== verification/BufIO.v ===== *)
(** * Reading and writing a stream socket

    Stevens/unpv13e/lib/readn.c, writen.c, readline.c and str_echo.c: the loops
    that turn the short counts and interruptions of [read] and [write] into
    whole records, lines and an echo service.

    The kernel's side of a connected socket is the class [Socket]: what the two
    system calls promise about the bytes still to come and the bytes accepted.
    The loops are proved against that promise; [script] is an instance. *)

From S2P Require Import Prelude CLib.

Definition MAXLINE : nat := 4096.

(** The result of a system call: bytes or a count, [errno] = EINTR, or another
    error. *)
Inductive io (A : Type) := Done (a : A) | Intr | Fail (errno : Z).
Arguments Done {A} a.
Arguments Intr {A}.
Arguments Fail {A} errno.

(** [pending]: the bytes the peer sends from now on until it closes, in order.
    [sent]: the bytes the kernel has accepted from us.  [patience]: a bound on
    the signals that interrupt calls from now on. *)
Class Socket (K : Type) := {
  sk_read : K -> nat -> io buf * K;
  sk_write : K -> buf -> io nat * K;
  pending : K -> buf;
  sent : K -> buf;
  patience : K -> nat;
  sk_read_done : forall k n b k', (0 < n)%nat -> sk_read k n = (Done b, k') ->
    pending k = b ++ pending k' /\ (length b <= n)%nat /\ (b = [] -> pending k = []) /\
    sent k' = sent k /\ (patience k' <= patience k)%nat;
  sk_read_intr : forall k n k', sk_read k n = (Intr, k') ->
    pending k' = pending k /\ sent k' = sent k /\ (patience k' < patience k)%nat;
  sk_read_fail : forall k n e k', sk_read k n = (Fail e, k') ->
    pending k' = pending k /\ sent k' = sent k;
  sk_write_done : forall k b n k', sk_write k b = (Done n, k') ->
    (n <= length b)%nat /\ sent k' = sent k ++ take n b /\ pending k' = pending k /\
    (patience k' <= patience k)%nat;
  sk_write_intr : forall k b k', sk_write k b = (Intr, k') ->
    sent k' = sent k /\ pending k' = pending k /\ (patience k' < patience k)%nat;
  sk_write_fail : forall k b e k', sk_write k b = (Fail e, k') ->
    sent k' = sent k /\ pending k' = pending k }.

Section Loops.
Context {K : Type} `{Socket K}.

Definition read (n : nat) : M K (io buf) := fun k => let '(r, k') := sk_read k n in Ok r k'.
Definition write (b : buf) : M K (io nat) := fun k => let '(r, k') := sk_write k b in Ok r k'.
Definition out_of_fuel {S A} : M S A := fun _ => Undef EndlessLoop.

(** ** [readn] and [writen]

    [inl e]: the return value is -1 and [errno] is [e].  [inr b]: the bytes
    stored at [vptr], as many as the return value says. *)
Fixpoint readn_loop (fuel nleft : nat) (got : buf) : M K (Z + buf) :=
  match fuel with
  | O => out_of_fuel
  | S f =>
      if (nleft =? 0)%nat then mret (inr got) else
      r ← read nleft;
      match r with
      | Fail e => mret (inl e)
      | Intr => readn_loop f nleft got
      | Done [] => mret (inr got)
      | Done b => readn_loop f (nleft - length b) (got ++ b)
      end
  end.

Definition readn (fuel n : nat) : M K (Z + buf) := readn_loop fuel n [].

Definition Readn (fuel n : nat) : M K buf :=
  r ← readn fuel n;
  match r with inl _ => abort_with ErrExit | inr b => mret b end.

(** [rest]: the bytes from [ptr] on.  A return of 0 leaves [errno] as it was,
    and is an error all the same. *)
Fixpoint writen (fuel : nat) (rest : buf) : M K (option Z + unit) :=
  match fuel with
  | O => out_of_fuel
  | S f =>
      if (length rest =? 0)%nat then mret (inr tt) else
      r ← write rest;
      match r with
      | Fail e => mret (inl (Some e))
      | Intr => writen f rest
      | Done O => mret (inl None)
      | Done n => writen f (drop n rest)
      end
  end.

Definition Writen (fuel : nat) (b : buf) : M K unit :=
  r ← writen fuel b;
  match r with inl _ => abort_with ErrExit | inr _ => mret tt end.

(** ** [str_echo] *)

Fixpoint str_echo (fuel : nat) : M K unit :=
  match fuel with
  | O => out_of_fuel
  | S f =>
      r ← read MAXLINE;
      match r with
      | Done [] => mret tt
      | Done b => Writen (S f) b ≫= fun _ => str_echo f
      | Intr => str_echo f
      | Fail _ => abort_with ErrExit
      end
  end.

(** ** [readline] *)

(** The static variables of readline.c. *)
Record rl := RL { read_cnt : Z; read_ptr : nat; read_buf : buf; rl_sock : K }.

(** The loop at the label [again]: [Some r] when [my_read] returns [r], [None]
    when the buffer has been filled. *)
Fixpoint refill (fuel : nat) : M rl (option (Z + option ascii)) := fun st =>
  match fuel with
  | O => Undef EndlessLoop
  | S f =>
      let '(r, k') := sk_read (rl_sock st) MAXLINE in
      match r with
      | Intr => refill f (RL (-1) (read_ptr st) (read_buf st) k')
      | Fail e => Ok (Some (inl e)) (RL (-1) (read_ptr st) (read_buf st) k')
      | Done [] => Ok (Some (inr None)) (RL 0 (read_ptr st) (read_buf st) k')
      | Done b => Ok None (RL (Z.of_nat (length b)) 0
                              (b ++ drop (length b) (read_buf st)) k')
      end
  end.

Definition next_char : M rl (Z + option ascii) := fun st =>
  match nth_error (read_buf st) (read_ptr st) with
  | None => Undef BadPointer
  | Some c => Ok (inr (Some c))
                 (RL (read_cnt st - 1) (S (read_ptr st)) (read_buf st) (rl_sock st))
  end.

Definition my_read (fuel : nat) : M rl (Z + option ascii) :=
  cnt ← gets read_cnt;
  if cnt <=? 0 then
    r ← refill fuel;
    match r with Some x => mret x | None => next_char end
  else next_char.

Definition NL : ascii := byte_of_Z 10.

(** The [for] loop: [todo] is [maxlen - n], [line] what is stored at [vptr].
    [inl e]: the return value is -1; [inr (r, line)]: it is [r], and [line] is
    stored with a NUL behind it. *)
Fixpoint readline_loop (fuel todo : nat) (n : Z) (line : buf) : M rl (Z + Z * buf) :=
  match todo with
  | O => mret (inr (n, line))
  | S t =>
      rc ← my_read fuel;
      match rc with
      | inl e => mret (inl e)
      | inr None => mret (inr (n - 1, line))
      | inr (Some c) =>
          if Ascii.eqb c NL then mret (inr (n, line ++ [c]))
          else readline_loop fuel t (n + 1) (line ++ [c])
      end
  end.

Definition readline (fuel maxlen : nat) : M rl (Z + Z * buf) :=
  match maxlen with
  | O => fun _ => Undef BufferOverflow
  | S m => readline_loop fuel m 1 []
  end.

Definition Readline (fuel maxlen : nat) : M rl (Z * buf) :=
  r ← readline fuel maxlen;
  match r with inl _ => abort_with ErrExit | inr x => mret x end.

(** What is left in the buffer: the return value, and the bytes at the pointer
    when it is not zero. *)
Definition readlinebuf : M rl (Z * option buf) :=
  st ← get;
  mret (read_cnt st,
        if read_cnt st =? 0 then None else Some (drop (read_ptr st) (read_buf st))).
End Loops.
Arguments rl K : clear implicits.
Arguments RL {K}.

(** * Lemmas *)

Section Facts.
Context {K : Type} `{Socket K}.

Lemma wp_read n (Q : io buf -> K -> Prop) k :
  (forall r k', sk_read k n = (r, k') -> Q r k') -> wp (read n) Q k.
Proof. intros HQ. unfold wp, read. destruct (sk_read k n) as [r k'] eqn:E. by apply HQ. Qed.

Lemma wp_write b (Q : io nat -> K -> Prop) k :
  (forall r k', sk_write k b = (r, k') -> Q r k') -> wp (write b) Q k.
Proof. intros HQ. unfold wp, write. destruct (sk_write k b) as [r k'] eqn:E. by apply HQ. Qed.

(** Every loop of [readn] either consumes a byte or an interruption. *)
Lemma wp_readn_loop fuel nleft got k :
  (nleft + patience k < fuel)%nat ->
  wp (readn_loop fuel nleft got)
     (fun r k' => sent k' = sent k /\
        match r with
        | inr b => b = got ++ take nleft (pending k) /\ pending k' = drop nleft (pending k)
        | inl _ => exists m, (m <= nleft)%nat /\ pending k' = drop m (pending k)
        end) k.
Proof.
  revert nleft got k. induction fuel as [|f IH]; intros nleft got k Hf; [lia|].
  cbn [readn_loop]. destruct (Nat.eqb_spec nleft 0) as [->|Hn].
  { apply wp_ret. by rewrite take_0, app_nil_r. }
  apply wp_bind, wp_read. intros r k' Hr. destruct r as [b| |e].
  - apply sk_read_done in Hr as (Hp & Hl & He & Hs & Hpat); [|lia].
    destruct b as [|c b].
    { apply wp_ret. specialize (He eq_refl). rewrite He in Hp |- *. cbn in Hp.
      rewrite take_nil, drop_nil, app_nil_r. done. }
    set (d := c :: b) in *. assert (1 <= length d)%nat by (cbn; lia).
    eapply wp_mono; [apply IH; lia|]. intros r k'' [Hs' Hr]. split; [congruence|].
    rewrite Hp. destruct r as [e|b'].
    + destruct Hr as (m & Hm & ->). exists (length d + m)%nat. split; [lia|].
      by rewrite <- drop_drop, drop_app_length.
    + destruct Hr as [-> ->].
      rewrite take_app_ge, drop_app_ge by lia. by rewrite <- app_assoc.
  - apply sk_read_intr in Hr as (Hp & Hs & Hpat). rewrite <- Hp, <- Hs. apply IH. lia.
  - apply sk_read_fail in Hr as [Hp Hs]. apply wp_ret. split; [done|].
    exists 0%nat. split; [lia|]. by rewrite drop_0.
Qed.

Lemma wp_writen fuel b k :
  (length b + patience k < fuel)%nat ->
  wp (writen fuel b)
     (fun r k' => pending k' = pending k /\
        match r with
        | inr _ => sent k' = sent k ++ b /\ (patience k' <= patience k)%nat
        | inl _ => exists m, sent k' = sent k ++ take m b
        end) k.
Proof.
  revert b k. induction fuel as [|f IH]; intros b k Hf; [lia|].
  cbn [writen]. destruct (Nat.eqb_spec (length b) 0) as [Hb|Hb].
  { apply length_zero_iff_nil in Hb as ->. apply wp_ret. by rewrite app_nil_r. }
  apply wp_bind, wp_write. intros r k' Hr. destruct r as [n| |e].
  - apply sk_write_done in Hr as (Hl & Hs & Hp & Hpat). destruct n as [|n].
    { apply wp_ret. split; [done|]. by exists 0%nat. }
    eapply wp_mono; [apply IH; rewrite length_drop; lia|].
    intros r k'' [Hp' Hr]. split; [congruence|]. rewrite Hs in Hr. destruct r as [e|[]].
    + destruct Hr as (m & ->). exists (S n + m)%nat.
      by rewrite <- app_assoc, take_take_drop.
    + destruct Hr as [-> Hr]. rewrite <- app_assoc, take_drop. split; [done|lia].
  - apply sk_write_intr in Hr as (Hs & Hp & Hpat).
    eapply wp_mono; [apply IH; lia|]. intros r k'' [Hp' Hr].
    rewrite Hs in Hr. split; [congruence|]. destruct r; [done|].
    destruct Hr as [-> ?]. split; [done|lia].
  - apply sk_write_fail in Hr as (Hs & Hp). apply wp_ret. split; [done|].
    exists 0%nat. by rewrite take_0, app_nil_r.
Qed.

(** ** Lines *)

(** The next line of a stream: up to and including the newline, or what there
    is, and never more than [m] characters. *)
Fixpoint line_of (m : nat) (s : buf) : buf :=
  match m, s with
  | S m', c :: s' => if Ascii.eqb c NL then [c] else c :: line_of m' s'
  | _, _ => []
  end.

(** The bytes of the buffer that have not been handed out, and the stream as the
    caller of [readline] sees it. *)
Definition unread (st : rl K) : buf :=
  take (Z.to_nat (read_cnt st)) (drop (read_ptr st) (read_buf st)).
Definition stream (st : rl K) : buf := unread st ++ pending (rl_sock st).

Definition rl_ok (st : rl K) : Prop :=
  length (read_buf st) = MAXLINE /\
  (0 < read_cnt st -> Z.of_nat (read_ptr st) + read_cnt st <= Z.of_nat MAXLINE).

Lemma unread_empty st : read_cnt st <= 0 -> unread st = [].
Proof. intros Hc. unfold unread. by replace (Z.to_nat (read_cnt st)) with 0%nat by lia. Qed.

(** Taking the next character of a buffer that is not empty. *)
Lemma wp_next_char st (Q : Z + option ascii -> rl K -> Prop) :
  rl_ok st -> 0 < read_cnt st ->
  (forall c st', rl_ok st' -> stream st = c :: stream st' ->
     rl_sock st' = rl_sock st -> Q (inr (Some c)) st') ->
  wp next_char Q st.
Proof.
  intros [Hl Hp] Hc HQ. specialize (Hp Hc). unfold wp, next_char.
  destruct (nth_error (read_buf st) (read_ptr st)) as [c|] eqn:E.
  2:{ apply nth_error_None in E. lia. }
  apply HQ; [|unfold stream, unread|done].
  - split; [done|]. cbn [read_cnt read_ptr]. lia.
  - cbn [read_cnt read_ptr read_buf rl_sock].
    apply nth_error_split in E as (l1 & l2 & E & Hl1). rewrite E, <- Hl1.
    rewrite drop_app_length. replace (S (length l1)) with (length (l1 ++ [c]))
      by (rewrite length_app; cbn; lia).
    replace (l1 ++ c :: l2) with ((l1 ++ [c]) ++ l2) by (by rewrite <- app_assoc).
    rewrite drop_app_length.
    replace (Z.to_nat (read_cnt st)) with (S (Z.to_nat (read_cnt st - 1))) by lia. done.
Qed.

Definition refill_post (st : rl K) (r : option (Z + option ascii)) (st' : rl K) : Prop :=
  rl_ok st' /\ stream st' = stream st /\
  match r with
  | None => 0 < read_cnt st' /\ (patience (rl_sock st') <= patience (rl_sock st))%nat
  | Some (inr None) => stream st = [] /\ (patience (rl_sock st') <= patience (rl_sock st))%nat
  | Some (inl _) => True
  | Some (inr (Some _)) => False
  end.

Lemma wp_refill fuel st :
  rl_ok st -> (patience (rl_sock st) < fuel)%nat -> read_cnt st <= 0 ->
  wp (refill fuel) (refill_post st) st.
Proof.
  revert st. induction fuel as [|f IH]; intros st [Hl Hp] Hf Hc; [lia|].
  unfold wp. cbn [refill]. destruct (sk_read (rl_sock st) MAXLINE) as [r k'] eqn:E.
  destruct r as [b| |e].
  - apply sk_read_done in E as (Hpend & Hlen & He & _ & Hpat); [|unfold MAXLINE; lia].
    destruct b as [|c b].
    + specialize (He eq_refl). rewrite He in Hpend. cbn [app] in Hpend. split; [by split|].
      unfold stream. rewrite !unread_empty, He by (cbn; lia). by cbn [rl_sock]; rewrite <- Hpend.
    + set (d := c :: b) in *. assert (0 < length d)%nat by (cbn; lia).
      split; [|split; [|split; [cbn [read_cnt]; lia | done]]].
      * split; cbn [read_cnt read_ptr read_buf]; [rewrite length_app, length_drop; lia | lia].
      * unfold stream. rewrite (unread_empty st), Hpend by done. unfold unread.
        cbn [read_cnt read_ptr read_buf rl_sock].
        by rewrite drop_0, Nat2Z.id, take_app_length.
  - apply sk_read_intr in E as (Hpend & _ & Hpat).
    specialize (IH (RL (-1) (read_ptr st) (read_buf st) k')).
    eapply wp_mono; [apply IH; [by split | cbn; lia | cbn; lia]|].
    unfold refill_post, stream. rewrite (unread_empty (RL _ _ _ _)), (unread_empty st) by (cbn; lia).
    cbn [rl_sock]. rewrite Hpend. intros r st' (H1 & H2 & H3). split; [done|]. split; [done|].
    destruct r as [[?|[?|]]|]; naive_solver lia.
  - apply sk_read_fail in E as [Hpend _]. split; [by split|].
    unfold stream. rewrite !unread_empty by (cbn; lia). cbn [rl_sock]. by rewrite Hpend.
Qed.

Definition my_read_post (st : rl K) (r : Z + option ascii) (st' : rl K) : Prop :=
  rl_ok st' /\
  match r with
  | inl _ => stream st' = stream st
  | inr None => stream st = [] /\ stream st' = []
  | inr (Some c) =>
      stream st = c :: stream st' /\ (patience (rl_sock st') <= patience (rl_sock st))%nat
  end.

Lemma wp_my_read fuel st :
  rl_ok st -> (patience (rl_sock st) < fuel)%nat -> wp (my_read fuel) (my_read_post st) st.
Proof.
  intros Hok Hf. unfold my_read. apply wp_bind, wp_gets.
  destruct (Z.leb_spec (read_cnt st) 0) as [Hc|Hc].
  - apply wp_bind. eapply wp_mono; [by apply wp_refill|].
    intros r st1 (Hok1 & Hs & Hr). destruct r as [[e|[c|]]|]; [by apply wp_ret|done|..].
    + apply wp_ret. split; [done|]. destruct Hr. by rewrite Hs.
    + destruct Hr as [Hc1 Hp1]. apply wp_next_char; [done..|].
      intros c st2 Hok2 Hs2 Hk2. split; [done|]. by rewrite <- Hs, Hk2.
  - apply wp_next_char; [done..|]. intros c st2 Hok2 Hs2 Hk2. split; [done|]. by rewrite Hk2.
Qed.

(** The limit is reached and no newline was seen. *)
Fixpoint cut (m : nat) (s : buf) : bool :=
  match m, s with
  | O, _ => true
  | S m', c :: s' => if Ascii.eqb c NL then false else cut m' s'
  | S _, [] => false
  end.

Lemma wp_readline_loop fuel todo n line st :
  rl_ok st -> (patience (rl_sock st) < fuel)%nat ->
  wp (readline_loop fuel todo n line)
     (fun r st' => rl_ok st' /\
        match r with
        | inl _ => exists m, stream st' = drop m (stream st)
        | inr (ret, l) =>
            let next := line_of todo (stream st) in
            l = line ++ next /\ stream st' = drop (length next) (stream st) /\
            ret = n - 1 + Z.of_nat (length next) + (if cut todo (stream st) then 1 else 0)
        end) st.
Proof.
  revert n line st. induction todo as [|t IH]; intros n line st Hok Hf; cbn [readline_loop].
  { apply wp_ret. split; [done|]. cbn. rewrite app_nil_r. split_and!; [done..|lia]. }
  apply wp_bind. eapply wp_mono; [by apply wp_my_read|].
  intros rc st1 [Hok1 Hr]. destruct rc as [e|[c|]].
  - apply wp_ret. split; [done|]. exists 0%nat. by rewrite drop_0.
  - destruct Hr as [Hs Hp]. destruct (Ascii.eqb c NL) eqn:Ec.
    + apply wp_ret. split; [done|]. rewrite Hs. cbn [line_of cut]. rewrite Ec. cbv zeta.
      cbn [length drop]. rewrite drop_0. split_and!; [done..|lia].
    + eapply wp_mono; [apply IH; [done|lia]|]. intros r st' [Hok' Hr']. split; [done|].
      destruct r as [e|[ret l]].
      * destruct Hr' as [m Hm]. exists (S m). by rewrite Hs.
      * destruct Hr' as (-> & Hst & ->). rewrite Hs. cbn [line_of cut]. rewrite Ec. cbv zeta.
        cbn [length drop]. rewrite <- app_assoc. split_and!; [done..|lia].
  - apply wp_ret. destruct Hr as [Hs Hs1]. split; [done|]. rewrite Hs, Hs1. cbn.
    rewrite app_nil_r. split_and!; [done..|lia].
Qed.

Lemma cut_spec m s : cut m s = true <-> length (line_of m s) = m /\ NL ∉ line_of m s.
Proof.
  revert s. induction m as [|m IH]; intros s; cbn.
  { split; [|done]. intros _. split; [done|]. apply not_elem_of_nil. }
  destruct s as [|c s]; cbn; [naive_solver|].
  destruct (Ascii.eqb_spec c NL) as [->|Hc]; cbn.
  - split; [done|]. intros [_ Hn]. destruct Hn. left.
  - rewrite IH, not_elem_of_cons. naive_solver lia.
Qed.
End Facts.

(** ** A scripted peer *)

Inductive event := Chunk (n : nat) | Signal | Broken (errno : Z).

(** The bytes to come and those accepted, and what happens at each of the next
    calls; after the script every call is served in full. *)
Record script := Script { sc_in : buf; sc_out : buf; sc_events : list event }.

Definition script_serve (s : script) (avail : nat) : io nat * list event :=
  match sc_events s with
  | [] => (Done avail, [])
  | Chunk n :: es => (Done (Nat.min (Nat.max 1 n) avail), es)
  | Signal :: es => (Intr, es)
  | Broken e :: es => (Fail e, es)
  end.

Definition script_read (s : script) (n : nat) : io buf * script :=
  match script_serve s n with
  | (Done m, es) => (Done (take m (sc_in s)), Script (drop m (sc_in s)) (sc_out s) es)
  | (Intr, es) => (Intr, Script (sc_in s) (sc_out s) es)
  | (Fail e, es) => (Fail e, Script (sc_in s) (sc_out s) es)
  end.

Definition script_write (s : script) (b : buf) : io nat * script :=
  match script_serve s (length b) with
  | (Done m, es) => (Done m, Script (sc_in s) (sc_out s ++ take m b) es)
  | (Intr, es) => (Intr, Script (sc_in s) (sc_out s) es)
  | (Fail e, es) => (Fail e, Script (sc_in s) (sc_out s) es)
  end.

#[export, refine] Instance script_socket : Socket script := {|
  sk_read := script_read;
  sk_write := script_write;
  pending := sc_in;
  sent := sc_out;
  patience := fun s => length (sc_events s) |}.
Proof.
  all: intros [i o [|[m| |er] es]]; unfold script_read, script_write, script_serve; cbn;
    intros; simplify_eq; cbn.
  - split_and!; [by rewrite take_drop | rewrite length_take; lia | | done | lia].
    destruct i; [done|]. by destruct n; [lia|].
  - split_and!; [by rewrite take_drop | rewrite length_take; lia | | done | lia].
    destruct i; [done|]. destruct n; [lia|]. by destruct m.
  - split_and!; [done..|lia].
  - done.
  - split_and!; [lia|done..].
  - split_and!; [lia|done..|lia].
  - split_and!; [done..|lia].
  - done.
Defined.

(** ** Properties *)

Section Properties.
Context {K : Type} `{Socket K}.

(** However the kernel cuts the stream into reads and wherever signals
    interrupt them, [readn] returns the next [n] bytes of the stream, or all
    that are left when the peer closes earlier, and leaves the rest; [n] plus
    the number of interruptions bounds its iterations. *)
Theorem readn_exact fuel n k :
  (n + patience k < fuel)%nat ->
  wp (readn fuel n)
     (fun r k' => match r with
                  | inr b => b = take n (pending k) /\ pending k' = drop n (pending k)
                  | inl _ => exists m, (m <= n)%nat /\ pending k' = drop m (pending k)
                  end) k.
Proof.
  intros Hf. eapply wp_mono; [by apply wp_readn_loop|]. intros r k' [_ Hr]. exact Hr.
Qed.

(** [str_echo] sends back exactly what it receives, in order, until the
    peer closes, or the process exits on an error of [read] or [write]; it never
    loops for ever. *)
Theorem str_echo_echoes fuel k :
  (length (pending k) + patience k < fuel)%nat ->
  match str_echo fuel k with
  | Ok _ k' => sent k' = sent k ++ pending k /\ pending k' = []
  | Aborted w => w = ErrExit
  | Undef _ => False
  end.
Proof.
  revert k. induction fuel as [|f IH]; intros k Hf; [lia|].
  cbn [str_echo]. unfold mbind, M_bind, read at 1.
  destruct (sk_read k MAXLINE) as [r k1] eqn:E. destruct r as [b| |e]; [| |done].
  - apply sk_read_done in E as (Hp & _ & He & Hs & Hpat); [|unfold MAXLINE; lia].
    destruct b as [|c b].
    { specialize (He eq_refl). rewrite He in Hp |- *. cbn in Hp.
      rewrite app_nil_r. by split. }
    set (d := c :: b) in *. assert (1 <= length d)%nat by (cbn; lia).
    rewrite Hp, length_app in Hf.
    pose proof (wp_writen (S f) d k1 ltac:(lia)) as Hw. unfold Writen, mbind, M_bind.
    unfold wp in Hw. destruct (writen (S f) d k1) as [[e|[]] k2| |]; [done| |done..].
    destruct Hw as (Hp2 & Hs2 & Hpat2). cbn. specialize (IH k2).
    destruct (str_echo f k2) as [[] k3| |]; [|by apply IH; rewrite Hp2; lia..].
    destruct IH as [IH1 IH2]; [rewrite Hp2; lia|]. split; [|done].
    by rewrite IH1, Hs2, Hp2, Hs, Hp, <- app_assoc.
  - apply sk_read_intr in E as (Hp & Hs & Hpat). rewrite <- Hp, <- Hs. apply IH.
    rewrite Hp. lia.
Qed.

(** A call of [readline] with room for [S m] bytes stores the next line of
    the stream, at most [m] bytes of it, whatever the segments it arrives in and
    whatever earlier calls left in the buffer, and the following call continues
    behind it.  The return value is the length of the line, except that a line
    cut at the limit is reported as one byte longer than it is. *)
Theorem readline_next_line fuel m st :
  rl_ok st -> (patience (rl_sock st) < fuel)%nat ->
  wp (readline fuel (S m))
     (fun r st' => rl_ok st' /\
        match r with
        | inl _ => exists j, stream st' = drop j (stream st)
        | inr (ret, line) =>
            line = line_of m (stream st) /\ stream st' = drop (length line) (stream st) /\
            ret = Z.of_nat (length line) +
                  (if bool_decide (length line = m /\ NL ∉ line) then 1 else 0)
        end) st.
Proof.
  intros Hok Hf. eapply wp_mono; [by apply wp_readline_loop|].
  intros r st' [Hok' Hr]. split; [done|]. destruct r as [e|[ret line]]; [done|].
  destruct Hr as (-> & Hst & ->). cbn [app]. split_and!; [done..|].
  destruct (cut m (stream st)) eqn:E.
  - rewrite bool_decide_true by (by apply cut_spec). lia.
  - rewrite bool_decide_false; [lia|]. rewrite <- cut_spec. by rewrite E.
Qed.
End Properties.

Definition demo_peer : script :=
  Script (chars "hello" ++ [NL] ++ chars "bye") [] [Chunk 2; Signal; Chunk 1; Signal; Chunk 3].

Lemma readn_exact_witness :
  wp (readn 20 7)
     (fun r k' => match r with
                  | inr b => b = take 7 (pending demo_peer) /\ pending k' = drop 7 (pending demo_peer)
                  | inl _ => exists m, (m <= 7)%nat /\ pending k' = drop m (pending demo_peer)
                  end) demo_peer.
Proof. apply readn_exact. vm_compute. lia. Defined.

Lemma str_echo_echoes_witness :
  match str_echo 20 demo_peer with
  | Ok _ k' => sent k' = sent demo_peer ++ pending demo_peer /\ pending k' = []
  | Aborted w => w = ErrExit
  | Undef _ => False
  end.
Proof. apply str_echo_echoes. vm_compute. lia. Defined.

Definition demo_rl : rl script := RL 0 0 (replicate MAXLINE NUL) demo_peer.

Lemma readline_next_line_witness :
  wp (readline 20 5)
     (fun r st' => rl_ok st' /\
        match r with
        | inl _ => exists j, stream st' = drop j (stream demo_rl)
        | inr (ret, line) =>
            line = line_of 4 (stream demo_rl) /\ stream st' = drop (length line) (stream demo_rl) /\
            ret = Z.of_nat (length line) +
                  (if bool_decide (length line = 4%nat /\ NL ∉ line) then 1 else 0)
        end) demo_rl.
Proof.
  apply readline_next_line; [|vm_compute; lia].
  split; [apply length_replicate | cbn; lia].
Defined.
