(* ===== verification/WebChild.v ===== *)
(** * Serving one client of the web server

    Stevens/unpv13e/server/web_child.c: a client sends lines with a number, and
    gets that many bytes for each, until it closes.  The lines come through
    [readline], whose buffer outlives the connection: the process that serves one
    client after another keeps it. *)

From S2P Require Import Prelude CLib BufIO.

Definition MAXN : Z := 16384.

(** [atol] with its 64-bit [long]: undefined when the value is not one. *)
Definition long_ok (z : Z) : bool := (-9223372036854775808 <=? z) && (z <=? 9223372036854775807).
Definition atol (b : buf) : chk Z :=
  s ← need_str b;
  let v := atoi_val s in if long_ok v then Def v else Bad SignedOverflow.

Section WebChild.
Context {K : Type} `{Socket K}.

(** An operation on the socket, beside the variables of readline.c. *)
Definition on_sock {A} (m : M K A) : M (rl K) A := fun st =>
  match m (rl_sock st) with
  | Ok a k' => Ok a (RL (read_cnt st) (read_ptr st) (read_buf st) k')
  | Aborted w => Aborted w
  | Undef u => Undef u
  end.

(** [result]: the array on the stack. *)
Fixpoint web_child (fuel : nat) (result : buf) : M (rl K) unit :=
  match fuel with
  | O => out_of_fuel
  | S f =>
      '(nread, line) ← Readline fuel MAXLINE;
      if nread =? 0 then mret tt else
      v ← lift (atol (line ++ [NUL]));
      let ntowrite := wrap_int v in
      if (ntowrite <=? 0) || (MAXN <? ntowrite) then abort_with ErrExit
      else on_sock (Writen fuel (take (Z.to_nat ntowrite) result)) ≫= fun _ => web_child f result
  end.
End WebChild.

(** ** What the requests of a stream ask for *)

(** The numbers asked for, and how the stream ends: the client closes, a number
    is out of range, or it does not fit a [long]. *)
Inductive ending := AllGood | BadRequest | TooLong.

Definition ask (line : buf) : ending + Z :=
  match atol (line ++ [NUL]) with
  | Bad _ => inl TooLong
  | Def v => let n := wrap_int v in
             if (n <=? 0) || (MAXN <? n) then inl BadRequest else inr n
  end.

Fixpoint requests (fuel : nat) (s : buf) : list Z * ending :=
  match fuel, s with
  | S f, _ :: _ =>
      let line := line_of (pred MAXLINE) s in
      match ask line with
      | inl e => ([], e)
      | inr n => let '(ns, e) := requests f (drop (length line) s) in (n :: ns, e)
      end
  | _, _ => ([], AllGood)
  end.

Definition asked (s : buf) : list Z * ending := requests (length s) s.

(** The bytes sent for them. *)
Definition reply (result : buf) (ns : list Z) : buf := mjoin ((fun n => take (Z.to_nat n) result) <$> ns).

(** ** Sockets that do not fail *)

Class Steady (K : Type) `{Socket K} := {
  steady : K -> Prop;
  steady_read : forall k n r k', steady k -> sk_read k n = (r, k') ->
    steady k' /\ forall e, r <> Fail e;
  steady_write : forall k b r k', steady k -> b <> [] -> sk_write k b = (r, k') ->
    steady k' /\ r <> Done O /\ forall e, r <> Fail e }.

(** A script without errors. *)
#[export, refine] Instance script_steady : Steady script := {|
  steady := fun s => Forall (fun e => match e with Broken _ => False | _ => True end) (sc_events s) |}.
Proof.
  - intros [i o es] n r k'. cbn [sk_read script_socket]. unfold script_read, script_serve. cbn [sc_events].
    intros Hs E. destruct es as [|[m| |er] es]; [|apply Forall_cons_1 in Hs as [? Hs]..]; by simplify_eq.
  - intros [i o es] b r k'. cbn [sk_write script_socket]. unfold script_write, script_serve. cbn [sc_events].
    intros Hs Hb E. assert (0 < length b)%nat by (destruct b; [done|cbn; lia]).
    destruct es as [|[m| |er] es]; [|apply Forall_cons_1 in Hs as [? Hs]..]; simplify_eq; [| |done..];
      (split; [done|]); (split; [|done]); intros [= E]; lia.
Defined.

Section Facts.
Context {K : Type} `{Steady K}.

(** What reading a line does beside it: nothing is sent, and a socket that does
    not fail gives no error. *)
Definition quiet {A} (st : rl K) (r : Z + A) (st' : rl K) : Prop :=
  sent (rl_sock st') = sent (rl_sock st) /\
  (steady (rl_sock st) -> steady (rl_sock st') /\ exists x, r = inr x) /\
  forall x, r = inr x -> (patience (rl_sock st') <= patience (rl_sock st))%nat.

Lemma quiet_trans {A B} st (r1 : Z + A) st1 (r2 : Z + B) st2 x :
  quiet st r1 st1 -> r1 = inr x -> quiet st1 r2 st2 -> quiet st r2 st2.
Proof.
  intros (S1 & T1 & P1) -> (S2 & T2 & P2). split; [congruence|]. split.
  - intros Hs. apply T2. by apply T1.
  - intros y Hy. etrans; [by eapply P2|by eapply P1].
Qed.

Lemma refill_quiet fuel st :
  match refill fuel st with
  | Ok None st' => quiet st (inr tt) st'
  | Ok (Some r) st' => quiet st r st'
  | Aborted _ => False
  | Undef _ => True
  end.
Proof.
  revert st. induction fuel as [|f IH]; intros st; cbn [refill]; [done|].
  destruct (sk_read (rl_sock st) MAXLINE) as [r k'] eqn:E. destruct r as [b| |e].
  - apply sk_read_done in E as Hd; [|unfold MAXLINE; lia]. destruct Hd as (_ & _ & _ & Hs & Hp).
    assert (forall (A : Type) (x : A) st', rl_sock st' = k' -> quiet st (inr x) st') as Hq.
    { intros A x st' <-. split; [done|]. split; [|done]. intros Ht.
      by destruct (steady_read _ _ _ _ Ht E) as [? _]; eauto. }
    destruct b as [|c b]; by apply Hq.
  - apply sk_read_intr in E as Hd. destruct Hd as (_ & Hs & Hp).
    specialize (IH (RL (-1) (read_ptr st) (read_buf st) k')).
    assert (forall (A : Type) (r : Z + A) st', quiet (RL (-1) (read_ptr st) (read_buf st) k') r st' -> quiet st r st') as Hq.
    { intros A r st' (S1 & T1 & P1). cbn [rl_sock] in *. split; [congruence|]. split.
      - intros Ht. apply T1. by apply (steady_read _ _ _ _ Ht E).
      - intros x Hx. specialize (P1 x Hx). lia. }
    destruct (refill f _) as [[r|] st'| |]; auto.
  - apply sk_read_fail in E as Hd. destruct Hd as [_ Hs]. split; [done|]. split; [|done].
    intros Ht. by destruct (proj2 (steady_read _ _ _ _ Ht E) e).
Qed.

Lemma next_char_quiet st :
  match next_char st with Ok r st' => quiet st r st' | Aborted _ => False | Undef _ => True end.
Proof. unfold next_char. destruct (nth_error _ _); [|done]. split; [done|]. cbn. eauto. Qed.

Lemma my_read_quiet fuel st :
  match my_read fuel st with Ok r st' => quiet st r st' | Aborted _ => False | Undef _ => True end.
Proof.
  unfold my_read, gets, mbind, M_bind. destruct (read_cnt st <=? 0); [|apply next_char_quiet].
  pose proof (refill_quiet fuel st) as Hr. destruct (refill fuel st) as [[r|] st1| |]; [done| |done..].
  pose proof (next_char_quiet st1) as Hn. destruct (next_char st1); [|done..]. by eapply quiet_trans.
Qed.

Lemma readline_loop_quiet fuel todo n line st :
  match readline_loop fuel todo n line st with
  | Ok r st' => quiet st r st' | Aborted _ => False | Undef _ => True end.
Proof.
  revert n line st. induction todo as [|t IH]; intros n line st; cbn [readline_loop].
  { split; [done|]. cbn. eauto. }
  unfold mbind, M_bind. pose proof (my_read_quiet fuel st) as Hr.
  destruct (my_read fuel st) as [[e|[c|]] st1| |]; [| | |done..].
  - destruct Hr as (S1 & T1 & P1). split; [done|]. split; [|done]. intros Ht.
    by destruct (T1 Ht) as [_ [x ?]].
  - destruct (Ascii.eqb c NL).
    + cbn [mret M_ret]. destruct Hr as (S1 & T1 & P1). split; [done|]. split; [naive_solver|naive_solver].
    + specialize (IH (n + 1) (line ++ [c]) st1). destruct (readline_loop _ _ _ _ st1); [|done..].
      by eapply quiet_trans.
  - cbn [mret M_ret]. destruct Hr as (S1 & T1 & P1). split; [done|]. split; [naive_solver|naive_solver].
Qed.

Lemma line_of_pos s : s <> [] -> (0 < length (line_of (pred MAXLINE) s))%nat.
Proof.
  assert (exists m, pred MAXLINE = S m) as [m ->] by (by exists 4094%nat).
  destruct s as [|c s]; [done|]. intros _. cbn [line_of]. destruct (Ascii.eqb c NL); cbn [length]; lia.
Qed.

Lemma readline_pred fuel n :
  (0 < n)%nat -> readline (K := K) fuel n = readline_loop fuel (pred n) 1 [].
Proof. destruct n; [lia|done]. Qed.

(** [Readline], at the sizes [web_child] uses. *)
Lemma Readline_cases fuel st :
  rl_ok st -> (patience (rl_sock st) < fuel)%nat ->
  match Readline fuel MAXLINE st with
  | Ok (nread, line) st' =>
      rl_ok st' /\ line = line_of (pred MAXLINE) (stream st) /\
      stream st' = drop (length line) (stream st) /\ (nread = 0 <-> stream st = []) /\
      quiet st (inr tt) st'
  | Aborted w => w = ErrExit /\ ~ steady (rl_sock st)
  | Undef _ => False
  end.
Proof.
  intros Hok Hf. unfold Readline, mbind, M_bind.
  assert (0 < pred MAXLINE)%nat as HL by (apply Nat.ltb_lt; vm_compute; reflexivity).
  rewrite readline_pred by lia.
  pose proof line_of_pos as Hpos. revert HL Hpos. generalize (pred MAXLINE). intros L HL Hpos.
  pose proof (wp_readline_loop fuel L 1 [] st Hok Hf) as Hw. unfold wp in Hw.
  pose proof (readline_loop_quiet fuel L 1 [] st) as Hq.
  destruct (readline_loop _ _ _ _ st) as [[e|[ret l]] st'| |]; [|..|done|done].
  - cbn. split; [done|]. intros Ht. by destruct (proj1 (proj2 Hq) Ht) as [_ [x ?]].
  - cbn [mret M_ret]. destruct Hw as (Hok' & -> & Hs & ->). split_and!; try done.
    + cbv zeta. destruct (cut L (stream st)) eqn:Ec.
      * apply cut_spec in Ec as [El _]. split; [lia|]. intros E. rewrite E in El. destruct L; cbn in El; lia.
      * split; [|intros ->; by destruct L]. intros E. destruct (decide (stream st = [])) as [|Hne]; [done|].
        apply Hpos in Hne. cbn [app] in E. lia.
    + destruct Hq as (Q1 & Q2 & Q3). split; [done|]. split; [|intros _ _; by eapply Q3].
      intros Ht. split; [by apply Q2|by exists tt].
Qed.

Lemma writen_steady fuel b k :
  steady k -> match writen fuel b k with Ok r k' => steady k' /\ exists x, r = inr x | _ => True end.
Proof.
  revert b k. induction fuel as [|f IH]; intros b k Ht; cbn [writen]; [done|].
  destruct (Nat.eqb_spec (length b) 0) as [Hb|Hb]; [cbn; eauto|].
  unfold mbind, M_bind, write. destruct (sk_write k b) as [r k'] eqn:E.
  assert (b <> []) as Hne by (by intros ->).
  destruct (steady_write _ _ _ _ Ht Hne E) as (Ht' & Hz & Hf).
  destruct r as [[|n]| |e]; [done| | |by destruct (Hf e)]; by apply IH.
Qed.

Lemma Writen_cases fuel b st :
  (length b + patience (rl_sock st) < fuel)%nat ->
  match on_sock (Writen fuel b) st with
  | Ok _ st' => exists k', st' = RL (read_cnt st) (read_ptr st) (read_buf st) k' /\
      sent k' = sent (rl_sock st) ++ b /\ pending k' = pending (rl_sock st) /\
      (patience k' <= patience (rl_sock st))%nat /\ (steady (rl_sock st) -> steady k')
  | Aborted w => w = ErrExit /\ ~ steady (rl_sock st)
  | Undef _ => False
  end.
Proof.
  intros Hf. unfold on_sock, Writen, mbind, M_bind.
  pose proof (wp_writen fuel b (rl_sock st) Hf) as Hw. unfold wp in Hw.
  pose proof (writen_steady fuel b (rl_sock st)) as Hs.
  destruct (writen fuel b (rl_sock st)) as [[e|[]] k'| |]; [|..|done|done].
  - cbn. split; [done|]. intros Ht. by destruct (Hs Ht) as [_ [x ?]].
  - cbn. destruct Hw as (Hp & Hse & Hpat). exists k'. split_and!; try done. intros Ht. by apply Hs.
Qed.

(** A buffer that has been read to the end of the stream holds nothing. *)
Lemma stream_nil_clean st : rl_ok st -> stream st = [] -> read_cnt st <= 0 /\ pending (rl_sock st) = [].
Proof.
  intros [Hl Hp] [Hu Hpe]%app_eq_nil. split; [|done].
  destruct (Z.le_gt_cases (read_cnt st) 0) as [|Hc]; [done|]. specialize (Hp Hc).
  apply (f_equal length) in Hu. unfold unread in Hu. rewrite length_take, length_drop in Hu. cbn in Hu. lia.
Qed.
End Facts.

(** ** The requests of a stream *)

Lemma take_length_le' {A} n (l : list A) : (length (take n l) <= length l)%nat.
Proof. rewrite length_take. lia. Qed.

Lemma requests_enough f g s :
  (length s <= f)%nat -> (length s <= g)%nat -> requests f s = requests g s.
Proof.
  revert g s. induction f as [|f IH]; intros g s Hf Hg.
  - assert (s = []) as -> by (apply length_zero_iff_nil; lia). by destruct g.
  - destruct s as [|c s]; [by destruct g|]. destruct g as [|g]; [cbn in Hg; lia|].
    cbn [requests]. set (line := line_of _ _). assert (0 < length line)%nat by (by apply line_of_pos).
    destruct (ask line); [done|]. rewrite (IH g); [done|rewrite length_drop; cbn [length] in *; lia..].
Qed.

Lemma asked_next s :
  s <> [] ->
  let line := line_of (pred MAXLINE) s in
  asked s = match ask line with
            | inl e => ([], e)
            | inr n => let '(ns, e) := asked (drop (length line) s) in (n :: ns, e)
            end.
Proof.
  intros Hs line. unfold asked. destruct s as [|c s]; [done|].
  assert (0 < length line)%nat by (by apply line_of_pos).
  change (length (c :: s)) with (S (length s)). cbn [requests]. fold line.
  destruct (ask line); [done|].
  by rewrite (requests_enough (length s) (length (drop (length line) (c :: s))))
    by (rewrite length_drop; cbn [length]; lia).
Qed.

Lemma atol_cases line : (exists v, atol (line ++ [NUL]) = Def v) \/ atol (line ++ [NUL]) = Bad SignedOverflow.
Proof.
  unfold atol, need_str. assert (exists s, cstr (line ++ [NUL]) = Some s) as [s ->].
  { induction line as [|c l [s IH]]; cbn [app cstr]; [by exists []|].
    destruct (Ascii.eqb c NUL); [by exists []|]. rewrite IH. by eexists. }
  rewrite chk_bind_Def. cbv zeta. destruct (long_ok _); eauto.
Qed.

Lemma reply_cons result n ns : reply result (n :: ns) = take (Z.to_nat n) result ++ reply result ns.
Proof. done. Qed.

Section Answers.
Context {K : Type} `{Steady K}.

(** The whole conversation, as the requests say; [quit] when the process exits. *)
Definition answered (result : buf) (st : rl K) (o : outcome (rl K) unit) : Prop :=
  let '(ns, e) := asked (stream st) in
  match o with
  | Ok _ st' => e = AllGood /\ sent (rl_sock st') = sent (rl_sock st) ++ reply result ns /\
      rl_ok st' /\ read_cnt st' <= 0 /\ (patience (rl_sock st') <= patience (rl_sock st))%nat
  | Aborted w => w = ErrExit /\ (e = BadRequest \/ ~ steady (rl_sock st))
  | Undef u => e = TooLong /\ u = SignedOverflow
  end.

(** One turn: a good request is answered, and the rest of the stream is left. *)
Lemma answered_turn result st st1 st2 n o :
  stream st <> [] -> ask (line_of (pred MAXLINE) (stream st)) = inr n ->
  stream st2 = drop (length (line_of (pred MAXLINE) (stream st))) (stream st) ->
  quiet st (inr tt) st1 ->
  sent (rl_sock st2) = sent (rl_sock st1) ++ take (Z.to_nat n) result ->
  (patience (rl_sock st2) <= patience (rl_sock st1))%nat ->
  (steady (rl_sock st1) -> steady (rl_sock st2)) ->
  answered result st2 o -> answered result st o.
Proof.
  intros Hne Ha Hs (Q1 & Q2 & Q3) Hse Hp Ht. unfold answered. rewrite (asked_next (stream st)) by done. cbv zeta.
  rewrite Ha, <- Hs. destruct (asked (stream st2)) as [ns e]. specialize (Q3 tt eq_refl).
  destruct o as [[] st'|w|u]; [|intros [-> [?|Hn]]; (split; [done|]); [by left|right]; intros Hst; by apply Hn, Ht, Q2|done].
  intros (-> & -> & ? & ? & ?). rewrite Hse, Q1, reply_cons, !app_assoc. split_and!; [done..|lia].
Qed.

(** What [web_child] does with its client is determined by what the client sends:
    every request up to the end of the stream is answered with the number of
    bytes it asks for; at a number out of range the process exits; when it
    returns, the buffer of [readline] is empty, so that nothing one client sent
    reaches the next.  Only an error of the socket ends the process otherwise. *)
Lemma web_child_answers fuel result st :
  rl_ok st -> Z.of_nat (length result) = MAXN ->
  (length result + length (stream st) + patience (rl_sock st) < fuel)%nat ->
  answered result st (web_child fuel result st).
Proof.
  intros Hok Hr. revert st Hok. induction fuel as [|f IH]; intros st Hok Hf; [lia|].
  cbn [web_child]. unfold mbind, M_bind.
  pose proof (Readline_cases (S f) st Hok ltac:(lia)) as HR.
  destruct (Readline (S f) MAXLINE st) as [[nread line] st1|w|u]; [|..|done].
  2:{ unfold answered. destruct (asked _). destruct HR. auto. }
  destruct HR as (Hok1 & Hl & Hs1 & Hz & Hq). destruct (Z.eqb_spec nread 0) as [E|E].
  { apply Hz in E. unfold answered. rewrite E. cbn. destruct Hq as (Q1 & _ & Q3).
    apply stream_nil_clean in Hok1 as Hc; [|by rewrite Hs1, E, drop_nil].
    rewrite Q1, app_nil_r. specialize (Q3 tt eq_refl). by destruct Hc. }
  assert (stream st <> []) as Hne by (by intros ?%Hz). clear Hz E.
  assert (forall e, ask line = inl e -> asked (stream st) = ([], e)) as Hbad.
  { intros e Ha. rewrite asked_next by done. cbv zeta. by rewrite <- Hl, Ha. }
  destruct (atol_cases line) as [[v Hv]|Hv]; rewrite Hv; cbn [lift].
  2:{ unfold answered. by rewrite (Hbad TooLong) by (unfold ask; by rewrite Hv). }
  destruct ((wrap_int v <=? 0) || (MAXN <? wrap_int v)) eqn:Eb.
  { unfold answered. rewrite (Hbad BadRequest); [cbn; auto|]. unfold ask. by rewrite Hv, Eb. }
  assert (ask line = inr (wrap_int v)) as Ha by (unfold ask; by rewrite Hv, Eb).
  pose proof Hq as (Q1 & Q2 & Q3). pose proof (Q3 tt eq_refl) as Hp1.
  assert (0 < length line)%nat as Hpos by (rewrite Hl; by apply line_of_pos).
  pose proof (take_length_le' (Z.to_nat (wrap_int v)) result) as Htl.
  pose proof (Writen_cases (S f) (take (Z.to_nat (wrap_int v)) result) st1 ltac:(lia)) as HW.
  destruct (on_sock _ st1) as [[] st2|w|u]; [|..|done].
  - destruct HW as (k' & E2 & Hse & Hpe & Hpa & Hst).
    assert (stream st2 = stream st1) as Hs2 by (rewrite E2; unfold stream, unread; cbn; by rewrite Hpe).
    assert (0 < length (stream st))%nat by (destruct (stream st); [done|cbn; lia]).
    apply (answered_turn result st st1 st2 (wrap_int v)); rewrite ?Hs2, <- ?Hl; try done;
      try (rewrite E2; done).
    apply IH; [by rewrite E2|]. rewrite Hs2, Hs1, length_drop, E2. cbn [rl_sock]. lia.
  - unfold answered. destruct (asked _) as [ns e]. destruct HW as [-> Hns]. split; [done|]. right.
    intros Ht. by apply Hns, Q2.
Qed.
End Answers.
