(* ===== verification/StrCli.v ===== *)
(** * A client with nonblocking I/O

    Stevens/unpv13e/nonblock/strclinonb.c: [str_cli] copies standard input to a
    socket and the socket to standard output, through two buffers with two
    pointers each, and never blocks in a read or a write. *)

From S2P Require Import Prelude CLib BufIO.

(** A buffer of [MAXLINE] bytes: the bytes between its start and the input
    pointer, and the offset of the output pointer. *)
Record nbuf := NBuf { nb_data : buf; nb_out : nat }.

Definition nb_room (b : nbuf) : nat := MAXLINE - length (nb_data b).
Definition nb_pending (b : nbuf) : buf := drop (nb_out b) (nb_data b).

(** [iptr += n] after a read, and [optr += n] after a write with the return to
    the beginning of the buffer. *)
Definition nb_fill (b : nbuf) (got : buf) : nbuf := NBuf (nb_data b ++ got) (nb_out b).
Definition nb_drain (b : nbuf) (n : nat) : nbuf :=
  if (nb_out b + n =? length (nb_data b))%nat then NBuf [] 0
  else NBuf (nb_data b) (nb_out b + n).

(** The variables of [str_cli], and what has passed through the descriptors:
    the bytes read from standard input and from the socket, the bytes written to
    the socket and to standard output, and the calls of [Shutdown]. *)
Record cli := Cli {
  c_to : nbuf; c_fr : nbuf; stdineof : bool;
  read_stdin : buf; wrote_sock : buf; read_sock : buf; wrote_stdout : buf; fins : nat }.

Definition cli_init : cli := Cli (NBuf [] 0) (NBuf [] 0) false [] [] [] [] 0.

(** The descriptors [Select] is asked about. *)
Definition wants_stdin (s : cli) : bool := negb (stdineof s) && (length (nb_data (c_to s)) <? MAXLINE)%nat.
Definition wants_sock (s : cli) : bool := (length (nb_data (c_fr s)) <? MAXLINE)%nat.
Definition wants_wsock (s : cli) : bool := negb (nb_out (c_to s) =? length (nb_data (c_to s)))%nat.
Definition wants_stdout (s : cli) : bool := negb (nb_out (c_fr s) =? length (nb_data (c_fr s)))%nat.

(** What the kernel does in one turn: which descriptors [Select] reports, and
    the answers of the four calls, to the room a read is given or the bytes a
    write is given.  [Intr] stands for EWOULDBLOCK here. *)
Record turn := Turn {
  t_stdin : bool; t_sock : bool; t_wsock : bool; t_stdout : bool;
  r_stdin : nat -> io buf; r_sock : nat -> io buf;
  w_stdout : buf -> io nat; w_sock : buf -> io nat }.

Inductive after := Loop (s : cli) | Return (s : cli) | ExitSys.

(** [Some (s, b)]: go on, and try the write [b] enables; [None]: the process
    exits. *)
Definition do_stdin (t : turn) (s : cli) : option (cli * bool) :=
  if wants_stdin s && t_stdin t then
    match r_stdin t (nb_room (c_to s)) with
    | Fail _ => None
    | Intr => Some (s, false)
    | Done [] =>
        let f := if (nb_out (c_to s) =? length (nb_data (c_to s)))%nat then S (fins s) else fins s in
        Some (Cli (c_to s) (c_fr s) true (read_stdin s) (wrote_sock s) (read_sock s)
                  (wrote_stdout s) f, false)
    | Done b =>
        Some (Cli (nb_fill (c_to s) b) (c_fr s) (stdineof s) (read_stdin s ++ b) (wrote_sock s)
                  (read_sock s) (wrote_stdout s) (fins s), true)
    end
  else Some (s, false).

Definition do_sock (readable : bool) (t : turn) (s : cli) : after * bool :=
  if readable && t_sock t then
    match r_sock t (nb_room (c_fr s)) with
    | Fail _ => (ExitSys, false)
    | Intr => (Loop s, false)
    | Done [] => (if stdineof s then Return s else ExitSys, false)
    | Done b =>
        (Loop (Cli (c_to s) (nb_fill (c_fr s) b) (stdineof s) (read_stdin s) (wrote_sock s)
                   (read_sock s ++ b) (wrote_stdout s) (fins s)), true)
    end
  else (Loop s, false).

Definition do_stdout (writable : bool) (t : turn) (s : cli) : option cli :=
  if writable && (0 <? length (nb_pending (c_fr s)))%nat then
    match w_stdout t (nb_pending (c_fr s)) with
    | Fail _ => None
    | Intr => Some s
    | Done n =>
        Some (Cli (c_to s) (nb_drain (c_fr s) n) (stdineof s) (read_stdin s) (wrote_sock s)
                  (read_sock s) (wrote_stdout s ++ take n (nb_pending (c_fr s))) (fins s))
    end
  else Some s.

Definition do_wsock (writable : bool) (t : turn) (s : cli) : option cli :=
  if writable && (0 <? length (nb_pending (c_to s)))%nat then
    match w_sock t (nb_pending (c_to s)) with
    | Fail _ => None
    | Intr => Some s
    | Done n =>
        let to' := nb_drain (c_to s) n in
        let f := if (nb_out (c_to s) + n =? length (nb_data (c_to s)))%nat && stdineof s
                 then S (fins s) else fins s in
        Some (Cli to' (c_fr s) (stdineof s) (read_stdin s)
                  (wrote_sock s ++ take n (nb_pending (c_to s))) (read_sock s) (wrote_stdout s) f)
    end
  else Some s.

(** One turn of the loop.  The sets are computed before the reads; a read that
    returns bytes adds the descriptor of the matching write to [wset]. *)
Definition str_cli_turn (t : turn) (s : cli) : after :=
  let sock_set := wants_sock s in
  let wsock_set := wants_wsock s && t_wsock t in
  let stdout_set := wants_stdout s && t_stdout t in
  match do_stdin t s with
  | None => ExitSys
  | Some (s1, w1) =>
      match do_sock sock_set t s1 with
      | (Loop s2, w2) =>
          match do_stdout (stdout_set || w2) t s2 with
          | None => ExitSys
          | Some s3 =>
              match do_wsock (wsock_set || w1) t s3 with
              | None => ExitSys
              | Some s4 => Loop s4
              end
          end
      | (a, _) => a
      end
  end.

(** What the kernel promises about the four calls: a read returns no more than
    the room it is given, a write takes no more than it is given. *)
Definition turn_ok (t : turn) : Prop :=
  (forall n b, r_stdin t n = Done b -> (length b <= n)%nat) /\
  (forall n b, r_sock t n = Done b -> (length b <= n)%nat) /\
  (forall b n, w_stdout t b = Done n -> (n <= length b)%nat) /\
  (forall b n, w_sock t b = Done n -> (n <= length b)%nat).

(** The states the loop reaches, by turns the kernel may make. *)
Inductive cli_reach : cli -> Prop :=
  | cli_reach_init : cli_reach cli_init
  | cli_reach_turn s t s' :
      cli_reach s -> turn_ok t -> str_cli_turn t s = Loop s' -> cli_reach s'.

(** * Lemmas *)

Definition nbuf_ok (b : nbuf) : Prop :=
  (length (nb_data b) <= MAXLINE)%nat /\ (nb_out b <= length (nb_data b))%nat.

Lemma nb_fill_ok b got :
  nbuf_ok b -> (length got <= nb_room b)%nat ->
  nbuf_ok (nb_fill b got) /\ nb_pending (nb_fill b got) = nb_pending b ++ got.
Proof.
  intros [H1 H2] Hg. unfold nb_room in Hg. unfold nbuf_ok, nb_fill, nb_pending.
  cbn [nb_data nb_out]. rewrite length_app. split; [lia|]. by rewrite drop_app_le.
Qed.

Lemma length_nb_pending b : length (nb_pending b) = (length (nb_data b) - nb_out b)%nat.
Proof. apply length_drop. Qed.

Lemma nb_drain_ok b n :
  nbuf_ok b -> (n <= length (nb_pending b))%nat ->
  nbuf_ok (nb_drain b n) /\ take n (nb_pending b) ++ nb_pending (nb_drain b n) = nb_pending b.
Proof.
  intros [H1 H2] Hn. rewrite length_nb_pending in Hn. unfold nb_drain.
  destruct (Nat.eqb_spec (nb_out b + n) (length (nb_data b))) as [E|E].
  - split; [split; cbn; lia|]. change (nb_pending (NBuf [] 0)) with (@nil ascii).
    rewrite app_nil_r, take_ge by (rewrite length_nb_pending; lia). done.
  - split; [split; cbn [nb_data nb_out]; lia|]. unfold nb_pending. cbn [nb_data nb_out].
    rewrite <- drop_drop. apply take_drop.
Qed.

Lemma nb_drain_empty b n :
  nbuf_ok b -> (n <= length (nb_pending b))%nat ->
  (nb_pending (nb_drain b n) = [] <-> (nb_out b + n = length (nb_data b))%nat).
Proof.
  intros [H1 H2] Hn. rewrite length_nb_pending in Hn. unfold nb_drain.
  destruct (Nat.eqb_spec (nb_out b + n) (length (nb_data b))) as [E|E]; [done|].
  split; [|done]. intros Hp%(f_equal length). rewrite length_nb_pending in Hp.
  cbn [nb_data nb_out length] in Hp. lia.
Qed.

(** Nothing is lost, duplicated or reordered in either direction, the buffers
    are not overrun, and the connection is closed for writing once, when
    standard input has ended and all of it has been written. *)
Definition cli_inv (s : cli) : Prop :=
  nbuf_ok (c_to s) /\ nbuf_ok (c_fr s) /\
  read_stdin s = wrote_sock s ++ nb_pending (c_to s) /\
  read_sock s = wrote_stdout s ++ nb_pending (c_fr s) /\
  fins s = (if stdineof s && bool_decide (nb_pending (c_to s) = []) then 1 else 0)%nat.

Lemma nb_pending_nil b : nbuf_ok b ->
  (nb_out b =? length (nb_data b))%nat = bool_decide (nb_pending b = []).
Proof.
  intros [_ H]. destruct (Nat.eqb_spec (nb_out b) (length (nb_data b))) as [E|E]; symmetry.
  - apply bool_decide_eq_true, length_zero_iff_nil. rewrite length_nb_pending. lia.
  - apply bool_decide_eq_false. intros Hp%(f_equal length). rewrite length_nb_pending in Hp.
    cbn in Hp. lia.
Qed.

Lemma do_stdin_inv t s s1 w :
  turn_ok t -> cli_inv s -> do_stdin t s = Some (s1, w) ->
  cli_inv s1 /\ c_fr s1 = c_fr s.
Proof.
  intros (Hr & _) Hinv. pose proof Hinv as (Hto & Hfr & Hi & Ho & Hf).
  unfold do_stdin, wants_stdin.
  destruct (stdineof s) eqn:Ee; cbn [negb andb]; [by intros [= <- _]|].
  destruct (_ <? _)%nat eqn:Er; cbn [andb]; [|by intros [= <- _]].
  destruct (t_stdin t); [|by intros [= <- _]].
  destruct (r_stdin t (nb_room (c_to s))) as [[|c b]| |e] eqn:E; [..|done].
  - intros [= <- _]. split; [|done]. unfold cli_inv. cbn. split_and!; try done.
    rewrite nb_pending_nil by done. cbn in Hf. rewrite Hf.
    by destruct (bool_decide _).
  - intros [= <- _]. apply Hr in E.
    destruct (nb_fill_ok (c_to s) (c :: b) Hto E) as [Hok Hp].
    split; [|done]. unfold cli_inv. cbn [c_to c_fr stdineof read_stdin wrote_sock read_sock wrote_stdout fins].
    rewrite Hp, Hi, <- app_assoc. cbn [andb] in Hf. split_and!; done.
  - by intros [= <- _].
Qed.

Lemma do_sock_inv r t s s2 w :
  turn_ok t -> cli_inv s -> (do_sock r t s = (Loop s2, w) \/ do_sock r t s = (Return s2, w)) ->
  cli_inv s2 /\ (do_sock r t s = (Return s2, w) -> stdineof s2 = true).
Proof.
  intros (_ & Hr & _) Hinv. pose proof Hinv as (Hto & Hfr & Hi & Ho & Hf). unfold do_sock.
  destruct (r && t_sock t); [|naive_solver].
  destruct (r_sock t (nb_room (c_fr s))) as [[|c b]| |e] eqn:E; [..|naive_solver| naive_solver].
  - destruct (stdineof s) eqn:Ee; naive_solver.
  - intros [[= <- _]|?]; [|done]. split; [|done]. apply Hr in E.
    destruct (nb_fill_ok (c_fr s) (c :: b) Hfr E) as [Hok Hp].
    unfold cli_inv. cbn [c_to c_fr stdineof read_stdin wrote_sock read_sock wrote_stdout fins].
    rewrite Hp, Ho, <- app_assoc. split_and!; done.
Qed.

Lemma do_stdout_inv wr t s s3 :
  turn_ok t -> cli_inv s -> do_stdout wr t s = Some s3 -> cli_inv s3.
Proof.
  intros (_ & _ & Hw & _) Hinv. pose proof Hinv as (Hto & Hfr & Hi & Ho & Hf). unfold do_stdout.
  destruct (wr && _); [|by intros [= <-]].
  destruct (w_stdout t (nb_pending (c_fr s))) as [n| |e] eqn:E; [|by intros [= <-]|done].
  intros [= <-]. apply Hw in E. destruct (nb_drain_ok (c_fr s) n Hfr E) as [Hok Hp].
  unfold cli_inv. cbn [c_to c_fr stdineof read_stdin wrote_sock read_sock wrote_stdout fins].
  rewrite <- app_assoc, Hp. split_and!; done.
Qed.

Lemma do_wsock_inv wr t s s4 :
  turn_ok t -> cli_inv s -> do_wsock wr t s = Some s4 -> cli_inv s4.
Proof.
  intros (_ & _ & _ & Hw) Hinv. pose proof Hinv as (Hto & Hfr & Hi & Ho & Hf). unfold do_wsock.
  destruct wr; cbn [andb]; [|by intros [= <-]].
  destruct (Nat.ltb_spec 0 (length (nb_pending (c_to s)))) as [Hpos|]; [|by intros [= <-]].
  destruct (w_sock t (nb_pending (c_to s))) as [n| |e] eqn:E; [|by intros [= <-]|done].
  intros [= <-]. apply Hw in E. destruct (nb_drain_ok (c_to s) n Hto E) as [Hok Hp].
  unfold cli_inv. cbn [c_to c_fr stdineof read_stdin wrote_sock read_sock wrote_stdout fins].
  rewrite <- app_assoc, Hp. split_and!; [done..|].
  rewrite bool_decide_false, andb_false_r in Hf by (intros Hn; by rewrite Hn in Hpos; cbn in Hpos; lia).
  rewrite Hf. rewrite (bool_decide_ext _ _ (nb_drain_empty (c_to s) n Hto E)).
  destruct (Nat.eqb_spec (nb_out (c_to s) + n) (length (nb_data (c_to s)))) as [En|En].
  - rewrite bool_decide_true by done. by destruct (stdineof s).
  - rewrite bool_decide_false by done. by rewrite andb_false_r.
Qed.

Lemma str_cli_turn_inv t s :
  turn_ok t -> cli_inv s ->
  match str_cli_turn t s with
  | Loop s' => cli_inv s'
  | Return s' => cli_inv s' /\ stdineof s' = true
  | ExitSys => True
  end.
Proof.
  intros Ht Hs. unfold str_cli_turn.
  destruct (do_stdin t s) as [[s1 w1]|] eqn:E1; [|done].
  destruct (do_stdin_inv t s s1 w1 Ht Hs E1) as [H1 _].
  destruct (do_sock (wants_sock s) t s1) as [a w2] eqn:E2. destruct a as [s2|s2|]; [| |done].
  - destruct (do_sock_inv _ t s1 s2 w2 Ht H1 (or_introl E2)) as [H2 _].
    destruct (do_stdout _ t s2) as [s3|] eqn:E3; [|done].
    pose proof (do_stdout_inv _ t s2 s3 Ht H2 E3) as H3.
    destruct (do_wsock _ t s3) as [s4|] eqn:E4; [|done].
    by eapply do_wsock_inv.
  - destruct (do_sock_inv _ t s1 s2 w2 Ht H1 (or_intror E2)) as [H2 H2']. auto.
Qed.

Lemma cli_reach_inv s : cli_reach s -> cli_inv s.
Proof.
  induction 1 as [|s t s' _ IH Ht E].
  - unfold cli_inv, nbuf_ok. cbn. split_and!; (done || lia).
  - pose proof (str_cli_turn_inv t s Ht IH) as H. by rewrite E in H.
Qed.

(** ** Properties *)

(** C30: in every run of [str_cli], after any turn, what has been written to the
    socket followed by what waits in the buffer is exactly what was read from
    standard input, and the same from the socket to standard output; neither
    buffer is overrun; and the socket is shut down for writing at most once,
    after the end of standard input and with everything written. *)
Theorem str_cli_conveys s t s' :
  cli_reach s -> turn_ok t ->
  str_cli_turn t s = Loop s' \/ str_cli_turn t s = Return s' ->
  read_stdin s' = wrote_sock s' ++ nb_pending (c_to s') /\
  read_sock s' = wrote_stdout s' ++ nb_pending (c_fr s') /\
  (length (nb_data (c_to s')) <= MAXLINE)%nat /\ (length (nb_data (c_fr s')) <= MAXLINE)%nat /\
  (fins s' <= 1)%nat /\
  (fins s' = 1%nat -> stdineof s' = true /\ wrote_sock s' = read_stdin s').
Proof.
  intros Hr Ht E. pose proof (str_cli_turn_inv t s Ht (cli_reach_inv s Hr)) as H.
  assert (cli_inv s') as ([Ht1 Ht2] & [Hf1 Hf2] & Hi & Ho & Hf)
    by (destruct E as [E|E]; rewrite E in H; [done | by destruct H]).
  split_and!; try done; rewrite Hf; destruct (stdineof s'), (bool_decide_reflect (nb_pending (c_to s') = []));
    cbn; try lia; intros; try done. split; [done|]. by rewrite Hi, e, app_nil_r.
Qed.

(** Standard input ends, the server answers, standard output would block; then
    the server closes. *)
Definition eof_turn : turn :=
  Turn true true false true (fun _ => Done []) (fun n => Done (take n (chars "x")))
       (fun _ => Intr) (fun b => Done (length b)).
Definition close_turn : turn :=
  Turn false true false false (fun _ => Intr) (fun _ => Done []) (fun _ => Intr) (fun _ => Intr).

Lemma eof_turn_ok : turn_ok eof_turn.
Proof.
  split_and!; cbn; intros ? ? E; simplify_eq; try (cbn; lia). rewrite length_take. lia.
Qed.

Lemma close_turn_ok : turn_ok close_turn.
Proof. split_and!; cbn; intros ? ? E; simplify_eq; cbn; lia. Qed.

Definition eof_state : cli :=
  Cli (NBuf [] 0) (NBuf (chars "x") 0) true [] [] (chars "x") [] 1.

Lemma eof_reach : cli_reach eof_state.
Proof.
  apply (cli_reach_turn cli_init eof_turn); [constructor | apply eof_turn_ok | by vm_compute].
Qed.

Lemma str_cli_conveys_witness :
  read_stdin eof_state = wrote_sock eof_state ++ nb_pending (c_to eof_state) /\
  read_sock eof_state = wrote_stdout eof_state ++ nb_pending (c_fr eof_state) /\
  (length (nb_data (c_to eof_state)) <= MAXLINE)%nat /\
  (length (nb_data (c_fr eof_state)) <= MAXLINE)%nat /\
  (fins eof_state <= 1)%nat /\
  (fins eof_state = 1%nat -> stdineof eof_state = true /\ wrote_sock eof_state = read_stdin eof_state).
Proof.
  apply (str_cli_conveys cli_init eof_turn); [constructor | apply eof_turn_ok | left; vm_compute; reflexivity].
Defined.

(** The normal return does not wait for standard output: what the server sent
    can be lost. *)
Lemma str_cli_drops_output :
  exists s t s', cli_reach s /\ turn_ok t /\ str_cli_turn t s = Return s' /\
                 nb_pending (c_fr s') <> [].
Proof.
  exists eof_state, close_turn, eof_state. split_and!;
    [apply eof_reach | apply close_turn_ok | by vm_compute | done].
Qed.
