(* ===== verification/SelectServ.v ===== *)
(** * An echo server for many clients

    Stevens/unpv13e/tcpcliserv/tcpservselect01.c: one process serves all its
    clients with [Select], an array of their descriptors, and the set of
    descriptors to watch. *)

From stdpp Require Import gmap sets fin_sets.
From S2P Require Import Prelude CLib.

Definition FD_SETSIZE : nat := 1024.

(** The variables that live from turn to turn. *)
Record srv := Srv { client : list Z; maxi : Z; maxfd : Z; allset : gset Z }.

Definition srv_init (listenfd : Z) : srv :=
  Srv (replicate FD_SETSIZE (-1)) (-1) listenfd {[ listenfd ]}.

(** What the server does to its clients. *)
Inductive action := Accepted (fd : Z) | Echoed (fd : Z) (b : buf) | Closed (fd : Z).

(** The kernel in one turn: the descriptors ready for reading, the descriptor
    [Accept] returns, and what [Read] returns for each descriptor.  The wrappers
    end the process when a call fails; a turn is one in which none does. *)
Record ready := Ready { rset : gset Z; connfd : Z; rd : Z -> buf }.

Fixpoint first_free (l : list Z) : option nat :=
  match l with
  | [] => None
  | c :: l' => if c <? 0 then Some O else S <$> first_free l'
  end.

(** [FD_SET]: outside the bit array it is undefined. *)
Definition FD_SET (fd : Z) (s : gset Z) : chk (gset Z) :=
  if (0 <=? fd) && (fd <? Z.of_nat FD_SETSIZE) then Def ({[ fd ]} ∪ s) else Bad BufferOverflow.

(** A new client: [None] is "too many clients". *)
Definition new_client (k : ready) (s : srv) : chk (option srv) :=
  match first_free (client s) with
  | None => mret None
  | Some i =>
      all' ← FD_SET (connfd k) (allset s);
      mret (Some (Srv (<[i := connfd k]> (client s))
                      (if maxi s <? Z.of_nat i then Z.of_nat i else maxi s)
                      (if maxfd s <? connfd k then connfd k else maxfd s) all'))
  end.

Definition is_ready (k : ready) (c : Z) : bool := (0 <=? c) && bool_decide (c ∈ rset k).

(** One client that is ready: its entry afterwards and what is done. *)
Definition serve_one (k : ready) (c : Z) : Z * action :=
  match rd k c with
  | [] => (-1, Closed c)
  | b => (c, Echoed c b)
  end.

(** The loop over [client[0..maxi]], which stops when [nready] clients have been
    served. *)
Fixpoint serve (k : ready) (cs : list Z) (nready : Z) : list Z * list action :=
  match cs with
  | [] => ([], [])
  | c :: cs' =>
      if is_ready k c then
        let '(c', a) := serve_one k c in
        if nready - 1 <=? 0 then (c' :: cs', [a])
        else let '(r, acts) := serve k cs' (nready - 1) in (c' :: r, a :: acts)
      else let '(r, acts) := serve k cs' nready in (c :: r, acts)
  end.

(** The descriptors taken out of [allset]. *)
Definition closed (acts : list action) : gset Z :=
  list_to_set (omap (fun a => match a with Closed fd => Some fd | _ => None end) acts).

Definition serve_clients (k : ready) (nready : Z) (s : srv) : srv * list action :=
  let n := Z.to_nat (maxi s + 1) in
  let '(cs, acts) := serve k (take n (client s)) nready in
  (Srv (cs ++ drop n (client s)) (maxi s) (maxfd s) (allset s ∖ closed acts), acts).

(** One turn of the loop; [None]: the process exits. *)
Definition srv_turn (listenfd : Z) (k : ready) (s : srv) : chk (option (srv * list action)) :=
  let nready := Z.of_nat (size (rset k)) in
  if bool_decide (listenfd ∈ rset k) then
    r ← new_client k s;
    match r with
    | None => mret None
    | Some s1 =>
        if nready - 1 <=? 0 then mret (Some (s1, [Accepted (connfd k)]))
        else let '(s2, acts) := serve_clients k (nready - 1) s1 in
             mret (Some (s2, Accepted (connfd k) :: acts))
    end
  else mret (Some (serve_clients k nready s)).

(** * Lemmas *)

(** The clients that are ready, in the order of the array; what is done with
    them; and their entries afterwards. *)
Definition ready_clients (k : ready) (cs : list Z) : list Z := filter (fun c => is_ready k c = true) cs.
Definition after_serve (k : ready) (c : Z) : Z := if is_ready k c then (serve_one k c).1 else c.

Lemma after_serve_none k cs : ready_clients k cs = [] -> after_serve k <$> cs = cs.
Proof.
  induction cs as [|c cs IH]; intros H; [done|].
  unfold ready_clients in *. cbn [fmap list_fmap].
  rewrite filter_cons in H. unfold after_serve at 1.
  destruct (is_ready k c) eqn:E; [by rewrite decide_True in H by done|].
  rewrite decide_False in H by done. by rewrite IH.
Qed.

(** The loop with its early exit does what the loop without it does. *)
Lemma serve_all k cs nready :
  nready = Z.of_nat (length (ready_clients k cs)) ->
  serve k cs nready = (after_serve k <$> cs, (fun c => (serve_one k c).2) <$> ready_clients k cs).
Proof.
  revert nready. induction cs as [|c cs IH]; intros n Hn; [done|].
  unfold ready_clients in *. cbn [serve fmap list_fmap]. rewrite filter_cons in *.
  unfold after_serve at 1. destruct (is_ready k c) eqn:E.
  - rewrite decide_True in * by done. cbn [length] in Hn.
    destruct (serve_one k c) as [c' a] eqn:Es. cbn [fst].
    destruct (Z.leb_spec (n - 1) 0) as [Hle|Hgt].
    + assert (ready_clients k cs = []) as H0.
      { apply length_zero_iff_nil. unfold ready_clients. lia. }
      rewrite (after_serve_none k cs H0). unfold ready_clients in H0. rewrite H0.
      cbn. by rewrite Es.
    + rewrite IH by lia. cbn [fmap list_fmap]. by rewrite Es.
  - rewrite decide_False in * by done. by rewrite IH.
Qed.

Lemma first_free_Some l i :
  first_free l = Some i -> exists c, l !! i = Some c /\ c < 0 /\ forall j d, (j < i)%nat -> l !! j = Some d -> 0 <= d.
Proof.
  revert i. induction l as [|c l IH]; intros i; cbn; [done|].
  destruct (Z.ltb_spec c 0).
  - intros [= <-]. exists c. split_and!; [done..|]. intros j d Hj. lia.
  - destruct (first_free l) as [i'|] eqn:E; [|done]. cbn. intros [= <-].
    destruct (IH i' eq_refl) as (d & Hd & Hneg & Hbefore). exists d. split_and!; [done..|].
    intros [|j] e Hj; cbn; [intros [= <-]; lia|]. apply Hbefore. lia.
Qed.

(** The descriptors in use. *)
Definition active (cs : list Z) : list Z := filter (fun c => 0 <= c) cs.

Record srv_inv (listenfd : Z) (s : srv) : Prop := {
  inv_len : length (client s) = FD_SETSIZE;
  inv_listen : 0 <= listenfd /\ (listenfd ∉ client s) /\ listenfd <= maxfd s;
  inv_set : allset s = {[ listenfd ]} ∪ list_to_set (active (client s));
  inv_nodup : NoDup (active (client s));
  inv_max : forall i c, client s !! i = Some c -> 0 <= c -> Z.of_nat i <= maxi s /\ c <= maxfd s;
  inv_maxi : -1 <= maxi s < Z.of_nat FD_SETSIZE;
  inv_range : forall c, c ∈ allset s -> 0 <= c < Z.of_nat FD_SETSIZE }.

(** What the kernel promises: only watched descriptors are reported, at least
    one, and a new connection has a descriptor that is not in use and is within
    the range of a descriptor set. *)
Definition ready_ok (listenfd : Z) (s : srv) (k : ready) : Prop :=
  rset k ⊆ allset s /\ rset k <> ∅ /\
  (listenfd ∈ rset k -> 0 <= connfd k < Z.of_nat FD_SETSIZE /\ (connfd k ∉ allset s)).

Lemma elem_of_active cs c : c ∈ active cs <-> c ∈ cs /\ 0 <= c.
Proof. unfold active. rewrite list_elem_of_filter. naive_solver. Qed.

Lemma is_ready_spec k c : is_ready k c = true <-> 0 <= c /\ c ∈ rset k.
Proof. unfold is_ready. by rewrite andb_true_iff, Z.leb_le, bool_decide_eq_true. Qed.

Lemma elem_of_ready k cs c : c ∈ ready_clients k cs <-> c ∈ cs /\ 0 <= c /\ c ∈ rset k.
Proof. unfold ready_clients. rewrite list_elem_of_filter, is_ready_spec. naive_solver. Qed.

Lemma ready_sublist k cs : ready_clients k cs = filter (fun c => c ∈ rset k) (active cs).
Proof.
  induction cs as [|c cs IH]; [done|]. unfold ready_clients, active in *. rewrite !filter_cons.
  pose proof (is_ready_spec k c) as Hs.
  destruct (decide (is_ready k c = true)), (decide (0 <= c)); rewrite ?filter_cons, IH; try done;
    destruct (decide (c ∈ rset k)); naive_solver.
Qed.

(** The clients that are ready are the descriptors reported, without the
    listening one. *)
Lemma ready_perm listenfd s k :
  srv_inv listenfd s -> rset k ⊆ allset s ->
  ready_clients k (client s) ≡ₚ elements (rset k ∖ {[ listenfd ]}).
Proof.
  intros [Hlen (Hl0 & Hl & _) Hset Hnd _ _ _] Hsub. apply NoDup_Permutation.
  - rewrite ready_sublist. by apply NoDup_filter.
  - apply NoDup_elements.
  - intros c. rewrite elem_of_ready, elem_of_elements, elem_of_difference, elem_of_singleton. split.
    + intros (Hc & H0 & Hr). split; [done|]. by intros ->.
    + intros [Hr Hne]. pose proof (Hsub c Hr) as Ha. rewrite Hset in Ha.
      apply elem_of_union in Ha as [?%elem_of_singleton|Ha%elem_of_list_to_set]; [done|].
      by apply elem_of_active in Ha as [? ?].
Qed.

(** A free entry exists: the descriptors in use are distinct, within range, and
    not the listening one. *)
Lemma first_free_exists listenfd s : srv_inv listenfd s -> first_free (client s) <> None.
Proof.
  intros Hinv Hnone. destruct Hinv as [Hlen (Hl0 & Hl & _) Hset Hnd _ _ Hrange].
  assert (active (client s) = client s) as Hact.
  { unfold active. clear -Hnone. induction (client s) as [|c l IH]; [done|]. cbn in Hnone.
    destruct (Z.ltb_spec c 0); [done|]. rewrite filter_cons_True by lia. f_equal. apply IH.
    by destruct (first_free l). }
  rewrite Hact in *.
  assert (length (listenfd :: client s) <= length (Z.of_nat <$> seq 0 FD_SETSIZE))%nat as Hle.
  { apply submseteq_length, NoDup_submseteq; [by constructor|]. intros c Hc.
    assert (0 <= c < Z.of_nat FD_SETSIZE) as Hr.
    { apply Hrange. rewrite Hset. set_solver. }
    apply list_elem_of_fmap. exists (Z.to_nat c). split; [lia|]. apply elem_of_seq. lia. }
  rewrite length_fmap, length_seq in Hle. cbn [length] in Hle. lia.
Qed.

Lemma active_insert cs i c x :
  cs !! i = Some c -> c < 0 -> 0 <= x -> active (<[i := x]> cs) ≡ₚ x :: active cs.
Proof.
  intros Hi Hc Hx. pose proof (lookup_lt_Some _ _ _ Hi).
  rewrite insert_take_drop by done. rewrite <- (take_drop_middle cs i c Hi) at 3.
  unfold active. rewrite !filter_app, filter_cons_True, filter_cons_False by lia.
  by rewrite Permutation_middle.
Qed.

Lemma new_client_inv listenfd s k :
  srv_inv listenfd s -> 0 <= connfd k < Z.of_nat FD_SETSIZE -> (connfd k ∉ allset s) ->
  exists s1, new_client k s = Def (Some s1) /\ srv_inv listenfd s1 /\
             allset s1 = {[ connfd k ]} ∪ allset s.
Proof.
  intros Hinv Hc Hfresh. pose proof (first_free_exists _ _ Hinv) as Hf. unfold new_client.
  destruct (first_free (client s)) as [i|] eqn:Ei; [|done].
  apply first_free_Some in Ei as (c & Hi & Hneg & _). unfold FD_SET.
  rewrite (proj2 (Z.leb_le 0 (connfd k))), (proj2 (Z.ltb_lt (connfd k) (Z.of_nat FD_SETSIZE))) by lia.
  cbn [andb]. rewrite chk_bind_Def.
  eexists. split; [done|]. split; [|done]. pose proof (lookup_lt_Some _ _ _ Hi) as Hlt.
  destruct Hinv as [Hlen (Hl0 & Hl & Hlm) Hset Hnd Hmax Hmaxi Hrange].
  pose proof (active_insert (client s) i c (connfd k) Hi Hneg ltac:(lia)) as Hperm.
  split; cbn [client maxi maxfd allset].
  - by rewrite length_insert.
  - split; [done|]. split.
    + intros [j [(_ & E & _)|[_ Hj]]%list_lookup_insert_Some]%list_elem_of_lookup;
        [|by apply list_elem_of_lookup_2 in Hj].
      rewrite E in Hfresh. apply Hfresh. rewrite Hset. set_solver.
    + destruct (_ <? _) eqn:E; [apply Z.ltb_lt in E|]; lia.
  - rewrite Hperm, Hset. cbn. set_solver.
  - rewrite Hperm. apply NoDup_cons. split; [|done]. intros Ha. apply Hfresh. rewrite Hset. set_solver.
  - intros j d Hj Hd. apply list_lookup_insert_Some in Hj as [(<- & <- & _)|[_ Hj]].
    + destruct (Z.ltb_spec (maxi s) (Z.of_nat i)), (Z.ltb_spec (maxfd s) (connfd k)); lia.
    + destruct (Hmax j d Hj Hd).
      destruct (Z.ltb_spec (maxi s) (Z.of_nat i)), (Z.ltb_spec (maxfd s) (connfd k)); lia.
  - destruct (Z.ltb_spec (maxi s) (Z.of_nat i)); lia.
  - intros d [->%elem_of_singleton|Hd]%elem_of_union; [done|]. by apply Hrange.
Qed.

(** ** Serving *)

Definition hangs_up (k : ready) (c : Z) : bool := is_ready k c && bool_decide (rd k c = []).

Lemma after_serve_spec k c : after_serve k c = (if hangs_up k c then -1 else c).
Proof.
  unfold after_serve, hangs_up, serve_one. destruct (is_ready k c); [|done]. cbn [andb].
  by destruct (rd k c).
Qed.

Lemma active_after k cs :
  active (after_serve k <$> cs) = filter (fun c => hangs_up k c = false) (active cs).
Proof.
  induction cs as [|c cs IH]; [done|]. cbn [fmap list_fmap]. unfold active in *.
  rewrite !filter_cons, after_serve_spec. destruct (hangs_up k c) eqn:E.
  - destruct (decide (0 <= -1)); [lia|]. rewrite IH.
    destruct (decide (0 <= c)); [|done]. rewrite filter_cons_False by (by rewrite E). done.
  - destruct (decide (0 <= c)); [|done]. rewrite filter_cons_True by done. by rewrite IH.
Qed.

Lemma elem_of_closed k cs c :
  c ∈ closed ((fun c => (serve_one k c).2) <$> ready_clients k cs) <-> c ∈ cs /\ hangs_up k c = true.
Proof.
  unfold closed. rewrite elem_of_list_to_set, list_elem_of_omap. unfold hangs_up.
  rewrite andb_true_iff, is_ready_spec, bool_decide_eq_true. split.
  - intros (a & [d [-> Hd]]%list_elem_of_fmap & Ha). apply elem_of_ready in Hd as (? & ? & ?).
    unfold serve_one in Ha. destruct (rd k d) eqn:E; cbn in Ha; [|done]. injection Ha as <-. done.
  - intros (Hc & (H0 & Hr) & Hrd). exists (Closed c). split; [|done].
    apply list_elem_of_fmap. exists c. split; [unfold serve_one; by rewrite Hrd|]. by apply elem_of_ready.
Qed.

(** Beyond [maxi] the array has no descriptor. *)
Lemma serve_clients_all listenfd s k n :
  srv_inv listenfd s -> n = Z.of_nat (length (ready_clients k (client s))) ->
  serve_clients k n s
  = (Srv (after_serve k <$> client s) (maxi s) (maxfd s)
         (allset s ∖ closed ((fun c => (serve_one k c).2) <$> ready_clients k (client s))),
     (fun c => (serve_one k c).2) <$> ready_clients k (client s)).
Proof.
  intros [_ _ _ _ Hmax Hmaxi _] Hn. unfold serve_clients. set (m := Z.to_nat (maxi s + 1)).
  assert (ready_clients k (drop m (client s)) = []) as Hd.
  { apply elem_of_nil_inv. intros c [Hc [H0 _]]%elem_of_ready.
    apply list_elem_of_lookup in Hc as [j Hj]. rewrite lookup_drop in Hj.
    destruct (Hmax _ _ Hj H0). lia. }
  assert (ready_clients k (client s) = ready_clients k (take m (client s))) as Ht.
  { rewrite <- (take_drop m (client s)) at 1. unfold ready_clients in *.
    by rewrite filter_app, Hd, app_nil_r. }
  rewrite Ht in Hn |- *. rewrite serve_all by done.
  do 2 f_equal. rewrite <- (after_serve_none k (drop m (client s)) Hd), <- fmap_app.
  by rewrite take_drop.
Qed.

Lemma serve_clients_inv listenfd s k n s' acts :
  srv_inv listenfd s -> n = Z.of_nat (length (ready_clients k (client s))) ->
  serve_clients k n s = (s', acts) -> srv_inv listenfd s'.
Proof.
  intros Hinv Hn. rewrite (serve_clients_all listenfd) by done. intros [= <- _].
  destruct Hinv as [Hlen (Hl0 & Hl & Hlm) Hset Hnd Hmax Hmaxi Hrange].
  assert (forall c, c ∈ after_serve k <$> client s -> 0 <= c -> c ∈ client s) as Hsub.
  { intros c [d [-> Hd]]%list_elem_of_fmap. rewrite after_serve_spec.
    destruct (hangs_up k d); [lia|done]. }
  split; cbn [client maxi maxfd allset].
  - by rewrite length_fmap.
  - split; [done|]. split; [|done]. intros Hin. apply Hl. by apply Hsub.
  - rewrite active_after. apply set_eq. intros c.
    rewrite elem_of_difference, elem_of_closed, Hset, !elem_of_union, elem_of_singleton,
      !elem_of_list_to_set, list_elem_of_filter, !elem_of_active.
    pose proof (not_true_iff_false (hangs_up k c)). destruct (decide (c = listenfd)); naive_solver.
  - rewrite active_after. by apply NoDup_filter.
  - intros i c Hi Hc. apply list_lookup_fmap_Some in Hi as (d & -> & Hi).
    rewrite after_serve_spec in Hc |- *. destruct (hangs_up k d); [lia|]. by apply Hmax.
  - done.
  - intros c [Hc _]%elem_of_difference. by apply Hrange.
Qed.

(** What is done with the clients of a turn. *)
Definition served (k : ready) (fds : list Z) : list action := (fun c => (serve_one k c).2) <$> fds.

Lemma size_ready listenfd (s : srv) k :
  srv_inv listenfd s -> rset k ⊆ allset s ->
  Z.of_nat (length (ready_clients k (client s)))
  = Z.of_nat (size (rset k)) - (if bool_decide (listenfd ∈ rset k) then 1 else 0).
Proof.
  intros Hinv Hsub. rewrite (ready_perm listenfd s k Hinv Hsub).
  change (length (elements (rset k ∖ {[ listenfd ]}))) with (size (rset k ∖ {[ listenfd ]})).
  destruct (decide (listenfd ∈ rset k)) as [Hin|Hin].
  - rewrite bool_decide_true by done.
    assert (size (rset k) = S (size (rset k ∖ {[ listenfd ]}))); [|lia].
    rewrite (union_difference_L {[ listenfd ]} (rset k)) at 1 by set_solver.
    rewrite size_union by set_solver. by rewrite size_singleton.
  - rewrite bool_decide_false by done. replace (rset k ∖ {[ listenfd ]}) with (rset k) by set_solver. lia.
Qed.

(** ** Properties *)

(** C40: in every turn the server returns from its loop body with its array,
    its limits and its set consistent, never refuses a client and never touches a
    descriptor out of range; it serves every descriptor reported exactly once,
    although the loop stops counting early: a new client on the listening one,
    an echo for a client that sent bytes, a close for one that hung up. *)
Theorem srv_turn_serves_all listenfd s k :
  srv_inv listenfd s -> ready_ok listenfd s k ->
  exists s' fds, fds ≡ₚ elements (rset k ∖ {[ listenfd ]}) /\
    srv_turn listenfd k s
    = Def (Some (s', (if bool_decide (listenfd ∈ rset k) then [Accepted (connfd k)] else []) ++
                     served k fds)) /\
    srv_inv listenfd s'.
Proof.
  intros Hinv (Hsub & Hne & Hacc). unfold srv_turn, served.
  destruct (decide (listenfd ∈ rset k)) as [Hin|Hin];
    [rewrite !bool_decide_true by done | rewrite !bool_decide_false by done]; cbn [app].
  - destruct (Hacc Hin) as [Hc Hfresh].
    destruct (new_client_inv listenfd s k Hinv Hc Hfresh) as (s1 & -> & Hinv1 & Hset1).
    rewrite chk_bind_Def. assert (rset k ⊆ allset s1) as Hsub1 by set_solver.
    pose proof (size_ready listenfd s1 k Hinv1 Hsub1) as Hn. rewrite bool_decide_true in Hn by done.
    pose proof (ready_perm listenfd s1 k Hinv1 Hsub1) as Hp.
    destruct (Z.leb_spec (Z.of_nat (size (rset k)) - 1) 0) as [Hle|Hgt].
    + exists s1, []. split_and!; [|done..]. rewrite <- Hp.
      assert (ready_clients k (client s1) = []) as -> by (apply length_zero_iff_nil; lia). done.
    + rewrite <- Hn. destruct (serve_clients k _ s1) as [s2 acts] eqn:E.
      exists s2, (ready_clients k (client s1)). split; [done|].
      split; [|by eapply serve_clients_inv; [exact Hinv1|reflexivity|exact E]]. rewrite (serve_clients_all listenfd) in E by done.
      by injection E as <- <-.
  - pose proof (size_ready listenfd s k Hinv Hsub) as Hn. rewrite bool_decide_false in Hn by done.
    rewrite Z.sub_0_r in Hn. rewrite <- Hn.
    destruct (serve_clients k _ s) as [s2 acts] eqn:E.
    exists s2, (ready_clients k (client s)). split; [by apply ready_perm|].
    split; [|by eapply serve_clients_inv; [exact Hinv|reflexivity|exact E]]. rewrite (serve_clients_all listenfd) in E by done.
    by injection E as <- <-.
Qed.

Lemma srv_init_inv listenfd : 0 <= listenfd < Z.of_nat FD_SETSIZE -> srv_inv listenfd (srv_init listenfd).
Proof.
  intros Hl. assert (forall c, c ∈ replicate FD_SETSIZE (-1) -> c = -1) as Hr
    by (intros c [i [-> _]%lookup_replicate]%list_elem_of_lookup; done).
  assert (active (replicate FD_SETSIZE (-1)) = []) as Ha.
  { apply elem_of_nil_inv. intros c [Hc H0]%elem_of_active. apply Hr in Hc. lia. }
  split; cbn [client maxi maxfd allset srv_init].
  - apply length_replicate.
  - split; [lia|]. split; [|lia]. intros Hc%Hr. lia.
  - rewrite Ha. set_solver.
  - rewrite Ha. constructor.
  - intros i c Hc H0. apply list_elem_of_lookup_2, Hr in Hc. lia.
  - unfold FD_SETSIZE. lia.
  - intros c ->%elem_of_singleton. done.
Qed.

Definition demo_ready : ready := Ready {[ 3 ]} 4 (fun _ => []).

Lemma srv_turn_serves_all_witness :
  exists s' fds, fds ≡ₚ elements (rset demo_ready ∖ {[ 3 ]}) /\
    srv_turn 3 demo_ready (srv_init 3)
    = Def (Some (s', (if bool_decide (3 ∈ rset demo_ready) then [Accepted (connfd demo_ready)] else []) ++
                     served demo_ready fds)) /\
    srv_inv 3 s'.
Proof.
  apply srv_turn_serves_all.
  - apply srv_init_inv. unfold FD_SETSIZE. lia.
  - split; [cbn; set_solver|]. split; [cbn; set_solver|]. intros _. cbn. split; [unfold FD_SETSIZE; lia|]. set_solver.
Defined.
