(* ===== verification/Prefork.v ===== *)
(** * A server with a pool of processes

    Stevens/unpv13e/server/serv05.c and child05.c, with lib/read_fd.c and
    write_fd.c: the parent forks its children ahead of time, accepts the
    connections itself, and passes each as a descriptor, over a stream pipe, to a
    child that is free.  The child serves the client ([web_child]) and writes a
    byte to its pipe when it is ready again.

    The parent and the children are processes with descriptor tables of their own;
    a descriptor names an object of the kernel, and passing it names the same
    object in another table.  The processes run interleaved in any way.  What the
    kernel chooses (the number of a new descriptor, the order in which clients
    connect) is free.  A connection stays in the queue of the listening socket
    until it is accepted. *)

From stdpp Require Import gmap sets fin_sets.
From S2P Require Import Prelude CLib BufIO WebChild SelectServ.

(** ** Descriptors *)

(** A terminal; the listening socket; the two ends of the pipe of child [i]; the
    connection of client [c]. *)
Inductive obj := Tty | Listening | ParentEnd (i : nat) | ChildEnd (i : nat) | Conn (c : nat).

#[export] Instance obj_eq_dec : EqDecision obj.
Proof. solve_decision. Defined.

Abbreviation fdtable := (gmap Z obj).

Definition holds (t : fdtable) (o : obj) : bool := bool_decide (map_Exists (fun _ x => x = o) t).

(** ** Passing a descriptor *)

(** A message and its ancillary data: in a process the data is a descriptor, in
    the socket between two processes it is what the descriptor names. *)
Record cmsghdr (A : Type) := Cmsg { cmsg_len : Z; cmsg_level : Z; cmsg_type : Z; cmsg_data : A }.
Record msghdr (A : Type) := Msg { msg_iov : buf; msg_control : option (cmsghdr A) }.
Arguments Cmsg {A}.
Arguments cmsg_len {A}.
Arguments cmsg_level {A}.
Arguments cmsg_type {A}.
Arguments cmsg_data {A}.
Arguments Msg {A}.
Arguments msg_iov {A}.
Arguments msg_control {A}.

Definition CMSG_LEN (n : Z) : Z := 16 + n.
Definition sizeof_int : Z := 4.
Definition SOL_SOCKET : Z := 1.
Definition SCM_RIGHTS : Z := 1.

Definition cmsg_map {A B} (f : A -> option B) (c : cmsghdr A) : option (cmsghdr B) :=
  x ← f (cmsg_data c); Some (Cmsg (cmsg_len c) (cmsg_level c) (cmsg_type c) x).

(** [sendmsg] on a stream pipe, as far as the message goes; [None]: EBADF. *)
Definition sendmsg (t : fdtable) (m : msghdr Z) : option (msghdr obj) :=
  match msg_control m with
  | None => Some (Msg (msg_iov m) None)
  | Some c => c' ← cmsg_map (fun fd => t !! fd) c; Some (Msg (msg_iov m) (Some c'))
  end.

Definition write_fd (t : fdtable) (ptr : buf) (sendfd : Z) : option (msghdr obj) :=
  sendmsg t (Msg ptr (Some (Cmsg (CMSG_LEN sizeof_int) SOL_SOCKET SCM_RIGHTS sendfd))).

(** [recvmsg] of at most [n] bytes from the messages [q]: a descriptor that comes
    with them is [newfd] in the table afterwards.  [None]: there is nothing. *)
Definition recvmsg (t : fdtable) (n : nat) (newfd : Z) (q : list (msghdr obj)) :
    option (msghdr Z * fdtable * list (msghdr obj)) :=
  match q with
  | [] => None
  | m :: q' =>
      let rest := drop n (msg_iov m) in
      let q'' := match rest with [] => q' | _ => Msg rest None :: q' end in
      match msg_control m with
      | None => Some (Msg (take n (msg_iov m)) None, t, q'')
      | Some c =>
          Some (Msg (take n (msg_iov m)) (Some (Cmsg (cmsg_len c) (cmsg_level c) (cmsg_type c) newfd)),
                <[newfd := cmsg_data c]> t, q'')
      end
  end.

(** The part of [read_fd] behind [recvmsg]: [*recvfd], or [None] when it quits. *)
Definition control_fd (m : msghdr Z) : option Z :=
  match msg_control m with
  | Some c =>
      if cmsg_len c =? CMSG_LEN sizeof_int then
        if negb (cmsg_level c =? SOL_SOCKET) then None
        else if negb (cmsg_type c =? SCM_RIGHTS) then None
        else Some (cmsg_data c)
      else Some (-1)
  | None => Some (-1)
  end.

(** The bytes, [*recvfd] (or [None]: it quits), and the table and messages left. *)
Definition read_fd (t : fdtable) (nbytes : nat) (newfd : Z) (q : list (msghdr obj)) :
    option (buf * option Z * fdtable * list (msghdr obj)) :=
  '(m, t', q') ← recvmsg t nbytes newfd q;
  Some (msg_iov m, control_fd m, t', q').

(** ** The processes *)

Record Child := MkChild { child_pid : Z; child_pipefd : Z; child_status : Z; child_count : Z }.

(** Where the parent is: in [Select]; before [Accept] with the descriptors that
    are ready and their number; before [Write_fd] of a connection to child [i];
    before closing it; in the loop over the children, at [i]; or it has exited. *)
Inductive why := NoChildren | Terminated (i : nat) | WriteFailed.
Inductive point :=
  | PSelect
  | PAccept (rset : gset Z) (nsel : Z)
  | PPass (rset : gset Z) (nsel : Z) (i : nat) (connfd : Z)
  | PClose (rset : gset Z) (nsel : Z) (connfd : Z)
  | PScan (rset : gset Z) (nsel : Z) (i : nat)
  | PExit (w : why).

(** Where a child is: in [Read_fd]; before [web_child]; before [Close]; before
    [Write]; or it has exited, perhaps while serving. *)
Inductive kpoint := KRead | KServe (fd : Z) | KClose (fd : Z) | KWrite | KExit (job : option nat).

Section Server.
Context {K : Type} `{Socket K}.

(** [client c]: the connection of client [c] when a child starts to read from it.
    [result]: the array in the frame of [web_child]. *)
Variable client : nat -> K.
(** [stays c]: client [c] never closes its connection. It has sent the lines of
    [client c], and then nothing more comes; a line that it never finishes is not
    among these, since [web_child] never gets to see it. *)
Variable stays : nat -> bool.
Variable result : buf.

(** A child, with what is under way in the two directions of its pipe, the
    variables of readline.c, and the clients it has served, each with what became
    of its connection. *)
Record kid := Kid {
  k_pid : Z; k_at : kpoint; k_fds : fdtable; inbox : list (msghdr obj); outbox : buf;
  k_rl : rl unit; k_served : list (nat * K) }.

Record world := World {
  listenfd : Z; masterset : gset Z; maxfd : Z;
  cptr : list Child; navail : Z; ppc : point; pfds : fdtable;
  queue : list nat; accepted : list nat; kids : list kid }.

Definition set_ppc (p : point) (w : world) : world :=
  World (listenfd w) (masterset w) (maxfd w) (cptr w) (navail w) p (pfds w) (queue w) (accepted w) (kids w).
Definition set_kids (l : list kid) (w : world) : world :=
  World (listenfd w) (masterset w) (maxfd w) (cptr w) (navail w) (ppc w) (pfds w) (queue w) (accepted w) l.
(** [exit]: the kernel closes the descriptors. *)
Definition parent_exit (r : why) (w : world) : world :=
  World (listenfd w) (masterset w) (maxfd w) (cptr w) (navail w) (PExit r) ∅ (queue w) (accepted w) (kids w).

(** ** Starting the children *)

(** [child_make]: the two ends of the pipe are [s0] and [s1]; the child has a copy
    of the parent's table, and changes it before [child_main]. *)
Definition child_make (i : nat) (s0 s1 pid : Z) (w : world) : world :=
  let both := <[s1 := ChildEnd i]> (<[s0 := ParentEnd i]> (pfds w)) in
  let mine := delete (listenfd w) (delete s1 (delete s0 (<[2 := ChildEnd i]> both))) in
  let k := Kid pid KRead mine [] [] (RL 0 0 (replicate MAXLINE NUL) tt) [] in
  World (listenfd w) (masterset w) (maxfd w)
        (alter (fun c => MkChild pid s0 0 (child_count c)) i (cptr w))
        (navail w) (ppc w) (delete s1 both) (queue w) (accepted w) (kids w ++ [k]).

(** The loop of [main] over the children still to make. *)
Fixpoint prefork (i : nat) (ps : list (Z * Z * Z)) (w : world) : chk world :=
  match ps with
  | [] => mret w
  | (s0, s1, pid) :: ps' =>
      let w1 := child_make i s0 s1 pid w in
      ms ← FD_SET s0 (masterset w1);
      prefork (S i) ps' (World (listenfd w1) ms (Z.max (maxfd w1) s0) (cptr w1) (navail w1) (ppc w1) (pfds w1)
                               (queue w1) (accepted w1) (kids w1))
  end.

(** [main] up to its loop; [ps] has the descriptors and the process ID the kernel
    gives for each of the [length ps] children. *)
Definition serv_init (lfd : Z) (ps : list (Z * Z * Z)) : chk world :=
  ms ← FD_SET lfd ∅;
  let n := length ps in
  prefork 0 ps
    (World lfd ms lfd (replicate n (MkChild 0 0 0 0)) (Z.of_nat n) PSelect
           (<[lfd := Listening]> (<[0 := Tty]> (<[1 := Tty]> (<[2 := Tty]> ∅)))) [] [] []).

(** ** The parent *)

(** Whether some process has the object open. *)
Definition held (w : world) (o : obj) : bool := holds (pfds w) o || existsb (fun k => holds (k_fds k) o) (kids w).

(** Whether a read of the descriptor would not block: a connection to accept, a
    byte from the child, or the end of the stream. *)
Definition readable (w : world) (fd : Z) : bool :=
  match pfds w !! fd with
  | Some Listening => negb (bool_decide (queue w = []))
  | Some (ParentEnd i) =>
      match kids w !! i with
      | Some k => negb (bool_decide (outbox k = [])) || negb (held w (ChildEnd i))
      | None => false
      end
  | _ => false
  end.

(** [Select(maxfd + 1, &rset, ...)], which waits until something is ready. *)
Definition Select (w : world) : option (gset Z) :=
  let rset := if navail w <=? 0 then masterset w ∖ {[ listenfd w ]} else masterset w in
  let r := filter (fun fd => (fd <? maxfd w + 1) && readable w fd = true) rset in
  if bool_decide (r = ∅) then None else Some r.

Definition p_select (w : world) : option world :=
  r ← Select w;
  let nsel := Z.of_nat (size r) in
  Some (set_ppc (if bool_decide (listenfd w ∈ r) then PAccept r nsel else PScan r nsel 0) w).

(** [Accept], which gives [connfd], and the choice of a child. *)
Definition p_accept (r : gset Z) (nsel : Z) (connfd : Z) (w : world) : option world :=
  match queue w with
  | [] => None
  | c :: q =>
      match list_find (fun ch => child_status ch = 0) (cptr w) with
      | None => Some (parent_exit NoChildren w)
      | Some (i, ch) =>
          Some (World (listenfd w) (masterset w) (maxfd w)
                  (<[i := MkChild (child_pid ch) (child_pipefd ch) 1 (child_count ch + 1)]> (cptr w))
                  (navail w - 1) (PPass r nsel i connfd) (<[connfd := Conn c]> (pfds w)) q
                  (accepted w ++ [c]) (kids w))
      end
  end.

(** [Write_fd]: a pipe that nobody reads from any more ends the process. *)
Definition p_pass (r : gset Z) (nsel : Z) (i : nat) (connfd : Z) (w : world) : option world :=
  ch ← cptr w !! i;
  match pfds w !! child_pipefd ch with
  | Some (ParentEnd j) =>
      if held w (ChildEnd j) then
        match write_fd (pfds w) [NUL] connfd with
        | None => Some (parent_exit WriteFailed w)
        | Some m =>
            Some (set_ppc (PClose r nsel connfd)
                   (set_kids (alter (fun k => Kid (k_pid k) (k_at k) (k_fds k) (inbox k ++ [m]) (outbox k) (k_rl k)
                                                  (k_served k)) j (kids w)) w))
        end
      else Some (parent_exit WriteFailed w)
  | _ => Some (parent_exit WriteFailed w)
  end.

Definition p_close (r : gset Z) (nsel : Z) (connfd : Z) (w : world) : world :=
  World (listenfd w) (masterset w) (maxfd w) (cptr w) (navail w)
        (if nsel - 1 =? 0 then PSelect else PScan r (nsel - 1) 0)
        (delete connfd (pfds w)) (queue w) (accepted w) (kids w).

(** One turn of the loop over the children; [None]: [Read] blocks. *)
Definition p_scan (r : gset Z) (nsel : Z) (i : nat) (w : world) : option world :=
  match cptr w !! i with
  | None => Some (set_ppc PSelect w)
  | Some ch =>
      if bool_decide (child_pipefd ch ∈ r) then
        match pfds w !! child_pipefd ch with
        | Some (ParentEnd j) =>
            k ← kids w !! j;
            match outbox k with
            | _ :: rest =>
                Some (World (listenfd w) (masterset w) (maxfd w)
                        (<[i := MkChild (child_pid ch) (child_pipefd ch) 0 (child_count ch)]> (cptr w))
                        (navail w + 1) (if nsel - 1 =? 0 then PSelect else PScan r (nsel - 1) (S i)) (pfds w)
                        (queue w) (accepted w)
                        (<[j := Kid (k_pid k) (k_at k) (k_fds k) (inbox k) rest (k_rl k) (k_served k)]> (kids w)))
            | [] => if held w (ChildEnd j) then None else Some (parent_exit (Terminated i) w)
            end
        | _ => Some (parent_exit WriteFailed w)
        end
      else Some (set_ppc (PScan r nsel (S i)) w)
  end.

(** [fd]: the descriptor the kernel gives if the step makes one. *)
Definition parent_step (fd : Z) (w : world) : option world :=
  match ppc w with
  | PSelect => p_select w
  | PAccept r nsel => p_accept r nsel fd w
  | PPass r nsel i connfd => p_pass r nsel i connfd w
  | PClose r nsel connfd => Some (p_close r nsel connfd w)
  | PScan r nsel i => p_scan r nsel i w
  | PExit _ => None
  end.

(** ** A child *)

Definition k_exit (job : option nat) (k : kid) : kid :=
  Kid (k_pid k) (KExit job) ∅ (inbox k) (outbox k) (k_rl k) (k_served k).
Definition k_move (p : kpoint) (t : fdtable) (k : kid) : kid :=
  Kid (k_pid k) p t (inbox k) (outbox k) (k_rl k) (k_served k).

(** [Read_fd(STDERR_FILENO, &c, 1, &connfd)] and the two tests behind it. *)
Definition k_read (i : nat) (fd : Z) (w : world) (k : kid) : option kid :=
  if bool_decide (k_fds k !! 2 = Some (ChildEnd i)) then
    match read_fd (k_fds k) 1 fd (inbox k) with
    | None => if held w (ParentEnd i) then None else Some (k_exit None k)
    | Some (b, recvfd, t, q) =>
        match recvfd with
        | Some connfd =>
            if (length b =? 0)%nat || (connfd <? 0) then Some (k_exit None k)
            else Some (Kid (k_pid k) (KServe connfd) t q (outbox k) (k_rl k) (k_served k))
        | None => Some (k_exit None k)
        end
    end
  else Some (k_exit None k).

(** The connection as [web_child] finds it, beside the buffer of [readline]; the
    bound on the number of turns is never reached. *)
Definition conn_rl (k : kid) (c : nat) : rl K :=
  RL (read_cnt (k_rl k)) (read_ptr (k_rl k)) (read_buf (k_rl k)) (client c).
Definition web_serve (st : rl K) : outcome (rl K) unit :=
  web_child (S (length result + length (stream st) + patience (rl_sock st))) result st.

(** [web_child(connfd)]: it returns at the end of the stream, or the process exits in
    it; [None]: it does not return, since there is no end of the stream and [Readline]
    waits for ever, or its behaviour is undefined. *)
Definition k_serve (fd : Z) (k : kid) : option kid :=
  match k_fds k !! fd with
  | Some (Conn c) =>
      match web_serve (conn_rl k c) with
      | Ok _ st =>
          if stays c then None
          else Some (Kid (k_pid k) (KClose fd) (k_fds k) (inbox k) (outbox k)
                         (RL (read_cnt st) (read_ptr st) (read_buf st) tt)
                         (k_served k ++ [(c, rl_sock st)]))
      | Aborted _ => Some (k_exit (Some c) k)
      | Undef _ => None
      end
  | _ => Some (k_exit None k)
  end.

(** [Write(STDERR_FILENO, "", 1)]. *)
Definition k_write (i : nat) (w : world) (k : kid) : kid :=
  if held w (ParentEnd i)
  then Kid (k_pid k) KRead (k_fds k) (inbox k) (outbox k ++ [NUL]) (k_rl k) (k_served k)
  else k_exit None k.

(** One step of [child_main] in child [i]. *)
Definition child_main (i : nat) (fd : Z) (w : world) (k : kid) : option kid :=
  match k_at k with
  | KRead => k_read i fd w k
  | KServe connfd => k_serve connfd k
  | KClose connfd => Some (k_move KWrite (delete connfd (k_fds k)) k)
  | KWrite => Some (k_write i w k)
  | KExit _ => None
  end.

(** ** [sig_int] *)

Definition kill (pid : Z) (l : list kid) : list kid :=
  (fun k => if k_pid k =? pid then k_exit None k else k) <$> l.

Definition count_line (i : nat) (ch : Child) : buf :=
  chars "child " ++ print_int (Z.of_nat i) ++ chars ", " ++ print_int (child_count ch) ++ chars " connections" ++ [NL].

(** The children are terminated and waited for; the parent prints what each has
    done, behind the line [cpu] of [pr_cpu_time], and exits. *)
Definition sig_int (cpu : buf) (w : world) : list kid * buf :=
  (foldl (fun l ch => kill (child_pid ch) l) (kids w) (cptr w), cpu ++ mjoin (imap count_line (cptr w))).

(** ** Runs *)

Inductive step (w : world) : world -> Prop :=
  | step_parent fd w' : 0 <= fd -> pfds w !! fd = None -> parent_step fd w = Some w' -> step w w'
  | step_child i fd k k' :
      kids w !! i = Some k -> 0 <= fd -> k_fds k !! fd = None -> child_main i fd w k = Some k' ->
      step w (set_kids (<[i := k']> (kids w)) w).

(** A client connects. *)
Definition connect (c : nat) (w : world) : world :=
  World (listenfd w) (masterset w) (maxfd w) (cptr w) (navail w) (ppc w) (pfds w) (queue w ++ [c]) (accepted w)
        (kids w).

(** The descriptors the kernel gives are free when it gives them: [t] is the
    parent's table. *)
Fixpoint pairs_ok (i : nat) (ps : list (Z * Z * Z)) (t : fdtable) : Prop :=
  match ps with
  | [] => True
  | (s0, s1, _) :: ps' =>
      0 <= s0 < Z.of_nat FD_SETSIZE /\ t !! s0 = None /\ t !! s1 = None /\ s0 <> s1 /\
      pairs_ok (S i) ps' (<[s0 := ParentEnd i]> t)
  end.

Inductive reach (lfd : Z) (ps : list (Z * Z * Z)) : world -> Prop :=
  | reach_start w : serv_init lfd ps = Def w -> reach lfd ps w
  | reach_step w w' : reach lfd ps w -> step w w' -> reach lfd ps w'
  | reach_connect w c : reach lfd ps w -> reach lfd ps (connect c w).
End Server.
Arguments kid K : clear implicits.
Arguments world K : clear implicits.
Arguments Kid {K}.
Arguments World {K}.

(** The fields of a state that was just built. *)
Ltac wfields := cbn [listenfd masterset maxfd cptr navail ppc pfds queue accepted kids set_ppc set_kids parent_exit
  p_close connect k_pid k_at k_fds inbox outbox k_rl k_served k_exit k_move child_pid child_pipefd child_status
  child_count].
Tactic Notation "wfields" "in" "*" := cbn [listenfd masterset maxfd cptr navail ppc pfds queue accepted kids set_ppc
  set_kids parent_exit p_close connect k_pid k_at k_fds inbox outbox k_rl k_served k_exit k_move child_pid child_pipefd
  child_status child_count] in *.

(** * The invariant *)

Section Facts.
Context {K : Type} `{Steady K}.
Variable client : nat -> K.
Variable result : buf.
Hypothesis result_len : Z.of_nat (length result) = MAXN.
Implicit Types (w : world K) (k : kid K) (ch : Child).

(** Whether what client [c] sends makes [web_child] exit, or may do so because its
    connection fails. *)
Definition refuses (c : nat) : Prop :=
  (asked (pending (client c))).2 = BadRequest \/ ~ steady (client c).
(** Client [c] was served: its requests were all good, and [s] is its connection
    afterwards. *)
Definition served_well (cs : nat * K) : Prop :=
  (asked (pending (client cs.1))).2 = AllGood /\
  sent cs.2 = sent (client cs.1) ++ reply result (asked (pending (client cs.1))).1.

(** The work in the hands of a child: a connection on its way, one it is at, or
    the byte that says it is done. *)
Definition at_work (p : kpoint) : nat := match p with KRead => 0 | _ => 1 end.
Definition token k : nat := (length (inbox k) + at_work (k_at k) + length (outbox k))%nat.

Definition conn_of (o : option obj) : list nat := match o with Some (Conn c) => [c] | _ => [] end.
Definition msg_conn (m : msghdr obj) : list nat := conn_of (cmsg_data <$> msg_control m).
Definition doing k : list nat :=
  match k_at k with
  | KServe fd => conn_of (k_fds k !! fd)
  | KExit (Some c) => [c]
  | _ => []
  end.
(** The clients child has been given, in order. *)
Definition taken k : list nat := (k_served k).*1 ++ doing k ++ (inbox k ≫= msg_conn).

Definition good_msg (m : msghdr obj) : Prop := exists c t fd, t !! fd = Some (Conn c) /\ write_fd t [NUL] fd = Some m.

(** The descriptor of a connection that a process has open. *)
Definition kid_conn (p : kpoint) : option Z := match p with KServe fd | KClose fd => Some fd | _ => None end.
Definition hand_fd (p : point) : option Z := match p with PPass _ _ _ fd | PClose _ _ fd => Some fd | _ => None end.
Definition pass_to (p : point) (i : nat) : nat :=
  match p with PPass _ _ j _ => if decide (j = i) then 1 else 0 | _ => 0 end.

Record kid_ok (i : nat) k : Prop := {
  ko_inbox : Forall good_msg (inbox k);
  ko_fds : match k_at k with KExit _ => k_fds k = ∅ | _ => k_fds k !! 2 = Some (ChildEnd i) end;
  ko_ends : forall fd j, k_fds k !! fd = Some (ChildEnd j) -> j = i;
  ko_conn : forall fd, kid_conn (k_at k) = Some fd -> exists c, k_fds k !! fd = Some (Conn c);
  ko_only : forall fd c, k_fds k !! fd = Some (Conn c) -> kid_conn (k_at k) = Some fd;
  ko_exit : forall job, k_at k = KExit job -> exists c, job = Some c /\ refuses c;
  ko_rl : rl_ok (k_rl k) /\ read_cnt (k_rl k) <= 0;
  ko_served : Forall served_well (k_served k);
}.

(** The entry of a child in the parent's array, and the child. *)
Record entry_ok w (i : nat) ch k : Prop := {
  eo_pipe : pfds w !! child_pipefd ch = Some (ParentEnd i);
  eo_status : child_status ch = Z.of_nat (token k + pass_to (ppc w) i);
  eo_range : child_status ch = 0 \/ child_status ch = 1;
  eo_count : child_count ch = Z.of_nat (length (taken k) + pass_to (ppc w) i);
}.

(** There is something to read from the child. *)
Definition stirred k : Prop := outbox k <> [] \/ exists job, k_at k = KExit job.

Definition pipes w : list Z := child_pipefd <$> cptr w.
Definition to_read (r : gset Z) (l : list Z) : nat := length (filter (fun fd => fd ∈ r) l).

(** The loop over the children from [i] on finds [n] to read from. *)
Definition scan_ok (ps : list Z) (ks : list (kid K)) (r : gset Z) (n : Z) (i : nat) : Prop :=
  n = Z.of_nat (to_read r (drop i ps)) /\
  forall j fd k, (i <= j)%nat -> ps !! j = Some fd -> ks !! j = Some k -> fd ∈ r -> stirred k.

Definition point_ok w : Prop :=
  match ppc w with
  | PSelect => True
  | PAccept r nsel => 0 < navail w /\ queue w <> [] /\ scan_ok (pipes w) (kids w) r (nsel - 1) 0
  | PPass r nsel i _ => (i < length (cptr w))%nat /\ scan_ok (pipes w) (kids w) r (nsel - 1) 0
  | PClose r nsel _ => scan_ok (pipes w) (kids w) r (nsel - 1) 0
  | PScan r nsel i => 0 < nsel /\ (i <= length (cptr w))%nat /\ scan_ok (pipes w) (kids w) r nsel i
  | PExit _ => False
  end.

Definition idle ch : bool := child_status ch =? 0.
Definition nidle (l : list Child) : nat := length (filter (fun ch => idle ch = true) l).

Definition in_hand w : list nat :=
  match ppc w with PPass _ _ _ fd => conn_of (pfds w !! fd) | _ => [] end.

Record serv_ok w : Prop := {
  so_len : length (kids w) = length (cptr w);
  so_kid : forall i k, kids w !! i = Some k -> kid_ok i k;
  so_entry : forall i ch k, cptr w !! i = Some ch -> kids w !! i = Some k -> entry_ok w i ch k;
  so_navail : navail w = Z.of_nat (nidle (cptr w));
  so_listen : pfds w !! listenfd w = Some Listening;
  so_master : masterset w = {[ listenfd w ]} ∪ list_to_set (pipes w);
  so_maxfd : listenfd w <= maxfd w /\ Forall (fun fd => fd <= maxfd w) (pipes w);
  so_ends : forall fd i, pfds w !! fd <> Some (ChildEnd i);
  so_hand : forall fd, hand_fd (ppc w) = Some fd -> exists c, pfds w !! fd = Some (Conn c);
  so_only : forall fd c, pfds w !! fd = Some (Conn c) -> hand_fd (ppc w) = Some fd;
  so_flow : accepted w ≡ₚ in_hand w ++ (kids w ≫= taken);
  so_point : point_ok w;
}.

(** The parent runs, or has stopped because a child did, which was serving a client
    that makes it exit. *)
Definition stopped w : Prop :=
  exists i k c, ppc w = PExit (Terminated i) /\ kids w !! i = Some k /\ k_at k = KExit (Some c) /\
    c ∈ accepted w /\ refuses c.
Definition safe w : Prop := serv_ok w \/ stopped w.

(** ** Descriptor tables *)

Lemma holds_lookup (t : fdtable) fd o : t !! fd = Some o -> holds t o = true.
Proof. intros E. apply bool_decide_eq_true. by exists fd, o. Qed.

Lemma holds_true (t : fdtable) o : holds t o = true <-> exists fd, t !! fd = Some o.
Proof.
  unfold holds. rewrite bool_decide_eq_true. split.
  - intros (fd & x & E & ->). by exists fd.
  - intros [fd E]. by exists fd, o.
Qed.

Lemma held_parent w i ch k : serv_ok w -> cptr w !! i = Some ch -> kids w !! i = Some k -> held w (ParentEnd i) = true.
Proof.
  intros Hw Hc Hk. unfold held. apply orb_true_iff. left.
  eapply holds_lookup, (eo_pipe _ _ _ _ (so_entry _ Hw _ _ _ Hc Hk)).
Qed.

(** The end of a child's pipe is open as long as the child is there. *)
Lemma held_child w i k :
  serv_ok w -> kids w !! i = Some k -> held w (ChildEnd i) = negb (match k_at k with KExit _ => true | _ => false end).
Proof.
  intros Hw Hk. unfold held.
  assert (holds (pfds w) (ChildEnd i) = false) as ->.
  { apply not_true_iff_false. rewrite holds_true. intros [fd E]. by apply (so_ends _ Hw) in E. }
  cbn [orb]. pose proof (so_kid _ Hw _ _ Hk) as Hok.
  destruct (k_at k) eqn:Ek; cbn [negb];
    try (apply existsb_exists; exists k; split; [apply list_elem_of_In; by eapply list_elem_of_lookup_2|];
         pose proof (ko_fds _ _ Hok) as Hf; rewrite Ek in Hf; by eapply holds_lookup).
  apply not_true_iff_false. rewrite existsb_exists. intros (k' & Hin & Hh).
  apply list_elem_of_In, list_elem_of_lookup_1 in Hin as [j Hj]. apply holds_true in Hh as [fd E].
  pose proof (ko_ends _ _ (so_kid _ Hw _ _ Hj) _ _ E) as ->. simplify_eq.
  pose proof (ko_fds _ _ Hok) as Hf. rewrite Ek in Hf. by rewrite Hf in E.
Qed.

(** ** Steps of a child *)

Lemma kid_moved w i k k' :
  serv_ok w -> kids w !! i = Some k -> kid_ok i k' -> token k' = token k -> taken k' = taken k ->
  (stirred k -> stirred k') -> serv_ok (set_kids (<[i := k']> (kids w)) w).
Proof.
  intros Hw Hk Hk' Ht Htk Hst. destruct w as [lfd ms mx cp na p pf q ac ks]. wfields in *.
  assert (forall j k2, <[i := k']> ks !! j = Some k2 ->
    exists k1, ks !! j = Some k1 /\ (j = i /\ k1 = k /\ k2 = k' \/ k1 = k2)) as Hold.
  { intros j k2 [(-> & -> & _)|[_ Hj]]%list_lookup_insert_Some; [by eauto 10|by eauto]. }
  assert (forall ps r n j0, scan_ok ps ks r n j0 -> scan_ok ps (<[i := k']> ks) r n j0) as Hscan.
  { intros ps r n j0 [Hn Hs]. split; [done|]. intros j fd k2 Hj Hc Hk2 Hr.
    destruct (Hold _ _ Hk2) as (k1 & Hk1 & [(-> & -> & ->)| ->]); [apply Hst|]; by eapply Hs. }
  destruct Hw as [Hlen Hkid Hentry Hna Hlis Hms Hmx Hends Hhand Honly Hflow Hpt].
  split; try done.
  - wfields. by rewrite length_insert.
  - intros j k2 Hj. destruct (Hold _ _ Hj) as (k1 & Hk1 & [(-> & -> & ->)| ->]); [done|by apply Hkid].
  - intros j ch k2 Hc Hj. destruct (Hold _ _ Hj) as (k1 & Hk1 & Hcase).
    destruct (Hentry j ch k1 Hc Hk1) as [E1 E2 E3 E4].
    destruct Hcase as [(-> & -> & ->)| ->]; [|by split]. split; [done| |done|]; [by rewrite Ht|by rewrite Htk].
  - etrans; [exact Hflow|]. unfold in_hand. wfields. apply Permutation_app_head. symmetry.
    rewrite (bind_insert taken ks i k k' [] Hk); by rewrite ?Htk, app_nil_r.
  - unfold point_ok in *. wfields in *. destruct p; try done; naive_solver.
Qed.

Lemma tokens w i ch k :
  serv_ok w -> cptr w !! i = Some ch -> kids w !! i = Some k -> (token k + pass_to (ppc w) i <= 1)%nat.
Proof.
  intros Hw Hc Hk. destruct (so_entry _ Hw _ _ _ Hc Hk) as [_ E1 E2 _]. destruct E2 as [E2|E2]; rewrite E2 in E1; lia.
Qed.

Lemma kid_entry w i k : serv_ok w -> kids w !! i = Some k -> exists ch, cptr w !! i = Some ch.
Proof.
  intros Hw Hk. apply lookup_lt_is_Some. rewrite <- (so_len _ Hw). by eapply lookup_lt_Some.
Qed.

(** A descriptor that is passed names the same object in the other process. *)
Lemma pass_fd_roundtrip (t t' : fdtable) b fd newfd o q :
  t !! fd = Some o ->
  exists m, write_fd t b fd = Some m /\ read_fd t' (length b) newfd (m :: q) = Some (b, Some newfd, <[newfd := o]> t', q).
Proof.
  intros E. unfold write_fd, sendmsg, cmsg_map. wfields. cbn [msg_control cmsg_data]. rewrite E. eexists. split; [reflexivity|].
  unfold read_fd. cbn. by rewrite take_ge, drop_ge by done.
Qed.

Lemma good_msg_conn m : good_msg m -> exists c, msg_conn m = [c] /\
  forall t' newfd q, read_fd t' 1 newfd (m :: q) = Some ([NUL], Some newfd, <[newfd := Conn c]> t', q).
Proof.
  intros (c & t & fd & E & Hm). exists c. split.
  - unfold write_fd, sendmsg, cmsg_map in Hm. cbn [msg_control cmsg_data] in Hm. rewrite E in Hm. by injection Hm as <-.
  - intros t' newfd q. destruct (pass_fd_roundtrip t t' [NUL] fd newfd (Conn c) q E) as (m' & Hm' & Hr).
    rewrite Hm in Hm'. by simplify_eq.
Qed.

(** What a step of child [i] keeps. *)
Record kid_steps (i : nat) k k' : Prop := {
  ks_ok : kid_ok i k';
  ks_token : token k' = token k;
  ks_taken : taken k' = taken k;
  ks_stirred : stirred k -> stirred k';
}.

Lemma k_read_ok w i fd k k' :
  serv_ok w -> kids w !! i = Some k -> k_at k = KRead -> 0 <= fd -> k_fds k !! fd = None ->
  k_read i fd w k = Some k' -> kid_steps i k k'.
Proof.
  intros Hw Hk Hat Hfd Hfree. unfold k_read. destruct (so_kid _ Hw _ _ Hk) as [K1 K2 K3 K4 K5 K6 K7 K8].
  rewrite Hat in K2, K4, K5, K6. rewrite bool_decide_true by done.
  destruct (inbox k) as [|m q] eqn:Ei.
  { cbn. destruct (kid_entry _ _ _ Hw Hk) as [ch Hc]. by rewrite (held_parent w i ch k) by done. }
  apply Forall_cons_1 in K1 as [Hm K1]. destruct (good_msg_conn m Hm) as (c & Hc & Hr). rewrite Hr.
  replace (fd <? 0) with false by lia. cbn [length Nat.eqb orb]. intros [= <-]. split.
  - split; wfields; try done.
    + rewrite lookup_insert_ne by (intros ->; congruence). done.
    + intros fd' j. rewrite lookup_insert_Some. intros [[_ ?]|[_ ?]]; [done|by eapply K3].
    + cbn [kid_conn]. intros fd' [= ->]. exists c. by rewrite lookup_insert_eq.
    + intros fd' c'. rewrite lookup_insert_Some. intros [[-> _]|[_ E]]; [done|]. by apply K5 in E.
  - unfold token. wfields. rewrite Ei, Hat. cbn [length at_work]. lia.
  - unfold taken, doing. wfields. rewrite Ei, Hat, lookup_insert_eq, bind_cons, Hc. done.
  - intros [E|[job E]]; [by left|congruence].
Qed.

Lemma conn_rl_ok k c : rl_ok (k_rl k) -> read_cnt (k_rl k) <= 0 ->
  rl_ok (conn_rl client k c) /\ stream (conn_rl client k c) = pending (client c).
Proof. intros H1 H2. split; [done|]. unfold stream. by rewrite unread_empty. Qed.

Lemma web_serve_answers k c :
  rl_ok (k_rl k) -> read_cnt (k_rl k) <= 0 -> answered result (conn_rl client k c) (web_serve result (conn_rl client k c)).
Proof using result_len.
  intros H1 H2. destruct (conn_rl_ok k c H1 H2) as [Hok _]. apply web_child_answers; [done|done|apply Nat.lt_succ_diag_r].
Qed.

Section Child.
Variable stays : nat -> bool.

(** Serving a client: what it does, and that it does something unless a number the
    client sent does not fit a [long]. *)
Lemma k_serve_ok i fd k k' :
  kid_ok i k -> k_at k = KServe fd -> k_serve client stays result fd k = Some k' -> kid_steps i k k'.
Proof using result_len.
  intros [K1 K2 K3 K4 K5 K6 [K7 K7'] K8] Hat. rewrite Hat in K2, K4, K5, K6.
  unfold k_serve. destruct (K4 fd eq_refl) as [c Hc]. rewrite Hc.
  destruct (conn_rl_ok k c K7 K7') as [_ Hst].
  pose proof (web_serve_answers k c K7 K7') as Ha. unfold answered in Ha. rewrite Hst in Ha. destruct (asked (pending (client c))) as [ns e] eqn:Easked.
  destruct (web_serve result _) as [[] st|x|u]; [destruct (stays c); [done|]| |done]; intros [= <-].
  - destruct Ha as (-> & Hsent & Hok' & Hcnt & _). split.
    + split; wfields; try done. apply Forall_app_2; [done|]. apply Forall_singleton. split; cbn [fst snd].
      * by rewrite Easked.
      * by rewrite Hsent, Easked.
    + unfold token. wfields. by rewrite Hat.
    + unfold taken, doing. wfields. rewrite Hat, Hc, fmap_app, <- app_assoc. done.
    + intros [E|[job E]]; [by left|congruence].
  - destruct Ha as [_ Ha]. split.
    + split; wfields; try done.
      intros job [= <-]. exists c. split; [done|]. unfold refuses. rewrite Easked. by destruct Ha; [left|right].
    + unfold token. wfields. by rewrite Hat.
    + unfold taken, doing. wfields. by rewrite Hat, Hc.
    + intros _. right. by exists (Some c).
Qed.

Lemma k_close_ok i fd k : kid_ok i k -> k_at k = KClose fd -> kid_steps i k (k_move KWrite (delete fd (k_fds k)) k).
Proof.
  intros [K1 K2 K3 K4 K5 K6 K7 K8] Hat. rewrite Hat in K2, K4, K5, K6. split.
  - destruct (K4 fd eq_refl) as [c Hc]. split; wfields; try done.
    + rewrite lookup_delete_ne by (intros ->; congruence). done.
    + intros fd' j [_ E]%lookup_delete_Some. by eapply K3.
    + intros fd' c' [Hne E]%lookup_delete_Some. apply K5 in E. cbn in E. by simplify_eq.
  - unfold token. wfields. by rewrite Hat.
  - unfold taken, doing. wfields. by rewrite Hat.
  - intros [E|[job E]]; [by left|congruence].
Qed.

Lemma k_write_ok w i k :
  serv_ok w -> kids w !! i = Some k -> k_at k = KWrite -> kid_steps i k (k_write i w k).
Proof.
  intros Hw Hk Hat. destruct (so_kid _ Hw _ _ Hk) as [K1 K2 K3 K4 K5 K6 K7 K8]. rewrite Hat in K2, K4, K5, K6.
  unfold k_write. destruct (kid_entry _ _ _ Hw Hk) as [ch Hc]. rewrite (held_parent w i ch k) by done. split.
  - by split.
  - unfold token. wfields. rewrite Hat, length_app. cbn. lia.
  - unfold taken, doing. wfields. by rewrite Hat.
  - intros _. left. wfields. by destruct (outbox k).
Qed.

Lemma child_main_ok w i fd k k' :
  serv_ok w -> kids w !! i = Some k -> 0 <= fd -> k_fds k !! fd = None ->
  child_main client stays result i fd w k = Some k' -> kid_steps i k k'.
Proof using result_len.
  intros Hw Hk Hfd Hfree. unfold child_main. destruct (k_at k) eqn:Hat.
  - by eapply k_read_ok.
  - eapply k_serve_ok; [by eapply so_kid|done].
  - intros [= <-]. eapply k_close_ok; [by eapply so_kid|done].
  - intros [= <-]. by eapply k_write_ok.
  - done.
Qed.

Lemma child_step_ok w i fd k k' :
  serv_ok w -> kids w !! i = Some k -> 0 <= fd -> k_fds k !! fd = None ->
  child_main client stays result i fd w k = Some k' -> serv_ok (set_kids (<[i := k']> (kids w)) w).
Proof using result_len.
  intros Hw Hk Hfd Hfree Hs. destruct (child_main_ok _ _ _ _ _ Hw Hk Hfd Hfree Hs). by eapply kid_moved.
Qed.

End Child.

(** ** Steps of the parent *)

Lemma pass_to_none p i : hand_fd p = None -> pass_to p i = 0%nat.
Proof. by destruct p. Qed.
Lemma in_hand_none w : hand_fd (ppc w) = None -> in_hand w = [].
Proof. unfold in_hand. by destruct (ppc w). Qed.

(** A step that changes nothing but the place the parent is at. *)
Lemma point_moved w p :
  serv_ok w -> hand_fd (ppc w) = None -> hand_fd p = None -> point_ok (set_ppc p w) -> serv_ok (set_ppc p w).
Proof.
  intros [Hlen Hkid Hentry Hna Hlis Hms Hmx Hends Hhand Honly Hflow Hpt] H1 H2 Hp. split; try done; wfields.
  - intros i ch k Hc Hk. destruct (Hentry i ch k Hc Hk) as [E1 E2 E3 E4]. rewrite pass_to_none in E2, E4 by done.
    split; wfields; by rewrite ?pass_to_none.
  - by rewrite H2.
  - intros fd c E. apply Honly in E. congruence.
  - rewrite in_hand_none in Hflow by done. rewrite in_hand_none; done.
Qed.

Lemma entry_at w i fd : serv_ok w -> pipes w !! i = Some fd ->
  exists ch k, cptr w !! i = Some ch /\ kids w !! i = Some k /\ fd = child_pipefd ch /\ entry_ok w i ch k.
Proof.
  intros Hw Hi. apply list_lookup_fmap_Some in Hi as (ch & -> & Hc).
  assert (is_Some (kids w !! i)) as [k Hk].
  { apply lookup_lt_is_Some. rewrite (so_len _ Hw). by eapply lookup_lt_Some. }
  exists ch, k. split_and!; try done. by apply (so_entry _ Hw).
Qed.

Lemma pipes_nodup w : serv_ok w -> NoDup (listenfd w :: pipes w).
Proof.
  intros Hw. apply NoDup_cons. split.
  - intros [i Hi]%list_elem_of_lookup_1. destruct (entry_at w i _ Hw Hi) as (ch & k & _ & _ & E & [Ep _ _ _]).
    rewrite <- E, (so_listen _ Hw) in Ep. done.
  - apply NoDup_alt. intros i j fd Hi Hj.
    destruct (entry_at w i _ Hw Hi) as (ch & k & _ & _ & E & [Ep _ _ _]).
    destruct (entry_at w j _ Hw Hj) as (ch' & k' & _ & _ & E' & [Ep' _ _ _]). congruence.
Qed.

Lemma to_read_size (r : gset Z) (l : list Z) : NoDup l -> r ⊆ list_to_set l -> size r = to_read r l.
Proof.
  intros Hl Hr. unfold to_read. rewrite <- (size_list_to_set (C := gset Z)) by (by apply NoDup_filter).
  f_equal. apply set_eq. intros x. rewrite elem_of_list_to_set, list_elem_of_filter. split; [|by intros [? _]].
  intros Hx. split; [done|]. apply Hr in Hx. by apply elem_of_list_to_set in Hx.
Qed.

Lemma to_read_cons r x l : to_read r (x :: l) = ((if decide (x ∈ r) then 1 else 0) + to_read r l)%nat.
Proof. unfold to_read. rewrite filter_cons. by case_decide. Qed.

(** A pipe can be read from exactly when the child has written to it or is gone. *)
Lemma readable_stirred w i ch k :
  serv_ok w -> cptr w !! i = Some ch -> kids w !! i = Some k -> readable w (child_pipefd ch) = true <-> stirred k.
Proof.
  intros Hw Hc Hk. unfold readable. rewrite (eo_pipe _ _ _ _ (so_entry _ Hw _ _ _ Hc Hk)), Hk.
  rewrite (held_child w i k Hw Hk), negb_involutive, orb_true_iff, negb_true_iff, bool_decide_eq_false.
  unfold stirred. destruct (k_at k); naive_solver.
Qed.

Lemma Select_spec w r : Select w = Some r ->
  r <> ∅ /\ r ⊆ masterset w /\ (forall fd, fd ∈ r -> readable w fd = true) /\ (listenfd w ∈ r -> 0 < navail w).
Proof.
  unfold Select. case_bool_decide as E; [done|]. intros [= <-]. split_and!; [done|..].
  - intros fd [_ Hfd]%elem_of_filter. destruct (navail w <=? 0); [by apply elem_of_difference in Hfd as [? _]|done].
  - intros fd [Hfd _]%elem_of_filter. by apply andb_true_iff in Hfd as [_ ?].
  - intros [_ Hfd]%elem_of_filter. destruct (Z.leb_spec (navail w) 0); [|done].
    apply elem_of_difference in Hfd as [_ []]. by apply elem_of_singleton.
Qed.

Lemma select_ok w w' : serv_ok w -> ppc w = PSelect -> p_select w = Some w' -> serv_ok w'.
Proof.
  intros Hw Hpc. unfold p_select. destruct (Select w) as [r|] eqn:Es; [|done]. cbn. intros [= <-].
  apply Select_spec in Es as (Hne & Hsub & Hrd & Hna).
  assert (size r = to_read r (listenfd w :: pipes w)) as Hsz.
  { apply to_read_size; [by apply pipes_nodup|]. rewrite (so_master _ Hw) in Hsub. done. }
  assert (forall n, n = Z.of_nat (to_read r (pipes w)) -> scan_ok (pipes w) (kids w) r n 0) as Hscan.
  { intros n Hn. split; [done|]. intros j fd k _ Hfd Hk Hr. destruct (entry_at w j fd Hw Hfd) as (ch & k1 & Hc & Hk1 & -> & _).
    simplify_eq. by eapply readable_stirred, Hrd. }
  assert (size r <> 0%nat) as Hpos by (intros E; by apply size_empty_inv, leibniz_equiv in E).
  rewrite to_read_cons in Hsz. apply point_moved; [done|by rewrite Hpc|by case_bool_decide|].
  unfold point_ok. wfields. case_bool_decide as Hl; rewrite Hsz in *.
  - rewrite decide_True by done. split; [by apply Hna|]. split.
    + apply Hrd in Hl. unfold readable in Hl. rewrite (so_listen _ Hw) in Hl. intros E. by rewrite E in Hl.
    + apply Hscan. lia.
  - rewrite decide_False in * by done. split; [lia|]. split; [lia|]. apply Hscan. lia.
Qed.

Lemma pipes_insert (l : list Child) i ch ch' :
  l !! i = Some ch -> child_pipefd ch' = child_pipefd ch -> (child_pipefd <$> <[i := ch']> l) = child_pipefd <$> l.
Proof. intros Hi E. rewrite list_fmap_insert, E. apply list_insert_id. by rewrite list_lookup_fmap, Hi. Qed.

Lemma nidle_insert (l : list Child) i ch ch' :
  l !! i = Some ch -> (nidle (<[i := ch']> l) + Nat.b2n (idle ch) = nidle l + Nat.b2n (idle ch'))%nat.
Proof. apply count_insert. Qed.

Lemma nidle_all (l : list Child) : Forall (fun ch => idle ch = true) l -> nidle l = length l.
Proof.
  unfold nidle. induction 1 as [|ch l Hc _ IH]; [done|]. rewrite filter_cons, decide_True by done. cbn [length].
  by rewrite IH.
Qed.

(** There is a child when one is counted. *)
Lemma nidle_pos (l : list Child) i ch : l !! i = Some ch -> idle ch = true -> (0 < nidle l)%nat.
Proof.
  clear result_len. intros Hi Hc. unfold nidle. assert (ch ∈ filter (fun ch => idle ch = true) l) as Hin.
  { apply list_elem_of_filter. split; [done|]. by eapply list_elem_of_lookup_2. }
  destruct (filter _ l); [by apply elem_of_nil in Hin|cbn; lia].
Qed.

Lemma nidle_find (l : list Child) : (0 < nidle l)%nat ->
  exists i ch, list_find (fun ch => child_status ch = 0) l = Some (i, ch) /\ l !! i = Some ch /\ child_status ch = 0.
Proof.
  intros Hn. destruct (list_find (fun ch => child_status ch = 0) l) as [[i ch]|] eqn:E.
  - exists i, ch. split; [done|]. apply list_find_Some in E as (? & ? & _). done.
  - exfalso. apply list_find_None in E. unfold nidle in Hn.
    assert (filter (fun ch => idle ch = true) l = []) as Hf.
    { induction E as [|ch l Hc _ IH]; [done|]. rewrite filter_cons, decide_False; [apply IH|].
      - revert Hn. rewrite filter_cons, decide_False; [done|]. unfold idle. by rewrite Z.eqb_eq.
      - unfold idle. by rewrite Z.eqb_eq. }
    rewrite Hf in Hn. by apply Nat.lt_irrefl in Hn.
Qed.

(** The parent's array changes at [i], with the place it is at, and its table has
    the pipes and the listening socket as before. *)
Lemma entries_moved w p na t q ac ks i ch ch' k k' :
  serv_ok w -> cptr w !! i = Some ch -> kids w !! i = Some k -> ks = <[i := k']> (kids w) ->
  let w' := World (listenfd w) (masterset w) (maxfd w) (<[i := ch']> (cptr w)) na p t q ac ks in
  kid_ok i k' -> entry_ok w' i ch' k' -> child_pipefd ch' = child_pipefd ch ->
  na + Z.b2z (idle ch) = navail w + Z.b2z (idle ch') ->
  (forall j, j <> i -> pass_to p j = pass_to (ppc w) j) ->
  (forall fd o, pfds w !! fd = Some o -> (forall c, o <> Conn c) -> t !! fd = Some o) ->
  (forall fd j, t !! fd <> Some (ChildEnd j)) ->
  (forall fd, hand_fd p = Some fd -> exists c, t !! fd = Some (Conn c)) ->
  (forall fd c, t !! fd = Some (Conn c) -> hand_fd p = Some fd) ->
  ac ≡ₚ in_hand w' ++ (ks ≫= taken) -> point_ok w' -> serv_ok w'.
Proof.
  clear result_len.
  intros [Hlen Hkid Hentry Hna Hlis Hms Hmx Hends Hhand Honly Hflow Hpt] Hc Hk -> w' Hk' He Hp Hn Hpass Ht H1 H2 H3 Hf Hpo.
  assert (pipes w' = pipes w) as Hpipes by (by eapply pipes_insert).
  assert (i < length (kids w))%nat by (by eapply lookup_lt_Some).
  split; rewrite ?Hpipes; try done; subst w'; wfields.
  - by rewrite !length_insert.
  - intros j k2 [(-> & -> & _)|[_ Hj]]%list_lookup_insert_Some; [done|by apply Hkid].
  - intros j ch2 k2 Hc2 Hk2. apply list_lookup_insert_Some in Hk2 as [(<- & <- & _)|[Hne Hk2]].
    + rewrite list_lookup_insert_eq in Hc2 by (by rewrite <- Hlen). by simplify_eq.
    + rewrite list_lookup_insert_ne in Hc2 by done. destruct (Hentry _ _ _ Hc2 Hk2) as [E1 E2 E3 E4].
      split; wfields; rewrite ?Hpass by done; try done. by apply Ht.
  - pose proof (nidle_insert (cptr w) i ch ch' Hc). destruct (idle ch), (idle ch'); cbn in *; lia.
  - by apply Ht.
Qed.

Lemma alter_at {A} (f : A -> A) (l : list A) (i : nat) x : l !! i = Some x -> alter f i l = <[i := f x]> l.
Proof. revert i. induction l as [|y l IH]; intros [|i]; intros E; try done; [cbn in E; by simplify_eq|]. cbn. f_equal. by apply IH. Qed.

(** A child that has nothing in hand. *)
Lemma token_zero k : token k = 0%nat -> inbox k = [] /\ k_at k = KRead /\ outbox k = [].
Proof.
  unfold token. destruct (inbox k), (k_at k), (outbox k); cbn; intros E; try done; lia.
Qed.

Lemma idle_true ch : idle ch = true <-> child_status ch = 0.
Proof. apply Z.eqb_eq. Qed.

(** The test for a free child never fails: [Accept] is only reached when one was
    counted. *)
Lemma p_accept_ok w r nsel fd w' :
  serv_ok w -> ppc w = PAccept r nsel -> pfds w !! fd = None -> p_accept r nsel fd w = Some w' -> serv_ok w'.
Proof.
  clear result_len. intros Hw Hpc Hfree. pose proof (so_point _ Hw) as Hpt. unfold point_ok in Hpt. rewrite Hpc in Hpt.
  destruct Hpt as (Hna & Hq & Hscan). unfold p_accept. destruct (queue w) as [|c q] eqn:Eq; [done|].
  rewrite (so_navail _ Hw) in Hna. destruct (nidle_find (cptr w) ltac:(lia)) as (i & ch & -> & Hc & Hst).
  intros [= <-]. assert (exists k, kids w !! i = Some k) as [k Hk].
  { apply lookup_lt_is_Some. rewrite (so_len _ Hw). by eapply lookup_lt_Some. }
  pose proof (so_entry _ Hw _ _ _ Hc Hk) as [E1 E2 E3 E4]. rewrite Hpc in E2, E4. cbn [pass_to] in E2, E4.
  eapply (entries_moved w _ _ _ _ _ _ i ch _ k k); try done.
  - by rewrite list_insert_id.
  - by apply (so_kid _ Hw).
  - split; wfields; cbn [pass_to]; rewrite ?decide_True by done; [|lia|by right|lia].
    rewrite lookup_insert_ne; [done|]. intros ->. congruence.
  - wfields. rewrite (proj2 (idle_true ch) Hst). cbn. lia.
  - intros j Hne. rewrite Hpc. cbn [pass_to]. by rewrite decide_False.
  - intros fd' o E _. rewrite lookup_insert_ne; [done|]. intros ->. congruence.
  - intros fd' j. destruct (decide (fd = fd')) as [->|Hne]; [by rewrite lookup_insert_eq|].
    rewrite lookup_insert_ne by done. apply (so_ends _ Hw).
  - cbn [hand_fd]. intros fd' [= ->]. exists c. by rewrite lookup_insert_eq.
  - intros fd' c'. rewrite lookup_insert_Some. intros [[-> _]|[_ E]]; [done|].
    apply (so_only _ Hw) in E. by rewrite Hpc in E.
  - unfold in_hand. wfields. rewrite lookup_insert_eq. cbn [conn_of].
    pose proof (so_flow _ Hw) as Hf. rewrite in_hand_none in Hf by (by rewrite Hpc). cbn [app] in Hf.
    etrans; [apply Permutation_app_comm|]. by apply Permutation_app_head.
  - unfold point_ok. wfields. rewrite length_insert. split; [by eapply lookup_lt_Some|].
    unfold pipes. wfields. by erewrite pipes_insert.
Qed.

Lemma pass_ok w r nsel i fd w' :
  serv_ok w -> ppc w = PPass r nsel i fd -> p_pass r nsel i fd w = Some w' -> serv_ok w'.
Proof.
  clear result_len. intros Hw Hpc. pose proof (so_point _ Hw) as Hpt. unfold point_ok in Hpt. rewrite Hpc in Hpt.
  destruct Hpt as [Hi Hscan]. apply lookup_lt_is_Some in Hi as [ch Hc].
  assert (exists k, kids w !! i = Some k) as [k Hk].
  { apply lookup_lt_is_Some. rewrite (so_len _ Hw). by eapply lookup_lt_Some. }
  pose proof (so_entry _ Hw _ _ _ Hc Hk) as [E1 E2 E3 E4]. rewrite Hpc in E2, E4.
  cbn [pass_to] in E2, E4. rewrite decide_True in E2, E4 by done.
  destruct (token_zero k ltac:(lia)) as (Ei & Ea & Eo). pose proof (so_kid _ Hw _ _ Hk) as Hok.
  destruct (so_hand _ Hw fd) as [c Hfd]; [by rewrite Hpc|].
  destruct (pass_fd_roundtrip (pfds w) ∅ [NUL] fd 0 (Conn c) [] Hfd) as (m & Hm & _).
  unfold p_pass. rewrite Hc. cbn [mbind option_bind]. rewrite E1, (held_child w i k Hw Hk), Ea, Hm.
  cbn [negb]. intros [= <-]. pose (k' := Kid (k_pid k) (k_at k) (k_fds k) (inbox k ++ [m]) (outbox k) (k_rl k) (k_served k)).
  assert (msg_conn m = [c]) as Hmc.
  { destruct (good_msg_conn m) as (c' & E & Hr); [by exists c, (pfds w), fd|]. rewrite E.
    unfold write_fd, sendmsg, cmsg_map in Hm. cbn [msg_control cmsg_data] in Hm. rewrite Hfd in Hm.
    injection Hm as <-. by injection E as ->. }
  assert (taken k' = taken k ++ [c]) as Htk.
  { unfold taken, doing. subst k'. wfields. rewrite Ea, Ei. cbn [app mbind list_bind]. by rewrite !app_nil_r, Hmc. }
  assert (alter (fun k => Kid (k_pid k) (k_at k) (k_fds k) (inbox k ++ [m]) (outbox k) (k_rl k) (k_served k)) i (kids w)
          = <[i := k']> (kids w)) as Ealt by (etrans; [by eapply alter_at|done]).
  unfold set_kids, set_ppc. wfields. rewrite Ealt, <- (list_insert_id (cptr w) i ch Hc).
  eapply (entries_moved w _ _ _ _ _ _ i ch ch k k'); try done.
  - destruct Hok as [K1 K2 K3 K4 K5 K6 K7 K8]. split; try done. subst k'. wfields. apply Forall_app_2; [done|].
    apply Forall_singleton. by exists c, (pfds w), fd.
  - split; wfields; cbn [pass_to]; [done| |done|].
    + rewrite E2. unfold token. subst k'. wfields. rewrite Ei, Ea, Eo. done.
    + rewrite E4, Htk, length_app. cbn. lia.
  - intros j Hne. rewrite Hpc. cbn [pass_to]. by rewrite decide_False.
  - apply (so_ends _ Hw).
  - intros fd' Hf. apply (so_hand _ Hw). by rewrite Hpc.
  - intros fd' c' E. apply (so_only _ Hw) in E. by rewrite Hpc in E.
  - etrans; [apply (so_flow _ Hw)|]. unfold in_hand. wfields. rewrite Hpc, Hfd. cbn [conn_of app].
    etrans; [|symmetry; apply (bind_insert taken (kids w) i k k' [c] Hk); by rewrite Htk].
    apply (Permutation_app_comm [c]).
  - unfold point_ok. wfields. unfold pipes. wfields. rewrite list_insert_id by done.
    destruct Hscan as [Hn Hs]. split; [done|]. intros j fd' k2 Hj Hp Hk2 Hr.
    apply list_lookup_insert_Some in Hk2 as [(<- & <- & _)|[Hne Hk2]]; [|by eapply Hs].
    destruct (Hs _ _ _ Hj Hp Hk Hr) as [?|[job E]]; congruence.
Qed.

Lemma close_ok w r nsel fd : serv_ok w -> ppc w = PClose r nsel fd -> serv_ok (p_close r nsel fd w).
Proof.
  clear result_len. intros [Hlen Hkid Hentry Hna Hlis Hms Hmx Hends Hhand Honly Hflow Hpt] Hpc.
  destruct (Hhand fd) as [c Hfd]; [by rewrite Hpc|]. unfold point_ok in Hpt. rewrite Hpc in Hpt.
  set (p := if nsel - 1 =? 0 then PSelect else PScan r (nsel - 1) 0).
  assert (hand_fd p = None) as Hp by (subst p; by destruct (_ =? _)).
  assert (forall fd' o, pfds w !! fd' = Some o -> (forall c, o <> Conn c) -> delete fd (pfds w) !! fd' = Some o) as Hkeep.
  { intros fd' o E Ho. rewrite lookup_delete_ne; [done|]. intros <-. rewrite Hfd in E. by destruct (Ho c); simplify_eq. }
  split; try done; wfields; fold p.
  - intros i ch k Hc Hk. destruct (Hentry i ch k Hc Hk) as [E1 E2 E3 E4]. rewrite Hpc in E2, E4. cbn [pass_to] in E2, E4.
    split; wfields; fold p; rewrite ?(pass_to_none p) by done; try done. by apply Hkeep.
  - by apply Hkeep.
  - intros fd' i [_ E]%lookup_delete_Some. by apply Hends in E.
  - by rewrite Hp.
  - intros fd' c' [Hne E]%lookup_delete_Some. apply Honly in E. rewrite Hpc in E. cbn in E. by simplify_eq.
  - unfold in_hand in Hflow. rewrite Hpc in Hflow. rewrite in_hand_none; done.
  - unfold point_ok. wfields. destruct (Z.eqb_spec (nsel - 1) 0) as [E|E]; [done|].
    split; [destruct Hpt; lia|]. split; [lia|done].
Qed.

(** The scan goes on behind an entry that is done. *)
Lemma scan_next ps ks r n i fd :
  ps !! i = Some fd -> scan_ok ps ks r n i -> scan_ok ps ks r (n - (if decide (fd ∈ r) then 1 else 0)) (S i).
Proof.
  clear result_len. intros Hi [Hn Hs]. split; [|intros j fd' k Hj; apply Hs; lia].
  rewrite (drop_S _ _ _ Hi), to_read_cons in Hn. case_decide; lia.
Qed.

(** Changes of the children before [i] do not matter to it. *)
Lemma scan_past ps ks r n i j k : (j < i)%nat -> scan_ok ps ks r n i -> scan_ok ps (<[j := k]> ks) r n i.
Proof.
  clear result_len. intros Hj [Hn Hs]. split; [done|]. intros j' fd k' Hj' Hp Hk. apply (Hs j'); try done.
  by rewrite list_lookup_insert_ne in Hk by lia.
Qed.

Lemma scan_step_ok w r nsel i w' :
  serv_ok w -> ppc w = PScan r nsel i -> p_scan r nsel i w = Some w' -> safe w'.
Proof.
  clear result_len. intros Hw Hpc. pose proof (so_point _ Hw) as Hpt. unfold point_ok in Hpt. rewrite Hpc in Hpt.
  destruct Hpt as (Hpos & Hi & Hscan). unfold p_scan. destruct (cptr w !! i) as [ch|] eqn:Hc.
  2:{ intros [= <-]. left. apply point_moved; [done|by rewrite Hpc|done|done]. }
  assert (pipes w !! i = Some (child_pipefd ch)) as Hpi by (unfold pipes; by rewrite list_lookup_fmap, Hc).
  assert (i < length (cptr w))%nat as Hlt by (by eapply lookup_lt_Some).
  pose proof (scan_next _ _ _ _ _ _ Hpi Hscan) as Hnext. case_bool_decide as Hr.
  2:{ intros [= <-]. rewrite decide_False, Z.sub_0_r in Hnext by done. left. apply point_moved; [done|by rewrite Hpc|done|].
      unfold point_ok. wfields. split; [done|]. split; [lia|done]. }
  rewrite decide_True in Hnext by done.
  destruct (entry_at w i _ Hw Hpi) as (ch' & k & Hc' & Hk & _ & [E1 E2 E3 E4]). simplify_eq.
  rewrite Hpc in E2, E4. cbn [pass_to] in E2, E4. rewrite Nat.add_0_r in E2, E4.
  rewrite E1, Hk. cbn [mbind option_bind]. pose proof (so_kid _ Hw _ _ Hk) as Hok.
  destruct (outbox k) as [|b rest] eqn:Eo.
  - rewrite (held_child w i k Hw Hk).
    destruct (proj2 Hscan i _ k (le_n _) Hpi Hk Hr) as [?|[job Ej]]; [done|]. rewrite Ej. cbn [negb]. intros [= <-].
    destruct (ko_exit _ _ Hok job Ej) as (c & -> & Hc2). right. exists i, k, c. split_and!; try done.
    wfields. rewrite (so_flow _ Hw). apply elem_of_app. right. apply list_elem_of_bind. exists k.
    split; [|by eapply list_elem_of_lookup_2]. unfold taken, doing. rewrite Ej. set_solver.
  - intros [= <-]. left. unfold token in E2. rewrite Eo in E2. cbn [length] in E2.
    assert (rest = [] /\ inbox k = [] /\ k_at k = KRead) as (-> & Ei & Ea).
    { destruct rest, (inbox k), (k_at k); cbn in E2; try lia; done. }
    rewrite Ei, Ea in E2. cbn in E2. set (p := if _ =? _ then _ else _).
    assert (hand_fd p = None) as Hp by (subst p; by destruct (_ =? _)).
    pose (k' := Kid (k_pid k) (k_at k) (k_fds k) (inbox k) [] (k_rl k) (k_served k)).
    eapply (entries_moved w _ _ _ _ _ _ i ch _ k k'); try done.
    + destruct Hok as [K1 K2 K3 K4 K5 K6 K7 K8]. by split.
    + split; wfields; rewrite ?(pass_to_none p) by done; [done| |by left|].
      * unfold token. subst k'. wfields. by rewrite Ei, Ea.
      * rewrite E4, Nat.add_0_r. done.
    + assert (idle ch = false) as -> by (apply Z.eqb_neq; lia). cbn. lia.
    + intros j Hne. by rewrite Hpc, (pass_to_none p).
    + apply (so_ends _ Hw).
    + by rewrite Hp.
    + intros fd' c' E. apply (so_only _ Hw) in E. by rewrite Hpc in E.
    + pose proof (so_flow _ Hw) as Hf. rewrite in_hand_none in Hf |- * by (by rewrite ?Hpc).
      etrans; [exact Hf|]. symmetry. etrans; [apply (bind_insert taken (kids w) i k k' [] Hk); by rewrite app_nil_r|].
      by rewrite app_nil_r.
    + unfold point_ok. wfields. destruct (Z.eqb_spec (nsel - 1) 0) as [E|E]; subst p; [done|].
      rewrite length_insert. split; [lia|]. split; [lia|]. unfold pipes. wfields.
      erewrite pipes_insert by done. apply scan_past; [lia|done].
Qed.

Lemma parent_step_ok w fd w' :
  serv_ok w -> 0 <= fd -> pfds w !! fd = None -> parent_step fd w = Some w' -> safe w'.
Proof.
  intros Hw Hfd Hfree. unfold parent_step. destruct (ppc w) eqn:Hpc; intros Hs.
  - left. by eapply select_ok.
  - left. by eapply p_accept_ok.
  - left. by eapply pass_ok.
  - left. injection Hs as <-. by apply close_ok.
  - by eapply scan_step_ok.
  - done.
Qed.

Lemma step_safe stays w w' : safe w -> step client stays result w w' -> safe w'.
Proof using result_len.
  intros [Hw|(i & k & c & Hpc & Hk & Hat & Hin & Hr)] [fd w2 H1 H2 H3|j fd k1 k2 H1 H2 H3 H4].
  - by eapply parent_step_ok.
  - left. by eapply child_step_ok.
  - unfold parent_step in H3. by rewrite Hpc in H3.
  - right. exists i, k, c. split_and!; try done. wfields. rewrite list_lookup_insert_ne; [done|]. intros ->.
    simplify_eq. unfold child_main in H4. by rewrite Hat in H4.
Qed.

Lemma connect_ok w c : serv_ok w -> serv_ok (connect c w).
Proof.
  intros [Hlen Hkid Hentry Hna Hlis Hms Hmx Hends Hhand Honly Hflow Hpt]. split; try done.
  - intros i ch k Hc Hk. by destruct (Hentry i ch k Hc Hk).
  - unfold point_ok in *. wfields. destruct (ppc w); try done. destruct Hpt as (? & ? & ?). split_and!; try done.
    by destruct (queue w).
Qed.

(** ** The start *)

(** A table in which nothing is a connection or the end of another child. *)
Definition plain (own : nat -> Prop) (t : fdtable) : Prop :=
  forall fd o, t !! fd = Some o -> match o with Conn _ => False | ChildEnd j => own j | _ => True end.

Record fresh_kid (i : nat) k : Prop := {
  fk_at : k_at k = KRead;
  fk_pipe : inbox k = [] /\ outbox k = [] /\ k_served k = [];
  fk_rl : k_rl k = RL 0 0 (replicate MAXLINE NUL) tt;
  fk_end : k_fds k !! 2 = Some (ChildEnd i);
  fk_plain : plain (eq i) (k_fds k);
}.

(** [i] of [n] children have been made. *)
Record forked (n i : nat) w : Prop := {
  fo_point : ppc w = PSelect /\ queue w = [] /\ accepted w = [] /\ navail w = Z.of_nat n;
  fo_len : length (cptr w) = n /\ length (kids w) = i /\ (i <= n)%nat;
  fo_entry : forall j ch, cptr w !! j = Some ch -> child_status ch = 0 /\ child_count ch = 0 /\
    ((j < i)%nat -> pfds w !! child_pipefd ch = Some (ParentEnd j));
  fo_kid : forall j k, kids w !! j = Some k -> fresh_kid j k;
  fo_listen : pfds w !! listenfd w = Some Listening;
  fo_tty : pfds w !! 2 = Some Tty;
  fo_plain : plain (fun _ => False) (pfds w);
  fo_master : masterset w = {[ listenfd w ]} ∪ list_to_set (take i (pipes w));
  fo_maxfd : listenfd w <= maxfd w /\ Forall (fun fd => fd <= maxfd w) (take i (pipes w));
}.

Lemma plain_insert own (t : fdtable) fd o :
  plain own t -> match o with Conn _ => False | ChildEnd j => own j | _ => True end -> plain own (<[fd := o]> t).
Proof. intros Ht Ho fd' o'. rewrite lookup_insert_Some. intros [[_ <-]|[_ E]]; [done|]. by apply Ht in E. Qed.
Lemma plain_delete own (t : fdtable) fd : plain own t -> plain own (delete fd t).
Proof. intros Ht fd' o' [_ E]%lookup_delete_Some. by apply Ht in E. Qed.
Lemma plain_mono (own own' : nat -> Prop) (t : fdtable) : (forall j, own j -> own' j) -> plain own t -> plain own' t.
Proof. intros Ho Ht fd [ | |j|j|c] E; apply Ht in E; try done. by apply Ho. Qed.

Lemma child_make_fresh i s0 s1 pid w :
  pfds w !! 2 = Some Tty -> pfds w !! listenfd w = Some Listening -> plain (fun _ => False) (pfds w) ->
  pfds w !! s0 = None -> pfds w !! s1 = None ->
  exists k, kids (child_make i s0 s1 pid w) = kids w ++ [k] /\ fresh_kid i k.
Proof.
  intros H2 Hl Hp H0' H1'. eexists. split; [done|]. split; wfields; try done.
  - rewrite !lookup_delete_ne by (intros E; congruence). by rewrite lookup_insert_eq.
  - do 3 apply plain_delete. repeat apply plain_insert; try done. by eapply plain_mono, Hp.
Qed.

(** One turn of the loop of [main]. *)
Lemma forked_next n i s0 s1 pid w ms :
  forked n i w -> (i < n)%nat -> pfds w !! s0 = None -> pfds w !! s1 = None -> s0 <> s1 ->
  ms = {[ s0 ]} ∪ masterset w ->
  let w1 := child_make i s0 s1 pid w in
  forked n (S i) (World (listenfd w1) ms (Z.max (maxfd w1) s0) (cptr w1) (navail w1) (ppc w1) (pfds w1)
                        (queue w1) (accepted w1) (kids w1)) /\
  pfds w1 = <[s0 := ParentEnd i]> (pfds w).
Proof.
  clear result_len. intros [F1 (F2 & F2' & F2'') F3 F4 F5 F6 F7 F8 F9] Hi H0' H1' Hne -> w1.
  assert (pfds w1 = <[s0 := ParentEnd i]> (pfds w)) as Ep.
  { subst w1. unfold child_make. wfields. apply delete_insert_id. by rewrite lookup_insert_ne. }
  destruct (child_make_fresh i s0 s1 pid w F6 F5 F7 H0' H1') as (k & Ek & Hk). fold w1 in Ek.
  assert (is_Some (cptr w !! i)) as [ch Hc] by (apply lookup_lt_is_Some; lia).
  assert (cptr w1 = <[i := MkChild pid s0 0 (child_count ch)]> (cptr w)) as Ec.
  { subst w1. unfold child_make. wfields. etrans; [by eapply alter_at|done]. }
  assert (take (S i) (child_pipefd <$> cptr w1) = take i (pipes w) ++ [s0]) as Etake.
  { rewrite Ec, list_fmap_insert. wfields. erewrite take_S_r by (apply list_lookup_insert_eq; rewrite length_fmap; lia).
    by rewrite take_insert_ge by lia. }
  split; [|done]. split; wfields; rewrite ?Ep.
  - done.
  - rewrite Ec, Ek, length_insert, length_app. cbn. lia.
  - intros j ch'. rewrite Ec. intros [(-> & <- & _)|[Hj Hc']]%list_lookup_insert_Some.
    + wfields. destruct (F3 _ _ Hc) as (_ & -> & _). split_and!; try done. intros _. by rewrite lookup_insert_eq.
    + destruct (F3 _ _ Hc') as (G1 & G2 & G3). split_and!; try done. intros Hlt.
      assert (pfds w !! child_pipefd ch' = Some (ParentEnd j)) as E by (apply G3; lia).
      rewrite lookup_insert_ne; [done|]. intros ->. congruence.
  - intros j k'. rewrite Ek. intros [Hj|(Hj & Hj')]%lookup_app_Some; [by apply F4|].
    apply list_lookup_singleton_Some in Hj' as [E <-]. by replace j with i by lia.
  - rewrite lookup_insert_ne; [done|]. intros E. change (listenfd w1) with (listenfd w) in E. congruence.
  - rewrite lookup_insert_ne; [done|]. intros ->. congruence.
  - by apply plain_insert.
  - unfold pipes. wfields. rewrite Etake, F8, list_to_set_app_L. cbn. rewrite (right_id_L ∅ (∪)). rewrite (comm_L (∪) {[s0]}), (assoc_L (∪)). done.
  - unfold pipes. wfields. rewrite Etake. destruct F9 as [G1 G2]. split; [subst w1; unfold child_make; wfields; lia|].
    apply Forall_app_2; [|apply Forall_singleton; lia]. eapply Forall_impl; [exact G2|]. cbn. intros fd.
    subst w1. unfold child_make. wfields. lia.
Qed.

Lemma prefork_ok n i ps w :
  forked n i w -> (length ps + i)%nat = n -> pairs_ok i ps (pfds w) ->
  exists w', prefork i ps w = Def w' /\ forked n n w'.
Proof.
  clear result_len. revert i w. induction ps as [|[[s0 s1] pid] ps IH]; intros i w Hw Hn Hp; cbn [prefork].
  - exists w. split; [done|]. cbn in Hn. by subst i.
  - cbn [pairs_ok length] in Hp, Hn. destruct Hp as (Hr & H1 & H2 & Hne & Hp).
    unfold FD_SET. replace ((0 <=? s0) && (s0 <? Z.of_nat FD_SETSIZE)) with true by lia. rewrite chk_bind_Def.
    destruct (forked_next n i s0 s1 pid w _ Hw ltac:(lia) H1 H2 Hne eq_refl) as [Hf Ep].
    apply IH; [exact Hf|lia|]. wfields. by rewrite Ep.
Qed.

Lemma forked_ok n w : forked n n w -> serv_ok w.
Proof.
  clear result_len. intros [(P1 & P2 & P3 & P4) (F2 & F2' & _) F3 F4 F5 F6 F7 F8 F9].
  assert (length (pipes w) = n) as Hl by (unfold pipes; by rewrite length_fmap).
  rewrite take_ge in F8, F9 by lia.
  assert (forall i k, kids w !! i = Some k -> token k = 0%nat /\ taken k = []) as Hk.
  { intros i k Hk. destruct (F4 _ _ Hk) as [G1 (G2 & G3 & G4) _ _ _]. unfold token, taken, doing.
    by rewrite G1, G2, G3, G4. }
  split; try done.
  - by rewrite F2.
  - intros i k Hi. destruct (F4 _ _ Hi) as [G1 (G2 & G3 & G4) G5 G6 G7].
    split; rewrite ?G1, ?G2, ?G4, ?G5; try done.
    + intros fd j E. by apply G7 in E.
    + intros fd c E. by apply G7 in E.
  - intros i ch k Hc Hi. destruct (F3 _ _ Hc) as (G1 & G2 & G3). destruct (Hk _ _ Hi) as [E1 E2].
    assert (i < n)%nat by (rewrite <- F2; by eapply lookup_lt_Some).
    split; rewrite ?P1, ?E1, ?E2; [by apply G3|done|by left|done].
  - rewrite P4, <- F2. f_equal. symmetry.
    assert (Forall (fun ch => idle ch = true) (cptr w)) as Hf.
    { apply Forall_lookup. intros i ch Hc. apply idle_true. by destruct (F3 _ _ Hc) as [? _]. }
    by apply nidle_all.
  - intros fd i E. by apply F7 in E.
  - by rewrite P1.
  - intros fd c E. by apply F7 in E.
  - rewrite P3, in_hand_none by (by rewrite P1). cbn [app].
    assert (Forall (fun k => taken k = []) (kids w)) as Hf by (apply Forall_lookup; intros i k Hi; by eapply Hk).
    clear - Hf. induction Hf as [|k l Hc _ IH]; [done|]. by rewrite bind_cons, Hc.
  - unfold point_ok. by rewrite P1.
Qed.

(** The table of the parent when it starts to fork. *)
Definition start_fds (lfd : Z) : fdtable := <[lfd := Listening]> (<[0 := Tty]> (<[1 := Tty]> (<[2 := Tty]> ∅))).

Lemma start_ok lfd ps :
  3 <= lfd < Z.of_nat FD_SETSIZE -> pairs_ok 0 ps (start_fds lfd) ->
  exists w, serv_init lfd ps = Def w /\ serv_ok w /\ length (kids w) = length ps.
Proof.
  clear result_len. intros Hl Hp. unfold serv_init, FD_SET.
  replace ((0 <=? lfd) && (lfd <? Z.of_nat FD_SETSIZE)) with true by lia. rewrite chk_bind_Def. cbv zeta.
  destruct (prefork_ok (length ps) 0 ps
    (World lfd ({[lfd]} ∪ ∅) lfd (replicate (length ps) (MkChild 0 0 0 0)) (Z.of_nat (length ps)) PSelect (start_fds lfd) [] [] []))
    as (w & E & Hf); [|lia|done|].
  - split; wfields; try done.
    + rewrite length_replicate. cbn. lia.
    + intros j ch [-> _]%lookup_replicate. cbn. split_and!; [done..|lia].
    + unfold start_fds. by rewrite lookup_insert_eq.
    + unfold start_fds. by rewrite lookup_insert_ne by lia.
    + unfold start_fds. by repeat apply plain_insert.
  - exists w. split; [exact E|]. split; [by eapply forked_ok|]. by destruct (fo_len _ _ _ Hf) as (_ & ? & _).
Qed.
End Facts.
