(* ===== verification/PreforkLive.v ===== *)
(** * The server with a pool of processes: its runs

    What Prefork.v proves of every state, as a statement about reachable states,
    and how runs of the server end: a measure that every step makes smaller, and
    the states in which no step is possible. *)

From stdpp Require Import gmap sets fin_sets relations.
From S2P Require Import Prelude CLib BufIO WebChild SelectServ Prefork.

Section Live.
Context {K : Type} `{Steady K}.
Variable client : nat -> K.
Variable stays : nat -> bool.
Variable result : buf.
Hypothesis result_len : Z.of_nat (length result) = MAXN.
Implicit Types (w : world K) (k : kid K).

Abbreviation ok := (serv_ok client result).
Abbreviation step := (step client stays result).

(** ** The measure *)

(** The steps a child has before it. *)
Definition krank k : nat :=
  (4 * length (inbox k) + match k_at k with KServe _ => 3 | KClose _ => 2 | KWrite => 1 | _ => 0 end)%nat.

(** The steps of the parent up to [Select]. *)
Definition prank (n : nat) (p : point) : Z :=
  match p with
  | PAccept _ _ => Z.of_nat n + 8
  | PPass _ _ _ _ => Z.of_nat n + 7
  | PClose _ _ _ => Z.of_nat n + 2
  | PScan _ _ i => Z.of_nat n + 1 - Z.of_nat i
  | _ => 0
  end.

(** What the parent has still to take from this return of [Select]. *)
Definition debt (p : point) : Z :=
  match p with
  | PAccept _ nsel | PScan _ nsel _ => nsel
  | PPass _ nsel _ _ | PClose _ nsel _ => nsel - 1
  | _ => 0
  end.

(** The times the parent has still to take something: twice for a client that
    waits, once for one that was accepted. *)
Definition pot w : Z :=
  2 * Z.of_nat (length (queue w)) + (match ppc w with PPass _ _ _ _ => 1 | _ => 0 end) +
  Z.of_nat (sum_list_with token (kids w)).

Definition measure w : Z :=
  let n := length (cptr w) in
  (Z.of_nat n + 9) * (pot w - debt (ppc w)) + prank n (ppc w) + Z.of_nat (sum_list_with krank (kids w)).

(** ** Steps of a child *)

Lemma child_krank w i fd k k' :
  ok w -> kids w !! i = Some k -> 0 <= fd -> child_main client stays result i fd w k = Some k' -> (krank k' < krank k)%nat.
Proof.
  clear result_len. intros Hw Hk Hfd. pose proof (so_kid _ _ _ Hw _ _ Hk) as Hok. unfold child_main, krank.
  destruct (k_at k) as [|cfd|cfd| |job] eqn:Hat.
  - unfold k_read. pose proof (ko_fds _ _ _ _ Hok) as Hf. rewrite Hat in Hf. rewrite bool_decide_true by done.
    destruct (inbox k) as [|m q] eqn:Ei.
    { cbn. destruct (kid_entry _ _ _ _ _ Hw Hk) as [ch Hc]. by rewrite (held_parent client result w i ch k). }
    pose proof (ko_inbox _ _ _ _ Hok) as Hm. rewrite Ei in Hm. apply Forall_cons_1 in Hm as [Hm _].
    destruct (good_msg_conn m Hm) as (c & _ & ->). replace (fd <? 0) with false by lia. cbn [length Nat.eqb orb].
    intros [= <-]. wfields. lia.
  - unfold k_serve. destruct (k_fds k !! cfd) as [[]|]; try (intros [= <-]; wfields; lia).
    destruct (web_serve _ _); [destruct (stays _); [done|]|..]; intros [= <-]; wfields; lia.
  - intros [= <-]. wfields. lia.
  - intros [= <-]. unfold k_write. destruct (held w _); wfields; lia.
  - done.
Qed.

Lemma child_measure w i fd k k' :
  ok w -> kids w !! i = Some k -> 0 <= fd -> k_fds k !! fd = None -> child_main client stays result i fd w k = Some k' ->
  measure (set_kids (<[i := k']> (kids w)) w) < measure w.
Proof using result_len.
  intros Hw Hk Hfd Hfree Hs. pose proof (child_krank _ _ _ _ _ Hw Hk Hfd Hs) as Hlt.
  destruct (child_main_ok _ _ result_len _ _ _ _ _ _ Hw Hk Hfd Hfree Hs) as [_ Ht _ _].
  pose proof (sum_insert token (kids w) i k k' Hk). pose proof (sum_insert krank (kids w) i k k' Hk).
  unfold measure, pot. wfields.
  replace (sum_list_with token (<[i := k']> (kids w))) with (sum_list_with token (kids w)) by lia. lia.
Qed.

(** ** Steps of the parent *)

(** Every child the parent is going to read from has something in hand. *)
Lemma scan_tokens (ps : list Z) (ks : list (kid K)) r n i :
  length ps = length ks -> scan_ok ps ks r n i -> 0 <= n <= Z.of_nat (sum_list_with token ks).
Proof.
  clear. intros Hl [-> Hs]. split; [lia|]. apply Nat2Z.inj_le. revert ps i Hl Hs.
  induction ks as [|k ks IH]; intros [|fd ps] i Hl Hs; try done.
  - unfold to_read. by rewrite drop_nil.
  - cbn [sum_list_with]. cbn in Hl. destruct i as [|i].
    + cbn [drop]. rewrite to_read_cons.
      specialize (IH ps 0%nat ltac:(lia)). rewrite drop_0 in IH.
      assert (to_read r ps <= sum_list_with token ks)%nat.
      { apply IH. intros j fd' k' _ Hp Hk. apply (Hs (S j) fd'); [lia|done..]. }
      case_decide as Hr; [|lia]. assert (stirred k) as Hst by (apply (Hs 0%nat fd); [lia|done..]).
      assert (1 <= token k)%nat; [|lia]. unfold token. destruct Hst as [Ho|[job ->]]; [|cbn; lia].
      destruct (outbox k); [done|cbn; lia].
    + cbn [drop]. etrans; [apply (IH ps i ltac:(lia))|lia].
      intros j fd' k' Hj Hp Hk. apply (Hs (S j) fd'); [lia|done..].
Qed.

Lemma pipes_length w : ok w -> length (pipes w) = length (kids w).
Proof. intros Hw. unfold pipes. by rewrite length_fmap, (so_len _ _ _ Hw). Qed.

Lemma measure_nonneg w : ok w -> 0 <= measure w.
Proof.
  clear result_len. intros Hw. pose proof (so_point _ _ _ Hw) as Hp. unfold point_ok in Hp. unfold measure, pot.
  pose proof (pipes_length w Hw) as Hl.
  destruct (ppc w) as [|r nsel|r nsel i fd|r nsel fd|r nsel i|]; cbn [debt prank]; [nia|..|done].
  - destruct Hp as (_ & Hq & Hs). apply scan_tokens in Hs; [|done].
    assert (1 <= length (queue w))%nat by (destruct (queue w); [done|cbn; lia]). nia.
  - destruct Hp as [_ Hs]. apply scan_tokens in Hs; [|done]. nia.
  - apply scan_tokens in Hp; [|done]. nia.
  - destruct Hp as (_ & Hi & Hs). apply scan_tokens in Hs; [|done]. nia.
Qed.

Lemma not_exit w r : ppc w = PExit r -> ~ ok w.
Proof. intros E Hw. pose proof (so_point _ _ _ Hw) as Hp. unfold point_ok in Hp. by rewrite E in Hp. Qed.

Lemma select_measure w w' : ppc w = PSelect -> p_select w = Some w' -> measure w' < measure w.
Proof.
  clear result_len. intros Hpc. unfold p_select. destruct (Select w) as [r|] eqn:Es; [|done]. cbn. intros [= <-].
  apply Select_spec in Es as (Hne & _). assert (size r <> 0%nat) by (intros E; by apply size_empty_inv, leibniz_equiv in E).
  unfold measure, pot. wfields. rewrite Hpc. case_bool_decide; cbn [debt prank]; nia.
Qed.

Lemma accept_measure w r nsel fd w' :
  ok w' -> ppc w = PAccept r nsel -> p_accept r nsel fd w = Some w' -> measure w' < measure w.
Proof.
  clear result_len. intros Hw' Hpc. unfold p_accept. destruct (queue w) as [|c q] eqn:Eq; [done|].
  destruct (list_find _ _) as [[i ch]|]; intros [= <-]; [|by apply (not_exit _ NoChildren) in Hw'].
  unfold measure, pot. wfields. rewrite Hpc, Eq, length_insert. cbn [debt prank length]. nia.
Qed.

Lemma pass_measure w r nsel i fd w' :
  ok w -> ok w' -> ppc w = PPass r nsel i fd -> p_pass r nsel i fd w = Some w' -> measure w' < measure w.
Proof.
  clear result_len. intros Hw Hw' Hpc. unfold p_pass. destruct (cptr w !! i) as [ch|] eqn:Hc; [|done]. cbn [mbind option_bind].
  assert (is_Some (kids w !! i)) as [k Hk].
  { apply lookup_lt_is_Some. rewrite (so_len _ _ _ Hw). by eapply lookup_lt_Some. }
  rewrite (eo_pipe _ _ _ _ (so_entry _ _ _ Hw _ _ _ Hc Hk)).
  destruct (held w _); [|intros [= <-]; by apply (not_exit _ WriteFailed) in Hw'].
  destruct (write_fd _ _ _) as [m|]; intros [= <-]; [|by apply (not_exit _ WriteFailed) in Hw'].
  rewrite (alter_at _ _ i k Hk). set (k' := Kid _ _ _ _ _ _ _).
  pose proof (sum_insert token (kids w) i k k' Hk) as Ht. pose proof (sum_insert krank (kids w) i k k' Hk) as Hkr.
  unfold token in Ht at 2 4. unfold krank in Hkr at 2 4. subst k'. wfields in *. rewrite length_app in Ht, Hkr.
  cbn [length] in Ht, Hkr. unfold measure, pot. wfields. rewrite Hpc. cbn [debt prank]. nia.
Qed.

Lemma close_measure w r nsel fd : ppc w = PClose r nsel fd -> measure (p_close r nsel fd w) < measure w.
Proof.
  clear result_len. intros Hpc. unfold measure, pot. wfields. rewrite Hpc.
  destruct (Z.eqb_spec (nsel - 1) 0) as [E|E]; cbn [debt prank]; nia.
Qed.

Lemma scan_measure w r nsel i w' :
  ok w -> ok w' -> ppc w = PScan r nsel i -> p_scan r nsel i w = Some w' -> measure w' < measure w.
Proof.
  clear result_len. intros Hw Hw' Hpc. pose proof (so_point _ _ _ Hw) as Hp. unfold point_ok in Hp. rewrite Hpc in Hp.
  destruct Hp as (Hpos & Hi & Hn & Hs). unfold p_scan. destruct (cptr w !! i) as [ch|] eqn:Hc.
  2:{ apply lookup_ge_None in Hc. rewrite drop_ge in Hn by (unfold pipes; rewrite length_fmap; lia). cbn in Hn. lia. }
  assert (i < length (cptr w))%nat as Hlt by (by eapply lookup_lt_Some).
  case_bool_decide as Hr.
  2:{ intros [= <-]. unfold measure, pot. wfields. rewrite Hpc. cbn [debt prank]. nia. }
  assert (is_Some (kids w !! i)) as [k Hk].
  { apply lookup_lt_is_Some. by rewrite (so_len _ _ _ Hw). }
  rewrite (eo_pipe _ _ _ _ (so_entry _ _ _ Hw _ _ _ Hc Hk)), Hk. cbn [mbind option_bind].
  destruct (outbox k) as [|b rest] eqn:Eo.
  { destruct (held w _); [done|]. intros [= <-]. by apply (not_exit _ (Terminated i)) in Hw'. }
  intros [= <-]. set (k' := Kid _ _ _ _ _ _ _).
  pose proof (sum_insert token (kids w) i k k' Hk) as Ht. pose proof (sum_insert krank (kids w) i k k' Hk) as Hkr.
  unfold token in Ht at 2 4. unfold krank in Hkr at 2 4. subst k'. wfields in *. rewrite Eo in Ht. cbn [length] in Ht.
  unfold measure, pot. wfields. rewrite Hpc, length_insert.
  destruct (Z.eqb_spec (nsel - 1) 0) as [E|E]; cbn [debt prank]; nia.
Qed.

(** Every step that leaves the parent running makes the measure smaller. *)
Lemma step_measure w w' : ok w -> ok w' -> step w w' -> measure w' < measure w.
Proof using result_len.
  intros Hw Hw' Hs. revert Hw'. destruct Hs as [fd w2 H1 H2 H3|j fd k1 k2 H1 H2 H3 H4]; intros Hw';
    [|by eapply child_measure].
  unfold parent_step in H3. destruct (ppc w) eqn:Hpc; [..|done].
  - by eapply select_measure.
  - by eapply accept_measure.
  - by eapply pass_measure.
  - injection H3 as <-. by apply close_measure.
  - by eapply scan_measure.
Qed.

Lemma stopped_steps n w w' : (exists r, ppc w = PExit r) -> nsteps step n w w' -> exists r, ppc w' = PExit r.
Proof.
  intros He Hn. revert He. induction Hn as [|n w w1 w' Hs _ IH]; [done|]. intros [r Hr]. apply IH.
  destruct Hs as [fd w2 H1 H2 H3|j fd k1 k2 H1 H2 H3 H4]; [|by exists r].
  unfold parent_step in H3. by rewrite Hr in H3.
Qed.

(** A run in which the parent does not stop is not longer than the measure says. *)
Lemma run_bounded n w w' :
  ok w -> nsteps step n w w' -> (forall r, ppc w' <> PExit r) -> ok w' /\ Z.of_nat n + measure w' <= measure w.
Proof using result_len.
  intros Hw Hn Hr. revert Hw. induction Hn as [w|n w w1 w' Hs Hn IH]; intros Hw; [split; [done|lia]|].
  destruct (step_safe client result result_len stays w w1 (or_introl Hw) Hs) as [Hw1|(i & k & c & Hpc & _)].
  - destruct (IH Hr Hw1) as [Hw' Hb]. split; [done|]. pose proof (step_measure _ _ Hw Hw1 Hs). lia.
  - destruct (stopped_steps n w1 w' (ex_intro _ _ Hpc) Hn) as [r E]. by apply Hr in E.
Qed.

(** ** Where runs end *)

Lemma fresh_fd (t : fdtable) : exists fd, 0 <= fd /\ t !! fd = None.
Proof.
  clear. exists (Z.of_nat (fresh (set_map Z.to_nat (dom t) : gset nat))). split; [lia|].
  apply not_elem_of_dom. intros Hin. apply (is_fresh (set_map Z.to_nat (dom t) : gset nat)).
  apply elem_of_map. eexists. split; [|exact Hin]. by rewrite Nat2Z.id.
Qed.

(** What no client of the server does: ask for a number that is not a [long]. *)
Definition fitting : Prop := forall c, (asked (pending (client c))).2 <> TooLong.

(** The client a child waits for: one that stays connected and silent. *)
Definition kept k : list nat :=
  filter (fun c => stays c = true) (match k_at k with KServe _ => doing k | _ => [] end).

(** A child with something in hand runs, or the parent can read from it, or it waits for
    its client. *)
Lemma kid_progress w i k :
  ok w -> fitting -> kids w !! i = Some k -> (0 < token k)%nat -> stirred k \/ (exists w', step w w') \/ kept k <> [].
Proof using result_len.
  intros Hw Hfit Hk Htok. destruct (fresh_fd (k_fds k)) as (fd & Hfd & Hfree).
  pose proof (so_kid _ _ _ Hw _ _ Hk) as Hok.
  assert (forall k', child_main client stays result i fd w k = Some k' -> exists w', step w w') as Hgo.
  { intros k' E. eexists. by eapply step_child. }
  unfold child_main in Hgo. destruct (k_at k) as [|cfd|cfd| |job] eqn:Hat;
    [..|by right; left; eapply Hgo|by right; left; eapply Hgo|].
  - destruct (inbox k) as [|m q] eqn:Ei.
    + left. left. unfold token in Htok. rewrite Ei, Hat in Htok. destruct (outbox k); [cbn in Htok; lia|done].
    + right. left. unfold k_read in Hgo. pose proof (ko_fds _ _ _ _ Hok) as Hf. rewrite Hat in Hf.
      rewrite bool_decide_true in Hgo by done. pose proof (ko_inbox _ _ _ _ Hok) as Hm. rewrite Ei in Hm.
      apply Forall_cons_1 in Hm as [Hm _]. destruct (good_msg_conn m Hm) as (c & _ & Hr). rewrite Ei, Hr in Hgo.
      by destruct (_ || _) in Hgo; eapply Hgo.
  - right. unfold k_serve in Hgo. destruct (ko_conn _ _ _ _ Hok cfd) as [c Hc]; [by rewrite Hat|]. rewrite Hc in Hgo.
    destruct (ko_rl _ _ _ _ Hok) as [Hrl Hcnt]. destruct (conn_rl_ok client k c Hrl Hcnt) as [_ Hst].
    pose proof (web_serve_answers client result result_len k c Hrl Hcnt) as Ha.
    unfold answered in Ha. rewrite Hst in Ha. specialize (Hfit c).
    destruct (asked (pending (client c))) as [ns e].
    destruct (web_serve _ _); [|by left; eapply Hgo|by destruct Ha as [-> _]].
    destruct (stays c) eqn:Es; [right|by left; eapply Hgo].
    unfold kept, doing. rewrite Hat, Hc. cbn [conn_of]. by rewrite filter_cons_True.
  - left. right. by exists job.
Qed.

(** [Select] returns when there is something to read from a child, or a client
    waits and a child is free. *)
Lemma Select_ready w fd :
  fd ∈ masterset w -> fd <= maxfd w -> readable w fd = true -> (fd = listenfd w -> 0 < navail w) ->
  exists w', p_select w = Some w'.
Proof.
  clear result_len. intros Hm Hx Hr Hl. unfold p_select, Select. case_bool_decide as E; [|by eexists]. exfalso.
  assert (fd ∈ (∅ : gset Z)) as Hin; [|by apply elem_of_empty in Hin]. rewrite <- E. apply elem_of_filter. split.
  - rewrite Hr, andb_true_r. lia.
  - destruct (Z.leb_spec (navail w) 0); [|done]. apply elem_of_difference. split; [done|].
    intros ->%elem_of_singleton. specialize (Hl eq_refl). lia.
Qed.

Lemma stirred_selects w i k : ok w -> kids w !! i = Some k -> stirred k -> exists w', p_select w = Some w'.
Proof.
  intros Hw Hk Hst. destruct (kid_entry _ _ _ _ _ Hw Hk) as [ch Hc].
  assert (child_pipefd ch ∈ pipes w) as Hin by (apply list_elem_of_fmap; exists ch; split; [done|by eapply list_elem_of_lookup_2]).
  apply (Select_ready w (child_pipefd ch)).
  - rewrite (so_master _ _ _ Hw). apply elem_of_union. right. by apply elem_of_list_to_set.
  - destruct (so_maxfd _ _ _ Hw) as [_ Hm]. rewrite Forall_forall in Hm. by apply Hm.
  - by eapply readable_stirred.
  - intros E. pose proof (eo_pipe _ _ _ _ (so_entry _ _ _ Hw _ _ _ Hc Hk)) as Ep. rewrite E, (so_listen _ _ _ Hw) in Ep.
    done.
Qed.

(** The parent waits, every child is free or waits for its client and, if there is one
    that is free, no client waits. *)
Definition at_rest k : Prop := token k = 0%nat \/ (token k = 1%nat /\ kept k <> []).
#[local] Instance at_rest_dec k : Decision (at_rest k).
Proof. unfold at_rest. apply _. Defined.
Definition resting w : Prop :=
  ppc w = PSelect /\ Forall at_rest (kids w) /\ (Exists (fun k => token k = 0%nat) (kids w) -> queue w = []).

Lemma select_progress w : ok w -> fitting -> ppc w = PSelect -> (exists w', step w w') \/ resting w.
Proof using result_len.
  intros Hw Hfit Hpc.
  assert (forall w', p_select w = Some w' -> exists w', step w w') as Hgo.
  { intros w' E. destruct (fresh_fd (pfds w)) as (fd & H1 & H2). exists w'. eapply (step_parent _ _ _ _ fd); try done.
    unfold parent_step. by rewrite Hpc. }
  destruct (decide (Forall at_rest (kids w))) as [Hz|Hz].
  2:{ left. apply not_Forall_Exists in Hz; [|apply _]. apply Exists_exists in Hz as (k & [i Hk]%list_elem_of_lookup_1 & Hk').
      cbn in Hk'. destruct (kid_progress w i k Hw Hfit Hk) as [Hst|[?|Hkept]]; [..|done|].
      - unfold at_rest in Hk'. lia.
      - destruct (stirred_selects w i k Hw Hk Hst) as [w' E]. by eapply Hgo.
      - destruct Hk'. right. split; [|done]. destruct (kid_entry _ _ _ _ _ Hw Hk) as [ch Hc].
        pose proof (tokens client result w i ch k Hw Hc Hk). unfold kept in Hkept.
        destruct (k_at k) eqn:Hat; try by destruct Hkept. unfold token in *. rewrite Hat in *. cbn in *. lia. }
  destruct (decide (queue w = [])) as [Hq|Hq]; [by right|].
  destruct (decide (Exists (fun k => token k = 0%nat) (kids w))) as [Hn|Hn]; [|by right]. left.
  destruct (Select_ready w (listenfd w)) as [w' E]; [..|by eapply Hgo].
  - rewrite (so_master _ _ _ Hw). apply elem_of_union. left. by apply elem_of_singleton.
  - by destruct (so_maxfd _ _ _ Hw).
  - unfold readable. rewrite (so_listen _ _ _ Hw). by rewrite bool_decide_false.
  - intros _. rewrite (so_navail _ _ _ Hw). apply Exists_exists in Hn as (k & [i Hk]%list_elem_of_lookup_1 & Hk0).
    destruct (kid_entry _ _ _ _ _ Hw Hk) as [ch Hc].
    assert (0 < nidle (cptr w))%nat; [|lia]. apply (nidle_pos _ i ch Hc). apply idle_true.
    by rewrite (eo_status _ _ _ _ (so_entry _ _ _ Hw _ _ _ Hc Hk)), Hpc, Hk0.
Qed.

Lemma progress w : ok w -> fitting -> (exists w', step w w') \/ resting w.
Proof using result_len.
  intros Hw Hfit. pose proof (so_point _ _ _ Hw) as Hp. unfold point_ok in Hp.
  destruct (fresh_fd (pfds w)) as (fd & H1 & H2).
  assert (forall w', parent_step fd w = Some w' -> exists w', step w w') as Hgo.
  { intros w' E. exists w'. by eapply step_parent. }
  unfold parent_step in Hgo. destruct (ppc w) as [|r nsel|r nsel i cfd|r nsel cfd|r nsel i|] eqn:Hpc.
  - by apply select_progress.
  - left. destruct Hp as (_ & Hq & _). unfold p_accept in Hgo. destruct (queue w); [done|].
    destruct (list_find _ _) as [[i ch]|]; by eapply Hgo.
  - left. destruct Hp as [Hi _]. apply lookup_lt_is_Some in Hi as [ch Hc]. unfold p_pass in Hgo. rewrite Hc in Hgo.
    cbn [mbind option_bind] in Hgo. destruct (pfds w !! child_pipefd ch) as [[| |j| |]|]; try by eapply Hgo.
    destruct (held w (ChildEnd j)); [|by eapply Hgo]. destruct (write_fd _ _ _); by eapply Hgo.
  - left. by eapply Hgo.
  - left. destruct Hp as (_ & _ & Hn & Hs). unfold p_scan in Hgo. destruct (cptr w !! i) as [ch|] eqn:Hc; [|by eapply Hgo].
    case_bool_decide as Hr; [|by eapply Hgo].
    destruct (entry_at client result w i (child_pipefd ch) Hw) as (ch' & k & Hc' & Hk & _ & [Ep _ _ _]).
    { unfold pipes. by rewrite list_lookup_fmap, Hc. }
    simplify_eq. rewrite Ep, Hk in Hgo. cbn [mbind option_bind] in Hgo. destruct (outbox k) eqn:Eo; [|by eapply Hgo].
    rewrite (held_child client result w i k Hw Hk) in Hgo.
    destruct (Hs i (child_pipefd ch) k (le_n _)) as [?|[job Ej]]; try done.
    + unfold pipes. by rewrite list_lookup_fmap, Hc.
    + rewrite Ej in Hgo. by eapply Hgo.
  - done.
Qed.

(** ** Clients *)

(** What no step of the parent changes: the clients there are, and how many
    children. *)
Definition same_cast w w' : Prop :=
  accepted w' ++ queue w' = accepted w ++ queue w /\ length (kids w') = length (kids w).

Lemma parent_cast fd w w' : parent_step fd w = Some w' -> same_cast w w'.
Proof.
  unfold parent_step. destruct (ppc w) as [|r nsel|r nsel i cfd|r nsel cfd|r nsel i|]; [..|done].
  - unfold p_select. destruct (Select w); [|done]. by intros [= <-].
  - unfold p_accept, same_cast. destruct (queue w) as [|c q] eqn:Eq; [done|].
    destruct (list_find _ _) as [[i ch]|]; intros [= <-]; wfields; [by rewrite <- app_assoc|by rewrite Eq].
  - unfold p_pass. destruct (cptr w !! i) as [ch|]; [|done]. cbn [mbind option_bind].
    destruct (pfds w !! child_pipefd ch) as [[| |j| |]|]; try by intros [= <-].
    destruct (held w (ChildEnd j)); [|by intros [= <-]].
    destruct (write_fd _ _ _); intros [= <-]; [|done]. split; [done|]. wfields. by rewrite length_alter.
  - by intros [= <-].
  - unfold p_scan. destruct (cptr w !! i) as [ch|]; [|by intros [= <-]]. case_bool_decide; [|by intros [= <-]].
    destruct (pfds w !! child_pipefd ch) as [[| |j| |]|]; try by intros [= <-].
    destruct (kids w !! j) as [k|]; [|done]. cbn [mbind option_bind].
    destruct (outbox k); [destruct (held w (ChildEnd j)); by intros [= <-]|]. intros [= <-]. split; [done|].
    wfields. by rewrite length_insert.
Qed.

Lemma step_cast w w' : step w w' -> same_cast w w'.
Proof. intros [fd w2 _ _ Hs|j fd k1 k2 _ _ _ _]; [by eapply parent_cast|]. split; [done|]. wfields. by rewrite length_insert. Qed.

Lemma run_clients w w' : rtc step w w' -> accepted w' ++ queue w' = accepted w ++ queue w.
Proof.
  induction 1 as [|w w1 w' Hs _ IH]; [done|]. rewrite IH. by apply step_cast.
Qed.

(** A child that is free has served every client it was given. *)
Lemma free_taken k : token k = 0%nat -> taken k = (k_served k).*1.
Proof.
  intros (Ei & Ea & _)%token_zero. unfold taken, doing. rewrite Ea, Ei. cbn. by rewrite app_nil_r.
Qed.

Definition served w : list (nat * K) := kids w ≫= k_served.

Lemma at_rest_taken k : at_rest k -> taken k = (k_served k).*1 ++ kept k.
Proof.
  clear result_len. intros [Hz|[H1 Hk]].
  - rewrite (free_taken k Hz). apply token_zero in Hz as (_ & Ea & _). unfold kept. by rewrite Ea, app_nil_r.
  - unfold kept in *. unfold taken. destruct (k_at k) as [|fd| | |] eqn:Ea; try by destruct Hk.
    assert (inbox k = []) as -> by (unfold token in H1; rewrite Ea in H1; cbn in H1; destruct (inbox k); [done|cbn in H1; lia]).
    cbn [mbind list_bind]. rewrite app_nil_r. f_equal. unfold doing in *. rewrite Ea in *.
    destruct (k_fds k !! fd) as [[]|]; try by destruct Hk. cbn [conn_of] in *. rewrite filter_cons in Hk |- *.
    by destruct (decide _).
Qed.

Lemma resting_served w : ok w -> resting w -> (served w).*1 ++ (kids w ≫= kept) ≡ₚ accepted w.
Proof.
  intros Hw (Hpc & Hz & _). pose proof (so_flow _ _ _ Hw) as Hf. rewrite in_hand_none in Hf by (by rewrite Hpc).
  symmetry. etrans; [exact Hf|]. cbn [app]. unfold served. clear -Hz.
  induction Hz as [|k ks Hk _ IH]; [done|]. rewrite !bind_cons, fmap_app, (at_rest_taken k Hk), IH. solve_Permutation.
Qed.

(** Nobody has a connection open but the children that wait for their clients. *)
Definition only_kept_open w : Prop :=
  forall c fd, pfds w !! fd <> Some (Conn c) /\ Forall (fun k => k_fds k !! fd = Some (Conn c) -> c ∈ kept k) (kids w).

Lemma resting_closed w : ok w -> resting w -> only_kept_open w.
Proof.
  intros Hw (Hpc & Hz & _) c fd. split.
  - intros E. apply (so_only _ _ _ Hw) in E. by rewrite Hpc in E.
  - apply Forall_lookup. intros i k Hk E. rewrite Forall_lookup in Hz.
    pose proof (ko_only _ _ _ _ (so_kid _ _ _ Hw _ _ Hk) _ _ E) as Ho. pose proof E as E'.
    destruct (Hz _ _ Hk) as [Ht|[_ Hkept]].
    + apply token_zero in Ht as (_ & Ea & _). by rewrite Ea in Ho.
    + unfold kept, doing in *. destruct (k_at k) as [|fd'| | |]; try by destruct Hkept.
      cbn in Ho. injection Ho as ->. rewrite E in *. cbn [conn_of] in *. rewrite filter_cons in *.
      destruct (decide _); [by left|by destruct Hkept].
Qed.

Lemma all_served_well w : ok w -> Forall (served_well client result) (served w).
Proof.
  intros Hw. apply Forall_forall. intros cs [k [Hin [i Hk]%list_elem_of_lookup_1]]%list_elem_of_bind.
  pose proof (ko_served _ _ _ _ (so_kid _ _ _ Hw _ _ Hk)) as Hs. rewrite Forall_forall in Hs. by apply Hs.
Qed.

(** ** Reachable states *)

Section Reach.
Variables (lfd : Z) (ps : list (Z * Z * Z)).
Hypothesis lfd_ok : 3 <= lfd < Z.of_nat FD_SETSIZE.
Hypothesis ps_ok : pairs_ok 0 ps (start_fds lfd).
Abbreviation reach := (reach client stays result lfd ps).

Lemma reach_safe w : reach w -> safe client result w.
Proof using result_len lfd_ok ps_ok.
  induction 1 as [w Hi|w w' _ IH Hs|w c _ IH].
  - destruct (start_ok client result lfd ps lfd_ok ps_ok) as (w0 & E & Hok & _). rewrite E in Hi. injection Hi as <-. by left.
  - by eapply step_safe.
  - destruct IH as [Hw|(i & k & c' & H1 & H2 & H3 & H4 & H5)]; [left; by apply connect_ok|right]. by exists i, k, c'.
Qed.

Lemma kids_count w : reach w -> length (kids w) = length ps.
Proof using H0 lfd_ok ps_ok.
  induction 1 as [w Hi|w w' _ IH Hs|w c _ IH]; [|rewrite <- IH; clear IH|done].
  - destruct (start_ok client result lfd ps lfd_ok ps_ok) as (w0 & E & _ & Hl). rewrite E in Hi. by injection Hi as <-.
  - by apply step_cast.
Qed.

Lemma reach_run w w' : reach w -> rtc step w w' -> reach w'.
Proof. intros Hr Hs. induction Hs as [|w w1 w' H1 _ IH]; [done|]. apply IH. by eapply reach_step. Qed.

Lemma kept_stays w : Forall (fun c => stays c = true) (kids w ≫= kept).
Proof.
  apply Forall_forall. intros c (k & Hin & _)%list_elem_of_bind. unfold kept in Hin. by apply list_elem_of_filter in Hin as [? _].
Qed.

Lemma resting_queue w : resting w -> queue w <> [] -> Forall (fun k => kept k <> []) (kids w).
Proof.
  intros (_ & Hz & Hq) Hne. apply Forall_lookup. intros i k Hk. rewrite Forall_lookup in Hz.
  destruct (Hz _ _ Hk) as [Ht|[_ ?]]; [|done]. exfalso. apply Hne, Hq, Exists_exists. exists k.
  split; [by eapply list_elem_of_lookup_2|done].
Qed.

Lemma exited_dec w : (exists r, ppc w = PExit r) \/ forall r, ppc w <> PExit r.
Proof. destruct (ppc w) eqn:E; [by right..|]. left. by eexists. Qed.

(** C37: of the exits in the loop of [main] only one is ever taken: when a child has
    ended, which happens when it serves a client whose request is out of range or
    whose connection fails.  While the parent runs, [navail] is the number of
    children marked ready; no child ever has more than one connection in hand,
    on its way to it, or the byte that says it is done; [child_count] is the number
    of clients the child was given; every connection accepted is in exactly one
    place; and every client served has got what it asked for. *)
Theorem prefork_safe w :
  reach w ->
  (forall r, ppc w = PExit r -> exists i c, r = Terminated i /\ c ∈ accepted w /\ refuses client c) /\
  ((forall r, ppc w <> PExit r) ->
   navail w = Z.of_nat (nidle (cptr w)) /\
   (forall i ch k, cptr w !! i = Some ch -> kids w !! i = Some k ->
      (token k + pass_to (ppc w) i <= 1)%nat /\
      child_count ch = Z.of_nat (length (taken k) + pass_to (ppc w) i)) /\
   accepted w ≡ₚ in_hand w ++ (kids w ≫= taken) /\
   Forall (served_well client result) (served w)).
Proof using result_len lfd_ok ps_ok.
  intros Hr. destruct (reach_safe w Hr) as [Hw|(i & k & c & Hpc & _ & _ & Hc & Hrf)].
  - split; [intros r E; by apply (not_exit w r) in E|]. intros _. split_and!.
    + apply (so_navail _ _ _ Hw).
    + intros i ch k Hc Hk. split; [by eapply tokens|]. by destruct (so_entry _ _ _ Hw _ _ _ Hc Hk).
    + apply (so_flow _ _ _ Hw).
    + by apply all_served_well.
  - split; [|intros E; by apply E in Hpc]. intros r E. rewrite Hpc in E. injection E as <-. by exists i, c.
Qed.

(** C36: runs of the server, when no client connects any more and no client asks for a
    number that a long cannot hold.  They come to an end, and the end is one of two.  The
    parent waits, every client that was accepted has been served, but for those that stay
    connected and silent, each of which keeps a child for itself (and only these
    connections are still open); clients are left in the queue only if there is such a
    client for every child.  Or a child has ended and the parent with it, because of a
    client whose request is out of range or whose connection fails. *)
Theorem prefork_serves_all w :
  reach w -> fitting -> (forall r, ppc w <> PExit r) ->
  (forall n w', nsteps step n w w' -> (forall r, ppc w' <> PExit r) -> Z.of_nat n <= measure w) /\
  (forall w', rtc step w w' -> (forall w'', ~ step w' w'') ->
     (ppc w' = PSelect /\ (served w').*1 ++ (kids w' ≫= kept) ++ queue w' ≡ₚ accepted w ++ queue w /\
      Forall (served_well client result) (served w') /\ Forall (fun c => stays c = true) (kids w' ≫= kept) /\
      length (kids w') = length ps /\ (queue w' <> [] -> Forall (fun k => kept k <> []) (kids w')) /\
      only_kept_open w') \/
     (exists i c, ppc w' = PExit (Terminated i) /\ c ∈ accepted w ++ queue w /\ refuses client c)).
Proof using result_len lfd_ok ps_ok.
  intros Hr Hfit Hrun. destruct (reach_safe w Hr) as [Hw|(i & k & c & Hpc & _)]; [|by apply Hrun in Hpc]. split.
  - intros n w' Hn He. destruct (run_bounded n w w' Hw Hn He) as [Hw' Hb]. pose proof (measure_nonneg w' Hw'). lia.
  - intros w' Hs Hstuck. pose proof (run_clients _ _ Hs) as Hcl.
    pose proof (reach_run w w' Hr Hs) as Hr'.
    destruct (reach_safe w' Hr') as [Hw'|(i & k & c & Hpc & _ & _ & Hc & Hrf)].
    + left. destruct (progress w' Hw' Hfit) as [[w'' E]|Hrest]; [by apply Hstuck in E|].
      split_and!; [apply Hrest| |by apply all_served_well|by apply kept_stays|by apply kids_count| |by apply resting_closed].
      * rewrite <- Hcl, app_assoc. apply Permutation_app_tail. by apply resting_served.
      * by apply resting_queue.
    + right. exists i, c. split_and!; try done. rewrite <- Hcl. apply elem_of_app. by left.
Qed.

(** One client can stop the server: once a client has connected whose request is
    out of range, and if no client stays connected for ever, no run goes on for ever or
    ends without the parent having exited. *)
Theorem bad_request_stops_server w c :
  reach w -> ps <> [] -> fitting -> (forall c, stays c = false) -> c ∈ accepted w ++ queue w ->
  (asked (pending (client c))).2 = BadRequest ->
  forall n w', nsteps step n w w' -> measure w < Z.of_nat n \/ (forall w'', ~ step w' w'') ->
  exists r, ppc w' = PExit r.
Proof using H0 result_len lfd_ok ps_ok.
  intros Hr Hps Hfit Hst Hc Hbad n w' Hn Hend.
  destruct (reach_safe w Hr) as [Hw|(i & k & c' & Hpc & _)]; [|eapply stopped_steps; [by eexists|done]].
  destruct (exited_dec w') as [|He]; [done|]. exfalso.
  destruct (run_bounded n w w' Hw Hn He) as [Hw' Hb].
  pose proof (measure_nonneg w' Hw'). destruct Hend as [?|Hstuck]; [lia|].
  destruct (progress w' Hw' Hfit) as [[w'' E]|Hrest]; [by apply Hstuck in E|].
  assert (rtc step w w') as Hs by (apply rtc_nsteps; by exists n).
  assert (forall k, kept k = []) as Hnone.
  { intros k. destruct (kept k) as [|c0 l] eqn:E; [done|]. assert (c0 ∈ kept k) as Hin by (rewrite E; by left).
    unfold kept in Hin. apply list_elem_of_filter in Hin as [Ht _]. by rewrite Hst in Ht. }
  assert (queue w' = []) as Hq.
  { destruct (decide (queue w' = [])) as [|Hne]; [done|]. pose proof (resting_queue w' Hrest Hne) as Hall.
    pose proof (kids_count w' (reach_run w w' Hr Hs)) as Hl. destruct (kids w') as [|k ks]; [by destruct ps|].
    apply Forall_cons in Hall as [Hk _]. by destruct (Hk (Hnone k)). }
  rewrite <- (run_clients _ _ Hs), Hq, app_nil_r, <- (resting_served w' Hw' Hrest) in Hc.
  apply elem_of_app in Hc as [Hc|(k & Hin & _)%list_elem_of_bind]; [|rewrite Hnone in Hin; by apply elem_of_nil in Hin].
  apply list_elem_of_fmap in Hc as ([c0 s] & -> & Hin). pose proof (all_served_well w' Hw') as Hsw.
  rewrite Forall_forall in Hsw. destruct (Hsw _ Hin) as [Hg _]. cbn [fst] in Hbad, Hg. congruence.
Qed.
End Reach.
End Live.

(** ** A server with two children *)

(** Client 7 asks for nothing, the others for three bytes and then two; client 9 then
    stays connected. *)
Definition demo_client (c : nat) : script :=
  if (c =? 7)%nat then Script (chars "0" ++ [NL]) [] []
  else Script (chars "3" ++ [NL] ++ chars "2" ++ [NL]) [] [Chunk 1; Signal].
Definition demo_stays (c : nat) : bool := (c =? 9)%nat.
Definition demo_result : buf := replicate (Z.to_nat MAXN) "x"%char.
Definition demo_pairs : list (Z * Z * Z) := [(4, 5, 100); (5, 6, 101)].
Definition demo_start : world script :=
  match serv_init 3 demo_pairs with Def w => w | Bad _ => World 0 ∅ 0 [] 0 PSelect ∅ [] [] [] end.

Lemma demo_result_len : Z.of_nat (length demo_result) = MAXN.
Proof. unfold demo_result. by rewrite length_replicate, Z2Nat.id. Qed.
Lemma demo_pairs_ok : pairs_ok 0 demo_pairs (start_fds 3).
Proof. cbn. repeat split; by vm_compute. Qed.
Lemma demo_lfd_ok : 3 <= 3 < Z.of_nat FD_SETSIZE.
Proof. by vm_compute. Qed.
Lemma demo_prefork_reach stays : reach demo_client stays demo_result 3 demo_pairs demo_start.
Proof. apply reach_start. by vm_compute. Qed.
Lemma demo_fitting : fitting demo_client.
Proof. intros c. unfold demo_client. by destruct (c =? 7)%nat; vm_compute. Qed.

Lemma prefork_safe_witness :
  reach demo_client demo_stays demo_result 3 demo_pairs (connect 0 demo_start) /\ navail (connect 0 demo_start) = 2.
Proof.
  assert (reach demo_client demo_stays demo_result 3 demo_pairs (connect 0 demo_start)) as Hr by (apply reach_connect, demo_prefork_reach).
  split; [done|]. destruct (prefork_safe demo_client demo_stays demo_result demo_result_len 3 demo_pairs demo_lfd_ok demo_pairs_ok _ Hr)
    as [_ Hs]. destruct Hs as [-> _]; [done|]. by vm_compute.
Defined.

Lemma prefork_serves_all_witness :
  reach demo_client demo_stays demo_result 3 demo_pairs (connect 9 (connect 2 demo_start)) /\
  (forall w', rtc (step demo_client demo_stays demo_result) (connect 9 (connect 2 demo_start)) w' ->
    (forall w'', ~ step demo_client demo_stays demo_result w' w'') ->
    (served w').*1 ++ (kids w' ≫= kept demo_stays) ++ queue w' ≡ₚ [2; 9]%nat \/ exists i, ppc w' = PExit (Terminated i)).
Proof.
  assert (reach demo_client demo_stays demo_result 3 demo_pairs (connect 9 (connect 2 demo_start))) as Hr
    by (do 2 apply reach_connect; apply demo_prefork_reach).
  split; [exact Hr|]. intros w' Hs Hstuck.
  destruct (prefork_serves_all demo_client demo_stays demo_result demo_result_len 3 demo_pairs demo_lfd_ok demo_pairs_ok
              (connect 9 (connect 2 demo_start)) Hr) as [_ He].
  - apply demo_fitting.
  - done.
  - destruct (He w' Hs Hstuck) as [(_ & Hp & _)|(i & c & Hx & _)]; [by left|right]. by exists i.
Defined.

Lemma bad_request_stops_server_witness :
  forall n w', nsteps (step demo_client (fun _ => false) demo_result) n (connect 7 demo_start) w' -> measure (connect 7 demo_start) < Z.of_nat n ->
  exists r, ppc w' = PExit r.
Proof.
  intros n w' Hn Hlong.
  apply (bad_request_stops_server demo_client (fun _ => false) demo_result demo_result_len 3 demo_pairs demo_lfd_ok demo_pairs_ok
           (connect 7 demo_start) 7) with (n := n).
  - apply reach_connect, demo_prefork_reach.
  - done.
  - apply demo_fitting.
  - done.
  - by vm_compute; left.
  - by vm_compute.
  - done.
  - by left.
Defined.

(** A scheduler, for evaluation: the parent if it can run, else the first child
    that can; new descriptors count up from [fd]. *)
Fixpoint first_child (fd : Z) (w : world script) (todo : list nat) : option (world script) :=
  match todo with
  | [] => None
  | i :: todo' =>
      match (k ← kids w !! i; child_main demo_client demo_stays demo_result i fd w k) with
      | Some k' => Some (set_kids (<[i := k']> (kids w)) w)
      | None => first_child fd w todo'
      end
  end.
Fixpoint drive (fuel : nat) (fd : Z) (w : world script) : world script :=
  match fuel with
  | O => w
  | S f =>
      match parent_step fd w with
      | Some w' => drive f (fd + 1) w'
      | None => match first_child fd w (seq 0 (length (kids w))) with
                | Some w' => drive f (fd + 1) w'
                | None => w
                end
      end
  end.

(** Three clients, two children: all served, each with five bytes. *)
Example three_clients_served :
  let w := drive 60 10 (connect 2 (connect 1 (connect 0 demo_start))) in
  ppc w = PSelect /\ navail w = 2 /\ (child_count <$> cptr w) = [2; 1] /\
  (served w).*1 = [0; 2; 1]%nat /\ Forall (fun cs => cs.2.(sc_out) = chars "xxxxx") (served w).
Proof. vm_compute. repeat split. by repeat constructor. Qed.

(** A client that asks for nothing, and nobody is served any more. *)
Example bad_client_stops :
  let w := drive 60 10 (connect 2 (connect 7 demo_start)) in
  ppc w = PExit (Terminated 0) /\ accepted w = [7; 2]%nat.
Proof. vm_compute. by split. Qed.

(** A client that stays keeps one child; the other child serves the rest. *)
Example silent_client_keeps_child :
  let w := drive 80 10 (connect 2 (connect 1 (connect 9 demo_start))) in
  ppc w = PSelect /\ navail w = 1 /\ (served w).*1 = [1; 2]%nat /\ kids w ≫= kept demo_stays = [9]%nat.
Proof. vm_compute. by repeat split. Qed.
