(* ===== verification/Ring.v ===== *)
(** * Queues in an array

    An array used in a circle, with an index for the next element to take and one
    for the next to put, as sigio/dgecho01.c and server/serv08.c of the Stevens
    library keep their queues. *)

From S2P Require Import Prelude.

(** [if (++i == size) i = 0]. *)
Definition ring_next (size i : nat) : nat := if (S i =? size)%nat then 0%nat else S i.

Section Ring.
Context {A : Type} `{!Inhabited A} (size : nat).
Hypothesis Hsize : (0 < size)%nat.
Implicit Types (arr : list A) (i n : nat).

(** The [n] elements from index [i] on. *)
Definition slots arr i n : list A := (fun k => arr !!! ((i + k) mod size)%nat) <$> seq 0 n.

Lemma ring_next_mod i : (i < size)%nat -> ring_next size i = (S i mod size)%nat.
Proof using Hsize.
  intros Hi. unfold ring_next. destruct (Nat.eqb_spec (S i) size) as [->|Hne].
  - symmetry. apply Nat.mod_same. lia.
  - symmetry. apply Nat.mod_small. lia.
Qed.

Lemma ring_next_lt i : (i < size)%nat -> (ring_next size i < size)%nat.
Proof using Hsize. intros Hi. rewrite ring_next_mod by done. apply Nat.mod_upper_bound. lia. Qed.

Lemma length_slots arr i n : length (slots arr i n) = n.
Proof using Type. unfold slots. by rewrite length_fmap, length_seq. Qed.

(** The place after [n] elements. *)
Definition place i n : nat := ((i + n) mod size)%nat.

Lemma place_lt i n : (place i n < size)%nat.
Proof using Hsize. apply Nat.mod_upper_bound. lia. Qed.

Lemma place_0 i : (i < size)%nat -> place i 0 = i.
Proof using Hsize. intros Hi. unfold place. rewrite Nat.add_0_r. by apply Nat.mod_small. Qed.

Lemma place_S i n : ring_next size (place i n) = place i (S n).
Proof using Hsize.
  rewrite ring_next_mod by apply place_lt. unfold place.
  replace (i + S n)%nat with (S (i + n)) by lia.
  rewrite <- (Nat.add_1_l (_ mod _)), <- (Nat.add_1_l (i + n)).
  by rewrite Nat.Div0.add_mod_idemp_r.
Qed.

Lemma place_next i n : (i < size)%nat -> place (ring_next size i) n = place i (S n).
Proof using Hsize.
  intros Hi. rewrite ring_next_mod by done. unfold place. rewrite Nat.Div0.add_mod_idemp_l. f_equal. lia.
Qed.

(** Distinct places of the first [size] elements. *)
Lemma place_inj i k n : (k < size)%nat -> (n < size)%nat -> place i k = place i n -> k = n.
Proof using Hsize.
  unfold place. intros Hk Hn E.
  pose proof (Nat.div_mod_eq (i + k) size) as H1. pose proof (Nat.div_mod_eq (i + n) size) as H2.
  rewrite E in H1. assert ((i + k) / size = (i + n) / size)%nat as Hq; [|nia].
  nia.
Qed.

(** Taking the first element. *)
Lemma slots_pop arr i n :
  (i < size)%nat -> slots arr i (S n) = arr !!! i :: slots arr (ring_next size i) n.
Proof using Hsize.
  intros Hi. unfold slots. cbn [seq fmap list_fmap]. f_equal.
  - by rewrite Nat.add_0_r, Nat.mod_small.
  - rewrite <- seq_shift. change (map S (seq 0 n)) with (S <$> seq 0 n).
    rewrite <- list_fmap_compose. apply list_fmap_ext. intros _ k _. cbn.
    f_equal. exact (eq_sym (place_next i k Hi)).
Qed.

(** Writing to the place after the elements leaves them alone. *)
Lemma slots_free arr i n x : (n < size)%nat -> slots (<[place i n := x]> arr) i n = slots arr i n.
Proof using Hsize.
  intros Hn. apply list_fmap_ext. intros _ k Hk%list_elem_of_lookup_2%elem_of_seq.
  change ((i + k) mod size)%nat with (place i k). rewrite list_lookup_total_insert_ne; [done|].
  intros E. apply place_inj in E; lia.
Qed.

(** Putting one more, as long as there is room. *)
Lemma slots_push arr i n x :
  length arr = size -> (n < size)%nat -> slots (<[place i n := x]> arr) i (S n) = slots arr i n ++ [x].
Proof using Hsize.
  intros Hl Hn. rewrite <- (slots_free arr i n x Hn). unfold slots. rewrite seq_S, fmap_app. f_equal.
  cbn. f_equal. apply list_lookup_total_insert_eq. rewrite Hl. apply place_lt.
Qed.
End Ring.
