(* ===== verification/SigIO.v ===== *)
(** * A datagram server driven by signals

    Stevens/unpv13e/sigio/dgecho01.c: the handler of SIGIO reads every datagram
    that has arrived into a queue of eight, and the main loop sends them back,
    blocking the signal around its accesses to the counter.  The signal can
    interrupt the main loop at any point where it is not blocked. *)

From S2P Require Import Prelude CLib Ring.

Definition QSIZE : nat := 8.
Definition MAXDG : nat := 4096.

(** A datagram with its sender's address; what the next [recvfrom] has to give. *)
Record udp := Udp { u_data : buf; u_from : buf }.
Inductive recvd := Datagram (d : udp) | RecvError.

#[export] Instance udp_eq_dec : EqDecision udp.
Proof. solve_decision. Defined.

#[export] Instance recvd_eq_dec : EqDecision recvd.
Proof. solve_decision. Defined.

(** An entry of the queue: buffers and the lengths used of them. *)
Record DG := mkDG { dg_data : buf; dg_len : nat; dg_sa : buf; dg_salen : nat }.
#[export] Instance DG_inhabited : Inhabited DG := populate (mkDG [] 0 [] 0).

(** The static variables. *)
Record echo := Echo {
  dg : list DG;
  cntread : list Z;
  iget : nat;
  iput : nat;
  nqueue : nat;
  clilen : nat;
}.

Definition echo_init (len : nat) : echo :=
  Echo (replicate QSIZE (mkDG (replicate MAXDG NUL) 0 (replicate len NUL) len))
       (replicate (S QSIZE) 0) 0 0 0 len.

(** Bytes written at the start of a buffer. *)
Definition overwrite (old new : buf) : buf := new ++ drop (length new) old.

Section Handler.
Implicit Types s : echo.

(** [recvfrom] into an entry: at most [MAXDG] bytes, the rest is cut off. *)
Definition fill (g : DG) (len : nat) (d : udp) : DG :=
  let data := take MAXDG (u_data d) in
  mkDG (overwrite (dg_data g) data) (length data)
       (overwrite (dg_sa g) (take len (u_from d))) (length (u_from d)).

Definition put (g : DG) s : echo :=
  Echo (<[iput s := g]> (dg s)) (cntread s) (iget s) (ring_next QSIZE (iput s)) (S (nqueue s)) (clilen s).

(** The handler: reads until [recvfrom] would block; [q] is what has arrived. *)
Fixpoint sig_io_loop (q : list recvd) (nread : nat) : M echo unit :=
  s ← get;
  if (QSIZE <=? nqueue s)%nat then abort_with ErrExit else
  ptr ← follow (dg s !! iput s);
  match q with
  | [] =>
      let g := mkDG (dg_data ptr) (dg_len ptr) (dg_sa ptr) (clilen s) in
      n ← follow (cntread s !! nread);
      modify (fun s => Echo (<[iput s := g]> (dg s)) (<[nread := n + 1]> (cntread s)) (iget s) (iput s)
                            (nqueue s) (clilen s))
  | RecvError :: _ => abort_with ErrExit
  | Datagram d :: q' => modify (put (fill ptr (clilen s) d));; sig_io_loop q' (S nread)
  end.

Definition sig_io (q : list recvd) : M echo unit := sig_io_loop q 0.
End Handler.

(** ** The process and its socket *)

(** Where the main loop is: before the test of [nqueue], in [sigsuspend], before
    [Sendto], before [++iget], before blocking the signal, before [nqueue--]. *)
Inductive pc := Check | Suspended | Send | Advance | Block | Decrement.

#[export] Instance pc_eq_dec : EqDecision pc.
Proof. solve_decision. Defined.

(** [sock]: what has arrived and was not read; [pending]: SIGIO was raised and
    not handled; [sent], [came]: what was sent and what arrived, so far. *)
Record proc := Proc {
  prog : echo;
  at_pc : pc;
  sock : list recvd;
  pending : bool;
  sent : list udp;
  came : list udp;
}.

Definition proc_init (len : nat) : proc := Proc (echo_init len) Check [] false [] [].

Definition goto (p : pc) (x : proc) : proc :=
  Proc (prog x) p (sock x) (pending x) (sent x) (came x).

(** What [Sendto] sends of an entry. *)
Definition content (g : DG) : udp := Udp (take (dg_len g) (dg_data g)) (take (dg_salen g) (dg_sa g)).

(** One statement of the loop of [dg_echo]. *)
Definition main_turn : M proc unit :=
  x ← get;
  let s := prog x in
  match at_pc x with
  | Check => modify (goto (if (nqueue s =? 0)%nat then Suspended else Send))
  | Suspended => mret tt
  | Send =>
      g ← follow (dg s !! iget s);
      modify (fun x => Proc s Advance (sock x) (pending x) (sent x ++ [content g]) (came x))
  | Advance =>
      modify (fun x => Proc (Echo (dg s) (cntread s) (ring_next QSIZE (iget s)) (iput s) (nqueue s) (clilen s))
                            Block (sock x) (pending x) (sent x) (came x))
  | Block => modify (goto Decrement)
  | Decrement =>
      modify (fun x => Proc (Echo (dg s) (cntread s) (iget s) (iput s) (nqueue s - 1) (clilen s))
                            Check (sock x) (pending x) (sent x) (came x))
  end.

(** SIGIO is not blocked. *)
Definition open_pc (p : pc) : bool :=
  match p with Suspended | Send | Advance | Block => true | Check | Decrement => false end.

(** [sigsuspend] returns after the handler. *)
Definition resume (p : pc) : pc := match p with Suspended => Check | _ => p end.

(** The signal is delivered. *)
Definition on_sigio : M proc unit := fun x =>
  match sig_io (sock x) (prog x) with
  | Ok _ s => Ok tt (Proc s (resume (at_pc x)) [] false (sent x) (came x))
  | Aborted w => Aborted w
  | Undef u => Undef u
  end.

(** A datagram arrives, as long as the server can read it: cut to [MAXDG]. *)
Definition arrive (r : recvd) (x : proc) : proc :=
  Proc (prog x) (at_pc x) (sock x ++ [r]) true (sent x)
       (came x ++ match r with Datagram d => [Udp (take MAXDG (u_data d)) (u_from d)] | RecvError => [] end).

Inductive reach (len : nat) : proc -> Prop :=
  | reach_init : reach len (proc_init len)
  | reach_main x x' : reach len x -> main_turn x = Ok tt x' -> reach len x'
  | reach_sigio x x' :
      reach len x -> pending x = true -> open_pc (at_pc x) = true -> on_sigio x = Ok tt x' -> reach len x'
  | reach_wake x : reach len x -> at_pc x = Suspended -> reach len (goto Check x)
  | reach_arrive x r :
      reach len x -> (forall d, r = Datagram d -> (length (u_from d) <= len)%nat) -> reach len (arrive r x).

(** ** The invariant *)

Definition arrivals (q : list recvd) : list udp :=
  q ≫= fun r => match r with Datagram d => [Udp (take MAXDG (u_data d)) (u_from d)] | RecvError => [] end.

(** The entries not sent yet: where they start and how many they are. *)
Definition first (x : proc) : nat :=
  if decide (at_pc x = Advance) then ring_next QSIZE (iget (prog x)) else iget (prog x).
Definition count (x : proc) : nat :=
  match at_pc x with
  | Advance | Block | Decrement => nqueue (prog x) - 1
  | Check | Suspended | Send => nqueue (prog x)
  end.
Definition waiting (x : proc) : list udp := content <$> slots QSIZE (dg (prog x)) (first x) (count x).

(** [c] entries from [st] on are in use; [nqueue] may still count one that was
    sent. *)
Record echo_ok (len st c : nat) (s : echo) : Prop := {
  eo_dg : length (dg s) = QSIZE;
  eo_cnt : length (cntread s) = S QSIZE;
  eo_len : clilen s = len;
  eo_st : (st < QSIZE)%nat;
  eo_iput : iput s = place QSIZE st c;
  eo_c : (c <= nqueue s)%nat;
}.

Definition fits (len : nat) (r : recvd) : Prop :=
  match r with Datagram d => (length (u_from d) <= len)%nat | RecvError => True end.

Lemma qsize_pos : (0 < QSIZE)%nat.
Proof. unfold QSIZE. lia. Qed.
#[local] Hint Resolve qsize_pos : core.

(** One round of the handler's loop. *)
Lemma sig_io_loop_eq q nread s ptr :
  dg s !! iput s = Some ptr -> (nqueue s < QSIZE)%nat ->
  sig_io_loop q nread s =
  match q with
  | [] =>
      match cntread s !! nread with
      | Some n => Ok tt (Echo (<[iput s := mkDG (dg_data ptr) (dg_len ptr) (dg_sa ptr) (clilen s)]> (dg s))
                              (<[nread := n + 1]> (cntread s)) (iget s) (iput s) (nqueue s) (clilen s))
      | None => Undef BadPointer
      end
  | RecvError :: _ => Aborted ErrExit
  | Datagram d :: q' => sig_io_loop q' (S nread) (put (fill ptr (clilen s) d) s)
  end.
Proof.
  intros Hp Hn. destruct q as [|[d|] q]; cbn [sig_io_loop]; unfold mbind, M_bind, get;
    rewrite (proj2 (Nat.leb_gt _ _) Hn); unfold follow; rewrite Hp; [|done|done].
  by destruct (cntread s !! nread).
Qed.

Lemma echo_slot len st c s : echo_ok len st c s -> exists ptr, dg s !! iput s = Some ptr.
Proof.
  intros [Hd _ _ _ Hi _]. apply lookup_lt_is_Some. rewrite Hi, Hd. by apply place_lt.
Qed.

Lemma echo_put_ok len st c s g :
  echo_ok len st c s -> echo_ok len st (S c) (put g s).
Proof.
  intros [Hd Hc Hl Hs Hi Hn]. split; cbn; try done; [by rewrite length_insert| |lia].
  rewrite Hi. by apply place_S.
Qed.

Lemma content_fill g len d :
  (length (u_from d) <= len)%nat -> content (fill g len d) = Udp (take MAXDG (u_data d)) (u_from d).
Proof.
  intros Hl. unfold content, fill, overwrite. cbn. f_equal.
  - by rewrite take_app_length.
  - rewrite (take_ge (u_from d)) by done. by rewrite take_app_length.
Qed.

(** The handler, when there is room for everything. *)
Lemma sig_io_loop_reads len st q nread c s :
  echo_ok len st c s -> Forall (fits len) q -> RecvError ∉ q -> (nread <= nqueue s)%nat ->
  (nqueue s + length q < QSIZE)%nat ->
  exists s', sig_io_loop q nread s = Ok tt s' /\ echo_ok len st (c + length q) s' /\
    nqueue s' = (nqueue s + length q)%nat /\ iget s' = iget s /\
    content <$> slots QSIZE (dg s') st (c + length q)
      = (content <$> slots QSIZE (dg s) st c) ++ arrivals q.
Proof.
  intros Hok Hfit Hne. revert nread c s Hok.
  induction q as [|[d|] q IH]; intros nread c s Hok Hr Hn; [| |by destruct Hne; left].
  - destruct (echo_slot _ _ _ _ Hok) as [ptr Hp]. cbn [length] in *. rewrite Nat.add_0_r in Hn.
    rewrite (sig_io_loop_eq _ _ _ ptr) by done. pose proof Hok as [Hd Hc Hl Hs Hi Hcn].
    destruct (cntread s !! nread) as [n|] eqn:En; [|apply lookup_ge_None in En; lia].
    eexists. split; [reflexivity|]. rewrite !Nat.add_0_r. cbn. split_and!; try done.
    + split; cbn; try done; by rewrite length_insert.
    + rewrite app_nil_r, Hi. f_equal. apply slots_free; [done|lia].
  - apply Forall_cons in Hfit as [Hd Hfit]. destruct (echo_slot _ _ _ _ Hok) as [ptr Hp].
    cbn [length] in Hn. rewrite (sig_io_loop_eq _ _ _ ptr) by (done || lia).
    rewrite (eo_len _ _ _ _ Hok).
    destruct (IH Hfit ltac:(intros H; apply Hne; by right) (S nread) (S c) (put (fill ptr len d) s))
      as (s' & Hs' & Hok' & Hn' & Hi' & Hq'); [by apply echo_put_ok|cbn; lia|cbn; lia|].
    exists s'. split; [done|]. cbn [length]. rewrite !Nat.add_succ_r. split; [done|].
    split; [rewrite Hn'; cbn; lia|]. split; [done|]. rewrite Nat.add_succ_l in Hq'. rewrite Hq'. cbn [put dg].
    rewrite (eo_iput _ _ _ _ Hok), slots_push;
      [|done|apply (eo_dg _ _ _ _ Hok)|pose proof (eo_c _ _ _ _ Hok); lia].
    rewrite fmap_app, <- app_assoc. cbn. by rewrite content_fill.
Qed.

(** It ends the process when the queue becomes full, even if nothing more has
    arrived. *)
Lemma sig_io_loop_quits len st q nread c s :
  echo_ok len st c s -> RecvError ∈ q \/ (QSIZE <= nqueue s + length q)%nat ->
  sig_io_loop q nread s = Aborted ErrExit.
Proof.
  revert nread c s. induction q as [|r q IH]; intros nread c s Hok Hor;
    (destruct (decide (QSIZE <= nqueue s)%nat) as [Hf|Hf];
     [cbn [sig_io_loop]; unfold mbind, M_bind, get; by rewrite (proj2 (Nat.leb_le _ _) Hf)|]).
  - exfalso. destruct Hor as [H|H]; [by apply elem_of_nil in H|cbn in H; lia].
  - destruct (echo_slot _ _ _ _ Hok) as [ptr Hp]. rewrite (sig_io_loop_eq _ _ _ ptr) by (done || lia).
    destruct r as [d|]; [|done]. apply (IH _ (S c)); [by apply echo_put_ok|].
    destruct Hor as [H|H]; [apply elem_of_cons in H as [H|H]; [done|by left]|right; cbn in *; lia].
Qed.

Record proc_ok (len : nat) (x : proc) : Prop := {
  po_echo : echo_ok len (first x) (count x) (prog x);
  po_iget : (iget (prog x) < QSIZE)%nat;
  po_room : (nqueue (prog x) < QSIZE)%nat;
  po_busy : match at_pc x with Check | Suspended => True | _ => (0 < nqueue (prog x))%nat end;
  po_flow : came x = sent x ++ waiting x ++ arrivals (sock x);
  po_pending : sock x <> [] -> pending x = true;
  po_fits : Forall (fits len) (sock x);
}.

Lemma proc_init_ok len : proc_ok len (proc_init len).
Proof. by split. Qed.

(** Leaving a point of the program for one with the same entries in use. *)
Lemma goto_ok len x p :
  proc_ok len x -> first (goto p x) = first x -> count (goto p x) = count x ->
  match p with Check | Suspended => True | _ => (0 < nqueue (prog x))%nat end ->
  proc_ok len (goto p x).
Proof.
  intros [He Hi Hr Hb Hf Hp Hs] E1 E2 Hp'. split; try done.
  - by rewrite E1, E2.
  - cbn. rewrite Hf. unfold waiting. by rewrite E1, E2.
Qed.

(** The statements of the main loop. *)
Lemma main_turn_ok len x : proc_ok len x -> exists x', main_turn x = Ok tt x' /\ proc_ok len x'.
Proof.
  intros Hok. pose proof Hok as [He Hi Hr Hb Hf Hp Hs]. destruct x as [s p q pd st cm].
  unfold main_turn, mbind, M_bind, get, modify. unfold first, count, waiting in He, Hf.
  cbn [prog at_pc sock pending sent came] in *.
  destruct p; try (eexists; split; [reflexivity|]).
  - destruct (Nat.eqb_spec (nqueue s) 0); apply goto_ok; try done. cbn. lia.
  - done.
  - destruct (dg s !! iget s) as [g|] eqn:Eg; [|apply lookup_ge_None in Eg; rewrite (eo_dg _ _ _ _ He) in Eg; lia].
    unfold follow. eexists. split; [reflexivity|].
    unfold first, count in *. cbn [at_pc prog] in *. destruct (nqueue s) as [|n] eqn:En; [lia|].
    split; unfold waiting, first, count; cbn [prog at_pc sock pending sent came]; rewrite ?En; try done;
      cbn [Nat.sub]; rewrite ?Nat.sub_0_r; rewrite decide_True by done.
    + destruct He as [H1 H2 H3 H4 H5 H6]. split; try done; [by apply ring_next_lt| |lia].
      by rewrite H5, <- place_next.
    + rewrite Hf. rewrite decide_False by done. rewrite slots_pop by done. rewrite fmap_cons.
      rewrite (list_lookup_total_correct _ _ _ Eg), <- !app_assoc. done.
  - split; unfold waiting, first, count in *; cbn [prog at_pc sock pending sent came] in *; try done.
    + destruct He as [H1 H2 H3 H4 H5 H6]. by split.
    + by apply ring_next_lt.
  - by apply goto_ok.
  - split; unfold waiting, first, count in *; cbn [prog at_pc sock pending sent came nqueue] in *; try done; [|lia].
    destruct He as [H1 H2 H3 H4 H5 H6]. by split.
Qed.

Lemma on_sigio_reads len x :
  proc_ok len x -> open_pc (at_pc x) = true -> RecvError ∉ sock x ->
  (nqueue (prog x) + length (sock x) < QSIZE)%nat ->
  exists x', on_sigio x = Ok tt x' /\ proc_ok len x' /\ sock x' = [].
Proof.
  intros Hok Ho Hne Hn. pose proof Hok as [He Hi Hr Hb Hf Hp Hs].
  destruct (sig_io_loop_reads len _ (sock x) 0 _ _ He Hs Hne ltac:(lia) Hn) as (s' & E & He' & Hn' & Hi' & Hq').
  unfold on_sigio, sig_io. rewrite E. eexists. split; [reflexivity|]. split; [|done].
  set (p' := resume (at_pc x)).
  set (x' := Proc s' p' [] false (sent x) (came x)).
  assert (first x' = first x) as E1.
  { unfold first, x', p'. cbn. rewrite Hi'. by destruct (at_pc x). }
  assert (count x' = (count x + length (sock x))%nat) as E2.
  { unfold count, x', p'. cbn. rewrite Hn'. revert Hb Ho. destruct (at_pc x); cbn; intros; (done || lia). }
  split; try done; unfold x'; cbn; fold x'.
  - by rewrite E1, E2.
  - by rewrite Hi'.
  - lia.
  - unfold p'. revert Hb Ho. destruct (at_pc x); cbn; intros; (done || lia).
  - rewrite Hf. unfold waiting. rewrite E1, E2. cbn [prog x']. rewrite Hq'. unfold arrivals at 2. cbn.
    by rewrite app_nil_r.
Qed.

(** What ends the process in the handler. *)
Definition overflows (x : proc) : Prop :=
  RecvError ∈ sock x \/ (QSIZE <= nqueue (prog x) + length (sock x))%nat.
#[export] Instance overflows_dec x : Decision (overflows x).
Proof. unfold overflows. apply _. Defined.

Lemma on_sigio_quits len x : proc_ok len x -> overflows x -> on_sigio x = Aborted ErrExit.
Proof.
  intros Hok Hov. unfold on_sigio, sig_io.
  by rewrite (sig_io_loop_quits len _ _ _ _ _ (po_echo _ _ Hok) Hov).
Qed.

Lemma on_sigio_ok len x :
  proc_ok len x -> open_pc (at_pc x) = true -> ~ overflows x ->
  exists x', on_sigio x = Ok tt x' /\ proc_ok len x' /\ sock x' = [].
Proof.
  intros Hok Ho Hno. apply on_sigio_reads; [done|done|intros H; apply Hno; by left|].
  destruct (decide (QSIZE <= nqueue (prog x) + length (sock x))%nat); [by destruct Hno; right|lia].
Qed.

Lemma arrive_ok len r x : proc_ok len x -> fits len r -> proc_ok len (arrive r x).
Proof.
  intros [He Hi Hr Hb Hf Hp Hs] Hfit. split; try done.
  - unfold arrive. cbn [came sent sock]. rewrite Hf. unfold waiting, first, count, arrivals.
    cbn [at_pc prog]. rewrite bind_app. cbn. rewrite app_nil_r, <- !app_assoc. done.
  - apply Forall_app. by split; [|apply Forall_singleton].
Qed.

Lemma echo_reach_ok len x : reach len x -> proc_ok len x.
Proof.
  induction 1 as [|x x' _ IH E|x x' _ IH Hp Ho E|x _ IH E|x r _ IH Hf].
  - apply proc_init_ok.
  - destruct (main_turn_ok len x IH) as (x1 & E1 & H1). congruence.
  - destruct (decide (overflows x)) as [Hov|Hov]; [by rewrite (on_sigio_quits len) in E|].
    destruct (on_sigio_ok len x IH Ho Hov) as (x1 & E1 & H1 & _). congruence.
  - apply goto_ok; [done| | |done]; unfold first, count; cbn; by rewrite E.
  - apply arrive_ok; [done|]. destruct r as [d|]; [by apply Hf|done].
Qed.

(** ** Properties *)

(** C38: the server driven by signals, wherever the signal interrupts the main loop.
    The datagrams are sent back in the order in which they came: those sent, those
    in the queue and those not read yet are all that came.  Nothing is stuck: if a
    datagram is not read, the signal is pending, so [sigsuspend] returns.  The
    main loop never leaves the arrays, and the handler reads everything that has
    arrived unless the queue gets full or the socket reports an error, which ends
    the process. *)
Theorem dg_echo_fifo len x :
  reach len x ->
  came x = sent x ++ waiting x ++ arrivals (sock x) /\
  (sock x <> [] -> pending x = true) /\
  (exists x', main_turn x = Ok tt x') /\
  (open_pc (at_pc x) = true ->
   if decide (overflows x) then on_sigio x = Aborted ErrExit
   else exists x', on_sigio x = Ok tt x' /\ sock x' = []).
Proof.
  intros Hr. pose proof (echo_reach_ok _ _ Hr) as Hok. split_and!.
  - apply (po_flow _ _ Hok).
  - apply (po_pending _ _ Hok).
  - destruct (main_turn_ok len x Hok) as (x' & E & _). by exists x'.
  - intros Ho. destruct (decide (overflows x)) as [Hov|Hov]; [by eapply on_sigio_quits|].
    destruct (on_sigio_ok len x Hok Ho Hov) as (x' & E & _ & Hs). by exists x'.
Qed.

(** *** A datagram comes and goes *)

Definition hello_dg : udp := Udp (chars "hello") (chars "client").
Definition echo_run (x : proc) : option proc :=
  match on_sigio (arrive (Datagram hello_dg) x) with
  | Ok _ x1 =>
      match (main_turn ;; main_turn ;; main_turn ;; main_turn ;; main_turn ;; main_turn) x1 with
      | Ok _ x2 => Some x2
      | _ => None
      end
  | _ => None
  end.

(** The datagram is sent back, and the server waits again. *)
Example echo_run_sends :
  (fun x => (sent x, at_pc x, nqueue (prog x))) <$> echo_run (goto Suspended (proc_init 16))
  = Some ([hello_dg], Suspended, 0%nat).
Proof. vm_compute. reflexivity. Qed.

(** The queue of eight holds seven: the handler tests for room before it knows
    whether anything is left to read, and ends the process. *)
Example eight_datagrams_quit :
  on_sigio (Nat.iter 8 (arrive (Datagram hello_dg)) (goto Suspended (proc_init 16))) = Aborted ErrExit /\
  (exists x, on_sigio (Nat.iter 7 (arrive (Datagram hello_dg)) (goto Suspended (proc_init 16))) = Ok tt x).
Proof. split; [vm_compute; reflexivity|]. eexists. vm_compute. reflexivity. Qed.

Lemma dg_echo_fifo_witness :
  exists x, reach 16 x /\ at_pc x = Suspended /\ sock x = [Datagram hello_dg] /\
    came x = sent x ++ waiting x ++ arrivals (sock x) /\
    (open_pc (at_pc x) = true ->
     if decide (overflows x) then on_sigio x = Aborted ErrExit
     else exists x', on_sigio x = Ok tt x' /\ sock x' = []).
Proof.
  exists (arrive (Datagram hello_dg) (goto Suspended (proc_init 16))).
  assert (reach 16 (arrive (Datagram hello_dg) (goto Suspended (proc_init 16)))) as Hr.
  { apply reach_arrive; [|intros d [= <-]; apply Nat.leb_le; reflexivity].
    apply (reach_main _ (proc_init 16)); [constructor|reflexivity]. }
  destruct (dg_echo_fifo 16 _ Hr) as (H1 & _ & _ & H2). split; [exact Hr|]. split; [reflexivity|].
  split; [reflexivity|]. split; [exact H1|exact H2].
Defined.
