(* ===== verification/Pool.v ===== *)
(** * A pool of threads

    Stevens/unpv13e/server/serv08.c and pthread08.c: the main thread accepts
    connections and puts their descriptors in an array used in a circle; a fixed
    number of threads takes them out.  A mutex protects the array, a condition
    variable tells the threads that there is something in it.  The threads run
    interleaved in any way; a thread in [Pthread_cond_wait] may also wake without
    a signal. *)

From S2P Require Import Prelude Ring.

Definition MAXNCLI : nat := 32.

(** The main thread: in [Accept]; before locking the mutex; before putting the
    descriptor; before signalling; before unlocking. *)
Inductive mpc := MAccept | MLock (fd : Z) | MPut (fd : Z) | MSignal | MUnlock.

(** A thread of the pool: before locking; before the test of the loop; waiting for
    the condition; signalled, before locking again; before unlocking with a
    descriptor in hand; before counting it; in [web_child] with it. *)
Inductive tpc := TLock | TCheck | TWait | TWoken | TUnlock (fd : Z) | TCount (fd : Z) | TServe (fd : Z).

#[export] Instance tpc_eq_dec : EqDecision tpc.
Proof. solve_decision. Defined.

(** The shared variables, the points the threads are at, and, in order, the
    descriptors accepted and the ones handed out with the thread that got each.
    The mutex is held by nobody, the main thread or a thread. *)
Inductive holder := Nobody | Main | Thread (i : nat).

Record pool := Pool {
  clifd : list Z;
  iget : nat;
  iput : nat;
  mutex : holder;
  mpc_of : mpc;
  threads : list tpc;
  thread_count : list Z;
  accepted : list Z;
  handed : list (nat * Z);
}.

Definition pool_init (nthreads : nat) : pool :=
  Pool (replicate MAXNCLI 0) 0 0 Nobody MAccept (replicate nthreads TLock) (replicate nthreads 0) [] [].

Definition set_main (h : holder) (m : mpc) (p : pool) : pool :=
  Pool (clifd p) (iget p) (iput p) h m (threads p) (thread_count p) (accepted p) (handed p).
Definition set_thread (h : holder) (i : nat) (t : tpc) (p : pool) : pool :=
  Pool (clifd p) (iget p) (iput p) h (mpc_of p) (<[i := t]> (threads p)) (thread_count p) (accepted p)
       (handed p).

(** Main, with the mutex held: [None] is [err_quit]. *)
Definition put_client (fd : Z) (p : pool) : option pool :=
  let i := ring_next MAXNCLI (iput p) in
  if (i =? iget p)%nat then None
  else Some (Pool (<[iput p := fd]> (clifd p)) (iget p) i Main MSignal (threads p) (thread_count p)
                  (accepted p) (handed p)).

(** A thread, with the mutex held: wait, or take the next descriptor. *)
Definition check_queue (i : nat) (p : pool) : pool :=
  if (iget p =? iput p)%nat then set_thread Nobody i TWait p
  else
    let fd := clifd p !!! iget p in
    Pool (clifd p) (ring_next MAXNCLI (iget p)) (iput p) (mutex p) (mpc_of p)
         (<[i := TUnlock fd]> (threads p)) (thread_count p) (accepted p) (handed p ++ [(i, fd)]).

(** [tptr[i].thread_count++]. *)
Definition count_client (i : nat) (fd : Z) (p : pool) : pool :=
  Pool (clifd p) (iget p) (iput p) (mutex p) (mpc_of p) (<[i := TServe fd]> (threads p))
       (alter (Z.add 1) i (thread_count p)) (accepted p) (handed p).

(** [Accept] returns. *)
Definition accept_client (fd : Z) (p : pool) : pool :=
  Pool (clifd p) (iget p) (iput p) (mutex p) (MLock fd) (threads p) (thread_count p) (accepted p ++ [fd])
       (handed p).

(** Steps of the process by itself. *)
Inductive step (p : pool) : pool -> Prop :=
  | m_lock fd : mpc_of p = MLock fd -> mutex p = Nobody -> step p (set_main Main (MPut fd) p)
  | m_put fd p' : mpc_of p = MPut fd -> put_client fd p = Some p' -> step p p'
  | m_signal i : mpc_of p = MSignal -> threads p !! i = Some TWait ->
      step p (set_thread (mutex p) i TWoken (set_main (mutex p) MUnlock p))
  | m_signal_none : mpc_of p = MSignal -> TWait ∉ threads p -> step p (set_main (mutex p) MUnlock p)
  | m_unlock : mpc_of p = MUnlock -> step p (set_main Nobody MAccept p)
  | t_lock i t : threads p !! i = Some t -> t = TLock \/ t = TWoken -> mutex p = Nobody ->
      step p (set_thread (Thread i) i TCheck p)
  | t_check i : threads p !! i = Some TCheck -> step p (check_queue i p)
  | t_unlock i fd : threads p !! i = Some (TUnlock fd) -> step p (set_thread Nobody i (TCount fd) p)
  | t_count i fd : threads p !! i = Some (TCount fd) -> step p (count_client i fd p).

(** Steps that need the outside: [Accept] returns; a thread wakes without a signal;
    [web_child] returns, since the client has closed, and the thread closes. *)
Inductive outside (p : pool) : pool -> Prop :=
  | o_accept fd : mpc_of p = MAccept -> outside p (accept_client fd p)
  | o_spurious i : threads p !! i = Some TWait -> outside p (set_thread (mutex p) i TWoken p)
  | o_served i fd : threads p !! i = Some (TServe fd) -> outside p (set_thread (mutex p) i TLock p).

(** The ends of the whole process: the array is full; a client has sent a bad number, or
    reading from it or writing to it has failed. A client that stays connected
    and sends nothing keeps its thread in [web_child]: nothing happens there. *)
Inductive cause := ArrayFull | BadClient (fd : Z).
Inductive quits (p : pool) : cause -> Prop :=
  | quits_full fd : mpc_of p = MPut fd -> put_client fd p = None -> quits p ArrayFull
  | quits_client i fd : threads p !! i = Some (TServe fd) -> quits p (BadClient fd).

Inductive reach (nthreads : nat) : pool -> Prop :=
  | reach_init : reach nthreads (pool_init nthreads)
  | reach_step p p' : reach nthreads p -> step p p' -> reach nthreads p'
  | reach_outside p p' : reach nthreads p -> outside p p' -> reach nthreads p'.

(** A thread that waits for the condition or for its client. *)
Definition waits (t : tpc) : Prop := match t with TWait | TServe _ => True | _ => False end.
#[export] Instance waits_dec t : Decision (waits t).
Proof. destruct t; simpl; apply _. Defined.

(** ** The invariant *)

Definition main_inside (m : mpc) : bool := match m with MPut _ | MSignal | MUnlock => true | _ => false end.
Definition inside (t : tpc) : bool := match t with TCheck | TUnlock _ => true | _ => false end.

(** On the way to the queue: signalled, or looking. *)
Definition coming (t : tpc) : bool := match t with TWoken | TCheck => true | _ => false end.
Definition ncoming (l : list tpc) : nat := length (filter (fun t => coming t = true) l).

(** Accepted and not yet in the array. *)
Definition in_hand (m : mpc) : list Z := match m with MLock fd | MPut fd => [fd] | _ => [] end.

Record pool_ok (nthreads n : nat) (p : pool) : Prop := {
  pk_arr : length (clifd p) = MAXNCLI;
  pk_iget : (iget p < MAXNCLI)%nat;
  pk_n : (n < MAXNCLI)%nat;
  pk_iput : iput p = place MAXNCLI (iget p) n;
  pk_threads : length (threads p) = nthreads;
  pk_main : main_inside (mpc_of p) = true <-> mutex p = Main;
  pk_inside : forall i t, threads p !! i = Some t -> inside t = true <-> mutex p = Thread i;
  pk_owner : forall i, mutex p = Thread i -> (i < nthreads)%nat;
  pk_flow : accepted p = (handed p).*2 ++ slots MAXNCLI (clifd p) (iget p) n ++ in_hand (mpc_of p);
  pk_wake : TWait ∈ threads p ->
    (n <= ncoming (threads p) + match mpc_of p with MSignal => 1 | _ => 0 end)%nat;
}.

(** The fields of a pool that was just built. *)
Ltac fields := cbn [clifd iget iput mutex mpc_of threads thread_count accepted handed set_main set_thread
  accept_client main_inside inside in_hand].

Lemma maxncli_pos : (0 < MAXNCLI)%nat.
Proof. unfold MAXNCLI. lia. Qed.
#[local] Hint Resolve maxncli_pos : core.

Lemma ncoming_insert (l : list tpc) (i : nat) t0 t :
  l !! i = Some t0 ->
  (ncoming (<[i := t]> l) + Nat.b2n (coming t0) = ncoming l + Nat.b2n (coming t))%nat.
Proof. apply count_insert. Qed.

(** Waiting threads after a change of thread [i]. *)
Lemma waits_before (l : list tpc) (i : nat) t : TWait ∈ <[i := t]> l -> t <> TWait -> TWait ∈ l.
Proof.
  intros [j Hj]%list_elem_of_lookup_1 Ht. apply list_lookup_insert_Some in Hj as [(-> & -> & _)|[_ Hj]]; [done|].
  by eapply list_elem_of_lookup_2.
Qed.

Lemma queue_empty N n p : pool_ok N n p -> iget p = iput p <-> n = 0%nat.
Proof.
  intros Hp. rewrite (pk_iput _ _ _ Hp). split.
  - intros E. apply (place_inj MAXNCLI maxncli_pos (iget p)); [apply (pk_n _ _ _ Hp)|done|].
    rewrite <- E. symmetry. apply place_0, (pk_iget _ _ _ Hp). done.
  - intros ->. symmetry. apply place_0, (pk_iget _ _ _ Hp). done.
Qed.

(** A thread moves, perhaps taking or releasing the mutex. *)
Lemma thread_moved N n p h i t0 t :
  pool_ok N n p -> threads p !! i = Some t0 ->
  (main_inside (mpc_of p) = true <-> h = Main) -> (inside t = true <-> h = Thread i) ->
  (forall j, j <> i -> mutex p = Thread j <-> h = Thread j) ->
  (TWait ∈ <[i := t]> (threads p) ->
   (n <= ncoming (<[i := t]> (threads p)) + match mpc_of p with MSignal => 1 | _ => 0 end)%nat) ->
  pool_ok N n (set_thread h i t p).
Proof.
  intros [H1 H2 H3 H4 H5 H6 H7 H8 H9 H10] Hi Hm Ht Hj Hw.
  assert (i < N)%nat as HiN by (rewrite <- H5; by eapply lookup_lt_Some).
  split; fields; try done.
  - by rewrite length_insert.
  - intros j u Hu. apply list_lookup_insert_Some in Hu as [(-> & -> & _)|[Hne Hu]]; [done|].
    rewrite <- Hj by done. by apply H7.
  - intros j E. destruct (decide (j = i)) as [->|Hne]; [done|]. apply H8. by apply Hj.
Qed.

(** Who does not hold the mutex is not inside. *)
Lemma nobody_inside N n p : pool_ok N n p -> mutex p = Nobody -> main_inside (mpc_of p) = false.
Proof. intros Hp E. destruct (main_inside _) eqn:Em; [|done]. by apply (pk_main _ _ _ Hp) in Em; rewrite E in Em. Qed.

(** *** The main thread *)

Lemma main_moved N n p h m :
  pool_ok N n p -> (main_inside m = true <-> h = Main) ->
  (forall j, mutex p = Thread j <-> h = Thread j) -> in_hand m = in_hand (mpc_of p) ->
  (TWait ∈ threads p -> (n <= ncoming (threads p) + match m with MSignal => 1 | _ => 0 end)%nat) ->
  pool_ok N n (set_main h m p).
Proof.
  intros [H1 H2 H3 H4 H5 H6 H7 H8 H9 H10] Hm Hj Hh Hw. split; fields; try done.
  - intros i t Hi. rewrite <- Hj. by apply H7.
  - intros i E. by apply H8, Hj.
  - by rewrite Hh.
Qed.

Lemma pool_put_ok N n p fd p' :
  pool_ok N n p -> mpc_of p = MPut fd -> put_client fd p = Some p' -> pool_ok N (S n) p'.
Proof.
  intros [H1 H2 H3 H4 H5 H6 H7 H8 H9 H10] Hm. unfold put_client.
  rewrite H4, place_S by done. destruct (Nat.eqb_spec (place MAXNCLI (iget p) (S n)) (iget p)) as [|Hne]; [done|].
  intros E%(inj Some). subst p'. rewrite Hm in *. assert (mutex p = Main) as Hmx by (by apply H6).
  assert (S n < MAXNCLI)%nat as Hn.
  { destruct (decide (S n = MAXNCLI)) as [E|]; [|lia]. destruct Hne. unfold place. rewrite E.
    rewrite <- Nat.Div0.add_mod_idemp_r, Nat.Div0.mod_same, Nat.add_0_r. by apply Nat.mod_small. }
  split; fields; try done.
  - by rewrite length_insert.
  - intros i t Hi. rewrite (H7 i t Hi), Hmx. done.
  - rewrite slots_push by done. rewrite H9, <- !app_assoc. done.
  - intros Hw. specialize (H10 Hw). lia.
Qed.

Lemma accept_ok N n p fd :
  pool_ok N n p -> mpc_of p = MAccept -> pool_ok N n (accept_client fd p).
Proof.
  intros [H1 H2 H3 H4 H5 H6 H7 H8 H9 H10] Hm. rewrite Hm in *. split; fields; try done.
  rewrite H9, app_nil_r, <- app_assoc. done.
Qed.

(** *** The threads *)

(** The wake-up condition when thread [i] stops or starts coming. *)
Lemma wake_kept N n p i t0 t :
  pool_ok N n p -> threads p !! i = Some t0 -> (coming t0 = true -> coming t = true) -> t <> TWait ->
  TWait ∈ <[i := t]> (threads p) ->
  (n <= ncoming (<[i := t]> (threads p)) + match mpc_of p with MSignal => 1 | _ => 0 end)%nat.
Proof.
  intros Hp Hi Hc Ht Hw. pose proof (pk_wake _ _ _ Hp (waits_before _ _ _ Hw Ht)) as H.
  pose proof (ncoming_insert (threads p) i t0 t Hi) as E.
  destruct (coming t0); [rewrite Hc in E by done|]; cbn in E; lia.
Qed.

Lemma check_ok N n p i :
  pool_ok N n p -> threads p !! i = Some TCheck -> exists n', pool_ok N n' (check_queue i p).
Proof.
  intros Hp Hi. assert (mutex p = Thread i) as Hmx by (by apply (pk_inside _ _ _ Hp i TCheck)).
  assert (main_inside (mpc_of p) = false) as Hmi.
  { destruct (main_inside _) eqn:E; [|done]. apply (pk_main _ _ _ Hp) in E. congruence. }
  unfold check_queue. destruct (Nat.eqb_spec (iget p) (iput p)) as [E|E].
  - apply (queue_empty _ _ _ Hp) in E as ->. exists 0%nat. apply (thread_moved _ _ _ _ _ TCheck); try done.
    + by rewrite Hmi.
    + intros j Hj. rewrite Hmx. split; [intros [= ->]; done|done].
    + intros _. lia.
  - destruct n as [|n]; [by destruct E; apply (queue_empty _ _ _ Hp)|]. exists n.
    destruct Hp as [H1 H2 H3 H4 H5 H6 H7 H8 H9 H10]. split; fields; try done.
    + by apply ring_next_lt.
    + lia.
    + by rewrite H4, place_next.
    + by rewrite length_insert.
    + intros j u Hu. apply list_lookup_insert_Some in Hu as [(<- & <- & _)|[Hne Hu]]; [by rewrite Hmx|by apply H7].
    + rewrite H9, slots_pop by done. rewrite fmap_app. cbn. by rewrite <- app_assoc.
    + intros Hw. pose proof (H10 (waits_before _ _ _ Hw ltac:(done))) as H.
      pose proof (ncoming_insert (threads p) i TCheck (TUnlock (clifd p !!! iget p)) Hi) as En. cbn in En. lia.
Qed.

Lemma count_ok N n p i fd :
  pool_ok N n p -> threads p !! i = Some (TCount fd) -> pool_ok N n (count_client i fd p).
Proof.
  intros Hp Hi.
  assert (pool_ok N n (set_thread (mutex p) i (TServe fd) p)) as [H1 H2 H3 H4 H5 H6 H7 H8 H9 H10]; [|by split].
  apply (thread_moved _ _ _ _ _ (TCount fd)); try done.
  - apply (pk_main _ _ _ Hp).
  - rewrite <- (pk_inside _ _ _ Hp i _ Hi). done.
  - by apply (wake_kept N n p i (TCount fd)).
Qed.

Lemma spurious_ok N n p i :
  pool_ok N n p -> threads p !! i = Some TWait -> pool_ok N n (set_thread (mutex p) i TWoken p).
Proof.
  intros Hp Hi. apply (thread_moved _ _ _ _ _ TWait); try done.
  - apply (pk_main _ _ _ Hp).
  - by rewrite <- (pk_inside _ _ _ Hp i _ Hi).
  - by apply (wake_kept N n p i TWait).
Qed.

Lemma step_ok N n p p' : pool_ok N n p -> step p p' -> exists n', pool_ok N n' p'.
Proof.
  intros Hp Hs. destruct Hs as [fd Hm Hx|fd p' Hm Hput|i Hm Hi|Hm Hno|Hm|i t Hi Ht Hx|i Hi|i fd Hi|i fd Hi].
  - exists n. apply main_moved; try done; [by rewrite Hx|by rewrite Hm|].
    intros Hw. pose proof (pk_wake _ _ _ Hp Hw) as H. by rewrite Hm in H.
  - exists (S n). by eapply pool_put_ok.
  - exists n. assert (mutex p = Main) as Hx by (apply (pk_main _ _ _ Hp); by rewrite Hm). rewrite Hx.
    pose proof (pk_wake _ _ _ Hp ltac:(by eapply list_elem_of_lookup_2)) as Hw. rewrite Hm in Hw.
    pose proof (ncoming_insert (threads p) i TWait TWoken Hi) as En. cbn in En.
    assert (pool_ok N n (set_thread Main i TWoken p)) as Hp1.
    { apply (thread_moved _ _ _ _ _ TWait); try done; [by rewrite Hm|by rewrite Hx|]. intros _. lia. }
    change (set_thread Main i TWoken (set_main Main MUnlock p))
      with (set_main Main MUnlock (set_thread Main i TWoken p)).
    apply main_moved; try done; fields; [by rewrite Hm|]. intros _. cbv iota. lia.
  - exists n. assert (mutex p = Main) as Hx by (apply (pk_main _ _ _ Hp); by rewrite Hm).
    apply main_moved; try done; [by rewrite Hm].
  - exists n. assert (mutex p = Main) as Hx by (apply (pk_main _ _ _ Hp); by rewrite Hm).
    apply main_moved; try done; [by rewrite Hx|by rewrite Hm|].
    intros Hw. pose proof (pk_wake _ _ _ Hp Hw) as H. by rewrite Hm in H.
  - exists n. apply (thread_moved _ _ _ _ _ t); try done.
    + by rewrite (nobody_inside _ _ _ Hp Hx).
    + intros j Hj. rewrite Hx. split; [done|intros [= ->]; done].
    + apply (wake_kept N n p i t); try done.
  - by eapply check_ok.
  - exists n. assert (mutex p = Thread i) as Hx by (by apply (pk_inside _ _ _ Hp i _ Hi)).
    apply (thread_moved _ _ _ _ _ (TUnlock fd)); try done.
    + pose proof (pk_main _ _ _ Hp) as H. rewrite Hx in H. rewrite H. done.
    + intros j Hj. rewrite Hx. split; [intros [= ->]; done|done].
    + by apply (wake_kept N n p i (TUnlock fd)).
  - exists n. by apply count_ok.
Qed.

Lemma outside_ok N n p p' : pool_ok N n p -> outside p p' -> pool_ok N n p'.
Proof.
  intros Hp [fd Hm|i Hi|i fd Hi]; [by apply accept_ok|by apply spurious_ok|].
  apply (thread_moved _ _ _ _ _ (TServe fd)); try done.
  - apply (pk_main _ _ _ Hp).
  - by rewrite <- (pk_inside _ _ _ Hp i _ Hi).
  - by apply (wake_kept N n p i (TServe fd)).
Qed.

Lemma pool_init_ok N : pool_ok N 0 (pool_init N).
Proof.
  assert (forall i t, replicate N TLock !! i = Some t -> t = TLock) as Hr
    by (intros i t [-> _]%lookup_replicate; done).
  split; fields; try done; unfold pool_init; fields.
  - by apply length_replicate.
  - intros i t ->%Hr. done.
  - intros [i Hi%Hr]%list_elem_of_lookup_1. done.
Qed.

Lemma pool_reach_ok N p : reach N p -> exists n, pool_ok N n p.
Proof.
  induction 1 as [|p p' _ [n IH] Hs|p p' _ [n IH] Hs].
  - exists 0%nat. apply pool_init_ok.
  - by eapply step_ok.
  - exists n. by eapply outside_ok.
Qed.

(** A thread that does not wait can go on; to enter it needs the mutex. *)
Lemma thread_goes_on p i t :
  threads p !! i = Some t -> ~ waits t -> (t = TLock \/ t = TWoken -> mutex p = Nobody) ->
  exists p', step p p'.
Proof.
  intros Hi Ht Hx. destruct t as [| | | |fd|fd|fd]; try (by destruct Ht).
  - eexists. eapply t_lock; [exact Hi|by left|auto].
  - eexists. by eapply t_check.
  - eexists. eapply t_lock; [exact Hi|by right|auto].
  - eexists. by eapply t_unlock.
  - eexists. by eapply t_count.
Qed.

Lemma main_goes_on p :
  main_inside (mpc_of p) = true ->
  (exists p', step p p') \/ exists fd, mpc_of p = MPut fd /\ put_client fd p = None.
Proof.
  intros Hm. destruct (mpc_of p) as [|fd|fd| |] eqn:E; try done.
  - destruct (put_client fd p) as [p'|] eqn:Ep; [left|right; by exists fd]. exists p'. by eapply m_put.
  - left. destruct (decide (TWait ∈ threads p)) as [[i Hi]%list_elem_of_lookup_1|Hno].
    + eexists. by eapply m_signal.
    + eexists. by apply m_signal_none.
  - left. eexists. by apply m_unlock.
Qed.

Lemma ncoming_waiting l : Forall waits l -> ncoming l = 0%nat.
Proof. induction 1 as [|t l Ht _ IH]; [done|]. unfold ncoming in *. rewrite filter_cons_False; [done|]. by destruct t. Qed.

(** The process can go on, or it stops because the array is full, or everything
    waits, and then the array is empty if a thread waits for the condition. *)
Lemma pool_goes_on N n p :
  (0 < N)%nat -> pool_ok N n p ->
  (exists p', step p p') \/ (exists fd, mpc_of p = MPut fd /\ put_client fd p = None) \/
  (mpc_of p = MAccept /\ Forall waits (threads p) /\ (TWait ∈ threads p -> n = 0%nat)).
Proof.
  intros HN Hp. destruct (mutex p) as [| |i] eqn:Hx.
  - pose proof (nobody_inside _ _ _ Hp Hx) as Hm.
    destruct (mpc_of p) as [|fd|fd| |] eqn:E; try done; [|left; eexists; by eapply m_lock].
    destruct (decide (Forall waits (threads p))) as [Hw|Hw].
    + right. right. split_and!; [done|done|]. intros Hin. pose proof (pk_wake _ _ _ Hp Hin) as H.
      rewrite E, (ncoming_waiting _ Hw) in H. lia.
    + left. apply not_Forall_Exists, Exists_exists in Hw as (t & [i Hi]%list_elem_of_lookup_1 & Ht); [|apply _].
      by eapply thread_goes_on.
  - destruct (main_goes_on p) as [H|H]; [by apply (pk_main _ _ _ Hp)|by left|by right; left].
  - left. pose proof (pk_owner _ _ _ Hp i Hx) as Hi. rewrite <- (pk_threads _ _ _ Hp) in Hi.
    apply lookup_lt_is_Some in Hi as [t Hi].
    assert (inside t = true) as Ht by (by apply (pk_inside _ _ _ Hp i t Hi)).
    eapply thread_goes_on; [exact Hi|destruct t; cbn in *; solve [discriminate|tauto]|]. by intros [-> | ->].
Qed.

(** The array is full with one entry left free. *)
Lemma put_client_None N n p fd : pool_ok N n p -> put_client fd p = None -> S n = MAXNCLI.
Proof.
  intros Hp. unfold put_client. rewrite (pk_iput _ _ _ Hp), place_S by done.
  destruct (Nat.eqb_spec (place MAXNCLI (iget p) (S n)) (iget p)) as [E|]; [|done]. intros _.
  pose proof (pk_n _ _ _ Hp) as Hn. destruct (decide (S n = MAXNCLI)) as [|Hne]; [done|].
  assert (S n = 0%nat); [|lia]. apply (place_inj MAXNCLI maxncli_pos (iget p)); [lia|done|].
  rewrite E. symmetry. apply place_0; [done|apply (pk_iget _ _ _ Hp)].
Qed.

(** The descriptor a thread holds has been handed to it. *)
Definition holds (t : tpc) : list Z := match t with TUnlock fd | TCount fd | TServe fd => [fd] | _ => [] end.

Lemma pool_reach_serving N p :
  reach N p -> forall i t fd, threads p !! i = Some t -> fd ∈ holds t -> fd ∈ (handed p).*2.
Proof.
  assert (forall (l : list tpc) (h : list (nat * Z)) (i : nat) t,
            (forall j u fd, l !! j = Some u -> fd ∈ holds u -> fd ∈ h.*2) -> (forall fd, fd ∈ holds t -> fd ∈ h.*2) ->
            forall j u fd, <[i := t]> l !! j = Some u -> fd ∈ holds u -> fd ∈ h.*2) as Hset.
  { intros l h i t Hl Ht j u fd Hj Hu. apply list_lookup_insert_Some in Hj as [(-> & <- & _)|[_ Hj]]; eauto. }
  induction 1 as [|p p' _ IH Hs|p p' _ IH Hs].
  - intros i t fd Hi. cbn in Hi. apply lookup_replicate in Hi as [-> _]. cbn. set_solver.
  - destruct Hs as [fd Hm Hx|fd p' Hm Hput|i Hm Hi|Hm Hno|Hm|i t Hi Ht Hx|i Hi|i fd Hi|i fd Hi]; try exact IH.
    + unfold put_client in Hput. destruct (_ =? _)%nat; [done|]. injection Hput as <-. exact IH.
    + apply Hset; [exact IH|]. cbn. set_solver.
    + apply Hset; [exact IH|]. cbn. set_solver.
    + unfold check_queue. destruct (_ =? _)%nat; [by apply Hset; [exact IH|cbn; set_solver]|]. fields.
      apply Hset.
      * intros j u fd Hj Hu. rewrite fmap_app. apply elem_of_app. left. by eapply IH.
      * intros fd Hfd. rewrite fmap_app. apply elem_of_app. right. exact Hfd.
    + apply Hset; [exact IH|]. intros x Hx. by eapply IH.
    + apply Hset; [exact IH|]. intros x Hx. by eapply IH.
  - destruct Hs as [fd Hm|i Hi|i fd Hi]; [exact IH|..]; (apply Hset; [exact IH|cbn; set_solver]).
Qed.

(** ** Properties *)

(** C35: the pool of threads, however its threads are interleaved.  The connections are
    handed out in the order in which they were accepted, each to exactly one
    thread: those handed out, those in the array (at most 31) and the one the main
    thread has in hand are all that were accepted.  At most one thread is inside a
    critical section.  Nothing is stuck inside the process: some thread can go on by
    itself; or the array is full, with 31 connections, which ends the process; or the
    main thread waits in Accept and every thread waits for the condition or is busy
    with its client (for good, if the client stays and sends nothing), and no
    connection lies in the array while a thread waits for one.  The process ends by
    itself only with the array full or on an error of a client that was handed out. *)
Theorem pool_hands_out N p :
  (0 < N)%nat -> reach N p ->
  (exists q, accepted p = (handed p).*2 ++ q ++ in_hand (mpc_of p) /\ (length q < MAXNCLI)%nat /\
     ((exists p', step p p') \/
      (quits p ArrayFull /\ S (length q) = MAXNCLI) \/
      (mpc_of p = MAccept /\ Forall waits (threads p) /\ (TWait ∈ threads p -> q = []))) /\
     (quits p ArrayFull -> S (length q) = MAXNCLI)) /\
  (forall fd, quits p (BadClient fd) -> fd ∈ (handed p).*2) /\
  (forall i t j u, threads p !! i = Some t -> threads p !! j = Some u ->
     inside t = true -> inside u = true -> i = j /\ main_inside (mpc_of p) = false).
Proof.
  intros HN Hr. destruct (pool_reach_ok N p Hr) as [n Hp]. split; [|split].
  - exists (slots MAXNCLI (clifd p) (iget p) n). rewrite length_slots.
    assert (quits p ArrayFull -> S n = MAXNCLI) as Hfull by (inversion 1; by eapply put_client_None).
    split_and!; [apply (pk_flow _ _ _ Hp)|apply (pk_n _ _ _ Hp)| |done].
    destruct (pool_goes_on N n p HN Hp) as [H|[(fd & Hm & Hput)|(Hm & Hw & Hn)]]; [by left|right; left|right; right].
    + assert (quits p ArrayFull) by (by eapply quits_full). auto.
    + split_and!; [done|done|]. intros Hin. by rewrite (Hn Hin).
  - intros fd Hq. inversion Hq as [|i fd' Hi]; subst. eapply (pool_reach_serving N p Hr); [exact Hi|by left].
  - intros i t j u Hi Hj Ht Hu. apply (pk_inside _ _ _ Hp i t Hi) in Ht. apply (pk_inside _ _ _ Hp j u Hj) in Hu.
    split; [congruence|]. destruct (main_inside _) eqn:Em; [|done]. apply (pk_main _ _ _ Hp) in Em. congruence.
Qed.

(** *** Two threads and one connection *)

(** The first thread waits; a connection is accepted, put in the array, and the
    thread is signalled while the second one has not run yet. *)
Definition pool_demo : pool :=
  let p1 := set_thread Nobody 0 TWait (pool_init 2) in
  let p2 := accept_client 7 p1 in
  Pool (<[0%nat := 7]> (replicate MAXNCLI 0)) 0 1 Nobody MAccept [TWoken; TLock] [0; 0] (accepted p2) [].

Lemma pool_demo_reach : reach 2 pool_demo.
Proof.
  assert (reach 2 (set_thread (Thread 0) 0 TCheck (pool_init 2))) as H1.
  { eapply reach_step; [constructor|]. by apply (t_lock _ 0 TLock); [|left|]. }
  assert (reach 2 (check_queue 0 (set_thread (Thread 0) 0 TCheck (pool_init 2)))) as H2
    by (eapply reach_step; [exact H1|by apply t_check]).
  set (p1 := check_queue 0 _) in H2.
  assert (reach 2 (accept_client 7 p1)) as H3 by (eapply reach_outside; [exact H2|by apply o_accept]).
  assert (reach 2 (set_main Main (MPut 7) (accept_client 7 p1))) as H4
    by (eapply reach_step; [exact H3|by apply m_lock]).
  assert (exists p2, put_client 7 (set_main Main (MPut 7) (accept_client 7 p1)) = Some p2 /\
            mpc_of p2 = MSignal /\ threads p2 !! 0%nat = Some TWait /\
            set_main Nobody MAccept (set_thread (mutex p2) 0 TWoken (set_main (mutex p2) MUnlock p2)) = pool_demo)
    as (p2 & E & Em & Et & <-) by (eexists; split; [vm_compute; reflexivity|by vm_compute]).
  assert (reach 2 p2) as H5 by (eapply reach_step; [exact H4|by apply (m_put _ 7)]).
  eapply reach_step; [eapply reach_step; [exact H5|by apply m_signal]|by apply m_unlock].
Qed.

Lemma pool_hands_out_witness :
  reach 2 pool_demo /\
  exists q, accepted pool_demo = (handed pool_demo).*2 ++ q ++ in_hand (mpc_of pool_demo) /\
    (length q < MAXNCLI)%nat.
Proof.
  split; [exact pool_demo_reach|].
  destruct (pool_hands_out 2 pool_demo ltac:(lia) pool_demo_reach) as [(q & Hq & Hl & _) _].
  exists q. split; [exact Hq|exact Hl].
Defined.
