(* ===== verification/Rtt.v ===== *)
(** * Retransmission timeouts and a reliable request over UDP

    Stevens/unpv13e/lib/rtt.c and rtt/dg_send_recv.c.  The estimators are C
    [float]s: IEEE binary32 values, with the operations of the Standard
    Library's specification of floating point, and the usual conversions to
    binary64 where an operand is a [double]. *)

From S2P Require Import Prelude CLib Cksum.
From Stdlib Require Import SpecFloat.

(** ** [float] and [double] *)

Definition to32 (x : spec_float) : spec_float :=
  match x with S754_finite s m e => binary_round 24 128 s m e | _ => x end.
Definition to64 (x : spec_float) : spec_float :=
  match x with S754_finite s m e => binary_round 53 1024 s m e | _ => x end.

Definition f_of_Z (z : Z) : spec_float := binary_normalize 24 128 z 0 false.
Definition d_of_Z (z : Z) : spec_float := binary_normalize 53 1024 z 0 false.
Definition d_half : spec_float := binary_normalize 53 1024 1 (-1) false.
Definition d_three_quarters : spec_float := binary_normalize 53 1024 3 (-2) false.

Definition f_sub := SFsub 24 128.
Definition f_mul := SFmul 24 128.
Definition d_add := SFadd 53 1024.
Definition d_sub := SFsub 53 1024.
Definition d_mul := SFmul 53 1024.
Definition d_div := SFdiv 53 1024.

(** [(int) x]: the integral part; undefined when it is not an [int]. *)
Definition int_of_double (x : spec_float) : chk Z :=
  match x with
  | S754_zero _ => Def 0
  | S754_finite s m e =>
      let a := if 0 <=? e then Z.pos m * 2 ^ e else Z.pos m / 2 ^ (- e) in
      let z := if s then - a else a in
      if int_ok z then Def z else Bad SignedOverflow
  | _ => Bad SignedOverflow
  end.

(** ** rtt.c *)

Definition RTT_RXTMIN : Z := 2.
Definition RTT_RXTMAX : Z := 60.
Definition RTT_MAXNREXMT : Z := 3.

Record rtt_info := RttInfo {
  rtt_rtt : spec_float; rtt_srtt : spec_float; rtt_rttvar : spec_float; rtt_rto : spec_float;
  rtt_nrexmt : Z; rtt_base : Z }.

(** [RTT_RTOCALC]: a [double] expression. *)
Definition RTT_RTOCALC (srtt rttvar : spec_float) : spec_float :=
  d_add (to64 srtt) (d_mul (d_of_Z 4) (to64 rttvar)).

Definition rtt_minmax (rto : spec_float) : spec_float :=
  if SFltb rto (f_of_Z RTT_RXTMIN) then f_of_Z RTT_RXTMIN
  else if SFltb (f_of_Z RTT_RXTMAX) rto then f_of_Z RTT_RXTMAX
  else rto.

(** [rtt_nrexmt] keeps the value it had. *)
Definition rtt_init (now : timeval) (ptr : rtt_info) : rtt_info :=
  let rttvar := to32 d_three_quarters in
  RttInfo (f_of_Z 0) (f_of_Z 0) rttvar
    (rtt_minmax (to32 (RTT_RTOCALC (f_of_Z 0) rttvar)))
    (rtt_nrexmt ptr) (tv_sec now mod U32).

Definition rtt_ts (now : timeval) (ptr : rtt_info) : Z :=
  ((tv_sec now - rtt_base ptr) * 1000 + tv_usec now / 1000) mod U32.

Definition rtt_newpack (ptr : rtt_info) : rtt_info :=
  RttInfo (rtt_rtt ptr) (rtt_srtt ptr) (rtt_rttvar ptr) (rtt_rto ptr) 0 (rtt_base ptr).

Definition rtt_start (ptr : rtt_info) : chk Z := int_of_double (d_add (to64 (rtt_rto ptr)) d_half).

Definition rtt_stop (ptr : rtt_info) (ms : Z) : rtt_info :=
  let rtt := to32 (d_div (d_of_Z ms) (d_of_Z 1000)) in
  let delta := to64 (f_sub rtt (rtt_srtt ptr)) in
  let srtt := to32 (d_add (to64 (rtt_srtt ptr)) (d_div delta (d_of_Z 8))) in
  let delta' := if SFltb delta (d_of_Z 0) then SFopp delta else delta in
  let rttvar := to32 (d_add (to64 (rtt_rttvar ptr))
                            (d_div (d_sub delta' (to64 (rtt_rttvar ptr))) (d_of_Z 4))) in
  RttInfo rtt srtt rttvar (rtt_minmax (to32 (RTT_RTOCALC srtt rttvar)))
    (rtt_nrexmt ptr) (rtt_base ptr).

(** The return value: [true] is -1, give up. *)
Definition rtt_timeout (ptr : rtt_info) : bool * rtt_info :=
  let n := rtt_nrexmt ptr + 1 in
  (RTT_MAXNREXMT <? n,
   RttInfo (rtt_rtt ptr) (rtt_srtt ptr) (rtt_rttvar ptr)
     (f_mul (rtt_rto ptr) (f_of_Z 2)) n (rtt_base ptr)).

(** ** dg_send_recv.c *)

(** A datagram that arrives: the size [recvmsg] returns, the header it carries
    (if it is long enough), and its data. *)
Record dgram := Dgram { dg_len : Z; dg_seq : Z; dg_ts : Z; dg_data : buf }.

(** The static variables, and the world: the clock of each successive call of
    gettimeofday, for each transmission the datagrams that arrive before its
    alarm, and the log of what was sent (sequence number, time stamp, data) and
    of the alarms set. *)
Record dg := Dg {
  rttinfo : rtt_info; rttinit : bool; send_seq : Z;
  clock : list timeval; arrivals : list (list dgram);
  dg_sent : list (Z * Z * buf); alarms : list Z }.

Definition gettimeofday : M dg timeval := fun s =>
  match clock s with
  | [] => Ok (TV 0 0) s
  | now :: c => Ok now (Dg (rttinfo s) (rttinit s) (send_seq s) c (arrivals s) (dg_sent s) (alarms s))
  end.

Definition set_rtt (f : rtt_info -> rtt_info) : M dg unit :=
  modify (fun s => Dg (f (rttinfo s)) (rttinit s) (send_seq s) (clock s) (arrivals s) (dg_sent s) (alarms s)).

(** The [do ... while] loop over the datagrams of one transmission: the one that
    ends it, or [None] when the alarm goes off first. *)
Fixpoint recv_match (seq : Z) (ds : list dgram) : option dgram :=
  match ds with
  | [] => None
  | d :: ds' => if (dg_len d <? 8) || negb (dg_seq d =? seq) then recv_match seq ds' else Some d
  end.

Definition stop_trying : M dg unit :=
  modify (fun s => Dg (rttinfo s) false (send_seq s) (clock s) (arrivals s) (dg_sent s) (alarms s)).

(** From the label [sendagain] on.  [inl tt]: the return value -1; [inr d]: the
    datagram received, and the return value [dg_len d - 8]. *)
Fixpoint sendagain (fuel : nat) (outbuff : buf) : M dg (unit + dgram) :=
  match fuel with
  | O => fun _ => Undef EndlessLoop
  | S f =>
      now ← gettimeofday;
      i ← gets rttinfo;
      secs ← lift (rtt_start i);
      s ← get;
      modify (fun s => Dg (rttinfo s) (rttinit s) (send_seq s) (clock s) (tl (arrivals s))
                          (dg_sent s ++ [(send_seq s, rtt_ts now i, outbuff)])
                          (alarms s ++ [secs])) ≫= fun _ =>
      match recv_match (send_seq s) (hd [] (arrivals s)) with
      | None =>
          let '(gave_up, i') := rtt_timeout i in
          set_rtt (fun _ => i') ≫= fun _ =>
          if gave_up : bool then stop_trying ≫= fun _ => mret (inl tt) else sendagain f outbuff
      | Some d =>
          now' ← gettimeofday;
          set_rtt (fun i => rtt_stop i ((rtt_ts now' i - dg_ts d) mod U32)) ≫= fun _ =>
          mret (inr d)
      end
  end.

(** Five rounds of fuel: the fifth is never begun. *)
Definition dg_send_recv (outbuff : buf) : M dg (unit + dgram) :=
  init ← gets rttinit;
  (if init : bool then mret tt
   else
     now ← gettimeofday;
     modify (fun s => Dg (rtt_init now (rttinfo s)) true (send_seq s) (clock s) (arrivals s)
                         (dg_sent s) (alarms s))) ≫= fun _ =>
  modify (fun s => Dg (rttinfo s) (rttinit s) ((send_seq s + 1) mod U32) (clock s) (arrivals s)
                      (dg_sent s) (alarms s)) ≫= fun _ =>
  set_rtt rtt_newpack ≫= fun _ =>
  sendagain 5 outbuff.

(** [Dg_send_recv]: the return value. *)
Definition Dg_send_recv (outbuff : buf) : M dg Z :=
  r ← dg_send_recv outbuff;
  match r with inl _ => abort_with ErrExit | inr d => mret (dg_len d - 8) end.

(** * Lemmas *)

(** ** Rounding never yields a NaN *)

Lemma iter_pos_inv {A} (f : A -> A) (P : A -> Prop) :
  (forall x, P x -> P (f x)) -> forall p x, P x -> P (iter_pos f p x).
Proof.
  intros Hf p. induction p as [q IH|q IH|]; intros x Hx; cbn [iter_pos].
  - by apply IH, IH, Hf.
  - by apply IH, IH.
  - by apply Hf.
Qed.

Lemma shr_nonneg prec emax m e l : 0 <= m -> 0 <= shr_m (fst (shr_fexp prec emax m e l)).
Proof.
  intros Hm. unfold shr_fexp, shr.
  assert (0 <= shr_m (shr_record_of_loc m l)) as H0 by (by destruct l as [|[]]).
  destruct (_ - e); cbn [fst]; [done| |done].
  apply (iter_pos_inv shr_1 (fun r => 0 <= shr_m r)); [|done].
  intros [x r s] Hx. cbn in Hx. destruct x as [|[q|q|]|q]; cbn; lia.
Qed.

Lemma binary_round_aux_num prec emax s m e l :
  0 <= m -> binary_round_aux prec emax s m e l <> S754_nan.
Proof.
  intros Hm. unfold binary_round_aux.
  destruct (shr_fexp prec emax m e l) as [r1 e1] eqn:E1.
  pose proof (shr_nonneg prec emax m e l Hm) as H1. rewrite E1 in H1. cbn [fst] in H1.
  set (m2 := round_nearest_even _ _).
  assert (0 <= m2) as H2.
  { subst m2. unfold round_nearest_even. destruct (loc_of_shr_record r1) as [|[]]; try lia.
    destruct (Z.even _); lia. }
  pose proof (shr_nonneg prec emax m2 e1 loc_Exact H2) as H3.
  destruct (shr_fexp prec emax m2 e1 loc_Exact) as [r3 e3]. cbn [fst] in H3.
  destruct (shr_m r3); [done| |lia]. by destruct (_ <=? _).
Qed.

Lemma binary_round_num prec emax s m e : binary_round prec emax s m e <> S754_nan.
Proof.
  unfold binary_round. destruct (shl_align m e _) as [mz ez].
  by apply binary_round_aux_num.
Qed.

Lemma binary_normalize_num prec emax m e s : binary_normalize prec emax m e s <> S754_nan.
Proof. unfold binary_normalize. destruct m; [done|apply binary_round_num..]. Qed.

Definition finite (x : spec_float) : bool :=
  match x with S754_zero _ | S754_finite _ _ _ => true | _ => false end.

Lemma to32_num x : x <> S754_nan -> to32 x <> S754_nan.
Proof. intros Hx. destruct x; [done|done|done|apply binary_round_num]. Qed.

Lemma to64_num x : x <> S754_nan -> to64 x <> S754_nan.
Proof. intros Hx. destruct x; [done|done|done|apply binary_round_num]. Qed.

(** Adding to an infinity is the only way a sum of numbers is not one. *)
Lemma SFadd_num prec emax x y :
  x <> S754_nan -> y <> S754_nan -> (finite x || finite y) = true ->
  SFadd prec emax x y <> S754_nan.
Proof.
  intros Hx Hy Hf. destruct x as [[]|[]| |sx mx ex], y as [[]|[]| |sy my ey]; try done.
  cbn [SFadd]. apply binary_normalize_num.
Qed.

(** ** Comparison *)

Lemma SFcompare_swap x y :
  SFcompare y x = match SFcompare x y with Some c => Some (CompOpp c) | None => None end.
Proof.
  destruct x as [[]|[]| |[] mx ex], y as [[]|[]| |[] my ey]; try done; cbn [SFcompare CompOpp];
    rewrite (Z.compare_antisym ex ey); destruct (ex ?= ey); cbn [CompOpp]; try done;
    f_equal; rewrite (Pos.compare_cont_antisym mx my Eq); cbn [CompOpp]; done.
Qed.

Lemma SFcompare_num x y : x <> S754_nan -> y <> S754_nan -> SFcompare x y <> None.
Proof. by destruct x as [[]|[]| |[] mx ex], y as [[]|[]| |[] my ey]. Qed.

Lemma SFltb_false x y :
  x <> S754_nan -> y <> S754_nan -> SFltb x y = false -> SFleb y x = true.
Proof.
  intros Hx Hy. unfold SFltb, SFleb. rewrite (SFcompare_swap x y).
  pose proof (SFcompare_num x y Hx Hy). by destruct (SFcompare x y) as [[]|].
Qed.

(** [rtt_minmax] of a number is between the limits. *)
Lemma rtt_minmax_range r :
  r <> S754_nan ->
  SFleb (f_of_Z RTT_RXTMIN) (rtt_minmax r) = true /\
  SFleb (rtt_minmax r) (f_of_Z RTT_RXTMAX) = true.
Proof.
  intros Hr. unfold rtt_minmax. destruct (SFltb r _) eqn:E1; [by split|].
  destruct (SFltb _ r) eqn:E2; [by split|].
  split; (apply SFltb_false; [done..|]); done.
Qed.

(** ** The exchange *)

(** What [n] transmissions achieve: how many are made, and the first datagram
    that answers one of them before its alarm. *)
Fixpoint answer (n : nat) (seq : Z) (arr : list (list dgram)) : nat * option dgram :=
  match n with
  | O => (O, None)
  | S n' =>
      match recv_match seq (hd [] arr) with
      | Some d => (1%nat, Some d)
      | None => let '(k, r) := answer n' seq (tl arr) in (S k, r)
      end
  end.

Lemma answer_count n seq arr : (fst (answer n seq arr) <= n)%nat.
Proof.
  revert arr. induction n as [|n IH]; intros arr; cbn; [done|].
  destruct (recv_match _ _); cbn; [lia|]. specialize (IH (tl arr)).
  destruct (answer n seq (tl arr)). cbn in *. lia.
Qed.

Lemma recv_match_sound seq ds d :
  recv_match seq ds = Some d -> d ∈ ds /\ 8 <= dg_len d /\ dg_seq d = seq.
Proof.
  induction ds as [|d' ds IH]; cbn; [done|].
  destruct (Z.ltb_spec (dg_len d') 8); cbn.
  - intros (?&?&?)%IH. split; [by right|done].
  - destruct (Z.eqb_spec (dg_seq d') seq); cbn.
    + intros [= <-]. split; [left|done].
    + intros (?&?&?)%IH. split; [by right|done].
Qed.

(** The alarms of up to [n] transmissions can be set. *)
Fixpoint alarms_ok (n : nat) (i : rtt_info) : Prop :=
  match n with
  | O => True
  | S n' => (exists z, rtt_start i = Def z) /\ alarms_ok n' (snd (rtt_timeout i))
  end.

Definition exchange_post (n : nat) (out : buf) (s : dg) (r : unit + dgram) (s' : dg) : Prop :=
  let '(k, a) := answer n (send_seq s) (arrivals s) in
  r = match a with Some d => inr d | None => inl tt end /\
  send_seq s' = send_seq s /\ rttinit s' = (match a with Some _ => rttinit s | None => false end) /\
  exists log, dg_sent s' = dg_sent s ++ log /\ length log = k /\
              Forall (fun x => exists ts, x = (send_seq s, ts, out)) log.

Lemma wp_gettimeofday (Q : timeval -> dg -> Prop) s :
  (forall now c, Q now (Dg (rttinfo s) (rttinit s) (send_seq s) c (arrivals s) (dg_sent s) (alarms s))) ->
  wp gettimeofday Q s.
Proof.
  intros HQ. unfold wp, gettimeofday. destruct (clock s) as [|now c] eqn:E; [|by apply HQ].
  specialize (HQ (TV 0 0) (clock s)). by destruct s.
Qed.

Lemma wp_sendagain n fuel out s :
  (n < fuel)%nat -> rtt_nrexmt (rttinfo s) = 3 - Z.of_nat n -> alarms_ok (S n) (rttinfo s) ->
  wp (sendagain fuel out) (exchange_post (S n) out s) s.
Proof.
  revert fuel s. induction n as [|n IH]; intros fuel s Hf Hn [[z Hz] Hok];
    (destruct fuel as [|f]; [lia|]); cbn [sendagain];
    apply wp_bind, wp_gettimeofday; intros now c; wp_steps; cbn [rttinfo];
    (eapply wp_lift; [exact Hz|]); wp_steps; cbn [send_seq arrivals rttinfo];
    unfold exchange_post; cbn [answer];
    destruct (recv_match (send_seq s) (hd [] (arrivals s))) as [d|] eqn:E.
  1, 3: apply wp_bind, wp_gettimeofday; intros now' c'; unfold set_rtt; wp_steps; cbn;
    split_and!; [done..|]; eexists [_]; split; [done|]; split; [done|];
    repeat constructor; eauto.
  - unfold rtt_timeout. rewrite Hn. cbn [Z.ltb RTT_MAXNREXMT]. unfold set_rtt, stop_trying.
    wp_steps. cbn. split_and!; [done..|]. eexists [_]. split; [done|]. split; [done|].
    repeat constructor; eauto.
  - unfold rtt_timeout. rewrite (proj2 (Z.ltb_ge _ _)) by (unfold RTT_MAXNREXMT; lia).
    unfold set_rtt. wp_steps. cbn [rttinfo rttinit send_seq clock arrivals dg_sent alarms].
    eapply wp_mono; [apply IH; cbn [rttinfo rtt_nrexmt]; [lia | lia | exact Hok]|].
    unfold exchange_post. cbn [send_seq arrivals rttinit dg_sent].
    intros r s'. destruct (answer (S n) (send_seq s) (tl (arrivals s))) as [k a] eqn:Ea.
    cbn [answer] in Ea. rewrite Ea.
    intros (-> & Hseq & Hinit & log & Hsent & Hlen & Hlog). split_and!; [done..|].
    eexists (_ :: log). rewrite Hsent, <- app_assoc. split; [done|].
    split; [cbn; lia|]. constructor; [eauto|done].
Qed.

(** ** Properties *)

(** C26: [dg_send_recv] returns after at most four transmissions, all of the
    same data under the next sequence number: the answer is the first datagram
    of that sequence number that arrives before the alarm of its transmission,
    and when four alarms have gone off it returns -1 and the estimators are
    initialised again by the next call. *)
Theorem dg_send_recv_exchange out s :
  (rttinit s = true -> alarms_ok 4 (rttinfo s)) ->
  wp (dg_send_recv out)
     (fun r s' =>
        let seq := (send_seq s + 1) mod U32 in
        let '(k, a) := answer 4 seq (arrivals s) in
        (k <= 4)%nat /\
        r = match a with Some d => inr d | None => inl tt end /\
        rttinit s' = (match a with Some _ => true | None => false end) /\
        exists log, dg_sent s' = dg_sent s ++ log /\ length log = k /\
                    Forall (fun x => exists ts, x = (seq, ts, out)) log) s.
Proof.
  intros Hok. unfold dg_send_recv.
  assert (forall i c, alarms_ok 4 i ->
    wp (set_rtt rtt_newpack ≫= fun _ => sendagain 5 out)
      (fun r s' =>
         let seq := (send_seq s + 1) mod U32 in
         let '(k, a) := answer 4 seq (arrivals s) in
         (k <= 4)%nat /\ r = match a with Some d => inr d | None => inl tt end /\
         rttinit s' = (match a with Some _ => true | None => false end) /\
         exists log, dg_sent s' = dg_sent s ++ log /\ length log = k /\
                     Forall (fun x => exists ts, x = (seq, ts, out)) log)
      (Dg i true ((send_seq s + 1) mod U32) c (arrivals s) (dg_sent s) (alarms s))) as Hgo.
  { intros i c Hi. unfold set_rtt. wp_steps.
    eapply wp_mono; [apply (wp_sendagain 3); [lia | done | exact Hi]|].
    unfold exchange_post. cbn [send_seq arrivals rttinit dg_sent]. cbv zeta.
    intros r s'. pose proof (answer_count 4 ((send_seq s + 1) mod U32) (arrivals s)) as Hk.
    destruct (answer 4 _ (arrivals s)) as [k a]. cbn [fst] in Hk.
    intros (-> & _ & Hinit & Hlog). split_and!; done. }
  apply wp_bind, wp_gets. destruct (rttinit s) eqn:Ei; apply wp_bind.
  - apply wp_ret. wp_step. wp_step. rewrite Ei. by apply Hgo, Hok.
  - apply wp_bind, wp_gettimeofday. intros now c. wp_step. wp_step. wp_step.
    apply Hgo. unfold rtt_init.
    split; [by eexists; vm_compute|]. split; [by eexists; vm_compute|].
    split; [by eexists; vm_compute|]. split; [by eexists; vm_compute|done].
Qed.

Definition demo_dg : dg :=
  Dg (RttInfo (f_of_Z 0) (f_of_Z 0) (f_of_Z 0) (f_of_Z 0) 0 0) false 41
     [TV 100 0; TV 100 500; TV 103 0; TV 103 250000]
     [[Dgram 20 41 0 []; Dgram 4 42 0 []]; [Dgram 30 42 3000 (chars "time")]] [] [].

Lemma dg_send_recv_exchange_witness :
  wp (dg_send_recv (chars "hi"))
     (fun r s' =>
        let seq := (send_seq demo_dg + 1) mod U32 in
        let '(k, a) := answer 4 seq (arrivals demo_dg) in
        (k <= 4)%nat /\
        r = match a with Some d => inr d | None => inl tt end /\
        rttinit s' = (match a with Some _ => true | None => false end) /\
        exists log, dg_sent s' = dg_sent demo_dg ++ log /\ length log = k /\
                    Forall (fun x => exists ts, x = (seq, ts, chars "hi")) log) demo_dg.
Proof. apply dg_send_recv_exchange. intros H. vm_compute in H. discriminate H. Defined.

(** After a measurement, as long as the new estimators are numbers, the timeout
    is between two seconds and a minute. *)
Lemma rtt_stop_clamps i ms :
  let i' := rtt_stop i ms in
  finite (to64 (rtt_srtt i')) = true -> finite (rtt_rttvar i') = true ->
  SFleb (f_of_Z RTT_RXTMIN) (rtt_rto i') = true /\
  SFleb (rtt_rto i') (f_of_Z RTT_RXTMAX) = true.
Proof.
  cbv zeta. unfold rtt_stop. cbn [rtt_srtt rtt_rttvar rtt_rto].
  set (srtt := to32 (d_add _ _)). set (rttvar := to32 (d_add (to64 (rtt_rttvar i)) _)).
  clearbody srtt rttvar. intros Hs Hv. apply rtt_minmax_range, to32_num, SFadd_num.
  - intros E. by rewrite E in Hs.
  - assert (to64 rttvar <> S754_nan) as Hn by (apply to64_num; by destruct rttvar).
    unfold d_mul. set (four := d_of_Z 4). vm_compute in four. subst four.
    destruct (to64 rttvar) as [[]|[]| |[] m e]; try done; by apply binary_round_aux_num.
  - by rewrite Hs.
Qed.

(** A doubled timeout is not limited again: after the third timeout of a packet
    whose timeout was a minute the alarm is set to eight minutes. *)
Lemma rtt_timeout_exceeds_max i :
  rtt_rto i = f_of_Z RTT_RXTMAX ->
  rtt_start (snd (rtt_timeout (snd (rtt_timeout (snd (rtt_timeout i)))))) = Def 480.
Proof. intros E. unfold rtt_start, rtt_timeout. cbn [snd rtt_rto]. rewrite E. by vm_compute. Qed.
