(* ===== verification/Sockaddr.v ===== *)
(** * Protocol-independent socket addresses

    Stevens/unpv13e/lib/sock_*.c and family_to_level.c: reading, comparing,
    changing and printing a [struct sockaddr] whatever its family.  The library
    is configured (config.h) with IPv6 and without [sockaddr_dl]. *)

From S2P Require Import Prelude CLib Inet Inet6.

Definition AF_UNIX : Z := 1.
Definition IPPROTO_IP : Z := 0.
Definition IPPROTO_IPV6 : Z := 41.

(** A socket address behind its [sa_family].  Ports are the [uint16_t] as it is
    read from memory, that is in network byte order. *)
Inductive sockaddr :=
  | SIn (sin_port : Z) (sin_addr : buf)
  | SIn6 (sin6_port : Z) (sin6_addr : buf)
  | SUn (sun_path : buf)
  | SOther (family : Z).

Definition sa_family (sa : sockaddr) : Z :=
  match sa with SIn _ _ => AF_INET | SIn6 _ _ => AF_INET6 | SUn _ => AF_UNIX | SOther f => f end.

Definition ntohs (z : Z) : Z := (z mod 256) * 256 + z / 256.

(** ** Comparing *)

(** [IN6_IS_ADDR_V4MAPPED]. *)
Definition v4_mapped (addr : buf) : bool :=
  bool_decide (take 12 addr = replicate 10 NUL ++ replicate 2 (byte_of_Z 255)).

(** The sign of [memcmp] over [n] bytes, and of [strcmp]. *)
Fixpoint memcmp (a b : buf) (n : nat) : chk Z :=
  match n with
  | O => Def 0
  | S n' =>
      match a, b with
      | x :: a', y :: b' =>
          if Z_of_byte x <? Z_of_byte y then Def (-1)
          else if Z_of_byte y <? Z_of_byte x then Def 1
          else memcmp a' b' n'
      | _, _ => Bad BadPointer
      end
  end.

Fixpoint strcmp (a b : buf) : chk Z :=
  match a, b with
  | x :: a', y :: b' =>
      if Z_of_byte x <? Z_of_byte y then Def (-1)
      else if Z_of_byte y <? Z_of_byte x then Def 1
      else if Ascii.eqb x NUL then Def 0 else strcmp a' b'
  | _, _ => Bad Unterminated
  end.

Definition sock_cmp_addr (sa1 sa2 : sockaddr) : chk Z :=
  if negb (sa_family sa1 =? sa_family sa2) then Def (-1) else
  match sa1, sa2 with
  | SIn _ a1, SIn _ a2 => memcmp a1 a2 4
  | SIn6 _ a1, SIn6 _ a2 => memcmp a1 a2 16
  | SUn p1, SUn p2 => strcmp p1 p2
  | _, _ => Def (-1)
  end.

(** Unlike [sock_cmp_addr], 1 means equal. *)
Definition sock_cmp_port (sa1 sa2 : sockaddr) : Z :=
  if negb (sa_family sa1 =? sa_family sa2) then -1 else
  match sa1, sa2 with
  | SIn p1 _, SIn p2 _ => if p1 =? p2 then 1 else 0
  | SIn6 p1 _, SIn6 p2 _ => if p1 =? p2 then 1 else 0
  | _, _ => -1
  end.

(** ** Reading and changing *)

Definition sock_get_port (sa : sockaddr) : Z :=
  match sa with SIn p _ => p | SIn6 p _ => p | _ => -1 end.

Definition sock_set_port (sa : sockaddr) (port : Z) : sockaddr :=
  match sa with
  | SIn _ a => SIn (port mod 65536) a
  | SIn6 _ a => SIn6 (port mod 65536) a
  | _ => sa
  end.

Definition sock_set_addr (sa : sockaddr) (addr : buf) : chk sockaddr :=
  match sa with
  | SIn p a => a' ← memcpy a addr 4; mret (SIn p a')
  | SIn6 p a => a' ← memcpy a addr 16; mret (SIn6 p a')
  | _ => mret sa
  end.

Definition sock_set_wild (sa : sockaddr) : chk sockaddr :=
  match sa with
  | SIn _ _ => sock_set_addr sa (replicate 4 NUL)
  | SIn6 _ _ => sock_set_addr sa (replicate 16 NUL)
  | _ => mret sa
  end.

Definition family_to_level (family : Z) : Z :=
  if family =? AF_INET then IPPROTO_IP
  else if family =? AF_INET6 then IPPROTO_IPV6
  else -1.

(** ** Printing *)

(** [snprintf] into [n] bytes: the text, truncated, and its NUL. *)
Definition snprintf (n : nat) (s : buf) : buf := take (n - 1) s ++ [NUL].

(** [strcat] in an array. *)
Definition strcat (dst src : buf) : chk buf :=
  d ← need_str dst; s ← need_str src;
  if (length d + length s <? length dst)%nat
  then mret (d ++ s ++ NUL :: drop (S (length d + length s)) dst) else Bad BufferOverflow.

(** [char str[128]]. *)
Definition STRSZ : nat := 128.

(** The case of a Unix domain address, the same in both functions. *)
Definition ntop_unix (path : buf) : chk buf :=
  match path with
  | [] => Bad BadPointer
  | c :: _ =>
      if Ascii.eqb c NUL then mret (lit "(no pathname bound)")
      else s ← need_str path; mret (snprintf STRSZ s)
  end.

(** The string returned; [None] is the [NULL] return.  The array [str] is
    static: [old] is what it held. *)
Definition sock_ntop (old : buf) (sa : sockaddr) (salen : Z) : chk (option buf) :=
  match sa with
  | SIn port addr =>
      r ← inet_ntop AF_INET addr old STRSZ;
      match r with
      | inl _ => mret None
      | inr str =>
          if ntohs port =? 0 then mret (Some str)
          else
            let portstr := snprintf 8 (":"%char :: print_int (ntohs port)) in
            str' ← strcat str portstr; mret (Some str')
      end
  | SIn6 port addr =>
      r ← inet_ntop AF_INET6 addr (tl old) (STRSZ - 1);
      match r with
      | inl _ => mret None
      | inr str1 =>
          if ntohs port =? 0 then mret (Some str1)
          else
            let portstr := snprintf 8 ("]"%char :: ":"%char :: print_int (ntohs port)) in
            str' ← strcat ("["%char :: str1) portstr; mret (Some str')
      end
  | SUn path => s ← ntop_unix path; mret (Some s)
  | SOther f =>
      mret (Some (snprintf STRSZ (chars "sock_ntop: unknown AF_xxx: " ++ print_int f ++
                                  chars ", len " ++ print_int salen)))
  end.

Definition sock_ntop_host (old : buf) (sa : sockaddr) (salen : Z) : chk (option buf) :=
  match sa with
  | SIn _ addr =>
      r ← inet_ntop AF_INET addr old STRSZ;
      mret (match r with inl _ => None | inr str => Some str end)
  | SIn6 _ addr =>
      r ← inet_ntop AF_INET6 addr old STRSZ;
      mret (match r with inl _ => None | inr str => Some str end)
  | SUn path => s ← ntop_unix path; mret (Some s)
  | SOther f =>
      mret (Some (snprintf STRSZ (chars "sock_ntop_host: unknown AF_xxx: " ++ print_int f ++
                                  chars ", len " ++ print_int salen)))
  end.

(** * Lemmas *)

(** ** Comparison *)

Lemma memcmp_eq a b n :
  length a = n -> length b = n -> exists z, memcmp a b n = Def z /\ (z = 0 <-> a = b).
Proof.
  revert a b. induction n as [|n IH]; intros a b Ha Hb.
  { destruct a, b; try done. by exists 0. }
  destruct a as [|x a], b as [|y b]; try done. cbn [memcmp].
  destruct (Z.ltb_spec (Z_of_byte x) (Z_of_byte y)).
  { exists (-1). split; [done|]. split; [done|]. intros [= -> _]. lia. }
  destruct (Z.ltb_spec (Z_of_byte y) (Z_of_byte x)).
  { exists 1. split; [done|]. split; [done|]. intros [= -> _]. lia. }
  assert (x = y) as -> by (apply Z_of_byte_inj; lia).
  destruct (IH a b) as (z & -> & Hz); [by injection Ha | by injection Hb |].
  exists z. split; [done|]. rewrite Hz. split; [by intros ->|by intros [= ->]].
Qed.

(** ** Well-formed internet addresses *)

Definition wf_inet (sa : sockaddr) : Prop :=
  match sa with
  | SIn p a => 0 <= p < 65536 /\ length a = 4%nat
  | SIn6 p a => 0 <= p < 65536 /\ length a = 16%nat
  | _ => False
  end.

Definition sock_addr (sa : sockaddr) : buf :=
  match sa with SIn _ a => a | SIn6 _ a => a | _ => [] end.

Lemma ntohs_range p : 0 <= p < 65536 -> 0 <= ntohs p < 65536.
Proof.
  intros Hp. unfold ntohs. pose proof (Z.mod_pos_bound p 256).
  assert (0 <= p / 256 < 256)
    by (split; [apply Z.div_pos; lia | apply Z.div_lt_upper_bound; lia]). lia.
Qed.

Lemma ntohs_involutive p : 0 <= p < 65536 -> ntohs (ntohs p) = p.
Proof.
  intros Hp. unfold ntohs. pose proof (Z.mod_pos_bound p 256). pose proof (Z.div_mod p 256).
  assert (0 <= p / 256 < 256)
    by (split; [apply Z.div_pos; lia | apply Z.div_lt_upper_bound; lia]).
  rewrite (Z.add_comm (p mod 256 * 256)), Z.mod_add, Z.div_add, !(Z.div_small (p / 256)),
    !(Z.mod_small (p / 256)) by lia. lia.
Qed.

(** ** Texts *)

Definition port_text (p : Z) : buf := print_int (ntohs p).

Definition sock_text (sa : sockaddr) : buf :=
  match sa with
  | SIn p a => dotted_quad a ++ (if ntohs p =? 0 then [] else ":"%char :: port_text p)
  | SIn6 p a =>
      if ntohs p =? 0 then ntop6_text a
      else "["%char :: ntop6_text a ++ "]"%char :: ":"%char :: port_text p
  | _ => []
  end.

Lemma port_text_length p : 0 <= p < 65536 -> (length (port_text p) <= 5)%nat.
Proof.
  intros Hp%ntohs_range. unfold port_text, print_int.
  destruct (Z.ltb_spec (ntohs p) 0); [lia|].
  pose proof (dec_aux_length 5 20 (ntohs p) [] ltac:(lia) ltac:(lia)) as Hl.
  cbn [length] in Hl. lia.
Qed.

Lemma snprintf_fits n s : (length s < n)%nat -> snprintf n s = s ++ [NUL].
Proof. intros Hn. unfold snprintf. by rewrite take_ge by lia. Qed.

Lemma strcat_app dst s t r :
  dst = s ++ NUL :: r -> nonul s -> nonul t -> (length s + length t < length dst)%nat ->
  exists d, strcat dst (t ++ [NUL]) = Def d /\ cstr d = Some (s ++ t).
Proof.
  intros Hd Hs Ht Hl. unfold strcat.
  rewrite (need_str_Some dst s) by (subst dst; by apply cstr_app).
  rewrite (need_str_Some _ t) by (by apply cstr_term). rewrite !chk_bind_Def.
  rewrite (proj2 (Nat.ltb_lt _ _) Hl). eexists. split; [done|].
  rewrite app_assoc. apply cstr_app. by apply Forall_app.
Qed.

Lemma nonul_port_text p : nonul (port_text p).
Proof. apply nonul_print_int. Qed.
#[local] Hint Resolve nonul_port_text nonul_ntop6_text dotted_quad_nonul : odr.

(** The text [sock_ntop] returns, of any internet address. *)
Lemma sock_ntop_text old sa salen :
  wf_inet sa -> length old = STRSZ ->
  exists str, sock_ntop old sa salen = Def (Some str) /\ cstr str = Some (sock_text sa).
Proof.
  intros Hwf Ho. destruct sa as [p a|p a| |]; try done; destruct Hwf as [Hp Ha];
    pose proof (port_text_length p Hp) as Hpt; unfold sock_ntop, inet_ntop, STRSZ in *;
    cbn [Z.eqb Pos.eqb AF_INET AF_INET6 sock_text].
  - pose proof (dotted_quad_length a). rewrite inet_ntop4_spec by done. cbv zeta.
    rewrite (proj2 (Nat.ltb_ge _ _)), (proj2 (Nat.ltb_lt _ _)), chk_bind_Def by lia.
    destruct (ntohs p =? 0).
    + eexists. split; [done|]. rewrite app_nil_r. apply cstr_app, dotted_quad_nonul.
    + fold (port_text p). rewrite snprintf_fits by (cbn; lia).
      edestruct (strcat_app (dotted_quad a ++ NUL :: drop (S (length (dotted_quad a))) old)
                   (dotted_quad a) (":"%char :: port_text p)) as (d & Hd & Hc);
        [done | apply dotted_quad_nonul | unfold nonul; constructor; [done|apply nonul_port_text]
        | rewrite length_app; cbn [length]; rewrite length_drop; lia |].
      cbn [app] in Hd |- *. rewrite Hd, chk_bind_Def. by exists d.
  - destruct old as [|o old]; [done|]. cbn [length tl] in *.
    pose proof (length_ntop6_text a Ha). rewrite inet_ntop6_spec by (done || lia).
    rewrite (proj2 (Nat.ltb_ge _ _)), chk_bind_Def by lia.
    destruct (ntohs p =? 0).
    + eexists. split; [done|]. apply cstr_app, nonul_ntop6_text.
    + fold (port_text p). rewrite snprintf_fits by (cbn; lia).
      edestruct (strcat_app ("["%char :: ntop6_text a ++ NUL :: drop (S (length (ntop6_text a))) old)
                   ("["%char :: ntop6_text a) ("]"%char :: ":"%char :: port_text p)) as (d & Hd & Hc);
        [done | unfold nonul; constructor; [done|apply nonul_ntop6_text]
        | unfold nonul; repeat (constructor; [done|]); apply nonul_port_text
        | cbn [length]; rewrite length_app; cbn [length]; rewrite length_drop; lia |].
      cbn [app] in Hd |- *. rewrite Hd, chk_bind_Def. by exists d.
Qed.

(** ** The text determines the address *)

Lemma port_text_inj p q : 0 <= p < 65536 -> 0 <= q < 65536 -> port_text p = port_text q -> p = q.
Proof.
  unfold port_text. intros Hp Hq E.
  rewrite <- (ntohs_involutive p), <- (ntohs_involutive q) by done. f_equal.
  pose proof (ntohs_range p Hp). pose proof (ntohs_range q Hq).
  rewrite <- (atoi_val_print (ntohs p) []), <- (atoi_val_print (ntohs q) []); try done;
    try (apply int_ok_spec; unfold INT_MIN, INT_MAX; lia).
  by rewrite !app_nil_r, E.
Qed.

Lemma ntohs_zero p q :
  0 <= p < 65536 -> 0 <= q < 65536 -> ntohs p = 0 -> ntohs q = 0 -> p = q.
Proof.
  intros Hp Hq Ep Eq. by rewrite <- (ntohs_involutive p), <- (ntohs_involutive q), Ep, Eq.
Qed.

Lemma dotted_quad_inj a b :
  length a = 4%nat -> length b = 4%nat -> dotted_quad a = dotted_quad b -> a = b.
Proof.
  intros Ha Hb E.
  pose proof (inet_pton4_dotted (dotted_quad a ++ [NUL]) a Ha (cstr_term _ (dotted_quad_nonul a))) as H1.
  pose proof (inet_pton4_dotted (dotted_quad b ++ [NUL]) b Hb (cstr_term _ (dotted_quad_nonul b))) as H2.
  rewrite E, H2 in H1. congruence.
Qed.

Lemma ntop6_text_inj a b :
  length a = 16%nat -> length b = 16%nat -> ntop6_text a = ntop6_text b -> a = b.
Proof.
  intros Ha Hb E.
  pose proof (inet_pton6_text a (ntop6_text a ++ [NUL]) Ha (cstr_term _ (nonul_ntop6_text a))) as H1.
  pose proof (inet_pton6_text b (ntop6_text b ++ [NUL]) Hb (cstr_term _ (nonul_ntop6_text b))) as H2.
  rewrite E, H2 in H1. congruence.
Qed.

(** A separator that occurs in neither prefix splits equal texts. *)
Lemma split_at (c : ascii) (s1 s2 r1 r2 : buf) :
  Forall (fun x => x <> c) s1 -> Forall (fun x => x <> c) s2 ->
  (forall x r', r1 = x :: r' -> x = c) -> (forall x r', r2 = x :: r' -> x = c) ->
  s1 ++ r1 = s2 ++ r2 -> s1 = s2 /\ r1 = r2.
Proof.
  intros H1 H2 Hr1 Hr2 E.
  assert (forall s r, Forall (fun x => x <> c) s -> (forall x r', r = x :: r' -> x = c) ->
            span (fun x => negb (Ascii.eqb x c)) (s ++ r) = (s, r)) as Hspan.
  { intros s r Hs Hr. apply span_app.
    - eapply Forall_impl; [exact Hs|]. intros x Hx. by destruct (Ascii.eqb_spec x c).
    - intros x r' ->. rewrite (Hr x r' eq_refl), Ascii.eqb_refl. done. }
  pose proof (Hspan s1 r1 H1 Hr1) as E1. rewrite E, Hspan in E1 by done. by injection E1 as -> ->.
Qed.

Lemma Forall_dotted_quad (P : ascii -> Prop) a :
  P "-"%char -> P "."%char -> (forall d, 0 <= d < 10 -> P (digit d)) -> Forall P (dotted_quad a).
Proof.
  intros H1 H2 H3. destruct a as [|x [|y [|z [|w [|]]]]]; try by constructor. cbn [dotted_quad].
  repeat first [by apply Forall_print_int | apply Forall_app_2 | apply Forall_cons_2; [done|]].
Qed.

Lemma Forall_hex_aux (P : ascii -> Prop) f n :
  (forall d, 0 <= d < 16 -> P (hexdigit d)) -> Forall P (hex_aux f n []).
Proof.
  intros HP. revert n. induction f as [|f IH]; intros n; [constructor|].
  rewrite hex_aux_S. apply Forall_app. split; [destruct (_ =? _); [constructor|apply IH]|].
  repeat constructor. apply HP, Z.mod_pos_bound. lia.
Qed.

Lemma Forall_ntop6_text (P : ascii -> Prop) a :
  P "-"%char -> P "."%char -> P ":"%char -> (forall d, 0 <= d < 10 -> P (digit d)) ->
  (forall d, 0 <= d < 16 -> P (hexdigit d)) -> Forall P (ntop6_text a).
Proof.
  intros H1 H2 H3 H4 H5. unfold ntop6_text. generalize (words a) at 2 3 4. intros ws.
  apply Forall_app. split.
  - generalize (words a), 0%nat. intros rest. induction rest as [|w rest IH]; intros i; [constructor|].
    cbn [body6]. destruct (in_run i (best_run ws)), (run_base (best_run ws) i), (i =? 0)%nat,
      (encap4 i (best_run ws) ws); cbn [app];
      repeat first [apply IH | by apply Forall_hex_aux | by apply Forall_dotted_quad
                   | apply Forall_app_2 | apply Forall_cons_2; [done|]].
  - unfold trail. destruct (best_run ws) as [[b l]|]; [|constructor].
    destruct (_ =? _)%nat; by repeat constructor.
Qed.

Lemma digit_not c : forallb (fun x => negb (Ascii.eqb x c)) (map (fun d => digit (Z.of_nat d)) (seq 0 10)) = true ->
  forall d, 0 <= d < 10 -> digit d <> c.
Proof.
  intros H d Hd E. pose proof (digit_forall _ H d Hd) as Hb. cbn beta in Hb.
  by rewrite E, Ascii.eqb_refl in Hb.
Qed.

Lemma hexdigit_not c :
  Forall (fun d => hexdigit d <> c) (Z.of_nat <$> seq 0 16) -> forall d, 0 <= d < 16 -> hexdigit d <> c.
Proof. apply (nat16_cases (fun d => hexdigit d <> c)). Qed.

Lemma ntop6_text_not c a :
  c <> "-"%char -> c <> "."%char -> c <> ":"%char ->
  forallb (fun x => negb (Ascii.eqb x c)) (map (fun d => digit (Z.of_nat d)) (seq 0 10)) = true ->
  Forall (fun d => hexdigit d <> c) (Z.of_nat <$> seq 0 16) ->
  Forall (fun x => x <> c) (ntop6_text a).
Proof.
  intros H1 H2 H3 H4 H5. apply Forall_ntop6_text; [done..| |].
  - by apply digit_not.
  - by apply hexdigit_not.
Qed.

Lemma sock_text_inj sa sa' :
  wf_inet sa -> wf_inet sa' -> sa_family sa = sa_family sa' -> sock_text sa = sock_text sa' -> sa = sa'.
Proof.
  intros Hwf Hwf' Hf E.
  destruct sa as [p a|p a| |], sa' as [q b|q b| |]; try done;
    destruct Hwf as [Hp Ha], Hwf' as [Hq Hb]; cbn [sock_text] in E.
  - assert (forall x, Forall (fun c => c <> ":"%char) (dotted_quad x)) as Hdq.
    { intros x. apply Forall_dotted_quad; [done..|]. by apply digit_not. }
    apply (split_at ":"%char) in E as [Eq Er]; [|by auto..| |].
    + apply dotted_quad_inj in Eq as ->; [|done..]. f_equal.
      destruct (Z.eqb_spec (ntohs p) 0), (Z.eqb_spec (ntohs q) 0); try done.
      * by apply ntohs_zero.
      * injection Er as Er. by apply port_text_inj.
    + intros x r'. by destruct (ntohs p =? 0); [|intros [= <- _]].
    + intros x r'. by destruct (ntohs q =? 0); [|intros [= <- _]].
  - assert (forall x, Forall (fun c => c <> "]"%char) (ntop6_text x)) as Hcl
      by (intros x; apply ntop6_text_not; (reflexivity || done || (cbn; by repeat constructor))).
    assert (forall x r, ntop6_text x <> "["%char :: r) as Hop.
    { intros x r Ex. assert (Forall (fun c => c <> "["%char) (ntop6_text x)) as Hx
        by (apply ntop6_text_not; (reflexivity || done || (cbn; by repeat constructor))).
      rewrite Ex in Hx. by inversion Hx. }
    destruct (Z.eqb_spec (ntohs p) 0) as [Ep|], (Z.eqb_spec (ntohs q) 0) as [Eq|].
    + apply ntop6_text_inj in E as ->; [|done..]. by rewrite (ntohs_zero p q).
    + by apply Hop in E.
    + symmetry in E. by apply Hop in E.
    + injection E as E. apply (split_at "]"%char) in E as [Ea Er]; [|by auto..| |];
        [| intros x r' Ex; congruence ..].
      apply ntop6_text_inj in Ea as ->; [|done..]. f_equal.
      injection Er as Er. by apply port_text_inj.
Qed.

(** ** Properties *)

(** [sock_ntop] never fails on an internet address and never overruns its
    128-byte buffer, and its text identifies the address and the port: two
    addresses of the same family with the same text are equal. *)
Theorem sock_ntop_identifies old old' sa sa' salen salen' :
  wf_inet sa -> wf_inet sa' -> length old = STRSZ -> length old' = STRSZ ->
  sa_family sa = sa_family sa' ->
  exists str str', sock_ntop old sa salen = Def (Some str) /\
                   sock_ntop old' sa' salen' = Def (Some str') /\
                   (cstr str = cstr str' <-> sa = sa').
Proof.
  intros Hwf Hwf' Ho Ho' Hf.
  destruct (sock_ntop_text old sa salen Hwf Ho) as (str & Hs & Hc).
  destruct (sock_ntop_text old' sa' salen' Hwf' Ho') as (str' & Hs' & Hc').
  exists str, str'. split_and!; [done..|]. rewrite Hc, Hc'. split.
  - intros [= E]. by apply sock_text_inj.
  - by intros ->.
Qed.

Lemma sock_ntop_identifies_witness :
  exists str str',
    sock_ntop (replicate 128 NUL) (SIn6 20480 (replicate 15 NUL ++ [byte_of_Z 1])) 28 = Def (Some str) /\
    sock_ntop (replicate 128 NUL) (SIn6 0 (replicate 15 NUL ++ [byte_of_Z 1])) 28 = Def (Some str') /\
    (cstr str = cstr str' <->
     SIn6 20480 (replicate 15 NUL ++ [byte_of_Z 1]) = SIn6 0 (replicate 15 NUL ++ [byte_of_Z 1])).
Proof. apply sock_ntop_identifies; cbn; first [reflexivity | lia]. Defined.

(** The accessors behave as a record of address and port: setting one reads
    back and leaves the other, the wild card is all zeros, and the comparison
    of addresses is zero exactly for equal addresses of the same family. *)
Theorem sock_accessors sa sa' port addr :
  wf_inet sa -> wf_inet sa' -> length addr = length (sock_addr sa) ->
  sock_get_port (sock_set_port sa port) = port mod 65536 /\
  sock_addr (sock_set_port sa port) = sock_addr sa /\
  (exists s2, sock_set_addr sa addr = Def s2 /\ sock_addr s2 = addr /\
              sock_get_port s2 = sock_get_port sa /\ wf_inet s2) /\
  (exists s3, sock_set_wild sa = Def s3 /\ sock_addr s3 = replicate (length (sock_addr sa)) NUL /\
              sock_get_port s3 = sock_get_port sa) /\
  (exists z, sock_cmp_addr sa sa' = Def z /\
             (z = 0 <-> sa_family sa = sa_family sa' /\ sock_addr sa = sock_addr sa')).
Proof.
  intros Hwf Hwf' Hl. destruct sa as [p a|p a| |]; try done; destruct Hwf as [Hp Ha];
    cbn [sock_get_port sock_set_port sock_addr sock_set_addr sock_set_wild] in *;
    (split; [done|]); (split; [done|]); (split; [|split]).
  1, 4: rewrite memcpy_Def, chk_bind_Def by lia; eexists; split; [done|];
    cbn [sock_addr sock_get_port wf_inet];
    rewrite drop_ge, take_ge, app_nil_r by lia; split_and!; (done || lia).
  1, 3: rewrite memcpy_Def, chk_bind_Def by (rewrite ?length_replicate; lia);
    eexists; split; [done|]; cbn [sock_addr sock_get_port];
    rewrite drop_ge, app_nil_r by lia; rewrite take_ge by (rewrite length_replicate; lia);
    by rewrite Ha.
  - destruct sa' as [q b|q b| |]; try done; destruct Hwf' as [Hq Hb]; cbn [sock_addr].
    + destruct (memcmp_eq a b 4 Ha Hb) as (z & Hz & Hiff). exists z. split; [done|]. naive_solver.
    + exists (-1). split; [done|]. split; [done|]. by intros [? _].
  - destruct sa' as [q b|q b| |]; try done; destruct Hwf' as [Hq Hb]; cbn [sock_addr].
    + exists (-1). split; [done|]. split; [done|]. by intros [? _].
    + destruct (memcmp_eq a b 16 Ha Hb) as (z & Hz & Hiff). exists z. split; [done|]. naive_solver.
Qed.

Lemma sock_accessors_witness :
  sock_get_port (sock_set_port (SIn 0 (chars "abcd")) 80) = 80 mod 65536 /\
  sock_addr (sock_set_port (SIn 0 (chars "abcd")) 80) = chars "abcd" /\
  (exists s2, sock_set_addr (SIn 0 (chars "abcd")) (chars "efgh") = Def s2 /\
              sock_addr s2 = chars "efgh" /\ sock_get_port s2 = 0 /\ wf_inet s2) /\
  (exists s3, sock_set_wild (SIn 0 (chars "abcd")) = Def s3 /\ sock_addr s3 = replicate 4 NUL /\
              sock_get_port s3 = 0) /\
  (exists z, sock_cmp_addr (SIn 0 (chars "abcd")) (SIn 1 (chars "abcd")) = Def z /\
             (z = 0 <-> AF_INET = AF_INET /\ chars "abcd" = chars "abcd")).
Proof.
  apply (sock_accessors (SIn 0 (chars "abcd")) (SIn 1 (chars "abcd")) 80 (chars "efgh"));
    cbn; first [reflexivity | lia].
Defined.
