(* ===== verification/Gai.v ===== *)
(** * getaddrinfo and getnameinfo

    Stevens/unpv13e/libgai: getaddrinfo.c with ga_echeck.c, ga_nsearch.c,
    ga_aistruct.c, ga_clone.c, ga_port.c, ga_serv.c and ga_unix.c, and
    getnameinfo.c with gn_ipv46.c and gai_strerror.c.

    The resolver, the services database and uname are the class [NameService].
    The linked list of results is a list: its nodes are only appended, or
    inserted behind the node a pass is at.  Allocation is taken to succeed.  A
    [char *] argument is the string it points to, or [None] for [NULL]. *)

From S2P Require Import Prelude CLib Inet Inet6 Sockaddr.

Definition AF_UNSPEC : Z := 0.
Definition SOCK_STREAM : Z := 1.
Definition SOCK_DGRAM : Z := 2.
Definition SOCK_RAW : Z := 3.
Definition AI_PASSIVE : Z := 1.
Definition AI_CANONNAME : Z := 2.
Definition AI_CLONE : Z := 4.
Definition EAI_ADDRFAMILY : Z := 1.
Definition EAI_AGAIN : Z := 2.
Definition EAI_BADFLAGS : Z := 3.
Definition EAI_FAIL : Z := 4.
Definition EAI_FAMILY : Z := 5.
Definition EAI_MEMORY : Z := 6.
Definition EAI_NODATA : Z := 7.
Definition EAI_NONAME : Z := 8.
Definition EAI_SERVICE : Z := 9.
Definition EAI_SOCKTYPE : Z := 10.
Definition EAI_SYSTEM : Z := 11.

Definition flag (flags bit : Z) : bool := negb (Z.land flags bit =? 0).

Record addrinfo := AI {
  ai_flags : Z; ai_family : Z; ai_socktype : Z; ai_protocol : Z;
  ai_addr : option sockaddr; ai_canonname : option buf }.

(** What is not part of the repository: the resolver ([inl] is [h_errno]), the
    services database (ports in network byte order), and [uname]. *)
Record hostent := Hostent { h_name : buf; h_addrtype : Z; h_addr_list : list buf }.

Class NameService := {
  gethostbyname2 : buf -> Z -> Z + hostent;
  gethostbyname : bool -> buf -> Z + hostent;   (** with [RES_USE_INET6] on or off *)
  gethostbyaddr : buf -> Z -> option buf;
  getservbyname : buf -> string -> option Z;
  getservbyport : Z -> bool -> option buf;
  nodename : option buf }.

(** [p == NULL || p[0] == '\0']. *)
Definition empty_str (p : option buf) : bool :=
  match p with None => true | Some [] => true | Some _ => false end.

(** ** Error checking *)

Definition ga_echeck (hostname servname : option buf) (flags family socktype : Z) : Z :=
  if negb (Z.land flags (Z.lnot (Z.lor AI_PASSIVE AI_CANONNAME)) =? 0) then EAI_BADFLAGS
  else if empty_str hostname && empty_str servname then EAI_NONAME
  else if family =? AF_UNSPEC then 0
  else if (family =? AF_INET) || (family =? AF_INET6) then
    if negb (socktype =? 0) &&
       (negb (socktype =? SOCK_STREAM) && negb (socktype =? SOCK_DGRAM) &&
        negb (socktype =? SOCK_RAW)) then EAI_SOCKTYPE else 0
  else if family =? AF_UNIX then
    if negb (socktype =? 0) && (negb (socktype =? SOCK_STREAM) && negb (socktype =? SOCK_DGRAM))
    then EAI_SOCKTYPE else 0
  else EAI_FAMILY.

(** ** What to look up *)

(** The [search] array for one family or for both, IPv6 first. *)
Definition search_for (family : Z) (host4 host6 : buf) : list (buf * Z) :=
  if family =? AF_INET then [(host4, AF_INET)]
  else if family =? AF_INET6 then [(host6, AF_INET6)]
  else if family =? AF_UNSPEC then [(host6, AF_INET6); (host4, AF_INET)]
  else [].

(** [None]: an array of a length other than 1 or 2 ends the process. *)
Definition ga_nsearch (hostname : option buf) (flags family : Z) : option (list (buf * Z)) :=
  let search :=
    match hostname with
    | Some ((_ :: _) as h) => search_for family h h
    | _ =>
        if flag flags AI_PASSIVE then search_for family (chars "0.0.0.0") (chars "0::0")
        else search_for family (chars "localhost") (chars "0::1")
    end in
  if (length search <? 1)%nat || (2 <? length search)%nat then None else Some search.

(** ** Building the list *)

(** A new node: [inl] is the error.  The path a passive Unix domain address
    unlinks is the second component. *)
Definition ga_aistruct (hints : addrinfo) (addr : buf) (family : Z)
    : chk (Z + addrinfo * list buf) :=
  let fl := if ai_socktype hints =? 0 then AI_CLONE else 0 in
  let node sa := AI fl family (ai_socktype hints) (ai_protocol hints) sa None in
  if family =? AF_INET then
    a ← memcpy (replicate 4 NUL) addr 4; mret (inr (node (Some (SIn 0 a)), []))
  else if family =? AF_INET6 then
    a ← memcpy (replicate 16 NUL) addr 16; mret (inr (node (Some (SIn6 0 a)), []))
  else if family =? AF_UNIX then
    n ← strlen addr;
    if (108 <=? n)%nat then mret (inl EAI_SERVICE)
    else
      p ← strcpy (replicate 108 NUL) addr;
      s ← need_str p;
      mret (inr (node (Some (SUn p)), if flag (ai_flags hints) AI_PASSIVE then [s] else []))
  else mret (inr (node None, [])).

(** The new node of [ga_clone]; it goes behind the one it is made from. *)
Definition ga_clone (ai : addrinfo) : addrinfo :=
  AI 0 (ai_family ai) (ai_socktype ai) (ai_protocol ai) (ai_addr ai) None.

(** The assignments at the end of the loop of [ga_port], and whether [nfound]
    is incremented. *)
Definition set_type_port (ai : addrinfo) (port socktype : Z) : addrinfo * bool :=
  let inet := (ai_family ai =? AF_INET) || (ai_family ai =? AF_INET6) in
  (AI (ai_flags ai) (ai_family ai) socktype (ai_protocol ai)
      (if inet then (fun sa => sock_set_port sa port) <$> ai_addr ai else ai_addr ai)
      (ai_canonname ai), inet).

Fixpoint ga_port (ais : list addrinfo) (port socktype : Z) : Z * list addrinfo :=
  match ais with
  | [] => (0, [])
  | ai :: rest =>
      let '(n, rest') := ga_port rest port socktype in
      if flag (ai_flags ai) AI_CLONE then
        if negb (ai_socktype ai =? 0) then
          let '(ai', c) := set_type_port (ga_clone ai) port socktype in
          (n + (if c then 1 else 0), ai :: ai' :: rest')
        else
          let '(ai', c) := set_type_port ai port socktype in
          (n + (if c then 1 else 0), ai' :: rest')
      else if negb (ai_socktype ai =? socktype) then (n, ai :: rest')
      else
        let '(ai', c) := set_type_port ai port socktype in
        (n + (if c then 1 else 0), ai' :: rest')
  end.

Definition htons (z : Z) : Z := ntohs (z mod 65536).

Section Gai.
Context {ns : NameService}.

(** The error code (0 is success) and the list. *)
Definition ga_serv (ais : list addrinfo) (hints : addrinfo) (serv : buf)
    : chk (Z * list addrinfo) :=
  let st := ai_socktype hints in
  '(nfound, ais') ←
    match serv with
    | c :: _ =>
        if isdigit c then
          p ← atoi (serv ++ [NUL]);
          let port := htons p in
          if negb (st =? 0) then mret (ga_port ais port st)
          else
            let '(n1, l1) := ga_port ais port SOCK_STREAM in
            let '(n2, l2) := ga_port l1 port SOCK_DGRAM in
            mret (n1 + n2, l2)
        else
          let '(n1, l1) :=
            if (st =? 0) || (st =? SOCK_STREAM) then
              match getservbyname serv "tcp" with
              | Some p => ga_port ais p SOCK_STREAM
              | None => (0, ais)
              end
            else (0, ais) in
          let '(n2, l2) :=
            if (st =? 0) || (st =? SOCK_DGRAM) then
              match getservbyname serv "udp" with
              | Some p => ga_port l1 p SOCK_DGRAM
              | None => (0, l1)
              end
            else (0, l1) in
          mret (n1 + n2, l2)
    | [] => mret (0, ais)
    end;
  if nfound =? 0 then mret (if st =? 0 then EAI_NONAME else EAI_SERVICE, ais')
  else mret (0, ais').

(** ** getaddrinfo *)

Inductive gai_result :=
  | GaiExit                                   (** the process ends in [err_quit] *)
  | GaiError (e : Z)
  | GaiFound (l : list addrinfo) (unlinked : list buf).

Definition host_error (h_errno : Z) : Z :=
  if h_errno =? 2 then EAI_AGAIN else if h_errno =? 3 then EAI_FAIL
  else if h_errno =? 4 then EAI_NODATA else EAI_NONAME.

Definition wants_canon (hostname : option buf) (hints : addrinfo) : bool :=
  negb (empty_str hostname) && flag (ai_flags hints) AI_CANONNAME.

(** The addresses of one host, in order. *)
Fixpoint add_addrs (hints : addrinfo) (family : Z) (addrs : list buf) (acc : list addrinfo)
    : chk (Z + list addrinfo) :=
  match addrs with
  | [] => mret (inr acc)
  | a :: addrs' =>
      r ← ga_aistruct hints a family;
      match r with
      | inl e => mret (inl e)
      | inr (ai, _) => add_addrs hints family addrs' (acc ++ [ai])
      end
  end.

(** A numeric address: [None] if it is not one of this family's syntax, else
    what happens to the list. *)
Definition try_numeric (hints : addrinfo) (host : buf) (sfam fam : Z) (acc : list addrinfo)
    : chk (option (Z + list addrinfo)) :=
  r ← inet_pton fam (host ++ [NUL]);
  match r with
  | inr (Some a) =>
      if negb (ai_family hints =? AF_UNSPEC) && negb (ai_family hints =? fam)
      then mret (Some (inl EAI_ADDRFAMILY))
      else if negb (sfam =? fam) then mret (Some (inr acc))
      else r ← add_addrs hints fam [a] acc; mret (Some r)
  | _ => mret None
  end.

Definition starts_digit (host : buf) : bool :=
  match host with c :: _ => isdigit c | [] => false end.
Definition starts_hex (host : buf) : bool :=
  match host with
  | c :: _ => (bool_decide (is_Some (xdigit c)) || Ascii.eqb c ":"%char) &&
              existsb (Ascii.eqb ":"%char) host
  | [] => false
  end.

(** The body of the [for] over [search]: the list and the canonical name. *)
Definition search_one (nsearch : nat) (hostname : option buf) (hints : addrinfo)
    (host : buf) (sfam : Z) (acc : list addrinfo) (canon : option buf)
    : chk (Z + list addrinfo * option buf) :=
  v4 ← (if starts_digit host then try_numeric hints host sfam AF_INET acc else mret None);
  match v4 with
  | Some (inl e) => mret (inl e)
  | Some (inr l) => mret (inr (l, canon))
  | None =>
      v6 ← (if starts_hex host then try_numeric hints host sfam AF_INET6 acc else mret None);
      match v6 with
      | Some (inl e) => mret (inl e)
      | Some (inr l) => mret (inr (l, canon))
      | None =>
          match (if (nsearch =? 2)%nat then gethostbyname2 host sfam
                 else gethostbyname (sfam =? AF_INET6) host) with
          | inl herr =>
              if (nsearch =? 2)%nat then mret (inr (acc, canon)) else mret (inl (host_error herr))
          | inr hp =>
              if negb (ai_family hints =? AF_UNSPEC) && negb (ai_family hints =? h_addrtype hp)
              then mret (inl EAI_ADDRFAMILY)
              else
                let canon' := if wants_canon hostname hints && bool_decide (canon = None)
                              then Some (h_name hp) else canon in
                r ← add_addrs hints (h_addrtype hp) (h_addr_list hp) acc;
                mret (match r with inl e => inl e | inr l => inr (l, canon') end)
          end
      end
  end.

Fixpoint search_all (nsearch : nat) (hostname : option buf) (hints : addrinfo)
    (ss : list (buf * Z)) (acc : list addrinfo) (canon : option buf)
    : chk (Z + list addrinfo * option buf) :=
  match ss with
  | [] => mret (inr (acc, canon))
  | (host, sfam) :: ss' =>
      r ← search_one nsearch hostname hints host sfam acc canon;
      match r with
      | inl e => mret (inl e)
      | inr (acc', canon') => search_all nsearch hostname hints ss' acc' canon'
      end
  end.

Definition set_canon (ai : addrinfo) (c : buf) : addrinfo :=
  AI (ai_flags ai) (ai_family ai) (ai_socktype ai) (ai_protocol ai) (ai_addr ai) (Some c).

(** [ga_unix]: stream and datagram addresses for a path. *)
Definition ga_unix (path : buf) (hints : addrinfo) : chk gai_result :=
  if negb (ai_family hints =? AF_UNSPEC) && negb (ai_family hints =? AF_UNIX)
  then mret (GaiError EAI_ADDRFAMILY)
  else
    let with_type t := AI (ai_flags hints) (ai_family hints) t (ai_protocol hints)
                          (ai_addr hints) (ai_canonname hints) in
    first ← (if ai_socktype hints =? 0
             then r ← ga_aistruct (with_type SOCK_STREAM) (path ++ [NUL]) AF_UNIX;
                  mret (match r with inl e => inl e | inr (ai, u) => inr ([ai], u) end)
             else mret (inr ([], [])));
    match first with
    | inl e => mret (GaiError e)
    | inr (l, u) =>
        let hints' := if ai_socktype hints =? 0 then with_type SOCK_DGRAM else hints in
        r ← ga_aistruct hints' (path ++ [NUL]) AF_UNIX;
        match r with
        | inl e => mret (GaiError e)
        | inr (ai, u') =>
            let l' := l ++ [ai] in
            if flag (ai_flags hints) AI_CANONNAME then
              match nodename, l' with
              | None, _ => mret (GaiError EAI_SYSTEM)
              | Some n, h :: t => mret (GaiFound (set_canon h n :: t) (u ++ u'))
              | Some _, [] => Bad BadPointer
              end
            else mret (GaiFound l' (u ++ u'))
        end
    end.

Definition no_hints : addrinfo := AI 0 AF_UNSPEC 0 0 None None.

Definition unix_host (hostname servname : option buf) : bool :=
  match hostname, servname with
  | Some h, Some (c :: _) =>
      (bool_decide (h = chars "/local") || bool_decide (h = chars "/unix")) &&
      Ascii.eqb c "/"%char
  | _, _ => false
  end.

Definition getaddrinfo (hostname servname : option buf) (hintsp : option addrinfo)
    : chk gai_result :=
  let hints := default no_hints hintsp in
  let rc := ga_echeck hostname servname (ai_flags hints) (ai_family hints) (ai_socktype hints) in
  if negb (rc =? 0) then mret (GaiError rc)
  else if unix_host hostname servname then ga_unix (default [] servname) hints
  else
    match ga_nsearch hostname (ai_flags hints) (ai_family hints) with
    | None => mret GaiExit
    | Some search =>
        r ← search_all (length search) hostname hints search [] None;
        match r with
        | inl e => mret (GaiError e)
        | inr ([], _) => mret (GaiError EAI_NONAME)
        | inr (h :: t, canon) =>
            let h' := if wants_canon hostname hints
                      then set_canon h (match canon with
                                        | Some c => c
                                        | None => match search with (s, _) :: _ => s | [] => [] end
                                        end)
                      else h in
            match servname with
            | Some ((_ :: _) as serv) =>
                '(rc, l) ← ga_serv (h' :: t) hints serv;
                mret (if rc =? 0 then GaiFound l [] else GaiError rc)
            | _ => mret (GaiFound (h' :: t) [])
            end
        end
    end.

(** ** getnameinfo *)

Definition NI_NOFQDN : Z := 1.
Definition NI_NUMERICHOST : Z := 2.
Definition NI_NAMEREQD : Z := 4.
Definition NI_NUMERICSERV : Z := 8.
Definition NI_DGRAM : Z := 16.

(** The text up to the first dot. *)
Fixpoint upto_dot (s : buf) : buf :=
  match s with
  | [] => []
  | c :: s' => if Ascii.eqb c "."%char then [] else c :: upto_dot s'
  end.

(** The arrays [host] and [serv] after the call ([None]: untouched, length 0);
    the whole is [None] for the return value 1. *)
Definition gn_ipv46 (host : buf) (servlen : nat) (addr : buf) (family port flags : Z)
    : chk (option (option buf * option buf)) :=
  let hostlen := length host in
  let numeric := r ← inet_ntop family addr host hostlen;
                 mret (match r with inl _ => None | inr h => Some h end) in
  h ← (if (hostlen =? 0)%nat then mret (Some None)
       else if flag flags NI_NUMERICHOST then r ← numeric; mret (Some <$> r)
       else
         match gethostbyaddr addr family with
         | Some name =>
             let n := if flag flags NI_NOFQDN then upto_dot name else name in
             mret (Some (Some (snprintf hostlen n)))
         | None =>
             if flag flags NI_NAMEREQD then mret None else r ← numeric; mret (Some <$> r)
         end);
  match h with
  | None => mret None
  | Some h' =>
      let s :=
        if (servlen =? 0)%nat then None
        else if flag flags NI_NUMERICSERV then Some (snprintf servlen (print_int (ntohs port)))
        else match getservbyport port (flag flags NI_DGRAM) with
             | Some name => Some (snprintf servlen name)
             | None => Some (snprintf servlen (print_int (ntohs port)))
             end in
      mret (Some (h', s))
  end.

Definition getnameinfo (sa : sockaddr) (host : buf) (servlen : nat) (flags : Z)
    : chk (option (option buf * option buf)) :=
  match sa with
  | SIn port addr => gn_ipv46 host servlen addr AF_INET port flags
  | SIn6 port addr => gn_ipv46 host servlen addr AF_INET6 port flags
  | SUn path =>
      p ← need_str path;
      mret (Some (if (length host =? 0)%nat then None else Some (snprintf (length host) (chars "/local")),
                  if (servlen =? 0)%nat then None else Some (snprintf servlen p)))
  | SOther _ => mret None
  end.
End Gai.

Definition gai_strerror (err : Z) : string :=
  if err =? EAI_ADDRFAMILY then "address family for host not supported"
  else if err =? EAI_AGAIN then "temporary failure in name resolution"
  else if err =? EAI_BADFLAGS then "invalid flags value"
  else if err =? EAI_FAIL then "non-recoverable failure in name resolution"
  else if err =? EAI_FAMILY then "address family not supported"
  else if err =? EAI_MEMORY then "memory allocation failure"
  else if err =? EAI_NODATA then "no address associated with host"
  else if err =? EAI_NONAME then "host nor service provided, or not known"
  else if err =? EAI_SERVICE then "service not supported for socket type"
  else if err =? EAI_SOCKTYPE then "socket type not supported"
  else if err =? EAI_SYSTEM then "system error"
  else "unknown getaddrinfo() error".

(** * Lemmas *)

(** ** Services *)

(** A node as [ga_aistruct] makes it when the caller gives no socket type. *)
Definition fresh (ai : addrinfo) : Prop :=
  ai_flags ai = AI_CLONE /\ ai_socktype ai = 0 /\
  exists sa, ai_addr ai = Some sa /\ wf_inet sa /\ ai_family ai = sa_family sa.

(** The node with a socket type and a port. *)
Definition typed (ai : addrinfo) (flags socktype port : Z) (canon : option buf) : addrinfo :=
  AI flags (ai_family ai) socktype (ai_protocol ai) ((fun sa => sock_set_port sa port) <$> ai_addr ai) canon.

Lemma set_type_port_inet ai sa port st :
  ai_addr ai = Some sa -> wf_inet sa -> ai_family ai = sa_family sa ->
  set_type_port ai port st = (typed ai (ai_flags ai) st port (ai_canonname ai), true).
Proof.
  intros Ha Hw Hf. unfold set_type_port, typed. rewrite Hf.
  by destruct sa as [p a|p a| |].
Qed.

Lemma ga_port_first l port :
  Forall fresh l ->
  ga_port l port SOCK_STREAM
  = (Z.of_nat (length l),
     (fun ai => typed ai AI_CLONE SOCK_STREAM port (ai_canonname ai)) <$> l).
Proof.
  induction 1 as [|ai l (Hfl & Hst & sa & Ha & Hw & Hf) _ IH]; [done|].
  cbn [ga_port]. rewrite IH. unfold flag. rewrite Hfl, Hst. cbn [Z.eqb Z.land Pos.land negb AI_CLONE].
  rewrite (set_type_port_inet _ sa) by done. rewrite Hfl.
  cbn [length fmap list_fmap]. f_equal. lia.
Qed.

(** The second pass clones every node. *)
Lemma ga_port_second l p1 p2 :
  Forall fresh l ->
  ga_port ((fun ai => typed ai AI_CLONE SOCK_STREAM p1 (ai_canonname ai)) <$> l) p2 SOCK_DGRAM
  = (Z.of_nat (length l),
     l ≫= fun ai => [typed ai AI_CLONE SOCK_STREAM p1 (ai_canonname ai);
                     typed (typed ai 0 SOCK_STREAM p1 None) 0 SOCK_DGRAM p2 None]).
Proof.
  induction 1 as [|ai l (Hfl & Hst & sa & Ha & Hw & Hf) _ IH]; [done|].
  cbn [fmap list_fmap ga_port]. rewrite IH.
  change (flag (ai_flags (typed _ AI_CLONE _ _ _)) AI_CLONE) with true.
  change (negb (ai_socktype (typed _ _ SOCK_STREAM _ _) =? 0)) with true. cbv iota.
  rewrite (set_type_port_inet _ (sock_set_port sa p1)).
  - cbn [length mbind list_bind]. f_equal. lia.
  - unfold ga_clone, typed. cbn [ai_addr]. by rewrite Ha.
  - destruct sa as [p a|p a| |]; try done; destruct Hw as [_ Hl]; cbn; split; try done;
      apply Z.mod_pos_bound; lia.
  - unfold ga_clone, typed. cbn [ai_family]. rewrite Hf. by destruct sa.
Qed.

Lemma sock_set_port_twice sa p q : sock_set_port (sock_set_port sa p) q = sock_set_port sa q.
Proof. by destruct sa. Qed.

(** For each address a stream and then a datagram entry. *)
Definition both_types (port : Z) (ai : addrinfo) : list addrinfo :=
  [typed ai AI_CLONE SOCK_STREAM port (ai_canonname ai); typed ai 0 SOCK_DGRAM port None].

Lemma both_passes l port :
  Forall fresh l ->
  (let '(n1, l1) := ga_port l port SOCK_STREAM in
   let '(n2, l2) := ga_port l1 port SOCK_DGRAM in (n1 + n2, l2))
  = (2 * Z.of_nat (length l), l ≫= both_types port).
Proof.
  intros Hl. rewrite ga_port_first, ga_port_second by done. f_equal; [lia|].
  clear Hl. induction l as [|ai l IH]; [done|]. cbn [mbind list_bind]. rewrite IH. f_equal.
  unfold both_types. do 2 f_equal. unfold typed. cbn [ai_family ai_protocol ai_addr ai_socktype].
  destruct (ai_addr ai) as [sa|]; [|done]. cbn. by rewrite sock_set_port_twice.
Qed.

Lemma print_nat_digit n : 0 <= n -> exists c s, print_int n = c :: s /\ isdigit c = true.
Proof.
  intros Hn. unfold print_int. destruct (Z.ltb_spec n 0); [lia|].
  destruct (dec_aux_cons 20 n []) as (d & s & Hd & ->); [done|].
  exists (digit d), s. split; [done|]. by apply isdigit_digit.
Qed.

Lemma ga_serv_numeric {ns : NameService} l hints n :
  Forall fresh l -> l <> [] -> ai_socktype hints = 0 -> 0 <= n < 65536 ->
  ga_serv l hints (print_int n) = Def (0, l ≫= both_types (htons n)).
Proof.
  intros Hl Hne Hst Hn. unfold ga_serv. rewrite Hst.
  destruct (print_nat_digit n) as (c & s & E & Hc); [lia|]. rewrite E, Hc, <- E.
  rewrite atoi_print by (apply int_ok_spec; unfold INT_MIN, INT_MAX; lia).
  rewrite chk_bind_Def. cbn [Z.eqb negb].
  pose proof (both_passes l (htons n) Hl) as Hb.
  destruct (ga_port l (htons n) SOCK_STREAM) as [n1 l1].
  destruct (ga_port l1 (htons n) SOCK_DGRAM) as [n2 l2]. injection Hb as Hn12 ->.
  rewrite chk_bind_Def, Hn12. destruct (Z.eqb_spec (2 * Z.of_nat (length l)) 0); [|done].
  destruct l; [done|]. cbn in *. lia.
Qed.

(** ** Numeric hosts *)

(** [inet_pton4] refuses a text with a character that is neither a digit nor a
    dot. *)
Lemma pton4_loop_reject s saw k tmp :
  existsb (Ascii.eqb ":"%char) s = true ->
  (k = if saw : bool then length tmp else (length tmp - 1)%nat) -> (1 <= length tmp <= 4)%nat ->
  pton4_loop s saw k tmp = Def None.
Proof.
  revert saw k tmp. induction s as [|c s IH]; intros saw k tmp Hs Hk Ht; [done|].
  cbn [pton4_loop]. cbn [existsb] in Hs. destruct (isdigit c) eqn:Ed.
  - assert (Ascii.eqb ":"%char c = false) as Ec.
    { destruct (Ascii.eqb_spec ":"%char c) as [<-|]; [done|done]. }
    rewrite Ec in Hs. cbn [orb] in Hs. destruct (255 <? _); [done|].
    assert (length (hd 0 tmp * 10 + (Z_of_byte c - 48) :: tl tmp) = length tmp) as Hl
      by (destruct tmp; cbn in *; lia).
    destruct saw; [apply IH; [done|by rewrite Hl|by rewrite Hl]|].
    destruct (4 <? S k)%nat; [done|]. apply IH; [done|rewrite Hl; lia|by rewrite Hl].
  - destruct (Ascii.eqb_spec c "."%char) as [->|]; [|done]. cbn [andb].
    cbn [Ascii.eqb Bool.eqb orb] in Hs. destruct saw; [|done].
    destruct (Nat.eqb_spec k 4); [done|].
    rewrite (proj2 (Nat.ltb_lt _ _)) by lia. apply IH; [done|cbn; lia|cbn; lia].
Qed.

Lemma inet_pton4_reject s :
  nonul s -> existsb (Ascii.eqb ":"%char) s = true -> inet_pton4 (s ++ [NUL]) = Def None.
Proof.
  intros Hn Hs. unfold inet_pton4. rewrite (need_str_Some _ _ (cstr_term _ Hn)), chk_bind_Def.
  by rewrite pton4_loop_reject by (done || cbn; lia).
Qed.

(** An IPv6 text starts with a colon, or with a word and a colon. *)
Lemma ntop6_text_head a :
  length a = 16%nat ->
  (exists r, ntop6_text a = ":"%char :: r) \/ (exists w r, ntop6_text a = print_hex w ++ ":"%char :: r).
Proof.
  intros Ha. destruct (words_spec a Ha) as (Hl & _ & _). unfold ntop6_text.
  pose proof (best_run_is_best (words a) Hl) as Hb.
  destruct (best_run (words a)) as [[b l]|].
  - destruct Hb as (Hl2 & [Hbl _]%zero_run_split & _). rewrite Hl in Hbl.
    rewrite body6_gap by done. destruct (take b (words a)) as [|w ws]; [left; by eexists|].
    right. by eexists _, _.
  - rewrite body6_plain by done. right.
    destruct (words a) as [|w [|w' ws]]; try done. by eexists _, _.
Qed.

Lemma ntop6_text_hex a :
  length a = 16%nat ->
  starts_hex (ntop6_text a) = true /\ existsb (Ascii.eqb ":"%char) (ntop6_text a) = true.
Proof.
  intros Ha. destruct (ntop6_text_head a Ha) as [[r ->]|(w & r & ->)]; [done|].
  assert (existsb (Ascii.eqb ":"%char) (print_hex w ++ ":"%char :: r) = true) as Hc
    by (rewrite existsb_app; cbn; by rewrite orb_true_r).
  split; [|done]. destruct (print_hex_head w) as (d & s & Hd & E). rewrite E in *. cbn [app] in *.
  unfold starts_hex. rewrite Hc, xdigit_hexdigit by done. done.
Qed.

Definition host_text (sa : sockaddr) : buf :=
  match sa with SIn _ a => dotted_quad a | SIn6 _ a => ntop6_text a | _ => [] end.

Lemma host_text_nonempty sa : wf_inet sa -> exists c s, host_text sa = c :: s.
Proof.
  destruct sa as [p a|p a| |]; try done; intros [_ Ha]; cbn [host_text].
  - destruct a as [|x [|y [|z [|w [|]]]]]; try done. cbn [dotted_quad].
    destruct (print_int_cons (Z_of_byte x)) as (c & s & ->). by eexists _, _.
  - destruct (ntop6_text_head a Ha) as [[r ->]|(w & r & ->)]; [by eexists _, _|].
    destruct (print_hex_head w) as (d & s & _ & ->). by eexists _, _.
Qed.

(** The node for a numeric host. *)
Definition host_node (sa : sockaddr) : addrinfo :=
  AI AI_CLONE (sa_family sa) 0 0 (Some (sock_set_port sa 0)) None.

Lemma add_one sa : wf_inet sa ->
  add_addrs no_hints (sa_family sa) [sock_addr sa] [] = Def (inr [host_node sa]).
Proof.
  destruct sa as [p a|p a| |]; try done; intros [_ Ha]; cbn [add_addrs sa_family sock_addr ga_aistruct];
    unfold ga_aistruct; cbn [Z.eqb Pos.eqb AF_INET AF_INET6];
    rewrite memcpy_Def by (rewrite ?length_replicate; lia); rewrite !chk_bind_Def;
    rewrite drop_ge, take_ge, app_nil_r by (rewrite ?length_replicate; lia); done.
Qed.

(** Both searches find the numeric host without the resolver. *)
Lemma search_numeric {ns : NameService} hn sa acc :
  wf_inet sa ->
  search_one 2 hn no_hints (host_text sa) (sa_family sa) [] None = Def (inr ([host_node sa], None)) /\
  forall f, f <> sa_family sa ->
    search_one 2 hn no_hints (host_text sa) f acc None = Def (inr (acc, None)).
Proof.
  intros Hw. pose proof (add_one sa Hw) as Hadd.
  destruct sa as [p a|p a| |]; try done; destruct Hw as [_ Ha];
    cbn [sa_family host_text sock_addr] in *.
  - assert (starts_digit (dotted_quad a) = true) as Hsd.
    { destruct a as [|x [|y [|z [|w [|]]]]]; try done. cbn [dotted_quad].
      pose proof (Z_of_byte_range x).
      destruct (print_nat_digit (Z_of_byte x)) as (c & s & -> & Hc); [lia|done]. }
    assert (inet_pton AF_INET (dotted_quad a ++ [NUL]) = Def (inr (Some a))) as Hp.
    { unfold inet_pton. cbn [Z.eqb Pos.eqb AF_INET].
      by rewrite (inet_pton4_dotted _ a Ha (cstr_term _ (dotted_quad_nonul a))). }
    unfold search_one, try_numeric. rewrite Hsd, Hp, !chk_bind_Def. split.
    + cbn [negb andb Z.eqb Pos.eqb AF_INET ai_family no_hints AF_UNSPEC].
      change 2 with AF_INET. by rewrite Hadd.
    + intros f Hf. cbn [negb andb Z.eqb ai_family no_hints AF_UNSPEC].
      by rewrite (proj2 (Z.eqb_neq _ _) Hf).
  - destruct (ntop6_text_hex a Ha) as [Hsh Hcol].
    assert (inet_pton AF_INET (ntop6_text a ++ [NUL]) = Def (inr None)) as Hp4.
    { unfold inet_pton. cbn [Z.eqb Pos.eqb AF_INET].
      by rewrite inet_pton4_reject by (done || apply nonul_ntop6_text). }
    assert (inet_pton AF_INET6 (ntop6_text a ++ [NUL]) = Def (inr (Some a))) as Hp6.
    { unfold inet_pton. cbn [Z.eqb Pos.eqb AF_INET AF_INET6].
      by rewrite (inet_pton6_text a _ Ha (cstr_term _ (nonul_ntop6_text a))). }
    assert (forall f l, (if starts_digit (ntop6_text a)
              then try_numeric no_hints (ntop6_text a) f AF_INET l else mret None) = Def None) as H4.
    { intros f l. destruct (starts_digit _); [|done]. unfold try_numeric. by rewrite Hp4. }
    unfold search_one. split.
    + rewrite H4, chk_bind_Def, Hsh. unfold try_numeric. rewrite Hp6, !chk_bind_Def.
      cbn [negb andb Z.eqb Pos.eqb AF_INET6 ai_family no_hints AF_UNSPEC].
      change 10 with AF_INET6. by rewrite Hadd.
    + intros f Hf. rewrite H4, chk_bind_Def, Hsh. unfold try_numeric. rewrite Hp6, !chk_bind_Def.
      cbn [negb andb Z.eqb ai_family no_hints AF_UNSPEC].
      by rewrite (proj2 (Z.eqb_neq _ _) Hf).
Qed.

Lemma search_all_numeric {ns : NameService} hn sa :
  wf_inet sa ->
  search_all 2 hn no_hints [(host_text sa, AF_INET6); (host_text sa, AF_INET)] [] None
  = Def (inr ([host_node sa], None)).
Proof.
  intros Hw. cbn [search_all].
  destruct (search_numeric hn sa [] Hw) as [Hown Hskip].
  destruct (search_numeric hn sa [host_node sa] Hw) as [_ Hkeep].
  destruct sa as [p a|p a| |]; try done; cbn [sa_family] in *.
  - rewrite Hskip, chk_bind_Def by done. by rewrite Hown.
  - rewrite Hown, chk_bind_Def. by rewrite Hkeep by done.
Qed.

Lemma htons_ntohs p : 0 <= p < 65536 -> htons (ntohs p) = p.
Proof.
  intros Hp. unfold htons. pose proof (ntohs_range p Hp).
  rewrite Z.mod_small by done. by apply ntohs_involutive.
Qed.

Lemma fresh_host_node sa : wf_inet sa -> fresh (host_node sa).
Proof.
  intros Hw. split; [done|]. split; [done|]. exists (sock_set_port sa 0). split; [done|].
  destruct sa as [p a|p a| |]; try done; destruct Hw as [_ Hl]; split; try done; cbn; split; try done; lia.
Qed.

Lemma sock_set_own_port sa : wf_inet sa -> sock_set_port sa (sock_get_port sa) = sa.
Proof.
  destruct sa as [p a|p a| |]; try done; intros [Hp _]; cbn; by rewrite Z.mod_small.
Qed.

(** [getnameinfo] without the name service. *)
Lemma getnameinfo_numeric {ns : NameService} sa host :
  wf_inet sa -> length host = 46%nat ->
  exists h, getnameinfo sa host 32 (NI_NUMERICHOST + NI_NUMERICSERV)
            = Def (Some (Some h, Some (port_text (sock_get_port sa) ++ [NUL]))) /\
            cstr h = Some (host_text sa).
Proof.
  intros Hw Hh.
  assert (snprintf 32 (port_text (sock_get_port sa)) = port_text (sock_get_port sa) ++ [NUL]) as Hs.
  { apply snprintf_fits.
    assert (length (port_text (sock_get_port sa)) <= 5)%nat; [|lia].
    apply port_text_length. destruct sa; try done; apply Hw. }
  destruct sa as [p a|p a| |]; try done; destruct Hw as [_ Ha]; unfold getnameinfo, gn_ipv46;
    rewrite Hh; cbn [Nat.eqb]; change (flag _ NI_NUMERICHOST) with true;
    change (flag _ NI_NUMERICSERV) with true; cbv iota; unfold inet_ntop;
    cbn [Z.eqb Pos.eqb AF_INET AF_INET6 sock_get_port host_text] in *;
    fold (port_text p); rewrite Hs.
  - pose proof (dotted_quad_length a). rewrite inet_ntop4_spec by done. cbv zeta. rewrite Hh.
    rewrite (proj2 (Nat.ltb_ge _ _)), (proj2 (Nat.ltb_lt _ _)), !chk_bind_Def by lia.
    eexists. split; [done|]. apply cstr_app, dotted_quad_nonul.
  - pose proof (length_ntop6_text a Ha). rewrite inet_ntop6_spec by (done || lia).
    rewrite (proj2 (Nat.ltb_ge _ _)), !chk_bind_Def by lia.
    eexists. split; [done|]. apply cstr_app, nonul_ntop6_text.
Qed.

Lemma ga_echeck_plain c s serv : ga_echeck (Some (c :: s)) serv 0 AF_UNSPEC 0 = 0.
Proof. done. Qed.

(** [getaddrinfo] on a numeric host and a numeric service. *)
Lemma getaddrinfo_numeric {ns : NameService} sa :
  wf_inet sa ->
  getaddrinfo (Some (host_text sa)) (Some (port_text (sock_get_port sa))) None
  = Def (GaiFound [AI AI_CLONE (sa_family sa) SOCK_STREAM 0 (Some sa) None;
                   AI 0 (sa_family sa) SOCK_DGRAM 0 (Some sa) None] []).
Proof.
  intros Hw.
  assert (0 <= sock_get_port sa < 65536) as Hport by (destruct sa; try done; apply Hw).
  pose proof (ntohs_range _ Hport) as Hn.
  destruct (host_text_nonempty sa Hw) as (c & s & Ec).
  destruct (print_nat_digit (ntohs (sock_get_port sa))) as (c' & s' & Ed & Hd); [lia|].
  assert (unix_host (Some (host_text sa)) (Some (port_text (sock_get_port sa))) = false) as Hu.
  { unfold unix_host, port_text. rewrite Ed.
    destruct (Ascii.eqb_spec c' "/"%char) as [->|]; [by vm_compute in Hd | apply andb_false_r]. }
  assert (ga_nsearch (Some (host_text sa)) 0 AF_UNSPEC
          = Some [(host_text sa, AF_INET6); (host_text sa, AF_INET)]) as Hns by (by rewrite Ec).
  unfold getaddrinfo. cbn [default]. cbn [ai_flags ai_family ai_socktype no_hints].
  assert (ga_echeck (Some (host_text sa)) (Some (port_text (sock_get_port sa))) 0 AF_UNSPEC 0 = 0)
    as -> by (by rewrite Ec).
  rewrite Hu, Hns. cbn [Z.eqb negb length]. rewrite search_all_numeric, chk_bind_Def by done.
  replace (wants_canon (Some (host_text sa)) no_hints) with false
    by (unfold wants_canon; by rewrite andb_false_r).
  unfold port_text. rewrite Ed. cbv iota beta zeta. rewrite <- Ed.
  rewrite ga_serv_numeric;
    [|by repeat constructor; apply fresh_host_node|done|done|lia].
  rewrite chk_bind_Def, htons_ntohs by done. cbn [mbind list_bind both_types app].
  unfold typed. cbn [ai_family ai_protocol ai_addr ai_canonname host_node fmap option_fmap option_map].
  by rewrite sock_set_port_twice, sock_set_own_port.
Qed.

(** ** Every entry honours the hints *)

Ltac chk_inj H := unfold mret, chk_ret in H; simplify_eq.

Definition honours (hints ai : addrinfo) : Prop :=
  (ai_family hints <> AF_UNSPEC -> ai_family ai = ai_family hints) /\
  (ai_socktype hints <> 0 -> ai_socktype ai = ai_socktype hints).

Lemma chk_bind_inv {A B} (m : chk A) (f : A -> chk B) b :
  m ≫= f = Def b -> exists a, m = Def a /\ f a = Def b.
Proof. destruct m as [a|]; [by exists a|done]. Qed.

Lemma ga_aistruct_honours hints addr fam ai u :
  (ai_family hints <> AF_UNSPEC -> fam = ai_family hints) ->
  ga_aistruct hints addr fam = Def (inr (ai, u)) -> honours hints ai.
Proof.
  intros Hf. unfold ga_aistruct.
  destruct (fam =? AF_INET); [|destruct (fam =? AF_INET6); [|destruct (fam =? AF_UNIX)]].
  - intros (a & _ & [= <- _])%chk_bind_inv. by split.
  - intros (a & _ & [= <- _])%chk_bind_inv. by split.
  - intros (n & _ & E)%chk_bind_inv. destruct (_ <=? _)%nat; [done|].
    apply chk_bind_inv in E as (p & _ & (s & _ & [= <- _])%chk_bind_inv). by split.
  - intros [= <- _]. by split.
Qed.

Lemma add_addrs_honours hints fam addrs acc l :
  (ai_family hints <> AF_UNSPEC -> fam = ai_family hints) ->
  Forall (honours hints) acc -> add_addrs hints fam addrs acc = Def (inr l) ->
  Forall (honours hints) l.
Proof.
  intros Hf. revert acc. induction addrs as [|a addrs IH]; intros acc Hacc; cbn [add_addrs].
  { by intros [= <-]. }
  intros ([e|[ai u]] & Ha & E)%chk_bind_inv; [done|]. eapply IH; [|exact E].
  apply Forall_app. split; [done|]. apply Forall_singleton. by eapply ga_aistruct_honours.
Qed.

Lemma family_ok hints fam :
  negb (ai_family hints =? AF_UNSPEC) && negb (ai_family hints =? fam) = false ->
  ai_family hints <> AF_UNSPEC -> fam = ai_family hints.
Proof.
  destruct (Z.eqb_spec (ai_family hints) AF_UNSPEC), (Z.eqb_spec (ai_family hints) fam); done.
Qed.

Lemma try_numeric_honours hints host sfam fam acc l :
  Forall (honours hints) acc -> try_numeric hints host sfam fam acc = Def (Some (inr l)) ->
  Forall (honours hints) l.
Proof.
  intros Hacc. unfold try_numeric. intros ([e|[a|]] & _ & E)%chk_bind_inv; try done.
  destruct (negb _ && negb _) eqn:Ef; [done|]. destruct (negb (sfam =? fam)); [by chk_inj E|].
  apply chk_bind_inv in E as (r & Hr & [= ->]).
  eapply add_addrs_honours; [by apply family_ok | done | exact Hr].
Qed.

Lemma search_one_honours {ns : NameService} k hn hints host sfam acc canon l canon' :
  Forall (honours hints) acc ->
  search_one k hn hints host sfam acc canon = Def (inr (l, canon')) -> Forall (honours hints) l.
Proof.
  intros Hacc. unfold search_one. intros (v4 & H4 & E)%chk_bind_inv.
  destruct v4 as [[e|l4]|]; [done| |].
  { chk_inj E. destruct (starts_digit host); [|done]. by eapply try_numeric_honours. }
  apply chk_bind_inv in E as (v6 & H6 & E). destruct v6 as [[e|l6]|]; [done| |].
  { chk_inj E. destruct (starts_hex host); [|done]. by eapply try_numeric_honours. }
  destruct (if (k =? 2)%nat then _ else _) as [herr|hp].
  { destruct (k =? 2)%nat; [by chk_inj E|done]. }
  destruct (negb _ && negb _) eqn:Ef; [done|].
  apply chk_bind_inv in E as ([e|l'] & Hr & E); [done|]. chk_inj E.
  eapply add_addrs_honours; [by apply family_ok | done | exact Hr].
Qed.

Lemma search_all_honours {ns : NameService} k hn hints ss acc canon l canon' :
  Forall (honours hints) acc ->
  search_all k hn hints ss acc canon = Def (inr (l, canon')) -> Forall (honours hints) l.
Proof.
  revert acc canon. induction ss as [|[host sfam] ss IH]; intros acc canon Hacc; cbn [search_all].
  { by intros [= <- _]. }
  intros ([e|[acc' canon1]] & H1 & E)%chk_bind_inv; [done|].
  eapply IH; [|exact E]. by eapply search_one_honours.
Qed.

Lemma ga_port_honours hints l port st n l' :
  (ai_socktype hints <> 0 -> st = ai_socktype hints) ->
  Forall (honours hints) l -> ga_port l port st = (n, l') -> Forall (honours hints) l'.
Proof.
  intros Hst Hl. revert n l'. induction Hl as [|ai l [Hf Ht] _ IH]; intros n l'; cbn [ga_port].
  { by intros [= <- <-]. }
  destruct (ga_port l port st) as [n1 l1]. specialize (IH n1 l1 eq_refl).
  unfold set_type_port. destruct (flag _ _), (negb (ai_socktype ai =? 0)), (negb (ai_socktype ai =? st));
    intros [= <- <-]; repeat (constructor; try done); by split.
Qed.

Lemma ga_serv_honours {ns : NameService} hints l serv l' :
  Forall (honours hints) l -> ga_serv l hints serv = Def (0, l') -> Forall (honours hints) l'.
Proof.
  intros Hl. unfold ga_serv. intros ([n ais] & H & E)%chk_bind_inv.
  assert (ais = l') as -> by (destruct (n =? 0); chk_inj E; done). clear E.
  destruct serv as [|c serv]; [by chk_inj H|]. destruct (isdigit c).
  - apply chk_bind_inv in H as (p & _ & H). destruct (Z.eqb_spec (ai_socktype hints) 0) as [E0|E0]; cbn [negb] in H.
    + destruct (ga_port l (htons p) SOCK_STREAM) as [n1 l1] eqn:E1.
      destruct (ga_port l1 (htons p) SOCK_DGRAM) as [n2 l2] eqn:E2. chk_inj H.
      eapply ga_port_honours; [|eapply ga_port_honours; [|exact Hl|exact E1]|exact E2]; done.
    + unfold mret, chk_ret in H. injection H as E1. by eapply ga_port_honours; [|exact Hl|exact E1].
  - assert (forall st b (sv : option Z) lin n1 lout, Forall (honours hints) lin ->
              (if (ai_socktype hints =? 0) || (ai_socktype hints =? st)
               then match sv with Some p => ga_port lin p st | None => (b, lin) end
               else (b, lin)) = (n1, lout) -> Forall (honours hints) lout) as Hpass.
    { intros st b sv lin n1 lout Hin. destruct (Z.eqb_spec (ai_socktype hints) 0) as [E0|E0], (Z.eqb_spec (ai_socktype hints) st) as [Es|Es];
        cbn [orb]; [..|by intros [= _ <-]];
        (destruct sv as [p|]; [|by intros [= _ <-]]); intros Hg; by eapply ga_port_honours; [|exact Hin|exact Hg]. }
    destruct (if (_ || (_ =? SOCK_STREAM)) then _ else _) as [n1 l1] eqn:E1.
    destruct (if (_ || (_ =? SOCK_DGRAM)) then _ else _) as [n2 l2] eqn:E2 in H.
    chk_inj H. eapply Hpass; [|exact E2]. eapply Hpass; [exact Hl|exact E1].
Qed.

Lemma ga_unix_honours {ns : NameService} path hints l u :
  ga_unix path hints = Def (GaiFound l u) -> Forall (honours hints) l.
Proof.
  unfold ga_unix. destruct (negb _ && negb _) eqn:Ef; [done|].
  pose proof (family_ok hints AF_UNIX Ef) as Hfam.
  intros ([e|[l1 u1]] & H1 & E)%chk_bind_inv; [done|].
  apply chk_bind_inv in E as ([e|[ai u2]] & H2 & E); [done|].
  assert (Forall (honours hints) l1) as Hl1.
  { destruct (Z.eqb_spec (ai_socktype hints) 0) as [E0|E0]; [|chk_inj H1; constructor].
    apply chk_bind_inv in H1 as ([e|[a v]] & Ha & H1); [done|]. chk_inj H1.
    apply ga_aistruct_honours in Ha as [Hf _]; [|done]. repeat constructor; [exact Hf|done]. }
  assert (honours hints ai) as Hai.
  { destruct (Z.eqb_spec (ai_socktype hints) 0) as [E0|E0];
      apply ga_aistruct_honours in H2 as [Hf Ht]; try done. }
  assert (Forall (honours hints) (l1 ++ [ai])) as Hl
    by (apply Forall_app; split; [done | by apply Forall_singleton]).
  destruct (flag _ _); [|by chk_inj E].
  destruct nodename as [nm|]; [|done]. destruct (l1 ++ [ai]) as [|h t]; [done|].
  chk_inj E. apply Forall_cons in Hl as [Hh Ht]. by constructor.
Qed.

(** A service number keeps at least the entries there are. *)
Lemma ga_port_length l port st : (length l <= length (ga_port l port st).2)%nat.
Proof.
  induction l as [|ai l IH]; cbn [ga_port]; [done|].
  destruct (ga_port l port st) as [n l']. unfold set_type_port. cbn [snd] in IH.
  destruct (flag _ _), (negb (ai_socktype ai =? 0)), (negb (ai_socktype ai =? st)); cbn; lia.
Qed.

Lemma ga_serv_length {ns : NameService} hints l serv rc l' :
  ga_serv l hints serv = Def (rc, l') -> (length l <= length l')%nat.
Proof.
  unfold ga_serv. intros ([n ais] & H & E)%chk_bind_inv.
  assert (ais = l') as -> by (destruct (n =? 0); by chk_inj E).
  destruct serv as [|c serv]; [by chk_inj H|]. destruct (isdigit c).
  - apply chk_bind_inv in H as (p & _ & H). destruct (negb _).
    + pose proof (ga_port_length l (htons p) (ai_socktype hints)). chk_inj H. by rewrite H in *.
    + pose proof (ga_port_length l (htons p) SOCK_STREAM). destruct (ga_port l _ _) as [n1 l1].
      pose proof (ga_port_length l1 (htons p) SOCK_DGRAM). destruct (ga_port l1 _ _) as [n2 l2].
      chk_inj H. cbn in *. lia.
  - assert (forall (b : bool) st (sv : option Z) lin,
              (length lin <= length (if b then match sv with Some p => ga_port lin p st | None => (0%Z, lin) end
                                     else (0%Z, lin)).2)%nat) as Hpass
      by (intros [] st [p|] lin; cbn; try done; apply ga_port_length).
    pose proof (Hpass ((ai_socktype hints =? 0) || (ai_socktype hints =? SOCK_STREAM)) SOCK_STREAM
                  (getservbyname (c :: serv) "tcp") l) as H1.
    destruct (if (_ || (_ =? SOCK_STREAM)) then _ else _) as [n1 l1].
    pose proof (Hpass ((ai_socktype hints =? 0) || (ai_socktype hints =? SOCK_DGRAM)) SOCK_DGRAM
                  (getservbyname (c :: serv) "udp") l1) as H2.
    destruct (if (_ || (_ =? SOCK_DGRAM)) then _ else _) as [n2 l2] in H, H2. chk_inj H. cbn in *. lia.
Qed.

Lemma ga_unix_nonempty {ns : NameService} path hints l u :
  ga_unix path hints = Def (GaiFound l u) -> l <> [].
Proof.
  unfold ga_unix. destruct (negb _ && negb _); [done|].
  intros ([e|[l1 u1]] & _ & E)%chk_bind_inv; [done|].
  apply chk_bind_inv in E as ([e|[ai u2]] & _ & E); [done|].
  destruct (flag _ _); [|chk_inj E; by destruct l1].
  destruct nodename as [nm|]; [|done]. destruct (l1 ++ [ai]); [done|]. by chk_inj E.
Qed.

(** The list of a successful call is not empty and honours the hints. *)
Lemma getaddrinfo_entries {ns : NameService} host serv hints l u :
  getaddrinfo host serv (Some hints) = Def (GaiFound l u) -> l <> [] /\ Forall (honours hints) l.
Proof.
  unfold getaddrinfo. change (default no_hints (Some hints)) with hints.
  destruct (negb _); [done|].
  destruct (unix_host host serv); [by eauto using ga_unix_nonempty, ga_unix_honours|].
  destruct (ga_nsearch _ _ _) as [search|]; [|done].
  intros ([e|[[|h t] canon]] & Hs & E)%chk_bind_inv; [done..|].
  apply search_all_honours in Hs as [Hh Ht]%Forall_cons; [|constructor].
  match type of E with context [(?x :: t)] => set (h' := x) in E end.
  assert (Forall (honours hints) (h' :: t)) as Hl
    by (constructor; [subst h'; by destruct (wants_canon _ _) | done]).
  destruct serv as [[|c s]|]; [by chk_inj E| |by chk_inj E].
  apply chk_bind_inv in E as ([rc ais] & Hg & E). destruct (Z.eqb_spec rc 0) as [->|]; [|done].
  chk_inj E. split; [|by eapply ga_serv_honours].
  apply ga_serv_length in Hg. by destruct l; [cbn in Hg; lia|].
Qed.

(** ** Properties *)

(** C27: the numeric texts of an address and port, as [getnameinfo] prints them
    without asking the name service, are read back by [getaddrinfo] without
    asking it either: a stream and a datagram entry with that address and
    port. *)
Theorem getnameinfo_getaddrinfo_roundtrip {ns : NameService} sa host :
  wf_inet sa -> length host = 46%nat ->
  exists h s ht st,
    getnameinfo sa host 32 (NI_NUMERICHOST + NI_NUMERICSERV) = Def (Some (Some h, Some s)) /\
    cstr h = Some ht /\ cstr s = Some st /\
    getaddrinfo (Some ht) (Some st) None
    = Def (GaiFound [AI AI_CLONE (sa_family sa) SOCK_STREAM 0 (Some sa) None;
                     AI 0 (sa_family sa) SOCK_DGRAM 0 (Some sa) None] []).
Proof.
  intros Hw Hh. destruct (getnameinfo_numeric sa host Hw Hh) as (h & Hg & Hc).
  exists h, (port_text (sock_get_port sa) ++ [NUL]), (host_text sa), (port_text (sock_get_port sa)).
  split; [done|]. split; [done|]. split; [apply cstr_term, nonul_print_int|].
  by apply getaddrinfo_numeric.
Qed.

Definition demo_ns : NameService := {|
  gethostbyname2 := fun h f =>
    if bool_decide (h = chars "vm1") && (f =? AF_INET)
    then inr (Hostent (chars "vm1.cs") AF_INET [chars "abcd"; chars "efgh"]) else inl 1;
  gethostbyname := fun six h =>
    if bool_decide (h = chars "vm1") && negb six
    then inr (Hostent (chars "vm1.cs") AF_INET [chars "abcd"; chars "efgh"]) else inl 1;
  gethostbyaddr := fun _ _ => None;
  getservbyname := fun s p => if bool_decide (s = chars "daytime") then Some 3328 else None;
  getservbyport := fun _ _ => None;
  nodename := None |}.

Lemma getnameinfo_getaddrinfo_roundtrip_witness :
  exists h s ht st,
    @getnameinfo demo_ns (SIn6 20480 (replicate 15 NUL ++ [byte_of_Z 1])) (replicate 46 NUL) 32
      (NI_NUMERICHOST + NI_NUMERICSERV) = Def (Some (Some h, Some s)) /\
    cstr h = Some ht /\ cstr s = Some st /\
    @getaddrinfo demo_ns (Some ht) (Some st) None
    = Def (GaiFound
        [AI AI_CLONE AF_INET6 SOCK_STREAM 0 (Some (SIn6 20480 (replicate 15 NUL ++ [byte_of_Z 1]))) None;
         AI 0 AF_INET6 SOCK_DGRAM 0 (Some (SIn6 20480 (replicate 15 NUL ++ [byte_of_Z 1]))) None] []).
Proof.
  apply (@getnameinfo_getaddrinfo_roundtrip demo_ns (SIn6 20480 (replicate 15 NUL ++ [byte_of_Z 1])));
    cbn; first [reflexivity | lia].
Defined.

(** Every entry of a successful [getaddrinfo] has the address family and
    the socket type the hints ask for, whatever the name service answers. *)
Theorem getaddrinfo_honours_hints {ns : NameService} host serv hints l u :
  getaddrinfo host serv (Some hints) = Def (GaiFound l u) -> Forall (honours hints) l.
Proof. intros E. by apply getaddrinfo_entries in E as [_ ?]. Qed.

Lemma getaddrinfo_honours_hints_witness :
  Forall (honours (AI 0 AF_INET SOCK_DGRAM 0 None None))
    [AI 0 AF_INET SOCK_DGRAM 0 (Some (SIn 3328 (chars "abcd"))) None;
     AI 0 AF_INET SOCK_DGRAM 0 (Some (SIn 3328 (chars "efgh"))) None].
Proof.
  apply (@getaddrinfo_honours_hints demo_ns (Some (chars "vm1")) (Some (chars "daytime"))
           (AI 0 AF_INET SOCK_DGRAM 0 None None) _ []).
  vm_compute. reflexivity.
Defined.

(** The case the comment of ga_port.c describes: without a socket type each
    address found becomes a stream entry followed by a datagram entry, in the
    order of the addresses. *)
Theorem ga_serv_clones {ns : NameService} l hints n :
  Forall fresh l -> l <> [] -> ai_socktype hints = 0 -> 0 <= n < 65536 ->
  ga_serv l hints (print_int n)
  = Def (0, l ≫= fun ai => [typed ai AI_CLONE SOCK_STREAM (htons n) (ai_canonname ai);
                            typed ai 0 SOCK_DGRAM (htons n) None]).
Proof. apply ga_serv_numeric. Qed.

Lemma ga_serv_clones_witness :
  @ga_serv demo_ns [host_node (SIn 0 (chars "abcd")); host_node (SIn 0 (chars "efgh"))] no_hints
    (print_int 13)
  = Def (0, [host_node (SIn 0 (chars "abcd")); host_node (SIn 0 (chars "efgh"))] ≫=
            fun ai => [typed ai AI_CLONE SOCK_STREAM (htons 13) (ai_canonname ai);
                       typed ai 0 SOCK_DGRAM (htons 13) None]).
Proof.
  apply (@ga_serv_clones demo_ns); [|discriminate|reflexivity|lia].
  repeat (apply Forall_cons_2; [apply fresh_host_node; cbn; lia|]). constructor.
Defined.

(** A host name with the family [AF_LOCAL] passes [ga_echeck] and ends the
    process in [ga_nsearch]. *)
Lemma getaddrinfo_local_exits {ns : NameService} c h serv :
  c <> "/"%char ->
  getaddrinfo (Some (c :: h)) serv (Some (AI 0 AF_UNIX 0 0 None None)) = Def GaiExit.
Proof.
  intros Hc. unfold getaddrinfo. cbn [default].
  assert (unix_host (Some (c :: h)) serv = false) as ->.
  { unfold unix_host. destruct serv as [[|c' s]|]; try done.
    rewrite !bool_decide_false; [done | intros [= E _]; done | intros [= E _]; done]. }
  done.
Qed.
