(* ===== verification/FreeGai.v ===== *)
(** * The older getaddrinfo

    Stevens/unpv13e/libfree/getaddrinfo.c: one function of one family at a time,
    before libgai (Gai.v) was written.  The records, constants and the resolver
    ([NameService]) are those of Gai.v: the two have the same header, addrinfo.h.

    The macro [IPV6] of the file is the variable [ipv6]; it depends on the system's
    headers.  [use6] is the bit [RES_USE_INET6] of the resolver's options, which
    this function sets and never clears.  Allocation is taken to succeed. *)

From S2P Require Import Prelude CLib Inet Inet6 Sockaddr Gai.

Definition HENTBUFSIZ : nat := 8192.

(** [isxdigit(host[0]) || host[0] == ':']. *)
Definition starts_xdigit (host : buf) : bool :=
  match host with
  | c :: _ => bool_decide (is_Some (xdigit c)) || Ascii.eqb c ":"%char
  | [] => false
  end.

Definition starts_slash (p : option buf) : bool :=
  match p with Some (c :: _) => Ascii.eqb c "/"%char | _ => false end.

Section FreeGai.
Context {ns : NameService}.
Variable ipv6 : bool.

(** The label [bad]: [freeaddrinfo(aihead)], and the error is returned.  [None]:
    [aihead] has not been assigned yet. *)
Definition bad {A} (aihead : option (list addrinfo)) (x : A) : chk A :=
  match aihead with None => Bad Uninitialised | Some _ => Def x end.

(** The checks of flags, family and socket type. *)
Definition check_hints (hints : addrinfo) : Z :=
  let st := ai_socktype hints in
  let fam := ai_family hints in
  let inet_type := if negb (st =? 0) && (negb (st =? SOCK_STREAM) && negb (st =? SOCK_DGRAM) && negb (st =? SOCK_RAW))
                   then EAI_SOCKTYPE else 0 in
  if negb (Z.land (ai_flags hints) (Z.lnot (Z.lor AI_PASSIVE AI_CANONNAME)) =? 0) then EAI_BADFLAGS
  else if fam =? AF_UNSPEC then 0
  else if fam =? AF_INET then inet_type
  else if ipv6 && (fam =? AF_INET6) then inet_type
  else if fam =? AF_UNIX then
    if negb (st =? 0) && (negb (st =? SOCK_STREAM) && negb (st =? SOCK_DGRAM)) then EAI_SOCKTYPE else 0
  else EAI_FAMILY.

Definition is_numeric (fam : Z) (host : buf) : chk bool :=
  r ← inet_pton fam (host ++ [NUL]);
  mret (match r with inr (Some _) => true | _ => false end).

(** The host to look up, and the family. *)
Definition choose_host (host serv : option buf) (hints : addrinfo) : chk (Z + option buf * Z) :=
  let fam := ai_family hints in
  if empty_str host then
    if empty_str serv then mret (inl EAI_NONAME)
    else if flag (ai_flags hints) AI_PASSIVE then
      if fam =? AF_INET then mret (inr (Some (chars "0.0.0.0"), fam))
      else if ipv6 && (fam =? AF_INET6) then mret (inr (Some (chars "0::0"), fam))
      else if fam =? AF_UNIX then
        if negb (starts_slash serv) then mret (inl EAI_ADDRFAMILY) else mret (inr (host, fam))
      else if fam =? 0 then mret (inl EAI_ADDRFAMILY)
      else mret (inr (host, fam))
    else mret (inr (Some (chars "localhost"), fam))
  else if fam =? 0 then
    v4 ← is_numeric AF_INET (default [] host);
    let fam4 := if v4 : bool then AF_INET else fam in
    if ipv6 then
      v6 ← is_numeric AF_INET6 (default [] host);
      mret (inr (host, if v6 : bool then AF_INET6 else fam4))
    else mret (inr (host, fam4))
  else mret (inr (host, fam)).

(** A numeric address, as the [hostent] of [gethostbyname]. *)
Definition numeric_host (fam : Z) (host : buf) : chk (option hostent) :=
  r ← inet_pton fam (host ++ [NUL]);
  mret (match r with
        | inr (Some a) => Some (Hostent (take (HENTBUFSIZ - 1) host) fam [a])
        | _ => None
        end).

Definition getaddrinfo_host (use6 : bool) (host : buf) (family : Z) : chk ((Z + hostent) * bool) :=
  v4 ← (if starts_digit host then numeric_host AF_INET host else mret None);
  match v4 with
  | Some h => mret (inr h, use6)
  | None =>
      v6 ← (if ipv6 && starts_xdigit host then numeric_host AF_INET6 host else mret None);
      match v6 with
      | Some h => mret (inr h, use6)
      | None =>
          let use6' := use6 || (ipv6 && (family =? AF_INET6)) in
          mret (match gethostbyname use6' host with
                | inl herr => inl (host_error herr)
                | inr hp => inr hp
                end, use6')
      end
  end.

(** The body of the loop over [h_addr_list]. *)
Definition new_node (hints : addrinfo) (addrtype : Z) (addr : buf) : chk addrinfo :=
  let fl := if ai_socktype hints =? 0 then AI_CLONE else 0 in
  let node sa := AI fl addrtype (ai_socktype hints) (ai_protocol hints) sa None in
  if addrtype =? AF_INET then a ← memcpy (replicate 4 NUL) addr 4; mret (node (Some (SIn 0 a)))
  else if ipv6 && (addrtype =? AF_INET6) then a ← memcpy (replicate 16 NUL) addr 16; mret (node (Some (SIn6 0 a)))
  else mret (node None).

Fixpoint new_nodes (hints : addrinfo) (addrtype : Z) (addrs : list buf) : chk (list addrinfo) :=
  match addrs with
  | [] => mret []
  | a :: addrs' => ai ← new_node hints addrtype a; l ← new_nodes hints addrtype addrs'; mret (ai :: l)
  end.

Definition getaddrinfo_clone (ai : addrinfo) : addrinfo :=
  AI 0 (ai_family ai) (ai_socktype ai) (ai_protocol ai) (ai_addr ai) None.

(** The assignments at the end of the loop of [getaddrinfo_port], and whether
    [nfound] is incremented. *)
Definition fill_port (ai : addrinfo) (port socktype : Z) : addrinfo * bool :=
  let inet := (ai_family ai =? AF_INET) || (ipv6 && (ai_family ai =? AF_INET6)) in
  (AI (ai_flags ai) (ai_family ai) socktype (ai_protocol ai)
      (if inet then (fun sa => sock_set_port sa port) <$> ai_addr ai else ai_addr ai) (ai_canonname ai), inet).

(** [ai] is the node at the pointer and [rest] the list behind it. *)
Fixpoint getaddrinfo_port (ais : list addrinfo) (port socktype : Z) : Z * list addrinfo :=
  match ais with
  | [] => (0, [])
  | ai :: rest =>
      let '(n, rest') := getaddrinfo_port rest port socktype in
      if flag (ai_flags ai) AI_CLONE then
        if negb (ai_socktype ai =? 0) then
          let '(ai', c) := fill_port (getaddrinfo_clone ai) port socktype in
          (n + Z.b2z c, ai :: ai' :: rest')
        else let '(ai', c) := fill_port ai port socktype in (n + Z.b2z c, ai' :: rest')
      else if negb (ai_socktype ai =? socktype) then (n, ai :: rest')
      else let '(ai', c) := fill_port ai port socktype in (n + Z.b2z c, ai' :: rest')
  end.

(** One of the two searches of the services. *)
Definition try_service (serv : buf) (proto : string) (st hint_st : Z) (ais : list addrinfo) : Z * list addrinfo :=
  if (hint_st =? 0) || (hint_st =? st) then
    match getservbyname serv proto with
    | Some p => getaddrinfo_port ais p st
    | None => (0, ais)
    end
  else (0, ais).

Definition getaddrinfo_serv (ais : list addrinfo) (hints : addrinfo) (serv : buf) : chk (Z * list addrinfo) :=
  let st := ai_socktype hints in
  if starts_digit serv && negb (st =? 0) then
    p ← atoi (serv ++ [NUL]);
    let '(n, l) := getaddrinfo_port ais (htons p) st in
    mret (if n =? 0 then EAI_NONAME else 0, l)
  else
    let '(n1, l1) := try_service serv "tcp" SOCK_STREAM st ais in
    let '(n2, l2) := try_service serv "udp" SOCK_DGRAM st l1 in
    mret (if n1 + n2 =? 0 then if st =? 0 then EAI_NONAME else EAI_SERVICE else 0, l2).

(** [addrinfo_local]: [sun_path] has 108 bytes. *)
Definition addrinfo_local (path : buf) (hints : addrinfo) : chk gai_result :=
  if ai_socktype hints =? 0 then mret (GaiError EAI_SOCKTYPE)
  else
    p ← strn 108 (path ++ [NUL]);
    mret (GaiFound [AI 0 AF_UNIX (ai_socktype hints) 0 (Some (SUn p)) None]
                   (if flag (ai_flags hints) AI_PASSIVE then [path] else [])).

(** The service, when there is one, and the return. *)
Definition finish_serv (aihead : list addrinfo) (hints : addrinfo) (serv : option buf) : chk gai_result :=
  match serv with
  | Some ((_ :: _) as s) =>
      '(rc, l) ← getaddrinfo_serv aihead hints s;
      if negb (rc =? 0) then bad (Some l) (GaiError rc) else mret (GaiFound l [])
  | _ => mret (GaiFound aihead [])
  end.

(** From the [hostent] on: the list, the canonical name, and the service. *)
Definition with_host (hints : addrinfo) (hp : hostent) (serv : option buf) : chk gai_result :=
  if negb (ai_family hints =? AF_UNSPEC) && negb (ai_family hints =? h_addrtype hp)
  then bad None (GaiError EAI_ADDRFAMILY)
  else
    l ← new_nodes hints (h_addrtype hp) (h_addr_list hp);
    aihead ← (if flag (ai_flags hints) AI_CANONNAME then
                match l with [] => Bad BadPointer | h :: t => mret (set_canon h (h_name hp) :: t) end
              else mret l);
    finish_serv aihead hints serv.

Definition getaddrinfo (use6 : bool) (host serv : option buf) (hintsp : option addrinfo) : chk (gai_result * bool) :=
  let hints := default no_hints hintsp in
  let rc := check_hints hints in
  if negb (rc =? 0) then bad None (GaiError rc, use6)
  else
    ch ← choose_host host serv hints;
    match ch with
    | inl e => bad None (GaiError e, use6)
    | inr (host', fam) =>
        let hints' := AI (ai_flags hints) fam (ai_socktype hints) (ai_protocol hints) (ai_addr hints)
                         (ai_canonname hints) in
        if starts_slash host' then r ← addrinfo_local (default [] host') hints'; mret (r, use6)
        else if starts_slash serv then r ← addrinfo_local (default [] serv) hints'; mret (r, use6)
        else
          '(r, use6') ← getaddrinfo_host use6 (default [] host') fam;
          match r with
          | inl e => bad None (GaiError e, use6')
          | inr hp => res ← with_host hints' hp serv; mret (res, use6')
          end
    end.
End FreeGai.

(** * Lemmas *)

(** ** Texts without a colon *)

Lemma pton4_loop_total s saw k tmp :
  (k = if saw : bool then length tmp else (length tmp - 1)%nat) -> (1 <= length tmp <= 4)%nat ->
  exists r, pton4_loop s saw k tmp = Def r /\ forall t, r = Some t -> length t = 4%nat.
Proof.
  revert saw k tmp. induction s as [|c s IH]; intros saw k tmp Hk Ht; cbn [pton4_loop].
  { destruct (Nat.ltb_spec k 4); eexists; (split; [done|]); [done|]. intros t [= <-]. destruct saw; lia. }
  destruct (isdigit c).
  - destruct (255 <? _); [by eexists|].
    assert (length (hd 0 tmp * 10 + (Z_of_byte c - 48) :: tl tmp) = length tmp) as Hl by (destruct tmp; cbn in *; lia).
    destruct saw; [apply IH; by rewrite Hl|]. destruct (4 <? S k)%nat; [by eexists|]. apply IH; rewrite Hl; lia.
  - destruct (Ascii.eqb c "."%char && saw) eqn:E; [|by eexists]. apply andb_true_iff in E as [_ ->].
    destruct (Nat.eqb_spec k 4); [by eexists|]. rewrite (proj2 (Nat.ltb_lt _ _)) by lia. apply IH; cbn; lia.
Qed.

Lemma inet_pton4_total s : nonul s ->
  exists r, inet_pton4 (s ++ [NUL]) = Def r /\ forall a, r = Some a -> length a = 4%nat.
Proof.
  intros Hn. unfold inet_pton4. rewrite (need_str_Some _ _ (cstr_term _ Hn)), chk_bind_Def.
  destruct (pton4_loop_total s false 0 [0]) as ([t|] & -> & Ht); [done|cbn; lia|..]; rewrite chk_bind_Def; [|by eexists].
  rewrite (Ht t eq_refl). cbn [Nat.eqb]. eexists. split; [done|]. intros a [= <-]. by rewrite length_fmap, length_reverse, Ht.
Qed.

Lemma pton6_loop_nocolon s cur saw v :
  nonul cur -> existsb (Ascii.eqb ":"%char) s = false ->
  exists r, pton6_loop s cur (Scan6 [] None saw v) = Def r /\
    forall st, r = Some st -> s6_colonp st = None /\ (length (s6_out st) <= 4)%nat.
Proof.
  intros Hc. revert saw v. induction s as [|c s IH]; intros saw v Hs; cbn [pton6_loop].
  { eexists. split; [done|]. intros st [= <-]. split; [done|cbn; lia]. }
  cbn [existsb] in Hs. apply orb_false_iff in Hs as [H1 Hs].
  destruct (xdigit c) as [d|]; cbn [s6_val s6_out s6_colonp].
  - destruct (65535 <? _); [by eexists|]. by apply IH.
  - rewrite Ascii.eqb_sym, H1. destruct (_ && _); [|by eexists].
    destruct (inet_pton4_total cur Hc) as ([q|] & -> & Hq); rewrite chk_bind_Def; [|by eexists].
    eexists. split; [done|]. intros st [= <-]. split; [done|]. cbn. by rewrite (Hq q).
Qed.

(** A text that names an IPv6 address has a colon in it: libgai looks for one
    first, this file does not. *)
Lemma inet_pton6_nocolon s :
  nonul s -> existsb (Ascii.eqb ":"%char) s = false -> inet_pton6 (s ++ [NUL]) = Def None.
Proof.
  intros Hn Hs. unfold inet_pton6. rewrite (need_str_Some _ _ (cstr_term _ Hn)), chk_bind_Def.
  assert ((r ← pton6_loop s s (Scan6 [] None false 0); mret (r ≫= finish6)) = Def None) as Hgo.
  { destruct (pton6_loop_nocolon s s false 0 Hn Hs) as ([st|] & -> & Hst); [|done]. rewrite chk_bind_Def.
    destruct (Hst st eq_refl) as [Hc Ho]. cbn [mbind option_bind]. unfold finish6. rewrite Hc.
    destruct (if s6_saw st then put_word (s6_out st) (s6_val st) else Some (s6_out st)) as [out|] eqn:E; [|done].
    assert (length out <= 6)%nat as Hout.
    { destruct (s6_saw st); [|simplify_eq; lia]. unfold put_word in E. destruct (_ <? _)%nat; [done|]. simplify_eq.
      rewrite length_app. cbn. lia. }
    destruct (Nat.eqb_spec (length out) IN6ADDRSZ) as [E6|]; [|done]. unfold IN6ADDRSZ in E6. lia. }
  destruct s as [|c s]; [done|]. cbn [existsb] in Hs. apply orb_false_iff in Hs as [H1 _].
  by rewrite Ascii.eqb_sym, H1.
Qed.

(** ** The two implementations, part by part *)

Lemma getaddrinfo_port_same ais port st : getaddrinfo_port true ais port st = ga_port ais port st.
Proof. induction ais as [|ai ais IH]; [done|]. cbn [getaddrinfo_port ga_port]. by rewrite IH. Qed.

Section Agree.
Context {ns : NameService}.

Lemma check_hints_same hints c h serv :
  check_hints true hints = ga_echeck (Some (c :: h)) serv (ai_flags hints) (ai_family hints) (ai_socktype hints).
Proof.
  unfold check_hints, ga_echeck. cbn [empty_str andb]. destruct (negb (Z.land _ _ =? 0)); [done|].
  destruct (ai_family hints =? AF_UNSPEC); [done|]. destruct (ai_family hints =? AF_INET); [done|]. done.
Qed.

(** The services: the same list, and an error in the same cases. *)
Lemma getaddrinfo_serv_same ais hints s :
  s <> [] -> (starts_digit s = true -> ai_socktype hints <> 0) ->
  match ga_serv ais hints s with
  | Bad u => getaddrinfo_serv true ais hints s = Bad u
  | Def (rc, l) => exists rc', getaddrinfo_serv true ais hints s = Def (rc', l) /\ (rc = 0 <-> rc' = 0)
  end.
Proof.
  intros Hs Hst. destruct s as [|c s]; [done|]. unfold ga_serv, getaddrinfo_serv. cbn [starts_digit] in *.
  assert (forall n e e', e <> 0 -> e' <> 0 -> (if n =? 0 then e else 0) = 0 <-> (if n =? 0 then e' else 0) = 0) as Hrc
    by (intros n e e' ? ?; destruct (n =? 0); done).
  assert (forall st l, (if (ai_socktype hints =? 0) || (ai_socktype hints =? st)
      then match getservbyname (c :: s) (if st =? SOCK_STREAM then "tcp" else "udp") with
           | Some p => getaddrinfo_port true l p st | None => (0, l) end else (0, l))
    = if (ai_socktype hints =? 0) || (ai_socktype hints =? st)
      then match getservbyname (c :: s) (if st =? SOCK_STREAM then "tcp" else "udp") with
           | Some p => ga_port l p st | None => (0, l) end else (0, l)) as Htry.
  { intros st l. destruct (_ || _); [|done]. destruct (getservbyname _ _); [|done]. apply getaddrinfo_port_same. }
  destruct (isdigit c) eqn:Ed.
  - rewrite (proj2 (Z.eqb_neq _ _) (Hst eq_refl)). cbn [negb andb].
    destruct (atoi _) as [p|u]; [|done]. rewrite !chk_bind_Def. cbv zeta.
    change (getaddrinfo_port true ais (htons p) (ai_socktype hints)) with (ga_port ais (htons p) (ai_socktype hints)).
    destruct (ga_port ais (htons p) (ai_socktype hints)) as [n l]. unfold mret, chk_ret. cbn [mbind chk_bind].
    destruct (n =? 0); eexists; (split; [done|]); done.
  - cbn [andb]. unfold try_service.
    pose proof (Htry SOCK_STREAM ais) as E1. cbn [Z.eqb] in E1. change (SOCK_STREAM =? SOCK_STREAM) with true in E1.
    rewrite E1. destruct (if _ || _ then match getservbyname _ "tcp" with Some _ => _ | None => _ end else _) as [n1 l1].
    pose proof (Htry SOCK_DGRAM l1) as E2. change (SOCK_DGRAM =? SOCK_STREAM) with false in E2. rewrite E2.
    destruct (if _ || _ then match getservbyname _ "udp" with Some _ => _ | None => _ end else _) as [n2 l2].
    rewrite chk_bind_Def. destruct (n1 + n2 =? 0); eexists; (split; [done|]); [|done].
    by destruct (ai_socktype hints =? 0).
Qed.

Variable hints : addrinfo.
Hypothesis hints_family : ai_family hints = AF_INET \/ ai_family hints = AF_INET6.

Lemma new_nodes_same addrs acc :
  add_addrs hints (ai_family hints) addrs acc
  = (l ← new_nodes true hints (ai_family hints) addrs; mret (inr (acc ++ l))).
Proof using hints_family.
  revert acc. induction addrs as [|a addrs IH]; intros acc; cbn [add_addrs new_nodes].
  { rewrite chk_bind_Def. by rewrite app_nil_r. }
  assert (ga_aistruct hints a (ai_family hints) = (ai ← new_node true hints (ai_family hints) a; mret (inr (ai, [])))) as ->.
  { unfold ga_aistruct, new_node. destruct hints_family as [-> | ->]; cbn [Z.eqb Pos.eqb andb AF_INET AF_INET6];
      by destruct (memcpy _ _ _). }
  destruct (new_node true hints (ai_family hints) a) as [ai|u]; [|done].
  unfold mret, chk_ret, mbind, chk_bind in *. rewrite IH.
  destruct (new_nodes true hints (ai_family hints) addrs); [|done]. by rewrite <- app_assoc.
Qed.

(** What libgai's search makes of a host is what it makes of the [hostent] this
    file finds. *)
Definition search_result (h : buf) (r : chk ((Z + hostent) * bool)) (o : chk (Z + list addrinfo * option buf)) : Prop :=
  match r with
  | Bad u => o = Bad u
  | Def (inl e, _) => o = Def (inl e)
  | Def (inr hp, _) =>
      if negb (ai_family hints =? h_addrtype hp) then o = Def (inl EAI_ADDRFAMILY)
      else exists cn, (wants_canon (Some h) hints = true -> default h cn = h_name hp) /\
             o = (l ← new_nodes true hints (h_addrtype hp) (h_addr_list hp); mret (inr (l, cn)))
  end.

Lemma wants_family : negb (ai_family hints =? AF_UNSPEC) = true.
Proof using hints_family. destruct hints_family as [-> | ->]; done. Qed.

Lemma try_numeric_same f h :
  try_numeric hints h (ai_family hints) f []
  = (r ← inet_pton f (h ++ [NUL]);
     match r with
     | inr (Some a) => if negb (ai_family hints =? f) then mret (Some (inl EAI_ADDRFAMILY))
                       else l ← new_nodes true hints f [a]; mret (Some (inr l))
     | _ => mret None
     end).
Proof using hints_family.
  unfold try_numeric. destruct (inet_pton f (h ++ [NUL])) as [[e|[a|]]|u]; try done. rewrite !chk_bind_Def, wants_family.
  cbn [andb]. destruct (Z.eqb_spec (ai_family hints) f) as [<-|]; [|done]. cbn [negb]. rewrite new_nodes_same.
  unfold mret, chk_ret, mbind, chk_bind. by destruct (new_nodes _ _ _ _).
Qed.

(** The search in the DNS. *)
Lemma dns_same use6 h :
  use6 = false \/ ai_family hints = AF_INET6 ->
  search_result h
    (Def (match gethostbyname (use6 || (true && (ai_family hints =? AF_INET6))) h with
          | inl herr => inl (host_error herr) | inr hp => inr hp end, use6 || (true && (ai_family hints =? AF_INET6))))
    (match gethostbyname (ai_family hints =? AF_INET6) h with
     | inl herr => Def (inl (host_error herr))
     | inr hp =>
         if negb (ai_family hints =? AF_UNSPEC) && negb (ai_family hints =? h_addrtype hp) then Def (inl EAI_ADDRFAMILY)
         else r ← add_addrs hints (h_addrtype hp) (h_addr_list hp) [];
              Def (match r with
                   | inl e => inl e
                   | inr l => inr (l, if wants_canon (Some h) hints && bool_decide ((None : option buf) = None)
                                      then Some (h_name hp) else None)
                   end)
     end).
Proof using hints_family.
  intros Hu. assert (use6 || (true && (ai_family hints =? AF_INET6)) = (ai_family hints =? AF_INET6)) as ->.
  { destruct Hu as [-> | ->]; [done|]. by rewrite orb_true_r. }
  destruct (gethostbyname _ h) as [herr|hp]; [done|]. rewrite wants_family. cbn [andb search_result].
  destruct (Z.eqb_spec (ai_family hints) (h_addrtype hp)) as [E|E]; cbn [negb]; [|done].
  rewrite bool_decide_true, andb_true_r by done.
  exists (if wants_canon (Some h) hints then Some (h_name hp) else None). split; [by intros ->|].
  rewrite <- E, new_nodes_same. unfold mret, chk_ret. by destruct (new_nodes _ _ _ _).
Qed.

(** A numeric host. *)
Lemma numeric_same use6 h f a :
  search_result h (Def (inr (Hostent h f [a]), use6))
    ((if negb (ai_family hints =? f) then Def (Some (inl EAI_ADDRFAMILY))
      else l ← new_nodes true hints f [a]; Def (Some (inr l)) : chk (option (Z + list addrinfo))) ≫=
     fun v => match v with Some (inl e) => Def (inl e) | Some (inr l) => Def (inr (l, None)) | None => Bad BadPointer end).
Proof.
  cbn [search_result h_addrtype h_addr_list h_name]. destruct (negb _); [done|]. exists None. split; [done|].
  by destruct (new_nodes true hints f [a]).
Qed.

Lemma starts_hex_colon h : starts_hex h = starts_xdigit h && existsb (Ascii.eqb ":"%char) h.
Proof. by destruct h. Qed.

(** What the two do when one of them takes the host for a number of family [f]. *)
Lemma numeric_step use6 f h r k :
  (length h < HENTBUFSIZ)%nat -> search_result h r k ->
  search_result h
    (v ← numeric_host f h; match v with Some hp => Def (inr hp, use6) | None => r end)
    (v ← try_numeric hints h (ai_family hints) f [];
     match v with Some (inl e) => Def (inl e) | Some (inr l) => Def (inr (l, None)) | None => k end).
Proof using hints_family.
  intros Hlen Hk. unfold numeric_host. rewrite try_numeric_same, (take_ge h) by (unfold HENTBUFSIZ in *; lia).
  destruct (inet_pton f (h ++ [NUL])) as [[e|[a|]]|u]; try done.
  pose proof (numeric_same use6 h f a) as Hn. unfold mret, chk_ret, mbind, chk_bind in *.
  destruct (negb _); [exact Hn|]. by destruct (new_nodes true hints f [a]).
Qed.

Lemma search_same use6 h :
  nonul h -> (length h < HENTBUFSIZ)%nat -> use6 = false \/ ai_family hints = AF_INET6 ->
  search_result h (getaddrinfo_host true use6 h (ai_family hints)) (search_one 1 (Some h) hints h (ai_family hints) [] None).
Proof using hints_family.
  intros Hn Hlen Hu. pose proof (dns_same use6 h Hu) as Hdns. unfold getaddrinfo_host, search_one.
  assert (forall r k, search_result h r k -> search_result h
    (v ← (if true && starts_xdigit h then numeric_host AF_INET6 h else mret None);
     match v with Some hp => Def (inr hp, use6) | None => r end)
    (v ← (if starts_hex h then try_numeric hints h (ai_family hints) AF_INET6 [] else mret None);
     match v with Some (inl e) => Def (inl e) | Some (inr l) => Def (inr (l, None)) | None => k end)) as H6.
  { intros r k Hk. rewrite starts_hex_colon. cbn [andb]. destruct (starts_xdigit h); cbn [andb]; [|done].
    destruct (existsb (Ascii.eqb ":"%char) h) eqn:E; [by apply numeric_step|]. unfold numeric_host, inet_pton.
    change (AF_INET6 =? AF_INET) with false. rewrite Z.eqb_refl. by rewrite inet_pton6_nocolon. }
  destruct (starts_digit h); [apply numeric_step; [done|]|]; by apply H6.
Qed.

(** Libgai from the end of the search on. *)
Definition gai_rest (h : buf) (serv : option buf) (r : Z + list addrinfo * option buf) : chk gai_result :=
  match r with
  | inl e => mret (GaiError e)
  | inr ([], _) => mret (GaiError EAI_NONAME)
  | inr (a :: t, cn) =>
      let a' := if wants_canon (Some h) hints then set_canon a (match cn with Some c => c | None => h end) else a in
      match serv with
      | Some ((_ :: _) as s) =>
          '(rc, l) ← ga_serv (a' :: t) hints s; mret (if rc =? 0 then GaiFound l [] else GaiError rc)
      | _ => mret (GaiFound (a' :: t) [])
      end
  end.

Lemma finish_same serv ais l u :
  (forall s, serv = Some s -> starts_digit s = true -> ai_socktype hints <> 0) ->
  finish_serv true ais hints serv = Def (GaiFound l u) <->
  match serv with
  | Some ((_ :: _) as s) =>
      '(rc, l') ← ga_serv ais hints s; mret (if rc =? 0 then GaiFound l' [] else GaiError rc)
  | _ => mret (GaiFound ais [])
  end = Def (GaiFound l u).
Proof.
  intros Hs. unfold finish_serv. destruct serv as [[|c s]|]; try done.
  pose proof (getaddrinfo_serv_same ais hints (c :: s) ltac:(done) (Hs _ eq_refl)) as H.
  destruct (ga_serv ais hints (c :: s)) as [[rc l']|x]; [|by rewrite H].
  destruct H as (rc' & -> & Hrc). unfold mret, chk_ret. cbn [mbind chk_bind].
  destruct (Z.eqb_spec rc 0) as [->|Hne].
  - by rewrite (proj1 Hrc eq_refl).
  - destruct (Z.eqb_spec rc' 0) as [E|]; [by apply Hrc in E|]. cbn. by split.
Qed.

Lemma getaddrinfo_serv_nil s rc l : getaddrinfo_serv true [] hints s = Def (rc, l) -> l = [].
Proof.
  assert (forall st h proto, try_service true s proto st h [] = (0, [])) as Ht.
  { intros st h proto. unfold try_service. destruct (_ || _); [|done]. by destruct (getservbyname s proto). }
  unfold getaddrinfo_serv. rewrite !Ht. destruct (_ && _); [|by intros [= _ <-]].
  destruct (atoi _); [|done]. cbn. by intros [= _ <-].
Qed.

Lemma with_host_same h hp serv cn l u :
  h <> [] -> l <> [] -> (wants_canon (Some h) hints = true -> default h cn = h_name hp) ->
  negb (ai_family hints =? h_addrtype hp) = false ->
  (forall s, serv = Some s -> starts_digit s = true -> ai_socktype hints <> 0) ->
  with_host true hints hp serv = Def (GaiFound l u) <->
  (x ← (l ← new_nodes true hints (h_addrtype hp) (h_addr_list hp); mret (inr (l, cn))); gai_rest h serv x)
  = Def (GaiFound l u).
Proof.
  intros Hh Hl Hcn Hf Hs. unfold with_host. rewrite Hf, andb_false_r.
  destruct (new_nodes true hints _ _) as [ais|x]; [|done]. unfold mret, chk_ret. cbn [mbind chk_bind].
  assert (wants_canon (Some h) hints = flag (ai_flags hints) AI_CANONNAME) as Hw by (unfold wants_canon; by destruct h).
  unfold gai_rest. rewrite Hw in Hcn |- *. destruct ais as [|a t].
  - split; [|done]. destruct (flag _ _); [done|]. cbn [mbind chk_bind]. unfold finish_serv.
    destruct serv as [[|c s]|]; [by intros [= <- _]| |by intros [= <- _]].
    destruct (getaddrinfo_serv true [] hints (c :: s)) as [[rc l']|] eqn:E; [|done]. cbn [mbind chk_bind].
    apply getaddrinfo_serv_nil in E. subst l'. destruct (rc =? 0); [|done]. cbn [negb]. intros E2. injection E2 as <- _. done.
  - destruct (flag _ _); cbn [mbind chk_bind]; [|by apply finish_same].
    rewrite finish_same by done. rewrite <- Hcn by done. by destruct cn.
Qed.

Lemma gai_unfold c h serv :
  Ascii.eqb c "/"%char = false ->
  Gai.getaddrinfo (Some (c :: h)) serv (Some hints)
  = if negb (check_hints true hints =? 0) then mret (GaiError (check_hints true hints))
    else r ← search_one 1 (Some (c :: h)) hints (c :: h) (ai_family hints) [] None; gai_rest (c :: h) serv r.
Proof using hints_family.
  intros Hc. unfold Gai.getaddrinfo. change (default no_hints (Some hints)) with hints. cbv zeta. rewrite <- (check_hints_same hints c h serv).
  destruct (negb _); [done|].
  assert (unix_host (Some (c :: h)) serv = false) as ->.
  { unfold unix_host. destruct serv as [[|c' s]|]; try done.
    rewrite !bool_decide_false; [done|intros [= -> _]; done|intros [= -> _]; done]. }
  assert (ga_nsearch (Some (c :: h)) (ai_flags hints) (ai_family hints) = Some [(c :: h, ai_family hints)]) as ->
    by (unfold ga_nsearch, search_for; by destruct hints_family as [-> | ->]).
  cbn [length search_all]. destruct (search_one _ _ _ _ _ _ _) as [[e|[[|a t] cn]]|]; done.
Qed.
End Agree.

(** ** Without the macro IPV6

    For the family IPv4 and a host without a colon nothing depends on it. *)

Section Without.
Context {ns : NameService}.

Definition all4 (l : list addrinfo) : Prop := Forall (fun ai => ai_family ai = AF_INET) l.

Lemma getaddrinfo_port_all4 ipv6 ais p st :
  all4 ais -> getaddrinfo_port ipv6 ais p st = getaddrinfo_port true ais p st /\ all4 (getaddrinfo_port true ais p st).2.
Proof.
  assert (forall b ai, ai_family ai = AF_INET -> fill_port b ai p st = fill_port true ai p st) as Hf
    by (intros b ai E; unfold fill_port; by rewrite E).
  induction 1 as [|ai l Hai _ [IHe IHf]]; [by split; [|constructor]|]. cbn [getaddrinfo_port]. rewrite IHe.
  rewrite !(Hf ipv6) by done. split; [done|].
  destruct (getaddrinfo_port true l p st) as [n rest]. cbn [snd] in IHf.
  destruct (flag _ _); [destruct (negb _)|destruct (negb _)]; cbn; by repeat constructor.
Qed.

Lemma try_service_all4 ipv6 s proto st h ais :
  all4 ais -> try_service ipv6 s proto st h ais = try_service true s proto st h ais /\
              all4 (try_service true s proto st h ais).2.
Proof.
  intros Ha. unfold try_service. destruct (_ || _); [|done]. destruct (getservbyname s proto) as [p|]; [|done].
  by apply getaddrinfo_port_all4.
Qed.

Lemma getaddrinfo_serv_all4 ipv6 ais hints s :
  all4 ais -> getaddrinfo_serv ipv6 ais hints s = getaddrinfo_serv true ais hints s.
Proof.
  intros Ha. unfold getaddrinfo_serv. destruct (_ && _).
  - destruct (atoi _) as [p|]; [|done]. rewrite !chk_bind_Def. by rewrite (proj1 (getaddrinfo_port_all4 _ _ _ _ Ha)).
  - destruct (try_service_all4 ipv6 s "tcp" SOCK_STREAM (ai_socktype hints) ais Ha) as [-> H1].
    destruct (try_service true s "tcp" _ _ ais) as [n1 l1].
    by rewrite (proj1 (try_service_all4 ipv6 s "udp" SOCK_DGRAM (ai_socktype hints) l1 H1)).
Qed.

Lemma new_nodes_all4 ipv6 hints addrs :
  new_nodes ipv6 hints AF_INET addrs = new_nodes true hints AF_INET addrs /\
  forall l, new_nodes true hints AF_INET addrs = Def l -> all4 l.
Proof.
  induction addrs as [|a addrs [IHe IHf]]; cbn [new_nodes].
  { split; [done|]. intros l [= <-]. constructor. }
  split; [by rewrite IHe|]. intros l (ai & Ea & (l' & El & [= <-])%chk_bind_inv)%chk_bind_inv.
  constructor; [|by apply IHf]. unfold new_node in Ea. cbn [Z.eqb Pos.eqb AF_INET] in Ea.
  by apply chk_bind_inv in Ea as (x & _ & [= <-]).
Qed.

Lemma with_host_all4 ipv6 hints hp serv :
  ai_family hints = AF_INET -> with_host ipv6 hints hp serv = with_host true hints hp serv.
Proof.
  intros Hf. unfold with_host. rewrite Hf. change (AF_INET =? AF_UNSPEC) with false. cbn [negb andb].
  destruct (Z.eqb_spec AF_INET (h_addrtype hp)) as [E|]; [|done]. cbn [negb]. rewrite <- E. destruct (new_nodes_all4 ipv6 hints (h_addr_list hp)) as [-> Hall].
  destruct (new_nodes true hints AF_INET _) as [l|]; [|done]. rewrite !chk_bind_Def. specialize (Hall l eq_refl).
  assert (forall ais, all4 ais -> finish_serv ipv6 ais hints serv = finish_serv true ais hints serv) as Hfin.
  { intros ais Ha. unfold finish_serv. destruct serv as [[|c s]|]; [done| |done]. by rewrite getaddrinfo_serv_all4. }
  destruct (flag _ _); [|by apply Hfin]. destruct l as [|h t]; [done|]. unfold mret, chk_ret. rewrite !chk_bind_Def.
  apply Hfin. inversion Hall. by constructor.
Qed.

Lemma getaddrinfo_without ipv6 use6 c h serv hints :
  nonul (c :: h) -> existsb (Ascii.eqb ":"%char) (c :: h) = false -> ai_family hints = AF_INET ->
  getaddrinfo ipv6 use6 (Some (c :: h)) serv (Some hints) = getaddrinfo true use6 (Some (c :: h)) serv (Some hints).
Proof.
  intros Hn Hc Hf. unfold getaddrinfo. change (default no_hints (Some hints)) with hints. cbv zeta.
  assert (check_hints ipv6 hints = check_hints true hints) as -> by (unfold check_hints; by rewrite Hf).
  destruct (negb _); [done|].
  assert (choose_host ipv6 (Some (c :: h)) serv hints = choose_host true (Some (c :: h)) serv hints) as ->
    by (unfold choose_host; by rewrite Hf).
  assert (choose_host true (Some (c :: h)) serv hints = Def (inr (Some (c :: h), AF_INET))) as ->
    by (unfold choose_host; by rewrite Hf).
  rewrite !chk_bind_Def. destruct (starts_slash _); [done|]. destruct (starts_slash _); [done|].
  change (default [] (Some (c :: h))) with (c :: h).
  assert (getaddrinfo_host ipv6 use6 (c :: h) AF_INET = getaddrinfo_host true use6 (c :: h) AF_INET) as ->.
  { unfold getaddrinfo_host. destruct (if starts_digit (c :: h) then _ else _) as [[v4|]|]; [done| |done].
    rewrite !chk_bind_Def. cbn [andb AF_INET AF_INET6 Z.eqb Pos.eqb]. rewrite andb_false_r.
    assert (numeric_host AF_INET6 (c :: h) = Def None) as E.
    { unfold numeric_host, inet_pton. change (AF_INET6 =? AF_INET) with false. rewrite Z.eqb_refl.
      by rewrite inet_pton6_nocolon. }
    rewrite E. by destruct ipv6, (starts_xdigit (c :: h)). }
  destruct (getaddrinfo_host true use6 (c :: h) AF_INET) as [[[e|hp] u6]|]; [done| |done].
  rewrite !chk_bind_Def. by rewrite with_host_all4.
Qed.
End Without.

(** ** Properties *)

Section Properties.
Context {ns : NameService}.

(** C28: for a host given by name or number, with the family IPv4 or IPv6, the old
    getaddrinfo and the one of libgai return the same lists, entry by entry, in
    the same cases; where the macro IPV6 of the old one is not defined, for IPv4 and a
    host without a colon.  Host and service are no paths, a port number needs a socket
    type, and the resolver must not have been left looking for IPv6 addresses by an
    earlier call (its option RES_USE_INET6) unless such addresses are asked for. *)
Theorem getaddrinfo_same_lists ipv6 use6 c h serv hints l u :
  ipv6 = true \/ ai_family hints = AF_INET /\ existsb (Ascii.eqb ":"%char) (c :: h) = false ->
  nonul (c :: h) -> Ascii.eqb c "/"%char = false -> (length (c :: h) < HENTBUFSIZ)%nat ->
  ai_family hints = AF_INET \/ ai_family hints = AF_INET6 ->
  use6 = false \/ ai_family hints = AF_INET6 ->
  starts_slash serv = false ->
  (forall s, serv = Some s -> starts_digit s = true -> ai_socktype hints <> 0) ->
  l <> [] ->
  (exists u6, getaddrinfo ipv6 use6 (Some (c :: h)) serv (Some hints) = Def (GaiFound l u, u6)) <->
  Gai.getaddrinfo (Some (c :: h)) serv (Some hints) = Def (GaiFound l u).
Proof.
  intros H6 Hn Hc Hlen Hfam Hu Hsl Hs Hl.
  assert (getaddrinfo ipv6 use6 (Some (c :: h)) serv (Some hints)
          = getaddrinfo true use6 (Some (c :: h)) serv (Some hints)) as ->
    by (destruct H6 as [-> | [??]]; [done|by apply getaddrinfo_without]).
  rewrite gai_unfold by done. unfold getaddrinfo. change (default no_hints (Some hints)) with hints. cbv zeta.
  destruct (negb (check_hints true hints =? 0)); [split; [by intros [? ?]|done]|].
  assert (choose_host true (Some (c :: h)) serv hints = Def (inr (Some (c :: h), ai_family hints))) as ->
    by (unfold choose_host; by destruct Hfam as [-> | ->]).
  rewrite chk_bind_Def. change (default [] (Some (c :: h))) with (c :: h). cbn [starts_slash]. rewrite Hc, Hsl.
  pose proof (search_same hints Hfam use6 (c :: h) Hn Hlen Hu) as Hr. unfold search_result in Hr.
  destruct (getaddrinfo_host true use6 (c :: h) (ai_family hints)) as [[[e|hp] u6]|x].
  - rewrite Hr. split; [by intros [? ?]|done].
  - replace (AI (ai_flags hints) (ai_family hints) (ai_socktype hints) (ai_protocol hints) (ai_addr hints)
               (ai_canonname hints)) with hints by (by destruct hints).
    rewrite chk_bind_Def. destruct (negb (ai_family hints =? h_addrtype hp)) eqn:Ef.
    + rewrite Hr. unfold with_host. rewrite Ef, wants_family by done. split; [by intros [? ?]|done].
    + destruct Hr as (cn & Hcn & Hso). rewrite Hso, <- (with_host_same hints (c :: h) hp serv cn l u) by done.
      destruct (with_host true hints hp serv) as [g|x]; cbn; split.
      * intros [? E]. by injection E as -> _.
      * intros E. injection E as ->. by eexists.
      * by intros [? ?].
      * done.
  - rewrite Hr. split; [by intros [? ?]|done].
Qed.

Lemma getaddrinfo_serv_errors ipv6 ais hints s rc l :
  getaddrinfo_serv ipv6 ais hints s = Def (rc, l) -> rc = 0 \/ rc = EAI_NONAME \/ rc = EAI_SERVICE.
Proof.
  unfold getaddrinfo_serv. destruct (_ && _).
  - intros (p & _ & E)%chk_bind_inv. destruct (getaddrinfo_port _ _ _ _) as [n l'].
    injection E as <- _. destruct (n =? 0); auto.
  - destruct (try_service _ _ "tcp" _ _ _) as [n1 l1], (try_service _ _ "udp" _ _ _) as [n2 l2].
    intros E. injection E as <- _. destruct (n1 + n2 =? 0), (ai_socktype hints =? 0); auto.
Qed.

Lemma finish_serv_errors ipv6 ais hints serv e :
  finish_serv ipv6 ais hints serv = Def (GaiError e) ->
  (exists s, serv = Some s /\ s <> []) /\ (e = EAI_NONAME \/ e = EAI_SERVICE).
Proof.
  unfold finish_serv. destruct serv as [[|c s]|]; [done| |done].
  intros ([rc l] & E & E2)%chk_bind_inv. destruct (Z.eqb_spec rc 0) as [|Hne]; cbn [negb] in E2; [done|].
  injection E2 as <-. split; [by eexists|]. apply getaddrinfo_serv_errors in E as [?|?]; done.
Qed.

Lemma with_host_errors ipv6 hints hp serv e :
  with_host ipv6 hints hp serv = Def (GaiError e) ->
  (exists s, serv = Some s /\ s <> []) /\ (e = EAI_NONAME \/ e = EAI_SERVICE).
Proof.
  unfold with_host. destruct (_ && _); [done|].
  intros (l & _ & (ais & _ & E)%chk_bind_inv)%chk_bind_inv. by eapply finish_serv_errors.
Qed.

(** The only errors the old getaddrinfo ever returns are that of a path without a
    socket type and those of a service that is not found.  Every other failure
    (flags, family, a host that does not exist or has addresses of another family,
    no host and no service) goes to the label [bad] before [aihead] is assigned,
    where freeaddrinfo follows an uninitialised pointer. *)
Theorem getaddrinfo_errors ipv6 use6 host serv hintsp e u6 :
  getaddrinfo ipv6 use6 host serv hintsp = Def (GaiError e, u6) ->
  (e = EAI_SOCKTYPE /\ ai_socktype (default no_hints hintsp) = 0 /\ (starts_slash host || starts_slash serv = true)) \/
  ((e = EAI_NONAME \/ e = EAI_SERVICE) /\ exists s, serv = Some s /\ s <> []).
Proof.
  unfold getaddrinfo. set (hints := default no_hints hintsp). cbv zeta. destruct (negb _); [done|].
  intros ([?|[host' fam]] & Ech & E)%chk_bind_inv; [done|].
  assert (starts_slash host' = true -> starts_slash host = true) as Hsl.
  { unfold choose_host in Ech. destruct (empty_str host) eqn:Eh.
    - destruct (empty_str serv); [done|]. destruct (flag _ _); [|by injection Ech as <- _].
      destruct (_ =? AF_INET); [by injection Ech as <- _|]. destruct (_ && _); [by injection Ech as <- _|].
      destruct (_ =? AF_UNIX); [destruct (negb _); [done|by injection Ech as <- _]|].
      destruct (_ =? 0); [done|by injection Ech as <- _].
    - destruct (_ =? 0); [|by injection Ech as <- _]. apply chk_bind_inv in Ech as (v4 & _ & Ech).
      destruct ipv6; [apply chk_bind_inv in Ech as (v6 & _ & Ech)|]; by injection Ech as <- _. }
  assert (forall path h, (r ← addrinfo_local path h; mret (r, use6)) = Def (GaiError e, u6) ->
            e = EAI_SOCKTYPE /\ ai_socktype h = 0) as Hloc.
  { intros path h (r & Er & E2)%chk_bind_inv. injection E2 as -> _. unfold addrinfo_local in Er.
    destruct (Z.eqb_spec (ai_socktype h) 0); [by injection Er as <-|]. by apply chk_bind_inv in Er as (p & _ & Er). }
  destruct (starts_slash host') eqn:E1; [left|destruct (starts_slash serv) eqn:E2; [left|right]].
  - destruct (Hloc _ _ E) as [-> ?]. by rewrite Hsl.
  - destruct (Hloc _ _ E) as [-> ?]. by rewrite orb_true_r.
  - apply chk_bind_inv in E as ([[?|hp] u] & _ & E); [done|]. apply chk_bind_inv in E as (r & Er & E3).
    injection E3 as -> _. destruct (with_host_errors _ _ _ _ _ Er). by split.
Qed.
End Properties.

Definition stream4 : addrinfo := AI AI_CANONNAME AF_INET SOCK_STREAM 0 None None.

Lemma getaddrinfo_same_lists_witness :
  @Gai.getaddrinfo demo_ns (Some (chars "vm1")) (Some (chars "daytime")) (Some stream4)
  = Def (GaiFound [AI 0 AF_INET SOCK_STREAM 0 (Some (SIn 3328 (chars "abcd"))) (Some (chars "vm1.cs"));
                   AI 0 AF_INET SOCK_STREAM 0 (Some (SIn 3328 (chars "efgh"))) None] []).
Proof.
  apply (@getaddrinfo_same_lists demo_ns false false "v"%char (chars "m1") (Some (chars "daytime")) stream4).
  - right. split; reflexivity.
  - by repeat constructor.
  - reflexivity.
  - by apply Nat.ltb_lt; vm_compute.
  - by left.
  - by left.
  - reflexivity.
  - discriminate.
  - discriminate.
  - eexists. vm_compute. reflexivity.
Defined.

Lemma getaddrinfo_errors_witness :
  @getaddrinfo demo_ns true false (Some (chars "vm1")) (Some (chars "nope")) (Some stream4)
  = Def (GaiError EAI_SERVICE, false) /\
  (EAI_SERVICE = EAI_NONAME \/ EAI_SERVICE = EAI_SERVICE).
Proof.
  assert (@getaddrinfo demo_ns true false (Some (chars "vm1")) (Some (chars "nope")) (Some stream4)
          = Def (GaiError EAI_SERVICE, false)) as E by (vm_compute; reflexivity).
  split; [exact E|]. destruct (getaddrinfo_errors _ _ _ _ _ _ _ E) as [[? _]|[? _]]; [discriminate|done].
Defined.

(** A host that does not exist. *)
Example unknown_host_undefined :
  @getaddrinfo demo_ns true false (Some (chars "vm9")) None (Some stream4) = Bad Uninitialised.
Proof. vm_compute. reflexivity. Qed.

(** A path answers a request for IPv4 addresses; libgai refuses it. *)
Example path_for_ipv4 :
  @getaddrinfo demo_ns true false (Some (chars "/tmp/x")) None (Some stream4)
  = Def (GaiFound [AI 0 AF_UNIX SOCK_STREAM 0 (Some (SUn (chars "/tmp/x" ++ replicate 102 NUL))) None] [], false).
Proof. vm_compute. reflexivity. Qed.

(** A path that does not fit is cut, and not terminated. *)
Example long_path_cut :
  exists p, @getaddrinfo demo_ns true false (Some ("/"%char :: replicate 120 "x"%char)) None (Some stream4)
            = Def (GaiFound [AI 0 AF_UNIX SOCK_STREAM 0 (Some (SUn p)) None] [], false) /\
            cstr p = None.
Proof. eexists. split; [vm_compute; reflexivity|vm_compute; reflexivity]. Qed.

(** After one request for IPv6 addresses of a name, every later request for IPv4
    addresses of a name fails: the bit of the resolver stays set. *)
Example inet6_bit_stays :
  exists r, @getaddrinfo_host demo_ns true false (chars "vm1") AF_INET6 = Def (r, true) /\
  @getaddrinfo_host demo_ns true true (chars "vm1") AF_INET = Def (inl EAI_NONAME, true) /\
  exists hp, @getaddrinfo_host demo_ns true false (chars "vm1") AF_INET = Def (inr hp, false).
Proof. eexists. split; [vm_compute; reflexivity|]. split; [vm_compute; reflexivity|]. eexists. vm_compute. reflexivity. Qed.
