(* ===== verification/Icmpd.v ===== *)
(** * The ICMP daemon

    Stevens/unpv13e/icmpd: clients pass the descriptors of their UDP sockets to
    the daemon over a Unix-domain connection; the daemon remembers the local port
    of each, and when an ICMP error about a datagram from that port arrives, it
    writes a message about it on the client's connection. *)

From stdpp Require Import gmap sets fin_sets.
From S2P Require Import Prelude CLib Inet Inet6 SelectServ Sockaddr.

Definition EHOSTUNREACH : Z := 113.
Definition ECONNREFUSED : Z := 111.
Definition EMSGSIZE : Z := 90.
Definition ICMP_UNREACH : Z := 3.
Definition ICMP_SOURCEQUENCH : Z := 4.
Definition ICMP_TIMXCEED : Z := 11.
Definition ICMP_UNREACH_PORT : Z := 3.
Definition ICMP_UNREACH_NEEDFRAG : Z := 4.
Definition ICMP6_DST_UNREACH : Z := 1.
Definition ICMP6_PACKET_TOO_BIG : Z := 2.
Definition ICMP6_TIME_EXCEEDED : Z := 3.
Definition ICMP6_DST_UNREACH_NOPORT : Z := 4.
Definition PROTO_UDP : Z := 17.
Definition MAXMSG : nat := 4096.

(** [struct client]; [connfd] is -1 in an entry that is not in use. *)
Record client := Client { connfd : Z; family : Z; lport : Z }.

(** The globals of the daemon. *)
Record icmpd := Icmpd {
  clients : list client;
  maxi : Z;
  maxfd : Z;
  allset : gset Z;
}.

(** [struct icmpd_err]. *)
Record icmpd_err := IcmpdErr {
  icmpd_errno : Z;
  icmpd_type : Z;
  icmpd_code : Z;
  icmpd_dest : sockaddr;
}.

(** A byte stored in a [char]. *)
Definition as_char (x : Z) : Z := if x <? 128 then x else x - 256.

(** What the daemon does: a character or a message written, a descriptor closed. *)
Inductive deed := Told (fd : Z) (c : ascii) | Informed (fd : Z) (e : icmpd_err) | Shut (fd : Z).

Definition icmpd_init (listenfd fd4 fd6 : Z) : icmpd :=
  Icmpd (replicate FD_SETSIZE (Client (-1) 0 0)) (-1) (Z.max (Z.max fd4 fd6) listenfd)
        {[ fd4; fd6; listenfd ]}.

Definition set_clients (cs : list client) (s : icmpd) : icmpd := Icmpd cs (maxi s) (maxfd s) (allset s).

(** ** A new connection (readable_listen) *)

Definition readable_listen (fd nready : Z) : M icmpd (Z * list deed) :=
  s ← get;
  match first_free (connfd <$> clients s) with
  | None => mret (nready - 1, [Shut fd])
  | Some i =>
      all' ← lift (FD_SET fd (allset s));
      modify (fun s => Icmpd (alter (fun c => Client fd (family c) (lport c)) i (clients s))
                             (if maxi s <? Z.of_nat i then Z.of_nat i else maxi s)
                             (if maxfd s <? fd then fd else maxfd s) all');;
      mret (nready - 1, [])
  end.

(** ** A client's descriptor (readable_conn) *)

(** The kernel for one connection: the result of [Read_fd] with the descriptor
    passed (-1 if none), the result of [getsockname], the port of
    [sock_bind_wild]. [Read_fd] returns only with the number of bytes read. *)
Record conn_in := ConnIn { rf_n : Z; rf_fd : Z; rf_name : option sockaddr; rf_bound : Z }.

(** [clientdone]: the descriptors are closed and the entry is free. *)
Definition forget (i : nat) (unixfd : Z) (s : icmpd) : icmpd :=
  Icmpd (alter (fun c => Client (-1) (family c) (lport c)) i (clients s)) (maxi s) (maxfd s)
        (allset s ∖ {[ unixfd ]}).

Definition client_done (i : nat) (unixfd recvfd nready : Z) (said : list deed) : M icmpd (Z * list deed) :=
  modify (forget i unixfd);;
  mret (nready - 1, said ++ [Shut unixfd] ++ if recvfd <? 0 then [] else [Shut recvfd]).

Definition register (i : nat) (fam port : Z) (s : icmpd) : icmpd :=
  set_clients (alter (fun c => Client (connfd c) fam port) i (clients s)) s.

Definition readable_conn (k : conn_in) (i : nat) (nready : Z) : M icmpd (Z * list deed) :=
  s ← get;
  c ← follow (clients s !! i);
  let unixfd := connfd c in
  let recvfd := rf_fd k in
  let err := client_done i unixfd recvfd nready [Told unixfd "0"%char] in
  if rf_n k =? 0 then client_done i unixfd recvfd nready []
  else if recvfd <? 0 then err
  else match rf_name k with
       | None => err
       | Some ss =>
           let port := sock_get_port ss in
           let port' := if port =? 0 then rf_bound k else port in
           modify (register i (sa_family ss) port');;
           if (port =? 0) && (port' <=? 0) then err
           else mret (nready - 1, [Told unixfd "1"%char; Shut recvfd])
       end.

(** ** ICMP messages (readable_v4, readable_v6) *)

(** Reading what was received; behind it the buffer has not been written. *)
Definition got_at (b : buf) (k : nat) : chk Z :=
  match b !! k with Some c => Def (Z_of_byte c) | None => Bad Uninitialised end.
Definition got16 (b : buf) (k : nat) : chk Z :=
  x ← got_at b k; y ← got_at b (S k); mret (x + 256 * y).
Definition got_bytes (b : buf) (k n : nat) : chk buf :=
  if (k + n <=? length b)%nat then Def (take n (drop k b)) else Bad Uninitialised.

(** The loop over the clients: everyone with the port is told. *)
Definition concerned (fam sport : Z) (s : icmpd) : list client :=
  filter (fun c => 0 <= connfd c /\ family c = fam /\ lport c = sport)
         (take (Z.to_nat (maxi s + 1)) (clients s)).

Definition inform (e : icmpd_err) (cs : list client) : list deed :=
  (fun c => Informed (connfd c) e) <$> cs.

Definition errno4 (type code : Z) : Z :=
  if type =? ICMP_UNREACH then
    if code =? ICMP_UNREACH_PORT then ECONNREFUSED
    else if code =? ICMP_UNREACH_NEEDFRAG then EMSGSIZE else EHOSTUNREACH
  else EHOSTUNREACH.

Definition errno6 (type code : Z) : Z :=
  let e := if (type =? ICMP6_DST_UNREACH) && (code =? ICMP6_DST_UNREACH_NOPORT)
           then ECONNREFUSED else EHOSTUNREACH in
  if type =? ICMP6_PACKET_TOO_BIG then EMSGSIZE else e.

Definition is_error4 (type : Z) : bool :=
  (type =? ICMP_UNREACH) || (type =? ICMP_TIMXCEED) || (type =? ICMP_SOURCEQUENCH).
Definition is_error6 (type : Z) : bool :=
  (type =? ICMP6_DST_UNREACH) || (type =? ICMP6_PACKET_TOO_BIG) || (type =? ICMP6_TIME_EXCEEDED).

Definition readable_v4 (data : buf) (nready : Z) : M icmpd (Z * list deed) :=
  let b := take MAXMSG data in
  b0 ← lift (got_at b 0);
  let hlen1 := Z.to_nat (b0 mod 16 * 4) in
  let icmplen := Z.of_nat (length b) - Z.of_nat hlen1 in
  if icmplen <? 8 then abort_with ErrExit else
  type ← lift (got_at b hlen1);
  code ← lift (got_at b (S hlen1));
  if negb (is_error4 type) then mret (nready - 1, []) else
  if icmplen <? 8 + 20 + 8 then abort_with ErrExit else
  let hip := (hlen1 + 8)%nat in
  h0 ← lift (got_at b hip);
  let hlen2 := Z.to_nat (h0 mod 16 * 4) in
  p ← lift (got_at b (hip + 9));
  if negb (p =? PROTO_UDP) then mret (nready - 1, []) else
  let udp := (hip + hlen2)%nat in
  sport ← lift (got16 b udp);
  cs ← gets (concerned AF_INET sport);
  match cs with
  | [] => mret (nready - 1, [])
  | _ =>
      dst ← lift (got_bytes b (hip + 16) 4);
      dport ← lift (got16 b (udp + 2));
      mret (nready - 1, inform (IcmpdErr (errno4 type code) (as_char type) (as_char code) (SIn dport dst)) cs)
  end.

Definition readable_v6 (data : buf) (nready : Z) : M icmpd (Z * list deed) :=
  let b := take MAXMSG data in
  let icmp6len := Z.of_nat (length b) in
  if icmp6len <? 8 then abort_with ErrExit else
  type ← lift (got_at b 0);
  code ← lift (got_at b 1);
  if negb (is_error6 type) then mret (nready - 1, []) else
  if icmp6len <? 8 + 8 then abort_with ErrExit else
  lift (got_bytes b (8 + 8) 32);;
  p ← lift (got_at b (8 + 6));
  if negb (p =? PROTO_UDP) then mret (nready - 1, []) else
  let udp := (8 + 40)%nat in
  sport ← lift (got16 b udp);
  cs ← gets (concerned AF_INET6 sport);
  match cs with
  | [] => mret (nready - 1, [])
  | _ =>
      dst ← lift (got_bytes b (8 + 24) 16);
      dport ← lift (got16 b (udp + 2));
      mret (nready - 1, inform (IcmpdErr (errno6 type code) (as_char type) (as_char code) (SIn6 dport dst)) cs)
  end.

(** ** One turn of the loop *)

(** The kernel in one turn: the descriptors ready, what [Accept] returns, the
    messages on the two raw sockets, what each client's connection gives. *)
Record turn_in := TurnIn {
  rset : gset Z; new_fd : Z; msg4 : buf; msg6 : buf; conns : nat -> conn_in }.

(** A part of the turn that is done if its descriptor is ready; [None] after it:
    nothing more is ready ([continue]). *)
Definition if_ready (k : turn_in) (fd : Z) (f : Z -> M icmpd (Z * list deed))
    (st : option Z * list deed) : M icmpd (option Z * list deed) :=
  match st with
  | (Some nready, acts) =>
      if bool_decide (fd ∈ rset k) then
        r ← f nready;
        mret (if r.1 <=? 0 then None else Some r.1, acts ++ r.2)
      else mret st
  | _ => mret st
  end.

Fixpoint conn_loop (k : turn_in) (is_ : list nat) (st : option Z * list deed)
    : M icmpd (option Z * list deed) :=
  match is_ with
  | [] => mret st
  | i :: is' =>
      s ← get;
      c ← follow (clients s !! i);
      st' ← (if connfd c <? 0 then mret st
             else if_ready k (connfd c) (readable_conn (conns k i) i) st);
      conn_loop k is' st'
  end.

Definition icmpd_turn (listenfd fd4 fd6 : Z) (k : turn_in) : M icmpd (list deed) :=
  st1 ← if_ready k listenfd (readable_listen (new_fd k)) (Some (Z.of_nat (size (rset k))), []);
  st2 ← if_ready k fd4 (readable_v4 (msg4 k)) st1;
  st3 ← if_ready k fd6 (readable_v6 (msg6 k)) st2;
  s ← get;
  st4 ← conn_loop k (seq 0 (Z.to_nat (maxi s + 1))) st3;
  mret st4.2.

(** * Lemmas *)

Lemma got_at_app a c b : got_at (a ++ c :: b) (length a) = Def (Z_of_byte c).
Proof. unfold got_at. by rewrite list_lookup_middle. Qed.

(** Reading behind a prefix. *)
Lemma got_at_skip a b k : got_at (a ++ b) (length a + k) = got_at b k.
Proof. unfold got_at. rewrite lookup_app_r by lia. by replace (length a + k - length a)%nat with k by lia. Qed.

Lemma got16_skip a b k : got16 (a ++ b) (length a + k) = got16 b k.
Proof.
  unfold got16. rewrite got_at_skip. replace (S (length a + k)) with (length a + S k)%nat by lia.
  by rewrite got_at_skip.
Qed.

Lemma got_bytes_skip a b k n : got_bytes (a ++ b) (length a + k) n = got_bytes b k n.
Proof.
  unfold got_bytes. rewrite length_app, drop_app_ge by lia.
  replace (length a + k - length a)%nat with k by lia.
  destruct (Nat.leb_spec (length a + k + n) (length a + length b)), (Nat.leb_spec (k + n) (length b)); (done || lia).
Qed.

(** ** Messages *)

(** An IPv4 header: version and length, what is in front of the protocol, the
    protocol, checksum and source address, destination address, options. *)
Definition ip_header (hl : Z) (front : buf) (proto : Z) (mid dst opts : buf) : buf :=
  byte_of_Z (64 + hl) :: front ++ byte_of_Z proto :: mid ++ dst ++ opts.

Record ip_header_ok (hl : Z) (front mid dst opts : buf) : Prop := {
  ih_hl : 5 <= hl <= 15;
  ih_front : length front = 8%nat;
  ih_mid : length mid = 6%nat;
  ih_dst : length dst = 4%nat;
  ih_opts : Z.of_nat (length opts) = 4 * (hl - 5);
}.

Lemma ip_header_length hl front p mid dst opts :
  ip_header_ok hl front mid dst opts -> length (ip_header hl front p mid dst opts) = Z.to_nat (4 * hl).
Proof. intros [H1 H2 H3 H4 H5]. unfold ip_header. cbn. rewrite !length_app. cbn. rewrite !length_app. lia. Qed.

(** The length field, as it is decoded. *)
Lemma header_length hl : 5 <= hl <= 15 -> Z.to_nat (Z_of_byte (byte_of_Z (64 + hl)) mod 16 * 4) = Z.to_nat (4 * hl).
Proof.
  intros H. rewrite Z_of_byte_of_Z. f_equal. rewrite (Z.mod_small (64 + hl)) by lia.
  replace (64 + hl) with (hl + 4 * 16) by lia. rewrite Z_mod_plus_full, Z.mod_small by lia. lia.
Qed.

Lemma ip_header_proto hl front p mid dst opts rest :
  ip_header_ok hl front mid dst opts -> 0 <= p < 256 ->
  got_at (ip_header hl front p mid dst opts ++ rest) 9 = Def p.
Proof.
  intros [_ H2 _ _ _] Hp. unfold ip_header. cbn [app].
  change (byte_of_Z (64 + hl) :: (front ++ byte_of_Z p :: mid ++ dst ++ opts) ++ rest)
    with ((byte_of_Z (64 + hl) :: front ++ byte_of_Z p :: mid ++ dst ++ opts) ++ rest).
  rewrite <- app_comm_cons, <- app_assoc. cbn [app].
  change (byte_of_Z (64 + hl) :: front ++ byte_of_Z p :: (mid ++ dst ++ opts) ++ rest)
    with ((byte_of_Z (64 + hl) :: front) ++ byte_of_Z p :: (mid ++ dst ++ opts) ++ rest).
  replace 9%nat with (length (byte_of_Z (64 + hl) :: front)) by (cbn; lia).
  rewrite got_at_app, Z_of_byte_of_Z. by rewrite Z.mod_small.
Qed.

Lemma ip_header_dst hl front p mid dst opts rest :
  ip_header_ok hl front mid dst opts ->
  got_bytes (ip_header hl front p mid dst opts ++ rest) 16 4 = Def dst.
Proof.
  intros [_ H2 H3 H4 _]. unfold ip_header.
  replace ((byte_of_Z (64 + hl) :: front ++ byte_of_Z p :: mid ++ dst ++ opts) ++ rest)
    with ((byte_of_Z (64 + hl) :: front ++ byte_of_Z p :: mid) ++ dst ++ opts ++ rest)
    by (rewrite <- !app_comm_cons, <- !app_assoc, <- !app_comm_cons, <- !app_assoc; reflexivity).
  replace 16%nat with (length (byte_of_Z (64 + hl) :: front ++ byte_of_Z p :: mid) + 0)%nat
    by (cbn; rewrite length_app; cbn; lia).
  rewrite got_bytes_skip. unfold got_bytes. rewrite drop_0, length_app.
  rewrite (proj2 (Nat.leb_le _ _)) by lia. by rewrite take_app_length'.
Qed.

Lemma got16_le a b rest : got16 (byte_of_Z a :: byte_of_Z b :: rest) 0 = Def (a mod 256 + 256 * (b mod 256)).
Proof. unfold got16, got_at. cbn. by rewrite !Z_of_byte_of_Z. Qed.

(** A port as it lies in memory. *)
Definition port_bytes (p : Z) : buf := [byte_of_Z p; byte_of_Z (p / 256)].

Lemma got16_port p rest : 0 <= p < 65536 -> got16 (port_bytes p ++ rest) 0 = Def p.
Proof.
  intros Hp. unfold port_bytes. cbn [app]. rewrite got16_le. f_equal.
  rewrite (Z.mod_small (p / 256)); [|split; [apply Z.div_pos; lia|apply Z.div_lt_upper_bound; lia]].
  pose proof (Z.div_mod p 256). lia.
Qed.

(** An ICMP message about a UDP datagram: its IP header, type and code, the rest of
    its header, and the start of the datagram. *)
Definition report4 (hl1 : Z) (front1 mid1 dst1 opts1 : buf) (type code : Z) (fill : buf)
    (hl2 : Z) (front2 mid2 dst opts2 : buf) (sport dport : Z) (tail : buf) : buf :=
  ip_header hl1 front1 1 mid1 dst1 opts1 ++ (byte_of_Z type :: byte_of_Z code :: fill) ++
  ip_header hl2 front2 PROTO_UDP mid2 dst opts2 ++ port_bytes sport ++ port_bytes dport ++ tail.

Section Report.
Context (hl1 : Z) (front1 mid1 dst1 opts1 : buf) (type code : Z) (fill : buf).
Context (hl2 : Z) (front2 mid2 dst opts2 : buf) (sport dport : Z) (tail : buf).
Hypothesis H1 : ip_header_ok hl1 front1 mid1 dst1 opts1.
Hypothesis H2 : ip_header_ok hl2 front2 mid2 dst opts2.
Hypothesis Ht : 0 <= type < 256.
Hypothesis Hc : 0 <= code < 256.
Hypothesis Hf : length fill = 6%nat.
Hypothesis Hsp : 0 <= sport < 65536.
Hypothesis Hdp : 0 <= dport < 65536.

Abbreviation msg := (report4 hl1 front1 mid1 dst1 opts1 type code fill hl2 front2 mid2 dst opts2 sport dport tail).
Abbreviation h1 := (Z.to_nat (4 * hl1)).
Abbreviation h2 := (Z.to_nat (4 * hl2)).

Lemma report4_length : length msg = (h1 + 8 + h2 + 4 + length tail)%nat.
Proof using H1 H2 Hf.
  unfold report4. rewrite !length_app, (ip_header_length _ _ _ _ _ _ H1), (ip_header_length _ _ _ _ _ _ H2).
  cbn [length port_bytes]. lia.
Qed.

Lemma report4_start : got_at msg 0 = Def (Z_of_byte (byte_of_Z (64 + hl1))).
Proof using Type. done. Qed.

Lemma report4_type : got_at msg h1 = Def type /\ got_at msg (S h1) = Def code.
Proof using H1 Ht Hc.
  unfold report4. rewrite <- (ip_header_length _ _ 1 _ _ _ H1). split.
  - rewrite <- (Nat.add_0_r (length _)), got_at_skip. unfold got_at. cbn. by rewrite Z_of_byte_of_Z, Z.mod_small.
  - rewrite <- (Nat.add_1_r (length _)), got_at_skip. unfold got_at. cbn. by rewrite Z_of_byte_of_Z, Z.mod_small.
Qed.

(** Reading in the datagram inside. *)
Lemma report4_inner k :
  got_at msg (h1 + 8 + k) = got_at (drop (h1 + 8) msg) k /\
  got16 msg (h1 + 8 + k) = got16 (drop (h1 + 8) msg) k /\
  (forall n, got_bytes msg (h1 + 8 + k) n = got_bytes (drop (h1 + 8) msg) k n) /\
  drop (h1 + 8) msg = ip_header hl2 front2 PROTO_UDP mid2 dst opts2 ++ port_bytes sport ++ port_bytes dport ++ tail.
Proof using H1 Hf.
  assert (exists pre, length pre = (h1 + 8)%nat /\
            msg = pre ++ ip_header hl2 front2 PROTO_UDP mid2 dst opts2 ++ port_bytes sport ++ port_bytes dport ++ tail)
    as (pre & Hp & E).
  { exists (ip_header hl1 front1 1 mid1 dst1 opts1 ++ (byte_of_Z type :: byte_of_Z code :: fill)).
    split; [|unfold report4; by rewrite <- app_assoc].
    rewrite length_app, (ip_header_length _ _ _ _ _ _ H1). cbn [length]. lia. }
  rewrite E, <- Hp, drop_app_length. split_and!; [apply got_at_skip|apply got16_skip|intros n; apply got_bytes_skip|done].
Qed.

Lemma report4_ports :
  got16 msg (h1 + 8 + h2) = Def sport /\ got16 msg (h1 + 8 + h2 + 2) = Def dport.
Proof using H1 H2 Hf Hsp Hdp.
  rewrite <- (Nat.add_assoc (h1 + 8) h2 2). destruct (report4_inner h2) as (_ & -> & _ & E).
  destruct (report4_inner (h2 + 2)) as (_ & -> & _ & _). rewrite E.
  rewrite <- (ip_header_length _ _ PROTO_UDP _ _ _ H2). rewrite got16_skip. split.
  - rewrite <- (Nat.add_0_r (length (ip_header _ _ _ _ _ _))), got16_skip. by apply got16_port.
  - replace 2%nat with (length (port_bytes sport) + 0)%nat by done.
    rewrite got16_skip. by apply got16_port.
Qed.
End Report.

(** * Properties *)

(** An ICMP error about a UDP datagram, whatever options the two IP headers have:
    every client whose socket has the source port of the datagram is told the
    type, the code, the error number they stand for and the destination of the
    datagram, in the order of the table; nobody else is, and the table does not
    change. *)
Lemma readable_v4_informs hl1 front1 mid1 dst1 opts1 type code fill hl2 front2 mid2 dst opts2
    sport dport tail nready s :
  ip_header_ok hl1 front1 mid1 dst1 opts1 -> ip_header_ok hl2 front2 mid2 dst opts2 ->
  is_error4 type = true -> 0 <= code < 256 -> length fill = 6%nat ->
  0 <= sport < 65536 -> 0 <= dport < 65536 -> (4 <= length tail)%nat ->
  let m := report4 hl1 front1 mid1 dst1 opts1 type code fill hl2 front2 mid2 dst opts2 sport dport tail in
  (length m <= MAXMSG)%nat ->
  readable_v4 m nready s =
  Ok (nready - 1, inform (IcmpdErr (errno4 type code) (as_char type) (as_char code) (SIn dport dst)) (concerned AF_INET sport s)) s.
Proof.
  intros H1 H2 He Hc Hf Hsp Hdp Htl m Hm.
  assert (0 <= type < 256) as Ht.
  { unfold is_error4, ICMP_UNREACH, ICMP_TIMXCEED, ICMP_SOURCEQUENCH in He. lia. }
  pose proof (ih_hl _ _ _ _ _ H1) as Hl1. pose proof (ih_hl _ _ _ _ _ H2) as Hl2.
  pose proof (report4_length hl1 front1 mid1 dst1 opts1 type code fill hl2 front2 mid2 dst opts2 sport dport tail
                H1 H2 Hf) as Hlen. fold m in Hlen.
  destruct (report4_type hl1 front1 mid1 dst1 opts1 type code fill hl2 front2 mid2 dst opts2 sport dport tail
              H1 Ht Hc) as [Hty Hco]. fold m in Hty, Hco.
  destruct (report4_ports hl1 front1 mid1 dst1 opts1 type code fill hl2 front2 mid2 dst opts2 sport dport tail
              H1 H2 Hf Hsp Hdp) as [Hs Hd]. fold m in Hs, Hd.
  pose proof (report4_inner hl1 front1 mid1 dst1 opts1 type code fill hl2 front2 mid2 dst opts2 sport dport tail
                H1 Hf) as Hin. fold m in Hin.
  unfold readable_v4. cbv zeta. rewrite (take_ge m) by done.
  unfold mbind, M_bind, lift, gets. change (got_at m 0) with (Def (Z_of_byte (byte_of_Z (64 + hl1)))).
  cbv beta iota. rewrite (header_length hl1) by done.
  assert (Z.of_nat (length m) - Z.of_nat (Z.to_nat (4 * hl1)) >= 36) as Hge by lia.
  rewrite (proj2 (Z.ltb_ge _ 8)) by lia. rewrite Hty, Hco, He. cbn [negb].
  rewrite (proj2 (Z.ltb_ge _ (8 + 20 + 8))) by lia.
  destruct (Hin 0%nat) as (E0 & _ & _ & E). rewrite Nat.add_0_r in E0. rewrite E0, E.
  change (got_at (ip_header hl2 front2 PROTO_UDP mid2 dst opts2 ++ _) 0) with (Def (Z_of_byte (byte_of_Z (64 + hl2)))).
  cbv beta iota. rewrite (header_length hl2) by done.
  rewrite (proj1 (Hin 9%nat)), E, (ip_header_proto _ _ _ _ _ _ _ H2) by (unfold PROTO_UDP; lia).
  cbn [negb Z.eqb PROTO_UDP Pos.eqb]. rewrite Hs, Hd.
  destruct (concerned AF_INET sport s) as [|c cs] eqn:Ec; [done|].
  destruct (Hin 16%nat) as (_ & _ & -> & _). rewrite E, (ip_header_dst _ _ _ _ _ _ _ H2). done.
Qed.

(** The same over IPv6. *)
Definition report6 (type code : Z) (fill front : buf) (hlim : ascii) (src dst : buf) (sport dport : Z)
    (tail : buf) : buf :=
  (byte_of_Z type :: byte_of_Z code :: fill ++ front ++ [byte_of_Z PROTO_UDP]) ++
  (hlim :: src) ++ dst ++ port_bytes sport ++ port_bytes dport ++ tail.

(** Where the parts of such a message are. *)
Lemma report6_parts type code fill front hlim src dst sport dport tail :
  0 <= type < 256 -> 0 <= code < 256 -> length fill = 6%nat -> length front = 6%nat ->
  length src = 16%nat -> length dst = 16%nat -> 0 <= sport < 65536 -> 0 <= dport < 65536 ->
  let m := report6 type code fill front hlim src dst sport dport tail in
  length m = (52 + length tail)%nat /\ got_at m 0 = Def type /\ got_at m 1 = Def code /\
  got_at m (8 + 6) = Def PROTO_UDP /\ got_bytes m (8 + 24) 16 = Def dst /\
  got16 m (8 + 40) = Def sport /\ got16 m (8 + 40 + 2) = Def dport.
Proof.
  intros Ht Hc Hfi Hfr Hsr Hds Hsp Hdp m.
  assert (length m = (52 + length tail)%nat) as Hm.
  { unfold m, report6. rewrite !length_app. cbn [length port_bytes]. rewrite !length_app. cbn [length]. lia. }
  set (hd := byte_of_Z type :: byte_of_Z code :: fill ++ front ++ [byte_of_Z PROTO_UDP]).
  assert (length hd = 15%nat) as Hhd by (unfold hd; cbn [length]; rewrite !length_app; cbn [length]; lia).
  assert (m = ((hd ++ hlim :: src)) ++ dst ++ port_bytes sport ++ port_bytes dport ++ tail) as E2
    by (unfold m, report6; fold hd; by rewrite <- !app_assoc).
  assert (length (hd ++ hlim :: src) = 32%nat) as H32 by (rewrite length_app; cbn [length]; lia).
  split_and!; [done|..].
  - unfold got_at. cbn. by rewrite Z_of_byte_of_Z, Z.mod_small.
  - unfold got_at. cbn. by rewrite Z_of_byte_of_Z, Z.mod_small.
  - unfold m, report6. replace (_ :: _ :: fill ++ front ++ [_])
      with ((byte_of_Z type :: byte_of_Z code :: fill ++ front) ++ [byte_of_Z PROTO_UDP])
      by (cbn; by rewrite <- !app_assoc).
    rewrite <- (app_assoc _ [_]). cbn [app].
    replace (8 + 6)%nat with (length (byte_of_Z type :: byte_of_Z code :: fill ++ front)) at 1
      by (cbn [length]; rewrite length_app; lia).
    rewrite app_comm_cons, app_comm_cons, got_at_app. done.
  - rewrite E2. replace (8 + 24)%nat with (length (hd ++ hlim :: src) + 0)%nat by lia.
    rewrite got_bytes_skip. unfold got_bytes. rewrite drop_0, length_app.
    rewrite (proj2 (Nat.leb_le _ _)) by lia. by rewrite take_app_length'.
  - rewrite E2. replace (8 + 40)%nat with (length (hd ++ hlim :: src) + (length dst + 0))%nat by lia.
    rewrite !got16_skip. by apply got16_port.
  - rewrite E2.
    replace (8 + 40 + 2)%nat with (length (hd ++ hlim :: src) + (length dst + (length (port_bytes sport) + 0)))%nat
      by (rewrite H32, Hds; done).
    rewrite !got16_skip. by apply got16_port.
Qed.

Lemma readable_v6_informs type code fill front hlim src dst sport dport tail nready s :
  is_error6 type = true -> 0 <= code < 256 -> length fill = 6%nat -> length front = 6%nat ->
  length src = 16%nat -> length dst = 16%nat -> 0 <= sport < 65536 -> 0 <= dport < 65536 ->
  let m := report6 type code fill front hlim src dst sport dport tail in
  (length m <= MAXMSG)%nat ->
  readable_v6 m nready s =
  Ok (nready - 1, inform (IcmpdErr (errno6 type code) (as_char type) (as_char code) (SIn6 dport dst)) (concerned AF_INET6 sport s)) s.
Proof.
  intros He Hc Hfi Hfr Hsr Hds Hsp Hdp m Hm.
  assert (0 <= type < 256) as Ht.
  { unfold is_error6, ICMP6_DST_UNREACH, ICMP6_PACKET_TOO_BIG, ICMP6_TIME_EXCEEDED in He. lia. }
  destruct (report6_parts type code fill front hlim src dst sport dport tail)
    as (Hlen & Hty & Hco & Hp & Hdst & Hs & Hd); [done..|]. fold m in Hlen, Hty, Hco, Hp, Hdst, Hs, Hd.
  unfold readable_v6. cbv zeta. rewrite (take_ge m) by done.
  rewrite (proj2 (Z.ltb_ge _ 8)) by lia. unfold mbind, M_bind, lift, gets. rewrite Hty, Hco, He. cbn [negb].
  rewrite (proj2 (Z.ltb_ge _ (8 + 8))) by lia. unfold got_bytes at 1. rewrite (proj2 (Nat.leb_le _ _)) by lia.
  rewrite Hp. cbn [negb Z.eqb PROTO_UDP Pos.eqb]. rewrite Hs, Hd.
  destruct (concerned AF_INET6 sport s) as [|c cs] eqn:Ec; [done|]. by rewrite Hdst.
Qed.

(** ** The table of clients *)

(** The entries in use are among those the loops visit, have descriptors of their
    own, and are watched. *)
Record icmpd_inv (s : icmpd) : Prop := {
  ii_len : length (clients s) = FD_SETSIZE;
  ii_maxi : -1 <= maxi s < Z.of_nat FD_SETSIZE;
  ii_used : forall i c, clients s !! i = Some c -> 0 <= connfd c ->
    Z.of_nat i <= maxi s /\ connfd c ∈ allset s /\ connfd c <= maxfd s;
  ii_own : forall i j c d, clients s !! i = Some c -> clients s !! j = Some d ->
    0 <= connfd c -> connfd c = connfd d -> i = j;
}.

Lemma icmpd_init_inv listenfd fd4 fd6 : icmpd_inv (icmpd_init listenfd fd4 fd6).
Proof.
  assert (forall i c, clients (icmpd_init listenfd fd4 fd6) !! i = Some c -> ~ 0 <= connfd c) as Hr.
  { intros i c [-> _]%lookup_replicate. cbn. lia. }
  split; [apply length_replicate|cbn; lia| |].
  - intros i c Hi Hc. by destruct (Hr i c Hi).
  - intros i j c d Hi _ Hc. by destruct (Hr i c Hi).
Qed.

Lemma readable_listen_inv fd nready s :
  icmpd_inv s -> 0 <= fd < Z.of_nat FD_SETSIZE -> (forall i c, clients s !! i = Some c -> connfd c <> fd) ->
  wp (readable_listen fd nready) (fun r s' => icmpd_inv s' /\ r.1 = nready - 1) s.
Proof.
  intros Hinv Hfd Hnew. unfold readable_listen. wp_step. wp_step.
  destruct (first_free (connfd <$> clients s)) as [i|] eqn:Ef; [|by wp_step].
  destruct Hinv as [Hl Hm Hu Ho].
  apply first_free_Some in Ef as (c0 & Hi & Hneg & _). rewrite list_lookup_fmap in Hi.
  destruct (clients s !! i) as [c|] eqn:Ei; [|done]. injection Hi as <-.
  assert (i < FD_SETSIZE)%nat as Hlt by (rewrite <- Hl; by eapply lookup_lt_Some).
  wp_step. eapply wp_lift.
  { unfold FD_SET. rewrite (proj2 (Z.leb_le 0 fd)), (proj2 (Z.ltb_lt fd _)) by lia. reflexivity. }
  wp_step. wp_step. split; [|done]. split; cbn [clients maxi maxfd allset].
  - by rewrite length_alter.
  - destruct (Z.ltb_spec (maxi s) (Z.of_nat i)); lia.
  - intros j d Hj Hd. destruct (decide (i = j)) as [<-|Hne].
    + rewrite list_lookup_alter_eq, Ei in Hj. injection Hj as <-. cbn in *. split_and!; [|set_solver|].
      * destruct (Z.ltb_spec (maxi s) (Z.of_nat i)); lia.
      * destruct (Z.ltb_spec (maxfd s) fd); lia.
    + rewrite list_lookup_alter_ne in Hj by done. destruct (Hu j d Hj Hd) as (H1 & H2 & H3). split_and!; [|set_solver|].
      * destruct (Z.ltb_spec (maxi s) (Z.of_nat i)); lia.
      * destruct (Z.ltb_spec (maxfd s) fd); lia.
  - intros j j' d d' Hj Hj' Hd E. rewrite list_lookup_alter in Hj, Hj'.
    destruct (decide (i = j)) as [<-|], (decide (i = j')) as [<-|]; try done.
    + rewrite Ei in Hj. injection Hj as <-. cbn in E. by destruct (Hnew j' d' Hj').
    + rewrite Ei in Hj'. injection Hj' as <-. cbn in E. by destruct (Hnew j d Hj).
    + by eapply Ho.
Qed.

Definition registered (i : nat) (fd fam port : Z) (s : icmpd) : Prop :=
  clients s !! i = Some (Client fd fam port) /\ 0 <= fd.

(** What the client behind a descriptor is told. *)
Definition about (fd : Z) (acts : list deed) : list icmpd_err :=
  omap (fun d => match d with Informed f e => if f =? fd then Some e else None | _ => None end) acts.

Lemma about_app fd a b : about fd (a ++ b) = about fd a ++ about fd b.
Proof. apply omap_app. Qed.

Lemma about_none fd e cs : (forall c, c ∈ cs -> connfd c <> fd) -> about fd (inform e cs) = [].
Proof.
  unfold about, inform. induction cs as [|c cs IH]; intros H; [done|]. cbn.
  rewrite (proj2 (Z.eqb_neq _ _)) by (apply H; left). apply IH. intros d Hd. apply H. by right.
Qed.

(** A client is told of what concerns its port, once, and of nothing else. *)
Lemma about_inform e i fd fam port fam' p s :
  icmpd_inv s -> registered i fd fam port s ->
  about fd (inform e (concerned fam' p s)) = if (fam =? fam') && (port =? p) then [e] else [].
Proof.
  intros [Hl Hm Hu Ho] [Hi Hfd]. unfold concerned. destruct (Hu i _ Hi Hfd) as (Hmax & _). cbn [connfd] in *.
  set (l := take (Z.to_nat (maxi s + 1)) (clients s)).
  assert (l !! i = Some (Client fd fam port)) as Hli by (unfold l; rewrite lookup_take_lt; [done|lia]).
  assert (forall j c, l !! j = Some c -> connfd c = fd -> j = i) as Hown.
  { intros j c Hj E. apply lookup_take_Some in Hj as [Hj _]. symmetry. apply (Ho i j _ _ Hi Hj); cbn; (done || lia). }
  clearbody l. rewrite <- (take_drop_middle l i _ Hli), filter_app.
  assert (forall c, c ∈ take i l \/ c ∈ drop (S i) l -> connfd c <> fd) as Hother.
  { intros c [(j & Hj)%list_elem_of_lookup|(j & Hj)%list_elem_of_lookup] E.
    - apply lookup_take_Some in Hj as [Hj Hlt]. pose proof (Hown j c Hj E). lia.
    - rewrite lookup_drop in Hj. pose proof (Hown _ c Hj E). lia. }
  replace (inform e (_ ++ _)) with (inform e (filter (fun c => 0 <= connfd c /\ family c = fam' /\ lport c = p) (take i l)) ++
    inform e (filter (fun c => 0 <= connfd c /\ family c = fam' /\ lport c = p) (Client fd fam port :: drop (S i) l)))
    by (unfold inform; by rewrite fmap_app).
  rewrite about_app, about_none by (intros c [_ Hc]%list_elem_of_filter; apply Hother; by left).
  assert (about fd (inform e (filter (fun c => 0 <= connfd c /\ family c = fam' /\ lport c = p)
    (drop (S i) l))) = []) as Hd by (apply about_none; intros c [_ Hc]%list_elem_of_filter; apply Hother; by right).
  cbn [app]. rewrite filter_cons. cbn [connfd family lport].
  destruct (decide _) as [(_ & -> & ->)|Hn].
  - rewrite !Z.eqb_refl. cbn [andb]. unfold about, inform in *. cbn. by rewrite Z.eqb_refl, Hd.
  - rewrite Hd. destruct (Z.eqb_spec fam fam'), (Z.eqb_spec port p); try done. by destruct Hn.
Qed.

Lemma readable_listen_keeps i fd fam port new nready s :
  registered i fd fam port s -> 0 <= new < Z.of_nat FD_SETSIZE ->
  wp (readable_listen new nready) (fun r s' => registered i fd fam port s' /\ about fd r.2 = []) s.
Proof.
  intros Hr Hnew. unfold readable_listen. wp_step. wp_step.
  destruct (first_free (connfd <$> clients s)) as [j|] eqn:Ef; [|by wp_step].
  apply first_free_Some in Ef as (c0 & Hj & Hneg & _). destruct Hr as [Hi Hfd].
  wp_step. eapply wp_lift.
  { unfold FD_SET. rewrite (proj2 (Z.leb_le 0 new)), (proj2 (Z.ltb_lt new _)) by lia. reflexivity. }
  wp_step. wp_step. split; [|done]. split; [|done]. cbn [clients]. rewrite list_lookup_alter_ne; [done|].
  intros ->. rewrite list_lookup_fmap, Hi in Hj. injection Hj as <-. cbn in Hneg. lia.
Qed.

Lemma register_inv j fam port s : icmpd_inv s -> icmpd_inv (register j fam port s).
Proof.
  intros [Hl Hm Hu Ho].
  assert (forall i c, clients (register j fam port s) !! i = Some c ->
            exists d, clients s !! i = Some d /\ connfd d = connfd c) as Hc.
  { intros i c. cbn [register set_clients clients]. rewrite list_lookup_alter. destruct (decide (j = i)) as [->|]; [|naive_solver].
    destruct (clients s !! i) as [d|]; [|done]. intros [= <-]. by exists d. }
  split; unfold register, set_clients; cbn [clients maxi maxfd allset].
  - by rewrite length_alter.
  - done.
  - intros i c (d & Hd & <-)%Hc. by apply Hu.
  - intros i i' c c' (d & Hd & <-)%Hc (d' & Hd' & <-)%Hc. by apply Ho.
Qed.

Lemma forget_inv j c s : icmpd_inv s -> clients s !! j = Some c -> 0 <= connfd c -> icmpd_inv (forget j (connfd c) s).
Proof.
  intros [Hl Hm Hu Ho] Hj Hpos.
  assert (forall i d, clients (forget j (connfd c) s) !! i = Some d -> 0 <= connfd d ->
            clients s !! i = Some d /\ i <> j) as Hc.
  { intros i d. cbn [forget clients]. rewrite list_lookup_alter. destruct (decide (j = i)) as [<-|]; [|naive_solver].
    rewrite Hj. intros [= <-]. cbn. lia. }
  split; unfold forget; cbn [clients maxi maxfd allset].
  - by rewrite length_alter.
  - done.
  - intros i d Hi Hd. destruct (Hc i d Hi Hd) as [Hi' Hne]. destruct (Hu i d Hi' Hd) as (H1 & H2 & H3).
    split_and!; [done| |done]. apply elem_of_difference. split; [done|]. rewrite elem_of_singleton. intros E.
    apply Hne. by apply (Ho i j d c).
  - intros i i' d d' Hi Hi' Hd E. apply (Ho i i' d d'); [by apply Hc|apply Hc; [done|lia]|done..].
Qed.

(** Serving another client's connection. *)
Lemma readable_conn_keeps kk j c nready i fd fam port s :
  icmpd_inv s -> registered i fd fam port s -> clients s !! j = Some c -> 0 <= connfd c -> j <> i ->
  wp (readable_conn kk j nready)
     (fun r s' => icmpd_inv s' /\ registered i fd fam port s' /\ r.1 = nready - 1 /\ about fd r.2 = []) s.
Proof.
  intros Hinv Hr Hj Hpos Hne.
  assert (forall rf said s0, icmpd_inv s0 -> registered i fd fam port s0 ->
            (exists c0, clients s0 !! j = Some c0 /\ connfd c0 = connfd c) -> about fd said = [] ->
            wp (client_done j (connfd c) rf nready said)
               (fun r s' => icmpd_inv s' /\ registered i fd fam port s' /\ r.1 = nready - 1 /\ about fd r.2 = []) s0)
    as Hdone.
  { intros rf said s0 H0 [Hi Hf] (c0 & Hc0 & E) Hs. unfold client_done. wp_step. wp_step. wp_step.
    rewrite <- E in *. split_and!; [by apply forget_inv| |done|].
    - split; [|done]. cbn [forget clients]. by rewrite list_lookup_alter_ne.
    - cbn [snd]. rewrite about_app, Hs. by destruct (rf <? 0). }
  unfold readable_conn. wp_step. wp_step. wp_step. eapply wp_follow; [done|]. cbv zeta.
  destruct (rf_n kk =? 0); [by apply Hdone; eauto|]. destruct (rf_fd kk <? 0); [by apply Hdone; eauto|].
  destruct (rf_name kk) as [ss|]; [|by apply Hdone; eauto]. wp_step. wp_step.
  set (port' := if sock_get_port ss =? 0 then rf_bound kk else sock_get_port ss).
  assert (registered i fd fam port (register j (sa_family ss) port' s)) as Hr'.
  { destruct Hr as [Hi Hf]. split; [|done]. cbn [register set_clients clients]. by rewrite list_lookup_alter_ne. }
  assert (exists c0, clients (register j (sa_family ss) port' s) !! j = Some c0 /\ connfd c0 = connfd c) as Hc0.
  { cbn [register set_clients clients]. rewrite list_lookup_alter_eq, Hj. by eexists. }
  destruct (_ && _).
  - apply Hdone; [by apply register_inv|done..].
  - wp_step. split_and!; [by apply register_inv|done..].
Qed.

(** The descriptors ready that have not been served. *)
Definition left_over (k : turn_in) (served : gset Z) (st : option Z * list deed) : Prop :=
  match st.1 with Some n => n = Z.of_nat (size (rset k ∖ served)) | None => rset k ⊆ served end.

Lemma wp_if_ready k served fd f st (R : list deed -> icmpd -> Prop) s :
  left_over k served st -> fd ∉ served ->
  (forall n, fd ∈ rset k -> wp (f n) (fun r s' => r.1 = n - 1 /\ R r.2 s') s) ->
  (fd ∉ rset k -> R [] s) ->
  wp (if_ready k fd f st)
     (fun st' s' => left_over k (served ∪ {[ fd ]}) st' /\ exists new, st'.2 = st.2 ++ new /\ R new s') s.
Proof.
  intros Hleft Hnew Hf Hno. destruct st as [[n|] acts]; unfold left_over in Hleft; cbn [fst snd] in *; unfold if_ready.
  - case_bool_decide as Hin.
    + wp_step. eapply wp_mono; [by apply Hf|]. intros [n' new] s' [Hn HR]. wp_step. cbn [fst snd] in *.
      split; [|by exists new].
      assert (size (rset k ∖ served) = S (size (rset k ∖ (served ∪ {[ fd ]})))) as Hs.
      { replace (rset k ∖ served) with ({[ fd ]} ∪ rset k ∖ (served ∪ {[ fd ]})).
        - rewrite size_union, size_singleton by set_solver. lia.
        - apply leibniz_equiv. intros x. rewrite elem_of_union, elem_of_singleton, !elem_of_difference, elem_of_union,
            elem_of_singleton. destruct (decide (x = fd)) as [->|]; [|tauto]. tauto. }
      unfold left_over. destruct (Z.leb_spec n' 0); cbn [fst]; [|lia].
      assert (size (rset k ∖ (served ∪ {[ fd ]})) = 0%nat) as E by lia. apply size_empty_inv in E.
      intros x Hx. destruct (decide (x ∈ served ∪ {[ fd ]})) as [|Hx']; [done|]. exfalso.
      apply (not_elem_of_empty (C := gset Z) x). rewrite <- E. by apply elem_of_difference.
    + wp_step. split; [|exists []; by rewrite app_nil_r; auto]. unfold left_over. cbn [fst].
      rewrite Hleft. do 2 f_equal. clear -Hin. set_solver.
  - wp_step. split; [unfold left_over; cbn [fst]; clear -Hleft; set_solver|]. exists []. rewrite app_nil_r. split; [done|].
    apply Hno. clear -Hleft Hnew. set_solver.
Qed.

Lemma conn_loop_keeps k is_ st i fd fam port s :
  icmpd_inv s -> registered i fd fam port s -> fd ∉ rset k -> Forall (fun j => (j < FD_SETSIZE)%nat) is_ ->
  wp (conn_loop k is_ st)
     (fun st' s' => icmpd_inv s' /\ registered i fd fam port s' /\ about fd st'.2 = about fd st.2) s.
Proof.
  revert st s. induction is_ as [|j is_ IH]; intros st s Hinv Hr Hfd Hall; cbn [conn_loop]; [by wp_step|].
  apply Forall_cons_1 in Hall as [Hj Hall].
  destruct (lookup_lt_is_Some_2 (clients s) j) as [c Hc]; [by rewrite (ii_len _ Hinv)|].
  wp_step. wp_step. wp_step. eapply wp_follow; [done|]. wp_step.
  assert (wp (if connfd c <? 0 then mret st else if_ready k (connfd c) (readable_conn (conns k j) j) st)
             (fun st' s' => icmpd_inv s' /\ registered i fd fam port s' /\ about fd st'.2 = about fd st.2) s) as Hone.
  { destruct (Z.ltb_spec (connfd c) 0); [by wp_step|]. destruct st as [[n|] acts]; cbn [if_ready]; [|by wp_step].
    case_bool_decide as Hin; [|by wp_step]. wp_step.
    assert (j <> i). { intros ->. destruct Hr as [Hi _]. rewrite Hi in Hc. injection Hc as <-. by cbn in Hin. }
    eapply wp_mono; [by eapply readable_conn_keeps|]. intros [n' new] s' (H1 & H2 & _ & H3). wp_step.
    split_and!; [done..|]. cbn [snd] in *. by rewrite about_app, H3, app_nil_r. }
  eapply wp_mono; [exact Hone|]. intros st' s' (H1 & H2 & H3).
  eapply wp_mono; [by apply IH|]. intros st2 s2 (H4 & H5 & H6). by rewrite H6, H3.
Qed.

(** What a message of the kernel comes to: an ICMP error about a UDP datagram, with
    its source port and the error to tell; an ICMP message that is no error, or an
    error about a datagram of another protocol; a message too short for the daemon. *)
Inductive report := Concerns (port : Z) (e : icmpd_err) | Unconcerned | TooShort.

(** A raw IPv4 socket gives whole IP headers. Not among these messages are errors
    whose inner header claims options that have not been received. *)
Inductive says4 : buf -> report -> Prop :=
  | says4_report hl1 front1 mid1 dst1 opts1 type code fill hl2 front2 mid2 dst opts2 sport dport tail :
      ip_header_ok hl1 front1 mid1 dst1 opts1 -> ip_header_ok hl2 front2 mid2 dst opts2 ->
      is_error4 type = true -> 0 <= code < 256 -> length fill = 6%nat ->
      0 <= sport < 65536 -> 0 <= dport < 65536 -> (4 <= length tail)%nat ->
      let m := report4 hl1 front1 mid1 dst1 opts1 type code fill hl2 front2 mid2 dst opts2 sport dport tail in
      (length m <= MAXMSG)%nat ->
      says4 m (Concerns sport (IcmpdErr (errno4 type code) (as_char type) (as_char code) (SIn dport dst)))
  | says4_protocol hl1 front1 mid1 dst1 opts1 type code fill vhl front2 proto rest :
      ip_header_ok hl1 front1 mid1 dst1 opts1 -> is_error4 type = true ->
      length fill = 6%nat -> length front2 = 8%nat -> Z_of_byte proto <> PROTO_UDP -> (18 <= length rest)%nat ->
      let m := ip_header hl1 front1 1 mid1 dst1 opts1 ++ byte_of_Z type :: code :: fill ++
               vhl :: front2 ++ proto :: rest in
      (length m <= MAXMSG)%nat -> says4 m Unconcerned
  | says4_other hl1 front1 mid1 dst1 opts1 type code rest :
      ip_header_ok hl1 front1 mid1 dst1 opts1 -> is_error4 type = false -> 0 <= type < 256 ->
      (6 <= length rest)%nat -> let m := ip_header hl1 front1 1 mid1 dst1 opts1 ++ byte_of_Z type :: code :: rest in
      (length m <= MAXMSG)%nat -> says4 m Unconcerned
  | says4_short hl1 front1 mid1 dst1 opts1 rest :
      ip_header_ok hl1 front1 mid1 dst1 opts1 -> (length rest < 8)%nat ->
      says4 (ip_header hl1 front1 1 mid1 dst1 opts1 ++ rest) TooShort
  | says4_cut hl1 front1 mid1 dst1 opts1 type code rest :
      ip_header_ok hl1 front1 mid1 dst1 opts1 -> is_error4 type = true -> (6 <= length rest < 34)%nat ->
      says4 (ip_header hl1 front1 1 mid1 dst1 opts1 ++ byte_of_Z type :: code :: rest) TooShort.

(** Not among these are errors cut off behind the first eight bytes of the datagram
    but before its ports. *)
Inductive says6 : buf -> report -> Prop :=
  | says6_report type code fill front hlim src dst sport dport tail :
      is_error6 type = true -> 0 <= code < 256 -> length fill = 6%nat -> length front = 6%nat ->
      length src = 16%nat -> length dst = 16%nat -> 0 <= sport < 65536 -> 0 <= dport < 65536 ->
      let m := report6 type code fill front hlim src dst sport dport tail in
      (length m <= MAXMSG)%nat ->
      says6 m (Concerns sport (IcmpdErr (errno6 type code) (as_char type) (as_char code) (SIn6 dport dst)))
  | says6_protocol type code fill front proto rest :
      is_error6 type = true -> length fill = 6%nat -> length front = 6%nat -> Z_of_byte proto <> PROTO_UDP ->
      (33 <= length rest)%nat ->
      let m := byte_of_Z type :: code :: fill ++ front ++ proto :: rest in
      (length m <= MAXMSG)%nat -> says6 m Unconcerned
  | says6_other type code rest :
      is_error6 type = false -> 0 <= type < 256 -> (6 <= length rest)%nat ->
      let m := byte_of_Z type :: code :: rest in
      (length m <= MAXMSG)%nat -> says6 m Unconcerned
  | says6_short m : (length m < 8)%nat -> says6 m TooShort
  | says6_cut type code rest :
      is_error6 type = true -> (6 <= length rest < 14)%nat -> says6 (byte_of_Z type :: code :: rest) TooShort.

(** Who is told what. *)
Definition told (fam : Z) (r : report) (s : icmpd) : list deed :=
  match r with Concerns p e => inform e (concerned fam p s) | _ => [] end.

(** What the reading of a message comes to. *)
Definition served (fam : Z) (r : report) (nready : Z) (s : icmpd) : outcome icmpd (Z * list deed) :=
  match r with TooShort => Aborted ErrExit | _ => Ok (nready - 1, told fam r s) s end.

Lemma is_error4_byte type : is_error4 type = true -> 0 <= type < 256.
Proof. unfold is_error4, ICMP_UNREACH, ICMP_TIMXCEED, ICMP_SOURCEQUENCH. lia. Qed.

Lemma is_error6_byte type : is_error6 type = true -> 0 <= type < 256.
Proof. unfold is_error6, ICMP6_DST_UNREACH, ICMP6_PACKET_TOO_BIG, ICMP6_TIME_EXCEEDED. lia. Qed.

(** What stands behind the IP header of a message. *)
Lemma behind_header hl front mid dst opts type code rest :
  ip_header_ok hl front mid dst opts -> 0 <= type < 256 ->
  let m := ip_header hl front 1 mid dst opts ++ byte_of_Z type :: code :: rest in
  length m = (Z.to_nat (4 * hl) + 2 + length rest)%nat /\
  got_at m (Z.to_nat (4 * hl)) = Def type /\ got_at m (S (Z.to_nat (4 * hl))) = Def (Z_of_byte code) /\
  forall k, got_at m (Z.to_nat (4 * hl) + 2 + k) = got_at rest k.
Proof.
  intros H Ht m. pose proof (ip_header_length _ _ 1 _ _ _ H) as Hl. unfold m. rewrite <- Hl. split_and!.
  - rewrite length_app. cbn [length]. lia.
  - by rewrite got_at_app, Z_of_byte_of_Z, Z.mod_small.
  - rewrite <- (Nat.add_1_r (length _)), got_at_skip. done.
  - intros k. rewrite <- Nat.add_assoc, got_at_skip. done.
Qed.

Lemma readable_v4_says m r n s : says4 m r -> readable_v4 m n s = served AF_INET r n s.
Proof.
  destruct 1 as [|hl1 front1 mid1 dst1 opts1 type code fill vhl front2 proto rest H1 He Hfi Hfr Hp Hr m Hm
    |hl1 front1 mid1 dst1 opts1 type code rest H1 He Ht Hr m Hm
    |hl1 front1 mid1 dst1 opts1 rest H1 Hr|hl1 front1 mid1 dst1 opts1 type code rest H1 He Hr];
    [by apply readable_v4_informs|..]; pose proof (ih_hl _ _ _ _ _ H1) as Hl1.
  - pose proof (is_error4_byte _ He) as Ht.
    destruct (behind_header hl1 front1 mid1 dst1 opts1 type code (fill ++ vhl :: front2 ++ proto :: rest) H1 Ht)
      as (Hlen & Hty & Hco & Hk). fold m in Hlen, Hty, Hco, Hk.
    assert (got_at m (Z.to_nat (4 * hl1) + 8) = Def (Z_of_byte vhl)) as Hv.
    { replace (Z.to_nat (4 * hl1) + 8)%nat with (Z.to_nat (4 * hl1) + 2 + length fill)%nat by lia.
      by rewrite Hk, got_at_app. }
    assert (got_at m (Z.to_nat (4 * hl1) + 8 + 9) = Def (Z_of_byte proto)) as Hpr.
    { replace (Z.to_nat (4 * hl1) + 8 + 9)%nat with (Z.to_nat (4 * hl1) + 2 + (length fill + length (vhl :: front2)))%nat
        by (cbn [length]; lia).
      by rewrite Hk, got_at_skip, app_comm_cons, got_at_app. }
    rewrite length_app in Hlen. cbn [length] in Hlen. rewrite length_app in Hlen. cbn [length] in Hlen.
    unfold readable_v4. cbv zeta. rewrite (take_ge m) by done.
    unfold mbind, M_bind, lift, gets. change (got_at m 0) with (Def (Z_of_byte (byte_of_Z (64 + hl1)))).
    cbv beta iota. rewrite (header_length hl1) by done. rewrite (proj2 (Z.ltb_ge _ 8)) by lia.
    rewrite Hty, Hco, He. cbn [negb]. rewrite (proj2 (Z.ltb_ge _ (8 + 20 + 8))) by lia.
    by rewrite Hv, Hpr, (proj2 (Z.eqb_neq _ _) Hp).
  - destruct (behind_header hl1 front1 mid1 dst1 opts1 type code rest H1 Ht) as (Hlen & Hty & Hco & _).
    fold m in Hlen, Hty, Hco.
    unfold readable_v4. cbv zeta. rewrite (take_ge m) by done.
    unfold mbind, M_bind, lift, gets. change (got_at m 0) with (Def (Z_of_byte (byte_of_Z (64 + hl1)))).
    cbv beta iota. rewrite (header_length hl1) by done. rewrite (proj2 (Z.ltb_ge _ 8)) by lia. by rewrite Hty, Hco, He.
  - set (m := ip_header hl1 front1 1 mid1 dst1 opts1 ++ rest).
    assert (length m = Z.to_nat (4 * hl1) + length rest)%nat as Hlen
      by (unfold m; by rewrite length_app, (ip_header_length _ _ _ _ _ _ H1)).
    unfold readable_v4. cbv zeta. rewrite (take_ge m) by (apply Nat.lt_le_incl, Nat.ltb_lt; unfold MAXMSG; 
      apply Nat.ltb_lt; rewrite Hlen; lia).
    unfold mbind, M_bind, lift, gets. change (got_at m 0) with (Def (Z_of_byte (byte_of_Z (64 + hl1)))).
    cbv beta iota. rewrite (header_length hl1) by done. by rewrite (proj2 (Z.ltb_lt _ 8)) by lia.
  - pose proof (is_error4_byte _ He) as Ht.
    destruct (behind_header hl1 front1 mid1 dst1 opts1 type code rest H1 Ht) as (Hlen & Hty & Hco & _).
    set (m := ip_header hl1 front1 1 mid1 dst1 opts1 ++ byte_of_Z type :: code :: rest) in *.
    unfold readable_v4. cbv zeta. rewrite (take_ge m) by (unfold MAXMSG; rewrite Hlen; lia).
    unfold mbind, M_bind, lift, gets. change (got_at m 0) with (Def (Z_of_byte (byte_of_Z (64 + hl1)))).
    cbv beta iota. rewrite (header_length hl1) by done. rewrite (proj2 (Z.ltb_ge _ 8)) by lia.
    rewrite Hty, Hco, He. cbn [negb]. by rewrite (proj2 (Z.ltb_lt _ (8 + 20 + 8))) by lia.
Qed.

Lemma readable_v6_says m r n s : says6 m r -> readable_v6 m n s = served AF_INET6 r n s.
Proof.
  assert (forall type code rest, 0 <= type < 256 ->
            got_at (byte_of_Z type :: code :: rest) 0 = Def type) as Hty
    by (intros; unfold got_at; cbn; by rewrite Z_of_byte_of_Z, Z.mod_small).
  destruct 1 as [|type code fill front proto rest He Hfi Hfr Hp Hr m Hm|type code rest He Ht Hr m Hm|m Hm
    |type code rest He Hr]; [by apply readable_v6_informs|..]; unfold readable_v6; cbv zeta.
  - pose proof (is_error6_byte _ He) as Ht.
    assert (length m = 15 + length rest)%nat as Hlen
      by (unfold m; cbn [length]; rewrite length_app, length_app; cbn [length]; lia).
    assert (got_at m (8 + 6) = Def (Z_of_byte proto)) as Hpr.
    { unfold m. replace (byte_of_Z type :: code :: fill ++ front ++ proto :: rest)
        with ((byte_of_Z type :: code :: fill ++ front) ++ proto :: rest) by (cbn [app]; by rewrite <- app_assoc).
      replace (8 + 6)%nat with (length (byte_of_Z type :: code :: fill ++ front))
        by (cbn [length]; rewrite length_app; lia). apply got_at_app. }
    rewrite (take_ge m) by done. rewrite (proj2 (Z.ltb_ge _ 8)) by lia.
    unfold mbind, M_bind, lift, gets. unfold m at 1. rewrite Hty by done.
    change (got_at m 1) with (Def (Z_of_byte code)). rewrite He. cbn [negb].
    rewrite (proj2 (Z.ltb_ge _ (8 + 8))) by lia. unfold got_bytes. rewrite (proj2 (Nat.leb_le _ _)) by lia.
    by rewrite Hpr, (proj2 (Z.eqb_neq _ _) Hp).
  - rewrite (take_ge m) by done.
    rewrite (proj2 (Z.ltb_ge _ 8)) by (unfold m; cbn [length]; lia).
    unfold mbind, M_bind, lift, gets. unfold m at 1. rewrite Hty by done.
    change (got_at m 1) with (Def (Z_of_byte code)). by rewrite He.
  - rewrite (take_ge m) by (unfold MAXMSG; lia). by rewrite (proj2 (Z.ltb_lt _ 8)) by lia.
  - pose proof (is_error6_byte _ He) as Ht. rewrite take_ge by (unfold MAXMSG; cbn [length]; lia).
    rewrite (proj2 (Z.ltb_ge _ 8)) by (cbn [length]; lia).
    unfold mbind, M_bind, lift. rewrite Hty by done.
    change (got_at (byte_of_Z type :: code :: rest) 1) with (Def (Z_of_byte code)). rewrite He. cbn [negb].
    by rewrite (proj2 (Z.ltb_lt _ (8 + 8))) by (cbn [length]; lia).
Qed.

(** What the kernel gives in a turn. *)
Record turn_gives (listenfd fd4 fd6 : Z) (k : turn_in) (s : icmpd) (r4 r6 : report) : Prop := {
  tg_new : listenfd ∈ rset k -> 0 <= new_fd k < Z.of_nat FD_SETSIZE /\
                                forall i c, clients s !! i = Some c -> connfd c <> new_fd k;
  tg_4 : if decide (fd4 ∈ rset k) then says4 (msg4 k) r4 else r4 = Unconcerned;
  tg_6 : if decide (fd6 ∈ rset k) then says6 (msg6 k) r6 else r6 = Unconcerned;
}.

(** The errors a socket of a family and a port is to hear of. *)
Definition heard (fam port : Z) (fam' : Z) (r : report) : list icmpd_err :=
  match r with Concerns p e => if (fam =? fam') && (port =? p) then [e] else [] | _ => [] end.

Lemma about_told i fd fam port fam' r s :
  icmpd_inv s -> registered i fd fam port s -> about fd (told fam' r s) = heard fam port fam' r.
Proof. intros. destruct r as [p e| |]; [by eapply about_inform|done..]. Qed.

(** What holds of a client throughout a turn, with what it has been told so far. *)
Definition kept (i : nat) (fd fam port : Z) (es : list icmpd_err) (acts : list deed) (s : icmpd) : Prop :=
  icmpd_inv s /\ registered i fd fam port s /\ about fd acts = es.

Lemma if_ready_listen listenfd fd4 fd6 k s r4 r6 i fd fam port :
  turn_gives listenfd fd4 fd6 k s r4 r6 -> icmpd_inv s -> registered i fd fam port s ->
  wp (if_ready k listenfd (readable_listen (new_fd k)) (Some (Z.of_nat (size (rset k))), []))
     (fun st s' => left_over k {[ listenfd ]} st /\ kept i fd fam port [] st.2 s') s.
Proof.
  intros Hg Hinv Hr. eapply wp_mono.
  - apply (wp_if_ready k ∅ listenfd _ _ (kept i fd fam port [])); [|set_solver| |done].
    + unfold left_over. cbn [fst]. do 2 f_equal. clear. set_solver.
    + intros n Hin. destruct (tg_new _ _ _ _ _ _ _ Hg Hin) as [Hn Hf]. eapply wp_mono; [apply wp_conj;
        [by apply (readable_listen_inv (new_fd k) n s Hinv Hn Hf)|by eapply readable_listen_keeps]|].
      intros r s' [[H1 H2] [H3 H4]]. split; [done|]. by split_and!.
  - intros st s' [Hl (new & Hnew & HR)]. rewrite (left_id_L ∅ (∪)) in Hl. cbn [app snd] in Hnew. by rewrite Hnew.
Qed.

(** The part of a turn for one of the raw sockets. *)
Lemma if_ready_report k seen rawfd read fam' r i fd fam port es st s :
  (rawfd ∈ rset k -> forall n s', read n s' = served fam' r n s') -> (rawfd ∉ rset k -> r = Unconcerned) ->
  left_over k seen st -> rawfd ∉ seen -> kept i fd fam port es st.2 s ->
  wpe (if_ready k rawfd read st)
      (fun st' s' => r <> TooShort /\ left_over k (seen ∪ {[ rawfd ]}) st' /\
                     kept i fd fam port (es ++ heard fam port fam' r) st'.2 s')
      (fun w => w = ErrExit /\ r = TooShort) s.
Proof.
  intros Hread Hnone Hl Hnew (Hinv & Hr & Hes).
  assert (r = TooShort \/ r <> TooShort) as [->|Hgood] by (destruct r; auto).
  - destruct (decide (rawfd ∈ rset k)) as [Hin|Hout]; [|by specialize (Hnone Hout)].
    destruct st as [[n|] acts]; unfold left_over in Hl; cbn [fst] in Hl; [|by destruct (Hnew (Hl _ Hin))].
    unfold if_ready. rewrite bool_decide_true by done. apply wpe_bind. unfold wpe. by rewrite Hread.
  - apply wpe_wp. eapply wp_mono.
    + apply (wp_if_ready k seen rawfd read st (kept i fd fam port (heard fam port fam' r)) s Hl Hnew).
      * intros n Hin. unfold wp. rewrite Hread by done.
        assert (served fam' r n s = Ok (n - 1, told fam' r s) s) as -> by by destruct r.
        split; [done|]. split_and!; [done..|]. by eapply about_told.
      * intros Hin. rewrite (Hnone Hin). by split_and!.
    + intros st' s' [Hl' (new & -> & (H1 & H2 & H3))]. split; [done|]. split; [done|].
      split_and!; [done..|]. by rewrite about_app, Hes, H3.
Qed.

(** C32: A client that has registered its socket, in a turn in which its own connection
    is not ready, whatever is ready besides: the turn completes, or a message on a
    raw socket is too short and the daemon exits. When it completes, the table is
    consistent, the registration is kept, and the client has been told exactly of
    the ICMP errors of the turn about UDP datagrams of its family from its port,
    each once, with the error number and the destination. *)
Theorem icmpd_turn_informs listenfd fd4 fd6 k s r4 r6 i fd fam port :
  listenfd <> fd4 -> listenfd <> fd6 -> fd4 <> fd6 ->
  turn_gives listenfd fd4 fd6 k s r4 r6 ->
  icmpd_inv s -> registered i fd fam port s -> fd ∉ rset k ->
  wpe (icmpd_turn listenfd fd4 fd6 k)
      (fun acts s' => r4 <> TooShort /\ r6 <> TooShort /\ icmpd_inv s' /\ registered i fd fam port s' /\
                      about fd acts = heard fam port AF_INET r4 ++ heard fam port AF_INET6 r6)
      (fun w => w = ErrExit /\ (r4 = TooShort \/ r6 = TooShort)) s.
Proof.
  intros H1 H2 H3 Hg Hinv Hr Hfd. pose proof (tg_4 _ _ _ _ _ _ _ Hg) as H4. pose proof (tg_6 _ _ _ _ _ _ _ Hg) as H6.
  unfold icmpd_turn. apply wpe_bind, wpe_wp. eapply wp_mono; [by eapply if_ready_listen|]. intros st1 s1 [Hl1 Hk1].
  apply wpe_bind. eapply wpe_mono.
  { apply (if_ready_report k {[ listenfd ]} fd4 _ AF_INET r4 i fd fam port [] st1 s1); [| |done|set_solver|done].
    - intros Hin n s'. apply readable_v4_says. by rewrite decide_True in H4.
    - intros Hin. by rewrite decide_False in H4. }
  2: { intros w [-> ->]. by split; [|left]. }
  intros st2 s2 (Hs4 & Hl2 & Hk2). apply wpe_bind. eapply wpe_mono.
  { apply (if_ready_report k ({[ listenfd ]} ∪ {[ fd4 ]}) fd6 _ AF_INET6 r6 i fd fam port (heard fam port AF_INET r4) st2 s2);
      [| |done|set_solver|done].
    - intros Hin n s'. apply readable_v6_says. by rewrite decide_True in H6.
    - intros Hin. by rewrite decide_False in H6. }
  2: { intros w [-> ->]. by split; [|right]. }
  intros st3 s3 (Hs6 & _ & Hi3 & Hr3 & Ha3). apply wpe_wp. wp_step. wp_step. wp_step. eapply wp_mono.
  { apply (conn_loop_keeps k _ st3 i fd fam port s3); [done..|].
    apply Forall_forall. intros j Hj%elem_of_seq. pose proof (ii_maxi _ Hi3). lia. }
  intros st4 s4 (Hi4 & Hr4 & Ha4). wp_step. by rewrite Ha4.
Qed.

(** Passing a bound socket registers it. *)
Lemma readable_conn_registers kk i c nready ss s :
  clients s !! i = Some c -> 0 <= connfd c -> rf_n kk <> 0 -> 0 <= rf_fd kk -> rf_name kk = Some ss ->
  sock_get_port ss <> 0 ->
  wp (readable_conn kk i nready)
     (fun r s' => registered i (connfd c) (sa_family ss) (sock_get_port ss) s' /\
                  r = (nready - 1, [Told (connfd c) "1"%char; Shut (rf_fd kk)])) s.
Proof.
  intros Hi Hc Hn Hfd Hss Hp. unfold readable_conn. wp_step. wp_step. wp_step. eapply wp_follow; [done|]. cbv zeta.
  rewrite (proj2 (Z.eqb_neq _ _) Hn), (proj2 (Z.ltb_ge _ _) Hfd), Hss, (proj2 (Z.eqb_neq _ _) Hp).
  wp_step. wp_step. cbn [andb]. wp_step. split; [|done]. split; [|done].
  unfold register, set_clients. cbn [clients]. by rewrite list_lookup_alter_eq, Hi.
Qed.

(** * Examples *)

(** A port unreachable message about a datagram to port 7 of host 1.2.3.4, sent
    from port 5 (network order: 1280). *)
Definition demo_report : buf :=
  report4 5 (replicate 8 NUL) (replicate 6 NUL) (replicate 4 NUL) [] ICMP_UNREACH ICMP_UNREACH_PORT (replicate 6 NUL)
          5 (replicate 8 NUL) (replicate 6 NUL) (byte_of_Z <$> [1; 2; 3; 4]) [] 1280 1792 (replicate 4 NUL).

Definition demo_err : icmpd_err :=
  IcmpdErr ECONNREFUSED ICMP_UNREACH ICMP_UNREACH_PORT (SIn 1792 (byte_of_Z <$> [1; 2; 3; 4])).

(** A daemon with one client on descriptor 6. *)
Definition demo_icmpd : icmpd :=
  Icmpd (Client 6 AF_INET 1280 :: replicate 1023 (Client (-1) 0 0)) 0 6 {[ 3; 4; 5; 6 ]}.

Lemma demo_icmpd_inv : icmpd_inv demo_icmpd.
Proof.
  assert (forall i c, clients demo_icmpd !! i = Some c -> 0 <= connfd c -> i = 0%nat /\ c = Client 6 AF_INET 1280) as H.
  { intros [|i] c; cbn [demo_icmpd clients lookup list_lookup]; [intros [= <-]; done|].
    intros Hc%lookup_replicate. destruct Hc as [-> _]. cbn. lia. }
  split.
  - cbn [demo_icmpd clients length]. by rewrite length_replicate.
  - unfold FD_SETSIZE. cbn [demo_icmpd maxi]. lia.
  - intros i c Hi Hc. destruct (H i c Hi Hc) as [-> ->]. cbn. split_and!; [lia|set_solver|lia].
  - intros i j c d Hi Hj Hc E. destruct (H i c Hi Hc) as [-> _]. by destruct (H j d Hj) as [-> _]; [lia|].
Qed.

(** A port unreachable message about a TCP segment, which concerns nobody. *)
Definition demo_tcp : buf :=
  byte_of_Z ICMP6_DST_UNREACH :: byte_of_Z ICMP6_DST_UNREACH_NOPORT :: replicate 6 NUL ++ replicate 6 NUL ++
  byte_of_Z 6 :: replicate 40 NUL.

Definition demo_turn : turn_in := TurnIn {[ 3; 4; 5 ]} 7 demo_report demo_tcp (fun _ => ConnIn 0 (-1) None 0).

Lemma icmpd_turn_informs_witness :
  wpe (icmpd_turn 5 3 4 demo_turn)
      (fun acts s' => Concerns 1280 demo_err <> TooShort /\ Unconcerned <> TooShort /\
                      icmpd_inv s' /\ registered 0 6 AF_INET 1280 s' /\ about 6 acts = [demo_err])
      (fun w => w = ErrExit /\ (Concerns 1280 demo_err = TooShort \/ Unconcerned = TooShort)) demo_icmpd.
Proof.
  apply (icmpd_turn_informs 5 3 4 demo_turn demo_icmpd (Concerns 1280 demo_err) Unconcerned 0 6 AF_INET 1280).
  - lia.
  - lia.
  - lia.
  - split; cbn [demo_turn new_fd rset msg4 msg6].
    + intros _. split; [unfold FD_SETSIZE; lia|]. intros [|i] c; cbn [demo_icmpd clients lookup list_lookup]; [by intros [= <-]|].
      intros Hc%lookup_replicate. by destruct Hc as [-> _].
    + rewrite decide_True by set_solver. unfold demo_report, demo_err.
      change ECONNREFUSED with (errno4 ICMP_UNREACH ICMP_UNREACH_PORT).
      apply says4_report; try (split; cbn; lia); try (cbn; lia); try done. by vm_compute; lia.
    + rewrite decide_True by set_solver. unfold demo_tcp. apply says6_protocol; try done; try (cbn; lia).
      by vm_compute; lia.
  - apply demo_icmpd_inv.
  - done.
  - cbn. set_solver.
Defined.

(** An entry keeps family and port of the client that had it before: a new client
    on descriptor 9, which has passed no socket, is told of the errors of the port
    of the client that has left. *)
Example stale_registration :
  match (client_done 0 6 (-1) 2 [];; readable_listen 9 1;; readable_v4 demo_report 1) demo_icmpd with
  | Ok r _ => r.2
  | _ => []
  end = [Informed 9 demo_err].
Proof. vm_compute. reflexivity. Qed.

(** An ICMPv6 error that is cut off after the first eight bytes of the datagram
    passes the check of the length, and the daemon goes on with bytes that have not
    been received. *)
Example short_icmp6_unchecked s :
  readable_v6 (byte_of_Z ICMP6_DST_UNREACH :: replicate 15 NUL) 1 s = Undef Uninitialised.
Proof. reflexivity. Qed.

(** An ICMPv4 error whose inner header claims options: the check is for a header of
    twenty bytes, and the ports are read behind what has been received. *)
Example short_icmp4_unchecked s :
  readable_v4 (take (20 + 8 + 28) (report4 5 (replicate 8 NUL) (replicate 6 NUL) (replicate 4 NUL) [] ICMP_UNREACH 3
    (replicate 6 NUL) 15 (replicate 8 NUL) (replicate 6 NUL) (replicate 4 NUL) (replicate 40 NUL) 0 0 [])) 1 s
  = Undef Uninitialised.
Proof. reflexivity. Qed.
