(* ===== verification/Conn.v ===== *)
(** * Opening endpoints by name

    Stevens/unpv13e/lib: tcp_connect.c, tcp_listen.c, udp_client.c,
    udp_connect.c, udp_server.c and host_serv.c, the clients of [getaddrinfo]:
    they walk its list until one address can be used; and connect_nonb.c, a
    connect with a time limit. *)

From S2P Require Import Prelude CLib Inet Inet6 Sockaddr Gai.

(** The calls made, with their answers. *)
Inductive call :=
  | CSocket (family socktype protocol ret : Z)
  | CReuse (fd : Z)
  | CConnect (fd : Z) (sa : option sockaddr) (ok : bool)
  | CBind (fd : Z) (sa : option sockaddr) (ok : bool)
  | CListen (fd : Z)
  | CClose (fd : Z).

(** The kernel: its answers may depend on everything that was called before. *)
Class SockKernel := {
  k_socket : list call -> Z -> Z -> Z -> Z;
  k_connect : list call -> Z -> option sockaddr -> bool;
  k_bind : list call -> Z -> option sockaddr -> bool;
  k_reuse : list call -> Z -> bool;
  k_listen : list call -> Z -> bool;
  k_close : list call -> Z -> bool }.

(** The structure after [bzero] and the assignments. *)
Definition hints_for (flags family socktype : Z) : addrinfo :=
  AI flags family socktype 0 None None.

(** [ai_addrlen], which ga_aistruct.c sets with the address. *)
Definition ai_addrlen (ai : addrinfo) : Z :=
  match ai_addr ai with
  | Some (SIn _ _) => 16
  | Some (SIn6 _ _) => 28
  | Some (SUn _) => 110
  | _ => 0
  end.

Section Endpoints.
Context {ns : NameService} {k : SockKernel}.

Definition socket (family socktype protocol : Z) : M (list call) Z := fun tr =>
  let r := k_socket tr family socktype protocol in
  Ok r (tr ++ [CSocket family socktype protocol r]).
Definition connect (fd : Z) (sa : option sockaddr) : M (list call) bool := fun tr =>
  let ok := k_connect tr fd sa in Ok ok (tr ++ [CConnect fd sa ok]).
Definition bind (fd : Z) (sa : option sockaddr) : M (list call) bool := fun tr =>
  let ok := k_bind tr fd sa in Ok ok (tr ++ [CBind fd sa ok]).

(** The wrappers exit when the call fails. *)
Definition wrapper (answer : list call -> Z -> bool) (c : Z -> call) (fd : Z) : M (list call) unit :=
  fun tr => if answer tr fd then Ok tt (tr ++ [c fd]) else Aborted ErrExit.
Definition Setsockopt_reuse : Z -> M (list call) unit := wrapper k_reuse CReuse.
Definition Listen : Z -> M (list call) unit := wrapper k_listen CListen.
Definition Close : Z -> M (list call) unit := wrapper k_close CClose.

(** The [do ... while] loop the five functions share: [use] is what is done with
    a new descriptor.  [None]: [res] has become [NULL]. *)
Fixpoint try_entries (use : Z -> addrinfo -> M (list call) bool) (res : list addrinfo)
    : M (list call) (option (Z * addrinfo)) :=
  match res with
  | [] => mret None
  | ai :: res' =>
      fd ← socket (ai_family ai) (ai_socktype ai) (ai_protocol ai);
      if fd <? 0 then try_entries use res'
      else
        ok ← use fd ai;
        if (ok : bool) then mret (Some (fd, ai))
        else Close fd ;; try_entries use res'
  end.

(** [getaddrinfo] with its check, the loop with its check. *)
Definition first_entry (host serv : option buf) (hints : addrinfo)
    (use : Z -> addrinfo -> M (list call) bool) : M (list call) (Z * addrinfo) :=
  r ← lift (getaddrinfo host serv (Some hints));
  match r with
  | GaiFound [] _ => follow None
  | GaiFound res _ =>
      x ← try_entries use res;
      match x with Some y => mret y | None => abort_with ErrExit end
  | _ => abort_with ErrExit
  end.

Definition tcp_connect (host serv : option buf) : M (list call) Z :=
  '(fd, _) ← first_entry host serv (hints_for 0 AF_UNSPEC SOCK_STREAM)
               (fun fd ai => connect fd (ai_addr ai));
  mret fd.

(** The descriptor and what is stored through [addrlenp], if it is not [NULL]. *)
Definition tcp_listen (host serv : option buf) (addrlenp : bool) : M (list call) (Z * option Z) :=
  '(fd, ai) ← first_entry host serv (hints_for AI_PASSIVE AF_UNSPEC SOCK_STREAM)
                (fun fd ai => Setsockopt_reuse fd ;; bind fd (ai_addr ai));
  Listen fd ;;
  mret (fd, if addrlenp then Some (ai_addrlen ai) else None).

(** The descriptor, the copied address and its length. *)
Definition udp_client (host serv : option buf) : M (list call) (Z * option sockaddr * Z) :=
  '(fd, ai) ← first_entry host serv (hints_for 0 AF_UNSPEC SOCK_DGRAM) (fun _ _ => mret true);
  mret (fd, ai_addr ai, ai_addrlen ai).

Definition udp_connect (host serv : option buf) : M (list call) Z :=
  '(fd, _) ← first_entry host serv (hints_for 0 AF_UNSPEC SOCK_DGRAM)
               (fun fd ai => connect fd (ai_addr ai));
  mret fd.

Definition udp_server (host serv : option buf) (addrlenp : bool) : M (list call) (Z * option Z) :=
  '(fd, ai) ← first_entry host serv (hints_for AI_PASSIVE AF_UNSPEC SOCK_DGRAM)
                (fun fd ai => bind fd (ai_addr ai));
  mret (fd, if addrlenp then Some (ai_addrlen ai) else None).

(** [NULL] is [None]; the wrapper exits instead. *)
Definition host_serv (host serv : option buf) (family socktype : Z) : chk (option (list addrinfo)) :=
  r ← getaddrinfo host serv (Some (hints_for AI_CANONNAME family socktype));
  mret (match r with GaiFound l _ => Some l | _ => None end).
Definition Host_serv (host serv : option buf) (family socktype : Z)
    : M (list call) (list addrinfo) :=
  r ← lift (host_serv host serv family socktype);
  match r with Some l => mret l | None => abort_with ErrExit end.

(** ** The specification

    What the five functions have in common and where they differ. *)
Inductive endpoint := TcpConnect | TcpListen | UdpClient | UdpConnect | UdpServer.

#[export] Instance endpoint_eq_dec : EqDecision endpoint.
Proof. solve_decision. Defined.

Definition hints_of (e : endpoint) : addrinfo :=
  match e with
  | TcpConnect => hints_for 0 AF_UNSPEC SOCK_STREAM
  | TcpListen => hints_for AI_PASSIVE AF_UNSPEC SOCK_STREAM
  | UdpClient | UdpConnect => hints_for 0 AF_UNSPEC SOCK_DGRAM
  | UdpServer => hints_for AI_PASSIVE AF_UNSPEC SOCK_DGRAM
  end.

Definition run_endpoint (e : endpoint) (host serv : option buf) : M (list call) Z :=
  match e with
  | TcpConnect => tcp_connect host serv
  | TcpListen => '(fd, _) ← tcp_listen host serv true; mret fd
  | UdpClient => '(fd, _, _) ← udp_client host serv; mret fd
  | UdpConnect => udp_connect host serv
  | UdpServer => '(fd, _) ← udp_server host serv true; mret fd
  end.

(** The calls that use a new descriptor, with the answer of the last one; a
    descriptor of [udp_client] is good as it is. *)
Definition uses (e : endpoint) (fd : Z) (ai : addrinfo) (ok : bool) : list call :=
  match e with
  | TcpConnect | UdpConnect => [CConnect fd (ai_addr ai) ok]
  | TcpListen => [CReuse fd; CBind fd (ai_addr ai) ok]
  | UdpServer => [CBind fd (ai_addr ai) ok]
  | UdpClient => []
  end.
Definition epilogue (e : endpoint) (fd : Z) : list call :=
  match e with TcpListen => [CListen fd] | _ => [] end.

Definition asks (ai : addrinfo) (fd : Z) : call :=
  CSocket (ai_family ai) (ai_socktype ai) (ai_protocol ai) fd.

(** The calls made for an entry that cannot be used: no socket, or a socket that
    is closed again. *)
Inductive refused (e : endpoint) (ai : addrinfo) : list call -> Prop :=
  | no_socket fd : fd < 0 -> refused e ai [asks ai fd]
  | no_use fd : 0 <= fd -> e <> UdpClient ->
      refused e ai (asks ai fd :: uses e fd ai false ++ [CClose fd]).

(** A sequence of calls whose answers are the kernel's. *)
Definition honest (tr : list call) (c : call) : Prop :=
  match c with
  | CSocket f t p r => r = k_socket tr f t p
  | CConnect fd sa ok => ok = k_connect tr fd sa
  | CBind fd sa ok => ok = k_bind tr fd sa
  | CReuse fd => k_reuse tr fd = true
  | CListen fd => k_listen tr fd = true
  | CClose fd => k_close tr fd = true
  end.
Inductive history : list call -> Prop :=
  | history_nil : history []
  | history_snoc tr c : history tr -> honest tr c -> history (tr ++ [c]).

(** The descriptors open after a sequence of calls. *)
Definition open_step (o : list Z) (c : call) : list Z :=
  match c with
  | CSocket _ _ _ r => if 0 <=? r then r :: o else o
  | CClose fd => filter (fun x => x <> fd) o
  | _ => o
  end.
Definition open_fds (tr : list call) : list Z := foldl open_step [] tr.

(** The three wrapped calls do not fail. *)
Definition wrappers_succeed : Prop :=
  forall tr fd, k_reuse tr fd = true /\ k_listen tr fd = true /\ k_close tr fd = true.
End Endpoints.

(** * Lemmas *)

Section EndpointLemmas.
Context {ns : NameService} {k : SockKernel}.

Lemma history_step tr c : history tr -> honest tr c -> history (tr ++ [c]).
Proof. apply history_snoc. Qed.

(** What a use of a new descriptor does: it makes the calls of the specification
    and returns the answer of the last. *)
Definition use_ok (e : endpoint) (use : Z -> addrinfo -> M (list call) bool) : Prop :=
  forall fd ai tr, history tr ->
    exists ok, use fd ai tr = Ok ok (tr ++ uses e fd ai ok) /\ history (tr ++ uses e fd ai ok) /\
               (ok = false -> e <> UdpClient).

Lemma open_fds_app tr cs : open_fds (tr ++ cs) = foldl open_step (open_fds tr) cs.
Proof. apply foldl_app. Qed.

Lemma open_uses e fd ai ok o : foldl open_step o (uses e fd ai ok) = o.
Proof. by destruct e. Qed.

Lemma refused_open e ai cs o : refused e ai cs -> o = [] -> foldl open_step o cs = [].
Proof.
  intros [fd Hfd|fd Hfd _] ->; cbn.
  - by rewrite (proj2 (Z.leb_gt 0 fd) Hfd).
  - rewrite (proj2 (Z.leb_le 0 fd) Hfd), foldl_app, open_uses.
    cbn [foldl open_step]. rewrite filter_cons_False; [done|]. by intros [].
Qed.

Lemma refused_all_open e ais bs tr :
  Forall2 (refused e) ais bs -> open_fds tr = [] -> open_fds (tr ++ concat bs) = [].
Proof.
  intros H. revert tr. induction H as [|ai b ais bs Hb _ IH]; intros tr Ho; cbn.
  - by rewrite app_nil_r.
  - rewrite app_assoc. apply IH. rewrite open_fds_app. by eapply refused_open.
Qed.

(** The calls for an entry that is good. *)
Definition accepted (e : endpoint) (ai : addrinfo) (fd : Z) : list call :=
  asks ai fd :: uses e fd ai true.

(** What a run of the loop over [ais] may do, started after the calls [tr]. *)
Definition walked (e : endpoint) (ais : list addrinfo) (tr : list call)
    (r : outcome (list call) (option (Z * addrinfo))) : Prop :=
  (exists pre ai post fd bs, ais = pre ++ ai :: post /\ Forall2 (refused e) pre bs /\ 0 <= fd /\
     r = Ok (Some (fd, ai)) (tr ++ concat bs ++ accepted e ai fd) /\
     history (tr ++ concat bs ++ accepted e ai fd)) \/
  (exists bs, Forall2 (refused e) ais bs /\ r = Ok None (tr ++ concat bs) /\
     history (tr ++ concat bs)).

Lemma walked_cons e ai ais tr b r :
  refused e ai b -> walked e ais (tr ++ b) r -> walked e (ai :: ais) tr r.
Proof.
  intros Hb [(pre & ai' & post & fd' & bs & -> & Hp & Hfd & -> & Hh)|(bs & Hp & -> & Hh)];
    rewrite <- app_assoc in Hh |- *.
  - left. exists (ai :: pre), ai', post, fd', (b :: bs). cbn [concat]. rewrite <- app_assoc.
    split_and!; try done. by constructor.
  - right. exists (b :: bs). split_and!; try done. by constructor.
Qed.

Lemma try_entries_spec e use ais tr :
  wrappers_succeed -> use_ok e use -> history tr -> walked e ais tr (try_entries use ais tr).
Proof.
  intros Hw Hu. revert tr. induction ais as [|ai ais IH]; intros tr Htr.
  { right. exists []. cbn. rewrite app_nil_r. by split_and!. }
  cbn [try_entries]. unfold socket, mbind, M_bind.
  set (fd := k_socket tr (ai_family ai) (ai_socktype ai) (ai_protocol ai)). fold (asks ai fd).
  assert (history (tr ++ [asks ai fd])) as H1 by by apply history_step.
  destruct (Z.ltb_spec fd 0) as [Hneg|Hpos].
  { apply (walked_cons e ai ais tr [asks ai fd]); [by constructor | by apply IH]. }
  destruct (Hu fd ai _ H1) as ([|] & -> & H2 & Hne).
  { left. exists [], ai, ais, fd, []. cbn [concat app]. rewrite <- app_assoc in H2 |- *. by split_and!. }
  unfold Close, wrapper. destruct (Hw ((tr ++ [asks ai fd]) ++ uses e fd ai false) fd) as (_ & _ & Hc).
  rewrite Hc. pose proof (history_step _ (CClose fd) H2 Hc) as H3.
  replace (((tr ++ [asks ai fd]) ++ uses e fd ai false) ++ [CClose fd])
    with (tr ++ (asks ai fd :: uses e fd ai false ++ [CClose fd])) in * by (by rewrite <- !app_assoc).
  apply (walked_cons e ai ais tr (asks ai fd :: uses e fd ai false ++ [CClose fd]));
    [constructor; [done|by apply Hne] | by apply IH].
Qed.

Lemma use_connect_ok e : e = TcpConnect \/ e = UdpConnect ->
  use_ok e (fun fd ai => connect fd (ai_addr ai)).
Proof.
  intros He fd ai tr Htr. exists (k_connect tr fd (ai_addr ai)).
  assert (uses e fd ai (k_connect tr fd (ai_addr ai)) = [CConnect fd (ai_addr ai) (k_connect tr fd (ai_addr ai))])
    as -> by by destruct He as [-> | ->].
  split_and!; [done | by apply history_step | by destruct He as [-> | ->]].
Qed.

Lemma use_bind_ok : use_ok UdpServer (fun fd ai => bind fd (ai_addr ai)).
Proof.
  intros fd ai tr Htr. exists (k_bind tr fd (ai_addr ai)).
  split_and!; [done | by apply history_step | done].
Qed.

Lemma use_reuse_bind_ok : wrappers_succeed ->
  use_ok TcpListen (fun fd ai => Setsockopt_reuse fd ;; bind fd (ai_addr ai)).
Proof.
  intros Hw fd ai tr Htr. destruct (Hw tr fd) as (Hr & _ & _).
  exists (k_bind (tr ++ [CReuse fd]) fd (ai_addr ai)).
  unfold Setsockopt_reuse, wrapper, mbind, M_bind, bind, uses. rewrite Hr, <- app_assoc.
  split_and!; [done | | done].
  change ([CReuse fd] ++ ?l) with (CReuse fd :: l). rewrite cons_middle, app_assoc.
  apply history_step; [|done]. by apply history_step.
Qed.

Lemma use_nothing_ok : use_ok UdpClient (fun _ _ => mret true).
Proof. intros fd ai tr Htr. exists true. cbn. rewrite app_nil_r. by split_and!. Qed.

(** What the five functions do after the loop. *)
Definition use_of (e : endpoint) : Z -> addrinfo -> M (list call) bool :=
  match e with
  | TcpConnect | UdpConnect => fun fd ai => connect fd (ai_addr ai)
  | TcpListen => fun fd ai => Setsockopt_reuse fd ;; bind fd (ai_addr ai)
  | UdpServer => fun fd ai => bind fd (ai_addr ai)
  | UdpClient => fun _ _ => mret true
  end.

Lemma use_of_ok e : wrappers_succeed -> use_ok e (use_of e).
Proof.
  intros Hw. destruct e; [by apply use_connect_ok; left | by apply use_reuse_bind_ok
    | apply use_nothing_ok | by apply use_connect_ok; right | apply use_bind_ok].
Qed.

Lemma run_endpoint_eq e host serv tr :
  run_endpoint e host serv tr =
  match first_entry host serv (hints_of e) (use_of e) tr with
  | Ok (fd, _) tr' => match e with TcpListen => (Listen fd ;; mret fd) tr' | _ => Ok fd tr' end
  | Aborted w => Aborted w
  | Undef u => Undef u
  end.
Proof.
  destruct e; cbn; unfold tcp_connect, tcp_listen, udp_client, udp_connect, udp_server, mbind, M_bind;
    destruct (first_entry _ _ _ _ tr) as [[fd ai] tr'| |]; try done.
  by destruct (Listen fd tr').
Qed.

Lemma first_entry_found host serv hints use l u tr :
  getaddrinfo host serv (Some hints) = Def (GaiFound l u) -> l <> [] ->
  first_entry host serv hints use tr =
  match try_entries use l tr with
  | Ok (Some y) tr' => Ok y tr'
  | Ok None _ => Aborted ErrExit
  | Aborted w => Aborted w
  | Undef e => Undef e
  end.
Proof.
  intros Hg Hl. unfold first_entry. erewrite bind_Ok; [|unfold lift; by rewrite Hg]. cbv beta iota.
  destruct l as [|ai l]; [done|]. unfold mbind, M_bind.
  by destruct (try_entries use (ai :: l) tr) as [[y|] tr'| |].
Qed.
End EndpointLemmas.

(** ** Properties *)

(** C39: each of [tcp_connect], [tcp_listen], [udp_client], [udp_connect] and
    [udp_server] returns a descriptor for the first address of [getaddrinfo]'s
    list that the kernel accepts, of the right socket type, after trying all
    addresses before it in order; exactly that descriptor is left open.  It
    exits only when every address was tried and refused. *)
Theorem endpoint_first_usable {ns : NameService} {k : SockKernel} e host serv l u :
  wrappers_succeed -> getaddrinfo host serv (Some (hints_of e)) = Def (GaiFound l u) ->
  (exists pre ai post bs fd tr, l = pre ++ ai :: post /\ Forall2 (refused e) pre bs /\
     tr = concat bs ++ asks ai fd :: uses e fd ai true ++ epilogue e fd /\
     run_endpoint e host serv [] = Ok fd tr /\ history tr /\
     ai_socktype ai = ai_socktype (hints_of e) /\ open_fds tr = [fd]) \/
  (exists bs, Forall2 (refused e) l bs /\ history (concat bs) /\
     run_endpoint e host serv [] = Aborted ErrExit).
Proof.
  intros Hw Hg. rewrite run_endpoint_eq. destruct (getaddrinfo_entries _ _ _ _ _ Hg) as [Hne Hl].
  erewrite first_entry_found by eassumption.
  destruct (try_entries_spec e (use_of e) l [] Hw (use_of_ok e Hw) history_nil)
    as [(pre & ai & post & fd & bs & Hs & Hp & Hfd & -> & Hh)|(bs & Hp & -> & Hh)].
  - left. cbn [app] in *.
    assert (ai_socktype ai = ai_socktype (hints_of e)) as Ht.
    { rewrite Hs in Hl. apply Forall_app in Hl as [_ [[_ Ht] _]%Forall_cons]. by destruct e; apply Ht. }
    assert (open_fds (concat bs ++ accepted e ai fd) = [fd]) as Ho.
    { rewrite open_fds_app. change (concat bs) with ([] ++ concat bs).
      rewrite (refused_all_open e pre bs []) by done. cbn.
      by rewrite (proj2 (Z.leb_le 0 fd) Hfd), open_uses. }
    exists pre, ai, post, bs, fd.
    destruct (decide (e = TcpListen)) as [->|He].
    + eexists. split; [exact Hs|]. split; [exact Hp|]. split; [reflexivity|].
      unfold Listen, wrapper, mbind, M_bind. destruct (Hw (concat bs ++ accepted TcpListen ai fd) fd) as (_ & Hli & _).
      rewrite Hli. unfold accepted in *.
      replace (concat bs ++ asks ai fd :: uses TcpListen fd ai true ++ epilogue TcpListen fd)
        with ((concat bs ++ asks ai fd :: uses TcpListen fd ai true) ++ [CListen fd]) by (by rewrite <- app_assoc).
      split; [done|]. split; [by apply history_step|]. split; [done|]. by rewrite open_fds_app, Ho.
    + exists (concat bs ++ accepted e ai fd).
      assert (epilogue e fd = []) as -> by by destruct e. rewrite app_nil_r.
      split_and!; try done. by destruct e.
  - right. exists bs. by split_and!.
Qed.

(** The first address refuses the connection, the second accepts it. *)
Definition demo_sock : SockKernel := {|
  k_socket := fun tr _ _ _ => 3 + Z.of_nat (length tr);
  k_connect := fun tr fd _ => 3 <? fd;
  k_bind := fun _ _ _ => true;
  k_reuse := fun _ _ => true;
  k_listen := fun _ _ => true;
  k_close := fun _ _ => true |}.

Example demo_dial :
  @tcp_connect demo_ns demo_sock (Some (chars "vm1")) (Some (chars "daytime")) []
  = Ok 6 [CSocket 2 1 0 3; CConnect 3 (Some (SIn 3328 (chars "abcd"))) false; CClose 3;
          CSocket 2 1 0 6; CConnect 6 (Some (SIn 3328 (chars "efgh"))) true].
Proof. vm_compute. reflexivity. Qed.

Lemma endpoint_first_usable_witness :
  let l := [AI 0 AF_INET SOCK_STREAM 0 (Some (SIn 3328 (chars "abcd"))) None;
            AI 0 AF_INET SOCK_STREAM 0 (Some (SIn 3328 (chars "efgh"))) None] in
  let run := @run_endpoint demo_ns demo_sock TcpConnect (Some (chars "vm1")) (Some (chars "daytime")) [] in
  (exists pre ai post bs fd tr, l = pre ++ ai :: post /\ Forall2 (refused TcpConnect) pre bs /\
     tr = concat bs ++ asks ai fd :: uses TcpConnect fd ai true ++ epilogue TcpConnect fd /\
     run = Ok fd tr /\ @history demo_sock tr /\
     ai_socktype ai = ai_socktype (hints_of TcpConnect) /\ open_fds tr = [fd]) \/
  (exists bs, Forall2 (refused TcpConnect) l bs /\ @history demo_sock (concat bs) /\
     run = Aborted ErrExit).
Proof.
  intros l run. apply (@endpoint_first_usable demo_ns demo_sock TcpConnect _ _ l []).
  - intros tr fd. split_and!; reflexivity.
  - vm_compute. reflexivity.
Defined.

(** ** A connect with a time limit *)

Definition O_NONBLOCK : Z := 2048.
Definition EINPROGRESS : Z := 115.
Definition ETIMEDOUT : Z := 110.

(** The descriptor: its status flags, whether it is open, and [errno]. *)
Record desc := Desc { d_flags : Z; d_open : bool; d_errno : Z }.

(** The kernel's answers: 0 or the error of [connect]; whether [Select] returns
    before the time limit and with the descriptor in one of the sets; the error
    of [getsockopt] or the pending error it reports. *)
Record dial_env := DialEnv {
  on_connect : Z;
  on_select : Z -> option bool;
  on_sockopt : Z + Z }.

Definition finish_connect (flags error : Z) (d : desc) : Z * desc :=
  if error =? 0 then (0, Desc flags (d_open d) (d_errno d))
  else (-1, Desc flags false error).

(** [None]: the process ends in [err_quit]. *)
Definition connect_nonb (env : dial_env) (nsec : Z) (d : desc) : option (Z * desc) :=
  let flags := d_flags d in
  let d1 := Desc (Z.lor flags O_NONBLOCK) (d_open d) (d_errno d) in
  if on_connect env =? 0 then Some (finish_connect flags 0 d1)
  else if negb (on_connect env =? EINPROGRESS) then
    Some (-1, Desc (d_flags d1) (d_open d1) (on_connect env))
  else
    match on_select env nsec with
    | None => Some (-1, Desc (d_flags d1) false ETIMEDOUT)
    | Some false => None
    | Some true =>
        match on_sockopt env with
        | inl e => Some (-1, Desc (d_flags d1) (d_open d1) e)
        | inr error => Some (finish_connect flags error d1)
        end
    end.

(** The connection, as the kernel sees it: established at once, or under way
    and ended with pending error 0 within the limit. *)
Definition established (env : dial_env) (nsec : Z) : Prop :=
  on_connect env = 0 \/
  (on_connect env = EINPROGRESS /\ on_select env nsec = Some true /\ on_sockopt env = inr 0).

(** [connect_nonb] succeeds exactly when the connection is established, and
    then leaves the descriptor as it was; after a failure the descriptor is
    either closed, or still open and left in nonblocking mode. *)
Lemma connect_nonb_outcome env nsec d r d' :
  d_open d = true -> connect_nonb env nsec d = Some (r, d') ->
  (r = 0 /\ established env nsec /\ d' = d) \/
  (r = -1 /\ ~ established env nsec /\
   (d_open d' = false \/ d_open d' = true /\ d_flags d' = Z.lor (d_flags d) O_NONBLOCK)).
Proof.
  intros Ho. unfold connect_nonb, established, finish_connect. destruct d as [fl op en]. cbn in *.
  destruct (Z.eqb_spec (on_connect env) 0) as [E0|E0]; cbn.
  { intros [= <- <-]. left. auto. }
  destruct (Z.eqb_spec (on_connect env) EINPROGRESS) as [E1|E1]; cbn [negb].
  2: { intros [= <- <-]. right. split; [done|]. split; [by intros [?|[? _]]|]. by right. }
  destruct (on_select env nsec) as [[|]|]; [|done|].
  2: { intros [= <- <-]. right. split; [done|]. split; [|by left]. intros [?|(_ & ? & _)]; done. }
  destruct (on_sockopt env) as [e|e].
  { intros [= <- <-]. right. split; [done|]. split; [|by right]. intros [?|(_ & _ & ?)]; done. }
  destruct (Z.eqb_spec e 0) as [->|He]; intros [= <- <-]; [left; split_and!; [done | by right | done]|].
  right. split; [done|]. split; [|by left]. intros [?|(_ & _ & ?)]; congruence.
Qed.
