(* ===== verification/UdpCksum.v ===== *)
(** * Are UDP checksums on?

    Stevens/unpv13e/udpcksum: main.c, udpcksum.c, udpread.c, pcap.c and
    senddnsquery-raw.c, on top of the packets of Cksum.v.  The program sends a DNS
    query in a datagram of its own making, up to three times, and looks at the
    checksum field of the answer, which it gets from the packet capture library.

    Not part of the repository, and arguments here: libpcap (the type of the link,
    and the packets), the kernel's choice of a local address, and when the alarm
    goes off.  Sockets are opened without failing; what is printed beside the
    answer is left out. *)

From S2P Require Import Prelude CLib Inet6 Sockaddr Gai Conn Cksum.

(** ** The query *)

(** [htons(z)] stored in memory. *)
Definition net16 (z : Z) : buf := htons_bytes z.

(** [send_dns_query]: the bytes written behind the headers. *)
Definition dns_name : buf :=
  [byte_of_Z 1] ++ chars "a" ++ [byte_of_Z 12] ++ chars "root-servers" ++ [byte_of_Z 3] ++ chars "net" ++ [NUL].
Definition dns_query : buf :=
  net16 1234 ++ net16 256 ++ net16 1 ++ net16 0 ++ net16 0 ++ net16 0 ++ dns_name ++ net16 1 ++ net16 1.

(** ** Reading *)

Definition DLT_NULL : Z := 0.
Definition DLT_EN10MB : Z := 1.
Definition DLT_SLIP : Z := 8.
Definition DLT_PPP : Z := 9.
Definition ETHERTYPE_IP : Z := 2048.

(** The length of the header of the link. *)
Definition link_header (datalink : Z) : option nat :=
  if datalink =? DLT_NULL then Some 4%nat
  else if datalink =? DLT_EN10MB then Some 14%nat
  else if datalink =? DLT_SLIP then Some 24%nat
  else if datalink =? DLT_PPP then Some 24%nat
  else None.

(** [udp_read] for the packet [ptr] of which [len] bytes were captured; [None]: it
    quits. *)
Definition udp_read (datalink : Z) (ptr : buf) (len : Z) : chk (option buf) :=
  match link_header datalink with
  | None => mret None
  | Some n =>
      is_ip ← (if datalink =? DLT_EN10MB then
                 x ← byte_at ptr 12; y ← byte_at ptr 13; mret (256 * x + y =? ETHERTYPE_IP)
               else mret true);
      if is_ip : bool then udp_check (drop n ptr) (len - Z.of_nat n) else mret None
  end.

(** ** The exchange *)

(** What happens while the program waits: [pcap_next] times out, the alarm goes
    off, or a packet is there; [late]: the alarm goes off when [udp_read] has
    returned it and [canjump] has not been cleared yet. *)
Inductive happening := Nothing | Alarm | Packet (ptr : buf) (len : Z) (late : bool).

(** The variables of [test_udp], with the datagrams sent and the arguments of
    [alarm]. *)
Record exchange := Exchange { nsent : Z; timeout : Z; sent : list buf; alarms : list Z }.

Inductive verdict := Quit | NoResponse (x : exchange) | Answer (on : bool) (x : exchange) | Waiting (x : exchange).

Section Test.
Variables (zerosum : bool) (local dest : Cksum.endpoint) (datalink : Z).

(** [send_dns_query], [nsent++] and [alarm]. *)
Definition send_query (x : exchange) : chk exchange :=
  d ← udp_write zerosum local dest dns_query;
  mret (Exchange (nsent x + 1) (timeout x) (sent x ++ [d]) (alarms x ++ [timeout x])).

(** [siglongjmp] and what follows [sigsetjmp]; [None]: "no response". *)
Definition alarm_jump (x : exchange) : chk (option exchange) :=
  if 3 <=? nsent x then mret None
  else x' ← send_query (Exchange (nsent x) (timeout x * 2) (sent x) (alarms x)); mret (Some x').

(** [ui->ui_sum == 0]. *)
Definition checksums_on (ui : buf) : chk bool :=
  s ← u16_at ui 26; mret (negb (s =? 0)).

Fixpoint wait (hs : list happening) (x : exchange) : chk verdict :=
  match hs with
  | [] => mret (Waiting x)
  | h :: hs' =>
      let jump := x' ← alarm_jump x; match x' with None => mret (NoResponse x) | Some x' => wait hs' x' end in
      match h with
      | Nothing => wait hs' x
      | Alarm => jump
      | Packet ptr len late =>
          r ← udp_read datalink ptr len;
          match r with
          | None => mret Quit
          | Some ui => if late then jump else on ← checksums_on ui; mret (Answer on x)
          end
      end
  end.

Definition test_udp (hs : list happening) : chk verdict :=
  x ← send_query (Exchange 0 3 [] []); wait hs x.
End Test.

(** ** [main] *)

(** What [getopt] returns for an option. *)
Inductive option_arg := Opt0 | OptI (device : buf) | OptL (arg : buf) | OptV | OptUnknown.

Record settings := Settings { zerosum : bool; device : option buf; local_arg : option (buf * buf); verbose : bool }.

(** [strrchr(s, '.')]: what is in front of the last dot and behind it. *)
Fixpoint at_last_dot (s : buf) : option (buf * buf) :=
  match s with
  | [] => None
  | c :: s' =>
      match at_last_dot s' with
      | Some (a, b) => Some (c :: a, b)
      | None => if Ascii.eqb c "."%char then Some ([], s') else None
      end
  end.

(** One option; [None]: [usage].  [localname] has 1024 bytes. *)
Definition one_option (o : option_arg) (s : settings) : chk (option settings) :=
  match o with
  | Opt0 => mret (Some (Settings true (device s) (local_arg s) (verbose s)))
  | OptI d => mret (Some (Settings (zerosum s) (Some d) (local_arg s) (verbose s)))
  | OptL arg =>
      match at_last_dot arg with
      | None => mret None
      | Some (a, p) =>
          w ← strn 1024 (a ++ [NUL]); name ← need_str w;
          mret (Some (Settings (zerosum s) (device s) (Some (name, p)) (verbose s)))
      end
  | OptV => mret (Some (Settings (zerosum s) (device s) (local_arg s) true))
  | OptUnknown => mret None
  end.

Fixpoint options (os : list option_arg) (s : settings) : chk (option settings) :=
  match os with
  | [] => mret (Some s)
  | o :: os' => r ← one_option o s; match r with None => mret None | Some s' => options os' s' end
  end.

(** The filter [open_pcap] compiles. *)
Definition filter_cmd (dest : sockaddr) : chk (option buf) :=
  r ← sock_ntop_host (replicate 128 NUL) dest 16;
  match r with
  | None => mret None
  | Some h =>
      host ← need_str h;
      mret (Some (snprintf 4096 (chars "udp and src host " ++ host ++ chars " and src port " ++
                                 print_int (ntohs (sock_get_port dest)))))
  end.

(** The address and port [udp_write] takes from a [struct sockaddr_in]. *)
Definition as_endpoint (sa : option sockaddr) : chk Cksum.endpoint :=
  match sa with Some (SIn port addr) => mret (Endpoint (le16 port) addr) | _ => Bad BadPointer end.

Section Main.
Context {ns : NameService}.
(** The local address the kernel chooses for a destination; [None]: no route. *)
Variable chosen : sockaddr -> option sockaddr.
(** libpcap, for a device and a filter: the type of the link, or [None] if one of
    its functions fails. *)
Variable pcap : option buf -> buf -> option Z.

(** [Host_serv] for IPv4 datagrams: the first address; [None]: it exits. *)
Definition udp_address (host serv : buf) : chk (option sockaddr) :=
  r ← host_serv (Some host) (Some serv) AF_INET SOCK_DGRAM;
  match r with
  | None => mret None
  | Some [] => Bad BadPointer
  | Some (ai :: _) => match ai_addr ai with Some sa => mret (Some sa) | None => Bad BadPointer end
  end.

Definition local_address (dest : sockaddr) (s : settings) : chk (option sockaddr) :=
  match local_arg s with
  | Some (name, port) => udp_address name port
  | None =>
      match chosen dest with
      | Some (SIn port addr) => mret (if bool_decide (addr = replicate 4 NUL) then None else Some (SIn port addr))
      | _ => mret None
      end
  end.

Definition udpcksum_main (os : list option_arg) (args : list buf) (hs : list happening) : chk verdict :=
  r ← options os (Settings false None None false);
  match r, args with
  | Some s, [host; serv] =>
      d ← udp_address host serv;
      match d with
      | None => mret Quit
      | Some dsa =>
          l ← local_address dsa s;
          match l with
          | None => mret Quit
          | Some lsa =>
              cmd ← filter_cmd dsa;
              match cmd ≫= pcap (device s) with
              | None => mret Quit
              | Some datalink =>
                  dest ← as_endpoint (Some dsa); local ← as_endpoint (Some lsa);
                  test_udp (zerosum s) local dest datalink hs
              end
          end
      end
  | _, _ => mret Quit
  end.
End Main.

(** * Lemmas *)

Lemma store_length b k s b' : store b k s = Def b' -> length b' = length b.
Proof.
  unfold store. destruct (Nat.leb_spec (k + length s) (length b)); [|done]. intros [= <-].
  rewrite !length_app, length_take, length_drop. lia.
Qed.

Lemma byte_at_Def b k : (k < length b)%nat -> exists v, byte_at b k = Def v.
Proof.
  intros Hk. unfold byte_at. destruct (nth_error b k) eqn:E; [by eexists|]. apply nth_error_None in E. lia.
Qed.

Lemma u16_at_Def b k : (S k < length b)%nat -> exists v, u16_at b k = Def v.
Proof.
  intros Hk. unfold u16_at. destruct (byte_at_Def b k) as [x ->]; [lia|]. destruct (byte_at_Def b (S k)) as [y ->]; [lia|].
  by eexists.
Qed.

(** On a packet that is there in full, [udp_check] is defined, and what it accepts
    has room for both headers. *)
Lemma udp_check_total ptr :
  Z.of_nat (length ptr) < 2147483648 ->
  exists r, udp_check ptr (Z.of_nat (length ptr)) = Def r /\
    forall ui, r = Some ui -> length ui = length ptr /\ (28 <= length ptr)%nat.
Proof.
  intros Hmax. unfold udp_check. rewrite Z.mod_small by lia. cbv zeta.
  destruct (Z.ltb_spec (Z.of_nat (length ptr)) 28) as [|Hl]; [by eexists|].
  destruct ptr as [|v p] eqn:Ep; [cbn in Hl; lia|]. rewrite <- Ep in *.
  destruct (negb _); [by eexists|]. set (hlen := (Z_of_byte v mod 16) * 4).
  assert (0 <= hlen <= 60) by (pose proof (Z.mod_pos_bound (Z_of_byte v) 16); lia).
  destruct (hlen <? 20); [by eexists|]. destruct (Z.ltb_spec (Z.of_nat (length ptr)) (hlen + 8)); [by eexists|].
  unfold in_cksum. rewrite (proj2 (Z.ltb_ge (Z.of_nat (length ptr)) hlen)) by lia.
  unfold mret, chk_ret. cbn [mbind chk_bind]. set (c := Z.lnot _ mod _).
  destruct (store ptr 10 (le16 c)) as [ptr'|] eqn:Es.
  2:{ exfalso. unfold store in Es. destruct (Nat.leb_spec (10 + length (le16 c)) (length ptr)); [done|]. cbn in *. lia. }
  cbn [mbind chk_bind]. apply store_length in Es as El. destruct (negb _); [by eexists|].
  destruct (nth_error ptr' 9) eqn:En; [|apply nth_error_None in En; lia].
  eexists. split; [done|]. intros ui. destruct (_ =? _); [|done]. intros [= <-]. split; [done|lia].
Qed.

(** What a packet capture gives: all bytes it says it has, and the header of the
    link. *)
Definition captured (datalink : Z) (h : happening) : Prop :=
  match h with
  | Packet ptr len _ => len = Z.of_nat (length ptr) /\ len < 2147483648 /\
      forall n, link_header datalink = Some n -> (n <= length ptr)%nat
  | _ => True
  end.

Lemma udp_read_total datalink ptr len late :
  captured datalink (Packet ptr len late) ->
  exists r, udp_read datalink ptr len = Def r /\
    forall ui, r = Some ui -> exists on, checksums_on ui = Def on.
Proof.
  intros (-> & Hmax & Hn). unfold udp_read. destruct (link_header datalink) as [n|] eqn:El; [|by eexists].
  specialize (Hn n eq_refl).
  assert (exists b, (if datalink =? DLT_EN10MB then
             x ← byte_at ptr 12; y ← byte_at ptr 13; mret (256 * x + y =? ETHERTYPE_IP) else mret true) = Def b) as [b ->].
  { destruct (Z.eqb_spec datalink DLT_EN10MB) as [->|]; [|by eexists]. cbn in El. simplify_eq.
    destruct (byte_at_Def ptr 12) as [x ->]; [lia|]. destruct (byte_at_Def ptr 13) as [y ->]; [lia|]. by eexists. }
  rewrite chk_bind_Def. destruct b; [|by eexists].
  replace (Z.of_nat (length ptr) - Z.of_nat n) with (Z.of_nat (length (drop n ptr))) by (rewrite length_drop; lia).
  destruct (udp_check_total (drop n ptr)) as (r & -> & Hr); [rewrite length_drop; lia|]. exists r. split; [done|].
  intros ui E. destruct (Hr ui E) as [Hl H28]. unfold checksums_on.
  destruct (u16_at_Def ui 26) as [v ->]; [lia|]. by eexists.
Qed.

(** Query number [k] has been sent, every time the datagram [d]. *)
Definition at_query (d : buf) (k : nat) (x : exchange) : Prop :=
  (1 <= k <= 3)%nat /\ x = Exchange (Z.of_nat k) (3 * 2 ^ (Z.of_nat k - 1)) (replicate k d) (take k [3; 6; 12]).

Definition goes_off (h : happening) : bool := match h with Alarm | Packet _ _ true => true | _ => false end.
Definition jumps (hs : list happening) : nat := length (filter (fun h => goes_off h = true) hs).

Lemma jumps_cons h hs : jumps (h :: hs) = (Nat.b2n (goes_off h) + jumps hs)%nat.
Proof. unfold jumps. rewrite filter_cons. destruct (goes_off h) eqn:E; repeat case_decide; done. Qed.

Section Facts.
Variables (zerosum : bool) (local dest : Cksum.endpoint) (datalink : Z) (d : buf).
Hypothesis d_sent : udp_write zerosum local dest dns_query = Def d.

Lemma alarm_jump_query k x :
  at_query d k x ->
  exists r, alarm_jump zerosum local dest x = Def r /\
    match r with None => k = 3%nat | Some x' => at_query d (S k) x' end.
Proof using d_sent.
  intros [Hk ->]. unfold alarm_jump, send_query. cbn [nsent timeout sent alarms]. rewrite d_sent.
  unfold mret, chk_ret. cbn [mbind chk_bind].
  destruct k as [|[|[|[|k]]]]; try lia; cbn [Z.leb Z.of_nat Pos.of_succ_nat Pos.succ Z.compare Pos.compare Pos.compare_cont];
    (eexists; split; [done|]); done || (split; [lia|done]).
Qed.

(** What a run from query [k] on can end with. *)
Definition wait_post (hs : list happening) (k : nat) (r : chk verdict) : Prop :=
  match r with
  | Bad _ => False
  | Def Quit => True
  | Def (NoResponse x) => at_query d 3 x /\ (4 - k <= jumps hs)%nat
  | Def (Answer on x) => (exists k', at_query d k' x) /\
      exists ptr len ui, Packet ptr len false ∈ hs /\ udp_read datalink ptr len = Def (Some ui) /\
                         checksums_on ui = Def on
  | Def (Waiting x) => at_query d (k + jumps hs) x
  end.

Lemma wait_post_cons h hs k k' r :
  (k + Nat.b2n (goes_off h) = k')%nat -> wait_post hs k' r -> wait_post (h :: hs) k r.
Proof.
  intros <-. unfold wait_post. destruct r as [[|x|on x|x]|]; try done; rewrite ?jumps_cons.
  - intros [? ?]. split; [done|lia].
  - intros [? (ptr & len & ui & Hin & ?)]. split; [done|]. exists ptr, len, ui. split; [by right|done].
  - by rewrite Nat.add_assoc.
Qed.

Lemma wait_ok hs k x :
  Forall (captured datalink) hs -> at_query d k x -> wait_post hs k (wait zerosum local dest datalink hs x).
Proof using d_sent.
  intros Hc. revert k x. induction Hc as [|h hs Hh _ IH]; intros k x Hx; cbn [wait].
  { cbn. by rewrite Nat.add_0_r. }
  assert (goes_off h = true -> wait_post (h :: hs) k
    (x' ← alarm_jump zerosum local dest x;
     match x' with None => mret (NoResponse x) | Some x' => wait zerosum local dest datalink hs x' end)) as Hj.
  { intros Hg. destruct (alarm_jump_query k x Hx) as ([x'|] & -> & Hr); rewrite chk_bind_Def.
    - apply (wait_post_cons h hs k (S k)); [by rewrite Hg, Nat.add_1_r|by apply IH].
    - subst k. unfold wait_post, mret, chk_ret. rewrite jumps_cons, Hg. split; [done|cbn; lia]. }
  destruct h as [| |ptr len late]; [|by apply Hj|].
  - apply (wait_post_cons _ _ k k); [cbn; lia|by apply IH].
  - destruct (udp_read_total _ _ _ _ Hh) as ([ui|] & Er & Hui); rewrite Er, chk_bind_Def; [|done].
    destruct late; [by apply Hj|]. destruct (Hui ui eq_refl) as [on Eon]. rewrite Eon, chk_bind_Def.
    cbn. split; [by exists k|]. exists ptr, len, ui. split; [by left|done].
Qed.
End Facts.

Lemma udp_write_total zerosum local dest user :
  Z.of_nat (length user) <= 65507 ->
  length (ep_addr local) = 4%nat -> length (ep_addr dest) = 4%nat ->
  length (ep_port local) = 2%nat -> length (ep_port dest) = 2%nat ->
  exists d, udp_write zerosum local dest user = Def d.
Proof.
  intros Hu H1 H2 H3 H4. unfold udp_write, udp_sum. destruct zerosum; [by eexists|].
  destruct (udp_sum_field local dest user Hu H1 H2 H3 H4) as (c & Hs & _). unfold udp_sum in Hs. rewrite Hs. by eexists.
Qed.

(** ** Properties *)

(** Whatever the link delivers and whenever the alarm goes off, [test_udp] sends
    the same datagram at most three times, setting the alarm to 3, 6 and 12
    seconds; it says "no response" only after the third alarm, goes on waiting
    only as long as the alarm went off once for every query but the last, and its
    answer is the checksum field of a packet that passed all its checks. *)
Theorem test_udp_bounded zerosum local dest datalink hs :
  length (ep_addr local) = 4%nat -> length (ep_addr dest) = 4%nat ->
  length (ep_port local) = 2%nat -> length (ep_port dest) = 2%nat ->
  Forall (captured datalink) hs ->
  exists d, udp_write zerosum local dest dns_query = Def d /\
    wait_post datalink d hs 1 (test_udp zerosum local dest datalink hs).
Proof.
  intros H1 H2 H3 H4 Hc. destruct (udp_write_total zerosum local dest dns_query) as [d Hd]; [by vm_compute|done..|].
  exists d. split; [done|]. unfold test_udp, send_query. cbn [nsent timeout sent alarms]. rewrite Hd, chk_bind_Def.
  unfold mret, chk_ret. cbn [mbind chk_bind]. apply (wait_ok _ _ _ _ _ Hd); [done|]. by split; [lia|].
Qed.

(** The text of the -l option goes apart at its last dot. *)
Theorem local_option_parts a p :
  existsb (Ascii.eqb "."%char) p = false -> at_last_dot (a ++ "."%char :: p) = Some (a, p).
Proof.
  intros Hp. assert (at_last_dot p = None) as Hn.
  { induction p as [|c p IH]; [done|]. cbn [existsb] in Hp. apply orb_false_iff in Hp as [H1 H2].
    cbn [at_last_dot]. by rewrite (IH H2), Ascii.eqb_sym, H1. }
  induction a as [|c a IH]; cbn [app at_last_dot].
  - rewrite Hn. done.
  - by rewrite IH.
Qed.

(** ** A run *)

Definition demo_chosen (sa : sockaddr) : option sockaddr := Some (SIn 4660 (chars "mine")).
Definition demo_pcap (device : option buf) (cmd : buf) : option Z := Some DLT_NULL.

(** An answer: four bytes of the link, an IP header of twenty bytes with a good
    checksum, ports, length, the checksum [s], and four bytes of data. *)
Definition demo_answer (s : buf) : happening :=
  let hdr c := [byte_of_Z 69; NUL; NUL; byte_of_Z 32] ++ replicate 4 NUL ++ [byte_of_Z 64; byte_of_Z 17] ++ c ++
               chars "abcd" ++ chars "mine" in
  let c := match in_cksum (hdr [NUL; NUL]) 20 with Def c => le16 c | Bad _ => [] end in
  let p := replicate 4 NUL ++ hdr c ++ chars "pqrs" ++ net16 12 ++ s ++ chars "data" in
  Packet p (Z.of_nat (length p)) false.

Definition demo_run (hs : list happening) : chk verdict :=
  @udpcksum_main demo_ns demo_chosen demo_pcap [OptV] [chars "vm1"; chars "daytime"] hs.

Example answer_on :
  match demo_run [Nothing; Alarm; demo_answer (chars "xy")] with
  | Def (Answer true x) => nsent x = 2 /\ alarms x = [3; 6]
  | _ => False
  end.
Proof. vm_compute. by split. Qed.

Example answer_off :
  match demo_run [demo_answer [NUL; NUL]] with Def (Answer false x) => nsent x = 1 | _ => False end.
Proof. vm_compute. reflexivity. Qed.

Example no_answer :
  match demo_run [Alarm; Nothing; Alarm; Alarm] with Def (NoResponse x) => alarms x = [3; 6; 12] | _ => False end.
Proof. vm_compute. reflexivity. Qed.

(** With IP options the field is read where it would be without them: here it is
    part of the ports, and checksums that are off are reported on. *)
Example options_misread :
  let hdr c := [byte_of_Z 70; NUL; NUL; byte_of_Z 32] ++ replicate 4 NUL ++ [byte_of_Z 64; byte_of_Z 17] ++ c ++
               chars "abcd" ++ chars "mine" ++ replicate 4 (byte_of_Z 1) in
  let c := match in_cksum (hdr [NUL; NUL]) 24 with Def c => le16 c | Bad _ => [] end in
  let p := replicate 4 NUL ++ hdr c ++ chars "pqrs" ++ net16 8 ++ [NUL; NUL] in
  match demo_run [Packet p (Z.of_nat (length p)) false] with Def (Answer on _) => on = true | _ => False end.
Proof. vm_compute. reflexivity. Qed.

Lemma test_udp_bounded_witness :
  exists d, udp_write false (Endpoint (chars "45") (chars "abcd")) (Endpoint (chars "67") (chars "wxyz")) dns_query = Def d /\
    wait_post DLT_NULL d [Alarm; Alarm; Alarm] 1
      (test_udp false (Endpoint (chars "45") (chars "abcd")) (Endpoint (chars "67") (chars "wxyz")) DLT_NULL
         [Alarm; Alarm; Alarm]).
Proof. apply test_udp_bounded; [reflexivity..|]. by repeat constructor. Defined.
