(* ===== verification/Web.v ===== *)
(** * A client with several connections at once

    Stevens/unpv13e/nonblock: web.c with web.h, home_page.c, start_connect.c and
    write_get_cmd.c.  The program fetches a home page, then up to twenty files of
    the same server over nonblocking connections, at most [maxnconn] at a time,
    with one [Select] for all of them. *)

From stdpp Require Import gmap sets fin_sets.
From S2P Require Import Prelude CLib Inet Inet6 BufIO SelectServ Sockaddr Gai Conn.

Definition MAXFILES : nat := 20.
Definition SERV : buf := chars "80".
Definition F_CONNECTING : Z := 1.
Definition F_READING : Z := 2.
Definition F_DONE : Z := 4.

(** [GET_CMD] with a file name in place of the directive. *)
Definition get_cmd (name : buf) : buf :=
  chars "GET " ++ name ++ chars " HTTP/1.0" ++ (byte_of_Z <$> [13; 10; 13; 10]).

Record file := File { f_name : buf; f_host : buf; f_fd : Z; f_flags : Z }.

(** What the program does with its connections; [i] is the index of the file.  A
    read is noted with what the kernel returned: data, or nothing at end of file. *)
Inductive event :=
  | EHomeGet (fd : Z) (b : buf)
  | EHomeRead (b : buf)
  | EHomeClose (fd : Z)
  | EStart (i : nat) (fd : Z)
  | EFailed (i : nat)          (** "nonblocking connect failed" *)
  | EGet (i : nat) (fd : Z) (b : buf)
  | ERead (i : nat) (b : buf)
  | EClose (i : nat) (fd : Z).

#[export] Instance event_eq_dec : EqDecision event.
Proof. solve_decision. Defined.

(** The globals, the calls made through the functions of [Conn], and the events. *)
Record web := Web {
  files : list file;
  nconn : Z; nlefttoconn : Z; nlefttoread : Z; maxfd : Z;
  rset : gset Z; wset : gset Z;
  calls : list call; log : list event }.

Inductive conn_answer := Connected | InProgress | ConnError.

(** The kernel: its answers may depend on everything that has happened. *)
Class WebKernel := {
  w_fcntl : web -> Z -> bool;
  w_connect : web -> Z -> option sockaddr -> conn_answer;
  w_select : web -> option (gset Z * gset Z);
  w_error : web -> Z -> bool;
  w_write : web -> Z -> bool;
  w_read : web -> Z -> option buf }.

(** ** Assignments *)
Definition set_files l s := Web l (nconn s) (nlefttoconn s) (nlefttoread s) (maxfd s) (rset s) (wset s) (calls s) (log s).
Definition set_counts n c r s := Web (files s) n c r (maxfd s) (rset s) (wset s) (calls s) (log s).
Definition set_maxfd m s := Web (files s) (nconn s) (nlefttoconn s) (nlefttoread s) m (rset s) (wset s) (calls s) (log s).
Definition set_rset x s := Web (files s) (nconn s) (nlefttoconn s) (nlefttoread s) (maxfd s) x (wset s) (calls s) (log s).
Definition set_wset x s := Web (files s) (nconn s) (nlefttoconn s) (nlefttoread s) (maxfd s) (rset s) x (calls s) (log s).
Definition set_calls x s := Web (files s) (nconn s) (nlefttoconn s) (nlefttoread s) (maxfd s) (rset s) (wset s) x (log s).
Definition set_log x s := Web (files s) (nconn s) (nlefttoconn s) (nlefttoread s) (maxfd s) (rset s) (wset s) (calls s) x.
Definition say (e : event) : M web unit := modify (fun s => set_log (log s ++ [e]) s).

(** The descriptor sets are bit arrays of [FD_SETSIZE] bits. *)
Definition in_fd_set (fd : Z) : M web unit :=
  lift (if (0 <=? fd) && (fd <? Z.of_nat FD_SETSIZE) then Def tt else Bad BufferOverflow).
Definition watch_r (fd : Z) : M web unit := in_fd_set fd;; modify (fun s => set_rset ({[fd]} ∪ rset s) s).
Definition watch_w (fd : Z) : M web unit := in_fd_set fd;; modify (fun s => set_wset ({[fd]} ∪ wset s) s).
Definition clear_r (fd : Z) : M web unit := in_fd_set fd;; modify (fun s => set_rset (rset s ∖ {[fd]}) s).
Definition clear_w (fd : Z) : M web unit := in_fd_set fd;; modify (fun s => set_wset (wset s ∖ {[fd]}) s).
Definition FD_ISSET (fd : Z) (x : gset Z) : M web bool := in_fd_set fd;; mret (bool_decide (fd ∈ x)).
Definition raise_maxfd (fd : Z) : M web unit :=
  modify (fun s => if maxfd s <? fd then set_maxfd fd s else s).
Definition set_file (i : nat) (f : file) : M web unit := modify (fun s => set_files (<[i := f]> (files s)) s).

Section Program.
Context {ns : NameService} {k : SockKernel} {w : WebKernel}.

Definition net {A} (m : M (list call) A) : M web A := fun s =>
  match m (calls s) with
  | Ok a tr => Ok a (set_calls tr s)
  | Aborted x => Aborted x
  | Undef u => Undef u
  end.

(** The wrappers end the process when the call fails. *)
Definition Socket (family socktype protocol : Z) : M web Z :=
  fd ← net (socket family socktype protocol);
  if fd <? 0 then abort_with ErrExit else mret fd.
Definition Fcntl (fd : Z) : M web unit :=
  s ← get; if w_fcntl s fd then mret tt else abort_with ErrExit.
Definition Read (note : buf -> event) (fd : Z) : M web buf :=
  s ← get;
  match w_read s fd with
  | Some b => say (note (take MAXLINE b));; mret (take MAXLINE b)
  | None => abort_with ErrExit
  end.

(** [snprintf] into [line] and [Writen] of as many bytes as it reports; these may be
    more than [line] has.  [Writen] writes them all or ends the process. *)
Definition print_line (t : buf) : M web buf :=
  if (length t <=? MAXLINE)%nat then mret (if (length t =? MAXLINE)%nat then take (MAXLINE - 1) t ++ [NUL] else t)
  else lift (Bad BufferOverflow).
Definition Write_all (fd : Z) : M web unit :=
  s ← get; if w_write s fd then mret tt else abort_with ErrExit.

(** ** home_page *)

Fixpoint home_loop (fuel : nat) (fd : Z) : M web unit :=
  match fuel with
  | O => lift (Bad EndlessLoop)
  | S fuel' =>
      b ← Read EHomeRead fd;
      match b with
      | [] => mret tt
      | _ => home_loop fuel' fd
      end
  end.

Definition home_page (fuel : nat) (host fname : buf) : M web unit :=
  fd ← net (tcp_connect (Some host) (Some SERV));
  line ← print_line (get_cmd fname);
  Write_all fd;;
  say (EHomeGet fd line);;
  home_loop fuel fd;;
  net (Close fd);;
  say (EHomeClose fd).

(** ** write_get_cmd and start_connect *)

Definition write_get_cmd (i : nat) : M web unit :=
  s ← get;
  f ← follow (files s !! i);
  line ← print_line (get_cmd (f_name f));
  Write_all (f_fd f);;
  say (EGet i (f_fd f) line);;
  set_file i (File (f_name f) (f_host f) (f_fd f) F_READING);;
  watch_r (f_fd f);;
  raise_maxfd (f_fd f).

Definition start_connect (i : nat) : M web unit :=
  s ← get;
  f ← follow (files s !! i);
  l ← net (Host_serv (Some (f_host f)) (Some SERV) 0 SOCK_STREAM);
  ai ← follow (l !! 0%nat);
  fd ← Socket (ai_family ai) (ai_socktype ai) (ai_protocol ai);
  set_file i (File (f_name f) (f_host f) fd (f_flags f));;
  say (EStart i fd);;
  Fcntl fd;;
  Fcntl fd;;
  s ← get;
  match w_connect s fd (ai_addr ai) with
  | ConnError => abort_with ErrExit
  | InProgress =>
      set_file i (File (f_name f) (f_host f) fd F_CONNECTING);;
      watch_r fd;;
      watch_w fd;;
      raise_maxfd fd
  | Connected => write_get_cmd i
  end.

(** ** main *)

Fixpoint find_unstarted (l : list file) : option nat :=
  match l with
  | [] => None
  | f :: l' => if f_flags f =? 0 then Some O else S <$> find_unstarted l'
  end.

(** The inner [while]; [AssertFailed] is its [err_quit], the check that the counters
    agree with the array. *)
Fixpoint start_conns (fuel : nat) (maxnconn : Z) : M web unit :=
  s ← get;
  if (nconn s <? maxnconn) && (0 <? nlefttoconn s) then
    match fuel with
    | O => lift (Bad EndlessLoop)
    | S fuel' =>
        match find_unstarted (files s) with
        | None => abort_with AssertFailed
        | Some i =>
            start_connect i;;
            modify (fun s => set_counts (nconn s + 1) (nlefttoconn s - 1) (nlefttoread s) s);;
            start_conns fuel' maxnconn
        end
    end
  else mret tt.

Definition has (flags bit : Z) : bool := negb (Z.land flags bit =? 0).

(** One file after [Select]. *)
Definition serve_file (rs ws : gset Z) (i : nat) : M web unit :=
  s ← get;
  f ← follow (files s !! i);
  let flags := f_flags f in
  if (flags =? 0) || has flags F_DONE then mret tt else
  let fd := f_fd f in
  in_r ← FD_ISSET fd rs;
  in_w ← FD_ISSET fd ws;
  if has flags F_CONNECTING && (in_r || in_w) then
    (if w_error s fd then say (EFailed i) else mret tt);;
    clear_w fd;;
    write_get_cmd i
  else if has flags F_READING && in_r then
    b ← Read (ERead i) fd;
    match b with
    | [] =>
        net (Close fd);;
        say (EClose i fd);;
        set_file i (File (f_name f) (f_host f) fd F_DONE);;
        clear_r fd;;
        modify (fun s => set_counts (nconn s - 1) (nlefttoconn s) (nlefttoread s - 1) s)
    | _ => mret tt
    end
  else mret tt.

Fixpoint serve_files (rs ws : gset Z) (todo : list nat) : M web unit :=
  match todo with
  | [] => mret tt
  | i :: todo' => serve_file rs ws i;; serve_files rs ws todo'
  end.

(** [Select(maxfd+1, &rs, &ws, ...)] looks at the descriptors up to [maxfd]. *)
Definition Select : M web (gset Z * gset Z) :=
  s ← get;
  match w_select s with
  | None => abort_with ErrExit
  | Some (rs, ws) =>
      let seen := filter (fun fd => fd <= maxfd s) in
      mret (seen (rs ∩ rset s), seen (ws ∩ wset s))
  end.

Definition web_turn (maxnconn : Z) : M web unit :=
  s ← get;
  start_conns (length (files s)) maxnconn;;
  '(rs, ws) ← Select;
  serve_files rs ws (seq 0 (length (files s))).

Fixpoint web_loop (fuel : nat) (maxnconn : Z) : M web unit :=
  s ← get;
  if 0 <? nlefttoread s then
    match fuel with
    | O => lift (Bad EndlessLoop)
    | S fuel' => web_turn maxnconn;; web_loop fuel' maxnconn
    end
  else mret tt.

Definition web_init (argv : list buf) (host : buf) : web :=
  Web ((fun a => File a host 0 0) <$> take MAXFILES (drop 4 argv)) 0 0 0 0 ∅ ∅ [] [].

Definition web_main (fuel : nat) (argv : list buf) : outcome web unit :=
  match argv with
  | _ :: conns :: host :: page :: _ :: _ =>
      (maxnconn ← lift (atoi (conns ++ [NUL]));
       home_page fuel host page;;
       modify (fun s => let n := Z.of_nat (length (files s)) in
                 Web (files s) 0 n n (-1) ∅ ∅ (calls s) (log s));;
       web_loop fuel maxnconn) (web_init argv host)
  | _ => Aborted ErrExit
  end.
End Program.

(** * Lemmas *)

(** No system call fails, as long as no more descriptors are open than there can be
    files. *)
Record all_succeed {k : SockKernel} {w : WebKernel} : Prop := {
  yes_socket : forall tr f t p, history tr -> (length (open_fds tr) <= MAXFILES)%nat -> 0 <= k_socket tr f t p;
  yes_dial : forall tr fd sa, k_connect tr fd sa = true;
  yes_fcntl : forall s fd, w_fcntl s fd = true;
  yes_connect : forall s fd sa, w_connect s fd sa <> ConnError;
  yes_select : forall s, w_select s <> None;
  yes_write : forall s fd, w_write s fd = true;
  yes_read : forall s fd, w_read s fd <> None;
}.

(** [runs m Q s]: [m] returns with [Q], or ends the process because a system call
    failed; it has no undefined behaviour and fails no check of its own. *)
Definition runs {k : SockKernel} {w : WebKernel} {S A} (m : M S A) (Q : A -> S -> Prop) (s : S) : Prop :=
  match m s with Ok a s' => Q a s' | Aborted x => x = ErrExit /\ ~ all_succeed | Undef _ => False end.

Section Runs.
Context {k : SockKernel} {w : WebKernel} {S : Type}.
Implicit Types s : S.

Lemma runs_ret {A} (a : A) (Q : A -> S -> Prop) s : Q a s -> runs (mret a) Q s.
Proof. exact id. Qed.
Lemma runs_bind {A B} (m : M S A) (f : A -> M S B) Q s :
  runs m (fun a => runs (f a) Q) s -> runs (m ≫= f) Q s.
Proof. unfold runs, mbind, M_bind. by destruct (m s). Qed.
Lemma runs_mono {A} (m : M S A) (Q Q' : A -> S -> Prop) s :
  runs m Q s -> (forall a s', Q a s' -> Q' a s') -> runs m Q' s.
Proof. unfold runs. destruct (m s); auto. Qed.
Lemma runs_get Q s : Q s s -> runs get Q s.
Proof. exact id. Qed.
Lemma runs_modify f (Q : unit -> S -> Prop) s : Q tt (f s) -> runs (modify f) Q s.
Proof. exact id. Qed.
Lemma runs_follow {A} (p : option A) a Q s : p = Some a -> Q a s -> runs (follow p) Q s.
Proof. by intros ->. Qed.
Lemma runs_lift {A} (c : chk A) a Q s : c = Def a -> Q a s -> runs (lift c) Q s.
Proof. by intros ->. Qed.
Lemma runs_exit {A} (Q : A -> S -> Prop) s : ~ all_succeed -> runs (abort_with ErrExit) Q s.
Proof. done. Qed.
End Runs.

Ltac runs_step :=
  match goal with
  | |- runs (mbind _ _) _ _ => apply runs_bind
  | |- runs (mret _) _ _ => apply runs_ret
  | |- runs get _ _ => apply runs_get
  | |- runs (modify _) _ _ => apply runs_modify
  | |- runs (set_file _ _) _ _ => apply runs_modify
  | |- runs (say _) _ _ => apply runs_modify
  | |- runs (raise_maxfd _) _ _ => apply runs_modify
  end; cbn beta.
Ltac runs_steps := repeat runs_step.

(** ** Files in an array *)

Definition live (f : file) : bool := (f_flags f =? F_CONNECTING) || (f_flags f =? F_READING).
Definition connecting (f : file) : bool := f_flags f =? F_CONNECTING.

(** The descriptors of the files with a property. *)
Definition fds (P : file -> bool) (l : list file) (fd : Z) : Prop :=
  exists i f, l !! i = Some f /\ P f = true /\ f_fd f = fd.
Definition distinct (l : list file) : Prop :=
  forall i j f g, l !! i = Some f -> l !! j = Some g -> live f = true -> live g = true -> f_fd f = f_fd g -> i = j.

Lemma fds_insert P l i f f' fd :
  (forall g, P g = true -> live g = true) -> distinct l -> l !! i = Some f ->
  fds P (<[i := f']> l) fd <->
  (fds P l fd /\ (P f = true -> fd <> f_fd f)) \/ (P f' = true /\ fd = f_fd f').
Proof.
  intros HP Hd Hi. assert (i < length l)%nat as Hlt by by apply lookup_lt_Some in Hi. split.
  - intros (j & g & Hg & HPg & <-). destruct (decide (i = j)) as [->|Hne].
    + rewrite list_lookup_insert_eq in Hg by done. injection Hg as <-. by right.
    + rewrite list_lookup_insert_ne in Hg by done. left. split; [by exists j, g|].
      intros Hf He. by apply Hne, (Hd i j f g Hi Hg (HP _ Hf) (HP _ HPg)).
  - intros [[(j & g & Hg & HPg & <-) Hne]|[HPf ->]].
    + exists j, g. rewrite list_lookup_insert_ne; [done|]. intros ->. rewrite Hi in Hg. injection Hg as <-. by apply Hne.
    + exists i, f'. by rewrite list_lookup_insert_eq.
Qed.

Lemma distinct_insert l i f f' :
  distinct l -> l !! i = Some f ->
  (live f' = true -> (live f = true /\ f_fd f' = f_fd f) \/ ~ fds live l (f_fd f')) ->
  distinct (<[i := f']> l).
Proof.
  intros Hd Hi Hf. assert (i < length l)%nat as Hlt by by apply lookup_lt_Some in Hi.
  assert (forall j g, j <> i -> l !! j = Some g -> live g = true -> live f' = true -> f_fd g <> f_fd f') as Hx.
  { intros j g Hne Hg Hlg Hlf He. destruct (Hf Hlf) as [[Hl E]|H].
    - apply Hne, (Hd j i g f); try done. congruence.
    - apply H. exists j, g. done. }
  intros j j' g g' Hg Hg' Hl Hl' He.
  destruct (decide (j = i)) as [->|Hj], (decide (j' = i)) as [->|Hj']; [done| | |].
  - rewrite list_lookup_insert_eq in Hg by done. rewrite list_lookup_insert_ne in Hg' by done.
    injection Hg as <-. exfalso. by eapply Hx, eq_sym.
  - rewrite list_lookup_insert_ne in Hg by done. rewrite list_lookup_insert_eq in Hg' by done.
    injection Hg' as <-. exfalso. by eapply Hx.
  - rewrite list_lookup_insert_ne in Hg by done. rewrite list_lookup_insert_ne in Hg' by done. by eapply Hd.
Qed.

(** Sums over the array. *)
Lemma sum_at (g : file -> nat) l i f : l !! i = Some f -> (g f <= sum_list_with g l)%nat.
Proof.
  revert i. induction l as [|x l IH]; intros [|i]; cbn; [done..| |].
  - intros [= ->]. lia.
  - intros Hi. specialize (IH i Hi). lia.
Qed.
Lemma sum_zero (g : file -> nat) l : sum_list_with g l = O -> forall i f, l !! i = Some f -> g f = O.
Proof. intros H i f Hi. pose proof (sum_at g l i f Hi). lia. Qed.

(** What counts as waiting, open and unfinished; and how far a file still has to go. *)
Definition is_waiting (f : file) : nat := if f_flags f =? 0 then 1 else 0.
Definition is_open (f : file) : nat := if live f then 1 else 0.
Definition is_left (f : file) : nat := if f_flags f =? F_DONE then 0 else 1.
Definition to_go (f : file) : nat := if f_flags f =? F_DONE then 0 else if f_flags f =? F_READING then 1 else 2.

(** ** The history of a file *)

Definition about (i : nat) (e : event) : bool :=
  match e with
  | EGet j _ _ | ERead j _ | EClose j _ | EStart j _ => bool_decide (i = j)
  | _ => false
  end.
Definition story (i : nat) (l : list event) : list event := filter (fun e => about i e = true) l.

#[local] Arguments story : simpl never.
#[local] Arguments get_cmd : simpl never.
#[local] Arguments open_fds : simpl never.

(** What has happened to a file in each of its states. *)
Definition file_story (i : nat) (f : file) (st : list event) : Prop :=
  if f_flags f =? 0 then st = []
  else if f_flags f =? F_CONNECTING then st = [EStart i (f_fd f)]
  else exists bs, Forall (fun b => b <> []) bs /\
    st = EStart i (f_fd f) :: EGet i (f_fd f) (get_cmd (f_name f)) :: (ERead i <$> bs) ++
         (if f_flags f =? F_READING then [] else [ERead i []; EClose i (f_fd f)]).

Lemma story_app i l l' : story i (l ++ l') = story i l ++ story i l'.
Proof. apply filter_app. Qed.
Lemma story_own i l e : about i e = true -> story i (l ++ [e]) = story i l ++ [e].
Proof. intros H. rewrite story_app. unfold story at 2. by rewrite filter_cons_True. Qed.
Lemma story_other i l e : about i e = false -> story i (l ++ [e]) = story i l.
Proof. intros H. rewrite story_app. unfold story at 2. rewrite filter_cons_False by (by rewrite H). apply app_nil_r. Qed.

(** What belongs to the home page. *)
Definition home_event (e : event) : bool :=
  match e with EHomeGet _ _ | EHomeRead _ | EHomeClose _ => true | _ => false end.
(** [l'] goes on from [l], with nothing about the home page. *)
Definition goes_on (l l' : list event) : Prop := exists r, l' = l ++ r /\ Forall (fun e => home_event e = false) r.

Lemma goes_on_refl l : goes_on l l.
Proof. exists []. by rewrite app_nil_r. Qed.
Lemma goes_on_trans l1 l2 l3 : goes_on l1 l2 -> goes_on l2 l3 -> goes_on l1 l3.
Proof. intros (r1 & -> & H1) (r2 & -> & H2). exists (r1 ++ r2). rewrite app_assoc. split; [done|]. by apply Forall_app. Qed.
Lemma goes_on_snoc l l' e : goes_on l l' -> home_event e = false -> goes_on l (l' ++ [e]).
Proof. intros Hl He. eapply goes_on_trans; [done|]. exists [e]. split; [done|]. by constructor. Qed.

(** The connections open after a sequence of events, and their limit. *)
Definition busy (l : list event) : Z :=
  foldl (fun n e => match e with EStart _ _ => n + 1 | EClose _ _ => n - 1 | _ => n end) 0 l.
Definition within (m : Z) (l : list event) : Prop := forall l1 l2, l = l1 ++ l2 -> busy l1 <= m.

#[local] Arguments busy : simpl never.

Lemma busy_snoc l e :
  busy (l ++ [e]) = match e with EStart _ _ => busy l + 1 | EClose _ _ => busy l - 1 | _ => busy l end.
Proof. unfold busy. by rewrite foldl_app. Qed.
Lemma within_snoc m l e : within m l -> busy (l ++ [e]) <= m -> within m (l ++ [e]).
Proof.
  intros Hl He l1 l2 E. destruct l2 as [|x l2 _] using rev_ind.
  - rewrite app_nil_r in E. by subst.
  - rewrite app_assoc in E. apply app_inj_tail in E as [-> _]. by eapply Hl.
Qed.

(** ** The invariant *)

Section Invariant.
Context {ns : NameService} {k : SockKernel} {w : WebKernel} (maxnconn : Z).

(** What the program relies on: a descriptor is new and within a descriptor set, its
    own descriptors can be closed, and the name of the server is known. *)
Record web_env (host : buf) : Prop := {
  env_wrap : wrappers_succeed;
  env_fd : forall tr f t p, history tr -> 0 <= k_socket tr f t p ->
    k_socket tr f t p < Z.of_nat FD_SETSIZE /\ k_socket tr f t p ∉ open_fds tr;
  env_file : exists l u, getaddrinfo (Some host) (Some SERV) (Some (hints_for AI_CANONNAME 0 SOCK_STREAM)) = Def (GaiFound l u);
  env_page : exists l u, getaddrinfo (Some host) (Some SERV) (Some (hints_of TcpConnect)) = Def (GaiFound l u);
}.

Definition file_ok (host : buf) (f : file) : Prop :=
  f_host f = host /\ (length (get_cmd (f_name f)) < MAXLINE)%nat /\
  (f_flags f = 0 \/ f_flags f = F_CONNECTING \/ f_flags f = F_READING \/ f_flags f = F_DONE).

Record web_ok (host : buf) (s : web) : Prop := {
  ok_files : forall i f, files s !! i = Some f -> file_ok host f /\ file_story i f (story i (log s));
  ok_hist : history (calls s);
  ok_few : (length (files s) <= MAXFILES)%nat;
  ok_distinct : distinct (files s);
  ok_range : forall fd, fds live (files s) fd -> 0 <= fd < Z.of_nat FD_SETSIZE /\ fd <= maxfd s;
  ok_open : forall fd, fd ∈ open_fds (calls s) <-> fds live (files s) fd;
  ok_rset : forall fd, fd ∈ rset s <-> fds live (files s) fd;
  ok_wset : forall fd, fd ∈ wset s <-> fds connecting (files s) fd;
  ok_waiting : nlefttoconn s = Z.of_nat (sum_list_with is_waiting (files s));
  ok_nconn : nconn s = Z.of_nat (sum_list_with is_open (files s));
  ok_left : nlefttoread s = Z.of_nat (sum_list_with is_left (files s));
  ok_busy : nconn s = busy (log s);
  ok_within : within maxnconn (log s);
}.

Lemma connecting_live f : connecting f = true -> live f = true.
Proof. unfold connecting, live. by intros ->. Qed.

(** A file moves from one state to another: what has to be shown of the state
    around it. *)
Record moves (host : buf) (i : nat) (f f' : file) (s s' : web) : Prop := {
  mv_files : files s' = <[i := f']> (files s);
  mv_file : file_ok host f' /\ file_story i f' (story i (log s'));
  mv_others : forall j, j <> i -> story j (log s') = story j (log s);
  mv_hist : history (calls s');
  mv_fresh : live f' = true -> (live f = true /\ f_fd f' = f_fd f) \/ f_fd f' ∉ open_fds (calls s);
  mv_range : live f' = true -> 0 <= f_fd f' < Z.of_nat FD_SETSIZE /\ f_fd f' <= maxfd s';
  mv_maxfd : maxfd s <= maxfd s';
  mv_open : forall fd, fd ∈ open_fds (calls s') <->
    (fd ∈ open_fds (calls s) /\ (live f = true -> fd <> f_fd f)) \/ (live f' = true /\ fd = f_fd f');
  mv_rset : forall fd, fd ∈ rset s' <->
    (fd ∈ rset s /\ (live f = true -> fd <> f_fd f)) \/ (live f' = true /\ fd = f_fd f');
  mv_wset : forall fd, fd ∈ wset s' <->
    (fd ∈ wset s /\ (connecting f = true -> fd <> f_fd f)) \/ (connecting f' = true /\ fd = f_fd f');
  mv_waiting : nlefttoconn s' + Z.of_nat (is_waiting f) = nlefttoconn s + Z.of_nat (is_waiting f');
  mv_nconn : nconn s' + Z.of_nat (is_open f) = nconn s + Z.of_nat (is_open f');
  mv_left : nlefttoread s' + Z.of_nat (is_left f) = nlefttoread s + Z.of_nat (is_left f');
  mv_log : goes_on (log s) (log s');
  mv_busy : nconn s' = busy (log s');
  mv_within : within maxnconn (log s');
}.

Lemma moves_ok host i f f' s s' :
  web_ok host s -> files s !! i = Some f -> moves host i f f' s s' -> web_ok host s'.
Proof.
  intros [Hf Hh Hfew Hd Hr Ho Hrs Hws Hc1 Hc2 Hc3 _ _] Hi [Mf Ms Mo Mh Mn Mr Mm Mop Mrs Mws M1 M2 M3 _ M4 M5].
  assert (i < length (files s))%nat as Hlt by by apply lookup_lt_Some in Hi.
  pose proof (fds_insert live (files s) i f f') as Hlive.
  pose proof (fds_insert connecting (files s) i f f') as Hconn.
  split; rewrite ?Mf; try done.
  - intros j g Hg. destruct (decide (j = i)) as [->|Hne].
    + rewrite list_lookup_insert_eq in Hg by done. by injection Hg as <-.
    + rewrite list_lookup_insert_ne in Hg by done. rewrite (Mo j Hne). by apply Hf.
  - by rewrite length_insert.
  - apply (distinct_insert _ _ f); [done..|]. intros Hl. destruct (Mn Hl) as [?|Hn]; [by left|right].
    by rewrite <- Ho.
  - intros fd H. apply Hlive in H; [|done..]. destruct H as [[H _]|[Hl ->]].
    + destruct (Hr fd H). lia.
    + by apply Mr.
  - intros fd. rewrite Mop, Hlive by done. by rewrite Ho.
  - intros fd. rewrite Mrs, Hlive by done. by rewrite Hrs.
  - intros fd. rewrite Mws, Hconn by (done || apply connecting_live). by rewrite Hws.
  - pose proof (sum_insert is_waiting _ _ _ f' Hi). lia.
  - pose proof (sum_insert is_open _ _ _ f' Hi). lia.
  - pose proof (sum_insert is_left _ _ _ f' Hi). lia.
Qed.

(** Sets and lists of descriptors under the assignments. *)
Lemma open_fds_socket tr a b c fd : 0 <= fd -> open_fds (tr ++ [CSocket a b c fd]) = fd :: open_fds tr.
Proof. intros H. rewrite open_fds_app. cbn. by rewrite (proj2 (Z.leb_le 0 fd) H). Qed.
Lemma open_fds_close tr fd : open_fds (tr ++ [CClose fd]) = filter (fun x => x <> fd) (open_fds tr).
Proof. by rewrite open_fds_app. Qed.

Lemma runs_in_fd_set fd Q s : 0 <= fd < Z.of_nat FD_SETSIZE -> Q tt s -> runs (in_fd_set fd) Q s.
Proof.
  intros H HQ. unfold in_fd_set. eapply runs_lift; [|done].
  by rewrite (proj2 (Z.leb_le 0 fd)), (proj2 (Z.ltb_lt fd _)) by lia.
Qed.
Lemma runs_print_line t Q s : (length t < MAXLINE)%nat -> Q t s -> runs (print_line t) Q s.
Proof.
  intros H HQ. unfold print_line. rewrite (proj2 (Nat.leb_le _ _)), (proj2 (Nat.eqb_neq _ _)) by lia. done.
Qed.
Lemma runs_Write_all fd (Q : unit -> web -> Prop) s : Q tt s -> runs (Write_all fd) Q s.
Proof. intros H. unfold Write_all. runs_steps. destruct (w_write s fd) eqn:E; [done|]. apply runs_exit. intros [? ? ? ? ? Hy]. by rewrite Hy in E. Qed.
Lemma runs_Fcntl fd (Q : unit -> web -> Prop) s : Q tt s -> runs (Fcntl fd) Q s.
Proof. intros H. unfold Fcntl. runs_steps. destruct (w_fcntl s fd) eqn:E; [done|]. apply runs_exit. intros [? ? Hy]. by rewrite Hy in E. Qed.
Lemma runs_Close fd (Q : unit -> web -> Prop) s :
  wrappers_succeed -> Q tt (set_calls (calls s ++ [CClose fd]) s) -> runs (net (Close fd)) Q s.
Proof.
  intros Hw H. unfold runs, net, Close, wrapper. destruct (Hw (calls s) fd) as (_ & _ & ->). done.
Qed.
Lemma runs_Socket a b c (Q : Z -> web -> Prop) s :
  history (calls s) -> (length (open_fds (calls s)) <= MAXFILES)%nat ->
  (forall fd, 0 <= fd -> fd = k_socket (calls s) a b c -> Q fd (set_calls (calls s ++ [CSocket a b c fd]) s)) ->
  runs (Socket a b c) Q s.
Proof.
  intros Hh Hfew H. unfold Socket, runs, mbind, M_bind, net, socket.
  destruct (Z.ltb_spec (k_socket (calls s) a b c) 0) as [Hneg|]; [|by apply H].
  split; [done|]. intros [Hy]. specialize (Hy (calls s) a b c Hh Hfew). lia.
Qed.
Lemma runs_Host_serv host l u fam ty Q s :
  getaddrinfo (Some host) (Some SERV) (Some (hints_for AI_CANONNAME fam ty)) = Def (GaiFound l u) ->
  Q l s -> runs (net (Host_serv (Some host) (Some SERV) fam ty)) Q s.
Proof.
  intros Hg HQ. unfold runs, net, Host_serv, mbind, M_bind, lift, host_serv. rewrite Hg. cbn. by destruct s.
Qed.

(** Descriptors are open once, each for a file. *)
Lemma open_fds_nodup host tr : web_env host -> history tr -> NoDup (open_fds tr).
Proof.
  intros He. induction 1 as [|tr c Hh IH Hc]; [constructor|]. rewrite open_fds_app. cbn.
  destruct c; cbn in *; try done; [|by apply NoDup_filter].
  destruct (Z.leb_spec 0 ret); [|done]. constructor; [|done]. subst ret. by apply (env_fd _ He).
Qed.
Lemma open_few host s : web_env host -> web_ok host s -> (length (open_fds (calls s)) <= MAXFILES)%nat.
Proof.
  intros He Hok. etrans; [|apply (ok_few _ _ Hok)]. rewrite <- (length_fmap f_fd (files s)).
  apply submseteq_length, NoDup_submseteq; [by eapply open_fds_nodup, (ok_hist _ _ Hok)|].
  intros fd (i & f & Hi & _ & <-)%(ok_open _ _ Hok). apply list_elem_of_fmap. exists f. split; [done|].
  by eapply list_elem_of_lookup_2.
Qed.

(** [write_get_cmd] on a file whose connection is made: the state it leaves. *)
Definition asked (i : nat) (f : file) (s : web) : web :=
  Web (<[i := File (f_name f) (f_host f) (f_fd f) F_READING]> (files s)) (nconn s) (nlefttoconn s) (nlefttoread s)
      (if maxfd s <? f_fd f then f_fd f else maxfd s) ({[f_fd f]} ∪ rset s) (wset s) (calls s)
      (log s ++ [EGet i (f_fd f) (get_cmd (f_name f))]).

Lemma runs_write_get_cmd i f (Q : unit -> web -> Prop) s :
  files s !! i = Some f -> (length (get_cmd (f_name f)) < MAXLINE)%nat -> 0 <= f_fd f < Z.of_nat FD_SETSIZE ->
  Q tt (asked i f s) -> runs (write_get_cmd i) Q s.
Proof.
  intros Hi Hl Hfd HQ. unfold write_get_cmd. runs_steps. eapply runs_follow; [done|]. runs_steps.
  apply runs_print_line; [done|]. runs_steps. apply runs_Write_all. runs_steps.
  unfold watch_r. runs_steps. apply runs_in_fd_set; [done|]. runs_steps.
  unfold asked, set_log, set_files, set_rset, set_maxfd in *. cbn in *.
  by destruct (maxfd s <? f_fd f).
Qed.

(** ** What moves on

    The reads of data so far, and what is left to do, less the reads. *)
Definition is_read (e : event) : bool := match e with ERead _ (_ :: _) | EHomeRead (_ :: _) => true | _ => false end.
Definition nreads (l : list event) : nat := length (filter (fun e => is_read e = true) l).
Definition lag (s : web) : Z := Z.of_nat (sum_list_with to_go (files s)) - Z.of_nat (nreads (log s)).

#[local] Arguments nreads : simpl never.
#[local] Arguments lag : simpl never.

Lemma nreads_snoc l e : nreads (l ++ [e]) = (nreads l + if is_read e then 1 else 0)%nat.
Proof.
  unfold nreads. rewrite filter_app, length_app, filter_cons, filter_nil.
  destruct (is_read e); [by rewrite decide_True|by rewrite decide_False].
Qed.

(** The files stay the same ones. *)
Definition names (s : web) : list buf := f_name <$> files s.

Lemma moves_names i f f' s :
  files s !! i = Some f -> f_name f' = f_name f -> f_name <$> <[i := f']> (files s) = names s.
Proof. intros Hi Hn. unfold names. rewrite list_fmap_insert, Hn. apply list_insert_id. by rewrite list_lookup_fmap, Hi. Qed.

Lemma lag_moves i f f' s s' :
  files s !! i = Some f -> files s' = <[i := f']> (files s) ->
  lag s' = lag s - Z.of_nat (to_go f) + Z.of_nat (to_go f') - Z.of_nat (nreads (log s')) + Z.of_nat (nreads (log s)).
Proof. intros Hi Hf. unfold lag. rewrite Hf. pose proof (sum_insert to_go _ _ _ f' Hi). lia. Qed.

(** ** Starting connections *)

Definition started (i : nat) (fd : Z) (a b c : Z) (f : file) (s : web) : web :=
  Web (<[i := File (f_name f) (f_host f) fd (f_flags f)]> (files s)) (nconn s) (nlefttoconn s) (nlefttoread s)
    (maxfd s) (rset s) (wset s) (calls s ++ [CSocket a b c fd]) (log s ++ [EStart i fd]).
Definition under_way (i : nat) (fd : Z) (f : file) (s : web) : web :=
  Web (<[i := File (f_name f) (f_host f) fd F_CONNECTING]> (files s)) (nconn s) (nlefttoconn s) (nlefttoread s)
    (if maxfd s <? fd then fd else maxfd s) ({[fd]} ∪ rset s) ({[fd]} ∪ wset s) (calls s) (log s).

Lemma runs_under_way i fd f (Q : unit -> web -> Prop) s :
  0 <= fd < Z.of_nat FD_SETSIZE -> Q tt (under_way i fd f s) ->
  runs (set_file i (File (f_name f) (f_host f) fd F_CONNECTING);; watch_r fd;; watch_w fd;; raise_maxfd fd) Q s.
Proof.
  intros Hfd HQ. unfold watch_r, watch_w. runs_steps. apply runs_in_fd_set; [done|]. runs_steps.
  apply runs_in_fd_set; [done|]. runs_steps. destruct s as [l n1 n2 n3 m r w' c lg].
  unfold under_way in HQ. cbn in *. by destruct (m <? fd).
Qed.

Lemma runs_start_connect host i f (Q : unit -> web -> Prop) s :
  web_env host -> web_ok host s -> files s !! i = Some f ->
  (forall a b c fd, 0 <= fd -> fd = k_socket (calls s) a b c -> fd < Z.of_nat FD_SETSIZE -> fd ∉ open_fds (calls s) ->
     Q tt (under_way i fd f (started i fd a b c f s)) /\
     Q tt (asked i (File (f_name f) (f_host f) fd (f_flags f)) (started i fd a b c f s))) ->
  runs (start_connect i) Q s.
Proof.
  intros He Hok Hi HQ. destruct (ok_files _ _ Hok i f Hi) as [(Hh & Hlen & _) _].
  unfold start_connect. runs_steps. eapply runs_follow; [done|]. runs_steps.
  destruct (env_file _ He) as (l & u & Hg). rewrite <- Hh in Hg. eapply runs_Host_serv; [done|].
  destruct (getaddrinfo_entries _ _ _ _ _ Hg) as [Hne _]. destruct l as [|ai l]; [done|].
  runs_steps. eapply runs_follow; [done|]. runs_steps. apply runs_Socket; [apply Hok|by eapply open_few|]. intros fd Hfd Hk.
  destruct (env_fd _ He (calls s) (ai_family ai) (ai_socktype ai) (ai_protocol ai) (ok_hist _ _ Hok)) as [Hlt Hnew]; [lia|].
  rewrite <- Hk in Hlt, Hnew. destruct (HQ _ _ _ _ Hfd Hk Hlt Hnew) as [HQ1 HQ2].
  runs_steps. apply runs_Fcntl. runs_steps. apply runs_Fcntl. runs_steps.
  match goal with |- context [w_connect ?s' fd ?a] => destruct (w_connect s' fd a) eqn:Ec end;
    [..|apply runs_exit; intros [? ? ? Hy]; by apply Hy in Ec].
  - apply (runs_write_get_cmd i (File (f_name f) (f_host f) fd (f_flags f))); [|done|done|exact HQ2]. cbn. apply list_lookup_insert_eq. by apply lookup_lt_Some in Hi.
  - by apply runs_under_way.
Qed.

Definition count_start (s : web) : web := set_counts (nconn s + 1) (nlefttoconn s - 1) (nlefttoread s) s.

(** A file is taken up. *)
Lemma started_moves host i fd a b c f s :
  web_ok host s -> nconn s < maxnconn -> files s !! i = Some f -> f_flags f = 0 ->
  0 <= fd -> fd = k_socket (calls s) a b c -> fd < Z.of_nat FD_SETSIZE -> fd ∉ open_fds (calls s) ->
  moves host i f (File (f_name f) (f_host f) fd F_CONNECTING) s
    (count_start (under_way i fd f (started i fd a b c f s))) /\
  moves host i f (File (f_name f) (f_host f) fd F_READING) s
    (count_start (asked i (File (f_name f) (f_host f) fd (f_flags f)) (started i fd a b c f s))).
Proof.
  intros Hok Hmax Hi Hf0 Hfd Hk Hlt Hnew. destruct (ok_files _ _ Hok i f Hi) as [(Hh & Hlen & _) Hst].
  unfold file_story in Hst. rewrite Hf0 in Hst. cbn in Hst.
  assert (Hhist : history (calls s ++ [CSocket a b c fd])) by (apply history_step; [by destruct Hok|done]).
  assert (live f = false /\ connecting f = false) as [Hl Hc] by by unfold live, connecting; rewrite Hf0.
  pose proof (ok_busy _ _ Hok) as Hbusy. pose proof (ok_within _ _ Hok) as Hwithin.
  split; split; cbn; unfold is_waiting, is_open, is_left; rewrite ?Hl, ?Hc, ?Hf0, ?list_insert_insert_eq; cbn;
    rewrite ?open_fds_socket by done; try done; try lia; try (by auto); try (clear; set_solver).
  - split; [unfold file_ok; cbn; naive_solver|]. unfold file_story. cbn. rewrite story_own, Hst; [done|]. by apply bool_decide_eq_true.
  - intros j Hj. apply story_other. by apply bool_decide_eq_false.
  - intros _. destruct (Z.ltb_spec (maxfd s) fd); lia.
  - destruct (Z.ltb_spec (maxfd s) fd); lia.
  - repeat apply goes_on_snoc; [apply goes_on_refl|done..].
  - rewrite !busy_snoc. by rewrite Hbusy.
  - by repeat apply within_snoc; rewrite ?busy_snoc, <- ?Hbusy; try lia.
  - split; [unfold file_ok; cbn; naive_solver|]. unfold file_story. cbn. exists []. split; [constructor|].
    rewrite !story_own, Hst; [done|by apply bool_decide_eq_true..].
  - intros j Hj. rewrite !story_other; [done|by apply bool_decide_eq_false..].
  - intros _. destruct (Z.ltb_spec (maxfd s) fd); lia.
  - destruct (Z.ltb_spec (maxfd s) fd); lia.
  - repeat apply goes_on_snoc; [apply goes_on_refl|done..].
  - rewrite !busy_snoc. by rewrite Hbusy.
  - by repeat apply within_snoc; rewrite ?busy_snoc, <- ?Hbusy; try lia.
Qed.

(** What every part of a turn keeps: the invariant, the files, and a limit on the
    connections; the work left does not grow. *)
Record forth (host : buf) (s s' : web) : Prop := {
  fo_ok : web_ok host s';
  fo_names : names s' = names s;
  fo_lag : lag s' <= lag s;
  fo_log : goes_on (log s) (log s');
}.

Lemma forth_refl host s : web_ok host s -> forth host s s.
Proof. split; [done..|apply goes_on_refl]. Qed.
Lemma forth_trans host s1 s2 s3 : forth host s1 s2 -> forth host s2 s3 -> forth host s1 s3.
Proof. intros [_ N1 L1 G1] [H N2 L2 G2]. split; [done|congruence|lia|by eapply goes_on_trans]. Qed.

Lemma moves_forth host i f f' s s' :
  web_ok host s -> files s !! i = Some f -> moves host i f f' s s' -> f_name f' = f_name f ->
  lag s' <= lag s -> forth host s s'.
Proof.
  intros Hok Hi Hm Hn Hl. split; [by eapply moves_ok| |done|apply Hm].
  unfold names. rewrite (mv_files _ _ _ _ _ _ Hm). by eapply moves_names.
Qed.

Lemma find_unstarted_Some l i : find_unstarted l = Some i -> exists f, l !! i = Some f /\ f_flags f = 0.
Proof.
  revert i. induction l as [|f l IH]; intros i; cbn; [done|]. destruct (Z.eqb_spec (f_flags f) 0).
  - intros [= <-]. by exists f.
  - destruct (find_unstarted l) as [j|]; [|done]. intros [= <-]. by apply IH.
Qed.
Lemma find_unstarted_None l : find_unstarted l = None -> sum_list_with is_waiting l = O.
Proof.
  induction l as [|f l IH]; cbn; [done|]. unfold is_waiting at 1. destruct (Z.eqb_spec (f_flags f) 0); [done|].
  destruct (find_unstarted l); [done|]. auto.
Qed.

(** One connection is started. *)
Lemma runs_start_one host i f s :
  web_env host -> web_ok host s -> nconn s < maxnconn -> files s !! i = Some f -> f_flags f = 0 ->
  runs (start_connect i) (fun _ s' => forth host s (count_start s') /\ nreads (log s') = nreads (log s) /\
    nconn s' = nconn s /\ nlefttoconn s' = nlefttoconn s /\ nlefttoread s' = nlefttoread s) s.
Proof.
  intros He Hok Hmax Hi Hf. eapply runs_start_connect; [done..|]. intros a b c fd Hfd Hk Hlt Hnew.
  destruct (started_moves host i fd a b c f s Hok Hmax Hi Hf Hfd Hk Hlt Hnew) as [M1 M2].
  assert (to_go f = 2%nat) as H2 by by unfold to_go; rewrite Hf.
  split; (split; [|cbn; rewrite ?nreads_snoc; cbn; split_and!; lia]).
  - eapply moves_forth; [done..|]. erewrite lag_moves; [|done|apply M1]. cbn. rewrite H2, !nreads_snoc. cbn. lia.
  - eapply moves_forth; [done..|]. erewrite lag_moves; [|done|apply M2]. cbn. rewrite H2, !nreads_snoc. cbn. lia.
Qed.

(** The inner loop starts as many connections as are allowed and wanted. *)
Lemma runs_start_conns host fuel s :
  web_env host -> web_ok host s -> (sum_list_with is_waiting (files s) <= fuel)%nat -> nconn s <= Z.max 0 maxnconn ->
  runs (start_conns fuel maxnconn) (fun _ s' => forth host s s' /\ nreads (log s') = nreads (log s) /\
    nlefttoread s' = nlefttoread s /\ nconn s' <= Z.max 0 maxnconn /\ (maxnconn <= nconn s' \/ nlefttoconn s' = 0)) s.
Proof.
  intros He. revert s. induction fuel as [|fuel IH]; intros s Hok Hfuel Hmax; cbn [start_conns]; runs_steps;
    pose proof (ok_waiting _ _ Hok) as Hw;
    destruct (Z.ltb_spec (nconn s) maxnconn), (Z.ltb_spec 0 (nlefttoconn s)); cbn [andb]; try lia;
    try (runs_steps; split_and!; [by apply forth_refl|done|done|done|lia]).
  destruct (find_unstarted (files s)) as [i|] eqn:E.
  2: { apply find_unstarted_None in E. lia. }
  apply find_unstarted_Some in E as (f & Hi & Hf). runs_steps.
  eapply runs_mono; [by eapply runs_start_one|]. intros [] s1 (Hfo & Hr & Hn & Hc & Hlr). cbn beta. runs_steps.
  eapply runs_mono.
  - apply IH; [apply Hfo| |unfold set_counts; cbn; lia].
    pose proof (ok_waiting _ _ (fo_ok _ _ _ Hfo)) as H1. unfold count_start in H1. cbn in H1 |- *. lia.
  - intros [] s2 (Hf2 & Hr2 & Hl2 & Hn2 & Hd). split_and!; [by eapply forth_trans|by etrans|by etrans|done|done].
Qed.

(** ** After Select *)

Definition ready_file (rs ws : gset Z) (f : file) : Prop :=
  live f = true /\ (f_fd f ∈ rs \/ (connecting f = true /\ f_fd f ∈ ws)).

(** The three ways a file moves after [Select]. *)
Definition noted (e : bool) (i : nat) (s : web) : web := if e then set_log (log s ++ [EFailed i]) s else s.
Definition finished (i : nat) (f : file) (s : web) : web :=
  Web (<[i := File (f_name f) (f_host f) (f_fd f) F_DONE]> (files s)) (nconn s - 1) (nlefttoconn s) (nlefttoread s - 1)
    (maxfd s) (rset s ∖ {[f_fd f]}) (wset s) (calls s ++ [CClose (f_fd f)]) ((log s ++ [ERead i []]) ++ [EClose i (f_fd f)]).

Lemma noted_fields e i s :
  files (noted e i s) = files s /\ calls (noted e i s) = calls s /\ rset (noted e i s) = rset s /\
  wset (noted e i s) = wset s /\ maxfd (noted e i s) = maxfd s /\ nconn (noted e i s) = nconn s /\
  nlefttoconn (noted e i s) = nlefttoconn s /\ nlefttoread (noted e i s) = nlefttoread s /\
  (forall j, story j (log (noted e i s)) = story j (log s)) /\ nreads (log (noted e i s)) = nreads (log s) /\
  busy (log (noted e i s)) = busy (log s) /\ (within maxnconn (log s) -> busy (log s) <= maxnconn -> within maxnconn (log (noted e i s))) /\
  goes_on (log s) (log (noted e i s)).
Proof.
  destruct e; [|split_and!; (done || apply goes_on_refl)]. split_and!; try done; cbn.
  - intros j. by apply story_other.
  - rewrite nreads_snoc. cbn. lia.
  - by rewrite busy_snoc.
  - intros H1 H2. apply within_snoc; [done|]. by rewrite busy_snoc.
  - apply goes_on_snoc; [apply goes_on_refl|done].
Qed.

(** The end of the log is a point of it. *)
Lemma within_now host s : web_ok host s -> busy (log s) <= maxnconn.
Proof. intros H. eapply (ok_within _ _ H _ []). by rewrite app_nil_r. Qed.

Lemma live_fds s i f : files s !! i = Some f -> live f = true -> fds live (files s) (f_fd f).
Proof. by exists i, f. Qed.

Lemma asked_moves host i f e s :
  web_ok host s -> files s !! i = Some f -> f_flags f = F_CONNECTING ->
  moves host i f (File (f_name f) (f_host f) (f_fd f) F_READING) s
    (asked i f (set_wset (wset s ∖ {[f_fd f]}) (noted e i s))).
Proof.
  intros Hok Hi Hf. destruct (ok_files _ _ Hok i f Hi) as [(Hh & Hlen & _) Hst].
  unfold file_story in Hst. rewrite Hf in Hst. cbn in Hst.
  assert (live f = true /\ connecting f = true) as [Hl Hc] by by unfold live, connecting; rewrite Hf.
  pose proof (live_fds _ _ _ Hi Hl) as Hlf. destruct (ok_range _ _ Hok _ Hlf) as [Hrg Hmx].
  pose proof (proj2 (ok_open _ _ Hok _) Hlf) as Hop. pose proof (proj2 (ok_rset _ _ Hok _) Hlf) as Hrs.
  destruct (noted_fields e i s) as (E1 & E2 & E3 & E4 & E5 & E6 & E7 & E8 & E9 & _ & E11 & E12 & E13).
  pose proof (ok_busy _ _ Hok) as Hbusy. pose proof (ok_within _ _ Hok) as Hwithin. pose proof (within_now _ _ Hok) as Hnow.
  split; cbn; rewrite ?E1, ?E2, ?E3, ?E4, ?E5, ?E6, ?E7, ?E8; unfold is_waiting, is_open, is_left;
    rewrite ?Hl, ?Hc, ?Hf; cbn; try done; try lia; try (by auto).
  - split; [unfold file_ok; cbn; naive_solver|]. exists []. split; [constructor|]. cbn.
    rewrite story_own, E9, Hst; [done|by apply bool_decide_eq_true].
  - intros j Hj. rewrite story_other, E9; [done|by apply bool_decide_eq_false].
  - by destruct Hok.
  - intros _. destruct (Z.ltb_spec (maxfd s) (f_fd f)); lia.
  - destruct (Z.ltb_spec (maxfd s) (f_fd f)); lia.
  - intros fd. destruct (decide (fd = f_fd f)) as [->|]; naive_solver.
  - intros fd. rewrite elem_of_union, elem_of_singleton. destruct (decide (fd = f_fd f)) as [->|]; naive_solver.
  - intros fd. rewrite elem_of_difference, elem_of_singleton. naive_solver.
  - by apply goes_on_snoc.
  - by rewrite busy_snoc, E11.
  - apply within_snoc; [by apply E12|]. by rewrite busy_snoc, E11.
Qed.

Lemma finished_moves host i f s :
  wrappers_succeed -> web_ok host s -> files s !! i = Some f -> f_flags f = F_READING ->
  moves host i f (File (f_name f) (f_host f) (f_fd f) F_DONE) s (finished i f s).
Proof.
  intros Hw Hok Hi Hf. destruct (ok_files _ _ Hok i f Hi) as [(Hh & Hlen & _) Hst].
  unfold file_story in Hst. rewrite Hf in Hst. cbn in Hst. destruct Hst as (bs & Hbs & Hst).
  assert (live f = true /\ connecting f = false) as [Hl Hc] by by unfold live, connecting; rewrite Hf.
  split; cbn; rewrite ?open_fds_close; unfold is_waiting, is_open, is_left;
    rewrite ?Hl, ?Hc, ?Hf; cbn; try done; try lia.
  - split; [unfold file_ok; cbn; naive_solver|]. exists bs. split; [done|]. cbn.
    rewrite !story_own, Hst by (by apply bool_decide_eq_true). by rewrite app_nil_r, <- !app_assoc.
  - intros j Hj. rewrite !story_other; [done|by apply bool_decide_eq_false..].
  - apply history_step; [by destruct Hok|]. apply Hw.
  - intros fd. rewrite list_elem_of_filter. naive_solver.
  - intros fd. rewrite elem_of_difference, elem_of_singleton. naive_solver.
  - intros fd. naive_solver.
  - repeat apply goes_on_snoc; [apply goes_on_refl|done..].
  - rewrite !busy_snoc, <- (ok_busy _ _ Hok). lia.
  - pose proof (within_now _ _ Hok). repeat apply within_snoc; [by destruct Hok|rewrite ?busy_snoc; lia..].
Qed.

Lemma read_moves host i f b s :
  web_ok host s -> files s !! i = Some f -> f_flags f = F_READING -> b <> [] ->
  moves host i f f s (set_log (log s ++ [ERead i b]) s).
Proof.
  intros Hok Hi Hf Hb. destruct (ok_files _ _ Hok i f Hi) as [Hfo Hst].
  unfold file_story in Hst. rewrite Hf in Hst. cbn in Hst. destruct Hst as (bs & Hbs & Hst).
  assert (live f = true /\ connecting f = false) as [Hl Hc] by by unfold live, connecting; rewrite Hf.
  pose proof (live_fds _ _ _ Hi Hl) as Hlf. pose proof (ok_range _ _ Hok _ Hlf) as Hrg.
  pose proof (proj2 (ok_open _ _ Hok _) Hlf) as Hop. pose proof (proj2 (ok_rset _ _ Hok _) Hlf) as Hrs.
  split; cbn; rewrite ?Hl, ?Hc; try done; try lia.
  - by rewrite list_insert_id.
  - split; [done|]. unfold file_story. rewrite Hf. cbn. exists (bs ++ [b]). split.
    + apply Forall_app. split; [done|]. by constructor.
    + rewrite story_own, Hst by (by apply bool_decide_eq_true). rewrite fmap_app, !app_nil_r. done.
  - intros j Hj. apply story_other. by apply bool_decide_eq_false.
  - by destruct Hok.
  - intros fd. destruct (decide (fd = f_fd f)) as [->|]; naive_solver.
  - intros fd. destruct (decide (fd = f_fd f)) as [->|]; naive_solver.
  - intros fd. naive_solver.
  - apply goes_on_snoc; [apply goes_on_refl|done].
  - rewrite busy_snoc, <- (ok_busy _ _ Hok). lia.
  - apply within_snoc; [by destruct Hok|]. rewrite busy_snoc. pose proof (within_now _ _ Hok). lia.
Qed.

(** Reading data is possible at most [D] times. *)
Definition data_bound (D : nat) : Prop :=
  forall s fd b, w_read s fd = Some b -> b <> [] -> (nreads (log s) < D)%nat.

(** What one file, and then all of them, do after [Select]. *)
Definition served (D : nat) (host : buf) (s s' : web) : Prop :=
  forth host s s' /\ nconn s' <= nconn s /\ ((nreads (log s) <= D)%nat -> (nreads (log s') <= D)%nat).

Lemma served_refl D host s : web_ok host s -> served D host s s.
Proof. intros H. split; [by apply forth_refl|]. split; [lia|done]. Qed.
Lemma served_trans D host s1 s2 s3 : served D host s1 s2 -> served D host s2 s3 -> served D host s1 s3.
Proof. intros (F1 & N1 & R1) (F2 & N2 & R2). split; [by eapply forth_trans|]. split; [lia|auto]. Qed.

Lemma runs_FD_ISSET fd x (Q : bool -> web -> Prop) s :
  0 <= fd < Z.of_nat FD_SETSIZE -> Q (bool_decide (fd ∈ x)) s -> runs (FD_ISSET fd x) Q s.
Proof. intros H HQ. unfold FD_ISSET. runs_steps. apply runs_in_fd_set; [done|]. by runs_steps. Qed.

(** A connection is made, or has failed: the request is written. *)
Lemma runs_connected D host i f e s :
  web_ok host s -> files s !! i = Some f -> f_flags f = F_CONNECTING ->
  runs ((if (e : bool) then say (EFailed i) else mret tt);; clear_w (f_fd f);; write_get_cmd i)
    (fun _ s' => served D host s s' /\ (forall j, j <> i -> files s' !! j = files s !! j) /\ lag s' < lag s) s.
Proof.
  intros Hok Hi Hf. pose proof (asked_moves host i f e s Hok Hi Hf) as Hm.
  destruct (ok_files _ _ Hok i f Hi) as [(_ & Hlen & _) _].
  assert (live f = true) as Hl by by unfold live; rewrite Hf.
  destruct (ok_range _ _ Hok _ (live_fds _ _ _ Hi Hl)) as [Hrg _].
  destruct (noted_fields e i s) as (E1 & _ & _ & E4 & _ & E6 & _ & _ & _ & E10 & _).
  assert (Hlag : lag (asked i f (set_wset (wset s ∖ {[f_fd f]}) (noted e i s))) = lag s - 1).
  { erewrite lag_moves; [|done|apply Hm]. cbn. rewrite nreads_snoc, E10. unfold to_go at 1. rewrite Hf. cbn. lia. }
  apply runs_bind.
  assert (runs (if e then say (EFailed i) else mret tt) (fun _ s' => s' = noted e i s) s) as Hn by by destruct e.
  eapply runs_mono; [exact Hn|]. intros [] s1 ->. cbn beta. runs_steps. unfold clear_w. runs_steps.
  apply runs_in_fd_set; [done|]. runs_steps. rewrite E4.
  eapply runs_write_get_cmd; [cbn; by rewrite E1|done|done|].
  split; [split; [|split]|split].
  - eapply moves_forth; [done..|]. lia.
  - cbn. lia.
  - cbn. rewrite nreads_snoc, E10. cbn. lia.
  - intros j Hj. cbn. rewrite E1. by apply list_lookup_insert_ne.
  - lia.
Qed.

(** Data or the end of it. *)
Lemma runs_reading D host i f s :
  data_bound D -> wrappers_succeed -> web_ok host s -> files s !! i = Some f -> f_flags f = F_READING ->
  runs (b ← Read (ERead i) (f_fd f);
        match b with
        | [] => net (Close (f_fd f));; say (EClose i (f_fd f));;
                set_file i (File (f_name f) (f_host f) (f_fd f) F_DONE);; clear_r (f_fd f);;
                modify (fun s => set_counts (nconn s - 1) (nlefttoconn s) (nlefttoread s - 1) s)
        | _ => mret tt
        end)
    (fun _ s' => served D host s s' /\ (forall j, j <> i -> files s' !! j = files s !! j) /\ lag s' < lag s) s.
Proof.
  intros HD Hw Hok Hi Hf. assert (live f = true) as Hl by by unfold live; rewrite Hf.
  destruct (ok_range _ _ Hok _ (live_fds _ _ _ Hi Hl)) as [Hrg _].
  unfold Read. runs_steps. destruct (w_read s (f_fd f)) as [d|] eqn:Er;
    [|apply runs_exit; intros [? ? ? ? ? ? Hy]; by apply Hy in Er]. runs_steps.
  destruct (take MAXLINE d) as [|c b] eqn:Et.
  - pose proof (finished_moves host i f s Hw Hok Hi Hf) as Hm.
    assert (Hlag : lag (finished i f s) = lag s - 1).
    { erewrite lag_moves; [|done|apply Hm]. cbn. rewrite !nreads_snoc. unfold to_go at 1. rewrite Hf. cbn. lia. }
    runs_steps. apply runs_Close; [done|]. runs_steps. unfold clear_r. runs_steps.
    apply runs_in_fd_set; [done|]. runs_steps. change (set_counts _ _ _ _) with (finished i f s).
    split; [split; [|split]|split].
    + eapply moves_forth; [done..|]. lia.
    + cbn. lia.
    + cbn. rewrite !nreads_snoc. cbn. lia.
    + intros j Hj. by apply list_lookup_insert_ne.
    + lia.
  - pose proof (read_moves host i f (c :: b) s Hok Hi Hf) as Hm. specialize (Hm ltac:(done)).
    assert (Hlag : lag (set_log (log s ++ [ERead i (c :: b)]) s) = lag s - 1).
    { erewrite lag_moves; [|done|apply Hm]. cbn. rewrite nreads_snoc. cbn. lia. }
    runs_steps. split; [split; [|split]|split]; try done.
    + eapply moves_forth; [done..|]. lia.
    + intros Hle. cbn. rewrite nreads_snoc. cbn. specialize (HD s _ d Er). assert (d <> []) by (by intros ->). 
      specialize (HD ltac:(done)). lia.
    + lia.
Qed.

Lemma runs_serve_file D host rs ws i f s :
  data_bound D -> wrappers_succeed -> web_ok host s -> files s !! i = Some f ->
  runs (serve_file rs ws i) (fun _ s' => served D host s s' /\ (forall j, j <> i -> files s' !! j = files s !! j) /\
    (ready_file rs ws f -> lag s' < lag s)) s.
Proof.
  intros HD Hw Hok Hi. destruct (ok_files _ _ Hok i f Hi) as [(_ & _ & Hfl) _].
  assert (forall m, runs m (fun _ s' => served D host s s' /\ (forall j, j <> i -> files s' !! j = files s !! j) /\ lag s' < lag s) s ->
    runs m (fun (_ : unit) s' => served D host s s' /\ (forall j, j <> i -> files s' !! j = files s !! j) /\ (ready_file rs ws f -> lag s' < lag s)) s)
    as Hweak by (intros m Hm; eapply runs_mono; [exact Hm|]; naive_solver).
  assert (forall m : M web unit, m s = Ok tt s -> ~ ready_file rs ws f ->
    runs m (fun (_ : unit) s' => served D host s s' /\ (forall j, j <> i -> files s' !! j = files s !! j) /\ (ready_file rs ws f -> lag s' < lag s)) s)
    as Hskip by (intros m Hm Hn; unfold runs; rewrite Hm; split_and!; [by apply served_refl|done|done]).
  unfold serve_file. runs_steps. eapply runs_follow; [done|]. runs_steps.
  destruct (decide (live f = true)) as [Hl|Hl].
  2: { assert ((f_flags f =? 0) || has (f_flags f) F_DONE = true) as ->.
       { unfold live in Hl. by destruct Hfl as [-> |[E|[E| ->]]]; try (rewrite E in Hl; done). }
       apply Hskip; [done|]. by intros [? _]. }
  destruct (ok_range _ _ Hok _ (live_fds _ _ _ Hi Hl)) as [Hrg _].
  unfold live in Hl. destruct (Z.eqb_spec (f_flags f) F_CONNECTING) as [Hf|_].
  - rewrite Hf. change ((F_CONNECTING =? 0) || has F_CONNECTING F_DONE) with false. cbv iota. runs_steps.
    apply runs_FD_ISSET; [done|]. runs_steps. apply runs_FD_ISSET; [done|].
    change (has F_CONNECTING F_CONNECTING) with true. change (has F_CONNECTING F_READING) with false. cbn [andb].
    destruct (bool_decide (f_fd f ∈ rs) || bool_decide (f_fd f ∈ ws)) eqn:E; [by apply Hweak, runs_connected|].
    apply orb_false_iff in E as [E1%bool_decide_eq_false E2%bool_decide_eq_false].
    apply Hskip; [done|]. intros [_ H]. naive_solver.
  - destruct (Z.eqb_spec (f_flags f) F_READING) as [Hf|]; [|done].
    rewrite Hf. change ((F_READING =? 0) || has F_READING F_DONE) with false. cbv iota. runs_steps.
    apply runs_FD_ISSET; [done|]. runs_steps. apply runs_FD_ISSET; [done|].
    change (has F_READING F_CONNECTING) with false. change (has F_READING F_READING) with true. cbn [andb].
    destruct (bool_decide (f_fd f ∈ rs)) eqn:E; [by apply Hweak, runs_reading|]. apply bool_decide_eq_false in E.
    apply Hskip; [done|]. intros [_ [?|[Hc _]]]; [done|]. unfold connecting in Hc. by rewrite Hf in Hc.
Qed.

(** The three counters agree. *)
Lemma counters_agree host s : web_ok host s -> nlefttoread s = nlefttoconn s + nconn s.
Proof.
  intros Hok. rewrite (ok_left _ _ Hok), (ok_waiting _ _ Hok), (ok_nconn _ _ Hok).
  assert (forall i f, files s !! i = Some f -> is_left f = (is_waiting f + is_open f)%nat) as H.
  { intros i f Hi. destruct (ok_files _ _ Hok i f Hi) as [(_ & _ & Hfl) _]. unfold is_left, is_waiting, is_open, live.
    by destruct Hfl as [-> |[-> |[-> | ->]]]. }
  clear Hok. induction (files s) as [|f l IH]; cbn; [done|].
  rewrite (H O f eq_refl). specialize (IH (fun i => H (S i))). lia.
Qed.

Lemma open_some l : (0 < sum_list_with is_open l)%nat -> exists fd, fds live l fd.
Proof.
  induction l as [|f l IH]; cbn; [lia|]. unfold is_open at 1. destruct (live f) eqn:E.
  - intros _. by exists (f_fd f), O, f.
  - intros (fd & i & g & H)%IH. by exists fd, (S i), g.
Qed.

Lemma forth_length host s s' : forth host s s' -> length (files s') = length (files s).
Proof. intros H. apply fo_names, (f_equal length) in H. unfold names in H. by rewrite !length_fmap in H. Qed.

(** What [Select] reports is a file that is ready. *)
Lemma select_ready host s rs ws fd :
  web_ok host s -> (fd ∈ rs /\ fd ∈ rset s) \/ (fd ∈ ws /\ fd ∈ wset s) ->
  exists i f, files s !! i = Some f /\
    ready_file (filter (fun x => x <= maxfd s) (rs ∩ rset s)) (filter (fun x => x <= maxfd s) (ws ∩ wset s)) f.
Proof.
  intros Hok Hr. assert (fds live (files s) fd) as Hl.
  { destruct Hr as [[_ H]|[_ H]]; [by apply (ok_rset _ _ Hok)|]. apply (ok_wset _ _ Hok) in H as (i & f & Hi & Hc & Hf).
    exists i, f. split_and!; [done|by apply connecting_live|done]. }
  destruct (ok_range _ _ Hok fd Hl) as [_ Hm]. destruct Hr as [[H1 H2]|[H1 H2]].
  - destruct Hl as (i & f & Hi & Hlf & <-). exists i, f. split; [done|]. split; [done|]. left.
    rewrite elem_of_filter, elem_of_intersection. done.
  - pose proof H2 as H3. apply (ok_wset _ _ Hok) in H3 as (i & f & Hi & Hc & <-). exists i, f. split; [done|].
    split; [by apply connecting_live|]. right. rewrite elem_of_filter, elem_of_intersection. done.
Qed.

Lemma runs_serve_files D host rs ws todo s :
  data_bound D -> wrappers_succeed -> web_ok host s -> NoDup todo -> Forall (fun i => (i < length (files s))%nat) todo ->
  runs (serve_files rs ws todo) (fun _ s' => served D host s s' /\
    ((exists i f, i ∈ todo /\ files s !! i = Some f /\ ready_file rs ws f) -> lag s' < lag s)) s.
Proof.
  intros HD Hw. revert s. induction todo as [|i todo IH]; intros s Hok Hnd Hlt; cbn [serve_files]; runs_steps.
  { split; [by apply served_refl|]. intros (i & f & Hi & _). by apply not_elem_of_nil in Hi. }
  apply NoDup_cons in Hnd as [Hni Hnd]. apply Forall_cons in Hlt as [Hi Hlt].
  destruct (lookup_lt_is_Some_2 _ _ Hi) as [f Hf].
  eapply runs_mono; [by apply (runs_serve_file D host rs ws i f s)|]. intros [] s1 (Hs1 & Hsame & Hr1). cbn beta.
  pose proof (forth_length _ _ _ (proj1 Hs1)) as Hlen.
  eapply runs_mono; [apply IH; [apply Hs1|done|by rewrite Hlen]|]. intros [] s2 (Hs2 & Hr2). cbn beta.
  split; [by eapply served_trans|]. intros (j & g & Hj & Hg & Hrd).
  pose proof (fo_lag _ _ _ (proj1 Hs1)). pose proof (fo_lag _ _ _ (proj1 Hs2)).
  apply elem_of_cons in Hj as [->|Hj].
  - rewrite Hf in Hg. injection Hg as ->. specialize (Hr1 Hrd). lia.
  - assert (lag s2 < lag s1); [|lia]. apply Hr2. exists j, g. split_and!; [done| |done]. rewrite Hsame; [done|]. by intros ->.
Qed.

(** [Select] returns only when a descriptor it was asked about is ready. *)
Definition select_wakes : Prop :=
  forall s rs ws, w_select s = Some (rs, ws) -> (exists fd, fd ∈ rset s) ->
    exists fd, (fd ∈ rs /\ fd ∈ rset s) \/ (fd ∈ ws /\ fd ∈ wset s).

(** One turn: connections up to the limit, and something gets done. *)
Lemma runs_web_turn D host s :
  web_env host -> data_bound D -> select_wakes -> 0 < maxnconn -> web_ok host s ->
  nconn s <= maxnconn -> (nreads (log s) <= D)%nat -> 0 < nlefttoread s ->
  runs (web_turn maxnconn) (fun _ s' => forth host s s' /\ nconn s' <= maxnconn /\ (nreads (log s') <= D)%nat /\ lag s' < lag s) s.
Proof.
  intros He HD Hsel Hmax Hok Hn Hr Hleft. unfold web_turn. runs_steps.
  eapply runs_mono.
  { apply (runs_start_conns host (length (files s)) s He Hok); [|lia].
    clear. induction (files s) as [|f l IH]; cbn; [done|]. unfold is_waiting at 1. destruct (f_flags f =? 0); lia. }
  intros [] s1 (Hf1 & Hr1 & Hl1 & Hn1 & Hstop). cbn beta. pose proof (fo_ok _ _ _ Hf1) as Hok1.
  pose proof (forth_length _ _ _ Hf1) as Hlen.
  unfold Select. runs_steps. destruct (w_select s1) as [[rs ws]|] eqn:Es;
    [|apply runs_exit; intros [? ? ? ? Hy]; by apply Hy in Es]. runs_steps.
  set (rs' := filter _ (rs ∩ rset s1)). set (ws' := filter _ (ws ∩ wset s1)).
  eapply runs_mono.
  { apply (runs_serve_files D host rs' ws' (seq 0 (length (files s))) s1 HD (env_wrap _ He) Hok1 (NoDup_seq _ _)).
    apply Forall_forall. intros i Hi. apply elem_of_seq in Hi. lia. }
  intros [] s2 (Hs2 & Hprog). cbn beta.
  split; [by eapply forth_trans, Hs2|]. destruct Hs2 as (Hf2 & Hn2 & Hr2). split; [lia|]. split; [apply Hr2; lia|].
  pose proof (fo_lag _ _ _ Hf1). cut (lag s2 < lag s1); [lia|]. apply Hprog.
  assert (Hsome : exists fd, fds live (files s1) fd).
  { apply open_some. pose proof (ok_nconn _ _ Hok1). pose proof (counters_agree _ _ Hok1). lia. }
  destruct Hsome as [fd0 Hfd0]. destruct (Hsel s1 rs ws Es) as [fd Hfd]; [exists fd0; by apply (ok_rset _ _ Hok1)|].
  destruct (select_ready host s1 rs ws fd Hok1 Hfd) as (i & f & Hi & Hrd). exists i, f. split; [|done].
  apply elem_of_seq. apply lookup_lt_Some in Hi. lia.
Qed.

(** The loop ends when everything has been read. *)
Lemma runs_web_loop D host fuel s :
  web_env host -> data_bound D -> select_wakes -> 0 < maxnconn -> web_ok host s -> nconn s <= maxnconn ->
  (nreads (log s) <= D)%nat -> lag s + Z.of_nat D < Z.of_nat fuel ->
  runs (web_loop fuel maxnconn) (fun _ s' => web_ok host s' /\ names s' = names s /\ nlefttoread s' = 0 /\ goes_on (log s) (log s')) s.
Proof.
  intros He HD Hsel Hmax. revert s. induction fuel as [|fuel IH]; intros s Hok Hn Hr Hlag; cbn [web_loop]; runs_steps;
    pose proof (ok_left _ _ Hok) as Hleft; (destruct (Z.ltb_spec 0 (nlefttoread s)) as [Hlt|Hge];
    [|runs_steps; split_and!; [done|done|lia|apply goes_on_refl]]).
  { exfalso. unfold lag in Hlag. lia. }
  runs_steps. eapply runs_mono; [by apply (runs_web_turn D host)|].
  intros [] s1 ([Hok1 Hnm Hl1 Hg1] & Hn1 & Hr1 & Hlt1). cbn beta.
  eapply runs_mono; [apply IH; try done; lia|]. intros [] s2 (H1 & H2 & H3 & H4). split_and!; [done|congruence|done|by eapply goes_on_trans].
Qed.
End Invariant.

(** ** The home page *)

Section HomePage.
Context {ns : NameService} {k : SockKernel} {w : WebKernel}.

#[local] Arguments nreads : simpl never.
#[local] Arguments lag : simpl never.

Lemma runs_tcp_connect host (Q : Z -> web -> Prop) s :
  web_env host -> calls s = [] ->
  (forall fd tr, 0 <= fd -> history tr -> open_fds tr = [fd] -> Q fd (set_calls tr s)) ->
  runs (net (tcp_connect (Some host) (Some SERV))) Q s.
Proof.
  intros He Hc HQ. destruct (env_page _ He) as (l & u & Hg). pose proof (env_wrap _ He) as Hw.
  destruct (getaddrinfo_entries _ _ _ _ _ Hg) as [Hne _].
  change (tcp_connect (Some host) (Some SERV)) with (run_endpoint TcpConnect (Some host) (Some SERV)).
  unfold runs, net. rewrite Hc, run_endpoint_eq. erewrite first_entry_found by eassumption.
  destruct (try_entries_spec TcpConnect (use_of TcpConnect) l [] Hw (use_of_ok _ Hw) history_nil)
    as [(pre & ai & post & fd & bs & -> & Hp & Hfd & -> & Hh)|(bs & Hp & E & Hh)].
  - cbn [app]. apply HQ; [done|done|]. rewrite open_fds_app. change (concat bs) with ([] ++ concat bs).
    rewrite (refused_all_open TcpConnect pre bs []) by done. cbn. by rewrite (proj2 (Z.leb_le 0 fd) Hfd).
  - rewrite E. split; [done|]. intros [Hs Hd]. destruct l as [|ai l]; [done|]. revert E. cbn [try_entries use_of].
    unfold socket, connect, mbind, M_bind. rewrite (proj2 (Z.ltb_ge _ _)), Hd; [done|]. apply Hs; [apply history_nil|apply Nat.le_0_l].
Qed.

(** Reading the page keeps everything but the log. *)
Lemma runs_home_loop D fuel fd s :
  data_bound D -> (nreads (log s) <= D)%nat -> (D < nreads (log s) + fuel)%nat ->
  runs (home_loop fuel fd) (fun _ s' => exists bs, Forall (fun b => b <> []) bs /\
    s' = set_log (log s ++ (EHomeRead <$> bs) ++ [EHomeRead []]) s /\ (nreads (log s') <= D)%nat) s.
Proof.
  intros HD. revert s. induction fuel as [|fuel IH]; intros s Hr Hf; cbn [home_loop]; [lia|].
  unfold Read. runs_steps. destruct (w_read s fd) as [d|] eqn:Er;
    [|apply runs_exit; intros [? ? ? ? ? ? Hy]; by apply Hy in Er]. runs_steps.
  destruct (take MAXLINE d) as [|c b] eqn:Et.
  - runs_steps. exists []. split_and!; [constructor|done|]. cbn. rewrite nreads_snoc. cbn. lia.
  - assert (d <> []) as Hd by (by intros ->). specialize (HD s fd d Er Hd).
    assert (nreads (log s ++ [EHomeRead (c :: b)]) = S (nreads (log s))) as E by (rewrite nreads_snoc; cbn; lia).
    runs_steps. eapply runs_mono; [apply IH; cbn; lia|]. intros [] s' (bs & Hbs & -> & Hn). cbn in *.
    exists ((c :: b) :: bs). rewrite <- app_assoc in Hn |- *. split_and!; [by constructor|done|done].
Qed.

Lemma home_story l i : Forall (fun e => home_event e = true) l -> story i l = [].
Proof. induction 1 as [|[] l He Hl IH]; try done; unfold story in *; by rewrite filter_cons_False. Qed.
Lemma home_busy l l1 l2 : Forall (fun e => home_event e = true) l -> l = l1 ++ l2 -> busy l1 = 0.
Proof.
  intros Hl ->. apply Forall_app in Hl as [Hl _]. induction l1 as [|e l1 IH] using rev_ind; [done|].
  apply Forall_app in Hl as [H1 [H2 _]%Forall_cons]. rewrite busy_snoc. destruct e; (discriminate || by apply IH).
Qed.

(** The home page asked for and read up to the end of file, on a connection that is
    then closed. *)
Definition page_read (page : buf) (l : list event) : Prop :=
  exists fd bs, Forall (fun b => b <> []) bs /\
    l = EHomeGet fd (get_cmd page) :: (EHomeRead <$> bs) ++ [EHomeRead []; EHomeClose fd].

Lemma page_read_events page l : page_read page l -> Forall (fun e => home_event e = true) l.
Proof.
  intros (fd & bs & _ & ->). constructor; [done|]. apply Forall_app. split; [|by repeat constructor].
  by apply Forall_fmap, Forall_true.
Qed.

Lemma runs_home_page D fuel host page s :
  web_env host -> data_bound D -> (length (get_cmd page) < MAXLINE)%nat -> calls s = [] -> log s = [] -> (D < fuel)%nat ->
  runs (home_page fuel host page) (fun _ s' => files s' = files s /\ history (calls s') /\ open_fds (calls s') = [] /\
    page_read page (log s') /\ (nreads (log s') <= D)%nat) s.
Proof.
  intros He HD Hp Hc Hl Hf. unfold home_page. runs_steps. apply runs_tcp_connect with (host := host); [done..|].
  intros fd tr Hfd Hh Ho. runs_steps. apply runs_print_line; [done|]. runs_steps. apply runs_Write_all. runs_steps.
  eapply runs_mono; [apply (runs_home_loop D); [done|cbn [log set_log set_calls]; rewrite Hl, nreads_snoc; vm_compute (nreads []); cbn; lia..]|].
  intros [] s' (bs & Hbs & -> & Hn). cbn beta. runs_steps. apply runs_Close; [by destruct He|]. runs_steps. cbn in *. split_and!; [done| | | |].
  - apply history_step; [done|]. by apply (env_wrap _ He).
  - rewrite open_fds_close, Ho. rewrite filter_cons_False; [done|]. naive_solver.
  - exists fd, bs. split; [done|]. by rewrite Hl, <- !app_assoc.
  - rewrite nreads_snoc. cbn. lia.
Qed.
End HomePage.

(** ** Properties *)

(** What has happened when the program ends: first the home page, requested once and
    read up to the end of file; then for each of the files one connection, one
    request, and data read until the kernel reported the end of file, and only then
    the connection closed. *)
Definition fetched (maxnconn : Z) (page : buf) (wanted : list buf) (s : web) : Prop :=
  (exists lp, page_read page lp /\ goes_on lp (log s)) /\
  (forall i name, wanted !! i = Some name -> exists fd bs, Forall (fun b => b <> []) bs /\
     story i (log s) = EStart i fd :: EGet i fd (get_cmd name) :: (ERead i <$> bs) ++ [ERead i []; EClose i fd]) /\
  names s = wanted /\ open_fds (calls s) = [] /\ within maxnconn (log s).

Lemma finished_fetched {k : SockKernel} maxnconn host page lp s :
  page_read page lp -> goes_on lp (log s) ->
  web_ok maxnconn host s -> nlefttoread s = 0 -> fetched maxnconn page (names s) s.
Proof.
  intros Hlp Hgo Hok Hl. rewrite (ok_left _ _ _ Hok) in Hl.
  assert (forall i f, files s !! i = Some f -> f_flags f = F_DONE) as Hdone.
  { intros i f Hi. pose proof (sum_zero is_left (files s) ltac:(lia) i f Hi) as H. unfold is_left in H.
    by destruct (Z.eqb_spec (f_flags f) F_DONE). }
  split_and!; [by exists lp| |done| |apply Hok].
  - intros i name Hi. unfold names in Hi. rewrite list_lookup_fmap in Hi.
    destruct (files s !! i) as [f|] eqn:E; [|done]. injection Hi as <-.
    destruct (ok_files _ _ _ Hok i f E) as [_ Hst]. unfold file_story in Hst. rewrite (Hdone i f E) in Hst.
    destruct Hst as (bs & Hbs & ->). by exists (f_fd f), bs.
  - destruct (open_fds (calls s)) as [|fd l] eqn:E; [done|].
    assert (fd ∈ open_fds (calls s)) as (i & f & Hi & Hlv & _)%(ok_open _ _ _ Hok) by (rewrite E; left).
    unfold live in Hlv. by rewrite (Hdone i f Hi) in Hlv.
Qed.

(** Sums over files not yet taken up. *)
Lemma sum_new host (g : file -> nat) c l :
  (forall a, g (File a host 0 0) = c) -> sum_list_with g ((fun a => File a host 0 0) <$> l) = (length l * c)%nat.
Proof. intros H. induction l as [|a l IH]; cbn; [done|]. by rewrite H, IH. Qed.

(** The state in which the loop starts. *)
Lemma loop_start {k : SockKernel} maxnconn host wanted tr lg :
  0 < maxnconn -> (length wanted <= MAXFILES)%nat ->
  Forall (fun n => (length (get_cmd n) < MAXLINE)%nat) wanted -> history tr -> open_fds tr = [] ->
  Forall (fun e => home_event e = true) lg ->
  let n := Z.of_nat (length wanted) in
  web_ok maxnconn host (Web ((fun a => File a host 0 0) <$> wanted) 0 n n (-1) ∅ ∅ tr lg).
Proof.
  intros Hm Hle Hw Hh Ho Hl n.
  assert (forall P fd, (forall a, P (File a host 0 0) = false) -> ~ fds P ((fun a => File a host 0 0) <$> wanted) fd) as Hno.
  { intros P fd HP (i & f & Hi & Hf & _). rewrite list_lookup_fmap in Hi. destruct (wanted !! i); [|done].
    injection Hi as <-. by rewrite HP in Hf. }
  split; cbn; try done.
  - intros i f Hi. rewrite list_lookup_fmap in Hi. destruct (wanted !! i) as [a|] eqn:E; [|done]. injection Hi as <-.
    split; [|by apply home_story]. unfold file_ok. cbn. split_and!; [done| |by left]. by eapply Forall_lookup in Hw.
  - by rewrite length_fmap.
  - intros i j f g Hi _ Hf. exfalso. apply (Hno live (f_fd f)); [done|]. by exists i, f.
  - intros fd Hfd. exfalso. by eapply Hno, Hfd.
  - intros fd. rewrite Ho. split; [by intros ?%not_elem_of_nil|]. intros H. exfalso. by eapply Hno, H.
  - intros fd. split; [by intros ?%not_elem_of_empty|]. intros H. exfalso. by eapply Hno, H.
  - intros fd. split; [by intros ?%not_elem_of_empty|]. intros H. exfalso. by eapply Hno, H.
  - rewrite (sum_new _ _ 1%nat) by done. lia.
  - rewrite (sum_new _ _ 0%nat) by done. lia.
  - rewrite (sum_new _ _ 1%nat) by done. lia.
  - symmetry. eapply home_busy; [done|]. by rewrite app_nil_r.
  - intros l1 l2 E. rewrite (home_busy _ _ _ Hl E). lia.
Qed.

(** C31: the program asks for the home page once, reads it up to the end of file and
    closes its connection, and then fetches every file it is asked for, up to
    twenty: for each of them exactly one connection, one request with the name of
    the file, data read until the kernel reports the end of file, and then, and not
    before, the connection closed; at no
    time are more than [maxnconn] connections open, and none is left open.  It ends:
    40 turns and one for each piece of data are enough.  The array and its counters
    never disagree, and descriptor sets are never overrun.  Only a failing
    system call ends it early. *)
Theorem web_main_fetches {ns : NameService} {k : SockKernel} {w : WebKernel} D fuel prog conns host page file1 rest maxnconn :
  web_env host -> data_bound D -> select_wakes -> atoi (conns ++ [NUL]) = Def maxnconn -> 0 < maxnconn ->
  Forall (fun n => (length (get_cmd n) < MAXLINE)%nat) (page :: file1 :: rest) -> (2 * MAXFILES + D < fuel)%nat ->
  match web_main fuel (prog :: conns :: host :: page :: file1 :: rest) with
  | Ok _ s => fetched maxnconn page (take MAXFILES (file1 :: rest)) s
  | Aborted x => x = ErrExit /\ ~ all_succeed
  | Undef _ => False
  end.
Proof.
  intros He HD Hsel Hn Hpos Hlen Hfuel. apply Forall_cons in Hlen as [Hpage Hlen].
  apply (Forall_take _ MAXFILES) in Hlen. cbn [web_main]. set (s0 := web_init _ _).
  assert (Hs0 : files s0 = (fun a => File a host 0 0) <$> take MAXFILES (file1 :: rest)) by done.
  assert (calls s0 = [] /\ log s0 = []) as [Hc0 Hl0] by done.
  clearbody s0. set (wanted := take MAXFILES (file1 :: rest)) in *.
  assert (length wanted <= MAXFILES)%nat as Hle by (unfold wanted; rewrite length_take; lia). clearbody wanted.
  match goal with |- match ?m s0 with _ => _ end => enough (runs m (fun _ s => fetched maxnconn page wanted s) s0) as H end.
  { unfold runs in H. done. }
  runs_steps. eapply runs_lift; [done|]. runs_steps.
  eapply runs_mono; [apply (runs_home_page D); try done; lia|]. intros [] s1 (Hf & Hh & Ho & Hlp & Hr). cbn beta. runs_steps.
  pose proof (page_read_events _ _ Hlp) as Hl. rewrite Hf, Hs0, length_fmap.
  eapply runs_mono.
  - apply (runs_web_loop maxnconn D host); try done; [by apply loop_start|cbn; lia|]. unfold lag. cbn [files log].
    rewrite (sum_new _ _ 2%nat) by done. lia.
  - intros [] s (Hok & Hnm & Hz & Hg). replace wanted with (names s); [by eapply finished_fetched|].
    rewrite Hnm. unfold names. cbn. rewrite <- list_fmap_compose. apply list_fmap_id.
Qed.

(** A kernel that gives the first free descriptor, and a server that sends five
    pieces of data in all. *)
Definition first_fd (tr : list call) : Z :=
  default (-1) (head (filter (fun x => x ∉ open_fds tr) (seqZ 3 21))).
Definition demo_web_sock : SockKernel := {|
  k_socket := fun tr _ _ _ => first_fd tr;
  k_connect := fun _ _ _ => true;
  k_bind := fun _ _ _ => true;
  k_reuse := fun _ _ => true;
  k_listen := fun _ _ => true;
  k_close := fun _ _ => true |}.
Definition demo_web_kernel : WebKernel := {|
  w_fcntl := fun _ _ => true;
  w_connect := fun _ fd _ => if Z.even fd then Connected else InProgress;
  w_select := fun s => Some (rset s, ∅);
  w_error := fun _ fd => fd =? 5;
  w_write := fun _ _ => true;
  w_read := fun s _ => if (nreads (log s) <? 5)%nat then Some (chars "data") else Some [] |}.

Lemma first_fd_spec tr : 0 <= first_fd tr -> 3 <= first_fd tr < 24 /\ first_fd tr ∉ open_fds tr.
Proof.
  unfold first_fd. destruct (head _) as [x|] eqn:E; cbn; [|lia]. intros _.
  assert (x ∈ filter (fun x => x ∉ open_fds tr) (seqZ 3 21)) as H.
  { destruct (filter _ _); [done|]. injection E as ->. left. }
  apply list_elem_of_filter in H as [H1 H2%elem_of_seqZ]. split; [lia|done].
Qed.

Lemma first_fd_found tr : (length (open_fds tr) <= MAXFILES)%nat -> 0 <= first_fd tr.
Proof.
  intros Hlen. unfold first_fd. destruct (filter _ _) as [|x l] eqn:E; cbn.
  - exfalso. assert (seqZ 3 21 ⊆+ open_fds tr) as H%submseteq_length.
    { apply NoDup_submseteq; [apply NoDup_seqZ|]. intros x Hx. destruct (decide (x ∈ open_fds tr)); [done|].
      assert (x ∈ filter (fun x => x ∉ open_fds tr) (seqZ 3 21)) as Hf by by apply list_elem_of_filter.
      rewrite E in Hf. by apply not_elem_of_nil in Hf. }
    rewrite length_seqZ in H. unfold MAXFILES in Hlen. lia.
  - assert (x ∈ x :: l) as H by left. rewrite <- E in H. apply list_elem_of_filter in H as [_ H%elem_of_seqZ]. lia.
Qed.

Lemma demo_web_succeeds : @all_succeed demo_web_sock demo_web_kernel.
Proof.
  split; try done.
  - intros tr f t p _. apply first_fd_found.
  - intros s fd sa. unfold w_connect, demo_web_kernel. by destruct (Z.even fd).
  - intros s fd. unfold w_read, demo_web_kernel. by destruct (nreads (log s) <? 5)%nat.
Qed.

Lemma demo_web_env : @web_env demo_ns demo_web_sock (chars "vm1").
Proof.
  split; [by intros|intros tr f t p _ H; apply first_fd_spec in H; unfold FD_SETSIZE; split; [|apply H]|..].
  - unfold k_socket, demo_web_sock in *. lia.
  - eexists _, _. vm_compute. reflexivity.
  - eexists _, _. vm_compute. reflexivity.
Qed.

Lemma demo_web_data : @data_bound demo_web_kernel 5.
Proof.
  intros s fd b. unfold w_read, demo_web_kernel. destruct (Nat.ltb_spec (nreads (log s)) 5); [done|]. by intros [= <-].
Qed.
Lemma demo_web_wakes : @select_wakes demo_web_kernel.
Proof. intros s rs ws [= <- <-] [fd Hfd]. exists fd. by left. Qed.

Lemma web_main_fetches_witness :
  exists s, @web_main demo_ns demo_web_sock demo_web_kernel 46
      [chars "web"; chars "2"; chars "vm1"; chars "/"; chars "a.gif"; chars "b.gif"; chars "c.gif"] = Ok tt s /\
    fetched 2 (chars "/") [chars "a.gif"; chars "b.gif"; chars "c.gif"] s.
Proof.
  pose proof (@web_main_fetches demo_ns demo_web_sock demo_web_kernel 5 46 (chars "web") (chars "2") (chars "vm1") (chars "/")
                (chars "a.gif") [chars "b.gif"; chars "c.gif"] 2 demo_web_env demo_web_data demo_web_wakes eq_refl eq_refl) as H.
  assert (Forall (fun n => (length (get_cmd n) < MAXLINE)%nat) [chars "/"; chars "a.gif"; chars "b.gif"; chars "c.gif"]) as Hl.
  { rewrite !Forall_cons. split_and!; [..|apply Forall_nil_2]; apply Nat.ltb_lt; vm_compute; reflexivity. }
  specialize (H Hl ltac:(unfold MAXFILES; lia)). revert H.
  generalize (@web_main demo_ns demo_web_sock demo_web_kernel 46
    [chars "web"; chars "2"; chars "vm1"; chars "/"; chars "a.gif"; chars "b.gif"; chars "c.gif"]).
  intros [[] s|x|u]; [by exists s|by intros [_ []]; apply demo_web_succeeds|done].
Defined.

(** ** Where the code departs from what it means to do *)

(** A connection that failed is reported, and then used as if it were made: the
    request is written to it (here the third file, descriptor 5 in a kernel that
    lets writes on it succeed). *)
Example failed_connection_used :
  match @web_main demo_ns demo_web_sock demo_web_kernel 46
      [chars "web"; chars "3"; chars "vm1"; chars "/"; chars "a"; chars "b"; chars "c"] with
  | Ok _ s => bool_decide (EFailed 2 ∈ log s) && bool_decide (EGet 2 5 (get_cmd (chars "c")) ∈ log s) = true
  | _ => False
  end.
Proof. vm_compute. reflexivity. Qed.

(** [snprintf] cuts a long request at the size of [line] but reports its whole
    length, and as many bytes are written: [Writen] reads behind the array. *)
Lemma long_name_overruns {ns : NameService} {k : SockKernel} {w : WebKernel} i f s :
  files s !! i = Some f -> (MAXLINE < length (get_cmd (f_name f)))%nat -> write_get_cmd i s = Undef BufferOverflow.
Proof.
  intros Hi Hl. unfold write_get_cmd, mbind, M_bind, get, follow. rewrite Hi. unfold print_line.
  by rewrite (proj2 (Nat.leb_gt _ _) Hl).
Qed.
