(* ===== verification/Traceroute.v ===== *)
(** * Finding the route to a host

    Stevens/unpv13e/traceroute: main.c, traceloop.c, recv_v4.c, recv_v6.c,
    icmpcode_v4.c, icmpcode_v6.c, sig_alrm.c.  Datagrams with growing time to live
    are sent to the host; the ICMP errors about them come from the routers on the
    way, the last ones from the host itself. *)

From S2P Require Import Prelude CLib Inet Inet6 Cksum Sockaddr Gai SelectServ Icmpd Conn.

Definition BUFSIZE : nat := 1500.
Definition ICMP_TIMXCEED_INTRANS : Z := 0.
Definition ICMP6_TIME_EXCEED_TRANSIT : Z := 0.

(** A datagram sent, with its contents [struct rec]. *)
Record probe := Probe { p_port : Z; p_ttl : Z; rec_seq : Z; rec_ttl : Z; rec_tv : timeval }.

(** What is printed. *)
Inductive shown :=
  | OLine (ttl : Z)                (** "%2d " *)
  | OStar
  | ORouter (sa : sockaddr)        (** its name, if it has one, and its address *)
  | ORtt (tv : timeval)
  | OIcmp (what : buf)
  | OEnd.

(** The globals: the receive buffer, the flag of the signal handler, the addresses,
    the sequence number and [done]; what was sent and printed. *)
Record trace := Trace {
  recvbuf : buf; gotalarm : bool; sarecv : sockaddr; salast : sockaddr;
  seq_no : Z; done_ : Z; sent : list probe; out : list shown }.

(** What [recvfrom] does: a message arrives, a signal interrupts, the call fails;
    [al]: the alarm has gone off since [gotalarm] was last looked at. *)
Inductive arrival := Pkt (from : sockaddr) (b : buf) (al : bool) | Intr (al : bool) | RecvErr.

(** The world: what arrives while the program waits after its last datagram; the time
    at which a datagram is sent and at which its answer is received; whether a
    datagram can be sent. *)
Class World := {
  arrivals : list probe -> list arrival;
  sent_at : list probe -> timeval;
  received_at : list probe -> timeval;
  can_send : list probe -> bool }.

Definition set_alarm (a : bool) s := Trace (recvbuf s) a (sarecv s) (salast s) (seq_no s) (done_ s) (sent s) (out s).
Definition set_last (a : sockaddr) s := Trace (recvbuf s) (gotalarm s) (sarecv s) a (seq_no s) (done_ s) (sent s) (out s).
Definition set_seq (n : Z) s := Trace (recvbuf s) (gotalarm s) (sarecv s) (salast s) n (done_ s) (sent s) (out s).
Definition set_done (n : Z) s := Trace (recvbuf s) (gotalarm s) (sarecv s) (salast s) (seq_no s) n (sent s) (out s).
Definition set_sent l s := Trace (recvbuf s) (gotalarm s) (sarecv s) (salast s) (seq_no s) (done_ s) l (out s).
Definition show (o : shown) : M trace unit := modify (fun s =>
  Trace (recvbuf s) (gotalarm s) (sarecv s) (salast s) (seq_no s) (done_ s) (sent s) (out s ++ [o])).

(** The handler of the alarm, if it has run. *)
Definition sig_alrm (al : bool) : M trace unit := modify (fun s => set_alarm (gotalarm s || al) s).

(** [recvfrom] into [recvbuf]: what is behind the message stays as it was. *)
Definition received (from : sockaddr) (b : buf) : M trace Z := fun s =>
  let d := take BUFSIZE b in
  Ok (Z.of_nat (length d))
     (Trace (d ++ drop (length d) (recvbuf s)) (gotalarm s) from (salast s) (seq_no s) (done_ s) (sent s) (out s)).

(** The loop of [recv_v4] and [recv_v6]; [look n] is its body after [recvfrom] has
    returned [n]: [None] is [continue], [Some ret] is [break]. *)
Fixpoint recv_loop (look : Z -> M trace (option Z)) (evs : list arrival) : M trace Z :=
  s ← get;
  if gotalarm s then mret (-3) else
  match evs with
  | [] => lift (Bad EndlessLoop)
  | Intr al :: evs' => sig_alrm al;; recv_loop look evs'
  | RecvErr :: _ => abort_with ErrExit
  | Pkt from b al :: evs' =>
      n ← received from b;
      r ← look n;
      sig_alrm al;;
      match r with Some ret => mret ret | None => recv_loop look evs' end
  end.

Section Program.
Context (sport dport : Z).

(** Is the datagram at [udp], behind an IP header whose protocol is [p], ours? *)
Definition is_ours (b : buf) (p : Z) (udp : nat) (seq : Z) : chk bool :=
  sp ← got16 b udp;
  dp ← got16 b (udp + 2);
  mret ((p =? PROTO_UDP) && (sp =? htons sport) && (dp =? htons (dport + seq))).

(** The inner header of an ICMPv4 message, with both checks of the length. *)
Definition inner_v4 (b : buf) (hlen1 : nat) (icmplen seq : Z) : chk bool :=
  if icmplen <? 8 + 20 then mret false else
  let hip := (hlen1 + 8)%nat in
  h0 ← got_at b hip;
  let hlen2 := Z.to_nat (h0 mod 16 * 4) in
  if icmplen <? 8 + Z.of_nat hlen2 + 4 then mret false else
  p ← got_at b (hip + 9);
  is_ours b p (hip + hlen2) seq.

Definition look_v4 (seq n : Z) : M trace (option Z) :=
  s ← get;
  let b := recvbuf s in
  b0 ← lift (got_at b 0);
  let hlen1 := Z.to_nat (b0 mod 16 * 4) in
  let icmplen := n - Z.of_nat hlen1 in
  if icmplen <? 8 then mret None else
  type ← lift (got_at b hlen1);
  code ← lift (got_at b (S hlen1));
  if (type =? ICMP_TIMXCEED) && (code =? ICMP_TIMXCEED_INTRANS) then
    ours ← lift (inner_v4 b hlen1 icmplen seq);
    mret (if (ours : bool) then Some (-2) else None)
  else if type =? ICMP_UNREACH then
    ours ← lift (inner_v4 b hlen1 icmplen seq);
    mret (if (ours : bool) then Some (if code =? ICMP_UNREACH_PORT then -1 else code) else None)
  else mret None.

Definition recv_v4 (seq : Z) (evs : list arrival) : M trace Z :=
  modify (set_alarm false);; recv_loop (look_v4 seq) evs.

(** After a "time exceeded" with a whole inner header the loop is left whether or not
    the datagram is ours; [ret] is set only if it is. *)
Definition look_v6 (seq n : Z) : M trace (option Z) :=
  s ← get;
  let b := recvbuf s in
  if n <? 8 then mret None else
  type ← lift (got_at b 0);
  code ← lift (got_at b 1);
  if (type =? ICMP6_TIME_EXCEEDED) && (code =? ICMP6_TIME_EXCEED_TRANSIT) then
    if n <? 8 + 40 + 4 then mret None else
    p ← lift (got_at b (8 + 6));
    ours ← lift (is_ours b p (8 + 40) seq);
    if (ours : bool) then mret (Some (-2)) else lift (Bad Uninitialised)
  else if type =? ICMP6_DST_UNREACH then
    if n <? 8 + 40 + 4 then mret None else
    p ← lift (got_at b (8 + 6));
    ours ← lift (is_ours b p (8 + 40) seq);
    mret (if (ours : bool) then Some (if code =? ICMP6_DST_UNREACH_NOPORT then -1 else code) else None)
  else mret None.

Definition recv_v6 (seq : Z) (evs : list arrival) : M trace Z :=
  modify (set_alarm false);; recv_loop (look_v6 seq) evs.

Definition icmpcode_v4 (code : Z) : buf :=
  match code with
  | 0 => chars "network unreachable"
  | 1 => chars "host unreachable"
  | 2 => chars "protocol unreachable"
  | 3 => chars "port unreachable"
  | 4 => chars "fragmentation required but DF bit set"
  | 5 => chars "source route failed"
  | 6 => chars "destination network unknown"
  | 7 => chars "destination host unknown"
  | 8 => chars "source host isolated (obsolete)"
  | 9 => chars "destination network administratively prohibited"
  | 10 => chars "destination host administratively prohibited"
  | 11 => chars "network unreachable for TOS"
  | 12 => chars "host unreachable for TOS"
  | 13 => chars "communication administratively prohibited by filtering"
  | 14 => chars "host recedence violation"
  | 15 => chars "precedence cutoff in effect"
  | _ => chars "[unknown code " ++ print_int code ++ chars "]"
  end.

Definition icmpcode_v6 (code : Z) : buf :=
  match code with
  | 0 => chars "no route to host"
  | 1 => chars "administratively prohibited"
  | 2 => chars "not a neighbor"
  | 3 => chars "address unreachable"
  | 4 => chars "port unreachable"
  | _ => chars "[unknown code " ++ print_int code ++ chars "]"
  end.

(** [struct proto]: the functions of a protocol. *)
Record proto := Proto { pr_icmpcode : Z -> buf; pr_recv : Z -> list arrival -> M trace Z }.
Definition proto_v4 : proto := Proto icmpcode_v4 recv_v4.
Definition proto_v6 : proto := Proto icmpcode_v6 recv_v6.

Context {w : World} (pr : proto).

(** One datagram and its answer. *)
Definition one_probe (ttl : Z) : M trace unit :=
  s ← get;
  seq ← lift (int_add (seq_no s) 1);
  modify (set_seq seq);;
  let tv := sent_at (sent s) in
  (if can_send (sent s) then mret tt else abort_with ErrExit);;
  modify (fun s => set_sent (sent s ++ [Probe (htons (dport + seq)) ttl (seq mod 65536) (ttl mod 65536) tv]) s);;
  s ← get;
  code ← pr_recv pr seq (arrivals (sent s));
  if code =? -3 then show OStar else
  s ← get;
  c ← lift (sock_cmp_addr (sarecv s) (salast s));
  (if negb (c =? 0) then show (ORouter (sarecv s));; modify (set_last (sarecv s)) else mret tt);;
  show (ORtt (tv_sub (received_at (sent s)) tv));;
  if code =? -1 then modify (fun s => set_done (done_ s + 1) s)
  else if 0 <=? code then show (OIcmp (pr_icmpcode pr code))
  else mret tt.

Fixpoint probes (n : nat) (ttl : Z) : M trace unit :=
  match n with
  | O => mret tt
  | S n' => one_probe ttl;; probes n' ttl
  end.

Definition nprobes : nat := 3.

(** The loop over [ttl]; an address of family 0 is what [bzero] leaves. *)
Fixpoint ttl_loop (fuel : nat) (max_ttl ttl : Z) : M trace unit :=
  s ← get;
  if (ttl <=? max_ttl) && (done_ s =? 0) then
    match fuel with
    | O => lift (Bad EndlessLoop)
    | S fuel' =>
        modify (set_last (SOther 0));;
        show (OLine ttl);;
        probes nprobes ttl;;
        show OEnd;;
        ttl' ← lift (int_add ttl 1);
        ttl_loop fuel' max_ttl ttl'
    end
  else mret tt.

Definition traceloop (max_ttl : Z) : M trace unit :=
  modify (fun s => set_done 0 (set_seq 0 s));;
  ttl_loop (Z.to_nat max_ttl) max_ttl 1.
End Program.

(** ** main, after its options *)

Definition first_dport : Z := 32768 + 666.
Definition source_port (pid : Z) : Z := Z.lor (Z.land pid 65535) 32768.

Definition trace_main {ns : NameService} {w : World} (pid max_ttl : Z) (host : buf) : M trace unit :=
  r ← lift (host_serv (Some host) None 0 0);
  match r with
  | None => abort_with ErrExit
  | Some l =>
      ai ← follow (l !! 0%nat);
      let sport := source_port pid in
      if ai_family ai =? AF_INET then traceloop first_dport (proto_v4 sport first_dport) max_ttl
      else if ai_family ai =? AF_INET6 then
        match ai_addr ai with
        | Some (SIn6 _ a) =>
            if v4_mapped a then abort_with ErrExit
            else traceloop first_dport (proto_v6 sport first_dport) max_ttl
        | _ => lift (Bad BadPointer)
        end
      else abort_with ErrExit
  end.

(** * Lemmas *)

(** ** The interface of the two receivers

    What [traceloop] relies on: messages that are noise are passed over, the answer
    to the datagram is recognised with the address it came from, and without one the
    alarm ends the wait. *)
Record kept (s s' : trace) : Prop := {
  kp_buf : length (recvbuf s') = BUFSIZE;
  kp_last : salast s' = salast s;
  kp_seq : seq_no s' = seq_no s;
  kp_done : done_ s' = done_ s;
  kp_sent : sent s' = sent s;
  kp_out : out s' = out s;
}.

Class Receiver (recv : Z -> list arrival -> M trace Z) (noise : Z -> arrival -> Prop)
    (answer : Z -> sockaddr -> Z -> arrival -> Prop) : Prop := {
  recv_answered : forall seq pre from code e post s,
    Forall (noise seq) pre -> answer seq from code e -> length (recvbuf s) = BUFSIZE ->
    exists s', recv seq (pre ++ e :: post) s = Ok code s' /\ kept s s' /\ sarecv s' = from;
  recv_lost : forall seq pre post s,
    Forall (noise seq) pre -> length (recvbuf s) = BUFSIZE ->
    exists s', recv seq (pre ++ Intr true :: post) s = Ok (-3) s' /\ kept s s';
}.

(** Both receivers are the same loop; it is enough to know what its body does with one
    message. *)
Definition looks (look : Z -> M trace (option Z)) (b : buf) (r : option Z) : Prop :=
  forall s stale, recvbuf s = take BUFSIZE b ++ stale -> length (recvbuf s) = BUFSIZE ->
    look (Z.of_nat (length (take BUFSIZE b))) s = Ok r s.

Definition passed_over (look : Z -> M trace (option Z)) (e : arrival) : Prop :=
  match e with Pkt _ b al => looks look b None /\ al = false | Intr al => al = false | RecvErr => False end.
Definition recognised (look : Z -> M trace (option Z)) (from : sockaddr) (code : Z) (e : arrival) : Prop :=
  exists b al, e = Pkt from b al /\ looks look b (Some code).

Lemma recv_kept_refl s : length (recvbuf s) = BUFSIZE -> kept s s.
Proof. by split. Qed.
Lemma recv_kept_trans s1 s2 s3 : kept s1 s2 -> kept s2 s3 -> kept s1 s3.
Proof. intros [] []. split; congruence. Qed.

(** A message arrives and is looked at. *)
Lemma step_pkt look from b al evs r s :
  looks look b r -> gotalarm s = false -> length (recvbuf s) = BUFSIZE ->
  exists s', recv_loop look (Pkt from b al :: evs) s = (match r with Some ret => mret ret | None => recv_loop look evs end) s' /\
    kept s s' /\ sarecv s' = from /\ gotalarm s' = al.
Proof.
  intros Hl Ha Hlen. cbn [recv_loop]. unfold mbind, M_bind, get. rewrite Ha. unfold received. cbv beta iota zeta.
  set (d := take BUFSIZE b). set (s1 := Trace _ _ _ _ _ _ _ _).
  assert (length (recvbuf s1) = BUFSIZE) as Hlen1.
  { assert (length d <= BUFSIZE)%nat by (unfold d; rewrite length_take; lia).
    cbn [recvbuf s1]. rewrite length_app, length_drop, Hlen. lia. }
  pose proof (Hl s1 (drop (length d) (recvbuf s)) eq_refl Hlen1) as E. fold d in E. rewrite E. cbn -[BUFSIZE]. eexists. split; [done|]. split; [by split|]. by rewrite Ha.
Qed.

(** Noise changes nothing that matters. *)
Lemma skip_noise look pre evs s :
  Forall (passed_over look) pre -> gotalarm s = false -> length (recvbuf s) = BUFSIZE ->
  exists s', recv_loop look (pre ++ evs) s = recv_loop look evs s' /\ kept s s' /\ gotalarm s' = false.
Proof.
  intros Hp. revert s. induction Hp as [|e pre He _ IH]; intros s Ha Hlen.
  { exists s. split; [done|]. split; [by apply recv_kept_refl|done]. }
  destruct e as [from b al|al|]; [| |done].
  - destruct He as [Hl ->]. destruct (step_pkt look from b false (pre ++ evs) None s Hl Ha Hlen) as (s1 & E & Hk & _ & Ha1).
    destruct (IH s1 Ha1 (kp_buf _ _ Hk)) as (s2 & E2 & Hk2 & Ha2). exists s2. cbn [app]. rewrite E.
    split; [exact E2|]. split; [by eapply recv_kept_trans|done].
  - cbn in He. subst al. cbn [app recv_loop]. unfold mbind, M_bind, get. rewrite Ha. cbn.
    destruct (IH (set_alarm (gotalarm s || false) s)) as (s2 & E2 & Hk2 & Ha2); [by cbn; rewrite Ha|done|].
    exists s2. split; [exact E2|]. split; [|done]. by destruct Hk2; split.
Qed.

Lemma receiver_of_look look noise answer :
  (forall seq e, noise seq e -> passed_over (look seq) e) ->
  (forall seq from code e, answer seq from code e -> recognised (look seq) from code e) ->
  Receiver (fun seq evs => modify (set_alarm false);; recv_loop (look seq) evs) noise answer.
Proof.
  intros Hn Ha. split.
  - intros seq pre from code e post s Hp He Hlen. unfold mbind, M_bind, modify.
    destruct (skip_noise (look seq) pre (e :: post) (set_alarm false s)) as (s1 & -> & Hk & Ha1); [|done|done|].
    { eapply Forall_impl; [done|]. by apply Hn. }
    destruct (Ha _ _ _ _ He) as (b & al & -> & Hl).
    destruct (step_pkt (look seq) from b al post (Some code) s1 Hl Ha1 (kp_buf _ _ Hk)) as (s2 & -> & Hk2 & Hf & _).
    exists s2. split; [done|]. split; [|done]. destruct Hk, Hk2. split; cbn in *; congruence.
  - intros seq pre post s Hp Hlen. unfold mbind, M_bind, modify.
    destruct (skip_noise (look seq) pre (Intr true :: post) (set_alarm false s)) as (s1 & -> & Hk & Ha1); [|done|done|].
    { eapply Forall_impl; [done|]. by apply Hn. }
    cbn [recv_loop]. unfold mbind, M_bind, get. rewrite Ha1. cbn. rewrite Ha1. cbn.
    destruct post as [|[] post]; cbn; (eexists; split; [done|]; destruct Hk; split; cbn in *; congruence).
Qed.

(** ** Messages of IPv4 *)

(** An ICMP message of some type and code about a UDP datagram between two ports,
    with any options in the two IP headers. *)
Inductive udp_error4 (type code sp dp : Z) : buf -> Prop :=
  | UdpError4 hl1 front1 mid1 dst1 opts1 fill hl2 front2 mid2 dst opts2 tail :
      ip_header_ok hl1 front1 mid1 dst1 opts1 -> ip_header_ok hl2 front2 mid2 dst opts2 ->
      0 <= type < 256 -> 0 <= code < 256 -> 0 <= sp < 65536 -> 0 <= dp < 65536 -> length fill = 6%nat ->
      let b := report4 hl1 front1 mid1 dst1 opts1 type code fill hl2 front2 mid2 dst opts2 sp dp tail in
      (length b <= BUFSIZE)%nat -> udp_error4 type code sp dp b.

(** A message of another type, and one too short for the ICMP header. *)
Inductive other_icmp4 : buf -> Prop :=
  | OtherIcmp4 hl front mid dst opts type code rest :
      ip_header_ok hl front mid dst opts -> 0 <= type < 256 -> 0 <= code < 256 ->
      type <> ICMP_TIMXCEED -> type <> ICMP_UNREACH ->
      other_icmp4 (ip_header hl front 1 mid dst opts ++ byte_of_Z type :: byte_of_Z code :: rest).
Definition short4 (b : buf) : Prop :=
  match b with [] => True | c :: _ => Z.of_nat (length b) < Z_of_byte c mod 16 * 4 + 8 end.

Section V4.
Context (sport dport : Z).

Definition ours (seq sp dp : Z) : bool := (sp =? htons sport) && (dp =? htons (dport + seq)).
Definition verdict4 (seq type code sp dp : Z) : option Z :=
  if (type =? ICMP_TIMXCEED) && (code =? ICMP_TIMXCEED_INTRANS) then if ours seq sp dp then Some (-2) else None
  else if type =? ICMP_UNREACH then
    if ours seq sp dp then Some (if code =? ICMP_UNREACH_PORT then -1 else code) else None
  else None.

Lemma inner_v4_report hl1 front1 mid1 dst1 opts1 type code fill hl2 front2 mid2 dst opts2 sp dp tail seq icmplen :
  ip_header_ok hl1 front1 mid1 dst1 opts1 -> ip_header_ok hl2 front2 mid2 dst opts2 -> length fill = 6%nat ->
  0 <= sp < 65536 -> 0 <= dp < 65536 -> 8 + 4 * hl2 + 4 <= icmplen ->
  inner_v4 sport dport (report4 hl1 front1 mid1 dst1 opts1 type code fill hl2 front2 mid2 dst opts2 sp dp tail)
    (Z.to_nat (4 * hl1)) icmplen seq = Def (ours seq sp dp).
Proof.
  intros H1 H2 Hf Hsp Hdp Hlen. pose proof (ih_hl _ _ _ _ _ H2) as Hl2.
  destruct (report4_ports hl1 front1 mid1 dst1 opts1 type code fill hl2 front2 mid2 dst opts2 sp dp tail
              H1 H2 Hf Hsp Hdp) as [Hs Hd].
  pose proof (report4_inner hl1 front1 mid1 dst1 opts1 type code fill hl2 front2 mid2 dst opts2 sp dp tail H1 Hf) as Hin.
  set (b := report4 _ _ _ _ _ _ _ _ _ _ _ _ _ _ _ _) in *.
  unfold inner_v4. rewrite (proj2 (Z.ltb_ge _ _)) by lia. cbv zeta.
  destruct (Hin 0%nat) as (E0 & _ & _ & E). rewrite Nat.add_0_r in E0. rewrite E0, E.
  change (got_at (ip_header hl2 front2 PROTO_UDP mid2 dst opts2 ++ _) 0) with (Def (Z_of_byte (byte_of_Z (64 + hl2)))).
  rewrite chk_bind_Def, (header_length hl2) by done. rewrite (proj2 (Z.ltb_ge _ _)) by lia.
  destruct (Hin 9%nat) as (E9 & _). rewrite E9, E, (ip_header_proto _ _ _ _ _ _ _ H2) by (unfold PROTO_UDP; lia).
  unfold is_ours. rewrite chk_bind_Def, Hs, chk_bind_Def, Hd. done.
Qed.

Lemma look_v4_report seq type code sp dp b :
  udp_error4 type code sp dp b -> looks (look_v4 sport dport seq) b (verdict4 seq type code sp dp).
Proof.
  intros [hl1 front1 mid1 dst1 opts1 fill hl2 front2 mid2 dst opts2 tail H1 H2 Ht Hc Hsp Hdp Hf b' Hlen] s stale Hb _.
  rewrite (take_ge b') in * by done.
  pose proof (ih_hl _ _ _ _ _ H1) as Hl1. pose proof (ih_hl _ _ _ _ _ H2) as Hl2.
  assert (Hn := report4_length hl1 front1 mid1 dst1 opts1 type code fill hl2 front2 mid2 dst opts2 sp dp tail H1 H2 Hf).
  fold b' in Hn.
  assert (recvbuf s = report4 hl1 front1 mid1 dst1 opts1 type code fill hl2 front2 mid2 dst opts2 sp dp (tail ++ stale)) as E.
  { rewrite Hb. unfold b', report4. by rewrite <- !app_assoc. }
  destruct (report4_type hl1 front1 mid1 dst1 opts1 type code fill hl2 front2 mid2 dst opts2 sp dp (tail ++ stale)
              H1 Ht Hc) as [Hty Hco].
  unfold look_v4, mbind, M_bind, get, lift. cbv zeta. rewrite E, report4_start, (header_length hl1) by done.
  rewrite (proj2 (Z.ltb_ge _ 8)) by lia. rewrite Hty, Hco.
  rewrite inner_v4_report by (done || lia). unfold verdict4.
  destruct ((type =? ICMP_TIMXCEED) && (code =? ICMP_TIMXCEED_INTRANS)); [done|]. by destruct (type =? ICMP_UNREACH).
Qed.

Lemma look_v4_short seq b : short4 b -> looks (look_v4 sport dport seq) b None.
Proof.
  intros Hs s stale Hb Hlen. unfold look_v4, mbind, M_bind, get, lift. cbv zeta.
  assert (exists c, got_at (recvbuf s) 0 = Def (Z_of_byte c) /\
    (b = [] \/ Z.of_nat (length b) < Z_of_byte c mod 16 * 4 + 8)) as (c & -> & Hc).
  { destruct b as [|c b]; cbn in Hb; rewrite Hb; unfold got_at.
    - cbn in Hb. destruct stale as [|c stale]; [by rewrite Hb in Hlen|]. exists c. split; [done|]. by left.
    - exists c. split; [done|]. by right. }
  rewrite (proj2 (Z.ltb_lt _ 8)); [done|]. pose proof (Z.mod_pos_bound (Z_of_byte c) 16 ltac:(lia)).
  rewrite length_take. destruct Hc as [->|Hc]; cbn [length]; lia.
Qed.

Lemma look_v4_other seq b : other_icmp4 b -> looks (look_v4 sport dport seq) b None.
Proof.
  intros [hl front mid dst opts type code rest H1 Ht Hc Hn1 Hn2] s stale Hb _.
  pose proof (ih_hl _ _ _ _ _ H1) as Hl1. pose proof (ip_header_length _ _ 1 _ _ _ H1) as Hlen.
  set (h := ip_header hl front 1 mid dst opts) in *.
  assert (exists rest', recvbuf s = h ++ byte_of_Z type :: byte_of_Z code :: rest') as (rest' & E).
  { rewrite Hb, take_app_ge by (rewrite Hlen; unfold BUFSIZE; lia). rewrite <- app_assoc, Hlen.
    destruct (BUFSIZE - Z.to_nat (4 * hl))%nat as [|[|m]] eqn:Em; [unfold BUFSIZE in Em; lia..|]. cbn. by eexists. }
  unfold look_v4, mbind, M_bind, get, lift. cbv zeta. rewrite E.
  change (got_at (h ++ byte_of_Z type :: byte_of_Z code :: rest') 0) with (Def (Z_of_byte (byte_of_Z (64 + hl)))).
  cbv beta iota. rewrite (header_length hl) by done.
  destruct (_ <? 8); [done|]. rewrite <- Hlen, <- (Nat.add_0_r (length h)), got_at_skip.
  rewrite Nat.add_0_r, <- (Nat.add_1_r (length h)), got_at_skip. unfold got_at. cbn [lookup list_lookup].
  rewrite !Z_of_byte_of_Z, !Z.mod_small by done. rewrite (proj2 (Z.eqb_neq _ _) Hn1), (proj2 (Z.eqb_neq _ _) Hn2). done.
Qed.

(** A message whose ICMP header is followed by something else than a datagram of UDP
    with its ports: by the datagram of another protocol, or by a part that is cut off. *)
Inductive no_udp4 : buf -> Prop :=
  | NoUdp4 hl front mid dst opts type code fill vhl front2 proto rest :
      ip_header_ok hl front mid dst opts -> 0 <= type < 256 -> length fill = 6%nat -> length front2 = 8%nat ->
      Z_of_byte proto <> PROTO_UDP \/ 10 + Z.of_nat (length rest) < Z_of_byte vhl mod 16 * 4 + 4 ->
      let m := ip_header hl front 1 mid dst opts ++ byte_of_Z type :: code :: fill ++ vhl :: front2 ++ proto :: rest in
      (length m <= BUFSIZE)%nat -> no_udp4 m
  | NoUdp4_cut hl front mid dst opts type code rest :
      ip_header_ok hl front mid dst opts -> 0 <= type < 256 -> (length rest < 26)%nat ->
      no_udp4 (ip_header hl front 1 mid dst opts ++ byte_of_Z type :: code :: rest).

Lemma got16_in b k : (k + 1 < length b)%nat -> exists z, got16 b k = Def z.
Proof.
  intros H. unfold got16, got_at. destruct (lookup_lt_is_Some_2 b k) as [x ->]; [lia|].
  destruct (lookup_lt_is_Some_2 b (S k)) as [y ->]; [lia|]. by eexists.
Qed.

Lemma inner_v4_no_udp seq (b : buf) h icmplen stale :
  Z.of_nat (length b) = Z.of_nat h + icmplen ->
  icmplen < 28 \/
  (exists vhl proto, got_at b (h + 8) = Def (Z_of_byte vhl) /\ got_at b (h + 8 + 9) = Def (Z_of_byte proto) /\
     (Z_of_byte proto <> PROTO_UDP \/ icmplen < 8 + Z_of_byte vhl mod 16 * 4 + 4)) ->
  inner_v4 sport dport (b ++ stale) h icmplen seq = Def false.
Proof.
  intros Hlen Hb. unfold inner_v4. destruct (Z.ltb_spec icmplen (8 + 20)) as [|Hge]; [done|].
  destruct Hb as [?|(vhl & proto & Hv & Hp & Hno)]; [lia|]. cbv zeta.
  assert (forall k x, got_at b k = Def x -> got_at (b ++ stale) k = Def x) as Hin.
  { unfold got_at. intros k x. destruct (b !! k) eqn:E; [|done]. intros [= <-].
    by rewrite lookup_app_l by (by eapply lookup_lt_Some); rewrite E. }
  rewrite (Hin _ _ Hv), chk_bind_Def. pose proof (Z.mod_pos_bound (Z_of_byte vhl) 16 ltac:(lia)).
  destruct (Z.ltb_spec icmplen (8 + Z.of_nat (Z.to_nat (Z_of_byte vhl mod 16 * 4)) + 4)) as [|Hge2]; [done|].
  rewrite (Hin _ _ Hp), chk_bind_Def. unfold is_ours.
  destruct (got16_in (b ++ stale) (h + 8 + Z.to_nat (Z_of_byte vhl mod 16 * 4))) as [x ->]; [rewrite length_app; lia|].
  destruct (got16_in (b ++ stale) (h + 8 + Z.to_nat (Z_of_byte vhl mod 16 * 4) + 2)) as [y ->]; [rewrite length_app; lia|].
  rewrite !chk_bind_Def. destruct Hno as [Hno|]; [|lia]. by rewrite (proj2 (Z.eqb_neq _ _) Hno).
Qed.

(** What both kinds come to. *)
Lemma look_v4_behind seq hl front mid dst opts type code rest :
  ip_header_ok hl front mid dst opts -> 0 <= type < 256 ->
  let m := ip_header hl front 1 mid dst opts ++ byte_of_Z type :: code :: rest in
  let h := Z.to_nat (4 * hl) in
  (length m <= BUFSIZE)%nat ->
  (forall stale, inner_v4 sport dport (m ++ stale) h (Z.of_nat (length m) - Z.of_nat h) seq = Def false) ->
  looks (look_v4 sport dport seq) m None.
Proof.
  intros H Ht m h Hm Hi s stale Hb _. rewrite (take_ge m) in * by done.
  pose proof (ih_hl _ _ _ _ _ H) as Hl1.
  destruct (behind_header hl front mid dst opts type code (rest ++ stale) H Ht) as (_ & Hty & Hco & _). fold h in Hty, Hco.
  assert (recvbuf s = ip_header hl front 1 mid dst opts ++ byte_of_Z type :: code :: rest ++ stale) as E
    by (rewrite Hb; unfold m; by rewrite <- app_assoc).
  specialize (Hi stale). unfold m in Hi at 1. rewrite <- app_assoc in Hi. cbn [app] in Hi.
  unfold look_v4, mbind, M_bind, get, lift. cbv zeta. rewrite E.
  change (got_at (ip_header hl front 1 mid dst opts ++ byte_of_Z type :: code :: rest ++ stale) 0)
    with (Def (Z_of_byte (byte_of_Z (64 + hl)))).
  cbv beta iota. rewrite (header_length hl) by done. fold h. destruct (_ <? 8); [done|].
  rewrite Hty, Hco, Hi. by destruct (_ && _); [|destruct (_ =? _)].
Qed.

Lemma look_v4_no_udp seq b : no_udp4 b -> looks (look_v4 sport dport seq) b None.
Proof.
  intros [hl front mid dst opts type code fill vhl front2 proto rest H Ht Hf Hf2 Hno m Hm
         |hl front mid dst opts type code rest H Ht Hr]; pose proof (ih_hl _ _ _ _ _ H) as Hl1.
  - apply look_v4_behind; [done..|]. intros stale. apply inner_v4_no_udp; [lia|]. right. exists vhl, proto.
    destruct (behind_header hl front mid dst opts type code (fill ++ vhl :: front2 ++ proto :: rest) H Ht)
      as (Hlen & _ & _ & Hk). fold m in Hlen, Hk.
    rewrite length_app in Hlen. cbn [length] in Hlen. rewrite length_app in Hlen. cbn [length] in Hlen.
    split_and!.
    + replace (Z.to_nat (4 * hl) + 8)%nat with (Z.to_nat (4 * hl) + 2 + length fill)%nat by lia. by rewrite Hk, got_at_app.
    + replace (Z.to_nat (4 * hl) + 8 + 9)%nat with (Z.to_nat (4 * hl) + 2 + (length fill + length (vhl :: front2)))%nat
        by (cbn [length]; lia). by rewrite Hk, got_at_skip, app_comm_cons, got_at_app.
    + destruct Hno as [|Hno]; [by left|right]. fold m. lia.
  - assert (length (ip_header hl front 1 mid dst opts ++ byte_of_Z type :: code :: rest)
            = (Z.to_nat (4 * hl) + 2 + length rest)%nat) as Hlen by (by apply behind_header).
    apply look_v4_behind; [done|done|unfold BUFSIZE; lia|]. intros stale. apply inner_v4_no_udp; [lia|]. left. lia.
Qed.

(** What the program passes over while it waits, and what it takes for an answer. *)
Inductive noise4 (seq : Z) : arrival -> Prop :=
  | Noise4_no_udp from b : no_udp4 b -> noise4 seq (Pkt from b false)
  | Noise4_intr : noise4 seq (Intr false)
  | Noise4_report from type code sp dp b :
      udp_error4 type code sp dp b -> verdict4 seq type code sp dp = None -> noise4 seq (Pkt from b false)
  | Noise4_other from b : other_icmp4 b -> noise4 seq (Pkt from b false)
  | Noise4_short from b : short4 b -> noise4 seq (Pkt from b false).
Inductive answer4 (seq : Z) (from : sockaddr) : Z -> arrival -> Prop :=
  | Answer4_exceeded b al :
      udp_error4 ICMP_TIMXCEED ICMP_TIMXCEED_INTRANS (htons sport) (htons (dport + seq)) b ->
      answer4 seq from (-2) (Pkt from b al)
  | Answer4_port b al :
      udp_error4 ICMP_UNREACH ICMP_UNREACH_PORT (htons sport) (htons (dport + seq)) b -> answer4 seq from (-1) (Pkt from b al)
  | Answer4_unreach code b al :
      udp_error4 ICMP_UNREACH code (htons sport) (htons (dport + seq)) b -> code <> ICMP_UNREACH_PORT ->
      answer4 seq from code (Pkt from b al).

Lemma ours_own seq : ours seq (htons sport) (htons (dport + seq)) = true.
Proof. unfold ours. by rewrite !Z.eqb_refl. Qed.

#[export] Instance receiver_v4 : Receiver (recv_v4 sport dport) noise4 answer4.
Proof.
  apply receiver_of_look.
  - intros seq e [from b Hb| |from type code sp dp b Hb Hv|from b Hb|from b Hb]; cbn; try done; split; try done.
    + by apply look_v4_no_udp.
    + rewrite <- Hv. by apply look_v4_report.
    + by apply look_v4_other.
    + by apply look_v4_short.
  - intros seq from code e [b al Hb|b al Hb|c b al Hb Hc]; exists b, al; (split; [done|]).
    + replace (Some (-2)) with (verdict4 seq ICMP_TIMXCEED ICMP_TIMXCEED_INTRANS (htons sport) (htons (dport + seq)))
        by (unfold verdict4; by rewrite ours_own). by apply look_v4_report.
    + replace (Some (-1)) with (verdict4 seq ICMP_UNREACH ICMP_UNREACH_PORT (htons sport) (htons (dport + seq)))
        by (unfold verdict4; by rewrite ours_own). by apply look_v4_report.
    + replace (Some c) with (verdict4 seq ICMP_UNREACH c (htons sport) (htons (dport + seq))); [by apply look_v4_report|].
      unfold verdict4. rewrite ours_own. cbn. by rewrite (proj2 (Z.eqb_neq _ _) Hc).
Qed.
End V4.

(** ** Messages of IPv6 *)

(** An ICMPv6 message about a datagram whose IP header says protocol [p]: type, code,
    the rest of the ICMP header, the IP header around the protocol, the ports. *)
Definition report6 (type code : Z) (fill front : buf) (p : Z) (mid : buf) (sp dp : Z) (tail : buf) : buf :=
  (byte_of_Z type :: byte_of_Z code :: fill) ++ (front ++ byte_of_Z p :: mid) ++ port_bytes sp ++ port_bytes dp ++ tail.

Inductive udp_error6 (type code p sp dp : Z) : buf -> Prop :=
  | UdpError6 fill front mid tail :
      0 <= type < 256 -> 0 <= code < 256 -> 0 <= p < 256 -> 0 <= sp < 65536 -> 0 <= dp < 65536 ->
      length fill = 6%nat -> length front = 6%nat -> length mid = 33%nat ->
      let b := report6 type code fill front p mid sp dp tail in
      (length b <= BUFSIZE)%nat -> udp_error6 type code p sp dp b.

Section V6.
Context (sport dport : Z).

Definition ours6 (seq p sp dp : Z) : bool := (p =? PROTO_UDP) && ours sport dport seq sp dp.

Lemma report6_fields type code fill front p mid sp dp tail :
  0 <= type < 256 -> 0 <= code < 256 -> 0 <= p < 256 -> 0 <= sp < 65536 -> 0 <= dp < 65536 ->
  length fill = 6%nat -> length front = 6%nat -> length mid = 33%nat ->
  let b := report6 type code fill front p mid sp dp tail in
  got_at b 0 = Def type /\ got_at b 1 = Def code /\ got_at b (8 + 6) = Def p /\
  (forall seq, is_ours sport dport b p (8 + 40) seq = Def (ours6 seq p sp dp)) /\ length b = (52 + length tail)%nat.
Proof.
  intros Ht Hc Hp Hsp Hdp Hf Hfr Hm b.
  assert (E : b = (byte_of_Z type :: byte_of_Z code :: fill) ++ front ++ byte_of_Z p :: mid ++ port_bytes sp ++ port_bytes dp ++ tail).
  { unfold b, report6. by rewrite <- (app_assoc front), <- app_comm_cons. }
  assert (E' : b = ((byte_of_Z type :: byte_of_Z code :: fill) ++ front ++ byte_of_Z p :: mid) ++ port_bytes sp ++ port_bytes dp ++ tail).
  { unfold b, report6. by rewrite <- (app_assoc (_ :: _ :: fill)). }
  set (pre := (byte_of_Z type :: byte_of_Z code :: fill) ++ front ++ byte_of_Z p :: mid) in *.
  assert (length pre = 48%nat) as Hpre by (unfold pre; rewrite length_app, length_app; cbn [length]; lia).
  split_and!.
  - unfold got_at. cbn. by rewrite Z_of_byte_of_Z, Z.mod_small.
  - unfold got_at. cbn. by rewrite Z_of_byte_of_Z, Z.mod_small.
  - rewrite E. replace 8%nat with (length (byte_of_Z type :: byte_of_Z code :: fill)) by (cbn [length]; lia).
    rewrite got_at_skip, <- Hfr, got_at_app. by rewrite Z_of_byte_of_Z, Z.mod_small.
  - intros seq. unfold is_ours. rewrite E'. replace (8 + 40)%nat with (length pre + 0)%nat by lia. rewrite got16_skip.
    rewrite got16_port, chk_bind_Def by done. replace (length pre + 0 + 2)%nat with (length pre + (length (port_bytes sp) + 0))%nat by (cbn; lia).
    rewrite !got16_skip, got16_port, chk_bind_Def by done. unfold ours6, ours. by rewrite andb_assoc.
  - rewrite E', length_app, Hpre. cbn. lia.
Qed.

(** [None]: the value returned has not been set. *)
Definition verdict6 (seq type code p sp dp : Z) : option (option Z) :=
  if (type =? ICMP6_TIME_EXCEEDED) && (code =? ICMP6_TIME_EXCEED_TRANSIT) then
    if ours6 seq p sp dp then Some (Some (-2)) else None
  else if type =? ICMP6_DST_UNREACH then
    Some (if ours6 seq p sp dp then Some (if code =? ICMP6_DST_UNREACH_NOPORT then -1 else code) else None)
  else Some None.

Lemma look_v6_run seq type code p sp dp b s stale :
  udp_error6 type code p sp dp b -> recvbuf s = take BUFSIZE b ++ stale ->
  look_v6 sport dport seq (Z.of_nat (length (take BUFSIZE b))) s =
  match verdict6 seq type code p sp dp with Some r => Ok r s | None => Undef Uninitialised end.
Proof.
  intros [fill front mid tail Ht Hc Hp Hsp Hdp Hf Hfr Hm b' Hlen] Hb. rewrite (take_ge b') in * by done.
  destruct (report6_fields type code fill front p mid sp dp tail Ht Hc Hp Hsp Hdp Hf Hfr Hm) as (_ & _ & _ & _ & Hn).
  fold b' in Hn.
  destruct (report6_fields type code fill front p mid sp dp (tail ++ stale) Ht Hc Hp Hsp Hdp Hf Hfr Hm)
    as (E0 & E1 & E14 & Eo & _).
  assert (recvbuf s = report6 type code fill front p mid sp dp (tail ++ stale)) as E.
  { rewrite Hb. unfold b', report6. by rewrite <- !app_assoc. }
  unfold look_v6, mbind, M_bind, get, lift. cbv zeta. rewrite E, E0, E1, E14, Eo.
  rewrite (proj2 (Z.ltb_ge _ 8)), (proj2 (Z.ltb_ge _ (8 + 40 + 4))) by lia. unfold verdict6.
  destruct ((type =? ICMP6_TIME_EXCEEDED) && (code =? ICMP6_TIME_EXCEED_TRANSIT)).
  - by destruct (ours6 seq p sp dp).
  - by destruct (type =? ICMP6_DST_UNREACH).
Qed.

Lemma look_v6_report seq type code p sp dp b r :
  udp_error6 type code p sp dp b -> verdict6 seq type code p sp dp = Some r -> looks (look_v6 sport dport seq) b r.
Proof. intros Hb Hv s stale E _. rewrite (look_v6_run _ _ _ _ _ _ _ _ _ Hb E). by rewrite Hv. Qed.

(** Noise: without the messages "time exceeded" about other datagrams, which make the
    program use an unset value ([stray_time_exceeded]). *)
Inductive noise6 (seq : Z) : arrival -> Prop :=
  | Noise6_cut from type code rest :
      0 <= type < 256 -> (length rest < 50)%nat -> noise6 seq (Pkt from (byte_of_Z type :: code :: rest) false)
  | Noise6_intr : noise6 seq (Intr false)
  | Noise6_report from type code p sp dp b :
      udp_error6 type code p sp dp b -> verdict6 seq type code p sp dp = Some None -> noise6 seq (Pkt from b false)
  | Noise6_short from b : (length b < 8)%nat -> noise6 seq (Pkt from b false).
Inductive answer6 (seq : Z) (from : sockaddr) : Z -> arrival -> Prop :=
  | Answer6 type code r b al :
      udp_error6 type code PROTO_UDP (htons sport) (htons (dport + seq)) b ->
      verdict6 seq type code PROTO_UDP (htons sport) (htons (dport + seq)) = Some (Some r) -> answer6 seq from r (Pkt from b al).

#[export] Instance receiver_v6 : Receiver (recv_v6 sport dport) noise6 answer6.
Proof.
  apply receiver_of_look.
  - intros seq e [from type code rest Ht Hr| |from type code p sp dp b Hb Hv|from b Hb]; cbn; try done; split; try done.
    + intros s stale Hb _. rewrite take_ge in * by (unfold BUFSIZE; cbn [length]; lia).
      unfold look_v6, mbind, M_bind, get, lift. cbv zeta. rewrite Hb.
      change (got_at ((byte_of_Z type :: code :: rest) ++ stale) 0) with (Def (Z_of_byte (byte_of_Z type))).
      change (got_at ((byte_of_Z type :: code :: rest) ++ stale) 1) with (Def (Z_of_byte code)).
      cbv beta iota. destruct (_ <? 8); [done|].
      rewrite (proj2 (Z.ltb_lt _ (8 + 40 + 4))) by (cbn [length]; lia). by destruct (_ && _); [|destruct (_ =? _)].
    + by eapply look_v6_report.
    + intros s stale _ _. unfold look_v6, mbind, M_bind, get. cbv zeta.
      rewrite (proj2 (Z.ltb_lt _ 8)); [done|]. rewrite length_take. lia.
  - intros seq from code e [type c r b al Hb Hv]. exists b, al. split; [done|]. by eapply look_v6_report.
Qed.

(** A "time exceeded" about a datagram of someone else makes [recv_v6] return a value
    it has not set: the [break] stands outside of the test. *)
Lemma stray_time_exceeded seq from p sp dp b al evs s :
  udp_error6 ICMP6_TIME_EXCEEDED ICMP6_TIME_EXCEED_TRANSIT p sp dp b -> ours6 seq p sp dp = false ->
  recv_v6 sport dport seq (Pkt from b al :: evs) s = Undef Uninitialised.
Proof.
  intros Hb Ho. unfold recv_v6, mbind, M_bind, modify. cbn [recv_loop]. unfold mbind, M_bind, get, received.
  cbv beta iota zeta. cbn [gotalarm set_alarm].
  rewrite (look_v6_run seq _ _ _ _ _ b _ (drop (length (take BUFSIZE b)) (recvbuf s)) Hb) by done.
  unfold verdict6. by rewrite Ho.
Qed.
End V6.

(** ** A path through the network *)

Section Path.
Context {w : World} (dport : Z) (pr : proto) (noise : Z -> arrival -> Prop).
Context (answer : Z -> sockaddr -> Z -> arrival -> Prop) {receiver : Receiver (pr_recv pr) noise answer}.
(** The routers on the way, the host, and the datagrams (counted from 1) that get no
    answer in time. *)
Context (hops : list sockaddr) (dst : sockaddr) (lost : nat -> bool).

(** The machine a datagram gets to; the host is [length hops + 1] links away. *)
Definition hop (ttl : nat) : sockaddr := nth (ttl - 1) hops dst.
Definition arrives (ttl : nat) : bool := (length hops <? ttl)%nat.

(** The first [n] datagrams, three for each time to live. *)
Definition ttl_of (m : nat) : nat := (m / nprobes + 1)%nat.
Fixpoint sent_list (n : nat) : list probe :=
  match n with
  | O => []
  | S m =>
      let l := sent_list m in
      l ++ [Probe (htons (dport + Z.of_nat n)) (Z.of_nat (ttl_of m)) (Z.of_nat n mod 65536)
                  (Z.of_nat (ttl_of m) mod 65536) (sent_at l)]
  end.
Definition rtt (n : nat) : timeval := tv_sub (received_at (sent_list n)) (sent_at (sent_list (n - 1))).

(** After a datagram the answer of the machine it got to arrives, behind any noise; or
    nothing but noise before the alarm. *)
Definition answered (m : nat) : Prop :=
  can_send (sent_list m) = true /\
  exists pre e post, arrivals (sent_list (S m)) = pre ++ e :: post /\ Forall (noise (Z.of_nat (S m))) pre /\
    if lost (S m) then e = Intr true
    else answer (Z.of_nat (S m)) (hop (ttl_of m)) (if arrives (ttl_of m) then -1 else -2) e.

(** What is to be printed: for every time to live the machine, once, and the times. *)
Definition probe_out (h : sockaddr) (new : bool) (n : nat) : list shown :=
  if lost n then [OStar] else (if new then [ORouter h] else []) ++ [ORtt (rtt n)].
Definition line (t : nat) : list shown :=
  let h := hop (t + 1) in
  let n := (nprobes * t)%nat in
  OLine (Z.of_nat (t + 1)) :: probe_out h true (n + 1) ++ probe_out h (lost (n + 1)) (n + 2) ++
  probe_out h (lost (n + 1) && lost (n + 2)) (n + 3) ++ [OEnd].
Definition ends_at (t : nat) : bool :=
  let n := (nprobes * t)%nat in arrives (t + 1) && negb (lost (n + 1) && lost (n + 2) && lost (n + 3)).
Fixpoint lines (fuel t : nat) : list nat :=
  match fuel with
  | O => []
  | S fuel' => t :: if ends_at t then [] else lines fuel' (S t)
  end.

Definition host_addr (sa : sockaddr) : Prop :=
  match sa with SIn _ a => length a = 4%nat | SIn6 _ a => length a = 16%nat | _ => False end.
Hypothesis hops_ok : Forall host_addr hops.
Hypothesis dst_ok : host_addr dst.

Lemma hop_ok ttl : host_addr (hop ttl).
Proof using hops_ok dst_ok.
  unfold hop. destruct (nth_in_or_default (ttl - 1) hops dst) as [H| ->]; [|done].
  rewrite Forall_forall in hops_ok. by apply hops_ok, list_elem_of_In.
Qed.

Lemma cmp_hop_new ttl : sock_cmp_addr (hop ttl) (SOther 0) = Def (-1).
Proof using hops_ok dst_ok. pose proof (hop_ok ttl) as H. by destruct (hop ttl). Qed.
Lemma cmp_hop_same ttl : sock_cmp_addr (hop ttl) (hop ttl) = Def 0.
Proof using hops_ok dst_ok.
  pose proof (hop_ok ttl) as H. destruct (hop ttl) as [p a|p a| |]; try done; unfold sock_cmp_addr; cbn [negb sa_family];
    rewrite ?Z.eqb_refl; cbn [negb].
  - destruct (memcmp_eq a a 4 H H) as (z & -> & Hz). f_equal. by apply Hz.
  - destruct (memcmp_eq a a 16 H H) as (z & -> & Hz). f_equal. by apply Hz.
Qed.

(** The state between two datagrams. *)
Record between (m : nat) (s : trace) : Prop := {
  bt_seq : seq_no s = Z.of_nat m;
  bt_sent : sent s = sent_list m;
  bt_buf : length (recvbuf s) = BUFSIZE;
}.

Lemma one_probe_step m (new : bool) s :
  answered m -> between m s -> Z.of_nat (S m) <= INT_MAX ->
  salast s = (if new then SOther 0 else hop (ttl_of m)) ->
  exists s', one_probe dport pr (Z.of_nat (ttl_of m)) s = Ok tt s' /\ between (S m) s' /\
    out s' = out s ++ probe_out (hop (ttl_of m)) new (S m) /\
    salast s' = (if new && lost (S m) then SOther 0 else hop (ttl_of m)) /\
    done_ s' = done_ s + (if arrives (ttl_of m) && negb (lost (S m)) then 1 else 0).
Proof using receiver hops_ok dst_ok.
  intros (Hsend & pre & e & post & Harr & Hpre & He) [Hseq Hsent Hbuf] Hint Hlast.
  unfold one_probe. unfold mbind at 1, M_bind at 1, get at 1.
  assert (int_add (seq_no s) 1 = Def (Z.of_nat (S m))) as Hadd.
  { unfold int_add, int_ok. rewrite Hseq. replace (Z.of_nat m + 1) with (Z.of_nat (S m)) by lia.
    rewrite (proj2 (Z.leb_le INT_MIN _)), (proj2 (Z.leb_le _ INT_MAX)) by (unfold INT_MIN; lia). done. }
  rewrite Hadd, Hsent, Hsend. unfold mbind, M_bind, lift, modify, get, mret, M_ret. cbv zeta beta iota.
  set (s1 := set_sent _ (set_seq _ s)).
  assert (Hs1 : sent s1 = sent_list (S m)) by (cbn; by rewrite Hsent).
  rewrite Hs1. rewrite Harr.
  destruct (lost (S m)) eqn:El.
  - subst e. destruct (recv_lost (Z.of_nat (S m)) pre post s1 Hpre Hbuf) as (s2 & -> & [K1 K2 K3 K4 K5 K6]).
    cbn. eexists. split; [done|]. cbn. rewrite K2, K3, K4, K5, K6. cbn. unfold probe_out. rewrite El, andb_false_r, andb_true_r.
    split; [by split|]. split; [done|]. split; [done|lia].
  - destruct (recv_answered (Z.of_nat (S m)) pre _ _ e post s1 Hpre He Hbuf) as (s2 & -> & [K1 K2 K3 K4 K5 K6] & Kf).
    assert ((if arrives (ttl_of m) then -1 else -2) =? -3 = false) as -> by by destruct (arrives _).
    rewrite Kf, K2. assert (sock_cmp_addr (hop (ttl_of m)) (salast s1) = Def (if new then -1 else 0)) as ->.
    { cbn. rewrite Hlast. destruct new; [apply cmp_hop_new|apply cmp_hop_same]. }
    unfold probe_out. rewrite El, andb_false_r, andb_true_r.
    destruct new, (arrives (ttl_of m)); cbn -[rtt]; (eexists; split; [done|]); cbn -[rtt];
      rewrite ?K2, ?K3, ?K4, ?K5, ?K6; cbn -[rtt]; rewrite ?Hlast, <- ?app_assoc;
      (split; [by split|]; split; [|by split; [|lia]]); do 2 f_equal;
      unfold rtt; rewrite ?Hsent; cbn; by rewrite Nat.sub_0_r.
Qed.

Lemma ttl_of_line t i : (i < nprobes)%nat -> ttl_of (nprobes * t + i) = (t + 1)%nat.
Proof. intros H. unfold ttl_of, nprobes in *. rewrite (Nat.mul_comm 3 t), Nat.div_add_l, (Nat.div_small i 3) by lia. lia. Qed.

(** One line: three datagrams. *)
Lemma line_step t s :
  (forall i, (i < nprobes)%nat -> answered (nprobes * t + i)) -> between (nprobes * t) s ->
  Z.of_nat (nprobes * (t + 1)) <= INT_MAX -> salast s = SOther 0 ->
  exists s', probes dport pr nprobes (Z.of_nat (t + 1)) s = Ok tt s' /\ between (nprobes * (t + 1)) s' /\
    OLine (Z.of_nat (t + 1)) :: out s' ++ [OEnd] = OLine (Z.of_nat (t + 1)) :: out s ++ drop 1 (line t) /\
    (done_ s' = done_ s <-> ends_at t = false) /\ done_ s <= done_ s'.
Proof using receiver hops_ok dst_ok.
  intros Ha Hb Hint Hlast. set (n := (nprobes * t)%nat) in *.
  assert (forall i, (i < nprobes)%nat -> ttl_of (n + i) = (t + 1)%nat) as Httl by (intros i; apply ttl_of_line).
  pose proof (Ha 0%nat ltac:(unfold nprobes; lia)) as A1. pose proof (Ha 1%nat ltac:(unfold nprobes; lia)) as A2.
  pose proof (Ha 2%nat ltac:(unfold nprobes; lia)) as A3.
  pose proof (Httl 0%nat ltac:(unfold nprobes; lia)) as T1. pose proof (Httl 1%nat ltac:(unfold nprobes; lia)) as T2.
  pose proof (Httl 2%nat ltac:(unfold nprobes; lia)) as T3. rewrite Nat.add_0_r in A1, T1.
  replace (nprobes * (t + 1))%nat with (S (n + 2))%nat in * by (unfold n, nprobes; lia).
  destruct (one_probe_step n true s A1 Hb ltac:(lia) Hlast) as (s1 & E1 & B1 & O1 & L1 & D1). rewrite T1 in *.
  replace (S n) with (n + 1)%nat in * by lia. cbn [andb] in L1.
  destruct (one_probe_step (n + 1) (lost (n + 1)) s1 A2 B1 ltac:(lia)) as (s2 & E2 & B2 & O2 & L2 & D2); [by rewrite T2|].
  rewrite T2 in *. replace (S (n + 1)) with (n + 2)%nat in * by lia.
  destruct (one_probe_step (n + 2) (lost (n + 1) && lost (n + 2)) s2 A3 B2 ltac:(lia)) as (s3 & E3 & B3 & O3 & L3 & D3);
    [by rewrite T3|]. rewrite T3 in *. replace (S (n + 2)) with (n + 3)%nat in * by lia.
  exists s3. unfold nprobes at 1. cbn [probes]. unfold mbind, M_bind. rewrite E1, E2, E3. split; [done|]. split; [done|].
  rewrite O3, O2, O1. unfold line. fold n. cbn [drop]. rewrite <- !app_assoc. split; [done|].
  unfold ends_at. fold n. destruct (arrives (t + 1)), (lost (n + 1)), (lost (n + 2)), (lost (n + 3)); cbn [andb negb] in *;
    split; try lia; split; (done || lia).
Qed.

Lemma ttl_loop_lines fuel t max_ttl s :
  Z.of_nat (t + fuel) = max_ttl -> Z.of_nat nprobes * max_ttl <= INT_MAX ->
  (forall m, (m < nprobes * (t + fuel))%nat -> answered m) -> between (nprobes * t) s -> done_ s = 0 ->
  exists s', ttl_loop dport pr fuel max_ttl (Z.of_nat (t + 1)) s = Ok tt s' /\
    out s' = out s ++ (lines fuel t ≫= line) /\ sent s' = sent_list (nprobes * (t + length (lines fuel t))).
Proof using receiver hops_ok dst_ok.
  revert t s. induction fuel as [|fuel IH]; intros t s Hmax Hint Ha Hb Hd; cbn [ttl_loop];
    unfold mbind at 1, M_bind at 1, get; cbv beta iota; rewrite Hd.
  { rewrite (proj2 (Z.leb_gt _ _)) by lia. cbn. exists s. rewrite app_nil_r, Nat.add_0_r. split_and!; [done|done|apply Hb]. }
  rewrite (proj2 (Z.leb_le _ _)) by lia. cbn [andb Z.eqb].
  set (s0 := Trace (recvbuf s) (gotalarm s) (sarecv s) (SOther 0) (seq_no s) (done_ s) (sent s) (out s ++ [OLine (Z.of_nat (t + 1))])).
  destruct (line_step t s0) as (s1 & E1 & B1 & O1 & D1 & D2).
  { intros i Hi. apply Ha. unfold nprobes in *. lia. }
  { by destruct Hb; split. }
  { unfold nprobes in *. lia. }
  { done. }
  unfold show, mbind, M_bind, modify, lift. cbv beta iota.
  match goal with |- context [probes _ _ _ _ ?x] => change x with s0 end. rewrite E1.
  assert (int_add (Z.of_nat (t + 1)) 1 = Def (Z.of_nat (S t + 1))) as ->.
  { unfold int_add, int_ok. unfold nprobes in Hint.
    rewrite (proj2 (Z.leb_le INT_MIN _)), (proj2 (Z.leb_le _ INT_MAX)) by (unfold INT_MIN; lia). cbn [andb]. f_equal. lia. }
  cbv beta iota. set (s2 := Trace _ _ _ _ _ _ _ _).
  assert (Hout : out s2 = out s ++ line t).
  { injection O1 as O1. cbn. rewrite O1. cbn. by rewrite <- app_assoc. }
  cbn [lines]. destruct (ends_at t) eqn:Ee.
  - exists s2. split.
    + assert (done_ s2 =? 0 = false) as Hne by (apply Z.eqb_neq; cbn; intros H0; rewrite <- Hd in H0; by apply D1 in H0; rewrite H0 in Ee).
      destruct fuel; cbn [ttl_loop]; unfold mbind, M_bind, get; cbv beta iota; by rewrite Hne, andb_false_r.
    + cbn [mbind list_bind length]. rewrite app_nil_r. split; [done|]. cbn. by rewrite (bt_sent _ _ B1).
  - destruct (IH (S t) s2) as (s3 & E3 & O3 & S3).
    + lia.
    + done.
    + intros m Hm. apply Ha. lia.
    + replace (nprobes * S t)%nat with (nprobes * (t + 1))%nat by lia. by destruct B1; split.
    + cbn. rewrite <- Hd. by apply D1.
    + exists s3. split; [done|]. cbn [mbind list_bind length]. rewrite O3, Hout, <- app_assoc. split; [done|].
      rewrite S3. do 2 f_equal. lia.
Qed.

Lemma lines_lossless fuel t :
  (forall n, lost n = false) -> (t <= length hops)%nat -> (length hops < t + fuel)%nat ->
  lines fuel t = seq t (S (length hops) - t).
Proof.
  intros Hl. revert t. induction fuel as [|fuel IH]; intros t Ht Hf; [lia|]. cbn [lines].
  replace (S (length hops) - t)%nat with (S (length hops - t)) by lia. cbn [seq]. f_equal.
  unfold ends_at. rewrite !Hl. cbn [andb negb]. rewrite andb_true_r. unfold arrives.
  destruct (Nat.ltb_spec (length hops) (t + 1)).
  - by replace (length hops - t)%nat with 0%nat by lia.
  - rewrite IH by lia. by replace (S (length hops) - S t)%nat with (length hops - t)%nat by lia.
Qed.

Lemma line_lossless t : (forall n, lost n = false) ->
  let n := (nprobes * t)%nat in
  line t = [OLine (Z.of_nat (t + 1)); ORouter (hop (t + 1)); ORtt (rtt (n + 1)); ORtt (rtt (n + 2)); ORtt (rtt (n + 3)); OEnd].
Proof. intros Hl n. unfold line, probe_out. by rewrite !Hl. Qed.
End Path.

(** * Properties *)

Inductive version := V4 | V6.
Definition proto_of (v : version) (sport dport : Z) : proto :=
  match v with V4 => proto_v4 sport dport | V6 => proto_v6 sport dport end.
Definition noise (v : version) := match v with V4 => noise4 | V6 => noise6 end.
Definition answer (v : version) := match v with V4 => answer4 | V6 => answer6 end.

Lemma receiver_of v sport dport :
  Receiver (pr_recv (proto_of v sport dport)) (noise v sport dport) (answer v sport dport).
Proof. destruct v; [apply receiver_v4|apply receiver_v6]. Qed.

(** C33: [traceloop] over IPv4 and over IPv6.  The network has a path of routers to the
    host, every datagram can be sent, and its answer ("time exceeded" from the router
    where its time to live ends, "port unreachable" from the host) arrives before the
    alarm, among interruptions and messages about other things, or not at all; over IPv6
    there is no "time exceeded" about another datagram among these.  Then [traceloop]
    returns; it sends three datagrams for every time to live until the host has
    answered or the limit is reached, and shows for each of them the machine at that
    distance once, with the time between sending and receiving for every answer and
    a star for every datagram without one.  If none is lost, these are exactly the
    routers of the path in order and the host at the end. *)
Theorem traceloop_shows_path {w : World} v sport dport hops dst lost max_ttl s :
  Forall host_addr hops -> host_addr dst ->
  0 <= max_ttl -> Z.of_nat nprobes * max_ttl <= INT_MAX ->
  (forall m, (m < nprobes * Z.to_nat max_ttl)%nat ->
     answered dport (noise v sport dport) (answer v sport dport) hops dst lost m) ->
  length (recvbuf s) = BUFSIZE -> sent s = [] ->
  let ts := lines hops lost (Z.to_nat max_ttl) 0 in
  (exists s', traceloop dport (proto_of v sport dport) max_ttl s = Ok tt s' /\
     out s' = out s ++ (ts ≫= line dport hops dst lost) /\ sent s' = sent_list dport (nprobes * length ts)) /\
  ((forall n, lost n = false) -> Z.of_nat (length hops) < max_ttl ->
   ts = seq 0 (S (length hops)) /\
   forall t, exists r1 r2 r3, line dport hops dst lost t =
     [OLine (Z.of_nat (t + 1)); ORouter (hop hops dst (t + 1)); ORtt r1; ORtt r2; ORtt r3; OEnd]).
Proof.
  intros Hh Hd Hmax Hint Ha Hbuf Hsent ts. split.
  - unfold traceloop, mbind at 1, M_bind at 1, modify.
    destruct (ttl_loop_lines dport (proto_of v sport dport) (noise v sport dport) (answer v sport dport)
                (receiver := receiver_of v sport dport) hops dst lost Hh Hd (Z.to_nat max_ttl) 0 max_ttl (set_done 0 (set_seq 0 s)))
      as (s' & E & Ho & Hs); [lia|done|by intros m Hm; apply Ha|by split|done|].
    exists s'. by split_and!.
  - intros Hl Hlt. split.
    + unfold ts. rewrite lines_lossless by (done || lia). by rewrite Nat.sub_0_r.
    + intros t. eexists _, _, _. by apply line_lossless.
Qed.

Lemma htons_range z : 0 <= htons z < 65536.
Proof. unfold htons, ntohs. Z.div_mod_to_equations. lia. Qed.

(** Two routers and a host; the fourth datagram is lost, and in front of every answer
    comes a signal and the reply to someone's ping. *)
Definition demo_header : Z -> buf := fun p => ip_header 5 (replicate 8 NUL) p (replicate 6 NUL) (replicate 4 NUL) [].
Definition demo_hops : list sockaddr := [SIn 0 (chars "aaaa"); SIn 0 (chars "bbbb")].
Definition demo_host : sockaddr := SIn 0 (chars "zzzz").
Definition demo_lost (n : nat) : bool := (n =? 4)%nat.
Definition demo_echo : buf := demo_header 1 ++ byte_of_Z 0 :: byte_of_Z 0 :: replicate 6 NUL.
Definition demo_answer (n : nat) : buf :=
  let there := arrives demo_hops (ttl_of (n - 1)) in
  report4 5 (replicate 8 NUL) (replicate 6 NUL) (replicate 4 NUL) [] (if there then 3 else 11) (if there then 3 else 0)
    (replicate 6 NUL) 5 (replicate 8 NUL) (replicate 6 NUL) (replicate 4 NUL) []
    (htons (source_port 4711)) (htons (first_dport + Z.of_nat n)) (replicate 4 NUL).
Definition demo_world : World := {|
  arrivals := fun l =>
    let n := length l in
    [Intr false; Pkt (SIn 0 (chars "ping")) demo_echo false] ++
    (if demo_lost n then Intr true else Pkt (hop demo_hops demo_host (ttl_of (n - 1))) (demo_answer n) false) :: [];
  sent_at := fun l => TV (Z.of_nat (length l)) 0;
  received_at := fun l => TV (Z.of_nat (length l)) 1500;
  can_send := fun _ => true |}.

Lemma length_sent_list {w : World} dport n : length (sent_list dport n) = n.
Proof. induction n as [|n IH]; [done|]. cbn. rewrite length_app, IH. cbn. lia. Qed.

Lemma demo_header_ok : ip_header_ok 5 (replicate 8 NUL) (replicate 6 NUL) (replicate 4 NUL) [].
Proof. split; (done || lia). Qed.

Lemma demo_answered m :
  @answered demo_world first_dport (noise4 (source_port 4711) first_dport) (answer4 (source_port 4711) first_dport)
    demo_hops demo_host demo_lost m.
Proof.
  split; [done|]. unfold arrivals, demo_world. cbv zeta. rewrite length_sent_list. eexists _, _, _. split; [done|]. split.
  - apply Forall_cons. split; [constructor|]. apply Forall_cons. split; [|constructor]. apply Noise4_other, OtherIcmp4; [apply demo_header_ok|lia..|done|done].
  - destruct (demo_lost (S m)); [done|]. replace (S m - 1)%nat with m by lia. unfold demo_answer.
    replace (S m - 1)%nat with m by lia. pose proof (htons_range (source_port 4711)).
    pose proof (htons_range (first_dport + Z.of_nat (S m))).
    destruct (arrives demo_hops (ttl_of m)).
    + apply Answer4_port. apply UdpError4; try apply demo_header_ok; try lia; try done. vm_compute. lia.
    + apply Answer4_exceeded. apply UdpError4; try apply demo_header_ok; try lia; try done. vm_compute. lia.
Qed.

(** The same over IPv6: a router and a host, with someone else's "port unreachable" in
    front of every answer. *)
Definition demo_hops6 : list sockaddr := [SIn6 0 (chars "aaaaaaaaaaaaaaaa")].
Definition demo_host6 : sockaddr := SIn6 0 (chars "zzzzzzzzzzzzzzzz").
Definition demo_error6 (type code dp : Z) : buf :=
  report6 type code (replicate 6 NUL) (replicate 6 NUL) PROTO_UDP (replicate 33 NUL)
    (htons (source_port 4711)) (htons dp) (replicate 4 NUL).
Definition demo_answer6 (n : nat) : buf :=
  let there := arrives demo_hops6 (ttl_of (n - 1)) in
  demo_error6 (if there then ICMP6_DST_UNREACH else ICMP6_TIME_EXCEEDED) (if there then ICMP6_DST_UNREACH_NOPORT else 0)
    (first_dport + Z.of_nat n).
Definition demo_world6 : World := {|
  arrivals := fun l =>
    let n := length l in
    [Pkt (SIn6 0 (chars "pppppppppppppppp")) (demo_error6 ICMP6_DST_UNREACH ICMP6_DST_UNREACH_NOPORT first_dport) false;
     Pkt (hop demo_hops6 demo_host6 (ttl_of (n - 1))) (demo_answer6 n) false];
  sent_at := fun l => TV (Z.of_nat (length l)) 0;
  received_at := fun l => TV (Z.of_nat (length l)) 1500;
  can_send := fun _ => true |}.

Lemma demo_udp_error6 type code dp :
  0 <= type < 256 -> 0 <= code < 256 ->
  udp_error6 type code PROTO_UDP (htons (source_port 4711)) (htons dp) (demo_error6 type code dp).
Proof.
  intros. apply UdpError6; try done; try apply htons_range. by apply Nat.leb_le; vm_compute.
Qed.

Lemma demo_answered6 m :
  (m < 9)%nat ->
  @answered demo_world6 first_dport (noise6 (source_port 4711) first_dport) (answer6 (source_port 4711) first_dport)
    demo_hops6 demo_host6 (fun _ => false) m.
Proof.
  intros Hm. split; [done|]. unfold arrivals, demo_world6. cbv zeta. rewrite length_sent_list.
  eexists [_], _, []. split; [done|]. replace (S m - 1)%nat with m by lia. split.
  - apply Forall_cons. split; [|constructor]. eapply Noise6_report; [by apply demo_udp_error6|].
    do 9 (destruct m as [|m]; [vm_compute; reflexivity|]). lia.
  - unfold demo_answer6. replace (S m - 1)%nat with m by lia.
    destruct (arrives demo_hops6 (ttl_of m)); eapply Answer6; [by apply demo_udp_error6| |by apply demo_udp_error6|];
      do 9 (destruct m as [|m]; [vm_compute; reflexivity|]); lia.
Qed.

Definition demo_trace_start : trace := Trace (replicate BUFSIZE NUL) false (SOther 0) (SOther 0) 0 0 [] [].

Lemma traceloop_shows_path_witness :
  (exists s', @traceloop first_dport demo_world (proto_v4 (source_port 4711) first_dport) 30 demo_trace_start = Ok tt s' /\
    out s' = [OLine 1; ORouter (SIn 0 (chars "aaaa")); ORtt (TV 1 1500); ORtt (TV 1 1500); ORtt (TV 1 1500); OEnd;
              OLine 2; OStar; ORouter (SIn 0 (chars "bbbb")); ORtt (TV 1 1500); ORtt (TV 1 1500); OEnd;
              OLine 3; ORouter demo_host; ORtt (TV 1 1500); ORtt (TV 1 1500); ORtt (TV 1 1500); OEnd] /\
    length (sent s') = 9%nat) /\
  (exists s', @traceloop first_dport demo_world6 (proto_v6 (source_port 4711) first_dport) 3 demo_trace_start = Ok tt s' /\
    out s' = [OLine 1; ORouter (SIn6 0 (chars "aaaaaaaaaaaaaaaa")); ORtt (TV 1 1500); ORtt (TV 1 1500); ORtt (TV 1 1500); OEnd;
              OLine 2; ORouter demo_host6; ORtt (TV 1 1500); ORtt (TV 1 1500); ORtt (TV 1 1500); OEnd]).
Proof.
  split.
  - destruct (@traceloop_shows_path demo_world V4 (source_port 4711) first_dport
                demo_hops demo_host demo_lost 30 demo_trace_start) as [(s' & E & Ho & Hs) _].
    + repeat constructor.
    + reflexivity.
    + lia.
    + unfold INT_MAX, nprobes. lia.
    + intros m _. apply demo_answered.
    + reflexivity.
    + reflexivity.
    + exists s'. split; [exact E|]. split; [rewrite Ho; vm_compute; reflexivity|]. rewrite Hs, length_sent_list. reflexivity.
  - destruct (@traceloop_shows_path demo_world6 V6 (source_port 4711) first_dport
                demo_hops6 demo_host6 (fun _ => false) 3 demo_trace_start) as [(s' & E & Ho & _) _].
    + repeat constructor.
    + reflexivity.
    + lia.
    + unfold INT_MAX, nprobes. lia.
    + intros m Hm. apply demo_answered6. exact Hm.
    + reflexivity.
    + reflexivity.
    + exists s'. split; [exact E|]. rewrite Ho. vm_compute. reflexivity.
Defined.

(** The whole program on that network. *)
Example demo_trace_main :
  match @trace_main demo_ns demo_world 4711 30 (chars "vm1")
          (Trace (replicate BUFSIZE NUL) false (SOther 0) (SOther 0) 0 0 [] []) with
  | Ok _ s => (length (out s), last (p_ttl <$> sent s))
  | _ => (0%nat, None)
  end = (18%nat, Some 3).
Proof. vm_compute. reflexivity. Qed.
