(* ===== verification/PingLoop.v ===== *)
(** * The program ping

    Stevens/unpv13e/ping: readloop.c, sig_alrm.c, send_v6.c, proc_v6.c and main.c, on
    top of send_v4.c and proc_v4.c (file Cksum).  Every second the signal handler
    sends a request; the main loop reports the replies. *)

From S2P Require Import Prelude CLib Inet Inet6 Cksum Sockaddr Gai Conn.

Definition ICMP6_ECHO_REQUEST : Z := 128.
Definition ICMP6_ECHO_REPLY : Z := 129.
Definition IPPROTO_IPV6 : Z := 41.
Definition IPV6_HOPLIMIT : Z := 52.

(** Ancillary data of a message. *)
Record cmsg := Cmsg { cmsg_level : Z; cmsg_type : Z; cmsg_data : buf }.

(** ** IPv6 *)

(** The kernel fills in the checksum; its two bytes are whatever [sendbuf] has. *)
Definition send_v6 (now : timeval) (g : ping) : chk (buf * ping) :=
  b1 ← store (sendbuf g) 0 [byte_of_Z ICMP6_ECHO_REQUEST; byte_of_Z 0];
  b2 ← store b1 4 (le16 (pid g) ++ le16 (nsent g));
  n' ← int_add (nsent g) 1;
  b3 ← store b2 8 (replicate (Z.to_nat (datalen g)) (byte_of_Z 165));
  b4 ← store b3 8 (tv_bytes now);
  let len := 8 + datalen g in
  mret (take (Z.to_nat len) b4, Ping b4 (datalen g) n' (pid g)).

(** The first hop limit among the ancillary data; -1 if there is none. *)
Fixpoint hop_limit (l : list cmsg) : chk Z :=
  match l with
  | [] => mret (-1)
  | c :: l' =>
      if (cmsg_level c =? IPPROTO_IPV6) && (cmsg_type c =? IPV6_HOPLIMIT)
      then (if (length (cmsg_data c) <? 4)%nat then Bad BadPointer else mret (wrap_int (of_le32 (take 4 (cmsg_data c)))))
      else hop_limit l'
  end.

Definition proc_v6 (ptr : buf) (len : Z) (msg : list cmsg) (tvrecv : timeval) (pid : Z) (verbose : bool) : chk echo :=
  if len <? 8 then mret Ignored else
  typ ← byte_at ptr 0;
  if typ =? ICMP6_ECHO_REPLY then
    id ← u16_at ptr 4;
    if negb (id =? pid) then mret Ignored
    else if len <? 16 then mret Ignored
    else
      tvsend ← tv_at ptr 8;
      hlim ← hop_limit msg;
      seq ← u16_at ptr 6;
      mret (Reply len seq hlim (tv_sub tvrecv tvsend))
  else if verbose then
    code ← byte_at ptr 1;
    mret (Verbose len typ code)
  else mret Ignored.

(** ** The loop *)

(** [struct proto]: the two functions of a protocol. *)
Record proto := Proto {
  fproc : buf -> Z -> list cmsg -> timeval -> Z -> bool -> chk echo;
  fsend : timeval -> ping -> chk (buf * ping) }.
Definition proto_v4 : proto := Proto (fun ptr len _ => proc_v4 ptr len) send_v4.
Definition proto_v6 : proto := Proto proc_v6 send_v6.

(** The globals, the receive buffer of [readloop], the packets sent and what is
    printed. *)
Record session := Session { globals : ping; recvbuf : buf; sent : list buf; shown : list echo }.

(** What happens to the program: the alarm goes off (at a time; the datagram can be sent
    or not), a message arrives, a call is interrupted, or it fails. *)
Inductive happening :=
  | Alarm (now : timeval) (ok : bool)
  | Message (b : buf) (msg : list cmsg) (now : timeval)
  | Interrupted
  | RecvError.

Section Loop.
Context (pr : proto) (verbose : bool).

Definition sig_alrm (now : timeval) (ok : bool) : M session unit :=
  s ← get;
  '(pkt, g') ← lift (fsend pr now (globals s));
  if (ok : bool) then modify (fun s => Session g' (recvbuf s) (sent s ++ [pkt]) (shown s)) else abort_with ErrExit.

(** [recvmsg] and what is done with the message. *)
Definition on_message (b : buf) (msg : list cmsg) (now : timeval) : M session unit :=
  let d := take BUFSIZE b in
  modify (fun s => Session (globals s) (d ++ drop (length d) (recvbuf s)) (sent s) (shown s));;
  s ← get;
  r ← lift (fproc pr (recvbuf s) (Z.of_nat (length d)) msg now (pid (globals s)) verbose);
  match r with
  | Ignored => mret tt
  | _ => modify (fun s => Session (globals s) (recvbuf s) (sent s) (shown s ++ [r]))
  end.

Definition react (h : happening) : M session unit :=
  match h with
  | Alarm now ok => sig_alrm now ok
  | Message b msg now => on_message b msg now
  | Interrupted => mret tt
  | RecvError => abort_with ErrExit
  end.

Fixpoint loop (hs : list happening) : M session unit :=
  match hs with
  | [] => mret tt
  | h :: hs' => react h;; loop hs'
  end.

(** The handler is called once to send the first request. *)
Definition readloop (now : timeval) (ok : bool) (hs : list happening) : M session unit :=
  sig_alrm now ok;; loop hs.
End Loop.

(** main, after its options. *)
Definition ping_main {ns : NameService} (verbose : bool) (host : buf) (now : timeval) (ok : bool) (hs : list happening)
    : M session unit :=
  r ← lift (host_serv (Some host) None 0 0);
  match r with
  | None => abort_with ErrExit
  | Some l =>
      ai ← follow (l !! 0%nat);
      if ai_family ai =? AF_INET then readloop proto_v4 verbose now ok hs
      else if ai_family ai =? AF_INET6 then
        match ai_addr ai with
        | Some (SIn6 _ a) => if v4_mapped a then abort_with ErrExit else readloop proto_v6 verbose now ok hs
        | _ => lift (Bad BadPointer)
        end
      else abort_with ErrExit
  end.

(** * Lemmas *)

Record ping_ok (dl id : Z) (g : ping) : Prop := {
  po_buf : length (sendbuf g) = BUFSIZE;
  po_len : datalen g = dl;
  po_pid : pid g = id;
}.

(** ** The interface of the two protocols

    A request goes out for every sequence number; the message that a host sends back
    for it is recognised; of any other message the protocol makes what it is to make. *)
Class Pinger (pr : proto) (verbose : bool) (dl id : Z) (request : Z -> timeval -> buf -> Prop)
    (answer : Z -> buf -> buf -> list cmsg -> Prop) (other : buf -> list cmsg -> echo -> Prop) : Prop := {
  makes_request : forall g now, ping_ok dl id g -> int_ok (nsent g + 1) = true ->
    exists pkt g', fsend pr now g = Def (pkt, g') /\ request (nsent g) now pkt /\
                   ping_ok dl id g' /\ nsent g' = nsent g + 1;
  knows_reply : forall n t pkt ttl b msg stale now, request n t pkt -> answer ttl pkt b msg -> tv_ok t ->
    fproc pr (take BUFSIZE b ++ stale) (Z.of_nat (length (take BUFSIZE b))) msg now id verbose
    = Def (Reply (8 + dl) (n mod 65536) ttl (tv_sub now t));
  handles_other : forall b msg r stale now, other b msg r ->
    length (take BUFSIZE b ++ stale) = BUFSIZE ->
    fproc pr (take BUFSIZE b ++ stale) (Z.of_nat (length (take BUFSIZE b))) msg now id verbose = Def r;
}.

(** ** The two instances *)

Section Instances.
Context (verbose : bool) (dl id : Z).
Hypothesis Hdl : 16 <= dl <= 1472.
Hypothesis Hid : 0 <= id < 65536.

(** A request behind its checksum: identifier, number, time and pattern. *)
Definition body (n : Z) (t : timeval) : buf :=
  le16 id ++ le16 n ++ tv_bytes t ++ replicate (Z.to_nat dl - 16) (byte_of_Z 165).

Lemma length_body n t : Z.of_nat (length (body n t)) = dl + 4.
Proof using Hdl. unfold body. rewrite !length_app, length_replicate, length_tv_bytes. cbn. lia. Qed.

(** Request [n], made at [t]: an echo request whose checksum is right. *)
Definition request4 (n : Z) (t : timeval) (pkt : buf) : Prop :=
  exists sum, length sum = 2%nat /\ pkt = [byte_of_Z ICMP_ECHO; byte_of_Z 0] ++ sum ++ body n t /\
              in_cksum pkt (8 + dl) = Def 0.

(** What the kernel gives with a message over IPv4: an IP header without options,
    with the protocol and a time to live. *)
Record iphdr_ok (hd : buf) (proto ttl : Z) : Prop := {
  ip_len : length hd = 20%nat;
  ip_ihl : Z_of_byte (nth 0 hd NUL) mod 16 = 5;
  ip_proto : Z_of_byte (nth 9 hd NUL) = proto;
  ip_ttl : Z_of_byte (nth 8 hd NUL) = ttl;
}.

(** The answer to a packet: the packet with another type and checksum, behind an IP
    header. *)
Inductive answer4 (ttl : Z) (pkt : buf) : buf -> list cmsg -> Prop :=
  | Answer4 hd sum msg : iphdr_ok hd IPPROTO_ICMP ttl -> length sum = 2%nat ->
      answer4 ttl pkt (hd ++ [byte_of_Z ICMP_ECHOREPLY; byte_of_Z 0] ++ sum ++ drop 4 pkt) msg.

(** Other messages: of another protocol, too short, a reply for another process, and
    messages of other types, which are shown in a verbose session. *)
Inductive other4 : buf -> list cmsg -> echo -> Prop :=
  | Other4_proto b msg : (10 <= length b)%nat -> Z_of_byte (nth 9 b NUL) <> IPPROTO_ICMP -> other4 b msg Ignored
  | Other4_short hd ttl rest msg : iphdr_ok hd IPPROTO_ICMP ttl -> (length rest < 8)%nat -> other4 (hd ++ rest) msg Ignored
  | Other4_id hd ttl c0 c1 c2 id' rest msg :
      iphdr_ok hd IPPROTO_ICMP ttl -> 0 <= id' < 65536 -> id' <> id -> (2 <= length rest)%nat ->
      other4 (hd ++ byte_of_Z ICMP_ECHOREPLY :: [c0; c1; c2] ++ le16 id' ++ rest) msg Ignored
  | Other4_type hd ttl typ code rest msg :
      iphdr_ok hd IPPROTO_ICMP ttl -> 0 <= typ < 256 -> typ <> ICMP_ECHOREPLY -> (6 <= length rest)%nat ->
      let m := hd ++ byte_of_Z typ :: code :: rest in
      (length m <= BUFSIZE)%nat ->
      other4 m msg (if verbose then Verbose (Z.of_nat (length m) - 20) typ (Z_of_byte code) else Ignored).

(** [proc_v4] behind an IP header. *)
Lemma proc_v4_behind hd ttl rest len now :
  iphdr_ok hd IPPROTO_ICMP ttl ->
  proc_v4 (hd ++ rest) len now id verbose =
  if len - 20 <? 8 then Def Ignored else
  typ ← byte_at (hd ++ rest) 20;
  if typ =? ICMP_ECHOREPLY then
    i ← u16_at (hd ++ rest) 24;
    if negb (i =? id) then mret Ignored
    else if len - 20 <? 16 then mret Ignored
    else
      tvsend ← tv_at (hd ++ rest) 28;
      seq ← u16_at (hd ++ rest) 26;
      x ← byte_at (hd ++ rest) 8;
      mret (Reply (len - 20) seq x (tv_sub now tvsend))
  else if verbose then code ← byte_at (hd ++ rest) 21; mret (Verbose (len - 20) typ code)
  else mret Ignored.
Proof using Type.
  intros [Hhd Hihl Hproto _]. do 20 (destruct hd as [|? hd]; [done|]). destruct hd; [|done]. cbn [nth] in *.
  set (hd := [_; _; _; _; _; _; _; _; _; _; _; _; _; _; _; _; _; _; _; _]).
  unfold proc_v4. change (byte_at (hd ++ _) 0) with (Def (Z_of_byte a)).
  change (byte_at (hd ++ _) 9) with (Def (Z_of_byte a8)).
  by rewrite !chk_bind_Def, Hihl, Hproto, Z.eqb_refl.
Qed.

Lemma nth_take_app (b stale : buf) k n : (k < n)%nat -> (k < length b)%nat -> nth_error (take n b ++ stale) k = Some (nth k b NUL).
Proof using Type.
  intros Hk Hb. rewrite nth_error_app1 by (rewrite length_take; lia). rewrite nth_error_firstn.
  rewrite (proj2 (Nat.ltb_lt k n) Hk). by apply nth_error_nth'.
Qed.

(** The receive buffer after a message with a header. *)
Lemma take_behind hd rest (stale : buf) :
  length hd = 20%nat -> take BUFSIZE (hd ++ rest) ++ stale = hd ++ take 1480 rest ++ stale.
Proof using Type. intros H. rewrite take_app_ge by (unfold BUFSIZE; lia). by rewrite H, <- app_assoc. Qed.

Lemma proc_v4_other b msg r stale now :
  other4 b msg r -> length (take BUFSIZE b ++ stale) = BUFSIZE ->
  proc_v4 (take BUFSIZE b ++ stale) (Z.of_nat (length (take BUFSIZE b))) now id verbose = Def r.
Proof using Type.
  intros Hf Hlen.
  destruct Hf as [b msg Hb Hp|hd ttl rest msg H Hr|hd ttl c0 c1 c2 id' rest msg H H5 H6 Hr|hd ttl typ code rest msg H H4 H5 Hr m Hm].
  - unfold proc_v4, byte_at. rewrite (nth_take_app b stale 0) by (unfold BUFSIZE; lia).
    rewrite (nth_take_app b stale 9) by (unfold BUFSIZE; lia). rewrite !chk_bind_Def. by rewrite (proj2 (Z.eqb_neq _ _) Hp).
  - rewrite take_behind, (proc_v4_behind _ _ _ _ _ H) by apply H.
    rewrite (proj2 (Z.ltb_lt _ 8)); [done|]. rewrite length_take, length_app, (ip_len _ _ _ H). lia.
  - rewrite take_behind, (proc_v4_behind _ _ _ _ _ H) by apply H. destruct (_ <? 8); [done|].
    change (take 1480 (byte_of_Z ICMP_ECHOREPLY :: [c0; c1; c2] ++ le16 id' ++ rest))
      with (byte_of_Z ICMP_ECHOREPLY :: [c0; c1; c2] ++ le16 id' ++ take 1474 rest). cbn [app].
    rewrite (byte_at_app hd (byte_of_Z ICMP_ECHOREPLY) _ 20) by (symmetry; apply H).
    rewrite chk_bind_Def. change (Z_of_byte (byte_of_Z ICMP_ECHOREPLY) =? ICMP_ECHOREPLY) with true. cbn [negb].
    replace (hd ++ byte_of_Z ICMP_ECHOREPLY :: c0 :: c1 :: c2 :: (le16 id' ++ take 1474 rest) ++ stale)
      with ((hd ++ [byte_of_Z ICMP_ECHOREPLY; c0; c1; c2]) ++ le16 id' ++ take 1474 rest ++ stale)
      by (rewrite <- app_assoc; cbn [app]; by rewrite <- app_assoc).
    rewrite (u16_at_app _ _ _ 24) by (rewrite length_app, (ip_len _ _ _ H); done).
    rewrite chk_bind_Def, Z.mod_small by done. by rewrite (proj2 (Z.eqb_neq _ _) H6).
  - rewrite (take_ge m) by done. unfold m. rewrite <- app_assoc, (proc_v4_behind _ _ _ _ _ H). fold m.
    assert (length m = 22 + length rest)%nat as Hl by (unfold m; rewrite length_app, (ip_len _ _ _ H); done).
    rewrite (proj2 (Z.ltb_ge _ 8)) by lia. cbn [app].
    rewrite (byte_at_app hd (byte_of_Z typ) _ 20) by (symmetry; apply H).
    rewrite chk_bind_Def, Z_of_byte_of_Z, Z.mod_small, (proj2 (Z.eqb_neq _ _) H5) by done.
    destruct verbose; [|done].
    replace (hd ++ byte_of_Z typ :: code :: rest ++ stale) with ((hd ++ [byte_of_Z typ]) ++ code :: rest ++ stale)
      by (rewrite <- app_assoc; reflexivity).
    by rewrite (byte_at_app _ code _ 21) by (rewrite length_app, (ip_len _ _ _ H); done).
Qed.

#[export] Instance pinger_v4 : Pinger proto_v4 verbose dl id request4 answer4 other4.
Proof using Hdl Hid.
  split.
  - intros g now [Hb Hd Hp] Hn. destruct (send_v4_packet now g Hb ltac:(lia) Hn) as (g' & c & E & Hc & H1 & H2 & H3 & H4).
    rewrite Hd, Hp in *. eexists _, g'. split; [exact E|]. split; [|by split].
    exists (le16 c). split; [done|]. split; [done|]. by apply echo_request_verifies; [lia|].
  - intros n t pkt ttl b msg stale now (sum0 & Hs0 & -> & _) [hd sum msg' H H5] Ht. cbn [fproc proto_v4].
    replace (drop 4 ([byte_of_Z ICMP_ECHO; byte_of_Z 0] ++ sum0 ++ body n t)) with (body n t)
      by (destruct sum0 as [|? [|? [|]]]; done).
    set (m := hd ++ _). assert (Z.of_nat (length m) = 28 + dl) as Hm.
    { unfold m. rewrite !length_app, (ip_len _ _ _ H). pose proof (length_body n t). cbn [length]. lia. }
    rewrite take_ge by (unfold BUFSIZE; lia). rewrite Hm. unfold m, body. rewrite <- !app_assoc.
    rewrite proc_v4_reply by (apply H || done || lia). rewrite (ip_ttl _ _ _ H). do 2 f_equal. lia.
  - intros b msg r stale now Hf Hlen. by eapply proc_v4_other.
Qed.

(** IPv6: the message starts with the ICMP header, and the kernel puts the checksum
    into what is sent. *)
Definition request6 (n : Z) (t : timeval) (pkt : buf) : Prop :=
  exists sum, length sum = 2%nat /\ pkt = [byte_of_Z ICMP6_ECHO_REQUEST; byte_of_Z 0] ++ sum ++ body n t.

Inductive answer6 (ttl : Z) (pkt : buf) : buf -> list cmsg -> Prop :=
  | Answer6 sum msg : length sum = 2%nat -> hop_limit msg = Def ttl ->
      answer6 ttl pkt ([byte_of_Z ICMP6_ECHO_REPLY; byte_of_Z 0] ++ sum ++ drop 4 pkt) msg.

Inductive other6 : buf -> list cmsg -> echo -> Prop :=
  | Other6_short b msg : (length b < 8)%nat -> other6 b msg Ignored
  | Other6_id sum id' rest msg : length sum = 2%nat -> 0 <= id' < 65536 -> id' <> id ->
      other6 ([byte_of_Z ICMP6_ECHO_REPLY; byte_of_Z 0] ++ sum ++ le16 id' ++ rest) msg Ignored
  | Other6_type typ code rest msg :
      0 <= typ < 256 -> typ <> ICMP6_ECHO_REPLY -> (6 <= length rest)%nat ->
      let m := byte_of_Z typ :: code :: rest in
      (length m <= BUFSIZE)%nat ->
      other6 m msg (if verbose then Verbose (Z.of_nat (length m)) typ (Z_of_byte code) else Ignored).

(** The packet of [send_v6]: as [send_v4] but for the type and the checksum, which is
    left as it was. *)
Lemma send_v6_packet now g :
  length (sendbuf g) = BUFSIZE -> 16 <= datalen g <= 1492 -> int_ok (nsent g + 1) = true ->
  exists g' sum, length sum = 2%nat /\
    send_v6 now g = Def ([byte_of_Z ICMP6_ECHO_REQUEST; byte_of_Z 0] ++ sum ++ le16 (pid g) ++ le16 (nsent g) ++
                         tv_bytes now ++ replicate (Z.to_nat (datalen g) - 16) (byte_of_Z 165), g') /\
    nsent g' = nsent g + 1 /\ length (sendbuf g') = BUFSIZE /\ datalen g' = datalen g /\ pid g' = pid g.
Proof using Type.
  intros Hb Hd Hn. unfold BUFSIZE in *. destruct g as [sb dl' ns id'']. cbn [sendbuf datalen nsent pid] in *.
  do 8 (destruct sb as [|? sb]; [done|]). cbn [length] in Hb.
  set (n := Z.to_nat dl'). assert (16 <= n <= 1492)%nat as Hn' by lia.
  assert (length (take n sb) = n) as Hdl' by (rewrite length_take; lia).
  rewrite <- (take_drop n sb).
  set (d := take n sb) in *. set (r := drop n sb) in *.
  assert (length r = 1492 - n)%nat as Hrl by (unfold r; rewrite length_drop; lia). clearbody d r. clear Hb sb.
  exists (Ping ((([byte_of_Z ICMP6_ECHO_REQUEST; byte_of_Z 0] ++ [a1; a2]) ++ le16 id'' ++ le16 ns) ++
                tv_bytes now ++ replicate (n - 16) (byte_of_Z 165) ++ r) dl' (ns + 1) id''), [a1; a2].
  split; [done|]. unfold send_v6. cbn [sendbuf datalen nsent pid].
  rewrite (store_at [] [a; a0] ([a1; a2; a3; a4; a5; a6] ++ d ++ r)) by done. rewrite chk_bind_Def.
  set (h := [byte_of_Z ICMP6_ECHO_REQUEST; byte_of_Z 0]).
  rewrite (store_at (h ++ [a1; a2]) [a3; a4; a5; a6] (d ++ r)) by done.
  rewrite chk_bind_Def. unfold int_add. rewrite Hn, chk_bind_Def. fold n.
  set (t := le16 id'' ++ le16 ns). rewrite (app_assoc _ t).
  rewrite (store_at ((h ++ [a1; a2]) ++ t) d r) by (rewrite ?length_replicate; done). rewrite chk_bind_Def.
  replace (replicate n (byte_of_Z 165)) with (replicate 16 (byte_of_Z 165) ++ replicate (n - 16) (byte_of_Z 165))
    by (rewrite <- replicate_add; f_equal; lia).
  rewrite <- (app_assoc (replicate 16 _)).
  rewrite (store_at ((h ++ [a1; a2]) ++ t)) by done. rewrite chk_bind_Def.
  split; [|cbn [nsent sendbuf datalen pid]; split; [done|]; split; [|done];
           rewrite !length_app, length_replicate, length_tv_bytes; unfold h, t, le16; cbn [length app]; lia].
  unfold mret, chk_ret. do 2 f_equal.
  replace (((h ++ [a1; a2]) ++ t) ++ tv_bytes now ++ replicate (n - 16) (byte_of_Z 165) ++ r)
    with ((h ++ [a1; a2] ++ t ++ tv_bytes now ++ replicate (n - 16) (byte_of_Z 165)) ++ r)
    by (by rewrite <- !app_assoc).
  rewrite take_len; [by unfold t; rewrite <- !app_assoc|].
  rewrite !length_app, length_replicate, length_tv_bytes. unfold h, t, le16. cbn [length app]. lia.
Qed.

#[export] Instance pinger_v6 : Pinger proto_v6 verbose dl id request6 answer6 other6.
Proof using Hdl Hid.
  split.
  - intros g now [Hb Hd Hp] Hn. destruct (send_v6_packet now g Hb ltac:(lia) Hn) as (g' & sum & Hs & E & H1 & H2 & H3 & H4).
    rewrite Hd, Hp in *. eexists _, g'. split; [exact E|]. split; [by exists sum|]. by split.
  - intros n t pkt ttl b msg stale now (sum0 & Hs0 & ->) [sum msg' H1 H2] Ht. cbn [fproc proto_v6].
    replace (drop 4 ([byte_of_Z ICMP6_ECHO_REQUEST; byte_of_Z 0] ++ sum0 ++ body n t)) with (body n t)
      by (destruct sum0 as [|? [|? [|]]]; done).
    set (m := [byte_of_Z ICMP6_ECHO_REPLY; byte_of_Z 0] ++ sum ++ body n t). assert (Z.of_nat (length m) = 8 + dl) as Hm.
    { unfold m. rewrite !length_app. pose proof (length_body n t). cbn [length]. lia. }
    rewrite take_ge by (unfold BUFSIZE; lia). rewrite Hm. unfold m, body. destruct sum as [|s0 [|s1 [|]]]; try done.
    rewrite <- !app_assoc. unfold proc_v6. rewrite (proj2 (Z.ltb_ge _ 8)), (proj2 (Z.ltb_ge _ 16)) by lia.
    change (byte_at ([byte_of_Z ICMP6_ECHO_REPLY; byte_of_Z 0] ++ _) 0) with (Def ICMP6_ECHO_REPLY).
    rewrite chk_bind_Def, Z.eqb_refl. rewrite (app_assoc _ [s0; s1]).
    rewrite (u16_at_app _ _ _ 4), chk_bind_Def, (Z.mod_small id), Z.eqb_refl by done. cbn [negb]. rewrite app_assoc.
    rewrite (u16_at_app _ n _ 6) by done. rewrite app_assoc, (tv_at_app _ t _ 8) by done. by rewrite H2.
  - intros b msg r stale now Hf Hlen. cbn [fproc proto_v6].
    destruct Hf as [b msg Hb|sum id' rest msg H1 H2 H3|typ code rest msg H1 H2 Hr m Hm]; unfold proc_v6.
    + rewrite (proj2 (Z.ltb_lt _ 8)); [done|]. rewrite length_take. lia.
    + destruct (_ <? 8); [done|]. destruct sum as [|s0 [|s1 [|]]]; try done.
      change (take BUFSIZE ([byte_of_Z ICMP6_ECHO_REPLY; byte_of_Z 0] ++ [s0; s1] ++ le16 id' ++ rest) ++ stale)
        with ([byte_of_Z ICMP6_ECHO_REPLY; byte_of_Z 0; s0; s1] ++ le16 id' ++ take 1494 rest ++ stale).
      change (byte_at ([byte_of_Z ICMP6_ECHO_REPLY; byte_of_Z 0; s0; s1] ++ _) 0) with (Def ICMP6_ECHO_REPLY).
      rewrite chk_bind_Def, Z.eqb_refl, (u16_at_app _ _ _ 4), chk_bind_Def, Z.mod_small by done.
      by rewrite (proj2 (Z.eqb_neq _ _) H3).
    + rewrite (take_ge m) by done. rewrite (proj2 (Z.ltb_ge _ 8)) by (unfold m; cbn [length]; lia).
      change (byte_at (m ++ stale) 0) with (Def (Z_of_byte (byte_of_Z typ))).
      change (byte_at (m ++ stale) 1) with (Def (Z_of_byte code)).
      rewrite chk_bind_Def, Z_of_byte_of_Z, Z.mod_small by done. rewrite (proj2 (Z.eqb_neq _ _) H2). by destruct verbose.
Qed.
End Instances.

(** ** A session *)

Section Session.
Context (pr : proto) (verbose : bool) (dl id : Z) (request : Z -> timeval -> buf -> Prop).
Context (answer : Z -> buf -> buf -> list cmsg -> Prop) (other : buf -> list cmsg -> echo -> Prop).
Context {pinger : Pinger pr verbose dl id request answer other}.

(** What a report puts on the screen. *)
Definition line (r : echo) : list echo := match r with Ignored => [] | _ => [r] end.

(** What may happen, in the globals [g] and after the packets [out] sent at their
    times, and what is to be shown: for every answer to one of the packets sent, a line
    with the number of the packet and the time since it was sent; for other messages
    what the protocol makes of them. *)
Inductive happens (g : ping) (out : list (buf * timeval)) : list happening -> list echo -> Prop :=
  | hap_nil : happens g out [] []
  | hap_alarm now hs lines :
      tv_ok now -> (forall pkt g', fsend pr now g = Def (pkt, g') -> happens g' (out ++ [(pkt, now)]) hs lines) ->
      happens g out (Alarm now true :: hs) lines
  | hap_intr hs lines : happens g out hs lines -> happens g out (Interrupted :: hs) lines
  | hap_other b msg now r hs lines :
      other b msg r -> happens g out hs lines -> happens g out (Message b msg now :: hs) (line r ++ lines)
  | hap_reply n pkt t ttl b msg now hs lines :
      out !! n = Some (pkt, t) -> answer ttl pkt b msg -> happens g out hs lines ->
      happens g out (Message b msg now :: hs) (Reply (8 + dl) (Z.of_nat n mod 65536) ttl (tv_sub now t) :: lines).

(** The times of the alarms. *)
Definition alarms (hs : list happening) : list timeval :=
  omap (fun h => match h with Alarm now _ => Some now | _ => None end) hs.

Record running (out : list (buf * timeval)) (s : session) : Prop := {
  ru_ok : ping_ok dl id (globals s);
  ru_nsent : nsent (globals s) = Z.of_nat (length out);
  ru_sent : sent s = out.*1;
  ru_buf : length (recvbuf s) = BUFSIZE;
  ru_req : forall n pkt t, out !! n = Some (pkt, t) -> tv_ok t /\ request (Z.of_nat n) t pkt;
}.

Lemma nsent_ok n : Z.of_nat n < INT_MAX -> int_ok (Z.of_nat n + 1) = true.
Proof using Type. intros H. unfold int_ok. by rewrite (proj2 (Z.leb_le INT_MIN _)), (proj2 (Z.leb_le _ INT_MAX)) by (unfold INT_MIN; lia). Qed.

(** An alarm, with what the request is instead of the run of [fsend]. *)
Lemma happens_alarm g out now hs lines :
  ping_ok dl id g -> int_ok (nsent g + 1) = true -> tv_ok now ->
  (forall pkt g', request (nsent g) now pkt -> ping_ok dl id g' -> nsent g' = nsent g + 1 ->
     happens g' (out ++ [(pkt, now)]) hs lines) ->
  happens g out (Alarm now true :: hs) lines.
Proof using pinger.
  intros Hg Hn Hnow H. apply hap_alarm; [done|]. intros pkt g' E.
  destruct (makes_request g now Hg Hn) as (pkt' & g'' & E' & H1 & H2 & H3). rewrite E in E'. injection E' as <- <-. auto.
Qed.

Lemma sig_alrm_step out now s :
  running out s -> tv_ok now -> Z.of_nat (length out) < INT_MAX ->
  exists pkt g' s', fsend pr now (globals s) = Def (pkt, g') /\ sig_alrm pr now true s = Ok tt s' /\
    globals s' = g' /\ running (out ++ [(pkt, now)]) s' /\ shown s' = shown s.
Proof using pinger.
  intros [Hg Hn Hs Hb Ht] Hnow Hlt. unfold sig_alrm, mbind, M_bind, get, lift.
  destruct (makes_request (globals s) now Hg) as (pkt & g' & -> & Hr & Hg' & Hn').
  { rewrite Hn. by apply nsent_ok. }
  eexists pkt, g', _. split; [done|]. split; [done|]. split; [done|]. split; [|done]. split; cbn.
  - done.
  - rewrite length_app. cbn [length]. lia.
  - by rewrite fmap_app, Hs.
  - done.
  - intros n p t Hl. apply lookup_app_Some in Hl as [Hl|[Hge Hl]]; [by apply Ht|].
    destruct (n - length out)%nat as [|j] eqn:Ej; [|by destruct j]. injection Hl as <- <-.
    split; [done|]. replace (Z.of_nat n) with (nsent (globals s)); [done|lia].
Qed.

(** One message, as the protocol sees it. *)
Lemma on_message_step out b msg now r s :
  running out s ->
  (forall stale, length (take BUFSIZE b ++ stale) = BUFSIZE ->
     fproc pr (take BUFSIZE b ++ stale) (Z.of_nat (length (take BUFSIZE b))) msg now id verbose = Def r) ->
  exists s', on_message pr verbose b msg now s = Ok tt s' /\ globals s' = globals s /\ running out s' /\
    shown s' = shown s ++ line r.
Proof using Type.
  intros [Hg Hn Hs Hb Ht] Hr. unfold on_message, mbind, M_bind, modify, get, lift. cbv zeta beta iota.
  set (d := take BUFSIZE b) in *. cbn [recvbuf globals].
  assert (length (d ++ drop (length d) (recvbuf s)) = BUFSIZE) as Hlen.
  { assert (length d <= BUFSIZE)%nat by (unfold d; rewrite length_take; lia). rewrite length_app, length_drop, Hb. lia. }
  rewrite (po_pid _ _ _ Hg), (Hr _ Hlen).
  destruct r; (eexists; split; [done|]; split; [done|]; split; [by split|]; cbn; by rewrite ?app_nil_r).
Qed.

(** What a run from here on has sent and shown. *)
Definition ends_well (out : list (buf * timeval)) (s : session) (hs : list happening) (lines : list echo) : Prop :=
  exists s' out', loop pr verbose hs s = Ok tt s' /\ shown s' = shown s ++ lines /\ running out' s' /\
    out'.*2 = out.*2 ++ alarms hs.

Lemma ends_well_message out s b msg now r hs lines :
  running out s ->
  (forall stale, length (take BUFSIZE b ++ stale) = BUFSIZE ->
     fproc pr (take BUFSIZE b ++ stale) (Z.of_nat (length (take BUFSIZE b))) msg now id verbose = Def r) ->
  (forall s1, globals s1 = globals s -> running out s1 -> ends_well out s1 hs lines) ->
  ends_well out s (Message b msg now :: hs) (line r ++ lines).
Proof using Type.
  intros Hr Hf Hrest. destruct (on_message_step out b msg now r s Hr Hf) as (s1 & E1 & Hg1 & Hr1 & Hsh).
  destruct (Hrest s1 Hg1 Hr1) as (s2 & out' & E2 & H1 & H2 & H3). exists s2, out'. cbn [loop react].
  unfold mbind, M_bind. rewrite E1, E2, H1, Hsh. by rewrite <- app_assoc.
Qed.

Lemma loop_shows hs : forall g out lines s,
  happens g out hs lines -> globals s = g -> running out s ->
  Z.of_nat (length out) + Z.of_nat (length (alarms hs)) <= INT_MAX -> ends_well out s hs lines.
Proof using pinger.
  induction hs as [|h hs IH]; intros g out lines s Hh Hg Hr Hlt;
    inversion Hh as [|now ? ? Ht H|? ? H|b msg now r ? lines' Ho H|n pkt t ttl b msg now ? lines' Hn He H]; subst.
  - exists s, out. by rewrite !app_nil_r.
  - cbn in Hlt. destruct (sig_alrm_step out now s Hr Ht ltac:(lia)) as (pkt & g' & s1 & Ef & E1 & Hg1 & Hr1 & Hsh).
    destruct (IH g' (out ++ [(pkt, now)]) lines s1 (H _ _ Ef) Hg1 Hr1) as (s2 & out' & E2 & H1 & H2 & H3);
      [unfold alarms in *; rewrite length_app; cbn [length]; lia|].
    exists s2, out'. cbn [loop react]. unfold mbind, M_bind. rewrite E1, E2, H1, Hsh. split_and!; [done..|].
    by rewrite H3, fmap_app, <- app_assoc.
  - by eapply IH.
  - apply (ends_well_message out s b msg now r); [done|intros stale Hl; by apply handles_other|].
    intros s1 Hg1 Hr1. by eapply IH.
  - apply (ends_well_message out s b msg now (Reply (8 + dl) (Z.of_nat n mod 65536) ttl (tv_sub now t))); [done| |].
    + intros stale _. destruct (ru_req _ _ Hr n pkt t Hn) as [Ht Hq]. by eapply knows_reply.
    + intros s1 Hg1 Hr1. by eapply IH.
Qed.
End Session.

(** * Properties *)

Inductive version := IPv4 | IPv6.
Definition proto_of (v : version) : proto := match v with IPv4 => proto_v4 | IPv6 => proto_v6 end.
Definition request (v : version) := match v with IPv4 => request4 | IPv6 => request6 end.
Definition answer (v : version) := match v with IPv4 => answer4 | IPv6 => answer6 end.
Definition other (v : version) := match v with IPv4 => other4 | IPv6 => other6 end.

Lemma pinger_of v verbose dl id :
  16 <= dl <= 1472 -> 0 <= id < 65536 ->
  Pinger (proto_of v) verbose dl id (request v dl id) (answer v) (other v verbose id).
Proof. intros. destruct v; [by apply pinger_v4|by apply pinger_v6]. Qed.


(** The second request is answered before the first; a reply to another process comes
    in between. *)
Definition demo_reply (id n : Z) (t : timeval) : buf :=
  demo_iphdr ++ [byte_of_Z ICMP_ECHOREPLY; byte_of_Z 0] ++ [NUL; NUL] ++ body 56 id n t.
Definition demo_reply6 (id n : Z) (t : timeval) : buf :=
  [byte_of_Z ICMP6_ECHO_REPLY; byte_of_Z 0] ++ [NUL; NUL] ++ body 56 id n t.
Definition demo_hlim : list cmsg := [Cmsg IPPROTO_IPV6 IPV6_HOPLIMIT (byte_of_Z <$> [64; 0; 0; 0])].
Definition demo_happenings (m : Z -> Z -> timeval -> buf) (msg : list cmsg) : list happening :=
  [Interrupted; Alarm (TV 11 0) true; Message (m 4711 1 (TV 11 0)) msg (TV 11 900);
   Message (m 99 0 (TV 10 0)) msg (TV 11 950); Message (m 4711 0 (TV 10 0)) msg (TV 11 999)].

Lemma demo_iphdr_ok : iphdr_ok demo_iphdr IPPROTO_ICMP 64.
Proof. by split. Qed.

Lemma demo_answer4 n t pkt : request4 56 4711 n t pkt -> answer4 64 pkt (demo_reply 4711 n t) [].
Proof.
  intros (sum & Hs & -> & _). destruct sum as [|s0 [|s1 [|]]]; try discriminate Hs.
  exact (Answer4 64 ([byte_of_Z ICMP_ECHO; byte_of_Z 0] ++ [s0; s1] ++ body 56 4711 n t) demo_iphdr [NUL; NUL] []
           demo_iphdr_ok eq_refl).
Qed.

Lemma demo_answer6 n t pkt : request6 56 4711 n t pkt -> answer6 64 pkt (demo_reply6 4711 n t) demo_hlim.
Proof.
  intros (sum & Hs & ->). destruct sum as [|s0 [|s1 [|]]]; try discriminate Hs.
  exact (Answer6 64 ([byte_of_Z ICMP6_ECHO_REQUEST; byte_of_Z 0] ++ [s0; s1] ++ body 56 4711 n t) [NUL; NUL] demo_hlim
           eq_refl eq_refl).
Qed.

Definition demo_session : session :=
  Session (Ping (replicate BUFSIZE NUL) 56 0 4711) (replicate BUFSIZE NUL) [] [].

(** What happens in the demonstration, for a protocol that answers like that. *)
Lemma demo_happens v m msg :
  (forall n t pkt, request v 56 4711 n t pkt -> answer v 64 pkt (m 4711 n t) msg) ->
  other v false 4711 (m 99 0 (TV 10 0)) msg Ignored ->
  happens (proto_of v) 56 (answer v) (other v false 4711) (globals demo_session) []
    (Alarm (TV 10 0) true :: demo_happenings m msg) [Reply 64 1 64 (TV 0 900); Reply 64 0 64 (TV 1 999)].
Proof.
  intros Ha Ho. assert (Pinger (proto_of v) false 56 4711 (request v 56 4711) (answer v) (other v false 4711)) as Hp
    by (apply pinger_of; lia).
  assert (forall sec, 0 <= sec < 100 -> tv_ok (TV sec 0)) as Ht by (intros; split; cbn; lia).
  apply (happens_alarm (proto_of v) false 56 4711 (request v 56 4711)); [done|by split|done|apply Ht; lia|].
  intros pkt0 g0 R0 G0 N0. apply hap_intr.
  apply (happens_alarm (proto_of v) false 56 4711 (request v 56 4711)); [done|done|by rewrite N0|apply Ht; lia|].
  intros pkt1 g1 R1 G1 N1. rewrite N0 in R1.
  apply (hap_reply (proto_of v) 56 (answer v) (other v false 4711) g1 _ 1 pkt1 (TV 11 0) 64); [done|by apply Ha|].
  apply (hap_other (proto_of v) 56 (answer v) (other v false 4711) g1 _ (m 99 0 (TV 10 0)) msg (TV 11 950) Ignored); [done|].
  apply (hap_reply (proto_of v) 56 (answer v) (other v false 4711) g1 _ 0 pkt0 (TV 10 0) 64); [done|by apply Ha|].
  constructor.
Qed.

