(* ===== verification/Frame.v ===== *)
(** * ODR frames and their wire format

    [struct odr_frame_struct] of odr.h, and from odr_functions.c the functions
    that build a frame ([construct_odr]), convert its integers between host and
    network order ([convert_net_host_order], [convert_host_net_order]), put it
    in an Ethernet frame (the buffer of [send_raw_frame]) and take it out again
    ([process_recvd_frame]).

    A frame is a value: no frame is reachable through two pointers when one of
    its fields is written (a frame is converted to network order only after it
    has left the pending queue, or before anything else refers to it). *)

From S2P Require Import Prelude CLib Inet.

Definition PAYLOAD_SIZE : Z := 1440.
Definition USID_PROTO : Z := 55165.   (** 0xD77D *)
Definition ETH_FRAME_LEN : nat := 1514.
Definition ETH_ALEN : nat := 6.
Definition HWADDR : nat := 6.

(** Frame types. *)
Definition __RREQ : Z := 1.
Definition __RREP : Z := 2.
Definition __DATA : Z := 3.
Definition __ASENT : Z := 4.

Record odr_frame := mkFrame {
  frame_type : Z;
  broadcast_id : Z;
  hop_count : Z;
  payload_len : Z;
  route_disc_flag : Z;
  src_port : Z;
  dst_port : Z;
  dest_ip : buf;
  src_ip : buf;
  payload : buf;
}.

(** ** Byte order *)

Definition map_ints (f : Z -> Z) (fr : odr_frame) : odr_frame :=
  mkFrame (f (frame_type fr)) (f (broadcast_id fr)) (f (hop_count fr))
          (f (payload_len fr)) (f (route_disc_flag fr)) (f (src_port fr))
          (f (dst_port fr)) (dest_ip fr) (src_ip fr) (payload fr).

Definition convert_net_host_order (recvd_frame : odr_frame) : odr_frame :=
  map_ints ntohl recvd_frame.
Definition convert_host_net_order (recvd_frame : odr_frame) : odr_frame :=
  map_ints htonl recvd_frame.

(** ** Construction *)

(** [calloc(1, sizeof(odr_frame_t))]. *)
Definition zero_frame : odr_frame :=
  mkFrame 0 0 0 0 0 0 0 (replicate INET_ADDRSTRLEN NUL) (replicate INET_ADDRSTRLEN NUL)
          (replicate (Z.to_nat PAYLOAD_SIZE) NUL).

(** The [payload == NULL] branch is dead: the pointer was asserted. *)
Definition construct_odr (type bid hopcount len rdisc_flag srcport dstport : Z)
    (dstip srcip pl : buf) : chk odr_frame :=
  dip ← strcpy (dest_ip zero_frame) dstip;
  sip ← strcpy (src_ip zero_frame) srcip;
  p ← (if type =? __DATA then strcpy (payload zero_frame) pl else mret (payload zero_frame));
  mret (mkFrame (htonl type) (htonl bid) (htonl hopcount) (htonl len) (htonl rdisc_flag)
                (htonl srcport) (htonl dstport) dip sip p).

(** ** The struct in memory *)

Definition frame_bytes (fr : odr_frame) : buf :=
  le32 (frame_type fr) ++ le32 (broadcast_id fr) ++ le32 (hop_count fr) ++
  le32 (payload_len fr) ++ le32 (route_disc_flag fr) ++ le32 (src_port fr) ++
  le32 (dst_port fr) ++ dest_ip fr ++ src_ip fr ++ payload fr.

(** The [int] at byte offset [4 * i]. *)
Definition int_at (b : buf) (i : nat) : Z := wrap_int (of_le32 (take 4 (drop (4 * i) b))).

(** The cast of [data] to [odr_frame_t] pointer. *)
Definition frame_of_bytes (b : buf) : odr_frame :=
  mkFrame (int_at b 0) (int_at b 1) (int_at b 2) (int_at b 3) (int_at b 4) (int_at b 5)
          (int_at b 6) (take 16 (drop 28 b)) (take 16 (drop 44 b)) (take 1440 (drop 60 b)).

(** The Ethernet frame [send_raw_frame] builds: destination and source
    addresses, the protocol number in network order, and the frame. *)
Definition eth_frame (dest_mac src_mac : buf) (fr : odr_frame) : buf :=
  take ETH_ALEN dest_mac ++ take ETH_ALEN src_mac ++ htons_bytes USID_PROTO ++ frame_bytes fr.

(** [process_recvd_frame]: the buffer is copied, so the frame does not alias
    the receive buffer. *)
Definition process_recvd_frame (recv_buf : buf) : chk odr_frame :=
  if (length recv_buf <? ETH_FRAME_LEN)%nat then Bad BadPointer
  else mret (convert_net_host_order (frame_of_bytes (drop 14 (take ETH_FRAME_LEN recv_buf)))).

(** ** Well-formed frames *)

(** The shape of every [odr_frame_t] object: [int] fields in range and arrays
    of the declared sizes. *)
Record frame_shape (fr : odr_frame) : Prop := {
  shape_ints : Forall (fun z => int_ok z = true)
    [frame_type fr; broadcast_id fr; hop_count fr; payload_len fr; route_disc_flag fr;
     src_port fr; dst_port fr];
  shape_dest : length (dest_ip fr) = INET_ADDRSTRLEN;
  shape_src : length (src_ip fr) = INET_ADDRSTRLEN;
  shape_payload : length (payload fr) = Z.to_nat PAYLOAD_SIZE;
}.

(** The frames a peer that runs this code puts on the wire also hold
    terminated strings. *)
Record frame_wf (fr : odr_frame) (dip sip : buf) : Prop := {
  wf_shape : frame_shape fr;
  wf_dest : cstr (dest_ip fr) = Some dip;
  wf_src : cstr (src_ip fr) = Some sip;
  wf_payload : exists p, cstr (payload fr) = Some p;
}.

(** ** Lemmas *)

Lemma map_ints_shape f fr :
  (forall z, int_ok (f z) = true) -> frame_shape fr -> frame_shape (map_ints f fr).
Proof. intros Hf []. split; try done. cbn. repeat constructor; apply Hf. Qed.

Lemma net_host_shape fr : frame_shape fr -> frame_shape (convert_net_host_order fr).
Proof. apply map_ints_shape. apply htonl_ok. Qed.
Lemma host_net_shape fr : frame_shape fr -> frame_shape (convert_host_net_order fr).
Proof. apply map_ints_shape. apply htonl_ok. Qed.

Lemma map_ints_id f fr :
  Forall (fun z => f z = z)
    [frame_type fr; broadcast_id fr; hop_count fr; payload_len fr; route_disc_flag fr;
     src_port fr; dst_port fr] ->
  map_ints f fr = fr.
Proof.
  intros H. split_all H.
  destruct fr; cbn in *. unfold map_ints. cbn. congruence.
Qed.

Lemma map_ints_comp f g fr : map_ints f (map_ints g fr) = map_ints (fun z => f (g z)) fr.
Proof. done. Qed.

Lemma host_net_host fr :
  frame_shape fr -> convert_net_host_order (convert_host_net_order fr) = fr.
Proof.
  intros [Hi _ _ _].
  unfold convert_net_host_order, convert_host_net_order. rewrite map_ints_comp. apply map_ints_id.
  eapply Forall_impl; [exact Hi|]. intros z Hz. by apply ntohl_htonl.
Qed.

Lemma net_host_net fr :
  frame_shape fr -> convert_host_net_order (convert_net_host_order fr) = fr.
Proof.
  intros [Hi _ _ _].
  unfold convert_net_host_order, convert_host_net_order. rewrite map_ints_comp. apply map_ints_id.
  eapply Forall_impl; [exact Hi|]. intros z Hz. by apply ntohl_htonl.
Qed.

Lemma length_le32 z : length (le32 z) = 4%nat.
Proof. done. Qed.

Lemma frame_bytes_length fr : frame_shape fr -> length (frame_bytes fr) = 1500%nat.
Proof.
  intros [_ Hd Hs Hp]. unfold frame_bytes.
  rewrite !length_app, !length_le32, Hd, Hs, Hp. reflexivity.
Qed.

Lemma eth_frame_length d s fr :
  frame_shape fr -> length d = HWADDR -> length s = HWADDR ->
  length (eth_frame d s fr) = ETH_FRAME_LEN.
Proof.
  intros Hf Hd Hs. unfold eth_frame.
  rewrite !length_app, !length_take, frame_bytes_length, Hd, Hs by done. reflexivity.
Qed.

(** Taking a field out of a concatenation of fields. *)
Lemma int_at_here z (post : buf) : int_ok z = true -> int_at (le32 z ++ post) 0 = z.
Proof.
  intros Hz. unfold int_at. rewrite Nat.mul_0_r, drop_0, take_app_length' by done.
  rewrite of_le32_le32, wrap_int_mod. by apply wrap_int_id.
Qed.

Lemma int_at_there z (post : buf) i : int_at (le32 z ++ post) (S i) = int_at post i.
Proof.
  unfold int_at. replace (4 * S i)%nat with (length (le32 z) + 4 * i)%nat by (cbn; lia).
  by rewrite <- drop_drop, drop_app_length.
Qed.

Lemma array_here (x post : buf) k : length x = k -> take k (drop 0 (x ++ post)) = x.
Proof. intros <-. by rewrite drop_0, take_app_length. Qed.

Lemma array_there (x post : buf) n k m :
  length x = m -> (m <= n)%nat -> take k (drop n (x ++ post)) = take k (drop (n - m) post).
Proof.
  intros <- Hn. replace n with (length x + (n - length x))%nat at 1 by lia.
  by rewrite <- drop_drop, drop_app_length.
Qed.

Lemma frame_of_bytes_bytes fr : frame_shape fr -> frame_of_bytes (frame_bytes fr) = fr.
Proof.
  intros [Hi Hd Hs Hp]. split_all Hi.
  destruct fr as [t b h l r sp dp di si p].
  unfold frame_of_bytes, frame_bytes; cbn [frame_type broadcast_id hop_count payload_len
    route_disc_flag src_port dst_port dest_ip src_ip payload] in *.
  rewrite !int_at_there, !int_at_here by done.
  rewrite !(array_there (le32 _) _ _ _ 4) by (done || lia). cbn [Nat.sub].
  rewrite (array_here di) by done.
  rewrite !(array_there di _ _ _ 16) by (done || lia). cbn [Nat.sub].
  rewrite (array_here si) by done.
  rewrite (array_there si _ _ _ 16) by (done || lia). cbn [Nat.sub].
  rewrite <- (app_nil_r p) at 1. by rewrite array_here.
Qed.

(** A received Ethernet frame is the sent one, back in host order. *)
Lemma process_eth_frame d s fr :
  frame_shape fr -> length d = HWADDR -> length s = HWADDR ->
  process_recvd_frame (eth_frame d s fr) = Def (convert_net_host_order fr).
Proof.
  intros Hf Hd Hs. unfold process_recvd_frame.
  rewrite eth_frame_length by done. rewrite Nat.ltb_irrefl.
  rewrite take_ge by (by rewrite eth_frame_length).
  do 2 f_equal. unfold eth_frame. rewrite !app_assoc.
  rewrite drop_app_length'.
  - by apply frame_of_bytes_bytes.
  - rewrite !length_app, !length_take, Hd, Hs. reflexivity.
Qed.

(** What [process_recvd_frame] returns always has the shape of a frame. *)
Lemma frame_of_bytes_shape b : (1500 <= length b)%nat -> frame_shape (frame_of_bytes b).
Proof.
  intros Hb. split; cbn.
  - repeat constructor; apply wrap_int_ok.
  - rewrite length_take, length_drop. unfold INET_ADDRSTRLEN. lia.
  - rewrite length_take, length_drop. unfold INET_ADDRSTRLEN. lia.
  - rewrite length_take, length_drop. unfold PAYLOAD_SIZE. lia.
Qed.

Lemma process_recvd_shape b fr :
  process_recvd_frame b = Def fr -> frame_shape fr.
Proof.
  unfold process_recvd_frame. destruct (Nat.ltb_spec (length b) ETH_FRAME_LEN); [done|].
  intros [= <-]. apply net_host_shape, frame_of_bytes_shape.
  rewrite length_drop, length_take. unfold ETH_FRAME_LEN in *. lia.
Qed.

(** [construct_odr] on strings that fit: a frame of the right shape, holding
    those strings, with the integers in network order. *)
Lemma construct_odr_ok type bid hop len rdf sp dp dstip srcip pl d s p :
  cstr dstip = Some d -> (length d < INET_ADDRSTRLEN)%nat ->
  cstr srcip = Some s -> (length s < INET_ADDRSTRLEN)%nat ->
  (type = __DATA -> cstr pl = Some p /\ (length p < Z.to_nat PAYLOAD_SIZE)%nat) ->
  exists fr, construct_odr type bid hop len rdf sp dp dstip srcip pl = Def fr /\
    frame_wf fr d s /\
    cstr (payload fr) = Some (if type =? __DATA then p else []) /\
    fr = convert_host_net_order
           (mkFrame type bid hop len rdf sp dp (dest_ip fr) (src_ip fr) (payload fr)).
Proof.
  intros Hd Hdl Hs Hsl Hp. unfold construct_odr.
  destruct (strcpy_Some (dest_ip zero_frame) dstip d Hd) as (dip & -> & Hdip & Hdipl);
    [exact Hdl|].
  rewrite chk_bind_Def.
  destruct (strcpy_Some (src_ip zero_frame) srcip s Hs) as (sip & -> & Hsip & Hsipl);
    [exact Hsl|].
  rewrite chk_bind_Def. cbn [dest_ip src_ip payload zero_frame] in Hdipl, Hsipl.
  rewrite length_replicate in Hdipl, Hsipl.
  assert (exists q, (if type =? __DATA then strcpy (payload zero_frame) pl
                     else mret (payload zero_frame)) = Def q /\
            cstr q = Some (if type =? __DATA then p else []) /\
            length q = Z.to_nat PAYLOAD_SIZE) as (q & -> & Hq & Hql).
  { destruct (Z.eqb_spec type __DATA) as [E|E].
    - destruct (Hp E) as [Hp1 Hp2].
      destruct (strcpy_Some (payload zero_frame) pl p Hp1) as (q & H1 & H2 & H3);
        [exact Hp2|].
      exists q. by rewrite H1, H2, H3.
    - eexists. split; [done|]. split; reflexivity. }
  rewrite chk_bind_Def. eexists. split; [done|]. split; [|split; [done|done]].
  split; try done; [|by eauto].
  split; cbn; try done. repeat constructor; apply htonl_ok.
Qed.

(** ** Properties *)

(** C16: a frame put on the wire is the frame the receiver works on: converted
    to network order, laid out in memory behind the Ethernet header, received,
    cut out and converted back, every field and every byte of the arrays is as
    it was, and the Ethernet frame has exactly the 1514 bytes of the receive
    buffer. *)
Theorem frame_wire_roundtrip d s fr :
  frame_shape fr -> length d = HWADDR -> length s = HWADDR ->
  length (eth_frame d s (convert_host_net_order fr)) = ETH_FRAME_LEN /\
  process_recvd_frame (eth_frame d s (convert_host_net_order fr)) = Def fr.
Proof.
  intros Hf Hd Hs. pose proof (host_net_shape _ Hf) as Hn. split; [by apply eth_frame_length|].
  rewrite process_eth_frame by done. by rewrite host_net_host.
Qed.

Lemma frame_wire_roundtrip_witness :
  length (eth_frame (replicate 6 NUL) (replicate 6 NUL) (convert_host_net_order zero_frame))
    = ETH_FRAME_LEN /\
  process_recvd_frame (eth_frame (replicate 6 NUL) (replicate 6 NUL)
                         (convert_host_net_order zero_frame)) = Def zero_frame.
Proof.
  apply frame_wire_roundtrip; [|done..]. split; [|done..]. by repeat constructor.
Defined.

(** The fields fit the arrays of a frame. *)
Definition frame_fits (type : Z) (d s p : buf) : bool :=
  (length d <? INET_ADDRSTRLEN)%nat && (length s <? INET_ADDRSTRLEN)%nat &&
  (negb (type =? __DATA) || (length p <? Z.to_nat PAYLOAD_SIZE)%nat).

(** C24: [construct_odr] on three C strings returns a frame exactly when both
    addresses and, for a data frame, the payload fit their arrays with the
    terminator; then the frame holds those strings and the integers in network
    order, and a frame that carries no data has an empty payload.  Otherwise
    one of the unchecked copies overruns its array. *)
Theorem construct_odr_bounds type bid hop len rdf sp dp dstip srcip pl d s p :
  cstr dstip = Some d -> cstr srcip = Some s -> cstr pl = Some p ->
  if frame_fits type d s p then
    exists fr, construct_odr type bid hop len rdf sp dp dstip srcip pl = Def fr /\
      frame_wf fr d s /\ cstr (payload fr) = Some (if type =? __DATA then p else []) /\
      fr = convert_host_net_order
             (mkFrame type bid hop len rdf sp dp (dest_ip fr) (src_ip fr) (payload fr))
  else construct_odr type bid hop len rdf sp dp dstip srcip pl = Bad BufferOverflow.
Proof.
  intros Hd Hs Hp. unfold frame_fits.
  destruct (Nat.ltb_spec (length d) INET_ADDRSTRLEN) as [Hdl|Hdl]; cbn [andb].
  2: { unfold construct_odr. by rewrite (strcpy_overflow _ _ _ Hd). }
  destruct (strcpy_Some (dest_ip zero_frame) dstip d Hd Hdl) as (dip & Ed & _).
  destruct (Nat.ltb_spec (length s) INET_ADDRSTRLEN) as [Hsl|Hsl]; cbn [andb].
  2: { unfold construct_odr. rewrite Ed, chk_bind_Def. by rewrite (strcpy_overflow _ _ _ Hs). }
  destruct (strcpy_Some (src_ip zero_frame) srcip s Hs Hsl) as (sip & Es & _).
  destruct (Z.eqb_spec type __DATA) as [Et|Et]; cbn [negb orb].
  - destruct (Nat.ltb_spec (length p) (Z.to_nat PAYLOAD_SIZE)) as [Hpl|Hpl].
    + destruct (construct_odr_ok type bid hop len rdf sp dp dstip srcip pl d s p)
        as (fr & H1 & H2 & H3 & H4); [done..|]. exists fr.
      rewrite Et in H3. rewrite Z.eqb_refl in H3. done.
    + unfold construct_odr. rewrite Ed, chk_bind_Def, Es, chk_bind_Def, Et, Z.eqb_refl.
      by rewrite (strcpy_overflow _ _ _ Hp).
  - destruct (construct_odr_ok type bid hop len rdf sp dp dstip srcip pl d s p)
      as (fr & H1 & H2 & H3 & H4); [done..|]. exists fr.
    rewrite (proj2 (Z.eqb_neq _ _) Et) in H3. done.
Qed.

Lemma construct_odr_bounds_witness :
  exists fr, construct_odr __RREQ 11 0 0 0 909 5500 (lit "130.245.156.23") (lit "130.245.156.21")
               (lit "hello") = Def fr /\
    frame_wf fr (chars "130.245.156.23") (chars "130.245.156.21") /\ cstr (payload fr) = Some [] /\
    fr = convert_host_net_order
           (mkFrame __RREQ 11 0 0 0 909 5500 (dest_ip fr) (src_ip fr) (payload fr)).
Proof.
  apply (construct_odr_bounds __RREQ 11 0 0 0 909 5500 (lit "130.245.156.23")
           (lit "130.245.156.21") (lit "hello") (chars "130.245.156.23") (chars "130.245.156.21")
           (chars "hello")); reflexivity.
Defined.
