(* ===== verification/DList.v ===== *)
(** * Doubly linked lists in a heap

    The routing table ([r_entry_t] of odr.h) and the pending queue
    ([pending_msgs_t]) are lists of heap nodes with [next] and [prev] pointers.
    This file models such a list at the level of its pointers, with the pointer
    surgery the sources write out, and relates a heap to the sequence of nodes
    it represents ([dseg], [drep]). *)

From S2P Require Import Prelude.

Abbreviation loc := positive.

(** A node: the fields that carry data, and the two links ([NULL] is [None]). *)
Record dnode (A : Type) := mkDnode { dval : A; dnext : option loc; dprev : option loc }.
Arguments mkDnode {A}.
Arguments dval {A}.
Arguments dnext {A}.
Arguments dprev {A}.

(** The nodes of one list type, the head variable, and the allocator.  Nodes
    are never freed (the sources call no [free] on them). *)
Record dlist (A : Type) := mkDlist { dheap : gmap loc (dnode A); dhead : option loc; dbrk : loc }.
Arguments mkDlist {A}.
Arguments dheap {A}.
Arguments dhead {A}.
Arguments dbrk {A}.

Section Ops.
Context {A : Type}.
Implicit Types (d : dlist A) (m : gmap loc (dnode A)).

Definition dempty : dlist A := mkDlist ∅ None 1%positive.

Definition deref m (x : loc) : chk (dnode A) :=
  match m !! x with Some n => Def n | None => Bad BadPointer end.

Definition set_next (n : dnode A) (q : option loc) : dnode A := mkDnode (dval n) q (dprev n).
Definition set_prev (n : dnode A) (q : option loc) : dnode A := mkDnode (dval n) (dnext n) q.
Definition set_val (n : dnode A) (v : A) : dnode A := mkDnode v (dnext n) (dprev n).

(** [calloc] of a node, filled with [v]; not linked yet. *)
Definition dalloc d (v : A) : loc * dlist A :=
  (dbrk d, mkDlist (<[dbrk d := mkDnode v None None]> (dheap d)) (dhead d) (Pos.succ (dbrk d))).

(** Link an allocated node in front of the list. *)
Definition dlink d (x : loc) : chk (dlist A) :=
  match dhead d with
  | None => mret (mkDlist (dheap d) (Some x) (dbrk d))
  | Some h =>
      nh ← deref (dheap d) h;
      let m1 := <[h := set_prev nh (Some x)]> (dheap d) in
      nx ← deref m1 x;
      mret (mkDlist (<[x := set_next nx (Some h)]> m1) (Some x) (dbrk d))
  end.

(** Write the data fields through a pointer. *)
Definition dstore d (x : loc) (v : A) : chk (dlist A) :=
  n ← deref (dheap d) x;
  mret (mkDlist (<[x := set_val n v]> (dheap d)) (dhead d) (dbrk d)).

(** [if (curr->prev) curr->prev->next = curr->next;
     if (curr->next) curr->next->prev = curr->prev;] *)
Definition dbypass m (x : loc) : chk (gmap loc (dnode A)) :=
  n ← deref m x;
  m1 ← (match dprev n with
        | Some y => ny ← deref m y; mret (<[y := set_next ny (dnext n)]> m)
        | None => mret m
        end);
  n1 ← deref m1 x;
  match dnext n1 with
  | Some z => nz ← deref m1 z; mret (<[z := set_prev nz (dprev n1)]> m1)
  | None => mret m1
  end.

(** [for (; curr != NULL; curr = curr->next) if (p(curr)) ...]: the first
    node that satisfies [p].  The fuel of [dfind] is one more than the number
    of nodes: a chase longer than that has come back to a node and never
    ends. *)
Fixpoint dfind_loop (fuel : nat) (p : A -> chk bool) m (curr : option loc) : chk (option loc) :=
  match curr with
  | None => mret None
  | Some x =>
      match fuel with
      | O => Bad EndlessLoop
      | S fuel' =>
          n ← deref m x;
          b ← p (dval n);
          if b : bool then mret (Some x) else dfind_loop fuel' p m (dnext n)
      end
  end.

Definition dfind d (p : A -> chk bool) : chk (option loc) :=
  dfind_loop (S (size (dheap d))) p (dheap d) (dhead d).

(** The values along the list, in a loop that visits every node. *)
Fixpoint dwalk_loop (fuel : nat) m (curr : option loc) : chk (list A) :=
  match curr with
  | None => mret []
  | Some x =>
      match fuel with
      | O => Bad EndlessLoop
      | S fuel' => n ← deref m x; r ← dwalk_loop fuel' m (dnext n); mret (dval n :: r)
      end
  end.

Definition dwalk d : chk (list A) := dwalk_loop (S (size (dheap d))) (dheap d) (dhead d).

(** ** The list a heap represents *)

(** [dseg m p h l t]: from pointer [h] to pointer [t] the heap holds the
    nodes [l], linked both ways, the first one's [prev] being [p]. *)
Fixpoint dseg m (p h : option loc) (l : list (loc * A)) (t : option loc) : Prop :=
  match l with
  | [] => h = t
  | (x, v) :: l' =>
      h = Some x /\ exists nx, m !! x = Some (mkDnode v nx p) /\ dseg m (Some x) nx l' t
  end.

Record drep d (p : option loc) (l : list (loc * A)) : Prop := {
  drep_seg : dseg (dheap d) p (dhead d) l None;
  drep_nodup : NoDup l.*1;
  drep_brk : forall x, is_Some (dheap d !! x) -> (x < dbrk d)%positive;
}.
End Ops.

Section Lemmas.
Context {A : Type}.
Implicit Types (d : dlist A) (m : gmap loc (dnode A)) (l : list (loc * A)).

Definition last_loc (p : option loc) l : option loc :=
  match last l with Some (x, _) => Some x | None => p end.

Lemma last_loc_cons p x v l : last_loc p ((x, v) :: l) = last_loc (Some x) l.
Proof.
  unfold last_loc. destruct l as [|e l]; [done|].
  change (last ((x, v) :: e :: l)) with (last (e :: l)).
  destruct (last (e :: l)) eqn:E; [done|]. by apply last_None in E.
Qed.

Lemma deref_Some m x n : m !! x = Some n -> deref m x = Def n.
Proof. unfold deref. by intros ->. Qed.

Lemma dseg_app m p h l1 l2 t :
  dseg m p h (l1 ++ l2) t <->
  exists q, dseg m p h l1 q /\ dseg m (last_loc p l1) q l2 t.
Proof.
  revert p h. induction l1 as [|[x v] l1 IH]; intros p h; cbn.
  - split; [by eauto|]. by intros (q & -> & ?).
  - rewrite last_loc_cons. split.
    + intros (-> & nx & Hx & Hs). apply IH in Hs as (q & ? & ?). eauto 10.
    + intros (q & (-> & nx & Hx & Hs) & H2). split; [done|]. exists nx.
      split; [done|]. apply IH. eauto.
Qed.

(** Writes outside the segment leave it alone. *)
Lemma dseg_insert_ne m p h l t x n :
  x ∉ l.*1 -> dseg m p h l t -> dseg (<[x := n]> m) p h l t.
Proof.
  revert p h. induction l as [|[y v] l IH]; intros p h Hx; cbn; [done|].
  cbn in Hx. apply not_elem_of_cons in Hx as [Hxy Hx].
  intros (-> & nx & Hy & Hs). split; [done|]. exists nx.
  rewrite lookup_insert_ne by done. auto.
Qed.

Lemma dseg_lookup m p h l t x v :
  dseg m p h l t -> (x, v) ∈ l -> exists nx pv, m !! x = Some (mkDnode v nx pv).
Proof.
  revert p h. induction l as [|[y w] l IH]; intros p h; cbn.
  - by intros _ ?%not_elem_of_nil.
  - intros (-> & nx & Hy & Hs) [[= -> ->]|Hin]%elem_of_cons; [by eauto|]. by eapply IH.
Qed.

Lemma dseg_dom m p h l t x : dseg m p h l t -> x ∈ l.*1 -> is_Some (m !! x).
Proof.
  intros Hs Hx. apply list_elem_of_fmap in Hx as ([y v] & -> & Hin).
  destruct (dseg_lookup _ _ _ _ _ _ _ Hs Hin) as (? & ? & E). by eexists.
Qed.

(** The head pointer of a non-empty segment. *)
Lemma dseg_cons_head m p h x v l t : dseg m p h ((x, v) :: l) t -> h = Some x.
Proof. by intros [-> _]. Qed.

Lemma dseg_nil_head m p l t : t = None -> dseg m p None l t -> l = [].
Proof. intros ->. destruct l as [|[x v] l]; [done|]. by intros [? _]. Qed.

(** The [prev] of the first node of a segment may be redirected. *)
Lemma dseg_set_first_prev m p p' x v nx l t :
  x ∉ l.*1 -> m !! x = Some (mkDnode v nx p) -> dseg m (Some x) nx l t ->
  dseg (<[x := mkDnode v nx p']> m) p' (Some x) ((x, v) :: l) t.
Proof.
  intros Hx Hm Hs. cbn. split; [done|]. exists nx.
  rewrite lookup_insert_eq. split; [done|]. by apply dseg_insert_ne.
Qed.

(** The segment length is bounded by the size of the heap, so [dfind]'s fuel
    is enough. *)
Lemma dseg_size m p h l t : dseg m p h l t -> NoDup l.*1 -> (length l <= size m)%nat.
Proof.
  intros Hs Hnd. rewrite <- (length_fmap fst l), <- size_dom.
  rewrite <- (size_list_to_set (C := gset loc)) by done.
  apply subseteq_size. intros x Hx. rewrite elem_of_list_to_set in Hx.
  apply elem_of_dom. by eapply dseg_dom.
Qed.

(** [dfind] is [list_find] on the represented list. *)
Lemma dfind_loop_spec (p : A -> chk bool) (P : A -> bool) m pv h l fuel :
  dseg m pv h l None -> (length l < fuel)%nat ->
  Forall (fun e => p e.2 = Def (P e.2)) l ->
  dfind_loop fuel p m h = Def (fst ∘ snd <$> list_find (fun e => P e.2 = true) l).
Proof.
  revert pv h fuel. induction l as [|[x v] l IH]; intros pv h fuel Hs Hf Hp.
  - cbn in Hs. subst. destruct fuel; [cbn in Hf; lia|]. done.
  - destruct Hs as (-> & nx & Hx & Hs).
    destruct fuel as [|fuel]; [cbn in Hf; lia|]. cbn [dfind_loop].
    unfold deref. rewrite Hx, chk_bind_Def. cbn [dval dnext].
    apply Forall_cons in Hp as [Hp1 Hp]. cbn [snd] in Hp1. rewrite Hp1, chk_bind_Def.
    cbn [list_find]. case_decide as E; cbn [snd] in E.
    + by rewrite E.
    + apply not_true_is_false in E. rewrite E.
      rewrite (IH _ _ fuel Hs) by (cbn in Hf; (lia || done)).
      destruct (list_find _ l) as [[i e]|]; done.
Qed.

Lemma dfind_spec (p : A -> chk bool) (P : A -> bool) d pv l :
  drep d pv l -> Forall (fun e => p e.2 = Def (P e.2)) l ->
  dfind d p = Def (fst ∘ snd <$> list_find (fun e => P e.2 = true) l).
Proof.
  intros [Hs Hnd _] Hp. unfold dfind. apply (dfind_loop_spec _ _ _ pv); [done| |done].
  pose proof (dseg_size _ _ _ _ _ Hs Hnd). lia.
Qed.

Lemma dwalk_loop_spec m pv h l fuel :
  dseg m pv h l None -> (length l < fuel)%nat -> dwalk_loop fuel m h = Def l.*2.
Proof.
  revert pv h fuel. induction l as [|[x v] l IH]; intros pv h fuel Hs Hf.
  - cbn in Hs. subst. by destruct fuel.
  - destruct Hs as (-> & nx & Hx & Hs).
    destruct fuel as [|fuel]; [cbn in Hf; lia|]. cbn [dwalk_loop].
    unfold deref. rewrite Hx, chk_bind_Def. cbn [dnext].
    rewrite (IH _ _ fuel Hs) by (cbn in Hf; lia). done.
Qed.

Lemma dwalk_spec d pv l : drep d pv l -> dwalk d = Def l.*2.
Proof.
  intros [Hs Hnd _]. apply (dwalk_loop_spec _ pv); [done|].
  pose proof (dseg_size _ _ _ _ _ Hs Hnd). lia.
Qed.

(** Allocating and linking a node puts it in front. *)
Lemma dpush_spec d p l v :
  drep d p l ->
  exists d', dlink (dalloc d v).2 (dalloc d v).1 = Def d' /\
    drep d' None ((dbrk d, v) :: l).
Proof.
  intros [Hs Hnd Hb]. unfold dalloc; cbn [fst snd].
  set (x := dbrk d) in *.
  assert (x ∉ l.*1) as Hx.
  { intros Hx. destruct (dseg_dom _ _ _ _ _ _ Hs Hx) as [n Hn].
    specialize (Hb x (ex_intro _ _ Hn)). subst x. lia. }
  assert (forall y, is_Some (<[x := mkDnode v None None]> (dheap d) !! y) ->
            (y < Pos.succ x)%positive) as Hb'.
  { intros y [n Hy]. destruct (decide (y = x)) as [->|Hne]; [lia|].
    rewrite lookup_insert_ne in Hy by done.
    specialize (Hb y (ex_intro _ _ Hy)). lia. }
  unfold dlink; cbn [dhead dheap dbrk]. destruct l as [|[h w] l].
  - cbn in Hs. rewrite Hs. eexists. split; [done|]. split; cbn.
    + split; [done|]. exists None. by rewrite lookup_insert_eq.
    + by apply NoDup_singleton.
    + done.
  - destruct Hs as (Hh & nx & Hm & Hs). rewrite Hh.
    cbn in Hx. apply not_elem_of_cons in Hx as [Hxh Hx].
    apply NoDup_cons in Hnd as [Hhl Hnd]. cbn in Hhl.
    unfold deref. rewrite lookup_insert_ne, Hm, chk_bind_Def by done.
    rewrite (lookup_insert_ne _ h x), lookup_insert_eq, chk_bind_Def by done.
    eexists. split; [done|]. cbn [set_prev set_next dval dnext dprev].
    split; cbn [dheap dhead dbrk].
    + cbn. split; [done|]. exists (Some h). rewrite lookup_insert_eq. split; [done|].
      split; [done|]. exists nx.
      rewrite lookup_insert_ne, lookup_insert_eq by done. split; [done|].
      apply dseg_insert_ne; [done|]. apply dseg_insert_ne; [done|].
      by apply dseg_insert_ne.
    + cbn. repeat (apply NoDup_cons; split); try done.
      by apply not_elem_of_cons.
    + intros y [n Hy]. apply Hb'.
      destruct (decide (y = x)) as [->|Hyx]; [by rewrite lookup_insert_eq|].
      rewrite lookup_insert_ne in Hy by done.
      destruct (decide (y = h)) as [->|Hyh].
      * rewrite lookup_insert_ne by done. by eexists.
      * rewrite lookup_insert_ne in Hy by done. by eexists.
Qed.

(** Writing the data of a node of the list. *)
Lemma dstore_spec d p l1 x v l2 v' :
  drep d p (l1 ++ (x, v) :: l2) ->
  exists d', dstore d x v' = Def d' /\ drep d' p (l1 ++ (x, v') :: l2).
Proof.
  intros [Hs Hnd Hb]. apply dseg_app in Hs as (q & H1 & Hx & nx & Hm & H2).
  assert ((x ∉ l1.*1) /\ (x ∉ l2.*1)) as [Hx1 Hx2].
  { rewrite fmap_app in Hnd. apply NoDup_app in Hnd as (_ & Hd & Hnd).
    cbn in Hnd. apply NoDup_cons in Hnd as [? _]. split; [|done].
    intros Hin. apply (Hd x Hin). by left. }
  unfold dstore, deref. rewrite Hm, chk_bind_Def. eexists. split; [done|].
  split; cbn [dheap dhead dbrk set_val dnext dprev].
  - apply dseg_app. exists q. split; [by apply dseg_insert_ne|]. cbn. split; [done|].
    exists nx. rewrite lookup_insert_eq. split; [done|]. by apply dseg_insert_ne.
  - rewrite fmap_app in *. done.
  - intros y [n Hy]. apply Hb. destruct (decide (y = x)) as [->|]; [by eexists|].
    rewrite lookup_insert_ne in Hy by done. by eexists.
Qed.

(** A segment only depends on its own nodes. *)
Lemma dseg_ext m m' p h l t :
  (forall k, k ∈ l.*1 -> m' !! k = m !! k) -> dseg m p h l t -> dseg m' p h l t.
Proof.
  revert p h. induction l as [|[y v] l IH]; intros p h Hm; cbn; [done|].
  intros (-> & nx & Hy & Hs). split; [done|]. exists nx.
  rewrite Hm by (cbn; by left). split; [done|].
  apply IH; [|done]. intros k Hk. apply Hm. cbn. by right.
Qed.

(** Redirecting the [prev] link of the node after a removed one. *)
Lemma dredirect m q q' nx l :
  dseg m q nx l None -> NoDup l.*1 ->
  exists m',
    (match nx with
     | Some z => nz ← deref m z; mret (<[z := set_prev nz q']> m)
     | None => mret m
     end) = Def m' /\
    dseg m' q' nx l None /\
    (forall k, k ∉ l.*1 -> m' !! k = m !! k) /\
    (forall k, is_Some (m' !! k) -> is_Some (m !! k)).
Proof.
  destruct l as [|[z u] l]; intros Hs Hnd.
  - cbn in Hs. subst. by exists m.
  - destruct Hs as (-> & nz & Hz & Hs). unfold deref. rewrite Hz, chk_bind_Def.
    apply NoDup_cons in Hnd as [Hzl _]. cbn in Hzl.
    eexists. split; [done|]. cbn [set_prev dval dnext]. split; [|split].
    + by eapply dseg_set_first_prev.
    + intros k Hk. cbn in Hk. apply not_elem_of_cons in Hk as [? _].
      by rewrite lookup_insert_ne.
    + intros k [n Hk]. destruct (decide (k = z)) as [->|]; [by eexists|].
      rewrite lookup_insert_ne in Hk by done. by eexists.
Qed.

(** Removing the head node. *)
Lemma dbypass_head d x v l :
  drep d None ((x, v) :: l) ->
  exists nx m', dheap d !! x = Some (mkDnode v nx None) /\
    dbypass (dheap d) x = Def m' /\
    drep (mkDlist m' nx (dbrk d)) None l /\
    m' !! x = Some (mkDnode v nx None).
Proof.
  intros [Hs Hnd Hb]. destruct Hs as (_ & nx & Hx & Hs).
  apply NoDup_cons in Hnd as [Hxl Hnd]. cbn in Hxl.
  destruct (dredirect _ _ None _ _ Hs Hnd) as (m' & Hm' & Hs' & Hk & Hd).
  exists nx, m'. unfold dbypass. rewrite (deref_Some _ _ _ Hx).
  cbn [dprev dnext mbind chk_bind mret chk_ret]. rewrite (deref_Some _ _ _ Hx).
  cbn [dprev dnext mbind chk_bind mret chk_ret] in *. rewrite Hm'.
  repeat split; cbn; try done.
  - intros y Hy. apply Hb. by apply Hd.
  - by rewrite Hk.
Qed.

(** Removing an inner or last node. *)
Lemma dbypass_mid d p l0 y w x v l :
  drep d p (l0 ++ (y, w) :: (x, v) :: l) ->
  exists nx m', dheap d !! x = Some (mkDnode v nx (Some y)) /\
    dbypass (dheap d) x = Def m' /\
    drep (mkDlist m' (dhead d) (dbrk d)) p (l0 ++ (y, w) :: l) /\
    m' !! x = Some (mkDnode v nx (Some y)).
Proof.
  intros [Hs Hnd Hb]. apply dseg_app in Hs as (q & H0 & -> & ny & Hy & -> & nx & Hx & Hs).
  rewrite fmap_app in Hnd. cbn in Hnd.
  apply NoDup_app in Hnd as (Hn0 & Hdis & Hn).
  apply NoDup_cons in Hn as [Hyl Hn]. apply NoDup_cons in Hn as [Hxl Hnl].
  apply not_elem_of_cons in Hyl as [Hyx Hyl].
  assert ((y ∉ l0.*1) /\ (x ∉ l0.*1)) as [Hy0 Hx0].
  { split; intros Hin; apply (Hdis _ Hin); [by left | right; by left]. }
  set (m1 := <[y := mkDnode w nx (last_loc p l0)]> (dheap d)).
  assert (dseg m1 (Some x) nx l None) as Hs1 by (by apply dseg_insert_ne).
  destruct (dredirect _ _ (Some y) _ _ Hs1 Hnl) as (m' & Hm' & Hs' & Hk & Hd).
  assert (m' !! x = Some (mkDnode v nx (Some y))) as Hx'.
  { rewrite Hk by done. unfold m1. by rewrite lookup_insert_ne. }
  exists nx, m'. split; [done|]. split; [|split; [|done]].
  - unfold dbypass. rewrite (deref_Some _ _ _ Hx). cbn [dprev dnext mbind chk_bind].
    rewrite (deref_Some _ _ _ Hy).
    cbn [mbind chk_bind mret chk_ret].
    change (<[y := set_next _ nx]> (dheap d)) with m1.
    assert (m1 !! x = Some (mkDnode v nx (Some y))) as Hx1
      by (unfold m1; by rewrite lookup_insert_ne).
    rewrite (deref_Some _ _ _ Hx1). exact Hm'.
  - split; cbn [dheap dhead dbrk].
    + apply dseg_app. exists (Some y). split.
      * eapply dseg_ext; [|exact H0]. intros k Hk0.
        assert (k ∉ l.*1) by (intros Hin; apply (Hdis k Hk0); set_solver).
        rewrite Hk by done. unfold m1. rewrite lookup_insert_ne; [done|]. by intros ->.
      * cbn. split; [done|]. exists nx. split; [|done].
        rewrite Hk by done. unfold m1. by rewrite lookup_insert_eq.
    + rewrite fmap_app. cbn. apply NoDup_app. split; [done|]. split.
      * intros k Hk0. specialize (Hdis k Hk0). set_solver.
      * by apply NoDup_cons.
    + intros k Hin. apply Hd in Hin as [n Hin]. apply Hb. unfold m1 in Hin.
      destruct (decide (k = y)) as [->|]; [by eexists|].
      rewrite lookup_insert_ne in Hin by done. by eexists.
Qed.
End Lemmas.
