(* ===== verification/Node.v ===== *)
(** * The state of an ODR process and its operating system

    The data types of odr.h and utils.h, the variables the daemon keeps between
    two events (file-scope and function-static variables of utils.c,
    odr_functions.c and odr_and.c) as one record [node], and the interface of
    the operating system and name service ([OS]), which is not part of the
    repository: every theorem holds for any implementation of it, under the
    laws it names. *)

From S2P Require Import Prelude CLib Inet Frame DList.

(** ** Types *)

Record timeval := mkTv { tv_sec : Z; tv_usec : Z }.

(** [struct hwa_info]: one interface address; [ip_addr] is the 16-byte
    [struct sockaddr]. *)
Record hwa_info := mkHwa {
  if_name : buf;
  if_haddr : buf;
  if_index : Z;
  ip_alias : Z;
  ip_addr : buf;
}.

(** [struct map_port_sunpath]. *)
Record map_port_sp := mkPortSp {
  ps_ts : timeval;
  portno : Z;
  sun_path : buf;
}.

(** The data fields of [struct r_entry]; its links are those of [dnode]. *)
Record r_entry := mkREntry {
  destip : buf;
  next_hop : buf;
  if_no : Z;
  no_hops : Z;
  r_broadcast_id : Z;
  timestamp : timeval;
}.

(** The data fields of [struct pending_msgs]. *)
Record pending_msg := mkPending {
  p_destip : buf;
  odrframe : odr_frame;
}.

(** [struct sockaddr_ll]. *)
Record sockaddr_ll := mkSll {
  sll_protocol : Z;
  sll_ifindex : Z;
  sll_hatype : Z;
  sll_pkttype : Z;
  sll_halen : Z;
  sll_addr : buf;
}.

(** [struct ifreq]: the name and the 24-byte union. *)
Record ifreq := mkIfreq { ifr_name : buf; ifr_ifru : buf }.

(** What the daemon hands to [sendto]: a packet-socket frame, or a datagram for
    the process bound to a path. *)
Inductive event :=
  | SendRaw (addr : sockaddr_ll) (frame : buf)
  | SendUnix (path : buf) (data : buf).

Inductive if_ioctl := SIOCGIFHWADDR | SIOCGIFINDEX.

(** ** The operating system *)

Class OS := {
  (** [strftime] of the local time, format "%Y-%m-%d %H:%M:%S" *)
  os_localtime : Z -> buf;
  (** the [n]-th [gettimeofday] *)
  os_time : nat -> timeval;
  (** the result of the [n]-th [sendto] *)
  os_sendto : nat -> event -> Z;
  (** [h_name] of the [hostent] of an address, and [h_addr_list] of a name *)
  os_gethostbyaddr : buf -> option buf;
  os_gethostbyname : buf -> option (list buf);
  (** [Socket(AF_INET, SOCK_DGRAM, 0)] succeeds *)
  os_ifsock : bool;
  (** the [n]-th [SIOCGIFCONF] with a buffer of the given length: the error
      number, or the requests stored *)
  os_ifconf : nat -> Z -> Z + list ifreq;
  (** the union after the call; [None] on error *)
  os_ioctl_if : if_ioctl -> ifreq -> option buf;
}.

(** ** The process state *)

Record node := mkNode {
  self_ip_addr : option buf;            (** utils.c: [self_ip_addr] *)
  hwa_struct_head : list hwa_info;      (** utils.h: [hwa_struct_head], [NULL] is [] *)
  port_spath_head : list map_port_sp;   (** odr.h: [port_spath_head] *)
  next_portno : Z;                      (** static [portno] of [get_next_portno] *)
  cur_broadcast_id : Z;                 (** static [broadcast_id] of [get_broadcast_id] *)
  rt : dlist r_entry;                   (** odr.h: [routing_table_head] and its nodes *)
  pq : dlist pending_msg;               (** odr.h: [pending_queue_head] and its nodes *)
  stale_param : Z;                      (** odr_and.c: [stale_param] *)
  clock : nat;                          (** [gettimeofday] calls made *)
  outs : list (event * Z);              (** [sendto] calls made, with results, newest first *)
}.

(** The variables as the program starts with them. *)
Definition node_init : node :=
  mkNode None [] [] 909 10 dempty dempty 0 0 [].

Definition set_self_ip (v : option buf) (s : node) : node :=
  mkNode v (hwa_struct_head s) (port_spath_head s) (next_portno s) (cur_broadcast_id s)
         (rt s) (pq s) (stale_param s) (clock s) (outs s).
Definition set_hwa (v : list hwa_info) (s : node) : node :=
  mkNode (self_ip_addr s) v (port_spath_head s) (next_portno s) (cur_broadcast_id s)
         (rt s) (pq s) (stale_param s) (clock s) (outs s).
Definition set_ports (v : list map_port_sp) (s : node) : node :=
  mkNode (self_ip_addr s) (hwa_struct_head s) v (next_portno s) (cur_broadcast_id s)
         (rt s) (pq s) (stale_param s) (clock s) (outs s).
Definition set_next_portno (v : Z) (s : node) : node :=
  mkNode (self_ip_addr s) (hwa_struct_head s) (port_spath_head s) v (cur_broadcast_id s)
         (rt s) (pq s) (stale_param s) (clock s) (outs s).
Definition set_bid (v : Z) (s : node) : node :=
  mkNode (self_ip_addr s) (hwa_struct_head s) (port_spath_head s) (next_portno s) v
         (rt s) (pq s) (stale_param s) (clock s) (outs s).
Definition set_rt (v : dlist r_entry) (s : node) : node :=
  mkNode (self_ip_addr s) (hwa_struct_head s) (port_spath_head s) (next_portno s)
         (cur_broadcast_id s) v (pq s) (stale_param s) (clock s) (outs s).
Definition set_pq (v : dlist pending_msg) (s : node) : node :=
  mkNode (self_ip_addr s) (hwa_struct_head s) (port_spath_head s) (next_portno s)
         (cur_broadcast_id s) (rt s) v (stale_param s) (clock s) (outs s).
Definition set_stale (v : Z) (s : node) : node :=
  mkNode (self_ip_addr s) (hwa_struct_head s) (port_spath_head s) (next_portno s)
         (cur_broadcast_id s) (rt s) (pq s) v (clock s) (outs s).
Definition set_clock (v : nat) (s : node) : node :=
  mkNode (self_ip_addr s) (hwa_struct_head s) (port_spath_head s) (next_portno s)
         (cur_broadcast_id s) (rt s) (pq s) (stale_param s) v (outs s).
Definition set_outs (v : list (event * Z)) (s : node) : node :=
  mkNode (self_ip_addr s) (hwa_struct_head s) (port_spath_head s) (next_portno s)
         (cur_broadcast_id s) (rt s) (pq s) (stale_param s) (clock s) v.

Abbreviation MN := (M node).

Section Sys.
Context {os : OS}.

Definition gettimeofday : MN timeval := fun s =>
  Ok (os_time (clock s)) (set_clock (S (clock s)) s).

Definition sendto (ev : event) : MN Z := fun s =>
  let r := os_sendto (length (outs s)) ev in
  Ok r (set_outs ((ev, r) :: outs s) s).
End Sys.
