(* ===== verification/Demo.v ===== *)
(** * A concrete operating system

    An instance of [OS] used to run the model: a fixed set of interfaces, a
    clock that ticks once per call within one second, sockets that accept every
    datagram, and a name service for the ten machines vm1 .. vm10 of the test
    bed (addresses 130.245.156.21 to .30, as in the README's routing table). *)

From S2P Require Import Prelude CLib Inet Frame DList Node.

Record demo_if := mkDemoIf { di_name : string; di_addr : list Z; di_mac : list Z; di_index : Z }.

Definition bytes (l : list Z) : buf := byte_of_Z <$> l.
Definition pad (n : nat) (b : buf) : buf := b ++ replicate (n - length b) NUL.

Lemma length_pad n b : (length b <= n)%nat -> length (pad n b) = n.
Proof. intros. unfold pad. rewrite length_app, length_replicate. lia. Qed.

Lemma length_bytes l : length (bytes l) = length l.
Proof. apply length_fmap. Qed.

Definition demo_ifreq (i : demo_if) : ifreq :=
  mkIfreq (pad 16 (chars (di_name i)))
          (pad 24 (bytes [2; 0; 0; 0] ++ bytes (di_addr i))).

Definition demo_ioctl (ifs : list demo_if) (req : if_ioctl) (r : ifreq) : option buf :=
  i ← snd <$> list_find (fun i => cstr (ifr_name r) = Some (chars (di_name i))) ifs;
  Some (match req with
        | SIOCGIFHWADDR => pad 24 (bytes [1; 0] ++ bytes (di_mac i))
        | SIOCGIFINDEX => pad 24 (le32 (di_index i))
        end).

(** 130.245.156.(20 + k). *)
Definition vm_addr (k : Z) : list Z := [130; 245; 156; 20 + k].
Definition vm_ip (k : Z) : buf := dotted_quad (bytes (vm_addr k)).

Definition vm_of_addr (a : buf) : option Z :=
  snd <$> list_find (fun k => a = bytes (vm_addr k)) [1; 2; 3; 4; 5; 6; 7; 8; 9; 10].
Definition vm_of_name (n : buf) : option Z :=
  snd <$> list_find (fun k => n = chars "vm" ++ print_int k) [1; 2; 3; 4; 5; 6; 7; 8; 9; 10].

Definition demo_os (ifs : list demo_if) : OS := {|
  os_localtime _ := chars "2014-11-24 07:21:12";
  os_time n := mkTv 1416831672 (Z.of_nat n);
  os_sendto _ ev :=
    Z.max 1 (Z.of_nat (length (match ev with SendRaw _ f => f | SendUnix _ d => d end)));
  os_gethostbyaddr a := (fun k => chars "vm" ++ print_int k) <$> vm_of_addr a;
  os_gethostbyname n := (fun k => [bytes (vm_addr k)]) <$> vm_of_name n;
  os_ifsock := true;
  os_ifconf _ len := inr (take (Z.to_nat (len / 40)) (demo_ifreq <$> ifs));
  os_ioctl_if := demo_ioctl ifs;
|}.

(** vm [k]: the loop-back, eth0 with its canonical address, and two links. *)
Definition demo_ifs (k : Z) : list demo_if := [
  mkDemoIf "lo" [127; 0; 0; 1] [0; 0; 0; 0; 0; 0] 1;
  mkDemoIf "eth0" (vm_addr k) [0; 12; 41; 64; 227; k] 2;
  mkDemoIf "eth1" [192; 168; 1; k] [0; 12; 41; 65; 227; k] 3;
  mkDemoIf "eth2" [192; 168; 2; k] [0; 12; 41; 66; 227; k] 4].

(** A frame in host order, from port 909 of vm [src] to the server of vm
    [dst]. *)
Definition demo_frame (type bid hop src dst : Z) (data : buf) : odr_frame :=
  mkFrame type bid hop 0 0 909 5500 (pad INET_ADDRSTRLEN (vm_ip dst))
          (pad INET_ADDRSTRLEN (vm_ip src)) (pad (Z.to_nat PAYLOAD_SIZE) data).
