(* ===== verification/Release.v ===== *)
(** * The storage of interface and address lists

    How get_hw_addrs (utils.c) allocates and links its structures and free_hwa_info
    releases them; freeaddrinfo (libgai). *)

From stdpp Require Import gmap.
From S2P Require Import Prelude CLib Inet Inet6 Sockaddr Gai Frame Node Storage.

(** ** Interfaces

    A structure owns the block of its address.  In get_hw_addrs the structure is
    allocated and linked in before its address is. *)
Definition hwa_node (h : hwa_info) : hwa_info * list (option buf) := (h, [Some (ip_addr h)]).
Definition link_hwas (l : list hwa_info) (m : gmap place (block hwa_info buf)) : chk (building hwa_info buf) :=
  append_all (hwa_node <$> l) (Building m None None).

(** [free(hwa->ip_addr)], then the structure. *)
Definition free_hwa_info (fuel : nat) (hwahead : option place) (m : gmap place (block hwa_info buf))
    : chk (gmap place (block hwa_info buf)) :=
  free_chain fuel hwahead m.

(** The list that get_hw_addrs links is read back by following the links, and
    free_hwa_info gives all of its storage back, once. *)
Theorem hwa_storage l m0 :
  exists b, link_hwas l m0 = Def b /\
    walk (S (length l)) (first b) (store b) = Def (hwa_node <$> l) /\
    free_hwa_info (S (length l)) (first b) (store b) = Def m0.
Proof.
  destruct (storage_returned m0 (hwa_node <$> l)) as (b & Hb & Hw & Hf). rewrite length_fmap in Hw, Hf. by exists b.
Qed.

(** ** Addresses

    A structure owns its socket address and, the first one, the canonical name. *)
Definition ai_node (ai : addrinfo) : addrinfo * list (option (sockaddr + buf)) :=
  (ai, [inl <$> ai_addr ai; inr <$> ai_canonname ai]).
Definition freeaddrinfo (fuel : nat) (aihead : option place) (m : gmap place (block addrinfo (sockaddr + buf)))
    : chk (gmap place (block addrinfo (sockaddr + buf))) :=
  free_chain fuel aihead m.

(** A list of addresses, wherever its structures and blocks are, as long as they are
    at different places, is released completely, and nothing else is. *)
Theorem freeaddrinfo_releases m p ns l :
  NoDup (places ns) -> links m p ns None -> ns.*2 = ai_node <$> l ->
  exists m', freeaddrinfo (S (length l)) p m = Def m' /\
    (forall z, z ∈ places ns -> m' !! z = None) /\ (forall z, z ∉ places ns -> m' !! z = m !! z).
Proof.
  intros Hnd Hl Hns. replace (length l) with (length ns); [by apply free_links|].
  apply (f_equal length) in Hns. by rewrite !length_fmap in Hns.
Qed.
