(* ===== verification/Utils.v ===== *)
(** * Interfaces, names and identifiers (utils.c)

    The interface list ([get_hw_addrs], [Get_hw_struct_head],
    [get_hwaddr_from_int]), the node's own address ([get_self_ip]), the name
    service wrappers ([get_canonical_ip], [get_name_ip],
    [construct_name_to_ip_table]), the broadcast-id counter and the printing of
    hardware addresses. *)

From S2P Require Import Prelude CLib Inet Frame DList Node Demo.

Definition MAXLINE : nat := 4096.
Definition IF_NAME : nat := 16.
Definition IF_HADDR : nat := 6.
Definition HW_ADDR : nat := 6.
Definition IP_ALIAS : Z := 1.
Definition EINVAL : Z := 22.
Definition SIZEOF_IFREQ : Z := 40.

(** ** Interface list *)

(** [strchr(name, ':')] and, if it finds a colon, [*cptr = 0]. *)
Fixpoint cut_colon (name : buf) : chk buf :=
  match name with
  | [] => Bad Unterminated
  | c :: name' =>
      if Ascii.eqb c NUL then mret (c :: name')
      else if Ascii.eqb c ":"%char then mret (NUL :: name')
      else r ← cut_colon name'; mret (c :: r)
  end.

(** [strncmp(a, b, n) == 0]. *)
Fixpoint strncmp_eq (a b : buf) (n : nat) : chk bool :=
  match n with
  | O => mret true
  | S n' =>
      match a, b with
      | x :: a', y :: b' =>
          if Ascii.eqb x y
          then if Ascii.eqb x NUL then mret true else strncmp_eq a' b' n'
          else mret false
      | _, _ => Bad Unterminated
      end
  end.

Section Ifaces.
Context {os : OS}.

(** The [SIOCGIFCONF] loop: ask with a growing buffer until two answers in a
    row have the same length. *)
Fixpoint ifconf_loop (fuel i : nat) (len lastlen : Z) : MN (list ifreq) :=
  match fuel with
  | O => lift (Bad EndlessLoop)
  | S fuel' =>
      match os_ifconf i len with
      | inl errno =>
          if negb (errno =? EINVAL) || negb (lastlen =? 0) then abort_with ErrExit
          else ifconf_loop fuel' (S i) (len + 10 * SIZEOF_IFREQ) lastlen
      | inr reqs =>
          let ifc_len := SIZEOF_IFREQ * Z.of_nat (length reqs) in
          if ifc_len =? lastlen then mret reqs
          else ifconf_loop fuel' (S i) (len + 10 * SIZEOF_IFREQ) ifc_len
      end
  end.

(** The body of the loop over the requests: the new structure and the new
    [lastname]. *)
Definition hwa_of_ifreq (lastname : buf) (item : ifreq) : chk (hwa_info * buf) :=
  nm ← memcpy (replicate IF_NAME NUL) (ifr_name item) IF_NAME;
  let nm := <[(IF_NAME - 1)%nat := NUL]> nm in
  iname ← cut_colon (ifr_name item);
  same ← strncmp_eq lastname iname IF_NAME;
  let alias := if same : bool then IP_ALIAS else 0 in
  last' ← memcpy lastname iname IF_NAME;
  sa ← memcpy (replicate 16 NUL) (ifr_ifru item) 16;
  let u0 := ifr_ifru item in
  let u1 := default u0 (os_ioctl_if SIOCGIFHWADDR (mkIfreq iname u0)) in
  ha ← memcpy (replicate IF_HADDR NUL) (drop 2 u1) IF_HADDR;
  let u2 := default u1 (os_ioctl_if SIOCGIFINDEX (mkIfreq iname u1)) in
  mret (mkHwa nm ha (wrap_int (of_le32 (take 4 u2))) alias sa, last').

Fixpoint hwa_of_ifreqs (lastname : buf) (reqs : list ifreq) : chk (list hwa_info) :=
  match reqs with
  | [] => mret []
  | item :: reqs' =>
      '(h, last') ← hwa_of_ifreq lastname item;
      hs ← hwa_of_ifreqs last' reqs';
      mret (h :: hs)
  end.

Definition get_hw_addrs (fuel : nat) : MN (list hwa_info) :=
  if os_ifsock then
    reqs ← ifconf_loop fuel 0 (100 * SIZEOF_IFREQ) 0;
    lift (hwa_of_ifreqs (replicate IF_NAME NUL) reqs)
  else abort_with ErrExit.

(** Enough for every node with at most 10,080 interface addresses (see
    [ifconf_loop_all]). *)
Definition IFCONF_FUEL : nat := 1000.

Definition Get_hw_struct_head : MN (list hwa_info) :=
  hwa ← gets hwa_struct_head;
  match hwa with
  | [] =>
      l ← get_hw_addrs IFCONF_FUEL;
      modify (set_hwa l);;
      match l with
      | [] => abort_with ErrExit
      | _ => mret l
      end
  | _ => mret hwa
  end.

Fixpoint find_hwaddr (interface_no : Z) (l : list hwa_info) : option buf :=
  match l with
  | [] => None
  | curr :: l' =>
      if if_index curr =? interface_no then Some (if_haddr curr)
      else find_hwaddr interface_no l'
  end.

Definition get_hwaddr_from_int (interface_no : Z) : MN (option buf) :=
  l ← Get_hw_struct_head; mret (find_hwaddr interface_no l).

(** [sscanf(curr->if_name, "%[^:]", if_name)] into a cleared buffer. *)
Definition base_if_name (name : buf) : chk buf :=
  ws ← sscanf name [DSet MAXLINE (Ascii.eqb ":"%char)];
  mret (match ws with w :: _ => w ++ [NUL] | [] => [NUL] end).

(** [sin_addr] of the [sockaddr_in] behind [ip_addr]. *)
Definition sin_addr (sa : buf) : buf := take 4 (drop 4 sa).

(** The search of [get_self_ip] over the interface list. *)
Fixpoint find_self_ip (l : list hwa_info) : chk (option buf) :=
  match l with
  | [] => mret None
  | curr :: l' =>
      nm ← base_if_name (if_name curr);
      is_eth0 ← streq nm (lit "eth0");
      if is_eth0 : bool then
        r ← inet_ntop4 (sin_addr (ip_addr curr)) (replicate INET_ADDRSTRLEN NUL)
              INET_ADDRSTRLEN;
        match r with
        | inr d => mret (Some d)
        | inl _ => Bad Uninitialised
        end
      else find_self_ip l'
  end.

Definition get_self_ip : MN (option buf) :=
  cached ← gets self_ip_addr;
  match cached with
  | Some ip => mret (Some ip)
  | None =>
      l ← Get_hw_struct_head;
      r ← lift (find_self_ip l);
      modify (set_self_ip r);;
      mret r
  end.

(** ** Names *)

(** [None]: the call returned -1 and [canon_ip] is untouched. *)
Definition get_canonical_ip (serv_vm canon_ip : buf) : MN (option buf) :=
  nm ← lift (need_str serv_vm);
  match os_gethostbyname nm with
  | None => mret None
  | Some addr_list =>
      a ← assert_some (head addr_list);
      r ← lift (strcpy canon_ip (dotted_quad a ++ [NUL]));
      mret (Some r)
  end.

Definition get_name_ip (ip : buf) : MN buf :=
  r ← lift (inet_pton4 ip);
  a ← lift (match r with Some a => mret a | None => Bad Uninitialised end);
  he ← assert_some (os_gethostbyaddr a);
  mret (he ++ [NUL]).

(** [char vmname[INET_ADDRSTRLEN]; strcpy(vmname, get_name_ip(ip));] *)
Definition copy_vmname (ip : buf) : MN buf :=
  n ← get_name_ip ip;
  lift (strcpy (replicate INET_ADDRSTRLEN NUL) n).

(** [construct_name_to_ip_table]: the (name, address) nodes in list order,
    for [vm<i>] with [i] from [from] on. *)
Fixpoint name_to_ip_entries (n : nat) (from : Z) : MN (list (buf * buf)) :=
  match n with
  | O => mret []
  | S n' =>
      b ← lift (strcpy (replicate 10 NUL) (chars "vm" ++ print_int from ++ [NUL]));
      r ← get_canonical_ip b (replicate INET_ADDRSTRLEN NUL);
      match r with
      | None => name_to_ip_entries n' (from + 1)
      | Some ip =>
          nm ← lift (strncpy (replicate 10 NUL) b 10);
          ip' ← lift (strncpy (replicate INET_ADDRSTRLEN NUL) ip INET_ADDRSTRLEN);
          l ← name_to_ip_entries n' (from + 1);
          mret ((nm, ip') :: l)
      end
  end.

Definition construct_name_to_ip_table : MN (list (buf * buf)) := name_to_ip_entries 10 1.
End Ifaces.

(** ** Identifiers *)

Definition get_broadcast_id : MN Z :=
  b ← gets cur_broadcast_id;
  b' ← lift (int_add b 1);
  modify (set_bid b');;
  mret b'.

(** ** Hardware addresses *)

Definition convert_to_mac (src_macaddr : option buf) : MN buf :=
  m ← assert_some src_macaddr;
  lift (if (HW_ADDR <=? length m)%nat then mret (take HW_ADDR m) else Bad BadPointer).

Definition hex_digit (d : Z) : ascii :=
  if d <? 10 then byte_of_Z (48 + d) else byte_of_Z (87 + d).
(** ["%.2x"] of a byte. *)
Definition hex2 (c : ascii) : buf := [hex_digit (Z_of_byte c / 16); hex_digit (Z_of_byte c mod 16)].

(** What [print_mac] writes: six bytes in hexadecimal, separated by colons,
    with a final blank. *)
Fixpoint print_mac_loop (i : nat) (m : buf) : chk buf :=
  match i with
  | O => mret []
  | S i' =>
      match m with
      | [] => Bad BadPointer
      | c :: m' =>
          r ← print_mac_loop i' m';
          mret (hex2 c ++ (if (i' =? 0)%nat then " "%char else ":"%char) :: r)
      end
  end.

Definition print_mac (src_macaddr : buf) : chk buf := print_mac_loop HW_ADDR src_macaddr.

(** * Lemmas *)

Section UtilsLemmas.
Context {os : OS}.

(** ** The [SIOCGIFCONF] loop *)

(** The kernel's documented behaviour: as many of the addresses [all] as fit
    in the buffer, whatever the call. *)
Definition kernel_has (all : list ifreq) : Prop :=
  forall i len, os_ifconf i len = inr (take (Z.to_nat (len / SIZEOF_IFREQ)) all).

Lemma ifconf_step all fuel i k lastlen s :
  kernel_has all ->
  ifconf_loop (S fuel) i (SIZEOF_IFREQ * (100 + 10 * Z.of_nat k)) lastlen s =
  (let m := (100 + 10 * k)%nat in
   let ifc_len := SIZEOF_IFREQ * Z.of_nat (m `min` length all) in
   if ifc_len =? lastlen then Ok (take m all) s
   else ifconf_loop fuel (S i) (SIZEOF_IFREQ * (100 + 10 * Z.of_nat (S k))) ifc_len s).
Proof.
  intros HK. cbn [ifconf_loop]. rewrite HK.
  replace (SIZEOF_IFREQ * (100 + 10 * Z.of_nat k) / SIZEOF_IFREQ) with (100 + 10 * Z.of_nat k)
    by (by rewrite (Z.mul_comm SIZEOF_IFREQ), Z.div_mul).
  replace (Z.to_nat (100 + 10 * Z.of_nat k)) with (100 + 10 * k)%nat by lia.
  rewrite length_take. cbv zeta.
  replace (SIZEOF_IFREQ * (100 + 10 * Z.of_nat k) + 10 * SIZEOF_IFREQ)
    with (SIZEOF_IFREQ * (100 + 10 * Z.of_nat (S k))) by (unfold SIZEOF_IFREQ; lia).
  by destruct (_ =? _).
Qed.

Lemma ifconf_later all fuel i k s :
  kernel_has all -> (length all <= 100 + 10 * (k + fuel))%nat ->
  ifconf_loop (S fuel) i (SIZEOF_IFREQ * (100 + 10 * Z.of_nat (S k)))
    (SIZEOF_IFREQ * Z.of_nat ((100 + 10 * k) `min` length all)) s = Ok all s.
Proof.
  intros HK. revert i k. induction fuel as [|fuel IH]; intros i k Hn;
    rewrite (ifconf_step all) by done; cbv zeta.
  - rewrite (proj2 (Z.eqb_eq _ _)) by lia. by rewrite take_ge by lia.
  - destruct (Z.eqb_spec (SIZEOF_IFREQ * Z.of_nat ((100 + 10 * S k) `min` length all))
                (SIZEOF_IFREQ * Z.of_nat ((100 + 10 * k) `min` length all))) as [E|E].
    + rewrite take_ge; [done|]. unfold SIZEOF_IFREQ in E. lia.
    + apply IH. lia.
Qed.

(** The loop ends with the complete list as soon as the fuel covers one
    round per ten addresses above the initial guess of a hundred. *)
Lemma ifconf_loop_all all fuel s :
  kernel_has all -> (length all <= 100 + 10 * fuel)%nat ->
  ifconf_loop (S (S fuel)) 0 (100 * SIZEOF_IFREQ) 0 s = Ok all s.
Proof.
  intros HK Hn.
  change (100 * SIZEOF_IFREQ) with (SIZEOF_IFREQ * (100 + 10 * Z.of_nat 0)).
  rewrite (ifconf_step all) by done. cbv zeta.
  destruct (Z.eqb_spec (SIZEOF_IFREQ * Z.of_nat ((100 + 10 * 0) `min` length all)) 0) as [E|E].
  - assert (all = []) as -> by (apply nil_length_inv; unfold SIZEOF_IFREQ in E; lia). done.
  - apply ifconf_later; [done|]. lia.
Qed.

(** ** Interface structures *)

(** The part of an interface name before a colon. *)
Definition base (n : buf) : buf := (span (fun c => negb (Ascii.eqb c ":"%char)) n).1.

(** The alias flags the loop computes: each name is compared with the one
    before it. *)
Fixpoint alias_flags (prev : buf) (names : list buf) : list Z :=
  match names with
  | [] => []
  | n :: names' => (if bool_decide (prev = base n) then IP_ALIAS else 0)
                   :: alias_flags (base n) names'
  end.

Record ifreq_ok (r : ifreq) (n : buf) : Prop := {
  ifreq_name_len : length (ifr_name r) = IF_NAME;
  ifreq_name_str : cstr (ifr_name r) = Some n;
  ifreq_union_len : length (ifr_ifru r) = 24%nat;
}.

(** The union keeps its size under the two [ioctl]s. *)
Definition ioctl_ok : Prop :=
  forall req r u, os_ioctl_if req r = Some u -> length u = 24%nat.

Record hwa_ok (h : hwa_info) : Prop := {
  hwa_name : exists n, cstr (if_name h) = Some n;
  hwa_name_len : length (if_name h) = IF_NAME;
  hwa_haddr_len : length (if_haddr h) = IF_HADDR;
  hwa_addr_len : length (ip_addr h) = 16%nat;
}.

Lemma cut_colon_spec n r :
  nonul n -> exists r', cut_colon (n ++ NUL :: r) = Def (base n ++ NUL :: r') /\
    length (base n ++ NUL :: r') = length (n ++ NUL :: r).
Proof.
  induction 1 as [|c n Hc _ IH].
  - exists r. done.
  - cbn [cut_colon app]. unfold base; cbn [span].
    destruct (Ascii.eqb_spec c NUL); [done|].
    destruct (Ascii.eqb_spec c ":"%char) as [->|Hcol]; cbn [negb].
    + exists (n ++ NUL :: r). done.
    + destruct IH as (r' & -> & Hl). rewrite chk_bind_Def. exists r'.
      unfold base in *. destruct (span _ n) as [a b]. cbn in *. by rewrite Hl.
Qed.

Lemma base_nonul n : nonul n -> nonul (base n).
Proof.
  unfold base. induction 1 as [|c n Hc _ IH]; cbn; [constructor|].
  destruct (negb _); [|constructor].
  destruct (span _ n) as [a b]. by constructor.
Qed.

Lemma base_length n : (length (base n) <= length n)%nat.
Proof.
  unfold base. induction n as [|c n IH]; cbn; [done|].
  destruct (negb _); cbn; [|lia]. destruct (span _ n) as [a b]. cbn in *. lia.
Qed.

Lemma strncmp_eq_spec a b n r1 r2 :
  nonul a -> nonul b -> (length a < n)%nat -> (length b < n)%nat ->
  strncmp_eq (a ++ NUL :: r1) (b ++ NUL :: r2) n = Def (bool_decide (a = b)).
Proof.
  intros Ha. revert b n. induction Ha as [|x a Hx _ IH]; intros b n Hb Hla Hlb.
  - destruct n as [|n]; [cbn in Hla; lia|]. destruct Hb as [|y b Hy Hb].
    + cbn. done.
    + cbn [strncmp_eq app]. destruct (Ascii.eqb_spec NUL y); [congruence|].
      by rewrite bool_decide_eq_false_2.
  - destruct n as [|n]; [cbn in Hla; lia|]. destruct Hb as [|y b Hy Hb].
    + cbn [strncmp_eq app]. destruct (Ascii.eqb_spec x NUL); [done|].
      by rewrite bool_decide_eq_false_2.
    + cbn [strncmp_eq app]. destruct (Ascii.eqb_spec x y) as [->|Hxy].
      * destruct (Ascii.eqb_spec y NUL); [done|].
        rewrite IH by (done || cbn in *; lia). f_equal. apply bool_decide_ext. naive_solver.
      * rewrite bool_decide_eq_false_2 by naive_solver. done.
Qed.

Lemma insert_last_NUL (l : buf) k :
  length l = S k -> exists n, cstr (<[k := NUL]> l) = Some n.
Proof.
  revert k. induction l as [|c l IH]; intros k Hl; [done|].
  destruct k as [|k]; [by exists []|]. cbn in Hl.
  - change (<[S k := NUL]> (c :: l)) with (c :: <[k := NUL]> l). cbn [cstr].
    destruct (Ascii.eqb_spec c NUL); [by exists []|].
    destruct (IH k) as [w ->]; [lia|]. by eexists.
Qed.

Lemma hwa_of_ifreq_spec item n last pv r0 :
  ioctl_ok -> ifreq_ok item n -> nonul pv ->
  last = pv ++ NUL :: r0 -> length last = IF_NAME ->
  exists h r1, hwa_of_ifreq last item = Def (h, base n ++ NUL :: r1) /\
    length (base n ++ NUL :: r1) = IF_NAME /\ hwa_ok h /\
    ip_alias h = (if bool_decide (pv = base n) then IP_ALIAS else 0).
Proof.
  intros Hio [Hl Hs Hu] Hpv Hlast Hll. apply cstr_Some in Hs as [Hn [r Hr]].
  destruct (cut_colon_spec n r Hn) as (r1 & Hcut & Hcl). rewrite <- Hr in Hcut, Hcl.
  rewrite Hl in Hcl.
  unfold hwa_of_ifreq.
  rewrite (memcpy_Def (replicate IF_NAME NUL) (ifr_name item)), chk_bind_Def
    by (rewrite ?length_replicate; lia).
  rewrite Hcut, chk_bind_Def.
  pose proof (base_length n) as Hbl.
  assert (length n < IF_NAME)%nat as Hnl
    by (rewrite <- Hl, Hr, length_app; cbn; lia).
  assert (strncmp_eq last (base n ++ NUL :: r1) IF_NAME
          = Def (bool_decide (pv = base n))) as ->.
  { rewrite Hlast. apply strncmp_eq_spec; [done | by apply base_nonul | | lia].
    rewrite Hlast, length_app in Hll. cbn in Hll. lia. }
  rewrite chk_bind_Def.
  rewrite (memcpy_Def last), chk_bind_Def by lia.
  rewrite (memcpy_Def (replicate 16 NUL)), chk_bind_Def by (rewrite ?length_replicate; lia).
  set (u1 := default (ifr_ifru item) _). assert (length u1 = 24%nat) as Hu1.
  { unfold u1. destruct (os_ioctl_if _ _) eqn:E; [exact (Hio _ _ _ E) | exact Hu]. }
  rewrite memcpy_Def, chk_bind_Def
    by (rewrite ?length_replicate, ?length_drop; unfold IF_HADDR in *; lia).
  rewrite (take_ge (base n ++ _)) by lia.
  rewrite (drop_ge last) by lia. rewrite !app_nil_r.
  eexists _, r1. split; [done|]. split; [done|]. split; [|done].
  split; cbn [if_name if_haddr ip_addr].
  - apply insert_last_NUL.
    by rewrite length_take, Hl.
  - by rewrite length_insert, length_take, Hl.
  - rewrite ?length_app, length_take, !length_drop, ?length_replicate, Hu1. done.
  - rewrite ?length_app, length_take, ?length_drop, ?length_replicate, Hu. done.
Qed.

Lemma hwa_of_ifreqs_spec items names last pv r0 :
  ioctl_ok -> Forall2 ifreq_ok items names -> nonul pv ->
  last = pv ++ NUL :: r0 -> length last = IF_NAME ->
  exists l, hwa_of_ifreqs last items = Def l /\ Forall hwa_ok l /\
    ip_alias <$> l = alias_flags pv names.
Proof.
  intros Hio Hitems. revert last pv r0.
  induction Hitems as [|item n items names Hi _ IH]; intros last pv r0 Hpv Hlast Hll.
  - by exists [].
  - destruct (hwa_of_ifreq_spec item n last pv r0) as (h & r1 & Hh & Hl1 & Hok & Hal); try done.
    destruct (IH (base n ++ NUL :: r1) (base n) r1) as (l & Hl & Hoks & Hals); try done.
    { apply base_nonul. eapply cstr_nonul. apply Hi. }
    exists (h :: l). cbn [hwa_of_ifreqs]. rewrite Hh, chk_bind_Def. cbn.
    rewrite Hl. split; [done|]. split; [by constructor|]. cbn. by rewrite Hal, Hals.
Qed.

(** ** The node's own address *)

(** The interface's name without its alias suffix. *)
Definition hwa_base (h : hwa_info) : buf := base (default [] (cstr (if_name h))).

Lemma base_if_name_spec h :
  hwa_ok h -> base_if_name (if_name h) = Def (hwa_base h ++ [NUL]).
Proof.
  intros [[n Hn] Hl _ _]. unfold base_if_name, sscanf, hwa_base. rewrite Hn. cbn [default from_option id].
  rewrite (need_str_Some _ _ Hn), chk_bind_Def. cbn [sscanf_str].
  assert (span (fun c => negb (Ascii.eqb ":"%char c)) n = (base n, (span (fun c => negb (Ascii.eqb c ":"%char)) n).2)) as ->.
  { unfold base. clear. induction n as [|c n IH]; [done|]. cbn [span].
    rewrite (Ascii.eqb_sym ":"%char c). destruct (negb _); [|done].
    rewrite IH. by destruct (span _ n). }
  pose proof (base_length n). pose proof (cstr_length _ _ Hn).
  destruct (base n) as [|c w] eqn:E; [done|].
  rewrite (proj2 (Nat.eqb_neq _ _)) by done.
  rewrite (proj2 (Nat.ltb_lt _ _)) by (unfold MAXLINE, IF_NAME in *; lia). done.
Qed.

Lemma hwa_base_nonul h : hwa_ok h -> nonul (hwa_base h).
Proof.
  intros [[n Hn] _ _ _]. unfold hwa_base. rewrite Hn. apply base_nonul. by eapply cstr_nonul.
Qed.

(** The name tests of [send_req_broadcast] and [get_self_ip]. *)
Lemma if_name_test h (nm : string) :
  hwa_ok h -> nonul (chars nm) ->
  streq (hwa_base h ++ [NUL]) (lit nm) = Def (bool_decide (hwa_base h = chars nm)).
Proof.
  intros Hh Hn. apply streq_Some; [|by apply cstr_lit].
  by apply cstr_term, hwa_base_nonul.
Qed.

(** The address of the first interface named eth0, as a dotted quad. *)
Definition eth0_ip (l : list hwa_info) : option buf :=
  (fun e => dotted_quad (sin_addr (ip_addr e.2)))
    <$> list_find (fun h => hwa_base h = chars "eth0") l.

Lemma find_self_ip_spec l :
  Forall hwa_ok l ->
  exists r, find_self_ip l = Def r /\
    match eth0_ip l with
    | Some ip => exists b, r = Some b /\ cstr b = Some ip
    | None => r = None
    end.
Proof.
  unfold eth0_ip. induction 1 as [|h l Hh _ IH]; [by eexists|].
  cbn [find_self_ip list_find]. rewrite base_if_name_spec, chk_bind_Def by done.
  rewrite if_name_test, chk_bind_Def by (done || by repeat constructor).
  case_decide as E.
  - rewrite bool_decide_eq_true_2 by done.
    destruct (inet_ntop4_ok (sin_addr (ip_addr h)) (replicate INET_ADDRSTRLEN NUL))
      as (d & -> & Hd & _).
    { unfold sin_addr. destruct Hh. rewrite length_take, length_drop. lia. }
    { apply length_replicate. }
    rewrite chk_bind_Def. eexists. split; [done|]. cbn. eauto.
  - rewrite bool_decide_eq_false_2 by done.
    destruct IH as (r & -> & IH). exists r. split; [done|].
    by destruct (list_find _ l) as [[i e]|].
Qed.

(** ** Steady state *)

(** After the first event the daemon knows its address and its interfaces. *)
Record ready_hw (self : option buf) (hwa : list hwa_info) (ip : buf) : Prop := {
  ready_ip : exists b, self = Some b /\ cstr b = Some ip;
  ready_hwa : hwa <> [];
  ready_ok : Forall hwa_ok hwa;
}.

(** The name service knows the address and its name fits the 16-byte buffers
    the daemon copies it to. *)
Definition resolves (ip : buf) : Prop :=
  exists a n, length a = 4%nat /\ ip = dotted_quad a /\
    os_gethostbyaddr a = Some n /\ nonul n /\ (length n < INET_ADDRSTRLEN)%nat.

Lemma resolves_length ip : resolves ip -> (length ip < INET_ADDRSTRLEN)%nat.
Proof.
  intros (a & n & _ & -> & _). pose proof (dotted_quad_length a).
  unfold INET_ADDRSTRLEN. lia.
Qed.

Lemma resolves_nonul ip : resolves ip -> nonul ip.
Proof. intros (a & n & _ & -> & _). apply dotted_quad_nonul. Qed.

Lemma wp_get_name_ip b ip Q s :
  cstr b = Some ip -> resolves ip ->
  (forall n, nonul n -> (length n < INET_ADDRSTRLEN)%nat -> Q (n ++ [NUL]) s) ->
  wp (get_name_ip b) Q s.
Proof.
  intros Hb (a & n & Ha & -> & Hn & Hn0 & Hnl) HQ. unfold get_name_ip.
  wp_step. eapply wp_lift; [by apply inet_pton4_dotted|]. cbn beta.
  wp_step. eapply wp_lift; [done|]. cbn beta.
  wp_step. eapply wp_assert_some; [done|]. cbn beta. wp_step. by apply HQ.
Qed.

Lemma wp_copy_vmname b ip (Q : buf -> node -> Prop) s :
  cstr b = Some ip -> resolves ip -> (forall v, Q v s) -> wp (copy_vmname b) Q s.
Proof.
  intros Hb Hr HQ. unfold copy_vmname. wp_step. eapply wp_get_name_ip; [done..|].
  intros n Hn Hl. destruct (strcpy_Some (replicate INET_ADDRSTRLEN NUL) (n ++ [NUL]) n)
    as (d & Hd & _); [by apply cstr_term | by rewrite length_replicate |].
  eapply wp_lift; [exact Hd|]. apply HQ.
Qed.

Lemma wp_Get_hw_struct_head (Q : list hwa_info -> node -> Prop) s :
  hwa_struct_head s <> [] -> Q (hwa_struct_head s) s -> wp Get_hw_struct_head Q s.
Proof.
  intros Hn HQ. unfold Get_hw_struct_head. wp_steps.
  by destruct (hwa_struct_head s).
Qed.

Lemma wp_get_hwaddr_from_int i (Q : option buf -> node -> Prop) s :
  hwa_struct_head s <> [] -> Q (find_hwaddr i (hwa_struct_head s)) s ->
  wp (get_hwaddr_from_int i) Q s.
Proof. intros Hn HQ. unfold get_hwaddr_from_int. wp_step. by apply wp_Get_hw_struct_head. Qed.

Lemma wp_get_self_ip b (Q : option buf -> node -> Prop) s :
  self_ip_addr s = Some b -> Q (Some b) s -> wp get_self_ip Q s.
Proof. intros Hb HQ. unfold get_self_ip. wp_steps. by rewrite Hb. Qed.

Lemma wp_get_broadcast_id (Q : Z -> node -> Prop) s :
  INT_MIN < cur_broadcast_id s < INT_MAX ->
  Q (cur_broadcast_id s + 1) (set_bid (cur_broadcast_id s + 1) s) ->
  wp get_broadcast_id Q s.
Proof.
  intros Hb HQ. unfold get_broadcast_id. wp_steps.
  apply wp_lift with (cur_broadcast_id s + 1).
  - unfold int_add. rewrite (proj2 (int_ok_spec _)); [done|]. lia.
  - wp_steps. done.
Qed.

Lemma wp_convert_to_mac m (Q : buf -> node -> Prop) s :
  (HW_ADDR <= length m)%nat -> Q (take HW_ADDR m) s -> wp (convert_to_mac (Some m)) Q s.
Proof.
  intros Hm HQ. unfold convert_to_mac. wp_step. eapply wp_assert_some; [done|].
  eapply wp_lift; [|exact HQ]. by rewrite (proj2 (Nat.leb_le _ _) Hm).
Qed.

Lemma find_hwaddr_length i l m :
  Forall hwa_ok l -> find_hwaddr i l = Some m -> length m = HW_ADDR.
Proof.
  induction 1 as [|h l Hh _ IH]; cbn; [done|].
  destruct (_ =? _); [|done]. intros [= <-]. apply Hh.
Qed.

(** The first use: the interface list is fetched and the address is that of
    eth0. *)
Lemma get_self_ip_boot all names s ip l :
  self_ip_addr s = None -> hwa_struct_head s = [] ->
  os_ifsock = true -> kernel_has all -> Z.of_nat (length all) <= 10080 ->
  ioctl_ok -> Forall2 ifreq_ok all names ->
  hwa_of_ifreqs (replicate IF_NAME NUL) all = Def l -> eth0_ip l = Some ip ->
  exists b s', get_self_ip s = Ok (Some b) s' /\ cstr b = Some ip /\
    ready_hw (self_ip_addr s') (hwa_struct_head s') ip /\
    s' = set_self_ip (Some b) (set_hwa l s).
Proof.
  intros Hs Hh Hsock HK Hn Hio Hall Hl Hip.
  destruct (hwa_of_ifreqs_spec all names (replicate IF_NAME NUL) [] (replicate 15 NUL))
    as (l' & Hl' & Hok & _); try done; [constructor|].
  rewrite Hl in Hl'. injection Hl' as <-.
  destruct (find_self_ip_spec l Hok) as (r & Hr & Hcase).
  rewrite Hip in Hcase. destruct Hcase as (b & -> & Hb).
  exists b. eexists. unfold get_self_ip.
  rewrite (bind_Ok _ _ _ (self_ip_addr s) s) by done. rewrite Hs.
  assert (Get_hw_struct_head s = Ok l (set_hwa l s)) as Hhw.
  { unfold Get_hw_struct_head. rewrite (bind_Ok _ _ _ (hwa_struct_head s) s) by done.
    rewrite Hh. unfold get_hw_addrs. rewrite Hsock.
    erewrite bind_Ok; [|erewrite bind_Ok; [|apply (ifconf_loop_all all 998); [done|lia]]];
      [|by unfold lift; rewrite Hl].
    erewrite bind_Ok; [|done]. destruct l; [done|]. done. }
  erewrite bind_Ok; [|exact Hhw].
  erewrite bind_Ok; [|by unfold lift; rewrite Hr].
  erewrite bind_Ok; [|done].
  repeat split; try done; cbn.
  - eauto.
  - by destruct l.
Qed.
End UtilsLemmas.

(** [ready s ip]: node [s] has the address [ip]. *)
Abbreviation ready s ip := (ready_hw (self_ip_addr s) (hwa_struct_head s) ip).

(** ** Properties *)

Section UtilsProperties.
Context {os : OS}.

(** C25: whatever the number of interface addresses, up to 10,080, the
    [SIOCGIFCONF] loop of [get_hw_addrs] terminates and the list it builds
    has one well-formed structure per address, in the kernel's order, flagged
    as an alias exactly when its base name is that of the address before
    it. *)
Theorem get_hw_addrs_terminates all names s :
  os_ifsock = true -> kernel_has all -> Z.of_nat (length all) <= 10080 ->
  ioctl_ok -> Forall2 ifreq_ok all names ->
  exists l, get_hw_addrs IFCONF_FUEL s = Ok l s /\ Forall hwa_ok l /\
    ip_alias <$> l = alias_flags [] names.
Proof.
  intros Hsock HK Hn Hio Hall.
  destruct (hwa_of_ifreqs_spec all names (replicate IF_NAME NUL) [] (replicate 15 NUL))
    as (l & Hl & Hok & Hal); try done; [constructor|].
  exists l. split; [|done]. unfold get_hw_addrs. rewrite Hsock.
  erewrite bind_Ok; [|apply (ifconf_loop_all all 998); [done|lia]].
  unfold lift. by rewrite Hl.
Qed.

(** The first call of [get_self_ip] in a process reads the interface
    list and returns the address of the first interface whose base name is
    eth0; both are cached, so every later call returns the same string and
    changes nothing. *)
Theorem get_self_ip_is_eth0 all names s ip l :
  self_ip_addr s = None -> hwa_struct_head s = [] ->
  os_ifsock = true -> kernel_has all -> Z.of_nat (length all) <= 10080 ->
  ioctl_ok -> Forall2 ifreq_ok all names ->
  hwa_of_ifreqs (replicate IF_NAME NUL) all = Def l -> eth0_ip l = Some ip ->
  exists b, get_self_ip s = Ok (Some b) (set_self_ip (Some b) (set_hwa l s)) /\
    cstr b = Some ip /\
    get_self_ip (set_self_ip (Some b) (set_hwa l s))
    = Ok (Some b) (set_self_ip (Some b) (set_hwa l s)).
Proof.
  intros H1 H2 H3 H4 H5 H6 H7 H8 H9.
  destruct (get_self_ip_boot all names s ip l) as (b & s' & Hg & Hb & _ & ->); [done..|].
  by exists b.
Qed.
End UtilsProperties.

(** The demonstration system has the documented behaviour. *)
Lemma demo_kernel ifs : @kernel_has (demo_os ifs) (demo_ifreq <$> ifs).
Proof. intros i len. done. Qed.

Lemma demo_ioctl_ok ifs :
  Forall (fun i => length (di_mac i) = 6%nat) ifs -> @ioctl_ok (demo_os ifs).
Proof.
  intros Hm req r u. change (demo_ioctl ifs req r = Some u -> length u = 24%nat).
  unfold demo_ioctl. destruct (list_find _ ifs) as [[k i]|] eqn:E; [|done].
  apply list_find_Some in E as (E & _ & _).
  rewrite Forall_lookup in Hm. specialize (Hm _ _ E).
  intros [= <-]. destruct req; apply length_pad.
  - cbn. rewrite length_bytes, Hm. lia.
  - cbn. lia.
Qed.

Lemma demo_ifreq_ok i :
  nonul (chars (di_name i)) -> (length (chars (di_name i)) < 16)%nat ->
  length (di_addr i) = 4%nat -> ifreq_ok (demo_ifreq i) (chars (di_name i)).
Proof.
  intros Hn Hl Ha. split; unfold demo_ifreq; cbn [ifr_name ifr_ifru].
  - apply length_pad. unfold IF_NAME. lia.
  - by apply cstr_pad.
  - apply length_pad. rewrite length_app, !length_bytes, Ha. cbn. lia.
Qed.

Lemma demo_resolves ifs k : 1 <= k <= 10 -> @resolves (demo_os ifs) (vm_ip k).
Proof.
  intros Hk. exists (bytes (vm_addr k)), (chars "vm" ++ print_int k).
  assert (Forall (fun k => length (bytes (vm_addr k)) = 4%nat /\
    (fun j => chars "vm" ++ print_int j) <$> vm_of_addr (bytes (vm_addr k)) = Some (chars "vm" ++ print_int k) /\
    forallb (fun c => negb (Ascii.eqb c NUL)) (chars "vm" ++ print_int k) = true /\
    (length (chars "vm" ++ print_int k) < INET_ADDRSTRLEN)%nat) (seqZ 1 10)) as H.
  { repeat (constructor; [split; [reflexivity|split; [by vm_compute|split; [by vm_compute|apply Nat.ltb_lt; by vm_compute]]]|]).
    constructor. }
  rewrite Forall_forall in H. destruct (H k) as (H1 & H2 & H3 & H4); [apply elem_of_seqZ; lia|].
  split_and!; try done. apply Forall_forall. intros c Hc.
  rewrite forallb_forall in H3. specialize (H3 c). rewrite <- list_elem_of_In in H3. specialize (H3 Hc).
  by destruct (Ascii.eqb_spec c NUL).
Qed.

(** The interface structures of vm [k], and its process after the first call of
    [get_self_ip]. *)
Definition demo_hwa (k : Z) : list hwa_info :=
  match @hwa_of_ifreqs (demo_os (demo_ifs k)) (replicate IF_NAME NUL) (demo_ifreq <$> demo_ifs k) with
  | Def l => l
  | Bad _ => []
  end.

Definition demo_self (k : Z) (s : node) : node :=
  set_self_ip (Some (pad INET_ADDRSTRLEN (vm_ip k))) (set_hwa (demo_hwa k) s).

Lemma demo_hwa_ok (l : list hwa_info) :
  forallb (fun h => match cstr (if_name h) with Some _ => true | None => false end &&
                    (length (if_name h) =? IF_NAME)%nat && (length (if_haddr h) =? IF_HADDR)%nat &&
                    (length (ip_addr h) =? 16)%nat) l = true -> Forall hwa_ok l.
Proof.
  intros H. apply Forall_forall. intros h Hh. rewrite forallb_forall in H.
  specialize (H h). rewrite <- list_elem_of_In in H. specialize (H Hh).
  apply andb_true_iff in H as [[[H1 H2]%andb_true_iff H3]%andb_true_iff H4].
  split; try by apply Nat.eqb_eq. destruct (cstr (if_name h)) as [n|]; [by exists n|done].
Qed.

Lemma demo_ready s : ready (demo_self 2 s) (vm_ip 2).
Proof.
  split.
  - eexists. split; [done|]. by vm_compute.
  - by vm_compute.
  - apply demo_hwa_ok. by vm_compute.
Qed.

Lemma get_hw_addrs_terminates_witness :
  exists l, @get_hw_addrs (demo_os (demo_ifs 1)) IFCONF_FUEL node_init = Ok l node_init /\
    Forall hwa_ok l /\
    ip_alias <$> l = alias_flags [] (chars ∘ di_name <$> demo_ifs 1).
Proof.
  apply (@get_hw_addrs_terminates (demo_os (demo_ifs 1)) (demo_ifreq <$> demo_ifs 1)).
  - reflexivity.
  - apply demo_kernel.
  - cbn. lia.
  - apply demo_ioctl_ok. repeat constructor.
  - repeat (constructor; [apply demo_ifreq_ok; [by repeat constructor | cbn; lia | done]|]).
    constructor.
Defined.

Lemma get_self_ip_is_eth0_witness :
  exists b, @get_self_ip (demo_os (demo_ifs 2)) node_init
            = Ok (Some b) (set_self_ip (Some b) (set_hwa (demo_hwa 2) node_init)) /\
    cstr b = Some (vm_ip 2) /\
    @get_self_ip (demo_os (demo_ifs 2)) (set_self_ip (Some b) (set_hwa (demo_hwa 2) node_init))
    = Ok (Some b) (set_self_ip (Some b) (set_hwa (demo_hwa 2) node_init)).
Proof.
  apply (@get_self_ip_is_eth0 (demo_os (demo_ifs 2)) (demo_ifreq <$> demo_ifs 2)
           (chars ∘ di_name <$> demo_ifs 2) node_init (vm_ip 2) (demo_hwa 2)).
  - reflexivity.
  - reflexivity.
  - reflexivity.
  - apply demo_kernel.
  - cbn. lia.
  - apply demo_ioctl_ok. repeat constructor.
  - repeat (constructor; [apply demo_ifreq_ok; [by repeat constructor | cbn; lia | done]|]).
    constructor.
  - by vm_compute.
  - by vm_compute.
Defined.
