(* ===== verification/Ifi.v ===== *)
(** * Interfaces, for the programs of the book

    Stevens/unpv13e/lib/get_ifi_info.c and three programs that use it:
    ioctl/prifinfo.c, which prints what it returns, and advio/udpserv03.c and
    udpserv04.c, which bind a socket to each address.  [get_hw_addrs] of the
    daemon (Utils.v) was written after it, and shares [strchr] and [strncmp] with
    it.

    The configuration is the one of config.h in the repository: [IPV6] and
    [HAVE_STRUCT_IFREQ_IFR_MTU] are defined, [HAVE_SOCKADDR_SA_LEN] and
    [HAVE_SOCKADDR_DL_STRUCT] are not, and the [SIOCGIF...] requests exist.  The
    answers of the kernel are arguments (what [lastname] holds behind its first byte is
    never looked at); so is [garbage], what the allocated buffer
    holds where the kernel has written nothing, because the function reads there.
    The links of the list and its release are those of Storage.v. *)

From stdpp Require Import gmap.
From S2P Require Import Prelude CLib Storage Inet Inet6 Node Utils Sockaddr Gai Cksum.

Definition IFNAMSIZ : nat := 16.
Definition IFI_NAME : nat := 16.
Definition IFI_HADDR : nat := 8.
Definition IFI_ALIAS : Z := 1.
Definition IFF_UP : Z := 1.
Definition IFF_BROADCAST : Z := 2.
Definition IFF_LOOPBACK : Z := 8.
Definition IFF_POINTOPOINT : Z := 16.
Definition IFF_MULTICAST : Z := 4096.

(** [struct ifi_info] without its link. *)
Record ifi_info := Ifi {
  ifi_name : buf; ifi_index : Z; ifi_mtu : Z; ifi_haddr : buf; ifi_hlen : Z;
  ifi_flags : Z; ifi_myflags : Z;
  ifi_addr : option buf; ifi_brdaddr : option buf; ifi_dstaddr : option buf
}.

Inductive if_request := SIOCGIFFLAGS | SIOCGIFMTU | SIOCGIFBRDADDR | SIOCGIFDSTADDR.

(** Conversion to [short]. *)
Definition to_short (z : Z) : Z := (z + 32768) mod 65536 - 32768.
(** [ifr_flags] and [ifr_mtu] in the union. *)
Definition ifr_flags (u : buf) : chk Z := x ← u16_at u 0; mret (to_short x).
Definition ifr_mtu (u : buf) : chk Z :=
  if (4 <=? length u)%nat then mret (wrap_int (of_le32 (take 4 u))) else Bad BadPointer.

(** [n] bytes at an offset, copied. *)
Definition copy_at (m : buf) (k n : nat) : chk buf :=
  if (k + n <=? length m)%nat then mret (take n (drop k m)) else Bad BadPointer.

(** The length the function takes the address to have. *)
Definition addr_len (family : Z) : nat := if family =? AF_INET6 then 28%nat else 16%nat.

Section Ifi.
(** [ifconf i len]: what the [i]-th [SIOCGIFCONF] answers for a buffer of [len]
    bytes, an error number or the requests.  [ioctl]: another request on a [struct
    ifreq], [None] if it fails, or its new union. *)
Variables (ifconf : nat -> Z -> Z + list ifreq) (ioctl : if_request -> ifreq -> option buf).
Variable garbage : nat -> ascii.

(** The [SIOCGIFCONF] loop: the requests and the size of the buffer; [None]: "ioctl
    error". *)
Fixpoint conf_loop (fuel i : nat) (len lastlen : Z) : chk (option (list ifreq * Z)) :=
  match fuel with
  | O => Bad EndlessLoop
  | S fuel' =>
      match ifconf i len with
      | inl errno =>
          if negb (errno =? EINVAL) || negb (lastlen =? 0) then mret None
          else conf_loop fuel' (S i) (len + 10 * SIZEOF_IFREQ) lastlen
      | inr reqs =>
          let ifc_len := SIZEOF_IFREQ * Z.of_nat (length reqs) in
          if ifc_len =? lastlen then mret (Some (reqs, len))
          else conf_loop fuel' (S i) (len + 10 * SIZEOF_IFREQ) ifc_len
      end
  end.

(** The buffer: the answer, and what was there behind it. *)
Definition ifreq_bytes (r : ifreq) : buf := ifr_name r ++ ifr_ifru r.
Definition answer (reqs : list ifreq) : buf := concat (ifreq_bytes <$> reqs).
Definition buffer (reqs : list ifreq) (len : Z) : buf :=
  let a := answer reqs in a ++ (garbage <$> seq (length a) (Z.to_nat len - length a)).

(** An address from the [ifreq] behind [ifrcopy], after one more [ioctl]: the
    new union, and its first [n] bytes if the flag is set. *)
Definition flag_addr (flags bit : Z) (req : if_request) (nm u : buf) (n : nat) : chk (option (option buf * buf)) :=
  if Z.land flags bit =? 0 then mret (Some (None, u))
  else match ioctl req (mkIfreq nm u) with
       | None => mret None
       | Some u' => a ← copy_at u' 0 n; mret (Some (Some a, u'))
       end.

(** The addresses; [m] is the memory from the request on. *)
Definition fill_addrs (family flags : Z) (m nm u : buf) : chk (option (option buf * option buf * option buf)) :=
  if family =? AF_INET then
    a ← copy_at m 16 16;
    r ← flag_addr flags IFF_BROADCAST SIOCGIFBRDADDR nm u 16;
    match r with
    | None => mret None
    | Some (b, u1) =>
        r2 ← flag_addr flags IFF_POINTOPOINT SIOCGIFDSTADDR nm u1 16;
        mret (match r2 with None => None | Some (d, _) => Some (Some a, b, d) end)
    end
  else if family =? AF_INET6 then
    a ← copy_at m 16 28;
    r2 ← flag_addr flags IFF_POINTOPOINT SIOCGIFDSTADDR nm u 28;
    mret (match r2 with None => None | Some (d, _) => Some (Some a, None, d) end)
  else mret (Some (None, None, None)).

(** A new structure, once the name is cut and [flags] has [IFF_UP]. *)
Definition fill_ifi (family flags myflags : Z) (m nm u : buf) : chk (option ifi_info) :=
  match ioctl SIOCGIFMTU (mkIfreq nm u) with
  | None => mret None
  | Some u1 =>
      mtu ← ifr_mtu u1;
      r ← fill_addrs family flags m nm u1;
      mret (match r with
            | None => None
            | Some (a, b, d) =>
                Some (Ifi (take (IFI_NAME - 1) nm ++ [NUL]) 0 (to_short mtu) (replicate IFI_HADDR NUL) 0
                          (to_short flags) myflags a b d)
            end)
  end.

(** One request of the family asked for, at the start of [m]: [m] and [lastname]
    afterwards, and the new structure, if there is one.  The outer [None]: an [ioctl]
    fails, and [err_sys]. *)
Definition one_request (family : Z) (doaliases : bool) (lastname m : buf) : chk (option (buf * buf * option ifi_info)) :=
  m' ← cut_colon m;
  nm ← copy_at m' 0 IFNAMSIZ;
  same ← strncmp_eq lastname nm IFNAMSIZ;
  if (same : bool) && negb doaliases then mret (Some (m', lastname, None))
  else
    let myflags := if same : bool then IFI_ALIAS else 0 in
    u ← copy_at m' 16 24;
    match ioctl SIOCGIFFLAGS (mkIfreq nm u) with
    | None => mret None
    | Some u1 =>
        flags ← ifr_flags u1;
        if Z.land flags IFF_UP =? 0 then mret (Some (m', nm, None))
        else r ← fill_ifi family flags myflags m' nm u1;
             mret (match r with None => None | Some i => Some (m', nm, Some i) end)
    end.

(** The loop over the buffer: [m] is the memory from [ptr] on, [left] is [buf +
    ifc_len - ptr]. *)
Fixpoint walk_requests (fuel : nat) (family : Z) (doaliases : bool) (lastname m : buf) (left : Z)
    : chk (option (list ifi_info)) :=
  match fuel with
  | O => Bad EndlessLoop
  | S fuel' =>
      if left <=? 0 then mret (Some []) else
      sa_family ← u16_at m 16;
      let step := (IFNAMSIZ + addr_len sa_family)%nat in
      if negb (sa_family =? family)
      then walk_requests fuel' family doaliases lastname (drop step m) (left - Z.of_nat step)
      else
        r ← one_request family doaliases lastname m;
        match r with
        | None => mret None
        | Some (m', lastname', oi) =>
            rest ← walk_requests fuel' family doaliases lastname' (drop step m') (left - Z.of_nat step);
            mret (match rest with
                  | None => None
                  | Some l => Some (match oi with None => l | Some i => i :: l end)
                  end)
        end
  end.

Definition get_ifi_info (family : Z) (doaliases : bool) : chk (option (list ifi_info)) :=
  c ← conf_loop IFCONF_FUEL 0 (100 * SIZEOF_IFREQ) 0;
  match c with
  | None => mret None
  | Some (reqs, len) =>
      let ifc_len := SIZEOF_IFREQ * Z.of_nat (length reqs) in
      walk_requests (S (Z.to_nat ifc_len)) family doaliases (replicate IFNAMSIZ NUL) (buffer reqs len) ifc_len
  end.

(** [Get_ifi_info]: no interface is an error, too. *)
Definition Get_ifi_info (family : Z) (doaliases : bool) : chk (option (list ifi_info)) :=
  r ← get_ifi_info family doaliases;
  mret (match r with Some (i :: l) => Some (i :: l) | _ => None end).

(** ** prifinfo *)

Definition nl : buf := [byte_of_Z 10].

(** [Sock_ntop_host] of a [sockaddr_in]; what the static array held before is
    behind the NUL. *)
Definition host_text (sa : buf) : chk (option buf) :=
  p ← u16_at sa 2; a ← copy_at sa 4 4;
  r ← sock_ntop_host (replicate STRSZ NUL) (SIn p a) 16;
  match r with None => mret None | Some s => t ← need_str s; mret (Some t) end.

(** One of the three lines with an address. *)
Definition addr_line (label : string) (o : option buf) : chk (option buf) :=
  match o with
  | None => mret (Some [])
  | Some sa =>
      t ← host_text sa;
      mret (match t with None => None | Some t => Some (chars "  " ++ chars label ++ chars " addr: " ++ t ++ nl) end)
  end.

(** The hardware address: [i] bytes left of [hlen]. *)
Fixpoint haddr_bytes (i hlen : nat) (ptr : buf) : chk buf :=
  match i with
  | O => mret []
  | S i' =>
      x ← byte_at ptr 0;
      rest ← haddr_bytes i' hlen (tl ptr);
      mret ((if (i =? hlen)%nat then chars "  " else chars ":") ++ print_hex x ++ rest)
  end.

Definition flag_names : list (Z * string) :=
  [(IFF_UP, "UP "%string); (IFF_BROADCAST, "BCAST "%string); (IFF_MULTICAST, "MCAST "%string);
   (IFF_LOOPBACK, "LOOP "%string); (IFF_POINTOPOINT, "P2P "%string)].

Definition print_ifi (i : ifi_info) : chk (option buf) :=
  nm ← need_str (ifi_name i);
  let h := Z.to_nat (ifi_hlen i) in
  hw ← (if (0 <? h)%nat then t ← haddr_bytes h h (ifi_haddr i); mret (t ++ nl) else mret []);
  a ← addr_line "IP" (ifi_addr i);
  b ← addr_line "broadcast" (ifi_brdaddr i);
  d ← addr_line "destination" (ifi_dstaddr i);
  mret (match a, b, d with
        | Some a, Some b, Some d =>
            Some (nm ++ chars ": " ++
                  (if ifi_index i =? 0 then [] else chars "(" ++ print_int (ifi_index i) ++ chars ") ") ++
                  chars "<" ++
                  concat ((fun '(bit, s) => if Z.land (ifi_flags i) bit =? 0 then [] else chars s) <$> flag_names) ++
                  chars ">" ++ nl ++ hw ++
                  (if ifi_mtu i =? 0 then [] else chars "  MTU: " ++ print_int (ifi_mtu i) ++ nl) ++ a ++ b ++ d)
        | _, _, _ => None
        end).

Fixpoint print_ifis (l : list ifi_info) : chk (option buf) :=
  match l with
  | [] => mret (Some [])
  | i :: l' =>
      t ← print_ifi i;
      match t with
      | None => mret None
      | Some t => rest ← print_ifis l'; mret (match rest with None => None | Some r => Some (t ++ r) end)
      end
  end.

(** [main]: what is written; [None]: [err_quit] or [err_sys].  [IPv6] is defined
    nowhere (the macro of config.h is [IPV6]), so that "inet6" is refused. *)
Definition prifinfo (args : list buf) : chk (option buf) :=
  match args with
  | [fam; aliases] =>
      inet4 ← streq fam (lit "inet4");
      if inet4 : bool then
        z ← atoi aliases;
        r ← Get_ifi_info AF_INET (negb (z =? 0));
        match r with None => mret None | Some l => print_ifis l end
      else mret None
  | _ => mret None
  end.

(** ** udpserv03 and udpserv04 *)

(** A child: the address its socket is bound to, and the one it writes as the
    destination of each datagram. *)
Record child := Child { bound : buf; reported : buf }.

(** [mydg_echo], for the datagrams that arrive (address and data): what is sent, and
    to whom. *)
Definition mydg_echo (datagrams : list (buf * buf)) : list (buf * buf) :=
  (fun '(cli, d) => (cli, take MAXLINE d)) <$> datagrams.

Definition EADDRINUSE : Z := 98.
(** [htons(SERV_PORT)] in memory. *)
Definition serv_port : buf := htons_bytes 9877.

(** [bind_errno cs a]: 0, or the error of [bind] for the address [a] when the sockets
    of [cs] are bound. *)
Variable bind_errno : list child -> buf -> Z.

(** What the loop has done: [err_sys], or it has come to its end; [last] is the
    pointer [sa] of udpserv03. *)
Inductive loop_end := Exited (cs : list child) | Reached (cs : list child) (last : option buf).

(** [Bind] and [Fork]. *)
Definition bind_fork (a r : buf) (cs : list child) : option (list child) :=
  if bind_errno cs a =? 0 then Some (cs ++ [Child a r]) else None.

(** The loop over the interfaces, the same in the two programs up to [prepare], which
    sets the port (and, in udpserv03, the family). *)
Fixpoint bind_each (prepare : buf -> chk buf) (l : list ifi_info) (last : option buf) (cs : list child) : chk loop_end :=
  match l with
  | [] => mret (Reached cs last)
  | i :: l' =>
      match ifi_addr i with
      | None => Bad BadPointer
      | Some a =>
          a ← prepare a;
          match bind_fork a a cs with
          | None => mret (Exited cs)
          | Some cs =>
              if Z.land (ifi_flags i) IFF_BROADCAST =? 0 then bind_each prepare l' (Some a) cs
              else
                match ifi_brdaddr i with
                | None => Bad BadPointer
                | Some b =>
                    b ← prepare b;
                    match bind_fork b b cs with
                    | Some cs => bind_each prepare l' (Some b) cs
                    | None => if bind_errno cs b =? EADDRINUSE then bind_each prepare l' (Some b) cs
                              else mret (Exited cs)
                    end
                end
          end
      end
  end.

(** [sin_family] and [sin_port] set. *)
Definition prepare_in (a : buf) : chk buf :=
  if (16 <=? length a)%nat then mret (le16 AF_INET ++ serv_port ++ drop 4 a) else Bad BadPointer.
(** [bzero], and the three members set: the wildcard address. *)
Definition wildaddr : buf := le16 AF_INET ++ serv_port ++ replicate 12 NUL.

(** [main] of udpserv03: the children; [None]: no interface. *)
Definition udpserv03 : chk (option (list child)) :=
  r ← Get_ifi_info AF_INET true;
  match r with
  | None => mret None
  | Some l =>
      e ← bind_each prepare_in l None [];
      match e with
      | Exited cs => mret (Some cs)
      | Reached cs None => Bad Uninitialised
      | Reached cs (Some sa) => mret (Some (default cs (bind_fork wildaddr sa cs)))
      end
  end.

(** [sock_set_port] with the port of [sa], and [sock_set_wild], on the bytes of an
    address of a family with a port. *)
Definition prepare_port (sa a : buf) : chk buf :=
  if (16 <=? length a)%nat then mret (take 2 a ++ take 2 (drop 2 sa) ++ drop 4 a) else Bad BadPointer.
Definition set_wild (family : Z) (a : buf) : buf :=
  if family =? AF_INET then take 4 a ++ replicate 4 NUL ++ drop 8 a
  else if family =? AF_INET6 then take 8 a ++ replicate 16 NUL ++ drop 24 a
  else a.

(** [main] of udpserv04, for the address [sa] that [Udp_client] returns. *)
Definition udpserv04 (sa : buf) : chk (option (list child)) :=
  family ← u16_at sa 0;
  r ← Get_ifi_info family true;
  match r with
  | None => mret None
  | Some l =>
      e ← bind_each (prepare_port sa) l None [];
      match e with
      | Exited cs => mret (Some cs)
      | Reached cs _ => let w := set_wild family sa in mret (Some (default cs (bind_fork w w cs)))
      end
  end.
End Ifi.

(** ** The storage of the list

    A structure owns up to three addresses. *)
Definition ifi_node (i : ifi_info) : ifi_info * list (option buf) := (i, [ifi_addr i; ifi_brdaddr i; ifi_dstaddr i]).
Definition link_ifis (l : list ifi_info) (m : gmap place (block ifi_info buf)) : chk (building ifi_info buf) :=
  append_all (ifi_node <$> l) (Building m None None).
Definition free_ifi_info (fuel : nat) (ifihead : option place) (m : gmap place (block ifi_info buf))
    : chk (gmap place (block ifi_info buf)) :=
  free_chain fuel ifihead m.

(** ** The reference *)

(** Every fourth element, from the first on. *)
Fixpoint every_fourth {A} (l : list A) : list A :=
  match l with
  | [] => []
  | a :: l1 => a :: match l1 with _ :: _ :: _ :: l' => every_fourth l' | _ => [] end
  end.

(** The structures for a list of requests that are looked at one by one, each in
    storage of its own. *)
Fixpoint ifi_of_requests (ioctl : if_request -> ifreq -> option buf) (family : Z) (doaliases : bool) (lastname : buf)
    (reqs : list ifreq) : chk (option (list ifi_info)) :=
  match reqs with
  | [] => mret (Some [])
  | q :: reqs' =>
      r ← one_request ioctl family doaliases lastname (ifreq_bytes q);
      match r with
      | None => mret None
      | Some (_, lastname', oi) =>
          rest ← ifi_of_requests ioctl family doaliases lastname' reqs';
          mret (match rest with
                | None => None
                | Some l => Some (match oi with None => l | Some i => i :: l end)
                end)
      end
  end.

(** Two bytes that are not one of the two families. *)
Definition quiet (b : buf) (k : nat) : Prop :=
  exists f, u16_at b k = Def f /\ f <> AF_INET /\ f <> AF_INET6.

(** A request as Linux stores it: 16 bytes of name and 24 of union, with an internet
    address; the padding of both and the characters of the name are not mistaken for
    a family. *)
Record linux_ifreq (q : ifreq) : Prop := {
  lq_name : length (ifr_name q) = 16%nat;
  lq_string : is_Some (cstr (ifr_name q));
  lq_union : length (ifr_ifru q) = 24%nat;
  lq_family : u16_at (ifr_ifru q) 0 = Def AF_INET;
  lq_name0 : quiet (ifr_name q) 0; lq_name8 : quiet (ifr_name q) 8;
  lq_union8 : quiet (ifr_ifru q) 8; lq_union16 : quiet (ifr_ifru q) 16
}.

(** * Lemmas *)

(** ** Reading *)

Lemma byte_at_app_l a b k x : byte_at a k = Def x -> byte_at (a ++ b) k = Def x.
Proof.
  unfold byte_at. destruct (nth_error a k) eqn:E; [|done]. intros [= <-].
  rewrite nth_error_app1 by (apply nth_error_Some; by rewrite E). by rewrite E.
Qed.
Lemma u16_at_app_l a b k f : u16_at a k = Def f -> u16_at (a ++ b) k = Def f.
Proof.
  unfold u16_at. intros E. destruct (byte_at a k) as [x|] eqn:E1; [|done].
  rewrite (byte_at_app_l _ _ _ _ E1), chk_bind_Def in *.
  destruct (byte_at a (S k)) as [y|] eqn:E2; [|done].
  by rewrite (byte_at_app_l _ _ _ _ E2), chk_bind_Def in *.
Qed.
Lemma u16_at_app_r a b k n : n = length a -> u16_at (a ++ b) (n + k) = u16_at b k.
Proof.
  intros ->. unfold u16_at, byte_at. rewrite <- Nat.add_succ_r.
  by rewrite !nth_error_app2, !Nat.add_sub' by lia.
Qed.
Lemma quiet_app_l a b k : quiet a k -> quiet (a ++ b) k.
Proof. intros (f & E & ?). exists f. split; [by apply u16_at_app_l|done]. Qed.
Lemma quiet_app_r a b k n : n = length a -> quiet b k -> quiet (a ++ b) (n + k).
Proof. intros -> Hq. unfold quiet. by rewrite u16_at_app_r. Qed.

Lemma copy_at_app a b c n m : n = length a -> m = length b -> copy_at (a ++ b ++ c) n m = Def b.
Proof.
  intros -> ->. unfold copy_at. rewrite (proj2 (Nat.leb_le _ _)) by (rewrite !length_app; lia).
  by rewrite drop_app_length, take_app_length.
Qed.
Lemma copy_at_take a b c n m : n = length a -> (m <= length b)%nat -> copy_at (a ++ b ++ c) n m = Def (take m b).
Proof.
  intros -> Hm. unfold copy_at. rewrite (proj2 (Nat.leb_le _ _)) by (rewrite !length_app; lia).
  by rewrite drop_app_length, take_app_le.
Qed.

Lemma cut_colon_app a b a' : cut_colon a = Def a' -> cut_colon (a ++ b) = Def (a' ++ b).
Proof.
  revert a'. induction a as [|c a IH]; intros a'; [done|]. cbn [cut_colon app].
  destruct (Ascii.eqb c NUL); [by intros [= <-]|]. destruct (Ascii.eqb c _); [by intros [= <-]|].
  destruct (cut_colon a) as [r|]; [|done]. intros [= <-]. by rewrite (IH r).
Qed.
Lemma cut_colon_string a : is_Some (cstr a) -> exists a', cut_colon a = Def a' /\ length a' = length a.
Proof.
  intros [s Hs]. apply cstr_Some in Hs as [Hn [r ->]].
  destruct (cut_colon_spec s r Hn) as (r' & -> & Hl). eauto.
Qed.

(** ** The walk *)

Section Walk.
Context (ioctl : if_request -> ifreq -> option buf) (doaliases : bool).
Abbreviation walk := (walk_requests ioctl).

(** Of an internet address, no more than the request itself is looked at, and only
    the name is changed. *)
Lemma one_request_app last nm nm' u rest :
  length nm = 16%nat -> cut_colon nm = Def nm' -> length nm' = 16%nat -> length u = 24%nat ->
  one_request ioctl AF_INET doaliases last (nm ++ u ++ rest) =
  (r ← one_request ioctl AF_INET doaliases last (nm ++ u);
   mret (match r with None => None | Some (_, l, oi) => Some (nm' ++ u ++ rest, l, oi) end)).
Proof.
  intros Hn Hc Hn' Hu. unfold one_request. rewrite !(cut_colon_app _ _ _ Hc), !chk_bind_Def.
  pose proof (fun c => copy_at_app [] nm' c 0 16 eq_refl (eq_sym Hn')) as E. cbn [app] in E.
  rewrite !E, !chk_bind_Def. clear E.
  destruct (strncmp_eq _ _ _) as [same|]; [|done]. rewrite !chk_bind_Def.
  destruct (same && _); [done|].
  rewrite (copy_at_app nm' u rest), chk_bind_Def by done.
  pose proof (copy_at_app nm' u [] 16 24) as E. rewrite app_nil_r in E. rewrite E, chk_bind_Def by done. clear E.
  destruct (ioctl SIOCGIFFLAGS _) as [u1|]; [|done].
  destruct (ifr_flags u1) as [flags|]; [|done]. rewrite !chk_bind_Def.
  destruct (_ =? 0); [done|].
  assert (fill_addrs ioctl AF_INET flags (nm' ++ u ++ rest) = fill_addrs ioctl AF_INET flags (nm' ++ u)) as E.
  { unfold fill_addrs. cbn [Z.eqb AF_INET Pos.eqb].
    rewrite (copy_at_take nm' u rest) by lia.
    pose proof (copy_at_take nm' u [] 16 16) as E. rewrite app_nil_r in E. by rewrite E by lia. }
  unfold fill_ifi. rewrite E. destruct (ioctl SIOCGIFMTU _) as [u2|]; [|done].
  destruct (ifr_mtu u2) as [mtu|]; [|done]. rewrite !chk_bind_Def.
  destruct (fill_addrs _ _ _ _ _ _) as [[[[a b] d]|]|]; done.
Qed.

(** A step over 32 bytes that are not taken for an address. *)
Lemma walk_skip fuel last m left :
  quiet m 16 -> 0 < left ->
  walk (S fuel) AF_INET doaliases last m left = walk fuel AF_INET doaliases last (drop 32 m) (left - 32).
Proof.
  intros (f & E & N1 & N2) Hl. cbn [walk_requests]. rewrite (proj2 (Z.leb_gt _ _)), E, chk_bind_Def by done.
  rewrite (proj2 (Z.eqb_neq _ _)) by done. cbn [negb]. unfold addr_len.
  by rewrite (proj2 (Z.eqb_neq _ _)) by done.
Qed.

Lemma walk_end fuel last m left : left <= 0 -> walk (S fuel) AF_INET doaliases last m left = Def (Some []).
Proof. intros Hl. cbn [walk_requests]. by rewrite (proj2 (Z.leb_le _ _)). Qed.

(** A request of the family; [k] is what is done with the rest. *)
Definition with_one (last : buf) (q : ifreq) (k : buf -> chk (option (list ifi_info))) : chk (option (list ifi_info)) :=
  r ← one_request ioctl AF_INET doaliases last (ifreq_bytes q);
  match r with
  | None => mret None
  | Some (_, last', oi) =>
      rest ← k last';
      mret (match rest with
            | None => None
            | Some l => Some (match oi with None => l | Some i => i :: l end)
            end)
  end.

Lemma with_one_ext last q k k' : (forall l, k l = k' l) -> with_one last q k = with_one last q k'.
Proof.
  intros E. unfold with_one. destruct (one_request _ _ _ _ _) as [[[[m l] oi]|]|]; [|done..].
  by rewrite !chk_bind_Def, E.
Qed.

Lemma walk_hit fuel last q rest left :
  linux_ifreq q -> 0 < left ->
  walk (S fuel) AF_INET doaliases last (ifreq_bytes q ++ rest) left =
  with_one last q (fun last' => walk fuel AF_INET doaliases last' (drop 16 (ifr_ifru q) ++ rest) (left - 32)).
Proof.
  intros [Hn Hs Hu Hf _ _ _ _] Hl. destruct (cut_colon_string _ Hs) as (nm' & Hc & Hn').
  unfold ifreq_bytes, with_one. rewrite <- app_assoc. cbn [walk_requests].
  rewrite (proj2 (Z.leb_gt _ _)) by done.
  rewrite (u16_at_app_r (ifr_name q) _ 0 16), (u16_at_app_l _ _ _ _ Hf), chk_bind_Def by done.
  rewrite Z.eqb_refl. cbn [negb].
  rewrite (one_request_app _ _ nm') by congruence. fold (ifreq_bytes q).
  change (ifr_name q ++ ifr_ifru q) with (ifreq_bytes q).
  destruct (one_request _ _ _ _ _) as [[[[m l] oi]|]|]; [|done..]. rewrite !chk_bind_Def.
  change (IFNAMSIZ + addr_len AF_INET)%nat with 32%nat.
  rewrite drop_app, (drop_ge nm') by lia. cbn [app]. rewrite drop_app.
  replace (32 - length nm')%nat with 16%nat by lia. rewrite Hu. done.
Qed.

Lemma ifi_of_one last q reqs :
  ifi_of_requests ioctl AF_INET doaliases last (q :: reqs) =
  with_one last q (fun l => ifi_of_requests ioctl AF_INET doaliases l reqs).
Proof. done. Qed.

(** The four steps of 32 bytes between a request and the fourth one after it. *)
Lemma skip_first fuel last a q rest left :
  linux_ifreq q -> length a = 8%nat -> 0 < left ->
  walk (S fuel) AF_INET doaliases last (a ++ ifreq_bytes q ++ rest) left =
  walk fuel AF_INET doaliases last (drop 8 (ifr_ifru q) ++ rest) (left - 32).
Proof.
  intros [Hn _ Hu _ _ H8 _ _] Ha Hl. unfold ifreq_bytes. rewrite <- app_assoc.
  rewrite walk_skip; [|apply (quiet_app_r a _ 8 8); [done|]; by apply quiet_app_l|done]. f_equal.
  rewrite !drop_app, (drop_ge a), (drop_ge (ifr_name q)) by lia. rewrite Ha, Hn, Hu. done.
Qed.
Lemma skip_second fuel last a q rest left :
  linux_ifreq q -> length a = 16%nat -> 0 < left ->
  walk (S fuel) AF_INET doaliases last (a ++ ifreq_bytes q ++ rest) left =
  walk fuel AF_INET doaliases last (ifr_ifru q ++ rest) (left - 32).
Proof.
  intros [Hn _ _ _ H0 _ _ _] Ha Hl. unfold ifreq_bytes. rewrite <- app_assoc.
  rewrite walk_skip; [|apply (quiet_app_r a _ 0 16); [done|]; by apply quiet_app_l|done]. f_equal.
  rewrite !drop_app, (drop_ge a), (drop_ge (ifr_name q)) by lia. rewrite Ha, Hn. done.
Qed.
Lemma skip_third fuel last q q' rest left :
  linux_ifreq q -> linux_ifreq q' -> 0 < left ->
  walk (S fuel) AF_INET doaliases last (ifr_ifru q ++ ifreq_bytes q' ++ rest) left =
  walk fuel AF_INET doaliases last (drop 8 (ifr_name q') ++ ifr_ifru q' ++ rest) (left - 32).
Proof.
  intros [_ _ Hu _ _ _ _ H16] [Hn _ _ _ _ _ _ _] Hl. unfold ifreq_bytes. rewrite <- app_assoc.
  rewrite walk_skip; [|by apply quiet_app_l|done]. f_equal.
  rewrite !drop_app, (drop_ge (ifr_ifru q)) by lia. rewrite Hu, Hn. done.
Qed.
Lemma skip_fourth fuel last q rest left :
  linux_ifreq q -> 0 < left ->
  walk (S fuel) AF_INET doaliases last (drop 8 (ifr_name q) ++ ifr_ifru q ++ rest) left =
  walk fuel AF_INET doaliases last rest (left - 32).
Proof.
  intros [Hn _ Hu _ _ _ H8 _] Hl. assert (length (drop 8 (ifr_name q)) = 8%nat) as Ha by (rewrite length_drop, Hn; done).
  rewrite walk_skip; [|apply (quiet_app_r _ _ 8 8); [done|]; by apply quiet_app_l|done]. f_equal.
  rewrite !drop_app, (drop_ge (drop 8 _)), (drop_ge (ifr_ifru q)) by lia. by rewrite Ha, Hu.
Qed.

(** The walk over a buffer from Linux: every fourth request is processed, the others
    are stepped over. *)
Lemma walk_fourth (g : buf) (reqs : list ifreq) : quiet g 0 -> quiet g 8 -> Forall linux_ifreq reqs ->
  forall fuel last, (2 * length reqs < fuel)%nat ->
  walk fuel AF_INET doaliases last (answer reqs ++ g) (40 * Z.of_nat (length reqs)) =
  ifi_of_requests ioctl AF_INET doaliases last (every_fourth reqs).
Proof.
  intros G0 G8. induction reqs as [reqs IH] using (induction_ltof1 _ (@length _)); unfold ltof in IH.
  assert (forall q, linux_ifreq q -> length (drop 16 (ifr_ifru q)) = 8%nat) as L8
    by (intros q [_ _ Hu _ _ _ _ _]; by rewrite length_drop, Hu).
  assert (forall q, linux_ifreq q -> length (drop 8 (ifr_ifru q)) = 16%nat) as L16
    by (intros q [_ _ Hu _ _ _ _ _]; by rewrite length_drop, Hu).
  destruct reqs as [|q0 reqs].
  { intros _ [|fuel] last Hf; [lia|]. by apply walk_end. }
  intros [H0 H]%Forall_cons_1 [|fuel] last Hf; [lia|]. cbn [length] in Hf.
  unfold answer. cbn [fmap list_fmap concat every_fourth]. rewrite ifi_of_one, <- app_assoc, walk_hit by (done || cbn [length]; lia).
  apply with_one_ext. clear last. intros last. specialize (L8 q0 H0).
  destruct reqs as [|q1 reqs]; cbn [fmap list_fmap concat app length] in *.
  { destruct fuel as [|[|fuel]]; [lia..|].
    rewrite walk_skip by (done || by apply (quiet_app_r _ _ 8 8)). by apply walk_end. }
  apply Forall_cons_1 in H as [H1 H]. specialize (L16 q1 H1).
  destruct fuel as [|fuel]; [lia|]. rewrite <- app_assoc, skip_first by (done || lia).
  destruct reqs as [|q2 reqs]; cbn [fmap list_fmap concat app length] in *.
  { destruct fuel as [|[|fuel]]; [lia..|].
    rewrite walk_skip by (done || by apply (quiet_app_r _ _ 0 16)). by apply walk_end. }
  apply Forall_cons_1 in H as [H2 H].
  destruct fuel as [|fuel]; [lia|]. rewrite <- app_assoc, skip_second by (done || lia).
  destruct reqs as [|q3 reqs]; cbn [fmap list_fmap concat app length] in *.
  { destruct fuel as [|[|fuel]]; [lia..|].
    rewrite walk_skip by (done || apply quiet_app_l; by destruct H2). by apply walk_end. }
  apply Forall_cons_1 in H as [H3 H].
  destruct fuel as [|fuel]; [lia|]. rewrite <- app_assoc, skip_third by (done || lia).
  destruct fuel as [|fuel]; [lia|]. rewrite skip_fourth by (done || lia).
  rewrite <- (IH reqs) with (fuel := fuel) by (done || cbn [length]; lia). fold (answer reqs). f_equal. lia.
Qed.
End Walk.

(** ** The buffer *)

Section Conf.
Context (ifconf : nat -> Z -> Z + list ifreq) (reqs : list ifreq).

(** The documented behaviour of [SIOCGIFCONF] on Linux: as many requests as fit. *)
Definition kernel_lists : Prop := forall i len, ifconf i len = inr (take (Z.to_nat (len / SIZEOF_IFREQ)) reqs).

Lemma conf_step fuel i k lastlen :
  kernel_lists ->
  conf_loop ifconf (S fuel) i (SIZEOF_IFREQ * (100 + 10 * Z.of_nat k)) lastlen =
  (let m := (100 + 10 * k)%nat in
   let ifc_len := SIZEOF_IFREQ * Z.of_nat (m `min` length reqs) in
   if ifc_len =? lastlen then Def (Some (take m reqs, SIZEOF_IFREQ * (100 + 10 * Z.of_nat k)))
   else conf_loop ifconf fuel (S i) (SIZEOF_IFREQ * (100 + 10 * Z.of_nat (S k))) ifc_len).
Proof.
  intros HK. cbn [conf_loop]. rewrite HK.
  replace (SIZEOF_IFREQ * (100 + 10 * Z.of_nat k) / SIZEOF_IFREQ) with (100 + 10 * Z.of_nat k)
    by (by rewrite (Z.mul_comm SIZEOF_IFREQ), Z.div_mul).
  replace (Z.to_nat (100 + 10 * Z.of_nat k)) with (100 + 10 * k)%nat by lia.
  rewrite length_take. cbv zeta. destruct (_ =? _); [done|].
  replace (SIZEOF_IFREQ * (100 + 10 * Z.of_nat k) + 10 * SIZEOF_IFREQ)
    with (SIZEOF_IFREQ * (100 + 10 * Z.of_nat (S k))) by (unfold SIZEOF_IFREQ; lia). done.
Qed.

(** All requests, in a buffer with room for ten more. *)
Lemma conf_loop_all fuel : kernel_lists -> (length reqs <= 100 + 10 * fuel)%nat ->
  exists len, conf_loop ifconf (S (S fuel)) 0 (100 * SIZEOF_IFREQ) 0 = Def (Some (reqs, len)) /\
    SIZEOF_IFREQ * Z.of_nat (length reqs) + 400 <= len.
Proof.
  intros HK Hn.
  assert (forall fuel i k, (length reqs <= 100 + 10 * (k + fuel))%nat ->
    exists len, conf_loop ifconf (S fuel) i (SIZEOF_IFREQ * (100 + 10 * Z.of_nat (S k)))
        (SIZEOF_IFREQ * Z.of_nat ((100 + 10 * k) `min` length reqs)) = Def (Some (reqs, len)) /\
      SIZEOF_IFREQ * Z.of_nat (length reqs) + 400 <= len) as Hl.
  { clear fuel Hn. intros fuel. induction fuel as [|fuel IH]; intros i k Hn; rewrite conf_step by done; cbv zeta.
    - rewrite (proj2 (Z.eqb_eq _ _)), take_ge by lia. eexists. split; [done|]. unfold SIZEOF_IFREQ. lia.
    - destruct (Z.eqb_spec (SIZEOF_IFREQ * Z.of_nat ((100 + 10 * S k) `min` length reqs))
        (SIZEOF_IFREQ * Z.of_nat ((100 + 10 * k) `min` length reqs))) as [E|E]; [|apply IH; lia].
      unfold SIZEOF_IFREQ in *. rewrite take_ge by lia. eexists. split; [done|]. lia. }
  change (100 * SIZEOF_IFREQ) with (SIZEOF_IFREQ * (100 + 10 * Z.of_nat 0)). rewrite conf_step by done. cbv zeta.
  destruct (Z.eqb_spec (SIZEOF_IFREQ * Z.of_nat ((100 + 10 * 0) `min` length reqs)) 0) as [E|E]; [|apply Hl; lia].
  unfold SIZEOF_IFREQ in *. assert (reqs = []) as -> by (apply nil_length_inv; lia). eexists. split; [done|]. cbn. lia.
Qed.
End Conf.

Lemma byte_at_seq (f : nat -> ascii) k j n : (j < n)%nat -> byte_at (f <$> seq k n) j = Def (Z_of_byte (f (k + j)%nat)).
Proof.
  intros Hn. unfold byte_at. change (f <$> seq k n) with (map f (seq k n)).
  rewrite nth_error_map, (nth_error_nth' _ 0%nat) by (by rewrite length_seq). cbn. by rewrite seq_nth.
Qed.

Lemma quiet_garbage (garbage : nat -> ascii) k j n :
  (forall k, quiet [garbage k; garbage (S k)] 0) -> (j + 1 < n)%nat -> quiet (garbage <$> seq k n) j.
Proof.
  intros Hg Hn. destruct (Hg (k + j)%nat) as (f & E & Hf). exists f. split; [|done].
  rewrite <- E. unfold u16_at. rewrite !byte_at_seq by lia. by rewrite Nat.add_succ_r.
Qed.

Lemma length_answer reqs : Forall linux_ifreq reqs -> length (answer reqs) = (40 * length reqs)%nat.
Proof.
  unfold answer. induction 1 as [|q reqs [Hn _ Hu _ _ _ _ _] _ IH]; [done|].
  cbn [fmap list_fmap concat length]. unfold ifreq_bytes at 1. rewrite !length_app, IH, Hn, Hu. lia.
Qed.

(** * Theorems *)

(** On Linux, where the requests take 40 bytes, [get_ifi_info] looks at every
    fourth one only: it returns what a loop over the requests would return for the
    first, the fifth, the ninth... of them.  (It steps over 32 bytes per
    request, 16 of name and 16 of address, and the two strides meet again after
    160 bytes.)  It ends, and reads nothing outside its buffer. *)
Theorem get_ifi_info_fourth ifconf ioctl garbage reqs doaliases :
  kernel_lists ifconf reqs -> Forall linux_ifreq reqs -> Z.of_nat (length reqs) <= 10080 ->
  (forall k, quiet [garbage k; garbage (S k)] 0) ->
  get_ifi_info ifconf ioctl garbage AF_INET doaliases =
  ifi_of_requests ioctl AF_INET doaliases (replicate IFNAMSIZ NUL) (every_fourth reqs).
Proof.
  intros HK Hr Hn Hg. destruct (conf_loop_all ifconf reqs 998) as (len & E & Hlen); [done|lia|].
  unfold get_ifi_info. change IFCONF_FUEL with (S (S 998)). rewrite E, chk_bind_Def. cbv zeta. unfold buffer. pose proof (length_answer _ Hr) as Ha.
  unfold SIZEOF_IFREQ in *.
  assert (2 * length reqs < S (Z.to_nat (40 * Z.of_nat (length reqs))))%nat as Hf by lia.
  revert Hf. generalize (S (Z.to_nat (40 * Z.of_nat (length reqs)))). intros fuel Hf.
  apply walk_fourth; [apply quiet_garbage; [done|lia]..|done|exact Hf].
Qed.

(** Every child of udpserv04 reports the address its socket is bound to. *)
Lemma bind_each_reports errno prepare l : forall last cs e,
  bind_each errno prepare l last cs = Def e -> Forall (fun c => reported c = bound c) cs ->
  Forall (fun c => reported c = bound c) (match e with Exited cs => cs | Reached cs _ => cs end).
Proof.
  induction l as [|i l IH]; intros last cs e; cbn [bind_each]; [by intros [= <-]|].
  destruct (ifi_addr i) as [a|]; [|done]. destruct (prepare a) as [a'|]; [|done]. rewrite chk_bind_Def.
  unfold bind_fork. destruct (_ =? 0); [|by intros [= <-]]. intros He Hcs.
  assert (Forall (fun c => reported c = bound c) (cs ++ [Child a' a'])) as H1 by (apply Forall_app; repeat constructor; done).
  revert He. destruct (Z.land _ _ =? 0); [intros He; by eapply IH|].
  destruct (ifi_brdaddr i) as [b|]; [|done]. destruct (prepare b) as [b'|]; [|done]. rewrite chk_bind_Def.
  destruct (errno _ b' =? 0).
  { intros He. eapply IH; [done|]. apply Forall_app; repeat constructor; done. }
  destruct (_ =? EADDRINUSE); [intros He; by eapply IH|by intros [= <-]].
Qed.

Theorem udpserv04_reports ifconf ioctl garbage errno sa cs :
  udpserv04 ifconf ioctl garbage errno sa = Def (Some cs) -> Forall (fun c => reported c = bound c) cs.
Proof.
  unfold udpserv04. destruct (u16_at sa 0) as [fam|]; [|done]. rewrite chk_bind_Def.
  destruct (Get_ifi_info _ _ _ _ _) as [[l|]|]; [|done..]. rewrite chk_bind_Def.
  destruct (bind_each _ _ _ _ _) as [e|] eqn:E; [|done]. rewrite chk_bind_Def.
  pose proof (bind_each_reports _ _ _ _ _ _ E ltac:(constructor)) as H. destruct e as [cs'|cs' last]; intros [= <-]; [done|].
  unfold bind_fork. destruct (_ =? 0); [|done]. apply Forall_app; repeat constructor; done.
Qed.

(** The list that [get_ifi_info] links is read back by following the links, and
    [free_ifi_info] gives all of its storage back, once. *)
Theorem ifi_storage l m0 :
  exists b, link_ifis l m0 = Def b /\
    walk (S (length l)) (first b) (Storage.store b) = Def (ifi_node <$> l) /\
    free_ifi_info (S (length l)) (first b) (Storage.store b) = Def m0.
Proof.
  destruct (storage_returned m0 (ifi_node <$> l)) as (b & Hb & Hw & Hf). rewrite length_fmap in Hw, Hf. by exists b.
Qed.

(** * Runs *)

Definition pad_to (n : nat) (b : buf) : buf := take n (b ++ replicate n NUL).
Definition demo_request (name : string) (last : Z) : ifreq :=
  mkIfreq (pad_to 16 (chars name)) (pad_to 24 (le16 AF_INET ++ le16 0 ++ map byte_of_Z [192; 168; 1; last])).
Definition demo_conf (reqs : list ifreq) (_ : nat) (len : Z) : Z + list ifreq :=
  inr (take (Z.to_nat (len / SIZEOF_IFREQ)) reqs).
(** All interfaces are up and can broadcast. *)
Definition demo_answers (req : if_request) (q : ifreq) : option buf :=
  Some (match req with
        | SIOCGIFFLAGS => pad_to 24 (le16 (IFF_UP + IFF_BROADCAST))
        | SIOCGIFMTU => pad_to 24 (le32 1500)
        | SIOCGIFBRDADDR | SIOCGIFDSTADDR => pad_to 24 (le16 AF_INET ++ le16 0 ++ map byte_of_Z [192; 168; 1; 255])
        end).
Definition demo_reqs : list ifreq :=
  [demo_request "lo" 1; demo_request "eth0" 10; demo_request "eth0:1" 11; demo_request "eth1" 20; demo_request "eth2" 30].

Lemma demo_linux : Forall linux_ifreq demo_reqs.
Proof. repeat constructor; try (eexists; vm_compute; done); vm_compute; done. Qed.

(** What is shown of each element of a list. *)
Definition shown {A B} (f : A -> B) (r : chk (option (list A))) : chk (option (list B)) :=
  match r with Def (Some l) => Def (Some (map f l)) | Def None => Def None | Bad w => Bad w end.

(** Of five requests, the first and the fifth. *)
Example two_of_five :
  shown (fun i => cstr (ifi_name i)) (get_ifi_info (demo_conf demo_reqs) demo_answers (fun _ => NUL) AF_INET true) =
  Def (Some [Some (chars "lo"); Some (chars "eth2")]).
Proof. vm_compute. done. Qed.

Lemma get_ifi_info_fourth_witness :
  Forall linux_ifreq demo_reqs /\
  get_ifi_info (demo_conf demo_reqs) demo_answers (fun _ => NUL) AF_INET true =
  ifi_of_requests demo_answers AF_INET true (replicate IFNAMSIZ NUL) (every_fourth demo_reqs).
Proof.
  split; [apply demo_linux|]. apply (get_ifi_info_fourth (demo_conf demo_reqs)).
  - intros i len. reflexivity.
  - apply demo_linux.
  - vm_compute. done.
  - intros k. exists 0. vm_compute. done.
Defined.

Example prifinfo_prints :
  prifinfo (demo_conf [demo_request "eth0" 10]) demo_answers (fun _ => NUL) [lit "inet4"; lit "0"] =
  Def (Some (chars "eth0: <UP BCAST >" ++ nl ++ chars "  MTU: 1500" ++ nl ++ chars "  IP addr: 192.168.1.10" ++ nl ++
             chars "  broadcast addr: 192.168.1.255" ++ nl)).
Proof. vm_compute. done. Qed.

Example prifinfo_refuses_inet6 ifconf ioctl garbage : prifinfo ifconf ioctl garbage [lit "inet6"; lit "0"] = Def None.
Proof. done. Qed.

(** The child of udpserv03 with the wildcard address reports the broadcast address
    of the last interface. *)
Example udpserv03_wildcard :
  shown (fun c => (take 4 (drop 4 (bound c)), take 4 (drop 4 (reported c))))
    (udpserv03 (demo_conf [demo_request "eth0" 10]) demo_answers (fun _ => NUL) (fun _ _ => 0)) =
  let addr l := map byte_of_Z l in
  Def (Some [(addr [192; 168; 1; 10], addr [192; 168; 1; 10]); (addr [192; 168; 1; 255], addr [192; 168; 1; 255]);
             (addr [0; 0; 0; 0], addr [192; 168; 1; 255])]).
Proof. vm_compute. done. Qed.
