(* ===== verification/Ports.v ===== *)
(** * The port table

    The map from port numbers to the Unix-domain path of the local process that
    owns the port: [insert_map_port_sp] (odr_functions.c), [get_next_portno],
    [fetch_entry_port], [fetch_entry_path] and [get_file_name] (odr_and.c).
    Entries are only ever added in front and never written again, so the list
    of entries stands for the linked list. *)

From S2P Require Import Prelude CLib Inet Frame DList Node Demo Utils.

Definition __SERV_PORT : Z := 5500.
Definition __UNIX_SERV_PATH : string := "servpathfile".
Definition __UNIX_PROC_PATH : string := "procpathfile".
Definition SUN_PATH_SIZE : nat := 100.

Section Ports.
Context {os : OS}.

(** A new entry with [calloc]ed storage. *)
Definition new_port_entry (port : Z) (path : buf) : MN map_port_sp :=
  n ← lift (strlen path);
  sp ← lift (strncpy (replicate SUN_PATH_SIZE NUL) path n);
  t ← gettimeofday;
  mret (mkPortSp t port sp).

(** Both branches (empty table or not) put the entry in front. *)
Definition insert_map_port_sp (port : Z) (path : buf) : MN Z :=
  e ← new_port_entry port path;
  l ← gets port_spath_head;
  modify (set_ports (e :: l));;
  mret 1.

Definition get_next_portno : MN Z :=
  p ← gets next_portno;
  p' ← lift (int_add p 1);
  modify (set_next_portno p');;
  mret p.

Fixpoint find_port (port : Z) (l : list map_port_sp) : option map_port_sp :=
  match l with
  | [] => None
  | curr :: l' => if portno curr =? port then Some curr else find_port port l'
  end.

Definition fetch_entry_port (port : Z) : MN (option map_port_sp) :=
  l ← gets port_spath_head; mret (find_port port l).

Fixpoint find_path (path : buf) (l : list map_port_sp) : chk (option map_port_sp) :=
  match l with
  | [] => mret None
  | curr :: l' =>
      b ← streq (sun_path curr) path;
      if b : bool then mret (Some curr) else find_path path l'
  end.

Definition fetch_entry_path (path : buf) : MN (option map_port_sp) :=
  l ← gets port_spath_head;
  match l with
  | [] => mret None
  | _ =>
      r ← lift (find_path path l);
      match r with
      | Some e => mret (Some e)
      | None =>
          p ← get_next_portno;
          e ← new_port_entry p path;
          modify (set_ports (e :: l));;
          mret (Some e)
      end
  end.

(** [get_file_name]: the loop condition is [curr->next != NULL], so the last
    node is never examined. *)
Fixpoint file_name_loop (port : Z) (l : list map_port_sp) : option buf :=
  match l with
  | [] => None
  | curr :: l' =>
      match l' with
      | [] => None
      | _ => if portno curr =? port then Some (sun_path curr) else file_name_loop port l'
      end
  end.

Definition get_file_name (port : Z) (path : buf) : MN (Z * buf) :=
  l ← gets port_spath_head;
  match file_name_loop port l with
  | Some sp => path' ← lift (strcpy path sp); mret (1, path')
  | None => mret (-1, path)
  end.

(** ** Invariant *)

(** The path an entry holds. *)
Definition path_of (e : map_port_sp) : option buf := cstr (sun_path e).

Record ports_wf (l : list map_port_sp) (next : Z) : Prop := {
  pinv_paths : Forall (fun e => is_Some (path_of e) /\ length (sun_path e) = SUN_PATH_SIZE) l;
  pinv_ports_nodup : NoDup (portno <$> l);
  pinv_paths_nodup : NoDup (path_of <$> l);
  pinv_serv : exists e, e ∈ l /\ portno e = __SERV_PORT /\
              path_of e = Some (chars __UNIX_SERV_PATH);
  pinv_range : Forall (fun e => portno e = __SERV_PORT \/ 909 <= portno e < next) l;
  pinv_next : 909 <= next <= __SERV_PORT;
}.

Definition ports_inv (s : node) : Prop := ports_wf (port_spath_head s) (next_portno s).

(** ** Lemmas *)

Lemma find_port_Some port l e :
  find_port port l = Some e -> e ∈ l /\ portno e = port.
Proof.
  induction l as [|x l IH]; cbn; [done|].
  destruct (Z.eqb_spec (portno x) port) as [E|E].
  - intros [= <-]. split; [by left|done].
  - intros H. destruct (IH H). split; [by right|done].
Qed.

Lemma find_port_in l e :
  NoDup (portno <$> l) -> e ∈ l -> find_port (portno e) l = Some e.
Proof.
  induction l as [|x l IH]; intros Hnd Hin; [by apply not_elem_of_nil in Hin|].
  cbn in Hnd. apply NoDup_cons in Hnd as [Hx Hnd]. cbn.
  apply elem_of_cons in Hin as [->|Hin]; [by rewrite Z.eqb_refl|].
  destruct (Z.eqb_spec (portno x) (portno e)) as [E|E]; [|by apply IH].
  exfalso. apply Hx. rewrite E. by apply list_elem_of_fmap_2.
Qed.

Lemma find_path_spec path p l :
  cstr path = Some p -> Forall (fun e => is_Some (path_of e) /\ length (sun_path e) = SUN_PATH_SIZE) l ->
  find_path path l = Def (snd <$> list_find (fun e => path_of e = Some p) l).
Proof.
  intros Hp. induction 1 as [|x l [[q Hq] _] _ IH]; [done|].
  cbn [find_path list_find]. unfold path_of in Hq.
  rewrite (streq_Some _ _ _ _ Hq Hp), chk_bind_Def.
  case_decide as E; unfold path_of in E.
  - rewrite bool_decide_eq_true_2 by congruence. done.
  - rewrite bool_decide_eq_false_2 by congruence. rewrite IH.
    by destruct (list_find _ l) as [[i e]|].
Qed.

Lemma wp_new_port_entry port path p (Q : map_port_sp -> node -> Prop) s :
  cstr path = Some p -> (length p < SUN_PATH_SIZE)%nat ->
  (forall e, portno e = port -> path_of e = Some p -> length (sun_path e) = SUN_PATH_SIZE ->
     Q e (set_clock (S (clock s)) s)) ->
  wp (new_port_entry port path) Q s.
Proof.
  intros Hp Hl HQ. unfold new_port_entry. wp_step.
  eapply wp_lift; [unfold strlen; by rewrite (need_str_Some _ _ Hp)|]. cbn beta.
  wp_step. eapply wp_lift.
  { apply strncpy_strlen; [done|]. rewrite length_replicate. lia. }
  wp_step. unfold gettimeofday, wp at 1. cbn beta. wp_step. apply HQ; [done| |].
  2: { cbn [sun_path]. rewrite length_app, length_drop, length_replicate. lia. }
  unfold path_of; cbn [sun_path].
  rewrite drop_replicate. apply cstr_pad; [by eapply cstr_nonul|done].
Qed.

(** What [fetch_entry_path] may change. *)
Definition ports_step (s s' : node) : Prop :=
  exists l n c, (clock s <= c)%nat /\ s' = set_clock c (set_next_portno n (set_ports l s)).

Lemma wp_fetch_entry_path path p (Q : option map_port_sp -> node -> Prop) s :
  ports_inv s -> cstr path = Some p -> (length p < SUN_PATH_SIZE)%nat ->
  next_portno s < __SERV_PORT ->
  (forall e s', ports_inv s' -> ports_step s s' ->
     e ∈ port_spath_head s' -> path_of e = Some p ->
     (forall x, x ∈ port_spath_head s -> x ∈ port_spath_head s') ->
     next_portno s <= next_portno s' <= next_portno s + 1 ->
     Q (Some e) s') ->
  wp (fetch_entry_path path) Q s.
Proof.
  intros [H1 H2 H3 H4 H5 H6] Hp Hl Hn HQ. unfold fetch_entry_path. wp_steps.
  destruct H4 as (e0 & He0 & He0p & He0s).
  destruct (port_spath_head s) as [|e1 l] eqn:El; [by apply not_elem_of_nil in He0|].
  rewrite <- El in *. clear e1 l El.
  wp_step. eapply wp_lift; [by apply find_path_spec|]. cbn beta.
  destruct (list_find _ (port_spath_head s)) as [[i e]|] eqn:Ef; cbn [fmap option_fmap option_map snd].
  - apply list_find_Some in Ef as (Hi & Hpe & _). wp_step. apply HQ; try done; try lia.
    + split; try done. by eauto.
    + exists (port_spath_head s), (next_portno s), (clock s). split; [lia|]. by destruct s.
    + by eapply list_elem_of_lookup_2.
  - apply list_find_None in Ef. unfold get_next_portno. wp_steps.
    apply wp_lift with (next_portno s + 1).
    { unfold int_add. rewrite (proj2 (int_ok_spec _)); [done|].
      unfold INT_MIN, INT_MAX, __SERV_PORT in *. lia. }
    wp_steps. eapply wp_new_port_entry; [done..|]. intros e Hep Hes Hel. wp_steps.
    apply HQ; cbn; [|by exists (e :: port_spath_head s), (next_portno s + 1), (S (clock s)); split; [lia|]|by left|done|by intros x; right|lia].
    split; cbn.
    + constructor; [|done]. rewrite Hes. split; [by eexists|done].
    + apply NoDup_cons. split; [|done]. rewrite Hep. intros (x & Hx & Hin)%list_elem_of_fmap.
      rewrite Forall_forall in H5. specialize (H5 x Hin). unfold __SERV_PORT in *. lia.
    + apply NoDup_cons. split; [|done]. rewrite Hes. intros (x & Hx & Hin)%list_elem_of_fmap.
      rewrite Forall_forall in Ef. by specialize (Ef x Hin).
    + exists e0. split; [by right|done].
    + constructor; [right; lia|]. eapply Forall_impl; [exact H5|].
      intros x Hx. cbn in *. lia.
    + unfold __SERV_PORT in *. lia.
Qed.
End Ports.

(** ** Properties *)

Section PortsProperties.
Context {os : OS}.

(** Distinct paths: the search by path finds the entry. *)
Lemma find_path_in path p l e :
  cstr path = Some p ->
  Forall (fun e => is_Some (path_of e) /\ length (sun_path e) = SUN_PATH_SIZE) l ->
  NoDup (path_of <$> l) -> e ∈ l -> path_of e = Some p -> find_path path l = Def (Some e).
Proof.
  intros Hp Hl Hnd Hin He. rewrite (find_path_spec path p) by done.
  destruct (list_find _ l) as [[i e']|] eqn:E.
  - apply list_find_Some in E as (Hi & He' & _). cbn. do 2 f_equal.
    apply list_elem_of_lookup in Hin as [j Hj].
    assert (i = j) as <-; [|congruence].
    eapply NoDup_lookup; [exact Hnd| |]; rewrite list_lookup_fmap.
    + by rewrite Hi.
    + rewrite Hj. cbn. congruence.
  - apply list_find_None in E. rewrite Forall_forall in E. by specialize (E e Hin).
Qed.

(** C20: [fetch_entry_path] gives every local process one port: it returns an
    entry for the path, keeps all the entries there were and the invariant of
    the table (distinct ports, distinct paths, the server's entry); from then
    on the port leads to that entry and asking again returns it without
    changing anything. *)
Theorem fetch_entry_path_registers path p s :
  ports_inv s -> cstr path = Some p -> (length p < SUN_PATH_SIZE)%nat ->
  next_portno s < __SERV_PORT ->
  exists e s', fetch_entry_path path s = Ok (Some e) s' /\ ports_inv s' /\ path_of e = Some p /\
    (forall x, x ∈ port_spath_head s -> x ∈ port_spath_head s') /\
    fetch_entry_port (portno e) s' = Ok (Some e) s' /\
    fetch_entry_path path s' = Ok (Some e) s'.
Proof.
  intros Hinv Hp Hl Hn.
  assert (wp (fetch_entry_path path) (fun r s' => exists e, r = Some e /\ ports_inv s' /\
    e ∈ port_spath_head s' /\ path_of e = Some p /\
    (forall x, x ∈ port_spath_head s -> x ∈ port_spath_head s')) s)
    as (r & s' & Hr & e & -> & Hinv' & Hin & He & Hsub)%wp_run.
  { eapply wp_fetch_entry_path; [done..|]. intros e s' H1 _ H2 H3 H4 _. by exists e. }
  exists e, s'. split_and!; try done; destruct Hinv' as [H1 H2 H3 H4 H5 H6].
  - unfold fetch_entry_port. erewrite bind_Ok; [|done]. by rewrite find_port_in.
  - unfold fetch_entry_path. erewrite bind_Ok; [|done].
    destruct (port_spath_head s') as [|x l] eqn:El; [by apply not_elem_of_nil in Hin|].
    rewrite <- El in *. erewrite bind_Ok; [|unfold lift; by rewrite (find_path_in _ p _ e)].
    done.
Qed.

(** [get_file_name] never examines the last node of the list, so it
    denies the oldest entry (the server's, once start-up has inserted it) which
    [fetch_entry_port] finds. *)
Theorem get_file_name_misses_last l e path s :
  port_spath_head s = l ++ [e] -> NoDup (portno <$> port_spath_head s) ->
  get_file_name (portno e) path s = Ok (-1, path) s /\
  fetch_entry_port (portno e) s = Ok (Some e) s.
Proof.
  intros Hl Hnd. split.
  - unfold get_file_name. erewrite bind_Ok; [|done].
    replace (file_name_loop (portno e) (port_spath_head s)) with (@None buf); [done|].
    rewrite Hl in *. clear Hl. symmetry. induction l as [|x l IH]; [done|].
    cbn in Hnd. apply NoDup_cons in Hnd as [Hx Hnd]. cbn.
    destruct (l ++ [e]) as [|y l'] eqn:E; [done|]. rewrite <- E in *.
    destruct (Z.eqb_spec (portno x) (portno e)) as [Ex|Ex]; [|by apply IH].
    exfalso. apply Hx. rewrite Ex. apply list_elem_of_fmap_2, elem_of_app. right. by left.
  - unfold fetch_entry_port. erewrite bind_Ok; [|done]. rewrite find_port_in; [done..|].
    rewrite Hl. apply elem_of_app. right. by left.
Qed.

(** The port counter runs into the server's port: once it has reached
    5500, the next process to register is given that port and takes it over,
    although the server's entry is still in the table. *)
Theorem port_counter_takes_server_port path p s :
  ports_inv s -> next_portno s = __SERV_PORT -> cstr path = Some p ->
  (length p < SUN_PATH_SIZE)%nat -> Some p ∉ path_of <$> port_spath_head s ->
  exists e s', fetch_entry_path path s = Ok (Some e) s' /\ path_of e = Some p /\
    fetch_entry_port __SERV_PORT s' = Ok (Some e) s' /\
    exists srv, srv ∈ port_spath_head s' /\ portno srv = __SERV_PORT /\
      path_of srv = Some (chars __UNIX_SERV_PATH).
Proof.
  intros [H1 H2 H3 (srv & Hsrv & Hs1 & Hs2) H5 H6] Hn Hp Hl Hnew.
  assert (wp (fetch_entry_path path) (fun r s' => exists e, r = Some e /\
    portno e = __SERV_PORT /\ path_of e = Some p /\ port_spath_head s' = e :: port_spath_head s) s)
    as (r & s' & Hr & e & -> & Hep & Hee & Hh)%wp_run.
  { unfold fetch_entry_path. wp_steps.
    destruct (port_spath_head s) as [|e1 l] eqn:El; [by apply not_elem_of_nil in Hsrv|].
    rewrite <- El in *. clear e1 l El.
    wp_step. eapply wp_lift; [by apply find_path_spec|]. cbn beta.
    destruct (list_find _ (port_spath_head s)) as [[i e]|] eqn:Ef; cbn [fmap option_fmap option_map snd].
    { exfalso. apply list_find_Some in Ef as (Hi & Hpe & _). apply Hnew. rewrite <- Hpe.
      apply list_elem_of_fmap_2. by eapply list_elem_of_lookup_2. }
    unfold get_next_portno. wp_steps. eapply wp_lift; [by rewrite Hn|]. wp_steps.
    eapply wp_new_port_entry; [done..|]. intros e Hep Hes _. wp_steps. exists e.
    split_and!; try done. by rewrite Hep, Hn. }
  exists e, s'. split_and!; try done.
  - unfold fetch_entry_port. erewrite bind_Ok; [|done]. rewrite Hh. cbn. rewrite Hep. done.
  - exists srv. rewrite Hh. split; [by right|done].
Qed.
End PortsProperties.

(** A table as start-up leaves it. *)
Definition demo_ports (next : Z) : node :=
  set_next_portno next
    (set_ports [mkPortSp (mkTv 0 0) __SERV_PORT (pad SUN_PATH_SIZE (chars __UNIX_SERV_PATH))] node_init).

Lemma demo_ports_inv next : 909 <= next <= __SERV_PORT -> ports_inv (demo_ports next).
Proof.
  intros Hn. split; cbn.
  - apply Forall_singleton. split; [eexists; by vm_compute|reflexivity].
  - apply NoDup_singleton.
  - apply NoDup_singleton.
  - eexists. split; [by left|]. split; [done|]. by vm_compute.
  - apply Forall_singleton. by left.
  - done.
Qed.

Lemma fetch_entry_path_registers_witness :
  exists e s', @fetch_entry_path (demo_os (demo_ifs 2)) (lit "/tmp/file_and_1") (demo_ports 909)
               = Ok (Some e) s' /\ ports_inv s' /\ path_of e = Some (chars "/tmp/file_and_1") /\
    (forall x, x ∈ port_spath_head (demo_ports 909) -> x ∈ port_spath_head s') /\
    fetch_entry_port (portno e) s' = Ok (Some e) s' /\
    @fetch_entry_path (demo_os (demo_ifs 2)) (lit "/tmp/file_and_1") s' = Ok (Some e) s'.
Proof.
  apply (@fetch_entry_path_registers (demo_os (demo_ifs 2)) (lit "/tmp/file_and_1")
           (chars "/tmp/file_and_1") (demo_ports 909)).
  - apply demo_ports_inv. unfold __SERV_PORT. lia.
  - reflexivity.
  - apply Nat.ltb_lt. reflexivity.
  - reflexivity.
Defined.

Lemma get_file_name_misses_last_witness :
  get_file_name __SERV_PORT (replicate 108 NUL) (demo_ports 909)
  = Ok (-1, replicate 108 NUL) (demo_ports 909) /\
  fetch_entry_port __SERV_PORT (demo_ports 909)
  = Ok (head (port_spath_head (demo_ports 909))) (demo_ports 909).
Proof.
  apply (get_file_name_misses_last []
           (mkPortSp (mkTv 0 0) __SERV_PORT (pad SUN_PATH_SIZE (chars __UNIX_SERV_PATH)))
           (replicate 108 NUL) (demo_ports 909)).
  - reflexivity.
  - apply NoDup_singleton.
Defined.

Lemma port_counter_takes_server_port_witness :
  exists e s', @fetch_entry_path (demo_os (demo_ifs 2)) (lit "/tmp/file_and_1") (demo_ports 5500)
               = Ok (Some e) s' /\ path_of e = Some (chars "/tmp/file_and_1") /\
    fetch_entry_port __SERV_PORT s' = Ok (Some e) s' /\
    exists srv, srv ∈ port_spath_head s' /\ portno srv = __SERV_PORT /\
      path_of srv = Some (chars __UNIX_SERV_PATH).
Proof.
  apply (@port_counter_takes_server_port (demo_os (demo_ifs 2)) (lit "/tmp/file_and_1")
           (chars "/tmp/file_and_1") (demo_ports 5500)).
  - apply demo_ports_inv. unfold __SERV_PORT. lia.
  - reflexivity.
  - reflexivity.
  - apply Nat.ltb_lt. reflexivity.
  - cbn [port_spath_head demo_ports set_next_portno set_ports fmap list_fmap].
    intros H. apply list_elem_of_singleton in H. by vm_compute in H.
Defined.
