(* ===== verification/RTable.v ===== *)
(** * The routing table

    odr_functions.c: [update_r_entry], [insert_r_entry], [check_r_entry],
    [get_r_entry], [is_broadid_greater] and [remove_r_entry], on the doubly
    linked list of [r_entry_t] nodes.  [rt_rep] relates the list to a finite map
    from destination addresses to routes: the operations are proved to be the
    map's lookup, insert, replace and delete. *)

From S2P Require Import Prelude CLib Inet Frame DList Node Demo Utils.

(** [calloc(1, sizeof(r_entry_t))]. *)
Definition zero_entry : r_entry :=
  mkREntry (replicate INET_ADDRSTRLEN NUL) (replicate (S HWADDR) NUL) 0 0 0 (mkTv 0 0).

(** The block that takes a node out of the table, in [get_r_entry] and
    [remove_r_entry]. *)
Definition rt_unlink (d : dlist r_entry) (curr : loc) : chk (dlist r_entry) :=
  n ← deref (dheap d) curr;
  let hd := if decide (dhead d = Some curr) then dnext n else dhead d in
  m ← dbypass (dheap d) curr;
  mret (mkDlist m hd (dbrk d)).

Section RTable.
Context {os : OS}.

(** Reading a node of the table through a pointer. *)
Definition rt_load (x : loc) : MN r_entry :=
  d ← gets rt; n ← lift (deref (dheap d) x); mret (dval n).

Definition rt_store (x : loc) (e : r_entry) : MN unit :=
  d ← gets rt; d' ← lift (dstore d x e); modify (set_rt d').

Definition update_r_entry (recv_buf : odr_frame) (x : loc) (intf_n : Z) (nhop : buf) : MN Z :=
  e ← rt_load x;
  dip ← lift (strcpy (destip e) (src_ip recv_buf));
  nh ← lift (memcpy (next_hop e) nhop HWADDR);
  t ← gettimeofday;
  hops ← lift (int_add (hop_count recv_buf) 1);
  rt_store x (mkREntry dip nh intf_n hops (broadcast_id recv_buf) t);;
  copy_vmname dip;;
  mret 1.

Definition insert_r_entry (fr : odr_frame) (intf_n : Z) (nhop : buf) : MN (Z * loc) :=
  d ← gets rt;
  let '(x, d1) := dalloc d zero_entry in
  modify (set_rt d1);;
  rc ← update_r_entry fr x intf_n nhop;
  if rc <? 0 then mret (-1, x) else
  d2 ← gets rt;
  d3 ← lift (dlink d2 x);
  modify (set_rt d3);;
  mret (1, x).

Definition check_r_entry (fr : odr_frame) (x : loc) (intf_n : Z) (nhop : buf) : MN Z :=
  e ← rt_load x;
  if broadcast_id fr >? r_broadcast_id e then
    update_r_entry fr x intf_n nhop;; mret 1
  else
    better ← (if broadcast_id fr =? r_broadcast_id e then
                h ← lift (int_add (hop_count fr) 1); mret (h <=? no_hops e)
              else mret false);
    if better : bool then update_r_entry fr x intf_n nhop;; mret 1
    else mret 0.

(** The staleness test of [get_r_entry] at time [t]. *)
Definition entry_expired (stale : Z) (t : timeval) (flag : Z) (e : r_entry) : bool :=
  (tv_sec t - tv_sec (timestamp e) >=? stale) || (flag =? 1).

(** The return value and, when it is 1, the entry stored through [r_entry]. *)
Definition get_r_entry (dip : buf) (flag : Z) : MN (Z * option loc) :=
  d ← gets rt;
  match dhead d with
  | None => mret (0, None)
  | Some _ =>
      t ← gettimeofday;
      r ← lift (dfind d (fun e => streq (destip e) dip));
      match r with
      | None => mret (-1, None)
      | Some x =>
          e ← rt_load x;
          stale ← gets stale_param;
          if entry_expired stale t flag e then
            d' ← lift (rt_unlink d x);
            modify (set_rt d');;
            mret (-1, None)
          else mret (1, Some x)
      end
  end.

Definition is_broadid_greater (srcip : buf) (recvd_broad_id : Z) : MN Z :=
  d ← gets rt;
  match dhead d with
  | None => mret 1
  | Some _ =>
      r ← lift (dfind d (fun e =>
            b ← streq (destip e) srcip; mret (b && (r_broadcast_id e >=? recvd_broad_id))));
      mret (match r with Some _ => -1 | None => 1 end)
  end.

(** The test [if (strcmp(curr->destip, ip))] holds for a {e different}
    address. *)
Definition remove_r_entry (ip : buf) : MN unit :=
  d ← gets rt;
  match dhead d with
  | None => mret tt
  | Some _ =>
      r ← lift (dfind d (fun e => b ← streq (destip e) ip; mret (negb b)));
      match r with
      | None => mret tt
      | Some x => d' ← lift (rt_unlink d x); modify (set_rt d')
      end
  end.
End RTable.

(** ** The map the table represents *)

Abbreviation routes := (gmap buf (loc * r_entry)).

Record entry_ok (k : buf) (e : r_entry) : Prop := {
  entry_ip : cstr (destip e) = Some k;
  entry_ip_len : length (destip e) = INET_ADDRSTRLEN;
  entry_hop_len : length (next_hop e) = S HWADDR;
}.

(** [T] maps each destination to the address and contents of its node; no
    destination has two nodes. *)
Definition rt_rep (d : dlist r_entry) (T : routes) : Prop :=
  exists kl : list (buf * (loc * r_entry)),
    drep d None kl.*2 /\
    Forall (fun '(k, (x, e)) => entry_ok k e) kl /\
    NoDup kl.*1 /\
    T = list_to_map kl.

Section Rep.
Implicit Types (kl : list (buf * (loc * r_entry))) (T : routes).

Lemma rt_rep_empty : rt_rep dempty ∅.
Proof.
  exists []. split; [|by repeat constructor]. split; [done | constructor |].
  intros x [n Hn]. cbn in Hn. by rewrite lookup_empty in Hn.
Qed.

(** A key of the map splits the list. *)
Lemma rt_split kl T ip x e :
  NoDup kl.*1 -> T = list_to_map kl -> T !! ip = Some (x, e) ->
  exists kl1 kl2, kl = kl1 ++ (ip, (x, e)) :: kl2 /\
    (ip ∉ kl1.*1) /\ (ip ∉ kl2.*1).
Proof.
  intros Hnd -> HT. apply elem_of_list_to_map_2 in HT.
  apply list_elem_of_split in HT as (kl1 & kl2 & ->). exists kl1, kl2. split; [done|].
  rewrite fmap_app in Hnd. apply NoDup_app in Hnd as (_ & Hd & Hnd). cbn in Hnd.
  apply NoDup_cons in Hnd as [Hn _]. split; [|done].
  intros Hin. apply (Hd ip Hin). by left.
Qed.

Lemma map_replace kl1 kl2 ip (v v' : loc * r_entry) :
  ip ∉ kl1.*1 ->
  (list_to_map (kl1 ++ (ip, v') :: kl2) : routes)
  = <[ip := v']> (list_to_map (kl1 ++ (ip, v) :: kl2)).
Proof.
  intros Hn. induction kl1 as [|[k w] kl1 IH]; cbn.
  - by rewrite insert_insert_eq.
  - cbn in Hn. apply not_elem_of_cons in Hn as [Hk Hn].
    rewrite IH by done. by rewrite insert_insert_ne.
Qed.

Lemma map_remove kl1 kl2 ip (v : loc * r_entry) :
  ip ∉ kl1.*1 -> ip ∉ kl2.*1 ->
  (list_to_map (kl1 ++ kl2) : routes) = delete ip (list_to_map (kl1 ++ (ip, v) :: kl2)).
Proof.
  intros Hn1 Hn2. induction kl1 as [|[k w] kl1 IH]; cbn.
  - rewrite delete_insert_eq, delete_id; [done|]. by apply not_elem_of_list_to_map_1.
  - cbn in Hn1. apply not_elem_of_cons in Hn1 as [Hk Hn1].
    rewrite IH by done. by rewrite delete_insert_ne.
Qed.

(** [dfind] with a test on the destination address. *)
Lemma rt_find d T kl (p : r_entry -> chk bool) (P : r_entry -> bool) :
  drep d None kl.*2 -> Forall (fun '(k, (x, e)) => entry_ok k e) kl ->
  (forall k e, entry_ok k e -> p e = Def (P e)) ->
  dfind d p = Def (fst ∘ snd ∘ snd <$> list_find (fun e => P e.2.2 = true) kl).
Proof.
  intros Hd Hok Hp. rewrite (dfind_spec p P _ None kl.*2 Hd).
  - f_equal. rewrite list_find_fmap. rewrite <- option_fmap_compose.
    by destruct (list_find _ kl) as [[i [k [x e]]]|].
  - apply Forall_fmap. eapply Forall_impl; [exact Hok|].
    intros [k [x e]] He. cbn. by eapply Hp.
Qed.

Lemma streq_entry k e b ip :
  entry_ok k e -> cstr b = Some ip ->
  streq (destip e) b = Def (bool_decide (k = ip)).
Proof. intros [Hk _ _] Hb. by apply streq_Some. Qed.

(** Looking an address up. *)
Lemma rt_find_ip d T b ip :
  rt_rep d T -> cstr b = Some ip ->
  dfind d (fun e => streq (destip e) b) = Def (fst <$> T !! ip).
Proof.
  intros (kl & Hd & Hok & Hnd & HT) Hb.
  rewrite (rt_find d T kl _ (fun e => bool_decide (cstr (destip e) = Some ip))); [|done..|].
  2: { intros k e He. rewrite (streq_entry k e b ip) by done. f_equal.
       apply bool_decide_ext. rewrite (entry_ip _ _ He). naive_solver. }
  f_equal. destruct (T !! ip) as [[x e]|] eqn:E; cbn.
  - destruct (rt_split kl T ip x e Hnd HT E) as (kl1 & kl2 & -> & Hn1 & Hn2).
    apply Forall_app in Hok as [Hok1 Hok2]. apply Forall_cons in Hok2 as [He _].
    rewrite list_find_app_r.
    + cbn. rewrite decide_True; [done|]. apply bool_decide_eq_true_2, He.
    + apply list_find_None. rewrite Forall_forall in Hok1 |- *.
      intros [k [y f]] Hin. specialize (Hok1 _ Hin). cbn in *.
      rewrite bool_decide_eq_true, (entry_ip _ _ Hok1). intros [= ->].
      apply Hn1. apply list_elem_of_fmap. by exists (ip, (y, f)).
  - replace (list_find _ kl) with (@None (nat * (buf * (loc * r_entry)))); [done|].
    symmetry. apply list_find_None. rewrite Forall_forall in Hok |- *.
    intros [k [y f]] Hin. specialize (Hok _ Hin). cbn in *.
    rewrite bool_decide_eq_true, (entry_ip _ _ Hok). intros [= ->].
    rewrite HT in E. apply not_elem_of_list_to_map_2 in E. apply E.
    apply list_elem_of_fmap. by exists (ip, (y, f)).
Qed.
End Rep.

Section RepOps.
Implicit Types (kl : list (buf * (loc * r_entry))) (T : routes).

Lemma rt_rep_ok d T ip x e : rt_rep d T -> T !! ip = Some (x, e) -> entry_ok ip e.
Proof.
  intros (kl & Hd & Hok & Hnd & HT) E.
  destruct (rt_split kl T ip x e Hnd HT E) as (kl1 & kl2 & -> & _).
  apply Forall_app in Hok as [_ Hok]. by apply Forall_cons in Hok as [He _].
Qed.

Lemma rt_rep_load d T ip x e :
  rt_rep d T -> T !! ip = Some (x, e) -> exists n, deref (dheap d) x = Def n /\ dval n = e.
Proof.
  intros (kl & [Hs _ _] & Hok & Hnd & HT) E.
  destruct (rt_split kl T ip x e Hnd HT E) as (kl1 & kl2 & -> & _).
  destruct (dseg_lookup _ _ _ _ _ x e Hs) as (nx & pv & Hx).
  { apply list_elem_of_fmap. exists (ip, (x, e)). split; [done|].
    apply elem_of_app. right. by left. }
  eexists. split; [by apply deref_Some|done].
Qed.

Lemma rt_rep_head d T : rt_rep d T -> dhead d = None <-> T = ∅.
Proof.
  intros (kl & [Hs _ _] & _ & _ & HT). destruct kl as [|[k [x e]] kl]; cbn in *.
  - by rewrite HT.
  - destruct Hs as (-> & _). subst. split; [done|]. intros H.
    by apply insert_non_empty in H.
Qed.

Lemma rt_rep_store d T ip x e e' :
  rt_rep d T -> T !! ip = Some (x, e) -> entry_ok ip e' ->
  exists d', dstore d x e' = Def d' /\ rt_rep d' (<[ip := (x, e')]> T).
Proof.
  intros (kl & Hd & Hok & Hnd & HT) E He'.
  destruct (rt_split kl T ip x e Hnd HT E) as (kl1 & kl2 & -> & Hn1 & Hn2).
  rewrite fmap_app in Hd. cbn in Hd.
  destruct (dstore_spec d None kl1.*2 x e kl2.*2 e' Hd) as (d' & Hst & Hd').
  exists d'. split; [done|]. exists (kl1 ++ (ip, (x, e')) :: kl2). split_and!.
  - by rewrite fmap_app.
  - apply Forall_app in Hok as [? Hok]. apply Forall_cons in Hok as [_ ?].
    apply Forall_app. split; [done|]. by apply Forall_cons.
  - rewrite fmap_app in Hnd |- *. done.
  - rewrite HT. symmetry. by apply map_replace.
Qed.

(** Unlinking a node deletes its destination from the map. *)
Lemma rt_rep_unlink d T ip x e :
  rt_rep d T -> T !! ip = Some (x, e) ->
  exists d', rt_unlink d x = Def d' /\ rt_rep d' (delete ip T).
Proof.
  intros (kl & Hd & Hok & Hnd & HT) E.
  destruct (rt_split kl T ip x e Hnd HT E) as (kl1 & kl2 & -> & Hn1 & Hn2).
  rewrite fmap_app in Hd. cbn in Hd.
  assert (exists d', rt_unlink d x = Def d' /\ drep d' None (kl1 ++ kl2).*2)
    as (d' & Hun & Hd').
  { unfold rt_unlink. rewrite fmap_app. destruct kl1 as [|e1 kl1] using rev_ind.
    - destruct (dbypass_head d x e kl2.*2 Hd) as (nx & m' & Hx & Hb & Hr & _).
      rewrite (deref_Some _ _ _ Hx), chk_bind_Def, Hb, chk_bind_Def.
      rewrite decide_True by (apply Hd). cbn [dnext]. eexists. by split.
    - clear IHkl1. destruct e1 as [k1 [y w]]. rewrite !fmap_app in *. cbn in Hd |- *.
      rewrite <- !app_assoc in *. cbn in Hd |- *.
      destruct (dbypass_mid d None _ y w x e kl2.*2 Hd) as (nx & m' & Hx & Hb & Hr & _).
      rewrite (deref_Some _ _ _ Hx), chk_bind_Def, Hb, chk_bind_Def.
      rewrite decide_False; [eexists; by split|].
      intros Hh. destruct Hd as [Hs Hnd' _]. rewrite fmap_app in Hnd'.
      apply NoDup_app in Hnd' as (_ & Hdis & Hnd').
      cbn in Hnd'. apply NoDup_cons in Hnd' as [Hy _].
      destruct kl1 as [|[k2 [z v]] kl1]; cbn in Hs.
      + destruct Hs as [Hs _]. rewrite Hh in Hs. injection Hs as ->.
        apply Hy. by left.
      + destruct Hs as [Hs _]. rewrite Hh in Hs. injection Hs as ->.
        apply (Hdis z); cbn; [by left|]. right. by left. }
  exists d'. split; [done|]. exists (kl1 ++ kl2). split_and!.
  - done.
  - apply Forall_app in Hok as [? Hok]. apply Forall_cons in Hok as [_ ?].
    by apply Forall_app.
  - rewrite fmap_app in Hnd |- *. apply NoDup_app in Hnd as (H1 & Hdis & H2).
    cbn in H2. apply NoDup_cons in H2 as [_ H2]. apply NoDup_app. split; [done|].
    split; [|done]. intros k Hk Hk2. apply (Hdis k Hk). by right.
  - rewrite HT. symmetry. by apply map_remove.
Qed.

Lemma dalloc_store {A} (d : dlist A) v v' :
  dstore (dalloc d v).2 (dalloc d v).1 v' = Def (dalloc d v').2.
Proof.
  unfold dstore, dalloc; cbn [fst snd dheap dhead dbrk].
  rewrite (deref_Some _ _ (mkDnode v None None)) by (by rewrite lookup_insert_eq).
  rewrite chk_bind_Def. unfold set_val; cbn. by rewrite insert_insert_eq.
Qed.

(** Allocating, filling and linking a node adds its destination. *)
Lemma rt_rep_insert d T ip e :
  rt_rep d T -> T !! ip = None -> entry_ok ip e ->
  exists d', dlink (dalloc d e).2 (dbrk d) = Def d' /\ rt_rep d' (<[ip := (dbrk d, e)]> T).
Proof.
  intros (kl & Hd & Hok & Hnd & HT) E He.
  destruct (dpush_spec d None kl.*2 e Hd) as (d' & Hl & Hd').
  exists d'. split; [exact Hl|]. exists ((ip, (dbrk d, e)) :: kl). split_and!.
  - done.
  - by apply Forall_cons.
  - cbn. apply NoDup_cons. split; [|done]. rewrite HT in E.
    by apply not_elem_of_list_to_map_2 in E.
  - by rewrite HT.
Qed.
End RepOps.

(** ** Specifications of the operations *)

Section RTableSpec.
Context {os : OS}.
Implicit Types (T : routes).

(** The route a frame from [sip] that arrived on interface [intf] from the
    neighbour [nhop] at time [t] describes. *)
Record route_of (fr : odr_frame) (sip : buf) (intf : Z) (nhop : buf) (t : timeval)
    (e : r_entry) : Prop := {
  ro_ok : entry_ok sip e;
  ro_hop : take HWADDR (next_hop e) = take HWADDR nhop;
  ro_if : if_no e = intf;
  ro_hops : no_hops e = hop_count fr + 1;
  ro_bid : r_broadcast_id e = broadcast_id fr;
  ro_time : timestamp e = t;
}.

(** The conditions under which [update_r_entry] is safe on a frame. *)
Record upd_ok (fr : odr_frame) (sip nhop : buf) : Prop := {
  upd_src : cstr (src_ip fr) = Some sip;
  upd_res : resolves sip;
  upd_hop : (HWADDR <= length nhop)%nat;
  upd_cnt : int_ok (hop_count fr + 1) = true;
}.

Lemma wp_rt_load x n Q s :
  deref (dheap (rt s)) x = Def n -> Q (dval n) s -> wp (rt_load x) Q s.
Proof. intros Hn HQ. unfold rt_load. wp_steps. eapply wp_lift; [exact Hn|]. by wp_step. Qed.

Lemma wp_update_r_entry fr x n sip intf nhop (Q : Z -> node -> Prop) s :
  deref (dheap (rt s)) x = Def n ->
  length (destip (dval n)) = INET_ADDRSTRLEN -> length (next_hop (dval n)) = S HWADDR ->
  upd_ok fr sip nhop ->
  (forall e d, route_of fr sip intf nhop (os_time (clock s)) e ->
     dstore (rt s) x e = Def d -> Q 1 (set_rt d (set_clock (S (clock s)) s))) ->
  wp (update_r_entry fr x intf nhop) Q s.
Proof.
  intros Hx Hl1 Hl2 [Hs Hr Hh Hc] HQ. unfold update_r_entry.
  pose proof (resolves_length _ Hr) as Hsl.
  wp_step. eapply wp_rt_load; [exact Hx|]. cbn beta.
  destruct (strcpy_Some (destip (dval n)) (src_ip fr) sip Hs) as (dip & Hd & Hdip & Hdl);
    [by rewrite Hl1|].
  wp_step. eapply wp_lift; [exact Hd|]. cbn beta.
  wp_step. eapply wp_lift; [apply memcpy_Def; [rewrite Hl2; lia | done]|]. cbn beta.
  wp_step. unfold gettimeofday, wp at 1. cbn beta.
  wp_step. eapply wp_lift; [unfold int_add; by rewrite Hc|]. cbn beta.
  wp_step. unfold rt_store. wp_steps.
  set (e := mkREntry _ _ _ _ _ _).
  destruct (dstore (rt s) x e) as [d|u] eqn:Est.
  2: { unfold dstore in Est. by rewrite Hx in Est. }
  eapply wp_lift; [exact Est|]. cbn beta. wp_steps.
  eapply wp_copy_vmname; [exact Hdip | done |]. intros _. wp_step.
  eapply HQ; [|exact Est]. split; try done; cbn.
  - split; cbn; [done | by rewrite Hdl |].
    rewrite length_app, length_take, length_drop, Hl2. unfold HWADDR in *. lia.
  - rewrite take_app_le by (rewrite length_take; unfold HWADDR in *; lia). by rewrite take_take, Nat.min_id.
Qed.

(** [update_r_entry]'s criterion, as [check_r_entry] applies it: a newer
    broadcast id, or the same one over a path that is not longer. *)
Definition better (fr : odr_frame) (e : r_entry) : Prop :=
  broadcast_id fr > r_broadcast_id e \/
  (broadcast_id fr = r_broadcast_id e /\ hop_count fr + 1 <= no_hops e).

#[export] Instance better_dec fr e : Decision (better fr e).
Proof. unfold better. solve_decision. Defined.

Lemma wp_check_r_entry fr x e T sip intf nhop (Q : Z -> node -> Prop) s :
  rt_rep (rt s) T -> T !! sip = Some (x, e) -> upd_ok fr sip nhop ->
  (better fr e -> forall e' d, route_of fr sip intf nhop (os_time (clock s)) e' ->
     rt_rep d (<[sip := (x, e')]> T) -> Q 1 (set_rt d (set_clock (S (clock s)) s))) ->
  (~ better fr e -> Q 0 s) ->
  wp (check_r_entry fr x intf nhop) Q s.
Proof.
  intros HT Hx Hok Hb Hnb. unfold check_r_entry.
  destruct (rt_rep_load _ _ _ _ _ HT Hx) as (n & Hn & <-).
  pose proof (rt_rep_ok _ _ _ _ _ HT Hx) as [_ Hl1 Hl2].
  assert (better fr (dval n) ->
          wp (update_r_entry fr x intf nhop;; mret 1) Q s) as Hupd.
  { intros B. wp_step. eapply wp_update_r_entry; [done..|]. intros e' d He' Hst. wp_step.
    eapply Hb; [done|exact He'|].
    destruct (rt_rep_store _ _ _ _ _ e' HT Hx) as (d' & Hst' & Hd'); [by apply He'|].
    congruence. }
  wp_step. eapply wp_rt_load; [exact Hn|]. cbn beta. rewrite Z.gtb_ltb.
  destruct (Z.ltb_spec (r_broadcast_id (dval n)) (broadcast_id fr)) as [H1|H1].
  { apply Hupd. left. lia. }
  wp_step.
  destruct (Z.eqb_spec (broadcast_id fr) (r_broadcast_id (dval n))) as [H2|H2].
  - wp_step. eapply wp_lift; [unfold int_add; by rewrite (upd_cnt _ _ _ Hok)|]. wp_step.
    destruct (Z.leb_spec (hop_count fr + 1) (no_hops (dval n))) as [H3|H3].
    + apply Hupd. by right.
    + wp_step. apply Hnb. unfold better. lia.
  - wp_steps. apply Hnb. unfold better. lia.
Qed.

Lemma wp_insert_r_entry fr T sip intf nhop (Q : Z * loc -> node -> Prop) s :
  rt_rep (rt s) T -> T !! sip = None -> upd_ok fr sip nhop ->
  (forall x e d, route_of fr sip intf nhop (os_time (clock s)) e ->
     rt_rep d (<[sip := (x, e)]> T) -> Q (1, x) (set_rt d (set_clock (S (clock s)) s))) ->
  wp (insert_r_entry fr intf nhop) Q s.
Proof.
  intros HT Hx Hok HQ. unfold insert_r_entry. wp_step. wp_step. cbn beta.
  destruct (dalloc (rt s) zero_entry) as [x d1] eqn:Ea.
  assert (d1 = (dalloc (rt s) zero_entry).2 /\ x = dbrk (rt s)) as [Hd1 Hx1]
    by (rewrite Ea; by injection Ea).
  wp_steps.
  assert (deref (dheap d1) x = Def (mkDnode zero_entry None None)) as Hz.
  { apply deref_Some. rewrite Hd1, Hx1. cbn. by rewrite lookup_insert_eq. }
  eapply wp_update_r_entry; [exact Hz | reflexivity | reflexivity | done |].
  intros e d He Hst. cbn beta. cbn [Z.ltb Z.compare]. wp_steps.
  cbn [rt set_rt] in Hst. pose proof (dalloc_store (rt s) zero_entry e) as Hst'.
  rewrite <- Hd1 in Hst'. change ((dalloc (rt s) zero_entry).1) with (dbrk (rt s)) in Hst'.
  rewrite <- Hx1, Hst in Hst'. injection Hst' as ->.
  destruct (rt_rep_insert (rt s) T sip e HT Hx) as (d' & Hl & Hd'); [by apply He|].
  rewrite <- Hx1 in Hl, Hd'.
  eapply wp_lift; [exact Hl|]. wp_steps. by eapply HQ.
Qed.

(** The table after a lookup of [ip] at time [t]: an expired route is
    dropped. *)
Definition purge (stale : Z) (t : timeval) (flag : Z) (ip : buf) (T : routes) : routes :=
  match T !! ip with
  | Some (_, e) => if entry_expired stale t flag e then delete ip T else T
  | None => T
  end.

(** The clock is only read when the table has entries. *)
Definition tick (T : routes) (c : nat) : nat := if decide (T = ∅) then c else S c.

(** What a lookup of [ip] returned, against the table [T] it left. *)
Definition found (T : routes) (ip : buf) (r : Z) (p : option loc) : Prop :=
  match T !! ip with
  | Some (x, _) => r = 1 /\ p = Some x
  | None => r <= 0 /\ p = None
  end.

Lemma purge_ne stale t flag ip k T : k <> ip -> purge stale t flag ip T !! k = T !! k.
Proof.
  intros Hk. unfold purge. destruct (T !! ip) as [[x e]|]; [|done].
  destruct (entry_expired _ _ _ _); [|done]. by rewrite lookup_delete_ne.
Qed.

Lemma purge_subseteq stale t flag ip T : purge stale t flag ip T ⊆ T.
Proof.
  unfold purge. destruct (T !! ip) as [[x e]|]; [|done].
  destruct (entry_expired _ _ _ _); [|done]. apply delete_subseteq.
Qed.

(** [get_r_entry] is the map's lookup, after the removal of the route if it
    has expired. *)
Lemma wp_get_r_entry b ip flag T (Q : Z * option loc -> node -> Prop) s :
  rt_rep (rt s) T -> cstr b = Some ip ->
  (let T' := purge (stale_param s) (os_time (clock s)) flag ip T in
   forall r p d, rt_rep d T' -> found T' ip r p ->
     Q (r, p) (set_rt d (set_clock (tick T (clock s)) s))) ->
  wp (get_r_entry b flag) Q s.
Proof.
  intros HT Hb HQ. unfold get_r_entry. wp_step. wp_step. cbn beta. cbv zeta in HQ.
  destruct (dhead (rt s)) as [h|] eqn:Hh.
  - wp_step. unfold gettimeofday, wp at 1. cbn beta.
    wp_step. eapply wp_lift; [by eapply rt_find_ip|]. cbn beta.
    unfold tick in HQ. rewrite decide_False in HQ.
    2: { intros HE. apply (rt_rep_head _ _ HT) in HE. by rewrite Hh in HE. }
    assert (forall c, set_rt (rt s) (set_clock c s) = set_clock c s) as Hid by (by destruct s).
    unfold found, purge in HQ.
    destruct (T !! ip) as [[x e]|] eqn:E; cbn [fmap option_fmap option_map fst].
    + destruct (rt_rep_load _ _ _ _ _ HT E) as (n & Hn & <-).
      wp_step. eapply wp_rt_load; [exact Hn|]. wp_steps. cbn [stale_param set_clock].
      destruct (entry_expired _ _ _ _) eqn:Ex.
      * destruct (rt_rep_unlink _ _ _ _ _ HT E) as (d' & Hun & Hd').
        wp_step. eapply wp_lift; [exact Hun|]. wp_steps. apply HQ; [done|].
        by rewrite lookup_delete_eq.
      * wp_step. rewrite <- Hid. apply HQ; [done|]. by rewrite E.
    + wp_step. rewrite <- Hid. apply HQ; [done|]. by rewrite E.
  - wp_step. assert (T = ∅) as -> by (by apply (rt_rep_head (rt s))).
    specialize (HQ 0 None (rt s)). unfold tick in HQ. rewrite decide_True in HQ by done.
    destruct s; cbn in *. apply HQ; [done|]. unfold found, purge.
    by rewrite !lookup_empty.
Qed.

Lemma wp_is_broadid_greater b ip bid T (Q : Z -> node -> Prop) s :
  rt_rep (rt s) T -> cstr b = Some ip ->
  Q (match T !! ip with
     | Some (_, e) => if bid <=? r_broadcast_id e then -1 else 1
     | None => 1
     end) s ->
  wp (is_broadid_greater b bid) Q s.
Proof.
  intros HT Hb HQ. unfold is_broadid_greater. wp_step. wp_step. cbn beta.
  destruct (dhead (rt s)) as [h|] eqn:Hh.
  2: { wp_step. assert (T = ∅) as -> by (by apply (rt_rep_head (rt s))).
       by rewrite lookup_empty in HQ. }
  destruct HT as (kl & Hd & Hok & Hnd & HT).
  wp_step. eapply wp_lift.
  { apply (rt_find _ T kl _ (fun e => bool_decide (cstr (destip e) = Some ip) &&
                                     (r_broadcast_id e >=? bid)) Hd Hok).
    intros k e He. rewrite (streq_entry k e b ip) by done. rewrite chk_bind_Def.
    do 2 f_equal. apply bool_decide_ext. rewrite (entry_ip _ _ He). naive_solver. }
  wp_step.
  assert ((match T !! ip with
           | Some (_, e) => if bid <=? r_broadcast_id e then -1 else 1
           | None => 1
           end) = match fst ∘ snd ∘ snd <$> list_find (fun e =>
                    bool_decide (cstr (destip e.2.2) = Some ip) &&
                    (r_broadcast_id e.2.2 >=? bid) = true) kl with
                  | Some _ => -1 | None => 1 end) as <-; [|done].
  destruct (list_find _ kl) as [[i [k [y f]]]|] eqn:E; cbn.
  - apply list_find_Some in E as (Hi & Hp & _). cbn in Hp.
    apply andb_true_iff in Hp as [Hp1 Hp2]. apply bool_decide_eq_true in Hp1.
    assert ((k, (y, f)) ∈ kl) as Hin by (by eapply list_elem_of_lookup_2).
    rewrite Forall_forall in Hok. pose proof (Hok _ Hin) as Hf. cbn in Hf.
    rewrite (entry_ip _ _ Hf) in Hp1. injection Hp1 as ->.
    rewrite HT, (elem_of_list_to_map_1 kl ip (y, f)) by done.
    rewrite Z.geb_leb in Hp2. by rewrite Hp2.
  - apply list_find_None in E. destruct (T !! ip) as [[y f]|] eqn:Ef; [|done].
    destruct (rt_split kl T ip y f Hnd HT Ef) as (kl1 & kl2 & -> & _).
    apply Forall_app in Hok as [_ Hok]. apply Forall_cons in Hok as [Hf _].
    apply Forall_app in E as [_ E]. apply Forall_cons in E as [E _]. cbn in E.
    rewrite (entry_ip _ _ Hf), bool_decide_eq_true_2, Z.geb_leb in E by done.
    destruct (bid <=? r_broadcast_id f); [done|done].
Qed.
End RTableSpec.

(** ** Properties *)

Section RTableProperties.
Context {os : OS}.
Implicit Types (T : routes).

(** A lookup in the routing table is a lookup in the map it represents, after the
    route has been dropped if it is stale or if the flag for rediscovery is 1 (whatever
    the broadcast ids are, against the comments at odr_functions.c:489 and
    odr_and.c:167). *)
Lemma get_r_entry_exact b ip flag T s :
  rt_rep (rt s) T -> cstr b = Some ip ->
  let T' := purge (stale_param s) (os_time (clock s)) flag ip T in
  exists r p d, get_r_entry b flag s = Ok (r, p) (set_rt d (set_clock (tick T (clock s)) s)) /\
    rt_rep d T' /\ found T' ip r p.
Proof.
  intros HT Hb T'. assert (wp (get_r_entry b flag) (fun rp s' => exists d,
    s' = set_rt d (set_clock (tick T (clock s)) s) /\ rt_rep d T' /\ found T' ip rp.1 rp.2) s)
    as (rp & s' & Hr & d & -> & Hd & Hf)%wp_run.
  { eapply wp_get_r_entry; [done..|]. intros T0 r p d Hd Hf. by exists d. }
  destruct rp as [r p]. by exists r, p, d.
Qed.

(** C13: a lookup without the flag for rediscovery is a lookup in the map that the
    routing table represents, after the route has been dropped if it is stale: the
    result is 1 with the address of the route's node when the map still has one, and
    not positive otherwise; no other route and no other variable but the clock
    changes. *)
Theorem get_r_entry_lookup b ip flag T s :
  rt_rep (rt s) T -> cstr b = Some ip -> flag <> 1 ->
  let T' := purge (stale_param s) (os_time (clock s)) 0 ip T in
  exists r p d, get_r_entry b flag s = Ok (r, p) (set_rt d (set_clock (tick T (clock s)) s)) /\
    rt_rep d T' /\ found T' ip r p.
Proof.
  intros HT Hb Hf T'. destruct (get_r_entry_exact b ip flag T s HT Hb) as (r & p & d & H).
  exists r, p, d. unfold T', purge, entry_expired in *. by rewrite (proj2 (Z.eqb_neq flag 1) Hf) in H.
Qed.

(** [check_r_entry] replaces the route to the source of a frame exactly when the frame
    has a larger broadcast id, or the same one and a path that is not longer, and
    says so in its result; otherwise it changes nothing. *)
Lemma check_r_entry_exact fr x e T sip intf nhop s :
  rt_rep (rt s) T -> T !! sip = Some (x, e) -> upd_ok fr sip nhop ->
  if decide (better fr e) then
    exists e' d, check_r_entry fr x intf nhop s = Ok 1 (set_rt d (set_clock (S (clock s)) s)) /\
      route_of fr sip intf nhop (os_time (clock s)) e' /\ rt_rep d (<[sip := (x, e')]> T)
  else check_r_entry fr x intf nhop s = Ok 0 s.
Proof.
  intros HT Hx Hu. assert (wp (check_r_entry fr x intf nhop) (fun r s' =>
    (better fr e /\ r = 1 /\ exists e' d, s' = set_rt d (set_clock (S (clock s)) s) /\
      route_of fr sip intf nhop (os_time (clock s)) e' /\ rt_rep d (<[sip := (x, e')]> T)) \/
    (~ better fr e /\ r = 0 /\ s' = s)) s) as (r & s' & Hr & Hc)%wp_run.
  { eapply wp_check_r_entry; [done..| |]; [|by right].
    intros Hb e' d He Hd. left. split; [done|]. split; [done|]. by exists e', d. }
  destruct Hc as [(Hb & -> & e' & d & -> & He & Hd)|(Hb & -> & ->)].
  - rewrite decide_True by done. by exists e', d.
  - by rewrite decide_False.
Qed.

(** C14: the policy of the routing table.  [check_r_entry] replaces the route to the
    source of a frame, and returns 1, when the frame has a larger broadcast id, or the
    same one and came a shorter way; it returns 0 and changes nothing when the frame has
    the same broadcast id and came a longer way, or an older one and came no shorter
    way. *)
Theorem check_r_entry_policy fr x e T sip intf nhop s :
  rt_rep (rt s) T -> T !! sip = Some (x, e) -> upd_ok fr sip nhop ->
  (broadcast_id fr > r_broadcast_id e \/
   broadcast_id fr = r_broadcast_id e /\ hop_count fr + 1 < no_hops e ->
   exists e' d, check_r_entry fr x intf nhop s = Ok 1 (set_rt d (set_clock (S (clock s)) s)) /\
     route_of fr sip intf nhop (os_time (clock s)) e' /\ rt_rep d (<[sip := (x, e')]> T)) /\
  (broadcast_id fr = r_broadcast_id e /\ hop_count fr + 1 > no_hops e \/
   broadcast_id fr < r_broadcast_id e /\ hop_count fr + 1 >= no_hops e ->
   check_r_entry fr x intf nhop s = Ok 0 s).
Proof.
  intros HT Hx Hu. pose proof (check_r_entry_exact fr x e T sip intf nhop s HT Hx Hu) as H. split; intros Hb.
  - rewrite decide_True in H; [done|]. unfold better. lia.
  - rewrite decide_False in H; [done|]. unfold better. lia.
Qed.

(** [insert_r_entry] adds a route for a source that has none, leaves every
    other route in place and returns 1 with the new node. *)
Theorem insert_r_entry_adds fr T sip intf nhop s :
  rt_rep (rt s) T -> T !! sip = None -> upd_ok fr sip nhop ->
  exists x e d, insert_r_entry fr intf nhop s = Ok (1, x) (set_rt d (set_clock (S (clock s)) s)) /\
    route_of fr sip intf nhop (os_time (clock s)) e /\ rt_rep d (<[sip := (x, e)]> T).
Proof.
  intros HT Hx Hu. assert (wp (insert_r_entry fr intf nhop) (fun rx s' =>
    exists e d, rx.1 = 1 /\ s' = set_rt d (set_clock (S (clock s)) s) /\
      route_of fr sip intf nhop (os_time (clock s)) e /\ rt_rep d (<[sip := (rx.2, e)]> T)) s)
    as ([r x] & s' & Hr & e & d & Hr1 & -> & He & Hd)%wp_run.
  { eapply wp_insert_r_entry; [done..|]. intros x e d He Hd. by exists e, d. }
  cbn in *. subst r. by exists x, e, d.
Qed.

(** [is_broadid_greater] returns -1 exactly when the table has a route to
    the source whose broadcast id is at least the given one, and changes
    nothing. *)
Theorem is_broadid_greater_spec b ip bid T s :
  rt_rep (rt s) T -> cstr b = Some ip ->
  exists r, is_broadid_greater b bid s = Ok r s /\
    (r = -1 <-> exists x e, T !! ip = Some (x, e) /\ bid <= r_broadcast_id e) /\
    (r = -1 \/ r = 1).
Proof.
  intros HT Hb.
  assert (wp (is_broadid_greater b bid) (fun r s' => s' = s /\
    r = match T !! ip with
        | Some (_, e) => if bid <=? r_broadcast_id e then -1 else 1
        | None => 1
        end) s) as (r & s' & Hr & -> & ->)%wp_run by (by eapply wp_is_broadid_greater).
  eexists. split; [exact Hr|]. destruct (T !! ip) as [[x e]|].
  - destruct (Z.leb_spec bid (r_broadcast_id e)); (split; [|by auto]); split; try done.
    + intros _. by exists x, e.
    + intros (y & f & [= <- <-] & ?). lia.
  - split; [|by auto]. split; [done|]. by intros (y & f & ? & _).
Qed.

(** [remove_r_entry] never removes the route it is called for: it
    removes the first route to some {e other} destination, if there is
    one. *)
Theorem remove_r_entry_other b ip T s :
  rt_rep (rt s) T -> cstr b = Some ip ->
  exists d T', remove_r_entry b s = Ok tt (set_rt d s) /\ rt_rep d T' /\
    T' !! ip = T !! ip /\
    ((T' = T /\ forall k, k <> ip -> T !! k = None) \/
     exists k, k <> ip /\ is_Some (T !! k) /\ T' = delete k T).
Proof.
  intros HT Hb. unfold remove_r_entry. erewrite bind_Ok; [|done].
  assert (set_rt (rt s) s = s) as Hid by (by destruct s).
  destruct (dhead (rt s)) as [h|] eqn:Hh.
  2: { assert (T = ∅) as -> by (by apply (rt_rep_head (rt s))).
       exists (rt s), ∅. rewrite Hid. split_and!; try done. by left. }
  pose proof HT as (kl & Hd & Hok & Hnd & HTe).
  set (P := fun e : r_entry => negb (bool_decide (cstr (destip e) = Some ip))).
  assert (dfind (rt s) (fun e => b' ← streq (destip e) b; mret (negb b'))
          = Def (fst ∘ snd ∘ snd <$> list_find (fun e => P e.2.2 = true) kl)) as Hf.
  { apply (rt_find _ T kl _ P Hd Hok).
    intros k e He. rewrite (streq_entry k e b ip) by done. rewrite chk_bind_Def. unfold P.
    do 2 f_equal. apply bool_decide_ext. rewrite (entry_ip _ _ He). naive_solver. }
  erewrite bind_Ok; [|unfold lift; by rewrite Hf].
  destruct (list_find _ kl) as [[i [k [x e]]]|] eqn:E; cbn [fmap option_fmap option_map compose fst snd].
  - apply list_find_Some in E as (Hi & Hp & _). unfold P in Hp. cbn in Hp.
    apply negb_true_iff, bool_decide_eq_false in Hp.
    assert ((k, (x, e)) ∈ kl) as Hin by (by eapply list_elem_of_lookup_2).
    rewrite Forall_forall in Hok. pose proof (Hok _ Hin) as He. cbn in He.
    rewrite (entry_ip _ _ He) in Hp.
    assert (T !! k = Some (x, e)) as Hk by (rewrite HTe; by apply elem_of_list_to_map_1).
    destruct (rt_rep_unlink _ _ _ _ _ HT Hk) as (d' & Hun & Hd').
    exists d', (delete k T). erewrite bind_Ok; [|unfold lift; by rewrite Hun].
    split_and!; try done.
    + rewrite lookup_delete_ne; [done|congruence].
    + right. exists k. split; [congruence|]. by rewrite Hk.
  - exists (rt s), T. rewrite Hid. split_and!; try done. left. split; [done|].
    intros k Hk. destruct (T !! k) as [[x e]|] eqn:Ek; [|done]. exfalso.
    apply list_find_None in E. rewrite HTe in Ek. apply elem_of_list_to_map_2 in Ek.
    rewrite Forall_forall in E, Hok. pose proof (Hok _ Ek) as He. apply (E _ Ek). unfold P. cbn in *.
    rewrite (entry_ip _ _ He). apply negb_true_iff, bool_decide_eq_false. congruence.
Qed.

(** With the staleness parameter 0, which start-up accepts, every lookup
    finds nothing: whatever the table holds, [get_r_entry] returns no route
    (the clock does not run backwards). *)
Theorem zero_staleness_no_route b ip flag T s :
  rt_rep (rt s) T -> cstr b = Some ip -> stale_param s = 0 ->
  (forall k x e, T !! k = Some (x, e) -> tv_sec (timestamp e) <= tv_sec (os_time (clock s))) ->
  exists r s', get_r_entry b flag s = Ok (r, None) s' /\ r <= 0.
Proof.
  intros HT Hb Hst Htime.
  assert (wp (get_r_entry b flag) (fun rp _ => rp.1 <= 0 /\ rp.2 = None) s)
    as ([r p] & s' & Hr & Hle & Hp)%wp_run.
  { eapply wp_get_r_entry; [done..|]. intros T' r p d _ Hf. unfold found in Hf.
    replace (T' !! ip) with (@None (loc * r_entry)) in Hf; [done|].
    unfold T', purge. destruct (T !! ip) as [[x e]|] eqn:E; [|done].
    replace (entry_expired _ _ _ _) with true; [by rewrite lookup_delete_eq|].
    symmetry. apply orb_true_iff. left. apply Z.geb_le. rewrite Hst.
    specialize (Htime _ _ _ E). lia. }
  cbn in *. subst p. by exists r, s'.
Qed.
End RTableProperties.

(** ** A table with two routes *)

Definition demo_entry (k : Z) : r_entry :=
  mkREntry (pad INET_ADDRSTRLEN (vm_ip k)) (pad (S HWADDR) (bytes [0; 12; 41; 65; 227; k])) 3 2 20
           (mkTv 1416831672 0).

Definition demo_table : dlist r_entry :=
  mkDlist (<[2%positive := mkDnode (demo_entry 1) (Some 1%positive) None]>
             {[1%positive := mkDnode (demo_entry 3) None (Some 2%positive)]})
          (Some 2%positive) 3%positive.

Definition demo_routes : routes :=
  list_to_map [(vm_ip 1, (2%positive, demo_entry 1)); (vm_ip 3, (1%positive, demo_entry 3))].

Definition demo_rt_node : node := set_stale 5 (set_rt demo_table node_init).

Lemma demo_entry_ok k : 0 <= k < 10 -> entry_ok (vm_ip k) (demo_entry k).
Proof.
  intros Hk. assert (Forall (fun k => entry_ok (vm_ip k) (demo_entry k)) (seqZ 0 10)) as H.
  { repeat (constructor; [split; by vm_compute|]). constructor. }
  rewrite Forall_forall in H. apply H. apply elem_of_seqZ. lia.
Qed.

Lemma demo_table_rep : rt_rep demo_table demo_routes.
Proof.
  eexists. split; [|split; [|split; [|reflexivity]]].
  - split.
    + split; [done|]. eexists. split; [reflexivity|]. split; [done|]. eexists. by split.
    + apply (bool_decide_eq_true_1 _). by vm_compute.
    + intros x [n Hx]. unfold demo_table in *. cbn [dheap dbrk] in *.
      apply lookup_insert_Some in Hx as [[<- _]|[_ Hx]]; [done|].
      by apply lookup_singleton_Some in Hx as [<- _].
  - repeat (constructor; [by apply demo_entry_ok|]). constructor.
  - apply (bool_decide_eq_true_1 _). by vm_compute.
Qed.

(** A request from vm1, one hop away, with a newer broadcast id. *)
Definition demo_rreq : odr_frame := demo_frame __RREQ 21 0 1 3 (chars "").
Definition demo_mac : buf := bytes [0; 12; 41; 65; 227; 7; 0; 0].

Lemma demo_upd_ok ifs : @upd_ok (demo_os ifs) demo_rreq (vm_ip 1) demo_mac.
Proof. split; [by vm_compute|by apply demo_resolves|cbn; unfold HWADDR; lia|done]. Qed.

Lemma get_r_entry_lookup_witness :
  exists r p d, @get_r_entry (demo_os (demo_ifs 2)) (lit "130.245.156.23") 0 demo_rt_node
                = Ok (r, p) (set_rt d (set_clock 1 demo_rt_node)) /\
    rt_rep d demo_routes /\ found demo_routes (vm_ip 3) r p.
Proof.
  apply (@get_r_entry_lookup (demo_os (demo_ifs 2)) (lit "130.245.156.23") (vm_ip 3) 0
           demo_routes demo_rt_node demo_table_rep); [by vm_compute|done].
Defined.

Lemma check_r_entry_policy_witness :
  exists e' d, @check_r_entry (demo_os (demo_ifs 2)) demo_rreq 2%positive 3 demo_mac demo_rt_node
               = Ok 1 (set_rt d (set_clock 1 demo_rt_node)) /\
    route_of demo_rreq (vm_ip 1) 3 demo_mac (mkTv 1416831672 0) e' /\
    rt_rep d (<[vm_ip 1 := (2%positive, e')]> demo_routes).
Proof.
  assert (demo_routes !! vm_ip 1 = Some (2%positive, demo_entry 1)) as Hx by (by vm_compute).
  apply (@check_r_entry_policy (demo_os (demo_ifs 2)) demo_rreq 2%positive (demo_entry 1) demo_routes
           (vm_ip 1) 3 demo_mac demo_rt_node demo_table_rep Hx (demo_upd_ok _)).
  left. by vm_compute.
Defined.

Lemma insert_r_entry_adds_witness :
  exists x e d, @insert_r_entry (demo_os (demo_ifs 2)) demo_rreq 3 demo_mac node_init
                = Ok (1, x) (set_rt d (set_clock 1 node_init)) /\
    route_of demo_rreq (vm_ip 1) 3 demo_mac (mkTv 1416831672 0) e /\
    rt_rep d (<[vm_ip 1 := (x, e)]> ∅).
Proof.
  exact (@insert_r_entry_adds (demo_os (demo_ifs 2)) demo_rreq ∅ (vm_ip 1) 3 demo_mac node_init
           rt_rep_empty eq_refl (demo_upd_ok _)).
Defined.

Lemma is_broadid_greater_spec_witness :
  exists r, @is_broadid_greater (lit "130.245.156.21") 20 demo_rt_node = Ok r demo_rt_node /\
    (r = -1 <-> exists x e, demo_routes !! vm_ip 1 = Some (x, e) /\ 20 <= r_broadcast_id e) /\
    (r = -1 \/ r = 1).
Proof.
  apply (is_broadid_greater_spec (lit "130.245.156.21") (vm_ip 1) 20 demo_routes demo_rt_node
           demo_table_rep).
  by vm_compute.
Defined.

Lemma remove_r_entry_other_witness :
  exists d T', remove_r_entry (lit "130.245.156.21") demo_rt_node = Ok tt (set_rt d demo_rt_node) /\
    rt_rep d T' /\ T' !! vm_ip 1 = demo_routes !! vm_ip 1 /\
    ((T' = demo_routes /\ forall k, k <> vm_ip 1 -> demo_routes !! k = None) \/
     exists k, k <> vm_ip 1 /\ is_Some (demo_routes !! k) /\ T' = delete k demo_routes).
Proof.
  apply (remove_r_entry_other (lit "130.245.156.21") (vm_ip 1) demo_routes demo_rt_node
           demo_table_rep).
  by vm_compute.
Defined.

Lemma zero_staleness_no_route_witness :
  exists r s', @get_r_entry (demo_os (demo_ifs 2)) (lit "130.245.156.23") 0 (set_stale 0 demo_rt_node)
               = Ok (r, None) s' /\ r <= 0.
Proof.
  apply (@zero_staleness_no_route (demo_os (demo_ifs 2)) (lit "130.245.156.23") (vm_ip 3) 0
           demo_routes (set_stale 0 demo_rt_node) demo_table_rep).
  - by vm_compute.
  - reflexivity.
  - intros k x e H. apply elem_of_list_to_map_2 in H.
    apply elem_of_cons in H as [[= _ _ ->]|H]; [done|].
    by apply list_elem_of_singleton in H as [= _ _ ->].
Defined.
