(* ===== verification/Print.v ===== *)
(** * Printing the routing table

    [print_routing_table] of odr_functions.c, as the text it writes.  The
    conversion of a time to a date is the operating system's. *)

From S2P Require Import Prelude CLib Inet Frame DList Node Demo Utils RTable.

(** ["%<n>s"]: right-justified, never truncated. *)
Definition padl (n : nat) (s : buf) : buf := replicate (n - length s) " "%char ++ s.
(** ["%06d"] of a number that is not negative. *)
Definition zpad6 (z : Z) : buf := replicate (6 - length (print_int z)) "0"%char ++ print_int z.

Definition rule : buf :=
  chars "-----------------------------------------------" ++
  chars "----------------------------------------------------" ++ [byte_of_Z 10].

Definition table_head : buf :=
  [byte_of_Z 10] ++
  chars "================================ ODR Routing Table " ++
  chars "===================================================" ++ [byte_of_Z 10] ++
  rule ++
  chars "| " ++ padl 15 (chars "destination ip") ++ chars " | " ++ padl 20 (chars "next hop") ++
  chars " | " ++ padl 5 (chars "ifno") ++ chars " | " ++ padl 5 (chars "hops") ++ chars " | " ++
  padl 5 (chars "b_id") ++ chars " | " ++ padl 30 (chars "timestamp") ++ chars " |" ++
  [byte_of_Z 10] ++ rule.

Section Print.
Context {os : OS}.

(** [snprintf(buf, 64, "%s.%06d", ...)]. *)
Definition print_time (t : timeval) : buf :=
  take 63 (os_localtime (tv_sec t) ++ "."%char :: zpad6 (tv_usec t)).

Definition print_entry (e : r_entry) : chk buf :=
  ip ← need_str (destip e);
  mac ← print_mac (next_hop e);
  mret (chars "| " ++ padl 15 ip ++ chars " |    " ++ mac ++
        chars "| " ++ padl 5 (print_int (if_no e)) ++ chars " | " ++
        padl 5 (print_int (no_hops e)) ++ chars " | " ++
        padl 5 (print_int (r_broadcast_id e)) ++ chars " | " ++
        padl 30 (print_time (timestamp e)) ++ chars " |" ++ [byte_of_Z 10]).

Fixpoint print_entries (l : list r_entry) : chk buf :=
  match l with
  | [] => mret []
  | e :: l' => a ← print_entry e; r ← print_entries l'; mret (a ++ r)
  end.

Definition print_routing_table : MN buf :=
  d ← gets rt;
  match dhead d with
  | None => mret ([byte_of_Z 10] ++ chars "Routing table Empty" ++ [byte_of_Z 10])
  | Some _ =>
      l ← lift (dwalk d);
      rows ← lift (print_entries l);
      mret (table_head ++ rows ++ rule)
  end.

(** ** Lemmas *)

Lemma print_mac_Def m : (HW_ADDR <= length m)%nat -> exists t, print_mac m = Def t.
Proof.
  intros Hm. unfold print_mac, HW_ADDR in *.
  do 6 (destruct m as [|? m]; [cbn in Hm; lia|]). by eexists.
Qed.

(** The row of a route. *)
Lemma print_entry_Def k e :
  entry_ok k e -> exists t, print_entry e = Def (chars "| " ++ padl 15 k ++ t).
Proof.
  intros [Hk _ Hl]. unfold print_entry. rewrite (need_str_Some _ _ Hk), chk_bind_Def.
  destruct (print_mac_Def (next_hop e)) as [t ->]; [rewrite Hl; unfold HW_ADDR, HWADDR; lia|].
  rewrite chk_bind_Def. eexists. done.
Qed.

Lemma print_entries_Def kl :
  Forall (fun '(k, (_, e)) => entry_ok k e) (kl : list (buf * (loc * r_entry))) ->
  exists ts, print_entries kl.*2.*2 = Def (concat (zip_with (fun k t => chars "| " ++ padl 15 k ++ t) kl.*1 ts))
    /\ length ts = length kl.
Proof.
  induction 1 as [|[k [x e]] kl He _ (ts & IH & Hl)]; [by exists []|].
  destruct (print_entry_Def k e He) as [t Ht]. exists (t :: ts). cbn.
  rewrite Ht, chk_bind_Def, IH, chk_bind_Def. split; [done|]. by rewrite Hl.
Qed.

(** ** Property *)

(** Printing the table ends and changes nothing; it writes one row per
    route, each beginning with the destination, and every route of the table
    has its row. *)
Theorem print_routing_table_rows T s :
  rt_rep (rt s) T -> T <> ∅ ->
  exists ks ts, print_routing_table s
    = Ok (table_head ++ concat (zip_with (fun k t => chars "| " ++ padl 15 k ++ t) ks ts) ++ rule) s /\
    length ts = length ks /\ NoDup ks /\ (forall k, k ∈ ks <-> is_Some (T !! k)).
Proof.
  intros HT Hne. pose proof HT as (kl & Hd & Hok & Hnd & HTe).
  destruct (dhead (rt s)) as [h|] eqn:Hh; [|exfalso; by apply Hne, (rt_rep_head (rt s) T HT)].
  destruct (print_entries_Def kl Hok) as (ts & Hts & Hl).
  exists kl.*1, ts. unfold print_routing_table. erewrite bind_Ok; [|done]. rewrite Hh.
  erewrite bind_Ok; [|unfold lift; by rewrite (dwalk_spec _ _ _ Hd)].
  erewrite bind_Ok; [|unfold lift; by rewrite Hts]. split; [done|].
  split; [by rewrite length_fmap|]. split; [done|]. intros k. rewrite HTe.
  split.
  - intros Hk. destruct (list_to_map kl !! k) eqn:E; [by eexists|].
    by apply not_elem_of_list_to_map_2 in E.
  - intros [v Hv]. apply elem_of_list_to_map_2 in Hv. apply list_elem_of_fmap. by exists (k, v).
Qed.

Lemma wp_print_routing_table T (Q : buf -> node -> Prop) s :
  rt_rep (rt s) T -> (forall t, Q t s) -> wp print_routing_table Q s.
Proof.
  intros (kl & Hd & Hok & _ & _) HQ. unfold print_routing_table. wp_steps.
  destruct (dhead (rt s)); [|by wp_step].
  wp_step. eapply wp_lift; [by eapply dwalk_spec|].
  destruct (print_entries_Def kl Hok) as (ts & Hts & _).
  wp_step. eapply wp_lift; [exact Hts|]. by wp_step.
Qed.
End Print.

Lemma print_routing_table_rows_witness :
  exists ks ts, @print_routing_table (demo_os (demo_ifs 2)) demo_rt_node
    = Ok (table_head ++ concat (zip_with (fun k t => chars "| " ++ padl 15 k ++ t) ks ts) ++ rule)
         demo_rt_node /\
    length ts = length ks /\ NoDup ks /\ (forall k, k ∈ ks <-> is_Some (demo_routes !! k)).
Proof.
  apply (@print_routing_table_rows (demo_os (demo_ifs 2)) demo_routes demo_rt_node demo_table_rep).
  intros H. apply (f_equal (fun m => m !! vm_ip 1)) in H. by vm_compute in H.
Defined.
