(* ===== verification/PQueue.v ===== *)
(** * The queue of parked messages

    odr_functions.c: [insert_pending_queue] and [lookup_pending_queue].  Frames
    that wait for a route are kept in a doubly linked list, newest first, with
    the address they wait for; looking an address up removes the newest frame
    parked for it.  [pq_rep] relates the list to the sequence of (address,
    frame) pairs. *)

From S2P Require Import Prelude CLib Inet Frame DList Node Demo Utils.

Section PQueue.
Context {os : OS}.

Definition insert_pending_queue (fr : odr_frame) (ip : buf) : MN Z :=
  dip ← lift (strncpy (replicate INET_ADDRSTRLEN NUL) ip INET_ADDRSTRLEN);
  d ← gets pq;
  let '(x, d1) := dalloc d (mkPending dip fr) in
  d2 ← lift (dlink d1 x);
  modify (set_pq d2);;
  mret 0.

Definition lookup_pending_queue (ip : buf) : MN (option odr_frame) :=
  d ← gets pq;
  match dhead d with
  | None => mret None
  | Some h =>
      r ← lift (dfind d (fun v => streq (p_destip v) ip));
      match r with
      | None => mret None
      | Some curr =>
          n ← lift (deref (dheap d) curr);
          if decide (curr = h) then
            modify (set_pq (mkDlist (<[curr := set_next n None]> (dheap d)) (dnext n) (dbrk d)));;
            mret (Some (odrframe (dval n)))
          else
            m ← lift (dbypass (dheap d) curr);
            modify (set_pq (mkDlist m (dhead d) (dbrk d)));;
            mret (Some (odrframe (dval n)))
      end
  end.
End PQueue.

(** ** The sequence the queue represents *)

Abbreviation pending := (list (buf * odr_frame)).

Definition pending_ok (xv : loc * pending_msg) (kf : buf * odr_frame) : Prop :=
  cstr (p_destip xv.2) = Some kf.1 /\ odrframe xv.2 = kf.2.

(** The [prev] link of the head is arbitrary: removing the head leaves the next
    node's [prev] as it was. *)
Definition pq_rep (d : dlist pending_msg) (q : pending) : Prop :=
  exists p l, drep d p l /\ Forall2 pending_ok l q.

(** Take the first frame parked for [ip]. *)
Fixpoint pq_take (ip : buf) (q : pending) : option odr_frame * pending :=
  match q with
  | [] => (None, [])
  | (k, f) :: q' =>
      if decide (k = ip) then (Some f, q')
      else let '(r, q'') := pq_take ip q' in (r, (k, f) :: q'')
  end.

Lemma pq_rep_empty : pq_rep dempty [].
Proof.
  exists None, []. split; [|constructor]. split; [done | constructor |].
  intros x [n Hn]. cbn in Hn. by rewrite lookup_empty in Hn.
Qed.

Lemma pq_take_None ip q : ip ∉ q.*1 -> pq_take ip q = (None, q).
Proof.
  induction q as [|[k f] q IH]; cbn; [done|]. intros [Hk Hq]%not_elem_of_cons.
  rewrite decide_False by congruence. by rewrite IH.
Qed.

Lemma pq_take_app ip q1 f q2 :
  ip ∉ q1.*1 -> pq_take ip (q1 ++ (ip, f) :: q2) = (Some f, q1 ++ q2).
Proof.
  induction q1 as [|[k g] q1 IH]; cbn.
  - intros _. by rewrite decide_True.
  - intros [Hk Hq]%not_elem_of_cons. rewrite decide_False by congruence. by rewrite IH.
Qed.

Section PQueueSpec.
Context {os : OS}.

Lemma wp_insert_pending_queue fr b ip q (Q : Z -> node -> Prop) s :
  pq_rep (pq s) q -> cstr b = Some ip -> (length ip < INET_ADDRSTRLEN)%nat ->
  (forall d, pq_rep d ((ip, fr) :: q) -> Q 0 (set_pq d s)) ->
  wp (insert_pending_queue fr b) Q s.
Proof.
  intros (p & l & Hd & Hl) Hb Hlen HQ. unfold insert_pending_queue.
  destruct (strncpy_Some (replicate INET_ADDRSTRLEN NUL) b ip INET_ADDRSTRLEN Hb Hlen)
    as (dip & Hdip & Hc & _); [by rewrite length_replicate|].
  wp_step. eapply wp_lift; [exact Hdip|]. wp_step. wp_step. cbn beta.
  set (v := mkPending dip fr).
  destruct (dpush_spec (pq s) p l v Hd) as (d' & Hl' & Hd').
  destruct (dalloc (pq s) v) as [x d1] eqn:Ea. cbn [fst snd] in Hl'.
  wp_step. eapply wp_lift; [exact Hl'|]. wp_steps. apply HQ.
  exists None. eexists. split; [exact Hd'|]. constructor; [|done]. done.
Qed.

(** The queue search is [list_find] on the represented sequence. *)
Lemma pq_find d q b ip :
  pq_rep d q -> cstr b = Some ip ->
  ((ip ∉ q.*1) /\ dfind d (fun v => streq (p_destip v) b) = Def None) \/
  exists p l1 x v l2 q1 f q2,
    drep d p (l1 ++ (x, v) :: l2) /\ q = q1 ++ (ip, f) :: q2 /\ (ip ∉ q1.*1) /\
    Forall2 pending_ok l1 q1 /\ Forall2 pending_ok l2 q2 /\ odrframe v = f /\
    dfind d (fun v => streq (p_destip v) b) = Def (Some x).
Proof.
  intros (p & l & Hd & Hl) Hb.
  rewrite (dfind_spec _ (fun v => bool_decide (cstr (p_destip v) = Some ip)) d p l Hd).
  2: { clear Hd. induction Hl as [|[x v] [k f] l q [Hk _] _ IH]; constructor; [|done].
       cbn in *. rewrite (streq_Some _ _ _ _ Hk Hb). f_equal. apply bool_decide_ext.
       rewrite Hk. naive_solver. }
  destruct (list_find _ l) as [[i [x v]]|] eqn:E; cbn.
  - right. apply list_find_Some in E as (Hi & Hp & Hbefore). cbn in Hp.
    apply bool_decide_eq_true in Hp.
    pose proof (list_elem_of_split_length _ _ _ Hi) as (l1 & l2 & -> & Hlen).
    apply Forall2_app_inv_l in Hl as (q1 & q2 & Hl1 & Hl2 & ->).
    inversion Hl2 as [|? [k f] ? q2' [Hk Hf] Hl2']; subst. cbn in *.
    rewrite Hk in Hp. injection Hp as ->.
    exists p, l1, x, v, l2, q1, f, q2'. split_and!; try done.
    intros Hin. apply list_elem_of_fmap in Hin as ([k g] & Heq & Hin). cbn in Heq. subst k.
    apply list_elem_of_lookup in Hin as [j Hj].
    destruct (Forall2_lookup_r _ _ _ _ _ Hl1 Hj) as ([y w] & Hy & [Hyk _]). cbn in Hyk.
    apply (Hbefore j (y, w)).
    + by apply lookup_app_l_Some.
    + by apply lookup_lt_Some in Hy.
    + cbn. by apply bool_decide_eq_true_2.
  - left. split; [|done]. apply list_find_None in E.
    intros Hin. apply list_elem_of_fmap in Hin as ([k g] & Heq & Hin). cbn in Heq. subst k.
    apply list_elem_of_lookup in Hin as [j Hj].
    destruct (Forall2_lookup_r _ _ _ _ _ Hl Hj) as ([y w] & Hy & [Hyk _]). cbn in Hyk.
    rewrite Forall_lookup in E. apply (E j (y, w) Hy). cbn. by apply bool_decide_eq_true_2.
Qed.

Lemma wp_lookup_pending_queue b ip q (Q : option odr_frame -> node -> Prop) s :
  pq_rep (pq s) q -> cstr b = Some ip ->
  (forall d, pq_rep d (pq_take ip q).2 -> Q (pq_take ip q).1 (set_pq d s)) ->
  wp (lookup_pending_queue b) Q s.
Proof.
  intros Hq Hb HQ. unfold lookup_pending_queue. wp_step. wp_step. cbn beta.
  assert (set_pq (pq s) s = s) as Hid by (by destruct s).
  destruct (pq_find _ _ _ _ Hq Hb) as [[Hn Hf]|(p&l1&x&v&l2&q1&f&q2&Hd&->&Hn&H1&H2&Hv&Hf)].
  - rewrite pq_take_None in HQ by done. cbn in HQ. specialize (HQ _ Hq). rewrite Hid in HQ.
    destruct (dhead (pq s)); [|by wp_step].
    wp_step. eapply wp_lift; [exact Hf|]. cbn beta iota. by wp_step.
  - rewrite pq_take_app in HQ by done. cbn [fst snd] in HQ.
    destruct l1 as [|[y w] l1 _] using rev_ind.
    + inversion H1; subst. pose proof Hd as [Hs Hnd Hbrk]. cbn in Hs.
      destruct Hs as (-> & nx & Hx & Hs).
      wp_step. eapply wp_lift; [exact Hf|]. cbn beta iota.
      wp_step. eapply wp_lift; [by apply deref_Some|]. cbn beta.
      rewrite decide_True by done. wp_steps. apply HQ.
      exists (Some x), l2. split; [|done].
      apply NoDup_cons in Hnd as [Hxl Hnd]. split; cbn.
      * by apply dseg_insert_ne.
      * done.
      * intros z [n Hz]. apply Hbrk. destruct (decide (z = x)) as [->|]; [by eexists|].
        rewrite lookup_insert_ne in Hz by done. by eexists.
    + pose proof Hd as [Hs Hnd _]. rewrite <- app_assoc in Hd. cbn in Hd.
      assert (exists h, dhead (pq s) = Some h /\ x <> h) as (h & Hh & Hne).
      { rewrite fmap_app in Hnd. apply NoDup_app in Hnd as (_ & Hdis & _).
        destruct l1 as [|[z u] l1]; cbn in Hs; destruct Hs as [Hh _]; eexists;
          (split; [exact Hh|]); intros ->; eapply Hdis; by left. }
      rewrite Hh. destruct (dbypass_mid _ _ _ _ _ _ _ _ Hd) as (nx & m' & Hx & Hm & Hr & _).
      wp_step. eapply wp_lift; [exact Hf|]. cbn beta iota.
      wp_step. eapply wp_lift; [by apply deref_Some|]. cbn beta.
      rewrite decide_False by done.
      wp_step. eapply wp_lift; [exact Hm|]. wp_steps. cbn [dval]. rewrite Hv. apply HQ.
      exists p. eexists. rewrite <- Hh. split; [exact Hr|].
      apply Forall2_app_inv_l in H1 as (q1' & q1'' & H1' & H1'' & ->).
      inversion H1'' as [|? ? ? ? Hyw Hnil]; subst. inversion Hnil; subst.
      rewrite <- app_assoc. apply Forall2_app; [done|]. by constructor.
Qed.
End PQueueSpec.

(** ** Properties *)

Section PQueueProperties.
Context {os : OS}.

(** C17: the pending queue is a stack per destination: a lookup returns the
    newest frame parked for the address, or nothing, removes just that frame,
    and keeps the others in order. *)
Theorem pending_queue_take b ip q s :
  pq_rep (pq s) q -> cstr b = Some ip ->
  exists d, lookup_pending_queue b s = Ok (pq_take ip q).1 (set_pq d s) /\
    pq_rep d (pq_take ip q).2.
Proof.
  intros Hq Hb. assert (wp (lookup_pending_queue b) (fun r s' => exists d,
    s' = set_pq d s /\ r = (pq_take ip q).1 /\ pq_rep d (pq_take ip q).2) s)
    as (r & s' & Hr & d & -> & -> & Hd)%wp_run.
  { eapply wp_lookup_pending_queue; [done..|]. intros d Hd. by exists d. }
  by exists d.
Qed.

(** What is parked comes out again: inserting a frame for an address and
    looking the address up returns that very frame and leaves the queue as it
    was before. *)
Theorem park_then_release fr b ip q s :
  pq_rep (pq s) q -> cstr b = Some ip -> (length ip < INET_ADDRSTRLEN)%nat ->
  exists s1 s2, insert_pending_queue fr b s = Ok 0 s1 /\
    lookup_pending_queue b s1 = Ok (Some fr) s2 /\ pq_rep (pq s2) q.
Proof.
  intros Hq Hb Hl. assert (wp (insert_pending_queue fr b) (fun r s1 => r = 0 /\
    wp (lookup_pending_queue b) (fun p s2 => p = Some fr /\ pq_rep (pq s2) q) s1) s)
    as (r & s1 & Hr & -> & (p & s2 & Hp & -> & Hq2)%wp_run)%wp_run.
  { eapply wp_insert_pending_queue; [done..|]. intros d Hd. split; [done|].
    eapply wp_lookup_pending_queue; [exact Hd|exact Hb|]. cbn [pq_take].
    rewrite decide_True by done. intros d' Hd'. done. }
  by exists s1, s2.
Qed.
End PQueueProperties.

(** Two frames for vm3 and one for vm1. *)
Definition demo_parking : MN Z :=
  insert_pending_queue (demo_frame __DATA 1 0 2 3 (chars "a")) (lit "130.245.156.23");;
  insert_pending_queue (demo_frame __DATA 1 0 2 1 (chars "b")) (lit "130.245.156.21");;
  insert_pending_queue (demo_frame __DATA 1 0 2 3 (chars "c")) (lit "130.245.156.23").

Definition demo_pending : node :=
  match demo_parking node_init with Ok _ s => s | _ => node_init end.

Definition demo_parked : pending :=
  [(vm_ip 3, demo_frame __DATA 1 0 2 3 (chars "c")); (vm_ip 1, demo_frame __DATA 1 0 2 1 (chars "b"));
   (vm_ip 3, demo_frame __DATA 1 0 2 3 (chars "a"))].

Lemma demo_pending_rep : pq_rep (pq demo_pending) demo_parked.
Proof.
  assert (wp demo_parking (fun _ s => pq_rep (pq s) demo_parked) node_init) as H.
  { unfold demo_parking. wp_step.
    eapply (wp_insert_pending_queue _ _ (vm_ip 3)); [exact pq_rep_empty|reflexivity|apply Nat.ltb_lt; reflexivity|].
    intros d1 H1. wp_step. eapply (wp_insert_pending_queue _ _ (vm_ip 1)); [exact H1|reflexivity|apply Nat.ltb_lt; reflexivity|].
    intros d2 H2. eapply (wp_insert_pending_queue _ _ (vm_ip 3)); [exact H2|reflexivity|apply Nat.ltb_lt; reflexivity|].
    intros d3 H3. exact H3. }
  unfold demo_pending, wp in *. by destruct (demo_parking node_init).
Qed.

Lemma pending_queue_take_witness :
  exists d, lookup_pending_queue (lit "130.245.156.23") demo_pending
            = Ok (Some (demo_frame __DATA 1 0 2 3 (chars "c"))) (set_pq d demo_pending) /\
    pq_rep d (tail demo_parked).
Proof.
  exact (pending_queue_take (lit "130.245.156.23") (vm_ip 3) demo_parked demo_pending
           demo_pending_rep eq_refl).
Defined.

Lemma park_then_release_witness :
  exists s1 s2, insert_pending_queue (demo_frame __DATA 1 0 2 1 (chars "d")) (lit "130.245.156.21")
                  demo_pending = Ok 0 s1 /\
    lookup_pending_queue (lit "130.245.156.21") s1
      = Ok (Some (demo_frame __DATA 1 0 2 1 (chars "d"))) s2 /\ pq_rep (pq s2) demo_parked.
Proof.
  apply (park_then_release _ (lit "130.245.156.21") (vm_ip 1) _ _ demo_pending_rep eq_refl).
  apply Nat.ltb_lt. reflexivity.
Defined.
