(* ===== verification/Send.v ===== *)
(** * Sending

    odr_functions.c: the raw Ethernet transmission ([send_raw_frame]), the
    flood of route requests ([send_req_broadcast]), route replies
    ([send_rrep_packet]), application data ([send_data_message]) and delivery to
    a local process ([send_to_peer_process], [process_data_message]).  Console
    output is not modelled; what it can break is (the name copied for it may
    not fit its buffer, or not exist). *)

From S2P Require Import Prelude CLib Inet Frame DList Node Demo Utils Ports RTable PQueue.

Definition ETH_P_IP_NET : Z := 8.     (** htons(ETH_P_IP) *)
Definition ARPHRD_ETHER : Z := 1.
Definition PACKET_OTHERHOST : Z := 3.
Definition SUN_PATH_UN : nat := 108.  (** size of [sun_path] in [sockaddr_un] *)

(** [send_params_t]. *)
Record send_params := mkSendParams {
  sp_destip : buf;
  sp_filename : buf;
  sp_msg : buf;
  sp_destport : Z;
  sp_route_disc_flag : Z;
}.

Section Send.
Context {os : OS}.

Definition send_raw_frame (src_macaddr dest_macaddr : option buf) (int_index : Z)
    (fr : odr_frame) : MN Z :=
  src_mac ← convert_to_mac src_macaddr;
  dest_mac ← convert_to_mac dest_macaddr;
  let socket_address :=
    mkSll ETH_P_IP_NET int_index ARPHRD_ETHER PACKET_OTHERHOST (Z.of_nat ETH_ALEN)
          (dest_mac ++ [NUL; NUL]) in
  let buffer := eth_frame dest_mac src_mac fr in
  self ← get_self_ip;
  match self with
  | None => mret (-1)
  | Some src_ip =>
      copy_vmname src_ip;;
      sendto (SendRaw socket_address buffer)
  end.

Definition bcast_mac : buf := replicate 6 (byte_of_Z 255).

(** The loop over the interfaces. *)
Fixpoint broadcast_loop (type recvd_int_index broad_id sport dport hopcount rdisc_flag : Z)
    (dstip srcip pl : buf) (curr : list hwa_info) : MN Z :=
  match curr with
  | [] => mret 0
  | h :: curr' =>
      nm ← lift (base_if_name (if_name h));
      is_lo ← lift (streq nm (lit "lo"));
      is_eth0 ← lift (streq nm (lit "eth0"));
      if negb is_lo && negb is_eth0 && negb (if_index h =? recvd_int_index) then
        fr ← lift (construct_odr type broad_id hopcount 0 rdisc_flag sport dport dstip srcip pl);
        r ← send_raw_frame (Some (if_haddr h)) (Some bcast_mac) (if_index h) fr;
        if r <? 0 then mret (-1)
        else broadcast_loop type recvd_int_index broad_id sport dport hopcount rdisc_flag
               dstip srcip pl curr'
      else broadcast_loop type recvd_int_index broad_id sport dport hopcount rdisc_flag
             dstip srcip pl curr'
  end.

Definition send_req_broadcast (recvd_int_index broad_id sport dport hopcount rdisc_flag : Z)
    (dstip srcip pl : buf) (asent_flag : Z) : MN Z :=
  curr ← Get_hw_struct_head;
  copy_vmname srcip;;
  copy_vmname dstip;;
  let type := if asent_flag =? 1 then __ASENT else __RREQ in
  broadcast_loop type recvd_int_index broad_id sport dport hopcount rdisc_flag
    dstip srcip pl curr.

(** The second half of [send_rrep_packet]: the reply [fr] leaves through the
    interface of [entry], to its next hop. *)
Definition transmit_rrep (entry : loc) (fr : odr_frame) : MN Z :=
  e ← rt_load entry;
  src_mac ← get_hwaddr_from_int (if_no e);
  self ← get_self_ip;
  self_ip ← assert_some self;
  copy_vmname self_ip;;
  r ← send_raw_frame src_mac (Some (next_hop e)) (if_no e) fr;
  if r <? 0 then mret (-1) else mret 0.

Definition send_rrep_packet (fr : odr_frame) (entry : loc) (hopcount : Z) (swap : bool)
    : MN Z :=
  let zero := replicate INET_ADDRSTRLEN NUL in
  srcip ← lift (strncpy zero (src_ip fr) INET_ADDRSTRLEN);
  dstip ← lift (strncpy zero (dest_ip fr) INET_ADDRSTRLEN);
  '(srcport, dstport, broadid, srcip, dstip) ←
    (if swap then
       srcip' ← lift (strncpy srcip (dest_ip fr) INET_ADDRSTRLEN);
       dstip' ← lift (strncpy dstip (src_ip fr) INET_ADDRSTRLEN);
       b ← get_broadcast_id;
       mret (dst_port fr, src_port fr, b, srcip', dstip')
     else mret (src_port fr, dst_port fr, broadcast_id fr, srcip, dstip));
  fr' ← lift (construct_odr __RREP broadid hopcount (payload_len fr) 0 srcport dstport
                dstip srcip (payload fr));
  transmit_rrep entry fr'.

Definition send_data_message (srcport : Z) (sparams : send_params) (entry : loc) : MN Z :=
  self ← get_self_ip;
  match self with
  | None => mret (-1)
  | Some self_ip =>
      copy_vmname self_ip;;
      copy_vmname (sp_destip sparams);;
      e ← rt_load entry;
      fr ← lift (construct_odr __DATA (r_broadcast_id e) 0 PAYLOAD_SIZE
                   (sp_route_disc_flag sparams) srcport (sp_destport sparams)
                   (sp_destip sparams) self_ip (sp_msg sparams));
      src_mac ← get_hwaddr_from_int (if_no e);
      match src_mac with
      | None => mret (-1)
      | Some m =>
          r ← send_raw_frame (Some m) (Some (next_hop e)) (if_no e) fr;
          if r <? 0 then mret (-1) else mret 0
      end
  end.

(** ["%s,%d,%s,%d\n"] with the final route-discovery flag 0. *)
Definition peer_text (sip : buf) (sport : Z) (pl : buf) : buf :=
  sip ++ ","%char :: print_int sport ++ ","%char :: pl ++ ","%char :: print_int 0 ++
  [byte_of_Z 10].

Definition send_to_peer_process (spath srcip : buf) (srcport : Z) (pl : buf) : MN Z :=
  sip ← lift (need_str srcip);
  p ← lift (need_str pl);
  str_seq ← lift (strcpy (replicate ETH_FRAME_LEN NUL) (peer_text sip srcport p ++ [NUL]));
  path ← lift (strcpy (replicate SUN_PATH_UN NUL) spath);
  data ← lift (need_str str_seq);
  name ← lift (need_str path);
  r ← sendto (SendUnix name data);
  if r <=? 0 then mret (-1) else mret 0.

Definition process_data_message (fr : odr_frame) : MN Z :=
  self ← get_self_ip;
  match self with
  | None => mret (-1)
  | Some self_ip =>
      mine ← lift (streq (dest_ip fr) self_ip);
      if mine : bool then
        pe ← fetch_entry_port (dst_port fr);
        match pe with
        | None => mret (-1)
        | Some e =>
            r ← send_to_peer_process (sun_path e) (src_ip fr) (src_port fr) (payload fr);
            if r <? 0 then mret (-1) else mret 0
        end
      else mret 0
  end.
End Send.

(** ** What a transmission leaves behind *)

Section SendSpec.
Context {os : OS}.

Definition emit (ev : event) (s : node) : node :=
  set_outs ((ev, os_sendto (length (outs s)) ev) :: outs s) s.

(** The packet-socket event for a frame. *)
Definition raw_event (dst src : buf) (ifi : Z) (fr : odr_frame) : event :=
  SendRaw (mkSll ETH_P_IP_NET ifi ARPHRD_ETHER PACKET_OTHERHOST (Z.of_nat ETH_ALEN)
                 (take HW_ADDR dst ++ [NUL; NUL]))
          (eth_frame (take HW_ADDR dst) (take HW_ADDR src) fr).

(** Events sent in order until one fails. *)
Fixpoint emit_all (evs : list event) (s : node) : Z * node :=
  match evs with
  | [] => (0, s)
  | ev :: evs' =>
      if os_sendto (length (outs s)) ev <? 0 then (-1, emit ev s)
      else emit_all evs' (emit ev s)
  end.

(** The interfaces a flood goes out on. *)
Definition flood_if (recvd : Z) (h : hwa_info) : Prop :=
  hwa_base h <> chars "lo" /\ hwa_base h <> chars "eth0" /\ if_index h <> recvd.

#[export] Instance flood_if_dec recvd h : Decision (flood_if recvd h).
Proof. unfold flood_if. solve_decision. Defined.

Definition flood_events (recvd : Z) (fr : odr_frame) (ifs : list hwa_info) : list event :=
  (fun h => raw_event bcast_mac (if_haddr h) (if_index h) fr)
    <$> filter (flood_if recvd) ifs.

Lemma wp_send_raw_frame sm dm ifi fr ip (Q : Z -> node -> Prop) s :
  ready s ip -> resolves ip -> (HW_ADDR <= length sm)%nat -> (HW_ADDR <= length dm)%nat ->
  (let ev := raw_event dm sm ifi fr in
   Q (os_sendto (length (outs s)) ev) (emit ev s)) ->
  wp (send_raw_frame (Some sm) (Some dm) ifi fr) Q s.
Proof.
  intros [(b & Hb & Hip) _ _] Hr Hsm Hdm HQ. unfold send_raw_frame.
  wp_step. apply wp_convert_to_mac; [done|]. wp_step. apply wp_convert_to_mac; [done|].
  cbv zeta. wp_step. eapply wp_get_self_ip; [done|]. wp_step.
  eapply wp_copy_vmname; [done..|]. intros _. exact HQ.
Qed.

Lemma wp_broadcast_loop type recvd bid sp dp hop rdf dstip srcip pl fr ip ifs
    (Q : Z -> node -> Prop) s :
  ready s ip -> resolves ip -> Forall hwa_ok ifs ->
  construct_odr type bid hop 0 rdf sp dp dstip srcip pl = Def fr ->
  (let '(r, s') := emit_all (flood_events recvd fr ifs) s in Q r s') ->
  wp (broadcast_loop type recvd bid sp dp hop rdf dstip srcip pl ifs) Q s.
Proof.
  intros Hrd Hip Hifs Hfr. revert s Hrd.
  induction Hifs as [|h ifs Hh _ IH]; intros s Hrd HQ; [exact HQ|].
  cbn [broadcast_loop]. wp_step. eapply wp_lift; [by apply base_if_name_spec|].
  wp_step. eapply wp_lift; [apply if_name_test; [done | by repeat constructor]|].
  wp_step. eapply wp_lift; [apply if_name_test; [done | by repeat constructor]|].
  cbn beta. unfold flood_events in *. rewrite filter_cons in HQ.
  destruct (decide (flood_if recvd h)) as [(Hlo & Heth & Hif)|Hno].
  - rewrite !bool_decide_eq_false_2 by done. rewrite (proj2 (Z.eqb_neq _ _) Hif).
    cbn [negb andb]. wp_step. eapply wp_lift; [exact Hfr|]. wp_step.
    eapply wp_send_raw_frame; [done..| |done |].
    { rewrite (hwa_haddr_len h Hh). done. }
    cbv zeta. rewrite fmap_cons in HQ. cbn [emit_all] in HQ.
    destruct (_ <? 0); [by wp_step|]. apply IH; [exact Hrd|exact HQ].
  - destruct (bool_decide_reflect (hwa_base h = chars "lo")) as [|H1];
      [|destruct (bool_decide_reflect (hwa_base h = chars "eth0")) as [|H2];
        [|destruct (Z.eqb_spec (if_index h) recvd)]];
      cbn [negb andb]; try (by apply IH).
    exfalso. by apply Hno.
Qed.

(** The flood of [send_req_broadcast]: the same frame, once on every
    interface but the loop-back, eth0 and the one it came from. *)
Lemma wp_send_req_broadcast recvd bid sp dp hop rdf dstip srcip pl asent dip sip ip
    (Q : Z -> node -> Prop) s :
  ready s ip -> resolves ip ->
  cstr dstip = Some dip -> resolves dip -> cstr srcip = Some sip -> resolves sip ->
  (forall fr, construct_odr (if asent =? 1 then __ASENT else __RREQ) bid hop 0 rdf sp dp
                dstip srcip pl = Def fr ->
     frame_wf fr dip sip ->
     let '(r, s') := emit_all (flood_events recvd fr (hwa_struct_head s)) s in Q r s') ->
  wp (send_req_broadcast recvd bid sp dp hop rdf dstip srcip pl asent) Q s.
Proof.
  intros Hrd Hip Hd Hdr Hs Hsr HQ. unfold send_req_broadcast.
  wp_step. apply wp_Get_hw_struct_head; [by apply Hrd|].
  wp_step. eapply wp_copy_vmname; [done..|]. intros _.
  wp_step. eapply wp_copy_vmname; [done..|]. intros _. cbv zeta.
  destruct (construct_odr_ok (if asent =? 1 then __ASENT else __RREQ) bid hop 0 rdf sp dp
              dstip srcip pl dip sip []) as (fr & Hfr & Hwf & _); try done.
  { by apply resolves_length. } { by apply resolves_length. }
  { by destruct (asent =? 1). }
  eapply wp_broadcast_loop; [done | done | by apply Hrd | exact Hfr |]. by apply HQ.
Qed.

Lemma wp_transmit_rrep fr x e T k ip m (Q : Z -> node -> Prop) s :
  ready s ip -> resolves ip -> rt_rep (rt s) T -> T !! k = Some (x, e) ->
  find_hwaddr (if_no e) (hwa_struct_head s) = Some m ->
  (let ev := raw_event (next_hop e) m (if_no e) fr in
   Q (if os_sendto (length (outs s)) ev <? 0 then -1 else 0) (emit ev s)) ->
  wp (transmit_rrep x fr) Q s.
Proof.
  intros Hrd Hip HT Hx Hm HQ. unfold transmit_rrep.
  destruct (rt_rep_load _ _ _ _ _ HT Hx) as (n & Hn & <-).
  pose proof (rt_rep_ok _ _ _ _ _ HT Hx) as [_ _ Hnh].
  pose proof Hrd as [(b & Hself & Hbip) Hne Hok].
  wp_step. eapply wp_rt_load; [exact Hn|]. wp_step. apply wp_get_hwaddr_from_int; [done|].
  wp_step. eapply wp_get_self_ip; [done|]. wp_step. eapply wp_assert_some; [done|].
  wp_step. eapply wp_copy_vmname; [done..|]. intros _. wp_step. rewrite Hm.
  eapply wp_send_raw_frame; [exact Hrd | done | | rewrite Hnh; unfold HW_ADDR, HWADDR; lia |].
  { by rewrite (find_hwaddr_length _ _ _ Hok Hm). }
  cbv zeta in *. destruct (_ <? 0); by wp_step.
Qed.

(** A route reply: one frame to the neighbour of [entry]. *)
Lemma wp_send_rrep_packet fr x e T k hop (swap : bool) dip sip ip m (Q : Z -> node -> Prop) s :
  ready s ip -> resolves ip -> frame_wf fr dip sip -> resolves dip -> resolves sip ->
  rt_rep (rt s) T -> T !! k = Some (x, e) ->
  find_hwaddr (if_no e) (hwa_struct_head s) = Some m ->
  (swap = true -> INT_MIN < cur_broadcast_id s < INT_MAX) ->
  (forall fr', frame_wf fr' (if swap then sip else dip) (if swap then dip else sip) ->
     cstr (payload fr') = Some [] ->
     let bid := if swap then cur_broadcast_id s + 1 else broadcast_id fr in
     fr' = convert_host_net_order
             (mkFrame __RREP bid hop (payload_len fr) 0
                (if swap then dst_port fr else src_port fr)
                (if swap then src_port fr else dst_port fr)
                (dest_ip fr') (src_ip fr') (payload fr')) ->
     let ev := raw_event (next_hop e) m (if_no e) fr' in
     let s1 := if swap then set_bid bid s else s in
     Q (if os_sendto (length (outs s)) ev <? 0 then -1 else 0) (emit ev s1)) ->
  wp (send_rrep_packet fr x hop swap) Q s.
Proof.
  intros Hrd Hip Hwf Hdr Hsr HT Hx Hm Hb HQ. unfold send_rrep_packet. cbv zeta.
  destruct Hwf as [Hsh Hd Hs [p Hp]].
  pose proof (resolves_length _ Hdr) as Hdl. pose proof (resolves_length _ Hsr) as Hsl.
  assert (length (replicate INET_ADDRSTRLEN NUL) = INET_ADDRSTRLEN) as Hz by done.
  destruct (strncpy_Some _ (src_ip fr) sip INET_ADDRSTRLEN Hs Hsl (Nat.eq_le_incl _ _ (eq_sym Hz)))
    as (a1 & Ha1 & Hc1 & Hl1).
  destruct (strncpy_Some _ (dest_ip fr) dip INET_ADDRSTRLEN Hd Hdl (Nat.eq_le_incl _ _ (eq_sym Hz)))
    as (a2 & Ha2 & Hc2 & Hl2).
  wp_step. eapply wp_lift; [exact Ha1|]. wp_step. eapply wp_lift; [exact Ha2|]. cbn beta.
  wp_step. destruct swap.
  - destruct (strncpy_Some a1 (dest_ip fr) dip INET_ADDRSTRLEN Hd Hdl)
      as (a3 & Ha3 & Hc3 & _); [by rewrite Hl1|].
    destruct (strncpy_Some a2 (src_ip fr) sip INET_ADDRSTRLEN Hs Hsl)
      as (a4 & Ha4 & Hc4 & _); [by rewrite Hl2|].
    wp_step. eapply wp_lift; [exact Ha3|]. wp_step. eapply wp_lift; [exact Ha4|].
    wp_step. apply wp_get_broadcast_id; [by apply Hb|]. wp_step.
    destruct (construct_odr_ok __RREP (cur_broadcast_id s + 1) hop (payload_len fr) 0
                (dst_port fr) (src_port fr) a4 a3 (payload fr) sip dip p)
      as (fr' & Hfr & Hwf' & Hpl & Heq); try done.
    wp_step. eapply wp_lift; [exact Hfr|].
    eapply wp_transmit_rrep; [exact Hrd | done | exact HT | exact Hx | exact Hm |].
    exact (HQ fr' Hwf' Hpl Heq).
  - wp_step.
    destruct (construct_odr_ok __RREP (broadcast_id fr) hop (payload_len fr) 0
                (src_port fr) (dst_port fr) a2 a1 (payload fr) dip sip p)
      as (fr' & Hfr & Hwf' & Hpl & Heq); try done.
    wp_step. eapply wp_lift; [exact Hfr|].
    eapply wp_transmit_rrep; [exact Hrd | done | exact HT | exact Hx | exact Hm |].
    exact (HQ fr' Hwf' Hpl Heq).
Qed.

(** Application data over a known route. *)
Lemma wp_send_data_message sport sp x e T k ip dip msg m (Q : Z -> node -> Prop) s :
  ready s ip -> resolves ip ->
  cstr (sp_destip sp) = Some dip -> resolves dip ->
  cstr (sp_msg sp) = Some msg -> (length msg < Z.to_nat PAYLOAD_SIZE)%nat ->
  rt_rep (rt s) T -> T !! k = Some (x, e) ->
  find_hwaddr (if_no e) (hwa_struct_head s) = Some m ->
  (forall fr, frame_wf fr dip ip -> cstr (payload fr) = Some msg ->
     fr = convert_host_net_order
            (mkFrame __DATA (r_broadcast_id e) 0 PAYLOAD_SIZE (sp_route_disc_flag sp) sport
               (sp_destport sp) (dest_ip fr) (src_ip fr) (payload fr)) ->
     let ev := raw_event (next_hop e) m (if_no e) fr in
     Q (if os_sendto (length (outs s)) ev <? 0 then -1 else 0) (emit ev s)) ->
  wp (send_data_message sport sp x) Q s.
Proof.
  intros Hrd Hip Hd Hdr Hmsg Hml HT Hx Hm HQ. unfold send_data_message.
  destruct (rt_rep_load _ _ _ _ _ HT Hx) as (n & Hn & <-).
  pose proof (rt_rep_ok _ _ _ _ _ HT Hx) as [_ _ Hnh].
  pose proof Hrd as [(b & Hself & Hbip) Hne Hok].
  wp_step. eapply wp_get_self_ip; [done|]. wp_step. eapply wp_copy_vmname; [done..|]. intros _.
  wp_step. eapply wp_copy_vmname; [done..|]. intros _.
  wp_step. eapply wp_rt_load; [exact Hn|].
  destruct (construct_odr_ok __DATA (r_broadcast_id (dval n)) 0 PAYLOAD_SIZE
              (sp_route_disc_flag sp) sport (sp_destport sp) (sp_destip sp) b (sp_msg sp)
              dip ip msg) as (fr & Hfr & Hwf & Hpl & Heq); try done;
    [by apply resolves_length | by apply resolves_length |].
  wp_step. eapply wp_lift; [exact Hfr|]. wp_step. apply wp_get_hwaddr_from_int; [done|].
  rewrite Hm. wp_step.
  eapply wp_send_raw_frame; [exact Hrd | done | | rewrite Hnh; unfold HW_ADDR, HWADDR; lia |].
  { by rewrite (find_hwaddr_length _ _ _ Hok Hm). }
  cbv zeta. specialize (HQ fr Hwf Hpl Heq). cbv zeta in HQ. destruct (_ <? 0); by wp_step.
Qed.

(** ** Local delivery *)

Lemma peer_text_nonul sip sport pl : nonul sip -> nonul pl -> nonul (peer_text sip sport pl).
Proof.
  intros Hs Hp. unfold peer_text.
  all_pieces.
Qed.

(** An address, two integers and a payload that fits a frame always fit the
    1514-byte buffer. *)
Lemma peer_text_length sip sport pl :
  (length sip < INET_ADDRSTRLEN)%nat -> int_ok sport = true ->
  (length pl < Z.to_nat PAYLOAD_SIZE)%nat ->
  (length (peer_text sip sport pl) < ETH_FRAME_LEN)%nat.
Proof.
  intros Hs Hi Hp. unfold peer_text.
  pose proof (length_print_int sport Hi).
  repeat (rewrite length_app; cbn [length]).
  change (length (print_int 0)) with 1%nat.
  unfold INET_ADDRSTRLEN, PAYLOAD_SIZE, ETH_FRAME_LEN in *. lia.
Qed.

Lemma wp_send_to_peer_process spath path srcip sip sport pl p (Q : Z -> node -> Prop) s :
  cstr spath = Some path -> (length path < SUN_PATH_UN)%nat ->
  cstr srcip = Some sip -> (length sip < INET_ADDRSTRLEN)%nat -> int_ok sport = true ->
  cstr pl = Some p -> (length p < Z.to_nat PAYLOAD_SIZE)%nat ->
  (let ev := SendUnix path (peer_text sip sport p) in
   Q (if os_sendto (length (outs s)) ev <=? 0 then -1 else 0) (emit ev s)) ->
  wp (send_to_peer_process spath srcip sport pl) Q s.
Proof.
  intros Hpath Hpl Hsip Hsl Hi Hp Hpp HQ. unfold send_to_peer_process.
  wp_step. eapply wp_lift; [by apply need_str_Some|].
  wp_step. eapply wp_lift; [by apply need_str_Some|]. cbn beta.
  destruct (strcpy_Some (replicate ETH_FRAME_LEN NUL) (peer_text sip sport p ++ [NUL])
              (peer_text sip sport p)) as (d & Hd & Hdc & _).
  { apply cstr_term, peer_text_nonul; by eapply cstr_nonul. }
  { rewrite length_replicate. by apply peer_text_length. }
  destruct (strcpy_Some (replicate SUN_PATH_UN NUL) spath path Hpath) as (d2 & Hd2 & Hd2c & _).
  { by rewrite length_replicate. }
  wp_step. eapply wp_lift; [exact Hd|]. wp_step. eapply wp_lift; [exact Hd2|].
  wp_step. eapply wp_lift; [by apply need_str_Some|].
  wp_step. eapply wp_lift; [by apply need_str_Some|].
  wp_step. unfold sendto, wp at 1. cbn beta zeta. cbv zeta in HQ.
  fold (emit (SendUnix path (peer_text sip sport p)) s).
  destruct (_ <=? 0); by wp_step.
Qed.
End SendSpec.

(** ** Properties *)

Section SendProperties.
Context {os : OS}.

(** C15: a flood puts the same well-formed frame once on every interface except
    the loop-back, eth0 and the one the request came from, addressed to the
    broadcast address from the interface's own; it stops at the first [sendto]
    that fails, and returns -1 then and 0 otherwise. *)
Theorem send_req_broadcast_floods recvd bid sp dp hop rdf dstip srcip pl asent dip sip ip s :
  ready s ip -> resolves ip ->
  cstr dstip = Some dip -> resolves dip -> cstr srcip = Some sip -> resolves sip ->
  exists fr, frame_wf fr dip sip /\
    fr = convert_host_net_order
           (mkFrame (if asent =? 1 then __ASENT else __RREQ) bid hop 0 rdf sp dp
              (dest_ip fr) (src_ip fr) (payload fr)) /\
    send_req_broadcast recvd bid sp dp hop rdf dstip srcip pl asent s
    = (let '(r, s') := emit_all (flood_events recvd fr (hwa_struct_head s)) s in Ok r s').
Proof.
  intros Hrd Hip Hd Hdr Hs Hsr.
  destruct (construct_odr_ok (if asent =? 1 then __ASENT else __RREQ) bid hop 0 rdf sp dp
              dstip srcip pl dip sip []) as (fr & Hfr & Hwf & _ & Heq); try done;
    [by apply resolves_length|by apply resolves_length|by destruct (asent =? 1)|].
  exists fr. split; [done|]. split; [done|].
  assert (wp (send_req_broadcast recvd bid sp dp hop rdf dstip srcip pl asent)
    (fun r s' => (r, s') = emit_all (flood_events recvd fr (hwa_struct_head s)) s) s)
    as (r & s' & -> & <-)%wp_run; [|done].
  eapply wp_send_req_broadcast; [done..|]. intros fr' Hfr' _. rewrite Hfr in Hfr'.
  injection Hfr' as <-. by destruct (emit_all _ s).
Qed.

(** A message for a local process always fits its buffers and is handed
    over as the text "source address, source port, payload, 0" to the path the
    port table names. *)
Theorem send_to_peer_process_delivers spath path srcip sip sport pl p s :
  cstr spath = Some path -> (length path < SUN_PATH_UN)%nat ->
  cstr srcip = Some sip -> (length sip < INET_ADDRSTRLEN)%nat -> int_ok sport = true ->
  cstr pl = Some p -> (length p < Z.to_nat PAYLOAD_SIZE)%nat ->
  let ev := SendUnix path (peer_text sip sport p) in
  send_to_peer_process spath srcip sport pl s
  = Ok (if os_sendto (length (outs s)) ev <=? 0 then -1 else 0) (emit ev s).
Proof.
  intros H1 H2 H3 H4 H5 H6 H7 ev.
  assert (wp (send_to_peer_process spath srcip sport pl) (fun r s' =>
    r = (if os_sendto (length (outs s)) ev <=? 0 then -1 else 0) /\ s' = emit ev s) s)
    as (r & s' & -> & -> & ->)%wp_run; [|done].
  by eapply wp_send_to_peer_process.
Qed.
End SendProperties.

Lemma send_req_broadcast_floods_witness :
  exists fr, frame_wf fr (vm_ip 3) (vm_ip 1) /\
    fr = convert_host_net_order
           (mkFrame __RREQ 11 1 0 0 909 5500 (dest_ip fr) (src_ip fr) (payload fr)) /\
    @send_req_broadcast (demo_os (demo_ifs 2)) 3 11 909 5500 1 0 (lit "130.245.156.23")
      (lit "130.245.156.21") (lit "x") 0 (demo_self 2 node_init)
    = (let '(r, s') := @emit_all (demo_os (demo_ifs 2)) (flood_events 3 fr (demo_hwa 2))
                         (demo_self 2 node_init) in Ok r s').
Proof.
  apply (@send_req_broadcast_floods (demo_os (demo_ifs 2)) 3 11 909 5500 1 0 (lit "130.245.156.23")
           (lit "130.245.156.21") (lit "x") 0 (vm_ip 3) (vm_ip 1) (vm_ip 2) (demo_self 2 node_init)).
  - apply demo_ready.
  - by apply demo_resolves.
  - reflexivity.
  - by apply demo_resolves.
  - reflexivity.
  - by apply demo_resolves.
Defined.

Lemma send_to_peer_process_delivers_witness :
  @send_to_peer_process (demo_os []) (lit "servpathfile") (lit "130.245.156.21") 909 (lit "hello")
    node_init
  = Ok 0 (@emit (demo_os []) (SendUnix (chars "servpathfile") (peer_text (vm_ip 1) 909 (chars "hello")))
            node_init).
Proof.
  apply (@send_to_peer_process_delivers (demo_os []) (lit "servpathfile") (chars "servpathfile")
           (lit "130.245.156.21") (vm_ip 1) 909 (lit "hello") (chars "hello") node_init);
    (reflexivity || (apply Nat.ltb_lt; reflexivity)).
Defined.
