(* ===== verification/Handlers.v ===== *)
(** * The event handlers (odr_and.c)

    [handle_peer_msg], for a request a local process sent over the Unix-domain
    socket, and [handle_ethernet_msg], for a frame received on the packet
    socket, with one definition per case of its switch.  Every case leaves with
    [return -1] or [break]: a case returns -1 or 0 accordingly. *)

From S2P Require Import Prelude CLib Inet Frame DList Node Demo Utils Ports RTable Print PQueue Send.

Section Handlers.
Context {os : OS}.

(** A local pointer variable that only some branches assign. *)
Definition assigned {A} (p : option A) : MN A :=
  lift (match p with Some a => mret a | None => Bad Uninitialised end).

(** ** Requests of local processes *)

(** No route: flood a request and park the message. *)
Definition request_route (sparams : send_params) (self_ip : buf) (port : Z) : MN Z :=
  bid ← get_broadcast_id;
  r ← send_req_broadcast (-1) bid port (sp_destport sparams) 0 (sp_route_disc_flag sparams)
        (sp_destip sparams) self_ip (sp_msg sparams) 0;
  if r <? 0 then mret (-1) else
  bid2 ← get_broadcast_id;
  fr ← lift (construct_odr __DATA 0 bid2 PAYLOAD_SIZE 0 port (sp_destport sparams)
               (sp_destip sparams) self_ip (sp_msg sparams));
  r2 ← insert_pending_queue (convert_net_host_order fr) (sp_destip sparams);
  if r2 <? 0 then mret (-1) else
  copy_vmname (sp_destip sparams);;
  mret 1.

Definition handle_peer_msg (sparams : send_params) : MN Z :=
  self ← get_self_ip;
  match self with
  | None => mret (-1)
  | Some self_ip =>
      me ← fetch_entry_path (sp_filename sparams);
      match me with
      | None => mret (-1)
      | Some map_entry =>
          copy_vmname self_ip;;
          copy_vmname (sp_destip sparams);;
          local ← lift (streq self_ip (sp_destip sparams));
          if local : bool then
            pe ← fetch_entry_port (sp_destport sparams);
            peer_entry ← assert_some pe;
            r ← send_to_peer_process (sun_path peer_entry) self_ip (portno map_entry)
                  (sp_msg sparams);
            if r <? 0 then mret (-1) else mret 1
          else
            '(entry_present, route) ← get_r_entry (sp_destip sparams)
                                        (sp_route_disc_flag sparams);
            if entry_present <=? 0 then
              request_route sparams self_ip (portno map_entry)
            else
              x ← assigned route;
              copy_vmname (sp_destip sparams);;
              r ← send_data_message (portno map_entry) sparams x;
              if r <? 0 then mret (-1) else mret 1
      end
  end.

(** ** Received frames *)

(** The block every case starts with: update the route to the source if the
    frame is better, or add it.  The flag tells whether the table changed. *)
Definition learn_source (fr : odr_frame) (src_present : Z) (src : option loc) (intf : Z)
    (addr : buf) : MN (Z * loc) :=
  if src_present >? 0 then
    x ← assigned src;
    r ← check_r_entry fr x intf addr;
    mret (r, x)
  else
    '(_, x) ← insert_r_entry fr intf addr;
    mret (1, x).

(** Forward a request with one more hop. *)
Definition reflood (fr : odr_frame) (intf asent : Z) : MN Z :=
  h ← lift (int_add (hop_count fr) 1);
  r ← send_req_broadcast intf (broadcast_id fr) (src_port fr) (dst_port fr) h
        (route_disc_flag fr) (dest_ip fr) (src_ip fr) (payload fr) asent;
  if r <? 0 then mret (-1) else mret 0.

(** No route onwards: park the frame and flood a request of our own. *)
Definition park_and_request (fr : odr_frame) (intf : Z) (self_ip : buf) : MN Z :=
  bid ← get_broadcast_id;
  r ← insert_pending_queue fr (dest_ip fr);
  if r <? 0 then mret (-1) else
  r2 ← send_req_broadcast intf bid (-1) (dst_port fr) 0 0 (dest_ip fr) self_ip (payload fr) 0;
  if r2 <? 0 then mret (-1) else mret 0.

(** Transmit a data frame, already in network order, along a table entry. *)
Definition forward_data (fr : odr_frame) (x : loc) : MN Z :=
  e ← rt_load x;
  src_mac ← get_hwaddr_from_int (if_no e);
  match src_mac with
  | None => mret (-1)
  | Some m =>
      r ← send_raw_frame (Some m) (Some (next_hop e)) (if_no e) fr;
      if r <? 0 then mret (-1) else
      get_name_ip (destip e);;
      mret 0
  end.

Definition on_rreq (fr : odr_frame) (self_ip : buf) (intf : Z) (addr : buf)
    (dest_present src_present : Z) (dest src : option loc) : MN Z :=
  '(asent_flag, src_x) ← learn_source fr src_present src intf addr;
  mine ← lift (streq (dest_ip fr) self_ip);
  if mine : bool then
    r ← send_rrep_packet fr src_x 0 true;
    if r <? 0 then mret (-1) else mret 0
  else if dest_present >? 0 then
    dest_x ← assigned dest;
    de ← rt_load dest_x;
    r ← send_rrep_packet fr src_x (no_hops de) true;
    if r <? 0 then mret (-1) else
    if asent_flag =? 1 then reflood fr intf 1 else mret 0
  else
    if asent_flag =? 0 then mret 0 else reflood fr intf 0.

(** A frame taken from the pending queue leaves along the entry [src_x]. *)
Definition release_parked (src_x : loc) (p : option odr_frame) : MN Z :=
  match p with
  | None => mret 0
  | Some parked =>
      if frame_type parked =? __RREP then
        r ← send_rrep_packet parked src_x (hop_count parked) false;
        if r <? 0 then mret (-1) else mret 0
      else if frame_type parked =? __DATA then
        forward_data (convert_host_net_order parked) src_x
      else mret 0
  end.

Definition on_rrep (fr : odr_frame) (self_ip : buf) (intf : Z) (addr : buf)
    (dest_present src_present : Z) (dest src : option loc) : MN Z :=
  '(_, src_x) ← learn_source fr src_present src intf addr;
  mine ← lift (streq (dest_ip fr) self_ip);
  if mine : bool then
    p ← lookup_pending_queue (src_ip fr);
    release_parked src_x p
  else if dest_present >? 0 then
    dest_x ← assigned dest;
    se ← rt_load src_x;
    r ← send_rrep_packet fr dest_x (no_hops se) false;
    if r <? 0 then mret (-1) else mret 0
  else park_and_request fr intf self_ip.

Definition set_hop_count (h : Z) (fr : odr_frame) : odr_frame :=
  mkFrame (frame_type fr) (broadcast_id fr) h (payload_len fr) (route_disc_flag fr)
          (src_port fr) (dst_port fr) (dest_ip fr) (src_ip fr) (payload fr).

Definition on_data (fr : odr_frame) (self_ip : buf) (intf : Z) (addr : buf)
    (dest_present src_present : Z) (dest src : option loc) : MN Z :=
  '(_, src_x) ← learn_source fr src_present src intf addr;
  mine ← lift (streq (dest_ip fr) self_ip);
  if mine : bool then
    process_data_message fr;; mret 0
  else if dest_present >? 0 then
    dest_x ← assigned dest;
    se ← rt_load src_x;
    forward_data (convert_host_net_order (set_hop_count (no_hops se) fr)) dest_x
  else park_and_request fr intf self_ip.

Definition on_asent (fr : odr_frame) (intf : Z) (addr : buf)
    (src_present : Z) (src : option loc) : MN Z :=
  '(asent_flag, _) ← learn_source fr src_present src intf addr;
  if asent_flag =? 1 then reflood fr intf 1 else mret 0.

(** The comparison [recvd_odr_frame->src_ip == self_ip] compares the
    addresses of two different objects: it never holds, and the early return
    it guards is dead code. *)
Definition handle_frame (odr_addr : sockaddr_ll) (fr : odr_frame) (self_ip : buf) : MN Z :=
  let intf := sll_ifindex odr_addr in
  let addr := sll_addr odr_addr in
  duplicate ← (if route_disc_flag fr =? 1 then
                 r ← is_broadid_greater (src_ip fr) (broadcast_id fr); mret (r <? 0)
               else mret false);
  if duplicate : bool then mret 1 else
  '(dp, dest) ← get_r_entry (dest_ip fr) (route_disc_flag fr);
  '(sp, src) ← get_r_entry (src_ip fr) 0;
  copy_vmname (src_ip fr);;
  copy_vmname (dest_ip fr);;
  r ← (if frame_type fr =? __RREQ then on_rreq fr self_ip intf addr dp sp dest src
       else if frame_type fr =? __RREP then on_rrep fr self_ip intf addr dp sp dest src
       else if frame_type fr =? __DATA then on_data fr self_ip intf addr dp sp dest src
       else if frame_type fr =? __ASENT then on_asent fr intf addr sp src
       else mret (-1));
  if r <? 0 then mret (-1) else print_routing_table;; mret 0.

Definition handle_ethernet_msg (odr_addr : sockaddr_ll) (recv_buf : buf) : MN Z :=
  self ← get_self_ip;
  match self with
  | None => mret (-1)
  | Some self_ip =>
      fr ← lift (process_recvd_frame recv_buf);
      handle_frame odr_addr fr self_ip
  end.
End Handlers.
