(* ===== verification/Spec.v ===== *)
(** * The protocol, abstractly

    What a router does with a received frame, written over mathematical data:
    a finite map of routes, a sequence of parked messages, messages as records
    of integers and strings.  No heap, no buffers, no byte order.  File Refine
    proves that [handle_frame] of Handlers implements [spec_frame].  The README's
    description of the packet types and of the routing-table policy is the
    informal counterpart. *)

From S2P Require Import Prelude CLib Inet Frame DList Node Demo Utils Ports RTable PQueue Send.

(** A message: the contents of an ODR frame. *)
Record msg := mkMsg {
  m_type : Z;
  m_bid : Z;
  m_hop : Z;
  m_len : Z;
  m_rdf : Z;
  m_sport : Z;
  m_dport : Z;
  m_dst : buf;
  m_src : buf;
  m_data : buf;
}.

(** A route: the neighbour, the interface to it, and what the update policy
    compares. *)
Record route := mkRoute {
  r_via : buf;
  r_if : Z;
  r_hops : Z;
  r_bid : Z;
  r_seen : timeval;
}.

Record router := mkRouter {
  a_routes : gmap buf route;
  a_parked : list (buf * msg);
  a_ctr : Z;
  a_clock : nat;
}.

(** What a local process asks for: data for a port of a machine, and whether
    the route must be discovered anew. *)
Record request := mkRequest {
  q_dst : buf;
  q_dport : Z;
  q_data : buf;
  q_flag : Z;
}.

(** What a router sends: a message to the neighbour of a route, a flood on all
    links but one, or a datagram for a local process. *)
Inductive out :=
  | Unicast (r : route) (m : msg)
  | Flood (except : Z) (m : msg)
  | Deliver (path data : buf).

Section Messages.
Definition set_hop (h : Z) (m : msg) : msg :=
  mkMsg (m_type m) (m_bid m) h (m_len m) (m_rdf m) (m_sport m) (m_dport m)
        (m_dst m) (m_src m) (m_data m).

(** A request passed on: one more hop, no payload. *)
Definition passed_on (ty : Z) (m : msg) : msg :=
  mkMsg ty (m_bid m) (m_hop m + 1) 0 (m_rdf m) (m_sport m) (m_dport m) (m_dst m) (m_src m) [].

(** The reply to a request: end points exchanged, a broadcast id of the
    replying node. *)
Definition reply (m : msg) (hop bid : Z) : msg :=
  mkMsg __RREP bid hop (m_len m) 0 (m_dport m) (m_sport m) (m_src m) (m_dst m) [].

(** A reply passed on. *)
Definition fwd_reply (m : msg) (hop : Z) : msg :=
  mkMsg __RREP (m_bid m) hop (m_len m) 0 (m_sport m) (m_dport m) (m_dst m) (m_src m) [].

(** The request a router floods for a message it has parked. *)
Definition request_for (m : msg) (ip : buf) (bid : Z) : msg :=
  mkMsg __RREQ bid 0 0 0 (-1) (m_dport m) (m_dst m) ip [].
End Messages.

Section Spec.
Context {os : OS}.
Implicit Types (R : router) (m : msg) (r : route).

Definition upd_routes (A : gmap buf route) R : router :=
  mkRouter A (a_parked R) (a_ctr R) (a_clock R).
Definition upd_parked (q : list (buf * msg)) R : router :=
  mkRouter (a_routes R) q (a_ctr R) (a_clock R).
Definition upd_ctr (c : Z) R : router :=
  mkRouter (a_routes R) (a_parked R) c (a_clock R).
Definition upd_clock (c : nat) R : router :=
  mkRouter (a_routes R) (a_parked R) (a_ctr R) c.

(** ** Routes *)

Definition a_expired (stale : Z) (t : timeval) (flag : Z) r : bool :=
  (tv_sec t - tv_sec (r_seen r) >=? stale) || (flag =? 1).

(** A lookup drops the route if it has expired; it reads the clock unless the
    table is empty. *)
Definition a_lookup (stale flag : Z) (ip : buf) R : router :=
  let t := os_time (a_clock R) in
  let R' := if decide (a_routes R = ∅) then R else upd_clock (S (a_clock R)) R in
  match a_routes R !! ip with
  | Some r => if a_expired stale t flag r then upd_routes (delete ip (a_routes R)) R' else R'
  | None => R'
  end.

(** Newer, or as new and not longer. *)
Definition a_better m r : Prop :=
  m_bid m > r_bid r \/ (m_bid m = r_bid r /\ m_hop m + 1 <= r_hops r).

#[export] Instance a_better_dec m r : Decision (a_better m r).
Proof. unfold a_better. solve_decision. Defined.

(** Learn the route to the source of a message: whether the table changed,
    and the route it now has. *)
Definition a_learn m (intf : Z) (via : buf) R : bool * route * router :=
  let new := mkRoute (take HWADDR via) intf (m_hop m + 1) (m_bid m) (os_time (a_clock R)) in
  let R' := upd_clock (S (a_clock R)) (upd_routes (<[m_src m := new]> (a_routes R)) R) in
  match a_routes R !! m_src m with
  | Some r => if decide (a_better m r) then (true, new, R') else (false, r, R)
  | None => (true, new, R')
  end.

(** ** Messages *)

Fixpoint a_take (ip : buf) (q : list (buf * msg)) : option msg * list (buf * msg) :=
  match q with
  | [] => (None, [])
  | (k, m) :: q' =>
      if decide (k = ip) then (Some m, q')
      else let '(r, q'') := a_take ip q' in (r, (k, m) :: q'')
  end.

(** No route onwards: park the message and request one. *)
Definition a_park m (intf : Z) (ip : buf) R : router * list out :=
  (upd_ctr (a_ctr R + 1) (upd_parked ((m_dst m, m) :: a_parked R) R),
   [Flood intf (request_for m ip (a_ctr R + 1))]).

Definition spec_rreq (ip : buf) (intf : Z) (via : buf) m R : router * list out :=
  let '(changed, rs, R1) := a_learn m intf via R in
  if decide (m_dst m = ip) then
    (upd_ctr (a_ctr R1 + 1) R1, [Unicast rs (reply m 0 (a_ctr R1 + 1))])
  else
    match a_routes R1 !! m_dst m with
    | Some rd =>
        (upd_ctr (a_ctr R1 + 1) R1,
         Unicast rs (reply m (r_hops rd) (a_ctr R1 + 1)) ::
         if changed : bool then [Flood intf (passed_on __ASENT m)] else [])
    | None => (R1, if changed : bool then [Flood intf (passed_on __RREQ m)] else [])
    end.

Definition spec_rrep (ip : buf) (intf : Z) (via : buf) m R : router * list out :=
  let '(_, rs, R1) := a_learn m intf via R in
  if decide (m_dst m = ip) then
    let '(p, q) := a_take (m_src m) (a_parked R1) in
    (upd_parked q R1,
     match p with
     | None => []
     | Some pm =>
         if m_type pm =? __RREP then [Unicast rs (fwd_reply pm (m_hop pm))]
         else if m_type pm =? __DATA then [Unicast rs pm]
         else []
     end)
  else
    match a_routes R1 !! m_dst m with
    | Some rd => (R1, [Unicast rd (fwd_reply m (r_hops rs))])
    | None => a_park m intf ip R1
    end.

Definition spec_data (ip : buf) (ports : Z -> option buf) (intf : Z) (via : buf) m R
    : router * list out :=
  let '(_, rs, R1) := a_learn m intf via R in
  if decide (m_dst m = ip) then
    (R1, match ports (m_dport m) with
         | Some path => [Deliver path (peer_text (m_src m) (m_sport m) (m_data m))]
         | None => []
         end)
  else
    match a_routes R1 !! m_dst m with
    | Some rd => (R1, [Unicast rd (set_hop (r_hops rs) m)])
    | None => a_park m intf ip R1
    end.

Definition spec_asent (intf : Z) (via : buf) m R : router * list out :=
  let '(changed, _, R1) := a_learn m intf via R in
  (R1, if changed : bool then [Flood intf (passed_on __ASENT m)] else []).

(** A flagged message no newer than the route to its source. *)
Definition a_duplicate m R : bool :=
  (m_rdf m =? 1) &&
  match a_routes R !! m_src m with Some r => m_bid m <=? r_bid r | None => false end.

(** The return value, the new state and what is sent. *)
Definition spec_frame (ip : buf) (stale : Z) (ports : Z -> option buf) (intf : Z) (via : buf)
    m R : Z * (router * list out) :=
  if a_duplicate m R then (1, (R, []))
  else
    let R1 := a_lookup stale 0 (m_src m) (a_lookup stale (m_rdf m) (m_dst m) R) in
    if m_type m =? __RREQ then (0, spec_rreq ip intf via m R1)
    else if m_type m =? __RREP then (0, spec_rrep ip intf via m R1)
    else if m_type m =? __DATA then (0, spec_data ip ports intf via m R1)
    else if m_type m =? __ASENT then (0, spec_asent intf via m R1)
    else (-1, (R1, [])).

(** ** Requests of local processes *)

(** The request a node floods, and the data message it parks, for a request
    of the local process that owns [port].  The parked message carries the
    node's broadcast counter where the hop count should be. *)
Definition request_msg (ip : buf) (port : Z) (rq : request) (bid : Z) : msg :=
  mkMsg __RREQ bid 0 0 (q_flag rq) port (q_dport rq) (q_dst rq) ip [].
Definition parked_msg (ip : buf) (port : Z) (rq : request) (ctr : Z) : msg :=
  mkMsg __DATA 0 ctr PAYLOAD_SIZE 0 port (q_dport rq) (q_dst rq) ip (q_data rq).
(** The data message sent at once along a known route. *)
Definition data_msg (ip : buf) (port : Z) (rq : request) (bid : Z) : msg :=
  mkMsg __DATA bid 0 PAYLOAD_SIZE (q_flag rq) port (q_dport rq) (q_dst rq) ip (q_data rq).

Definition spec_request (ip : buf) (stale : Z) (ports : Z -> option buf) (port : Z)
    (rq : request) R : router * list out :=
  if decide (q_dst rq = ip) then
    (R, match ports (q_dport rq) with
        | Some path => [Deliver path (peer_text ip port (q_data rq))]
        | None => []
        end)
  else
    let R1 := a_lookup stale (q_flag rq) (q_dst rq) R in
    match a_routes R1 !! q_dst rq with
    | Some rd => (R1, [Unicast rd (data_msg ip port rq (r_bid rd))])
    | None =>
        (upd_ctr (a_ctr R1 + 2)
           (upd_parked ((q_dst rq, parked_msg ip port rq (a_ctr R1 + 2)) :: a_parked R1) R1),
         [Flood (-1) (request_msg ip port rq (a_ctr R1 + 1))])
    end.
End Spec.
