(* ===== verification/SpecFacts.v ===== *)
(** * Facts about the protocol

    Properties of the abstract router of file Spec, that is, of every node that
    runs the handlers: which parts of the state a step may change, and how. *)

From S2P Require Import Prelude CLib Inet Frame DList Node Demo Utils Ports RTable PQueue Send.
From S2P Require Import Spec.

Section Facts.
Context {os : OS}.
Implicit Types (R : router) (m : msg) (r : route).

Lemma a_lookup_frame stale flag ip R :
  a_ctr (a_lookup stale flag ip R) = a_ctr R /\
  a_parked (a_lookup stale flag ip R) = a_parked R.
Proof.
  unfold a_lookup.
  destruct (decide _), (a_routes R !! ip) as [r|]; try done; by destruct (a_expired _ _ _ _).
Qed.

(** A lookup reads the clock at most once. *)
Lemma a_lookup_clock stale flag k R :
  a_clock (a_lookup stale flag k R) = a_clock R \/ a_clock (a_lookup stale flag k R) = S (a_clock R).
Proof.
  unfold a_lookup. destruct (a_routes R !! k); [destruct (a_expired _ _ _ _)|]; cbn; destruct (decide _); auto.
Qed.

(** A lookup drops at most the route it looks for. *)
Lemma a_lookup_routes stale flag ip R k :
  a_routes (a_lookup stale flag ip R) !! k =
  match a_routes R !! k with
  | Some r => if decide (k = ip) then
                if a_expired stale (os_time (a_clock R)) flag r then None else Some r
              else Some r
  | None => None
  end.
Proof.
  unfold a_lookup.
  assert (forall c, a_routes (if decide (a_routes R = ∅) then R else upd_clock c R) = a_routes R)
    as Hd by (intros c; by destruct (decide _)).
  destruct (decide (k = ip)) as [->|Hk].
  - destruct (a_routes R !! ip) as [r|] eqn:E; [|by rewrite Hd].
    destruct (a_expired _ _ _ r); cbn; [by rewrite lookup_delete_eq|by rewrite Hd].
  - destruct (a_routes R !! ip) as [r|]; [destruct (a_expired _ _ _ r)|]; cbn;
      rewrite ?lookup_delete_ne, ?Hd by done; by destruct (a_routes R !! k).
Qed.

Lemma a_learn_frame m intf via R b r R' :
  a_learn m intf via R = (b, r, R') ->
  a_ctr R' = a_ctr R /\ a_parked R' = a_parked R /\ a_routes R' !! m_src m = Some r /\
  (forall k, k <> m_src m -> a_routes R' !! k = a_routes R !! k).
Proof.
  unfold a_learn. destruct (a_routes R !! m_src m) as [r0|] eqn:E; [destruct (decide _)|];
    intros [= <- <- <-]; cbn; split_and!; try done; rewrite ?lookup_insert_eq; try done;
    intros k Hk; by rewrite lookup_insert_ne.
Qed.

(** The switch, as one function. *)
Definition spec_switch (ip : buf) (ports : Z -> option buf) (intf : Z) (via : buf) m R
    : Z * (router * list out) :=
  if m_type m =? __RREQ then (0, spec_rreq ip intf via m R)
  else if m_type m =? __RREP then (0, spec_rrep ip intf via m R)
  else if m_type m =? __DATA then (0, spec_data ip ports intf via m R)
  else if m_type m =? __ASENT then (0, spec_asent intf via m R)
  else (-1, (R, [])).

Lemma spec_frame_switch ip stale ports intf via m R :
  spec_frame ip stale ports intf via m R =
  if a_duplicate m R then (1, (R, []))
  else spec_switch ip ports intf via m
         (a_lookup stale 0 (m_src m) (a_lookup stale (m_rdf m) (m_dst m) R)).
Proof. done. Qed.

Lemma a_learn_clock m intf via R b r R' : a_learn m intf via R = (b, r, R') -> (a_clock R <= a_clock R')%nat.
Proof.
  unfold a_learn. destruct (a_routes R !! m_src m); [destruct (decide _)|]; intros [= <- <- <-]; cbn; lia.
Qed.

(** Time goes on. *)
Lemma spec_switch_clock ip ports intf via m R :
  (a_clock R <= a_clock (spec_switch ip ports intf via m R).2.1)%nat.
Proof.
  destruct (a_learn m intf via R) as [[b r] R1] eqn:EL. pose proof (a_learn_clock _ _ _ _ _ _ _ EL) as Hc.
  unfold spec_switch, spec_rreq, spec_rrep, spec_data, spec_asent, a_park. rewrite EL.
  repeat match goal with
  | |- context [decide ?P] => destruct (decide P)
  | |- context [if ?b then _ else _] => destruct b
  | |- context [match ?x with _ => _ end] => destruct x
  end; cbn; lia.
Qed.

(** A message of one of the four types is not refused. *)
Lemma spec_frame_goes_on ip stale ports intf via m R :
  m_type m ∈ [__RREQ; __RREP; __DATA; __ASENT] -> 0 <= (spec_frame ip stale ports intf via m R).1.
Proof.
  intros Hty. rewrite spec_frame_switch. destruct (a_duplicate _ _); [done|].
  unfold spec_switch. rewrite !elem_of_cons, elem_of_nil in Hty.
  destruct Hty as [->|[->|[->|[->|[]]]]]; done.
Qed.

Ltac shape := split; [by right|]; cbn; lia.

(** Every case of the switch learns first and leaves the routes alone
    afterwards. *)
Lemma spec_switch_shape ip ports intf via m R :
  exists b r R1, a_learn m intf via R = (b, r, R1) /\
    ((spec_switch ip ports intf via m R).2.1 = R /\ (spec_switch ip ports intf via m R).1 = -1 \/
     a_routes (spec_switch ip ports intf via m R).2.1 = a_routes R1) /\
    a_ctr R <= a_ctr (spec_switch ip ports intf via m R).2.1 <= a_ctr R + 1 /\
    (length (spec_switch ip ports intf via m R).2.2 <= 2)%nat.
Proof.
  destruct (a_learn m intf via R) as [[b r] R1] eqn:EL.
  destruct (a_learn_frame _ _ _ _ _ _ _ EL) as (Hc & _ & _).
  exists b, r, R1. split; [done|]. unfold spec_switch.
  destruct (m_type m =? __RREQ); [|destruct (m_type m =? __RREP);
    [|destruct (m_type m =? __DATA); [|destruct (m_type m =? __ASENT)]]]; cbn [fst snd].
  - unfold spec_rreq. rewrite EL. destruct (decide _); [by shape|].
    destruct (a_routes R1 !! m_dst m), b; by shape.
  - unfold spec_rrep. rewrite EL. destruct (decide _).
    + destruct (a_take _ _) as [[pm|] q]; [|by shape].
      destruct (m_type pm =? __RREP); [by shape|]. destruct (m_type pm =? __DATA); by shape.
    + destruct (a_routes R1 !! m_dst m); by shape.
  - unfold spec_data. rewrite EL. destruct (decide _).
    + destruct (ports _); by shape.
    + destruct (a_routes R1 !! m_dst m); by shape.
  - unfold spec_asent. rewrite EL. destruct b; by shape.
  - split; [by left|]. cbn. lia.
Qed.

(** The broadcast counter never goes back, and one frame moves it by at most
    one. *)
Lemma spec_frame_ctr ip stale ports intf via m R :
  a_ctr R <= a_ctr (spec_frame ip stale ports intf via m R).2.1 <= a_ctr R + 1.
Proof.
  rewrite spec_frame_switch. destruct (a_duplicate m R); [cbn; lia|].
  set (R2 := a_lookup _ _ _ _).
  destruct (spec_switch_shape ip ports intf via m R2) as (b & r & R1 & _ & _ & H & _).
  assert (a_ctr R2 = a_ctr R) as E.
  { unfold R2. by rewrite !(proj1 (a_lookup_frame _ _ _ _)). }
  rewrite E in H. exact H.
Qed.

Lemma spec_request_ctr ip stale ports port rq R :
  a_ctr R <= a_ctr (spec_request ip stale ports port rq R).1 <= a_ctr R + 2.
Proof.
  unfold spec_request. destruct (decide _); [cbn; lia|].
  pose proof (proj1 (a_lookup_frame stale (q_flag rq) (q_dst rq) R)) as E.
  cbv zeta. destruct (a_routes _ !! _); cbn [fst a_ctr upd_ctr]; lia.
Qed.

(** ** Outputs *)

(** At most one message, or a reply followed by a flood. *)
Definition small_outs (os : list out) : Prop :=
  match os with
  | [] | [_] | [Unicast _ _; Flood _ _] => True
  | _ => False
  end.

Lemma spec_switch_outs ip ports intf via m R :
  small_outs (spec_switch ip ports intf via m R).2.2.
Proof.
  unfold spec_switch, spec_rreq, spec_rrep, spec_data, spec_asent, a_park.
  destruct (a_learn m intf via R) as [[b r] R1].
  repeat match goal with
         | |- context [if ?x =? ?y then _ else _] => destruct (x =? y); cbn
         | |- context [decide ?P] => destruct (decide P); cbn
         | |- context [a_routes R1 !! ?k] => destruct (a_routes R1 !! k); cbn
         | |- context [a_take ?k ?q] => destruct (a_take k q) as [[pm|] q']; cbn
         | |- context [ports ?p] => destruct (ports p); cbn
         | |- context [if b then _ else _] => destruct b; cbn
         end; exact I.
Qed.

Lemma spec_frame_outs ip stale ports intf via m R :
  small_outs (spec_frame ip stale ports intf via m R).2.2.
Proof.
  rewrite spec_frame_switch. destruct (a_duplicate m R); [exact I|]. apply spec_switch_outs.
Qed.

(** ** Routes *)

(** [r'] is as good as [r] or better, by the update policy. *)
Definition no_worse (r' r : route) : Prop :=
  r_bid r < r_bid r' \/ (r_bid r' = r_bid r /\ r_hops r' <= r_hops r).

Lemma a_learn_no_worse m intf via R b r R' k rk :
  a_learn m intf via R = (b, r, R') -> a_routes R !! k = Some rk ->
  exists rk', a_routes R' !! k = Some rk' /\ no_worse rk' rk.
Proof.
  intros HL Hk. destruct (decide (k = m_src m)) as [->|Hne].
  - unfold a_learn in HL. rewrite Hk in HL. destruct (decide (a_better m rk)) as [Hb|Hb].
    + injection HL as <- <- <-. cbn. rewrite lookup_insert_eq. eexists. split; [done|].
      destruct Hb as [Hb|[Hb1 Hb2]]; [left; cbn; lia|right; cbn; lia].
    + injection HL as <- <- <-. exists rk. split; [done|]. right. lia.
  - apply a_learn_frame in HL as (_ & _ & _ & HL). exists rk. rewrite HL by done.
    split; [done|]. right. lia.
Qed.

(** A route that one of the two lookups of a frame drops. *)
Definition dropped (stale : Z) m R (k : buf) r : Prop :=
  (k = m_dst m /\ a_expired stale (os_time (a_clock R)) (m_rdf m) r = true) \/
  (k = m_src m /\
   a_expired stale (os_time (a_clock (a_lookup stale (m_rdf m) (m_dst m) R))) 0 r = true).

Lemma spec_frame_freshness ip stale ports intf via m R k r :
  a_routes R !! k = Some r ->
  (exists r', a_routes (spec_frame ip stale ports intf via m R).2.1 !! k = Some r' /\
     no_worse r' r) \/ dropped stale m R k r.
Proof.
  intros Hk. rewrite spec_frame_switch. destruct (a_duplicate m R).
  { left. exists r. split; [done|]. right. lia. }
  set (R1 := a_lookup stale (m_rdf m) (m_dst m) R). set (R2 := a_lookup stale 0 (m_src m) R1).
  assert (a_routes R2 !! k = Some r \/ dropped stale m R k r) as [H2|]; [| |by right].
  { pose proof (a_lookup_routes stale (m_rdf m) (m_dst m) R k) as H1. rewrite Hk in H1.
    pose proof (a_lookup_routes stale 0 (m_src m) R1 k) as H2.
    fold R1 in H1. fold R2 in H2. rewrite H1 in H2. unfold dropped. fold R1.
    destruct (decide (k = m_dst m)); [destruct (a_expired stale (os_time (a_clock R)) _ r); [by auto|]|];
      (destruct (decide (k = m_src m)); [|by auto]);
      (destruct (a_expired stale (os_time (a_clock R1)) 0 r); by auto). }
  left. destruct (spec_switch_shape ip ports intf via m R2) as (b & rs & R3 & HL & Hs & _).
  destruct Hs as [[-> _] | ->].
  - exists r. split; [done|]. right. lia.
  - by eapply a_learn_no_worse.
Qed.

(** ** Requests that are passed on *)

Lemma spec_rreq_passes ip stale ports intf via m R rs R2 :
  m_type m = __RREQ -> m_rdf m <> 1 -> m_dst m <> ip -> m_dst m <> m_src m ->
  a_routes R !! m_dst m = None ->
  a_learn m intf via (a_lookup stale 0 (m_src m) (a_lookup stale (m_rdf m) (m_dst m) R))
    = (true, rs, R2) ->
  spec_frame ip stale ports intf via m R = (0, (R2, [Flood intf (passed_on __RREQ m)])).
Proof.
  intros Ht Hf Hip Hne Hd HL. rewrite spec_frame_switch. unfold a_duplicate.
  rewrite (proj2 (Z.eqb_neq _ _) Hf). cbn [andb]. unfold spec_switch. rewrite Ht. cbn [Z.eqb __RREQ Pos.eqb].
  unfold spec_rreq. rewrite HL. rewrite decide_False by done.
  apply a_learn_frame in HL as (_ & _ & _ & HL). rewrite HL by done.
  by rewrite !a_lookup_routes, Hd.
Qed.
End Facts.
