(* ===== verification/Network.v ===== *)
(** * Several machines

    The daemons of a network of machines, each running the protocol of file
    Spec (which the handlers of odr_and.c implement, file Refine), connected by
    Ethernet segments.  A broadcast frame reaches every other interface of the
    segment it is sent on, a unicast frame those with its destination address.
    Frames are delivered in any order and may be lost.

    The main result of this file: every route in every table leads to a real
    neighbour from which the destination can be reached, and its hop count is
    never too small, except for frames that were parked on the way. *)

From stdpp Require Import functions.
From S2P Require Import Prelude CLib Inet Frame DList Node Demo Utils Ports RTable PQueue Send.
From S2P Require Import Spec SpecFacts.

(** ** Topology *)

(** The machines (by canonical address) with the indices of the interfaces they
    flood on, the segment each is attached to, and the hardware addresses. *)
Record topology := Topology {
  t_ports : list (buf * Z);
  t_seg : buf * Z -> Z;
  t_mac : buf * Z -> buf;
}.

Section Topology.
Context (tp : topology).

(** The other interfaces on the segment of [p]. *)
Definition peers (p : buf * Z) : list (buf * Z) :=
  filter (fun q => q <> p /\ t_seg tp q = t_seg tp p) (t_ports tp).

Definition ifs_of (n : buf) : list Z :=
  snd <$> filter (fun p => p.1 = n) (t_ports tp).

(** A frame sent on interface [i] of [u] can reach interface [j] of [v]. *)
Definition linked (u : buf) (i : Z) (v : buf) (j : Z) : Prop :=
  (u, i) ∈ t_ports tp /\ (v, j) ∈ peers (u, i).

(** A walk of [k] links. *)
Inductive walk (s : buf) : buf -> nat -> Prop :=
  | walk_nil : walk s s 0
  | walk_snoc u i v j k : walk s u k -> linked u i v j -> walk s v (S k).

Lemma elem_of_peers p q :
  q ∈ peers p <-> q ∈ t_ports tp /\ q <> p /\ t_seg tp q = t_seg tp p.
Proof. unfold peers. rewrite list_elem_of_filter. tauto. Qed.

Lemma elem_of_ifs n i : i ∈ ifs_of n <-> (n, i) ∈ t_ports tp.
Proof.
  unfold ifs_of. rewrite list_elem_of_fmap. split.
  - intros ([n' i'] & -> & [Hn H]%list_elem_of_filter). cbn in *. by subst.
  - intros H. exists (n, i). split; [done|]. by apply list_elem_of_filter.
Qed.

Lemma linked_sym u i v j : linked u i v j -> linked v j u i.
Proof.
  unfold linked. rewrite !elem_of_peers. intros (H1 & H2 & H3 & H4).
  by split_and!; [| |intros ?|].
Qed.
End Topology.

(** ** Packets and steps *)

(** A frame on its way to an interface of a machine, with the hardware address
    of its sender. *)
Record packet := Packet { p_to : buf; p_if : Z; p_from : buf; p_msg : msg }.

(** The routers of all machines, the frames on the way, what was handed to local
    processes (machine, path, datagram), and how many received frames were
    parked so far. *)
Record net := Net {
  n_router : buf -> router;
  n_pool : list packet;
  n_log : list (buf * buf * buf);
  n_parks : nat;
}.

(** What happens: a frame is received, a local process makes a request, a frame
    is lost, the clock of a machine moves on.  The port table of the machine is
    [ports]. *)
Inductive net_event :=
  | Recv (p : packet) (ports : Z -> option buf)
  | Ask (n : buf) (port : Z) (rq : request) (ports : Z -> option buf)
  | Lose (p : packet)
  | Tick (n : buf) (c : nat).

Section Steps.
Context (tp : topology) (os_of : buf -> OS) (stale_of : buf -> Z).

(** The packets an output of machine [n] becomes. *)
Definition on_link (n : buf) (i : Z) (m : msg) (q : buf * Z) : packet :=
  Packet q.1 q.2 (t_mac tp (n, i)) m.

Definition emit_out (n : buf) (o : out) : list packet :=
  match o with
  | Unicast r m =>
      on_link n (r_if r) m <$> filter (fun q => t_mac tp q = r_via r) (peers tp (n, r_if r))
  | Flood ex m =>
      filter (fun i => i <> ex) (ifs_of tp n) ≫= fun i => on_link n i m <$> peers tp (n, i)
  | Deliver _ _ => []
  end.
Definition emit_outs (n : buf) (os : list out) : list packet := os ≫= emit_out n.

Definition handed (n : buf) (os : list out) : list (buf * buf * buf) :=
  omap (fun o => match o with Deliver path data => Some (n, path, data) | _ => None end) os.

(** The router of the receiver after a frame, and what it sends. *)
Definition received (w : net) (p : packet) (ports : Z -> option buf) : router * list out :=
  (@spec_frame (os_of (p_to p)) (p_to p) (stale_of (p_to p)) ports (p_if p) (p_from p) (p_msg p)
     (n_router w (p_to p))).2.

Definition asked (w : net) (n : buf) (port : Z) (rq : request) (ports : Z -> option buf)
    : router * list out :=
  @spec_request (os_of n) n (stale_of n) ports port rq (n_router w n).

(** Machine [n] moves to [res]; [rest] are the frames that stay on the way. *)
Definition moved (w : net) (n : buf) (res : router * list out) (rest : list packet) (parks : nat)
    : net :=
  Net (<[n := res.1]> (n_router w)) (rest ++ emit_outs n res.2) (n_log w ++ handed n res.2)
      (n_parks w + parks).

(** A frame parked makes the queue longer. *)
Definition newly_parked (R R' : router) : nat := length (a_parked R') - length (a_parked R).

Inductive net_step (w : net) : net_event -> net -> Prop :=
  | net_recv l1 p l2 ports :
      n_pool w = l1 ++ p :: l2 ->
      net_step w (Recv p ports)
        (moved w (p_to p) (received w p ports) (l1 ++ l2)
           (newly_parked (n_router w (p_to p)) (received w p ports).1))
  | net_ask n port rq ports :
      net_step w (Ask n port rq ports) (moved w n (asked w n port rq ports) (n_pool w) 0)
  | net_lose l1 p l2 :
      n_pool w = l1 ++ p :: l2 ->
      net_step w (Lose p) (Net (n_router w) (l1 ++ l2) (n_log w) (n_parks w))
  | net_tick n c :
      net_step w (Tick n c) (moved w n (upd_clock c (n_router w n), []) (n_pool w) 0).

Inductive net_run : net -> list net_event -> net -> Prop :=
  | run_nil w : net_run w [] w
  | run_snoc w es w1 e w2 : net_run w es w1 -> net_step w1 e w2 -> net_run w (es ++ [e]) w2.

(** All daemons just started. *)
Definition router_init (c : Z) : router := mkRouter ∅ [] c 0.
Definition net_init (c : buf -> Z) : net := Net (fun n => router_init (c n)) [] [] 0.

(** The steps as functions: the request [rq], and the delivery of the oldest
    frame on the way. *)
Definition do_ask (n : buf) (port : Z) (rq : request) (ports : Z -> option buf) (w : net) : net :=
  moved w n (asked w n port rq ports) (n_pool w) 0.
Definition do_recv (ports : buf -> Z -> option buf) (w : net) : net :=
  match n_pool w with
  | [] => w
  | p :: rest =>
      let res := received w p (ports (p_to p)) in
      moved w (p_to p) res rest (newly_parked (n_router w (p_to p)) res.1)
  end.
Fixpoint do_recvs (fuel : nat) (ports : buf -> Z -> option buf) (w : net) : net :=
  match fuel with O => w | S fuel' => do_recvs fuel' ports (do_recv ports w) end.
End Steps.

(** * Routes are real *)

Section Soundness.
Context (tp : topology).
Implicit Types (R : router) (m : msg) (r : route) (P : nat).

(** [n] can be reached from [s] in at most [h] links, give or take [P]. *)
Definition within (s n : buf) (h : Z) P : Prop :=
  exists k, walk tp s n k /\ Z.of_nat k <= h + Z.of_nat P.

Definition route_sound P (n k : buf) r : Prop :=
  exists u i, linked tp u i n (r_if r) /\ r_via r = take HWADDR (t_mac tp (u, i)) /\
              within k u (r_hops r - 1) P.

Definition packet_sound P (p : packet) : Prop :=
  exists u i, linked tp u i (p_to p) (p_if p) /\ p_from p = t_mac tp (u, i) /\
              within (m_src (p_msg p)) u (m_hop (p_msg p)) P.

Record router_sound P (n : buf) R : Prop := {
  rs_routes : map_Forall (route_sound P n) (a_routes R);
  rs_parked : Forall (fun km => within (m_src km.2) n (m_hop km.2) P) (a_parked R);
  rs_ctr : 0 <= a_ctr R;
}.

Definition out_sound P (n : buf) (o : out) : Prop :=
  match o with
  | Unicast r m => (exists k, route_sound P n k r) /\ within (m_src m) n (m_hop m) P
  | Flood _ m => within (m_src m) n (m_hop m) P
  | Deliver _ _ => True
  end.

(** The result of a step of machine [n]. *)
Definition result_sound P (n : buf) (res : router * list out) : Prop :=
  router_sound P n res.1 /\ Forall (out_sound P n) res.2.

Definition net_sound (w : net) : Prop :=
  (forall n, router_sound (n_parks w) n (n_router w n)) /\
  Forall (packet_sound (n_parks w)) (n_pool w).

Lemma within_refl n h P : 0 <= h -> within n n h P.
Proof. exists 0%nat. split; [constructor|lia]. Qed.

Lemma within_mono s n h h' P P' :
  h + Z.of_nat P <= h' + Z.of_nat P' -> within s n h P -> within s n h' P'.
Proof. intros Hle (k & Hk & ?). exists k. split; [done|lia]. Qed.

Lemma within_link s u i v j h P : within s u h P -> linked tp u i v j -> within s v (h + 1) P.
Proof. intros (k & Hk & ?) Hl. exists (S k). split; [by eapply walk_snoc|lia]. Qed.

Lemma route_sound_mono P P' n k r :
  (P <= P')%nat -> route_sound P n k r -> route_sound P' n k r.
Proof.
  intros HP (u & i & Hl & Hv & Hw). exists u, i. split_and!; try done.
  eapply within_mono; [|exact Hw]. lia.
Qed.

Lemma packet_sound_mono P P' p : (P <= P')%nat -> packet_sound P p -> packet_sound P' p.
Proof.
  intros HP (u & i & Hl & Hv & Hw). exists u, i. split_and!; try done.
  eapply within_mono; [|exact Hw]. lia.
Qed.

Lemma router_sound_mono P P' n R : (P <= P')%nat -> router_sound P n R -> router_sound P' n R.
Proof.
  intros HP [Hr Hp Hc]. split; [|eapply Forall_impl; [exact Hp|]|done].
  - intros k r Hk. by eapply route_sound_mono, Hr.
  - intros km. by apply within_mono; lia.
Qed.

Lemma out_sound_mono P P' n o : (P <= P')%nat -> out_sound P n o -> out_sound P' n o.
Proof.
  intros HP. assert (forall s h, within s n h P -> within s n h P') as Hw
    by (intros s h; apply within_mono; lia).
  destruct o as [r m|ex m|]; cbn; [|auto..].
  intros [[k Hk] H]. split; [exists k; by eapply route_sound_mono|auto].
Qed.

Lemma result_sound_mono P P' n res : (P <= P')%nat -> result_sound P n res -> result_sound P' n res.
Proof.
  intros HP [H1 H2]. split; [by eapply router_sound_mono|].
  eapply Forall_impl; [exact H2|]. intros o. by apply out_sound_mono.
Qed.

(** The destination of a route is as far as the route says. *)
Lemma route_within P n k r : route_sound P n k r -> within k n (r_hops r) P.
Proof.
  intros (u & i & Hl & _ & Hw). eapply within_link in Hw; [|exact Hl].
  eapply within_mono; [|exact Hw]. lia.
Qed.

(** ** The parts of a step *)

Section Step.
Context {os : OS}.

Lemma a_lookup_sound P n stale flag ip R :
  router_sound P n R -> router_sound P n (a_lookup stale flag ip R).
Proof.
  intros [Hr Hp Hc]. destruct (a_lookup_frame stale flag ip R) as [Hc' Hp'].
  split; [|by rewrite Hp'|by rewrite Hc'].
  intros k r. rewrite a_lookup_routes. intros Hk. apply (Hr k).
  destruct (a_routes R !! k); [|done].
  destruct (decide _); [destruct (a_expired _ _ _ _)|]; by simplify_eq.
Qed.

(** Learning from a frame that came over a link. *)
Lemma a_learn_sound P n u i m intf b rs R R' :
  linked tp u i n intf -> within (m_src m) u (m_hop m) P -> router_sound P n R ->
  a_learn m intf (t_mac tp (u, i)) R = (b, rs, R') ->
  router_sound P n R' /\ route_sound P n (m_src m) rs /\ a_parked R' = a_parked R.
Proof.
  intros Hl Hw [Hr Hp Hc] E. destruct (a_learn_frame _ _ _ _ _ _ _ E) as (Hc' & Hp' & Hs & Ho).
  assert (route_sound P n (m_src m) rs) as Hrs.
  { unfold a_learn in E. destruct (a_routes R !! m_src m) as [r0|] eqn:E0; [destruct (decide _)|];
      simplify_eq; [|by apply (Hr (m_src m))|];
      (exists u, i; split_and!; [done..|]; cbn [r_hops]; eapply within_mono; [|exact Hw]; lia). }
  split_and!; [split|done|done]; [|by rewrite Hp'|by rewrite Hc'].
  intros k r Hk. destruct (decide (k = m_src m)) as [->|Hne]; [by simplify_eq|].
  rewrite Ho in Hk by done. by apply Hr.
Qed.

Lemma upd_ctr_sound P n c R : 0 <= c -> router_sound P n R -> router_sound P n (upd_ctr c R).
Proof. intros ? []. by split. Qed.

Lemma upd_parked_sound P n q R :
  Forall (fun km => within (m_src km.2) n (m_hop km.2) P) q ->
  router_sound P n R -> router_sound P n (upd_parked q R).
Proof. intros ? []. by split. Qed.

(** Parking a frame that came over a link makes up for one missing hop. *)
Lemma a_park_sound P n m intf R :
  within (m_src m) n (m_hop m + 1) P -> router_sound P n R ->
  result_sound (P + 1) n (a_park m intf n R).
Proof.
  intros Hw HR. pose proof (rs_ctr _ _ _ HR) as Hc.
  apply (router_sound_mono P (P + 1)) in HR; [|lia]. split; cbn.
  - apply upd_ctr_sound; [lia|]. apply upd_parked_sound; [|done].
    constructor; [|by apply HR]. eapply within_mono; [|exact Hw]. cbn [snd]. lia.
  - apply Forall_singleton. by apply within_refl.
Qed.

Lemma a_take_sound (Q : buf * msg -> Prop) ip q om q' :
  Forall Q q -> a_take ip q = (om, q') ->
  Forall Q q' /\ (forall m, om = Some m -> Q (ip, m)).
Proof.
  intros HQ. revert om q'. induction HQ as [|[k m] q Hm Hq IH]; intros om q'; cbn.
  { intros [= <- <-]. split; [constructor|done]. }
  destruct (decide (k = ip)) as [->|Hne].
  - intros [= <- <-]. split; [done|]. by intros ? [= <-].
  - destruct (a_take ip q) as [om1 q1] eqn:E. destruct (IH _ _ eq_refl) as [IH1 IH2].
    intros [= <- <-]. split; [by constructor|done].
Qed.

Lemma a_take_length ip q om q' : a_take ip q = (om, q') -> (length q' <= length q)%nat.
Proof.
  revert om q'. induction q as [|[k m] q IH]; intros om q'; cbn.
  { by intros [= <- <-]. }
  destruct (decide (k = ip)); [intros [= <- <-]; lia|].
  destruct (a_take ip q) as [om1 q1] eqn:E. intros [= <- <-]. specialize (IH _ _ eq_refl). cbn. lia.
Qed.

(** ** A whole step *)

Section Frame.
Context (P : nat) (n u : buf) (i intf : Z) (m : msg) (R : router).
Hypothesis Hlink : linked tp u i n intf.
Hypothesis Hnear : within (m_src m) u (m_hop m) P.
Hypothesis HR : router_sound P n R.

Lemma here : within (m_src m) n (m_hop m + 1) P.
Proof using Hlink Hnear. by eapply within_link. Qed.

Lemma spec_rreq_sound : result_sound P n (spec_rreq n intf (t_mac tp (u, i)) m R).
Proof using Hlink Hnear HR.
  unfold spec_rreq. destruct (a_learn m intf _ R) as [[b rs] R1] eqn:EL.
  destruct (a_learn_sound P n u i m intf b rs R R1 Hlink Hnear HR EL) as (HR1 & Hrs & _).
  pose proof (rs_ctr _ _ _ HR1) as Hc. pose proof here as Hn.
  assert (forall ty, Forall (out_sound P n) (if b then [Flood intf (passed_on ty m)] else [])) as Hf
    by (intros ty; destruct b; [by apply Forall_singleton|constructor]).
  destruct (decide (m_dst m = n)) as [Hd|Hd]; [|destruct (a_routes R1 !! m_dst m) as [rd|] eqn:Erd].
  - split; [apply upd_ctr_sound; [lia|done]|]. apply Forall_singleton. split; [by exists (m_src m)|].
    cbn. rewrite Hd. by apply within_refl.
  - split; [apply upd_ctr_sound; [lia|done]|]. constructor; [|apply Hf].
    split; [by exists (m_src m)|]. by eapply route_within, HR1.
  - split; [done|apply Hf].
Qed.

Lemma spec_asent_sound : result_sound P n (spec_asent intf (t_mac tp (u, i)) m R).
Proof using Hlink Hnear HR.
  unfold spec_asent. destruct (a_learn m intf _ R) as [[b rs] R1] eqn:EL.
  destruct (a_learn_sound P n u i m intf b rs R R1 Hlink Hnear HR EL) as (HR1 & Hrs & _).
  split; [done|]. pose proof here. destruct b; [by apply Forall_singleton|constructor].
Qed.

(** The frames sent on, or parked. *)
Lemma onwards_sound rs R1 (f : route -> msg) P' :
  router_sound P n R1 -> route_sound P n (m_src m) rs -> a_parked R1 = a_parked R ->
  (forall rd, m_src (f rd) = m_src m /\ m_hop (f rd) = r_hops rs) ->
  let res := match a_routes R1 !! m_dst m with
             | Some rd => (R1, [Unicast rd (f rd)])
             | None => a_park m intf n R1
             end in
  (P + newly_parked R res.1 <= P')%nat -> result_sound P' n res.
Proof using Hlink Hnear HR.
  intros HR1 Hrs Hq Hf res HP. unfold res in *. destruct (a_routes R1 !! m_dst m) as [rd|] eqn:Erd.
  - split; [eapply router_sound_mono; [|exact HR1]; lia|]. apply Forall_singleton.
    destruct (Hf rd) as [Hs Hh]. cbn. rewrite Hs, Hh. split.
    + exists (m_dst m). eapply route_sound_mono; [|by eapply HR1]. lia.
    + eapply within_mono; [|by eapply route_within]. lia.
  - destruct (a_park_sound P n m intf R1 here HR1) as [H1 H2].
    unfold newly_parked in HP. cbn in HP. rewrite Hq in HP.
    split; [eapply router_sound_mono; [|exact H1]; lia|].
    apply Forall_singleton. by apply within_refl.
Qed.

Lemma spec_data_sound ports P' :
  let res := spec_data n ports intf (t_mac tp (u, i)) m R in
  (P + newly_parked R res.1 <= P')%nat -> result_sound P' n res.
Proof using Hlink Hnear HR.
  unfold spec_data. destruct (a_learn m intf _ R) as [[b rs] R1] eqn:EL.
  destruct (a_learn_sound P n u i m intf b rs R R1 Hlink Hnear HR EL) as (HR1 & Hrs & Hq).
  destruct (decide (m_dst m = n)).
  - intros HP. split; [eapply router_sound_mono; [|exact HR1]; cbn in HP; lia|].
    destruct (ports _); [by apply Forall_singleton|constructor].
  - by apply (onwards_sound rs R1 (fun _ => set_hop (r_hops rs) m)).
Qed.

Lemma spec_rrep_sound P' :
  let res := spec_rrep n intf (t_mac tp (u, i)) m R in
  (P + newly_parked R res.1 <= P')%nat -> result_sound P' n res.
Proof using Hlink Hnear HR.
  unfold spec_rrep. destruct (a_learn m intf _ R) as [[b rs] R1] eqn:EL.
  destruct (a_learn_sound P n u i m intf b rs R R1 Hlink Hnear HR EL) as (HR1 & Hrs & Hq).
  destruct (decide (m_dst m = n)); [|by apply (onwards_sound rs R1 (fun _ => fwd_reply m (r_hops rs)))].
  destruct (a_take (m_src m) (a_parked R1)) as [om q] eqn:Et. intros HP. cbn in HP.
  apply (router_sound_mono P P') in HR1; [|lia]. apply (route_sound_mono P P') in Hrs; [|lia].
  destruct (a_take_sound _ _ _ _ _ (rs_parked _ _ _ HR1) Et) as [Hq' Hm].
  split; [by apply upd_parked_sound|]. destruct om as [pm|]; [|constructor].
  specialize (Hm pm eq_refl). cbn in Hm.
  destruct (m_type pm =? __RREP); [|destruct (m_type pm =? __DATA); [|constructor]];
    (apply Forall_singleton; split; [by exists (m_src m)|done]).
Qed.
End Frame.
End Step.

Lemma received_sound os_of stale_of w p ports :
  net_sound w -> packet_sound (n_parks w) p ->
  result_sound (n_parks w + newly_parked (n_router w (p_to p)) (received os_of stale_of w p ports).1)
    (p_to p) (received os_of stale_of w p ports).
Proof.
  intros [HR _] (u & i & Hl & Hfr & Hw). specialize (HR (p_to p)). unfold received. rewrite Hfr.
  rewrite spec_frame_switch. set (R0 := n_router w (p_to p)) in *.
  destruct (a_duplicate (p_msg p) R0).
  { cbn. split; [eapply router_sound_mono; [|exact HR]; lia|constructor]. }
  set (R2 := a_lookup _ _ _ _).
  assert (router_sound (n_parks w) (p_to p) R2) as HR2 by (by do 2 apply a_lookup_sound).
  assert (forall R', newly_parked R2 R' = newly_parked R0 R') as Hnp
    by (intros R'; unfold newly_parked, R2; by rewrite !(proj2 (a_lookup_frame _ _ _ _))).
  unfold spec_switch. set (P := n_parks w) in *.
  destruct (m_type (p_msg p) =? __RREQ); [eapply result_sound_mono; [|by apply spec_rreq_sound]; lia|].
  destruct (m_type (p_msg p) =? __RREP); [by eapply (spec_rrep_sound P); [..|rewrite Hnp]|].
  destruct (m_type (p_msg p) =? __DATA); [by eapply (spec_data_sound P); [..|rewrite Hnp]|].
  destruct (m_type (p_msg p) =? __ASENT); [eapply result_sound_mono; [|by apply spec_asent_sound]; lia|].
  split; [eapply router_sound_mono; [|exact HR2]; lia|constructor].
Qed.

Lemma asked_sound os_of stale_of w n port rq ports :
  net_sound w -> result_sound (n_parks w) n (asked os_of stale_of w n port rq ports).
Proof.
  intros [HR _]. specialize (HR n). unfold asked, spec_request.
  destruct (decide (q_dst rq = n)).
  { split; [done|]. destruct (ports _); [by apply Forall_singleton|constructor]. }
  apply (@a_lookup_sound (os_of n) _ _ (stale_of n) (q_flag rq) (q_dst rq)) in HR.
  set (R1 := a_lookup _ _ _ _) in *. pose proof (rs_ctr _ _ _ HR) as Hc.
  destruct (a_routes R1 !! q_dst rq) as [rd|] eqn:Erd.
  - split; [done|]. apply Forall_singleton. split; [|by apply within_refl].
    exists (q_dst rq). by apply HR.
  - split.
    + apply upd_ctr_sound; [lia|]. apply upd_parked_sound; [|done].
      constructor; [|by apply HR]. apply within_refl. cbn. lia.
    + apply Forall_singleton. by apply within_refl.
Qed.

Lemma emit_sound P n os : Forall (out_sound P n) os -> Forall (packet_sound P) (emit_outs tp n os).
Proof.
  intros Hos. apply Forall_forall. intros p (o & Hp & Ho)%list_elem_of_bind.
  rewrite Forall_forall in Hos. specialize (Hos o Ho). destruct o as [r m|ex m|]; cbn in Hp, Hos.
  - apply list_elem_of_fmap in Hp as ([v j] & -> & [_ Hq]%list_elem_of_filter).
    destruct Hos as [(k & u & i & [_ Hl] & _) Hw].
    exists n, (r_if r). split_and!; [split; [|done]|done|done].
    by apply elem_of_peers in Hl as [? _].
  - apply list_elem_of_bind in Hp as (i & Hp & [_ Hi]%list_elem_of_filter).
    apply list_elem_of_fmap in Hp as ([v j] & -> & Hq).
    exists n, i. split_and!; [split; [|done]|done|done]. by apply elem_of_ifs.
  - by apply elem_of_nil in Hp.
Qed.

Lemma moved_sound w n res rest parks :
  net_sound w -> Forall (packet_sound (n_parks w)) rest ->
  result_sound (n_parks w + parks) n res -> net_sound (moved tp w n res rest parks).
Proof.
  intros [HR _] Hrest [Hr Ho]. split; cbn.
  - intros n'. destruct (decide (n = n')) as [<-|Hne].
    + by rewrite fn_lookup_insert.
    + rewrite fn_lookup_insert_ne by done. eapply router_sound_mono; [|apply HR]. lia.
  - apply Forall_app. split; [|by apply emit_sound]. eapply Forall_impl; [exact Hrest|].
    intros p. apply packet_sound_mono. lia.
Qed.

(** Every step keeps the invariant. *)
Lemma net_step_sound os_of stale_of w e w' :
  net_step tp os_of stale_of w e w' -> net_sound w -> net_sound w'.
Proof.
  intros [l1 p l2 ports Hpool|n port rq ports|l1 p l2 Hpool|n c] Hw; pose proof Hw as [HR Hp].
  - rewrite Hpool in Hp. apply Forall_app in Hp as [H1 [Hpp H2]%Forall_cons].
    apply moved_sound; [done| |by apply received_sound]. by apply Forall_app.
  - apply moved_sound; [done..|]. rewrite Nat.add_0_r. by apply asked_sound.
  - rewrite Hpool in Hp. apply Forall_app in Hp as [H1 [_ H2]%Forall_cons].
    split; [done|]. by apply Forall_app.
  - apply moved_sound; [done..|]. rewrite Nat.add_0_r. split; [|constructor].
    by destruct (HR n).
Qed.

End Soundness.

Section Runs.
Context (tp : topology) (os_of : buf -> OS) (stale_of : buf -> Z).

Lemma net_run_app w es1 w1 es2 w2 :
  net_run tp os_of stale_of w es1 w1 -> net_run tp os_of stale_of w1 es2 w2 ->
  net_run tp os_of stale_of w (es1 ++ es2) w2.
Proof.
  intros H1 H2. induction H2 as [|w1 es2 w2 e w3 H2 IH He]; [by rewrite app_nil_r|].
  rewrite app_assoc. eapply run_snoc; [by apply IH|done].
Qed.

Lemma net_run_one w e w' : net_step tp os_of stale_of w e w' -> net_run tp os_of stale_of w [e] w'.
Proof. intros H. apply (run_snoc _ _ _ w [] w); [constructor|done]. Qed.

Lemma do_recvs_run fuel ports w :
  exists es, net_run tp os_of stale_of w es (do_recvs tp os_of stale_of fuel ports w).
Proof.
  revert w. induction fuel as [|fuel IH]; intros w; cbn; [exists []; constructor|].
  destruct (IH (do_recv tp os_of stale_of ports w)) as [es Hes].
  unfold do_recv in *. destruct (n_pool w) as [|p rest] eqn:E; [by exists es|].
  exists ([Recv p (ports (p_to p))] ++ es). eapply net_run_app; [|exact Hes].
  apply net_run_one. by apply (net_recv _ _ _ _ [] p rest).
Qed.

(** Every reachable network is sound. *)
Lemma reachable_sound c es w :
  (forall n, 0 <= c n) -> net_run tp os_of stale_of (net_init c) es w -> net_sound tp w.
Proof.
  intros Hc Hrun. remember (net_init c) as w0 eqn:E0. induction Hrun as [|w es w1 e w2 _ IH He].
  - subst. split; [|constructor]. intros n. split; [|constructor|apply Hc].
    intros k r. cbn. by rewrite lookup_empty.
  - eapply net_step_sound; [exact He|]. by apply IH.
Qed.
End Runs.

(** ** Properties *)

(** In every run of a network of daemons, with any losses and in any order
    of deliveries, every route of every table names a real neighbour on the
    segment of its interface, that neighbour is connected to the destination,
    and the hop count is at least the length of a walk there, up to the number
    of received frames that have been parked (a parked frame is sent on with
    the hop count it came with). *)
Theorem routes_are_real tp os_of stale_of c es w n d r :
  (forall v, 0 <= c v) -> net_run tp os_of stale_of (net_init c) es w ->
  a_routes (n_router w n) !! d = Some r ->
  exists u i k, linked tp u i n (r_if r) /\ r_via r = take HWADDR (t_mac tp (u, i)) /\
    walk tp d u k /\ Z.of_nat k + 1 <= r_hops r + Z.of_nat (n_parks w).
Proof.
  intros Hc Hrun Hr. apply reachable_sound in Hrun as [HR _]; [|done].
  apply (rs_routes _ _ _ _ (HR n)) in Hr as (u & i & Hl & Hv & k & Hk & Hle).
  exists u, i, k. split_and!; try done. lia.
Qed.
