(* ===== verification/NetDemo.v ===== *)
(** * Runs of small networks

    Networks of three and four machines, run by the definitions of file Network:
    a discovery that succeeds, and two runs in which the protocol goes wrong. *)

From S2P Require Import Prelude CLib Inet Frame DList Node Demo Utils Ports RTable PQueue Send.
From S2P Require Import Spec SpecFacts Network.

(** ** A line of machines

    vm1 to vm4; interface 4 of each is connected to interface 3 of the next. *)
Definition vm_index (ip : buf) : Z :=
  default 0 (snd <$> list_find (fun k => ip = vm_ip k) [1; 2; 3; 4; 5; 6; 7; 8; 9; 10]).

Definition line4 : topology :=
  Topology [(vm_ip 1, 4); (vm_ip 2, 3); (vm_ip 2, 4); (vm_ip 3, 3); (vm_ip 3, 4); (vm_ip 4, 3)]
           (fun p => if p.2 =? 4 then vm_index p.1 else vm_index p.1 - 1)
           (fun p => bytes [0; 12; 41; 62 + p.2; 227; vm_index p.1]).

Definition line_os (ip : buf) : OS := demo_os (demo_ifs (vm_index ip)).
Definition line_stale (ip : buf) : Z := 60.
Definition line_ports (ip : buf) (port : Z) : option buf :=
  if port =? 5500 then Some (chars "/tmp/server") else None.

(** vm1 asks the server of vm3 for the time. *)
Definition line_asked : net :=
  do_ask line4 line_os line_stale (vm_ip 1) 909 (mkRequest (vm_ip 3) 5500 (chars "time?") 0)
    (fun _ => None) (net_init (fun _ => 10)).
Definition line_done : net := do_recvs line4 line_os line_stale 12 line_ports line_asked.

(** The frames come to rest; the data reached the process at vm3, and vm1 has a
    route to it over vm2. *)
Example line_delivers :
  n_pool line_done = [] /\
  n_log line_done = [(vm_ip 3, chars "/tmp/server", peer_text (vm_ip 1) 909 (chars "time?"))] /\
  (r_hops <$> a_routes (n_router line_done (vm_ip 1)) !! vm_ip 3) = Some 2.
Proof. vm_compute. auto. Qed.

Lemma routes_are_real_witness :
  match a_routes (n_router line_done (vm_ip 1)) !! vm_ip 3 with
  | Some r => exists u i k, linked line4 u i (vm_ip 1) (r_if r) /\
      r_via r = take HWADDR (t_mac line4 (u, i)) /\
      walk line4 (vm_ip 3) u k /\ Z.of_nat k + 1 <= r_hops r + Z.of_nat (n_parks line_done)
  | None => False
  end.
Proof.
  destruct (do_recvs_run line4 line_os line_stale 12 line_ports line_asked) as [es Hes].
  destruct (a_routes (n_router line_done (vm_ip 1)) !! vm_ip 3) as [r|] eqn:E.
  - apply (routes_are_real line4 line_os line_stale (fun _ => 10)
             ([Ask (vm_ip 1) 909 (mkRequest (vm_ip 3) 5500 (chars "time?") 0) (fun _ => None)] ++ es)
             line_done (vm_ip 1) (vm_ip 3) r); [lia | | exact E].
    eapply net_run_app; [|exact Hes]. apply net_run_one, net_ask.
  - assert (bool_decide (is_Some (a_routes (n_router line_done (vm_ip 1)) !! vm_ip 3)) = true) as Hs
      by (vm_compute; reflexivity).
    rewrite E in Hs. discriminate Hs.
Defined.

(** ** A hop that is not counted

    The same line, but the routes of vm2 are stale at once (staleness parameter
    0).  vm2 parks the reply of vm3, asks for vm1, and sends the reply on with
    the hop count it came with: vm1 takes vm3 for a neighbour. *)
Definition stale2 (ip : buf) : Z := if bool_decide (ip = vm_ip 2) then 0 else 60.
Definition parked_done : net :=
  do_recvs line4 line_os stale2 6 line_ports
    (do_ask line4 line_os stale2 (vm_ip 1) 909 (mkRequest (vm_ip 3) 5500 (chars "time?") 0)
       (fun _ => None) (net_init (fun _ => 10))).

Example parked_hop_lost :
  (r_hops <$> a_routes (n_router parked_done (vm_ip 1)) !! vm_ip 3) = Some 1 /\
  n_parks parked_done = 1%nat /\
  (vm_index <$> (fst <$> (peers line4 (vm_ip 1, 4)))) = [2].
Proof. vm_compute. auto. Qed.

(** ** A routing loop

    vm2 in the middle, connected to vm1, vm3 and vm4; all with a staleness
    parameter of 60 seconds.  At second 0 vm3 asks for vm1 over vm2, and learns
    the route one second later than vm2.  At second 60 the route of vm2 has
    expired and that of vm3 has not.  vm4 asks for vm1: vm3 answers with its old
    route, under its own broadcast counter, which is ahead of that of vm1, so
    that vm2 prefers it to the answer of vm1. *)
Definition star4 : topology :=
  Topology [(vm_ip 1, 3); (vm_ip 2, 3); (vm_ip 2, 4); (vm_ip 3, 3); (vm_ip 2, 5); (vm_ip 4, 3)]
           (fun p => if vm_index p.1 =? 2 then p.2
                     else if vm_index p.1 =? 1 then 3 else vm_index p.1 + 1)
           (fun p => bytes [0; 12; 41; 62 + p.2; 227; vm_index p.1]).

(** The clocks: the first readings, during the first discovery, are at second 0
    (second 1 at vm3), all later ones at second 60. *)
Definition early (k : Z) : nat := if k =? 1 then 3 else if k =? 2 then 6 else 1.
Definition star_os (ip : buf) : OS :=
  let o := demo_os (demo_ifs (vm_index ip)) in
  {| os_localtime := @os_localtime o;
     os_time n := if bool_decide (n < early (vm_index ip))%nat
                  then mkTv (if vm_index ip =? 3 then 1 else 0) 0 else mkTv 60 0;
     os_sendto := @os_sendto o; os_gethostbyaddr := @os_gethostbyaddr o;
     os_gethostbyname := @os_gethostbyname o; os_ifsock := @os_ifsock o;
     os_ifconf := @os_ifconf o; os_ioctl_if := @os_ioctl_if o |}.

Definition ask_vm1 (from : Z) (w : net) : net :=
  do_ask star4 star_os line_stale (vm_ip from) 909 (mkRequest (vm_ip 1) 5500 (chars "time?") 0)
    (fun _ => None) w.
Definition star_first : net := do_recvs star4 star_os line_stale 12 line_ports (ask_vm1 3 (net_init (fun _ => 10))).
Definition star_second : net := do_recvs star4 star_os line_stale 12 line_ports (ask_vm1 4 star_first).

(** vm2 now sends frames for vm1 to vm3, vm3 sends them to vm2, and the data of
    vm4 goes back and forth between the two. *)
Example routing_loop :
  (r_via <$> a_routes (n_router star_second (vm_ip 2)) !! vm_ip 1) = Some (t_mac star4 (vm_ip 3, 3)) /\
  (r_via <$> a_routes (n_router star_second (vm_ip 3)) !! vm_ip 1) = Some (t_mac star4 (vm_ip 2, 4)) /\
  n_log star_second = n_log star_first /\
  (fun p => (vm_index (m_src (p_msg p)), vm_index (m_dst (p_msg p)), m_type (p_msg p)))
    <$> n_pool star_second = [(4, 1, __DATA)].
Proof. vm_compute. auto. Qed.
