(* ===== verification/Flood.v ===== *)
(** * Floods end

    A request is passed on by every machine that learns something from it, and
    a machine learns again from a copy over an equally long path.  As long as no
    route is dropped on the way (by age, or by the route-discovery flag), a copy
    is passed on only by machines that none of its predecessors went through,
    because the hop count grows along the way.  So the number of copies received
    is bounded, whatever the topology, the order of deliveries, the losses and
    the other traffic. *)

From stdpp Require Import functions.
From S2P Require Import Prelude CLib Inet Frame DList Node Demo Utils Ports RTable PQueue Send.
From S2P Require Import Spec SpecFacts Network NetDemo.

(** Frames that are flooded: requests and their ASENT form. *)
Definition is_flood (m : msg) : bool := (m_type m =? __RREQ) || (m_type m =? __ASENT).

Section Bound.
Context (tp : topology).

Definition machines : list buf := remove_dups (fst <$> t_ports tp).

(** The frames one flood of a machine becomes, and the most there can be. *)
Definition fan (n : buf) : nat := length (ifs_of tp n ≫= fun i => peers tp (n, i)).
Definition degree : nat := max_list (fan <$> machines).

(** How many receptions a copy can cause that may still pass [k] machines. *)
Fixpoint effort (k : nat) : nat :=
  match k with O => 1 | S k' => 1 + degree * effort k' end.

(** All receptions one frame on the way can cause, and one new flood. *)
Definition copy_bound : nat := effort (length machines).
Definition flood_bound : nat := degree * copy_bound.
End Bound.

Section Calm.
Context (tp : topology) (os_of : buf -> OS) (stale_of : buf -> Z).

(** No route is dropped in this step. *)
Definition keeps (w : net) (e : net_event) : Prop :=
  match e with
  | Recv p _ => forall k r, a_routes (n_router w (p_to p)) !! k = Some r ->
      ~ @dropped (os_of (p_to p)) (stale_of (p_to p)) (p_msg p) (n_router w (p_to p)) k r
  | Ask n _ rq _ => forall r, q_dst rq <> n -> a_routes (n_router w n) !! q_dst rq = Some r ->
      a_expired (stale_of n) (@os_time (os_of n) (a_clock (n_router w n))) (q_flag rq) r = false
  | Lose _ | Tick _ _ => True
  end.

Definition flood_received (e : net_event) : nat :=
  match e with Recv p _ => if is_flood (p_msg p) then 1 else 0 | _ => 0 end.

(** Frames parked in this step, each of which comes with a new flood. *)
Definition parked_by (w : net) (e : net_event) (w' : net) : nat :=
  match e with
  | Recv p _ => newly_parked (n_router w (p_to p)) (n_router w' (p_to p))
  | Ask n _ _ _ => newly_parked (n_router w n) (n_router w' n)
  | Lose _ | Tick _ _ => 0
  end.

(** Runs in which no route is dropped, with the number of flooded frames
    received and of frames parked. *)
Inductive calm_run (w0 : net) : nat -> nat -> net -> Prop :=
  | calm_nil : calm_run w0 0 0 w0
  | calm_snoc f q w e w' :
      calm_run w0 f q w -> net_step tp os_of stale_of w e w' -> keeps w e ->
      calm_run w0 (f + flood_received e) (q + parked_by w e w') w'.
End Calm.

(** * Lemmas *)

Section Routers.
Context {os : OS}.
Implicit Types (R : router) (m : msg) (r : route).

(** [R] will not learn from [m], nor from a copy of it that went further. *)
Definition settled R m : Prop :=
  exists r, a_routes R !! m_src m = Some r /\
            (m_bid m < r_bid r \/ (r_bid r = m_bid m /\ r_hops r <= m_hop m)).

Lemma settled_no_worse R R' m :
  (forall k r, a_routes R !! k = Some r -> exists r', a_routes R' !! k = Some r' /\ no_worse r' r) ->
  settled R m -> settled R' m.
Proof.
  intros Hw (r & Hr & Hb). destruct (Hw _ _ Hr) as (r' & Hr' & Hn). exists r'. split; [done|].
  destruct Hn as [?|[? ?]]; destruct Hb as [?|[? ?]]; lia.
Qed.

Lemma settled_not_better R m r :
  settled R m -> a_routes R !! m_src m = Some r -> ~ a_better m r.
Proof. intros (r' & Hr' & Hb) Hr. simplify_eq. unfold a_better. lia. Qed.

Lemma settled_passed_on R m ty : settled R (passed_on ty m) <->
  exists r, a_routes R !! m_src m = Some r /\
            (m_bid m < r_bid r \/ (r_bid r = m_bid m /\ r_hops r <= m_hop m + 1)).
Proof. done. Qed.

(** What learning from [m] does. *)
Lemma a_learn_changed m intf via R b rs R' :
  a_learn m intf via R = (b, rs, R') ->
  (b = true -> ~ settled R m /\ forall ty, settled R' (passed_on ty m)) /\ (b = false -> R' = R).
Proof.
  unfold a_learn. destruct (a_routes R !! m_src m) as [r|] eqn:E; [destruct (decide _) as [Hb|Hb]|];
    intros [= <- <- <-]; (split; [intros Hbt|intros Hbf]); try done; (split; [|intros ty]).
  - intros Hs. by eapply settled_not_better.
  - eexists. cbn. rewrite lookup_insert_eq. split; [done|]. right. cbn. lia.
  - intros (r & Hr & _). congruence.
  - eexists. cbn. rewrite lookup_insert_eq. split; [done|]. right. cbn. lia.
Qed.

(** Lookups that drop nothing leave the routes alone. *)
Lemma lookups_keep stale m R :
  (forall k r, a_routes R !! k = Some r -> ~ dropped stale m R k r) ->
  a_routes (a_lookup stale 0 (m_src m) (a_lookup stale (m_rdf m) (m_dst m) R)) = a_routes R.
Proof.
  intros Hk. apply map_eq. intros k. rewrite !a_lookup_routes.
  destruct (a_routes R !! k) as [r|] eqn:E; [|done]. specialize (Hk k r E). unfold dropped in Hk.
  destruct (decide (k = m_dst m)) as [Hd|Hd];
    [destruct (a_expired stale (os_time (a_clock R)) (m_rdf m) r); [by exfalso; auto|]|];
    (destruct (decide (k = m_src m)) as [Hs|Hs]; [|done]);
    (destruct (a_expired stale _ 0 r) eqn:Ex; [by exfalso; auto|done]).
Qed.

(** ** Outputs *)

Definition floods (os : list out) : nat :=
  sum_list ((fun o => match o with Flood _ _ => 1%nat | _ => 0%nat end) <$> os).

(** All that is sent: unicast frames are not of a flooded type, and flooded
    frames satisfy [F]. *)
Definition outs_are (F : msg -> Prop) (os : list out) : Prop :=
  Forall (fun o => match o with
                   | Unicast _ m => is_flood m = false
                   | Flood _ m => F m
                   | Deliver _ _ => True
                   end) os.

Ltac outs := unfold outs_are, floods; cbn; repeat (constructor; try done).

(** A flooded frame: at most one flood, of the frame passed on, and only if
    something was learned. *)
Lemma spec_frame_flood ip stale ports intf via m R :
  is_flood m = true -> (forall k r, a_routes R !! k = Some r -> ~ dropped stale m R k r) ->
  let res := (spec_frame ip stale ports intf via m R).2 in
  outs_are (fun m' => exists ty, m' = passed_on ty m) res.2 /\
  (floods res.2 = 0%nat \/
   floods res.2 = 1%nat /\ ~ settled R m /\ forall ty, settled res.1 (passed_on ty m)).
Proof.
  intros Hm Hk. rewrite spec_frame_switch. destruct (a_duplicate m R); [split; [by outs|by left]|].
  pose proof (lookups_keep stale m R Hk) as HR2. set (R2 := a_lookup _ _ _ _) in *.
  assert (settled R m -> settled R2 m) as Hs by (unfold settled; by rewrite HR2).
  destruct (a_learn m intf via R2) as [[b rs] R3] eqn:EL.
  apply a_learn_changed in EL as HL. destruct HL as [Ht Hf].
  unfold is_flood in Hm. unfold spec_switch, spec_rreq, spec_asent. rewrite EL.
  assert (forall R', a_routes R' = a_routes R3 -> b = true ->
            ~ settled R m /\ forall ty, settled R' (passed_on ty m)) as Hb.
  { intros R' HR' Hb. destruct (Ht Hb) as [H1 H2]. split; [by auto|].
    intros ty'. unfold settled. rewrite HR'. apply H2. }
  destruct (m_type m =? __RREQ).
  - cbn [snd]. destruct (decide (m_dst m = ip)); [split; [by outs|by left]|].
    destruct (a_routes R3 !! m_dst m); destruct b; (split; [outs; by eexists|]);
      first [by left | by right; split; [|by apply Hb]].
  - destruct (m_type m =? __RREP) eqn:E2; [apply Z.eqb_eq in E2; by rewrite E2 in Hm|].
    destruct (m_type m =? __DATA) eqn:E3; [apply Z.eqb_eq in E3; by rewrite E3 in Hm|].
    cbn [orb] in Hm. rewrite Hm. cbn [snd].
    destruct b; (split; [outs; by eexists|]); first [by left | by right; split; [|by apply Hb]].
Qed.
(** What a router starts itself: one flood per frame it parks. *)
Definition starts (R : router) (res : router * list out) : Prop :=
  outs_are (fun _ => True) res.2 /\ (floods res.2 <= newly_parked R res.1)%nat.

Lemma spec_frame_other ip stale ports intf via m R :
  is_flood m = false -> starts R (spec_frame ip stale ports intf via m R).2.
Proof.
  intros Hm. rewrite spec_frame_switch. destruct (a_duplicate m R); [split; [by outs|cbn; lia]|].
  set (R2 := a_lookup _ _ _ _).
  assert (a_parked R2 = a_parked R) as Hp2 by (unfold R2; by rewrite !(proj2 (a_lookup_frame _ _ _ _))).
  destruct (a_learn m intf via R2) as [[b rs] R3] eqn:EL.
  destruct (a_learn_frame _ _ _ _ _ _ _ EL) as (_ & Hp3 & _).
  unfold is_flood in Hm. apply orb_false_iff in Hm as [H1 H4].
  unfold spec_switch, spec_rrep, spec_data, starts, newly_parked. rewrite EL, H1, H4.
  destruct (m_type m =? __RREP) eqn:E2; [|destruct (m_type m =? __DATA) eqn:E3]; cbn [snd].
  - destruct (decide _).
    + destruct (a_take _ _) as [[pm|] q]; [|split; [by outs|cbn; lia]].
      destruct (m_type pm =? __RREP); [split; [by outs|cbn; lia]|].
      destruct (Z.eqb_spec (m_type pm) __DATA) as [E3|]; [|split; [by outs|cbn; lia]].
      split; [|cbn; lia]. outs. unfold is_flood. by rewrite E3.
    + destruct (a_routes R3 !! m_dst m); (split; [by outs|cbn; try rewrite Hp3, Hp2; lia]).
  - destruct (decide _); [destruct (ports _); (split; [by outs|cbn; lia])|].
    destruct (a_routes R3 !! m_dst m); (split; [|cbn; try rewrite Hp3, Hp2; lia]); [|by outs].
    outs. unfold is_flood. cbn. by rewrite H1, H4.
  - split; [by outs|cbn; lia].
Qed.

Lemma spec_request_starts ip stale ports port rq R :
  starts R (spec_request ip stale ports port rq R).
Proof.
  unfold spec_request, starts, newly_parked. destruct (decide _).
  { destruct (ports _); (split; [by outs|cbn; lia]). }
  pose proof (proj2 (a_lookup_frame stale (q_flag rq) (q_dst rq) R)) as Hp.
  cbv zeta. destruct (a_routes _ !! _); (split; [by outs|cbn; try rewrite Hp; lia]).
Qed.

(** A request that drops no route leaves the routes alone. *)
Lemma spec_request_routes ip stale ports port rq R :
  (forall r, q_dst rq <> ip -> a_routes R !! q_dst rq = Some r ->
     a_expired stale (os_time (a_clock R)) (q_flag rq) r = false) ->
  a_routes (spec_request ip stale ports port rq R).1 = a_routes R.
Proof.
  intros Hk. unfold spec_request. destruct (decide _) as [|Hne]; [done|].
  assert (a_routes (a_lookup stale (q_flag rq) (q_dst rq) R) = a_routes R) as Hl.
  { apply map_eq. intros k. rewrite a_lookup_routes. destruct (a_routes R !! k) as [r|] eqn:E; [|done].
    destruct (decide _) as [->|]; [|done]. by rewrite (Hk r). }
  cbv zeta. by destruct (a_routes (a_lookup _ _ _ R) !! _).
Qed.
End Routers.

(** ** Weights *)

Section Weights.
Context (tp : topology).

(** A frame on the way with the machines its copies have passed. *)
Definition trace : Type := packet * list buf.

Definition weight (t : trace) : nat :=
  if is_flood (p_msg t.1) then effort tp (length (machines tp) - length t.2) else 0.
Definition total (A : list trace) : nat := sum_list (weight <$> A).

Lemma sum_list_app l1 l2 : sum_list (l1 ++ l2) = (sum_list l1 + sum_list l2)%nat.
Proof. induction l1; cbn; lia. Qed.

Lemma total_app A B : total (A ++ B) = (total A + total B)%nat.
Proof. unfold total. by rewrite fmap_app, sum_list_app. Qed.

Lemma total_nil_le A n : (forall t, t ∈ A -> (weight t <= n)%nat) -> (total A <= length A * n)%nat.
Proof.
  induction A as [|t A IH]; intros H; [cbn; lia|].
  change (total (t :: A)) with (weight t + total A)%nat. cbn [length].
  pose proof (H t ltac:(constructor)). assert (total A <= length A * n)%nat; [|lia].
  apply IH. intros t' Ht'. apply H. by constructor.
Qed.

Lemma elem_of_machines n i : (n, i) ∈ t_ports tp -> n ∈ machines tp.
Proof.
  intros H. apply elem_of_remove_dups, list_elem_of_fmap. by exists (n, i).
Qed.

Lemma fan_le n : (fan tp n <= degree tp)%nat.
Proof.
  destruct (decide (n ∈ machines tp)) as [Hn|Hn].
  - unfold degree. apply max_list_elem_of_le. apply list_elem_of_fmap. by exists n.
  - unfold fan. destruct (ifs_of tp n) as [|i l] eqn:E; [cbn; lia|]. exfalso. apply Hn.
    eapply elem_of_machines, elem_of_ifs. rewrite E. constructor.
Qed.

Lemma emit_flood_length n ex m : (length (emit_out tp n (Flood ex m)) <= degree tp)%nat.
Proof.
  etransitivity; [|apply (fan_le n)]. unfold fan. cbn [emit_out].
  induction (ifs_of tp n) as [|i l IH]; [done|].
  rewrite filter_cons. destruct (decide _); cbn; rewrite !length_app, ?length_fmap; [lia|].
  etransitivity; [exact IH|]. lia.
Qed.

(** The frames a machine sends, as traces that have passed [V]. *)
Definition sends (n : buf) (V : list buf) (os : list out) : list trace :=
  (fun p => (p, V)) <$> emit_outs tp n os.

Lemma emit_msgs F n os p :
  outs_are F os -> p ∈ emit_outs tp n os -> is_flood (p_msg p) = true -> F (p_msg p).
Proof.
  intros Ho (o & Hp & Hin)%list_elem_of_bind Hf. unfold outs_are in Ho. rewrite Forall_forall in Ho.
  specialize (Ho o Hin). destruct o as [r m|ex m|]; cbn in Hp.
  - apply list_elem_of_fmap in Hp as (q & -> & _). cbn in *. congruence.
  - apply list_elem_of_bind in Hp as (i & Hp & _).
    by apply list_elem_of_fmap in Hp as (q & -> & _).
  - by apply elem_of_nil in Hp.
Qed.

Lemma total_sends F n V os :
  outs_are F os ->
  (total (sends n V os) <=
   floods os * (degree tp * effort tp (length (machines tp) - length V)))%nat.
Proof.
  set (E := effort tp _). intros Ho. unfold sends, emit_outs.
  induction Ho as [|o os Ho _ IH]; [cbn; lia|].
  change ((o :: os) ≫= emit_out tp n) with (emit_out tp n o ++ (os ≫= emit_out tp n)).
  rewrite fmap_app, total_app.
  change (floods (o :: os)) with ((match o with Flood _ _ => 1 | _ => 0 end) + floods os)%nat.
  assert (total ((fun p => (p, V)) <$> emit_out tp n o) <=
          (match o with Flood _ _ => 1 | _ => 0 end) * (degree tp * E))%nat; [|lia].
  destruct o as [r m|ex m|path data]; [| |cbn; lia].
  - transitivity (length ((fun p : packet => (p, V)) <$> emit_out tp n (Unicast r m)) * 0)%nat; [|lia].
    apply total_nil_le. intros t (p & -> & Hp)%list_elem_of_fmap. cbn in Hp.
    apply list_elem_of_fmap in Hp as (q & -> & _). unfold weight. cbn. by rewrite Ho.
  - transitivity (length ((fun p : packet => (p, V)) <$> emit_out tp n (Flood ex m)) * E)%nat.
    + apply total_nil_le. intros t (p & -> & _)%list_elem_of_fmap. unfold weight, E. cbn.
      destruct (is_flood _); lia.
    + rewrite length_fmap. pose proof (emit_flood_length n ex m). nia.
Qed.
End Weights.

(** ** Steps *)

Section StepLemmas.
Context (tp : topology) (os_of : buf -> OS) (stale_of : buf -> Z).

(** No router forgets or worsens a route. *)
Definition improves (w w' : net) : Prop :=
  forall v k r, a_routes (n_router w v) !! k = Some r ->
    exists r', a_routes (n_router w' v) !! k = Some r' /\ no_worse r' r.

(** The machines a copy has passed are distinct and will not pass it again. *)
Definition cleared (w : net) (t : trace) : Prop :=
  p_to t.1 ∈ machines tp /\
  (is_flood (p_msg t.1) = true ->
   NoDup t.2 /\ t.2 ⊆ machines tp /\ forall v, v ∈ t.2 -> settled (n_router w v) (p_msg t.1)).

Definition tracked (w : net) (A : list trace) : Prop :=
  fst <$> A = n_pool w /\ Forall (cleared w) A.

Lemma no_worse_refl r : no_worse r r.
Proof. right. lia. Qed.

Lemma cleared_improves w w' t : improves w w' -> cleared w t -> cleared w' t.
Proof.
  intros Hi [Hto Hc]. split; [done|]. intros Hf. destruct (Hc Hf) as (H1 & H2 & H3).
  split_and!; [done..|]. intros v Hv. eapply settled_no_worse; [|by apply H3]. apply Hi.
Qed.

Lemma cleared_fresh w p : p_to p ∈ machines tp -> cleared w (p, []).
Proof.
  intros Hto. split; [done|]. intros _. cbn. split_and!; [constructor|by intros ? ?%elem_of_nil..].
Qed.

Lemma settled_further R m ty : settled R m -> settled R (passed_on ty m).
Proof. intros (r & Hr & Hb). exists r. split; [done|]. cbn. lia. Qed.

Lemma moved_improves w n res rest parks :
  (forall k r, a_routes (n_router w n) !! k = Some r ->
     exists r', a_routes res.1 !! k = Some r' /\ no_worse r' r) ->
  improves w (moved tp w n res rest parks).
Proof.
  intros H v k r Hr. cbn. destruct (decide (n = v)) as [<-|Hne].
  - rewrite fn_lookup_insert. by apply H.
  - rewrite fn_lookup_insert_ne by done. exists r. split; [done|apply no_worse_refl].
Qed.

Lemma received_improves w p ports rest parks :
  keeps os_of stale_of w (Recv p ports) ->
  improves w (moved tp w (p_to p) (received os_of stale_of w p ports) rest parks).
Proof.
  intros Hk. apply moved_improves. intros k r Hr.
  destruct (@spec_frame_freshness (os_of (p_to p)) (p_to p) (stale_of (p_to p)) ports (p_if p)
              (p_from p) (p_msg p) _ _ _ Hr) as [H|H]; [exact H|].
  by destruct (Hk _ _ Hr).
Qed.

Lemma emit_to n os p : p ∈ emit_outs tp n os -> p_to p ∈ machines tp.
Proof.
  intros (o & Hp & _)%list_elem_of_bind.
  assert (forall i m q, q ∈ peers tp (n, i) -> p = on_link tp n i m q -> p_to p ∈ machines tp) as H.
  { intros i m [v j] [Hq _]%elem_of_peers ->. by eapply elem_of_machines. }
  destruct o as [r m|ex m|]; cbn in Hp.
  - apply list_elem_of_fmap in Hp as (q & -> & [_ Hq]%list_elem_of_filter). by eapply H.
  - apply list_elem_of_bind in Hp as (i & Hp & _).
    apply list_elem_of_fmap in Hp as (q & -> & Hq). by eapply H.
  - by apply elem_of_nil in Hp.
Qed.

(** Taking a frame from the pool, with its trace. *)
Lemma tracked_split w A l1 p l2 :
  tracked w A -> n_pool w = l1 ++ p :: l2 ->
  exists A1 V A2, A = A1 ++ (p, V) :: A2 /\ fst <$> A1 = l1 /\ fst <$> A2 = l2.
Proof.
  intros [Hp _] Hl. rewrite Hl in Hp.
  apply fmap_app_inv in Hp as (A1 & B & -> & HB & ->).
  destruct B as [|[p' V] A2]; [done|]. injection HB as -> ->. by exists A1, V, A2.
Qed.

Lemma tracked_moved w A n res l parks V :
  fst <$> A = l -> Forall (cleared w) A -> improves w (moved tp w n res l parks) ->
  Forall (cleared (moved tp w n res l parks)) (sends tp n V res.2) ->
  tracked (moved tp w n res l parks) (A ++ sends tp n V res.2).
Proof.
  intros <- HA Hi HS. split.
  - rewrite fmap_app. cbn. f_equal. unfold sends. rewrite <- list_fmap_compose. apply list_fmap_id.
  - apply Forall_app. split; [|done]. eapply Forall_impl; [exact HA|].
    intros t. by apply cleared_improves.
Qed.

Lemma effort_pos k : (1 <= effort tp k)%nat.
Proof. destruct k; cbn; lia. Qed.

(** A flooded frame is received: the weight goes down. *)
Lemma step_flood w A l1 p l2 ports parks :
  tracked w A -> n_pool w = l1 ++ p :: l2 -> keeps os_of stale_of w (Recv p ports) ->
  is_flood (p_msg p) = true ->
  exists A', tracked (moved tp w (p_to p) (received os_of stale_of w p ports) (l1 ++ l2) parks) A' /\
             (1 + total tp A' <= total tp A)%nat.
Proof.
  intros HA Hl Hk Hf. destruct (tracked_split _ _ _ _ _ HA Hl) as (A1 & V & A2 & -> & <- & <-).
  destruct HA as [_ HA]. apply Forall_app in HA as [HA1 [Hp HA2]%Forall_cons].
  destruct Hp as [Hto Hp]. cbn in Hto, Hp. destruct (Hp Hf) as (HV1 & HV2 & HV3). clear Hp.
  pose proof (received_improves w p ports ((fst <$> A1) ++ (fst <$> A2)) parks Hk) as Hi.
  destruct (@spec_frame_flood (os_of (p_to p)) (p_to p) (stale_of (p_to p)) ports (p_if p) (p_from p)
              (p_msg p) (n_router w (p_to p)) Hf Hk) as [Ho Hn].
  fold (received os_of stale_of w p ports) in Ho, Hn. set (res := received os_of stale_of w p ports) in *.
  assert (Forall (cleared w) (A1 ++ A2)) as HA12 by by apply Forall_app.
  assert (weight tp (p, V) = effort tp (length (machines tp) - length V)) as Hwt
    by (unfold weight; cbn; by rewrite Hf).
  rewrite total_app. change (total tp ((p, V) :: A2)) with (weight tp (p, V) + total tp A2)%nat. rewrite Hwt.
  destruct Hn as [Hn|(Hn & Hnot & Hset)].
  - exists ((A1 ++ A2) ++ sends tp (p_to p) [] res.2). split.
    + apply tracked_moved; [by rewrite fmap_app|done|done|].
      apply Forall_forall. intros t (p' & -> & Hp')%list_elem_of_fmap.
      apply cleared_fresh. by eapply emit_to.
    + rewrite !total_app. pose proof (total_sends tp _ (p_to p) [] _ Ho) as Hs. rewrite Hn in Hs.
      pose proof (effort_pos (length (machines tp) - length V)). lia.
  - assert (p_to p ∉ V) as Hfresh by (intros Hin; by apply Hnot, HV3).
    assert (p_to p :: V ⊆ machines tp) as Hsub by (intros x [->|?]%elem_of_cons; auto).
    assert (length (p_to p :: V) <= length (machines tp))%nat as Hlen.
    { apply submseteq_length, NoDup_submseteq; [by constructor|done]. }
    exists ((A1 ++ A2) ++ sends tp (p_to p) (p_to p :: V) res.2). split.
    + apply tracked_moved; [by rewrite fmap_app|done|done|].
      apply Forall_forall. intros t (p' & -> & Hp')%list_elem_of_fmap. cbn.
      split; [by eapply emit_to|]. cbn. intros Hf'.
      destruct (emit_msgs tp _ _ _ _ Ho Hp' Hf') as [ty ->].
      split_and!; [by constructor|done|]. intros v [->|Hv]%elem_of_cons.
      * cbn. rewrite fn_lookup_insert. apply Hset.
      * apply settled_further. eapply settled_no_worse; [apply Hi|]. by apply HV3.
    + rewrite !total_app. pose proof (total_sends tp _ (p_to p) (p_to p :: V) _ Ho) as Hs.
      rewrite Hn in Hs. cbn [length] in Hs, Hlen.
      replace (length (machines tp) - length V)%nat
        with (S (length (machines tp) - S (length V))) by lia. cbn [effort]. lia.
Qed.

(** Any other step of a machine: a new flood for every frame it parks. *)
Lemma step_starts w A n res parks :
  Forall (cleared w) A -> improves w (moved tp w n res (fst <$> A) parks) ->
  starts (n_router w n) res ->
  exists A', tracked (moved tp w n res (fst <$> A) parks) A' /\
    (total tp A' <= total tp A + newly_parked (n_router w n) res.1 * flood_bound tp)%nat.
Proof.
  intros HA Hi [Ho Hn]. exists (A ++ sends tp n [] res.2). split.
  - apply tracked_moved; [done..|]. apply Forall_forall.
    intros t (p' & -> & Hp')%list_elem_of_fmap. apply cleared_fresh. by eapply emit_to.
  - rewrite total_app. pose proof (total_sends tp _ n [] _ Ho) as Hs. cbn [length] in Hs.
    rewrite Nat.sub_0_r in Hs. unfold flood_bound, copy_bound.
    pose proof (Nat.mul_le_mono_r _ _ (degree tp * effort tp (length (machines tp))) Hn). lia.
Qed.
(** One step of any kind. *)
Lemma step_total w A e w' :
  tracked w A -> net_step tp os_of stale_of w e w' -> keeps os_of stale_of w e ->
  exists A', tracked w' A' /\
    (flood_received e + total tp A' <= total tp A + parked_by w e w' * flood_bound tp)%nat.
Proof.
  intros HA Hs Hk. destruct Hs as [l1 p l2 ports Hl|n port rq ports|l1 p l2 Hl|n c]; cbn [flood_received parked_by].
  - destruct (is_flood (p_msg p)) eqn:Hf.
    + destruct (step_flood w A l1 p l2 ports
                  (newly_parked (n_router w (p_to p)) (received os_of stale_of w p ports).1) HA Hl Hk Hf)
        as (A' & HA' & Hle). exists A'. split; [done|]. lia.
    + destruct (tracked_split _ _ _ _ _ HA Hl) as (A1 & V & A2 & -> & <- & <-).
      destruct HA as [_ HA]. apply Forall_app in HA as [HA1 [_ HA2]%Forall_cons].
      cbn [n_router moved]. rewrite fn_lookup_insert. rewrite <- fmap_app.
      destruct (step_starts w (A1 ++ A2) (p_to p) (received os_of stale_of w p ports)
                  (newly_parked (n_router w (p_to p)) (received os_of stale_of w p ports).1))
        as (A' & HA' & Hle).
      { by apply Forall_app. } { by apply received_improves. } { by apply spec_frame_other. }
      exists A'. split; [done|]. rewrite !total_app in *.
      change (total tp ((p, V) :: A2)) with (weight tp (p, V) + total tp A2)%nat. lia.
  - destruct HA as [Hp HA]. cbn [n_router moved]. rewrite fn_lookup_insert. rewrite <- Hp.
    apply step_starts; [done| |by apply spec_request_starts].
    apply moved_improves. intros k r Hr. exists r. split; [|apply no_worse_refl].
    unfold asked. by rewrite spec_request_routes.
  - destruct (tracked_split _ _ _ _ _ HA Hl) as (A1 & V & A2 & -> & <- & <-).
    destruct HA as [_ HA]. apply Forall_app in HA as [HA1 [_ HA2]%Forall_cons].
    exists (A1 ++ A2). rewrite !total_app.
    change (total tp ((p, V) :: A2)) with (weight tp (p, V) + total tp A2)%nat. split; [|lia].
    split; [apply fmap_app|by apply Forall_app].
  - destruct HA as [Hp HA]. exists (A ++ sends tp n [] []). rewrite total_app. split; [|cbn; lia].
    apply (tracked_moved w A n (upd_clock c (n_router w n), [])); [done|done| |constructor].
    apply moved_improves. intros k r Hr. exists r. split; [done|apply no_worse_refl].
Qed.

Lemma calm_total w0 A0 f q w :
  tracked w0 A0 -> calm_run tp os_of stale_of w0 f q w ->
  exists A, tracked w A /\ (f + total tp A <= total tp A0 + q * flood_bound tp)%nat.
Proof.
  intros H0 Hrun. induction Hrun as [|f q w e w' _ (A & HA & Hle) Hs Hk]; [exists A0; split; [done|lia]|].
  destruct (step_total w A e w' HA Hs Hk) as (A' & HA' & Hle'). exists A'. split; [done|]. lia.
Qed.
End StepLemmas.

(** ** Properties *)

(** As long as no route is dropped, floods end.  The number of flooded
    frames (requests and their ASENT form) the machines receive is bounded by a
    constant of the topology for every frame that is on the way at the start and
    for every frame that is parked later, whatever the order of deliveries, the
    losses and the other traffic are; without new parked frames it is bounded
    outright. *)
Theorem floods_end tp os_of stale_of w0 f q w :
  Forall (fun p => p_to p ∈ machines tp) (n_pool w0) ->
  calm_run tp os_of stale_of w0 f q w ->
  (f <= length (n_pool w0) * copy_bound tp + q * flood_bound tp)%nat.
Proof.
  intros Hto Hrun.
  destruct (calm_total tp os_of stale_of w0 ((fun p => (p, [])) <$> n_pool w0) f q w) as (A & _ & Hle).
  - split; [rewrite <- list_fmap_compose; apply list_fmap_id|]. apply Forall_fmap.
    eapply Forall_impl; [exact Hto|]. intros p. apply cleared_fresh.
  - exact Hrun.
  - assert (total tp ((fun p => (p, [])) <$> n_pool w0) <= length (n_pool w0) * copy_bound tp)%nat; [|lia].
    rewrite <- (length_fmap (fun p : packet => (p, [] : list buf)) (n_pool w0)).
    apply total_nil_le. intros t (p & -> & _)%list_elem_of_fmap. unfold weight, copy_bound. cbn.
    destruct (is_flood _); rewrite ?Nat.sub_0_r; lia.
Qed.

(** Deliveries in order, as long as they drop no route: the flooded frames
    received, the frames parked, and the network. *)
#[export] Instance dropped_dec {os : OS} stale m R k r : Decision (dropped stale m R k r).
Proof. unfold dropped. solve_decision. Defined.

Section CalmRecvs.
Context (tp : topology) (os_of : buf -> OS) (stale_of : buf -> Z).

Fixpoint calm_recvs (fuel : nat) (ports : buf -> Z -> option buf) (w : net)
    : option (nat * nat * net) :=
  match fuel, n_pool w with
  | S fuel', p :: _ =>
      let w' := do_recv tp os_of stale_of ports w in
      if decide (map_Forall (fun k r =>
           ~ @dropped (os_of (p_to p)) (stale_of (p_to p)) (p_msg p) (n_router w (p_to p)) k r)
           (a_routes (n_router w (p_to p))))
      then
        '(f, q, w'') ← calm_recvs fuel' ports w';
        Some (flood_received (Recv p (ports (p_to p))) + f,
              parked_by w (Recv p (ports (p_to p))) w' + q, w'')%nat
      else None
  | _, _ => Some (0%nat, 0%nat, w)
  end.

Lemma calm_recvs_run w0 f0 q0 fuel ports w f q w' :
  calm_run tp os_of stale_of w0 f0 q0 w -> calm_recvs fuel ports w = Some (f, q, w') ->
  calm_run tp os_of stale_of w0 (f0 + f) (q0 + q) w'.
Proof.
  revert f0 q0 w f q. induction fuel as [|fuel IH]; intros f0 q0 w f q Hrun; cbn.
  { intros [= <- <- <-]. by rewrite !Nat.add_0_r. }
  destruct (n_pool w) as [|p rest] eqn:Ep.
  { intros [= <- <- <-]. by rewrite !Nat.add_0_r. }
  destruct (decide _) as [Hk|]; [|done].
  intros ([[f1 q1] w1] & H1 & [= <- <- <-])%bind_Some. rewrite !Nat.add_assoc.
  eapply IH; [|exact H1].
  apply (calm_snoc _ _ _ _ _ _ _ (Recv p (ports (p_to p)))); [done| |done].
  unfold do_recv. rewrite Ep. by apply (net_recv _ _ _ _ [] p rest).
Qed.
End CalmRecvs.

(** The whole discovery of the line of four machines: it receives two flooded
    frames; [copy_bound] allows 31 for the one at the start. *)
Lemma floods_end_witness :
  match calm_recvs line4 line_os line_stale 12 line_ports line_asked with
  | Some (f, q, w) =>
      f = 2%nat /\ q = 0%nat /\ n_pool w = [] /\ copy_bound line4 = 31%nat /\
      (f <= length (n_pool line_asked) * copy_bound line4 + q * flood_bound line4)%nat
  | None => False
  end.
Proof.
  destruct (calm_recvs line4 line_os line_stale 12 line_ports line_asked) as [[[f q] w]|] eqn:E.
  - assert ((fun r => (r.1, n_pool r.2)) <$> Some (f, q, w) = Some (2%nat, 0%nat, [])) as Hc
      by (rewrite <- E; vm_compute; reflexivity).
    injection Hc as Hf Hq Hp.
    split; [exact Hf|]. split; [exact Hq|]. split; [exact Hp|]. split; [vm_compute; reflexivity|].
    apply (floods_end line4 line_os line_stale line_asked f q w).
    + replace (n_pool line_asked) with (emit_outs line4 (vm_ip 1) (asked line_os line_stale
          (net_init (fun _ => 10)) (vm_ip 1) 909 (mkRequest (vm_ip 3) 5500 (chars "time?") 0)
          (fun _ => None)).2) by reflexivity.
      apply Forall_forall. intros p. apply emit_to.
    + apply (calm_recvs_run line4 line_os line_stale line_asked 0 0 12 line_ports line_asked);
        [constructor|exact E].
  - assert (bool_decide (is_Some (calm_recvs line4 line_os line_stale 12 line_ports line_asked)) = true) as Hs
      by (vm_compute; reflexivity).
    rewrite E in Hs. discriminate Hs.
Defined.
