(* ===== verification/Shortest.v ===== *)
(** * A flood finds shortest paths

    Machine [s] asks for machine [d] and floods a request.  Whatever the order in
    which the copies are received, and whatever other frames are, once no copy is
    on the way every machine has a route back to [s] that is no longer than any
    walk that does not pass through [d] (which answers and does not pass the
    request on); at [d] itself the route is a shortest one.  At any moment of the
    flood the routes back to [s] lead to [s]. *)

From stdpp Require Import functions.
From S2P Require Import Prelude CLib Inet Frame DList Node Demo Utils Ports RTable PQueue Send.
From S2P Require Import Spec SpecFacts Network NetDemo Flood.

Section Definitions.
Context (tp : topology) (os_of : buf -> OS) (stale_of : buf -> Z).
Context (s d : buf) (B : Z).

(** A copy of the request of [s] with broadcast id [B]. *)
Definition copy_of (m : msg) : Prop :=
  is_flood m = true /\ m_src m = s /\ m_bid m = B /\ m_rdf m <> 1 /\ m_dst m = d.

(** Steps that leave the flood alone: frames of [s] other than the copies are
    not received, no copy is lost, no route to [s] is dropped. *)
Definition quiet (w : net) (e : net_event) : Prop :=
  match e with
  | Recv p _ =>
      (copy_of (p_msg p) \/ m_src (p_msg p) <> s) /\
      forall r, a_routes (n_router w (p_to p)) !! s = Some r ->
        ~ @dropped (os_of (p_to p)) (stale_of (p_to p)) (p_msg p) (n_router w (p_to p)) s r
  | Ask n _ rq _ => forall r, q_dst rq <> n -> q_dst rq = s -> a_routes (n_router w n) !! s = Some r ->
      a_expired (stale_of n) (@os_time (os_of n) (a_clock (n_router w n))) (q_flag rq) r = false
  | Lose p => ~ copy_of (p_msg p)
  | Tick _ _ => True
  end.

Inductive quiet_run (w0 : net) : net -> Prop :=
  | quiet_nil : quiet_run w0 w0
  | quiet_snoc w e w' :
      quiet_run w0 w -> net_step tp os_of stale_of w e w' -> quiet w e -> quiet_run w0 w'.

(** The route to [s] that machine [v] has from this flood, with [h] hops. *)
Definition learned (w : net) (v : buf) (r : route) : Prop :=
  a_routes (n_router w v) !! s = Some r /\ r_bid r = B.

(** Walks from [s] that do not go on from [d]. *)
Inductive open_walk : buf -> nat -> Prop :=
  | open_nil : open_walk s 0
  | open_snoc u i v j k : open_walk u k -> u <> d -> linked tp u i v j -> open_walk v (S k).

(** Following the routes to [s] from [v] ends at [s] after [n] links. *)
Inductive leads_home (w : net) : buf -> nat -> Prop :=
  | home_here : leads_home w s 0
  | home_hop v r u i n :
      learned w v r -> linked tp u i v (r_if r) -> r_via r = take HWADDR (t_mac tp (u, i)) ->
      leads_home w u n -> leads_home w v (S n).

(** ** The invariant *)

(** [u] may pass on the request with hop count [h]. *)
Definition reached (w : net) (u : buf) (h : Z) : Prop :=
  u = s \/ exists r, learned w u r /\ r_hops r <= h.

(** A copy with hop count at most [h] has reached [v] or is on the way to it. *)
Definition covered (w : net) (v : buf) (h : Z) : Prop :=
  v = s \/ (exists r, learned w v r /\ r_hops r <= h + 1) \/
  exists p, p ∈ n_pool w /\ copy_of (p_msg p) /\ p_to p = v /\ m_hop (p_msg p) <= h.

Definition packet_ok (w : net) (p : packet) : Prop :=
  exists u i, linked tp u i (p_to p) (p_if p) /\ p_from p = t_mac tp (u, i) /\
    0 <= m_hop (p_msg p) /\ walk tp s u (Z.to_nat (m_hop (p_msg p))) /\
    reached w u (m_hop (p_msg p)) /\
    forall v j, linked tp u i v j -> covered w v (m_hop (p_msg p)).

Definition route_ok (w : net) (v : buf) (r : route) : Prop :=
  exists u i, linked tp u i v (r_if r) /\ r_via r = take HWADDR (t_mac tp (u, i)) /\
    1 <= r_hops r /\ walk tp s v (Z.to_nat (r_hops r)) /\ reached w u (r_hops r - 1).

Record flood_inv (w : net) : Prop := {
  fi_bid : forall v r, a_routes (n_router w v) !! s = Some r -> r_bid r <= B;
  fi_ctr : B <= a_ctr (n_router w s);
  fi_packets : forall p, p ∈ n_pool w -> copy_of (p_msg p) -> packet_ok w p;
  fi_routes : forall v r, learned w v r -> route_ok w v r;
  fi_start : forall i v j, linked tp s i v j -> covered w v 0;
  fi_spread : forall u r i v j, learned w u r -> u <> d -> linked tp u i v j ->
    covered w v (r_hops r);
}.

(** [s] has just asked for [d]. *)
Record just_asked (w : net) : Prop := {
  ja_routes : forall v r, a_routes (n_router w v) !! s = Some r -> r_bid r < B;
  ja_ctr : B <= a_ctr (n_router w s);
  ja_copies : forall p, p ∈ n_pool w -> copy_of (p_msg p) ->
    m_hop (p_msg p) = 0 /\ exists i, linked tp s i (p_to p) (p_if p) /\ p_from p = t_mac tp (s, i);
  ja_all : forall i v j, linked tp s i v j ->
    exists p, p ∈ n_pool w /\ copy_of (p_msg p) /\ p_to p = v /\ m_hop (p_msg p) = 0;
}.
End Definitions.

(** * Lemmas about one router *)

Section Router.
Context {os : OS} (s d : buf) (B : Z).
Implicit Types (R : router) (m : msg) (r : route).

Lemma lookups_keep_one stale m R k :
  (forall r, a_routes R !! k = Some r -> ~ dropped stale m R k r) ->
  a_routes (a_lookup stale 0 (m_src m) (a_lookup stale (m_rdf m) (m_dst m) R)) !! k
  = a_routes R !! k.
Proof.
  intros Hk. rewrite !a_lookup_routes. destruct (a_routes R !! k) as [r|] eqn:E; [|done].
  specialize (Hk r eq_refl). unfold dropped in Hk.
  destruct (decide (k = m_dst m)) as [Hd|Hd];
    [destruct (a_expired stale (os_time (a_clock R)) (m_rdf m) r); [by exfalso; auto|]|];
    (destruct (decide (k = m_src m)) as [Hs|Hs]; [|done]);
    (destruct (a_expired stale _ 0 r) eqn:Ex; [by exfalso; auto|done]).
Qed.

(** A frame of another source does not touch the route to [k]. *)
Lemma spec_frame_other_route ip stale ports intf via m R k :
  m_src m <> k -> (forall r, a_routes R !! k = Some r -> ~ dropped stale m R k r) ->
  a_routes (spec_frame ip stale ports intf via m R).2.1 !! k = a_routes R !! k.
Proof.
  intros Hne Hk. rewrite spec_frame_switch. destruct (a_duplicate m R); [done|].
  rewrite <- (lookups_keep_one stale m R k Hk). set (R2 := a_lookup _ _ _ _).
  destruct (spec_switch_shape ip ports intf via m R2) as (b & rs & R3 & HL & Hs & _).
  apply a_learn_frame in HL as (_ & _ & _ & HL).
  destruct Hs as [[-> _] | ->]; [done|]. by apply HL.
Qed.

(** What a router that receives a copy knows afterwards, and sends. *)
Lemma spec_frame_copy ip stale ports intf via m R :
  copy_of s d B m -> (forall r, a_routes R !! s = Some r -> r_bid r <= B /\ ~ dropped stale m R s r) ->
  let res := (spec_frame ip stale ports intf via m R).2 in
  exists r, a_routes res.1 !! s = Some r /\ r_bid r = B /\ r_hops r <= m_hop m + 1 /\
    (a_routes R !! s = Some r \/
     r_via r = take HWADDR via /\ r_if r = intf /\ r_hops r = m_hop m + 1 /\
     (ip <> d -> exists ty, (ty = __RREQ \/ ty = __ASENT) /\ Flood intf (passed_on ty m) ∈ res.2)).
Proof.
  intros (Hf & Hsrc & Hbid & Hrdf & Hdst) Hk. rewrite spec_frame_switch. unfold a_duplicate.
  rewrite (proj2 (Z.eqb_neq _ _) Hrdf). cbn [andb].
  assert (a_routes (a_lookup stale 0 (m_src m) (a_lookup stale (m_rdf m) (m_dst m) R)) !! s
          = a_routes R !! s) as HR2 by (apply lookups_keep_one; intros r Hr; by apply Hk).
  set (R2 := a_lookup _ _ _ _) in *.
  destruct (spec_switch_shape ip ports intf via m R2) as (b & rs & R3 & HL & Hsh & _).
  assert (a_routes (spec_switch ip ports intf via m R2).2.1 = a_routes R3) as Hroutes.
  { destruct Hsh as [[_ Hm1]|]; [|done]. exfalso. revert Hm1. unfold spec_switch, is_flood in *.
    destruct (m_type m =? __RREQ); [done|]. destruct (m_type m =? __RREP); [done|].
    destruct (m_type m =? __DATA); [done|]. cbn [orb] in Hf. by rewrite Hf. }
  cbv zeta. rewrite Hroutes. destruct (a_learn_frame _ _ _ _ _ _ _ HL) as (_ & _ & Hrs & _).
  rewrite Hsrc in Hrs. exists rs. split; [done|].
  assert ((b = false /\ a_routes R !! s = Some rs /\ ~ a_better m rs) \/
          (b = true /\ rs = mkRoute (take HWADDR via) intf (m_hop m + 1) (m_bid m) (os_time (a_clock R2))))
    as [(-> & Hr & Hnb)|[-> ->]].
  { unfold a_learn in HL. rewrite Hsrc, HR2 in HL.
    destruct (a_routes R !! s) as [r0|]; [destruct (decide (a_better m r0))|];
      injection HL as <- <- <-; [right; done|left; done|right; done]. }
  - destruct (Hk _ Hr) as [Hle _]. unfold a_better in Hnb. rewrite Hbid in Hnb.
    split_and!; [lia|lia|by left].
  - cbn. split_and!; [done|lia|]. right. split_and!; try done. intros Hip.
    unfold spec_switch, spec_rreq, spec_asent, is_flood in *. rewrite HL.
    destruct (m_type m =? __RREQ).
    + rewrite decide_False by congruence. cbn.
      destruct (a_routes R3 !! m_dst m); cbn; [exists __ASENT|exists __RREQ]; (split; [auto|]);
        [right|]; constructor.
    + destruct (m_type m =? __RREP) eqn:E2; [apply Z.eqb_eq in E2; by rewrite E2 in Hf|].
      destruct (m_type m =? __DATA) eqn:E3; [apply Z.eqb_eq in E3; by rewrite E3 in Hf|].
      cbn [orb] in Hf. rewrite Hf. exists __ASENT. split; [auto|]. constructor.
Qed.

(** What a router floods: a frame passed on, or a request of its own under a new
    broadcast id. *)
Definition flooded_by (ip : buf) R m m' : Prop :=
  (exists ty, m' = passed_on ty m) \/ (m_src m' = ip /\ a_ctr R < m_bid m').

Lemma spec_frame_msgs ip stale ports intf via m R :
  outs_are (flooded_by ip R m) (spec_frame ip stale ports intf via m R).2.2.
Proof.
  rewrite spec_frame_switch. destruct (a_duplicate m R); [constructor|]. set (R2 := a_lookup _ _ _ _).
  assert (a_ctr R2 = a_ctr R) as Hc2 by (unfold R2; by rewrite !(proj1 (a_lookup_frame _ _ _ _))).
  destruct (a_learn m intf via R2) as [[b rs] R3] eqn:EL.
  destruct (a_learn_frame _ _ _ _ _ _ _ EL) as (Hc3 & _ & _).
  assert (forall ty, flooded_by ip R m (passed_on ty m)) as Hp by (intros ty; left; by exists ty).
  assert (flooded_by ip R m (request_for m ip (a_ctr R3 + 1))) as Hq by (right; split; [done|cbn; lia]).
  unfold spec_switch, spec_rreq, spec_rrep, spec_data, spec_asent, a_park, outs_are. rewrite EL.
  destruct (m_type m =? __RREQ) eqn:E1; [|destruct (m_type m =? __RREP) eqn:E2;
    [|destruct (m_type m =? __DATA) eqn:E3; [|destruct (m_type m =? __ASENT) eqn:E4]]]; cbn [snd].
  - destruct (decide _); [by repeat constructor|].
    destruct (a_routes R3 !! _), b; repeat (apply Forall_cons_2; [first [done|apply Hp]|]); apply Forall_nil_2.
  - destruct (decide _).
    + destruct (a_take _ _) as [[pm|] q]; [|constructor]. destruct (m_type pm =? __RREP); [by repeat constructor|].
      destruct (m_type pm =? __DATA) eqn:E4; [|constructor]. apply Forall_singleton.
      unfold is_flood. apply Z.eqb_eq in E4. by rewrite E4.
    + destruct (a_routes R3 !! _); [by repeat constructor|]. by apply Forall_singleton.
  - destruct (decide _); [by destruct (ports _); repeat constructor|].
    destruct (a_routes R3 !! _); [|by apply Forall_singleton]. apply Forall_singleton.
    unfold is_flood. cbn. apply Z.eqb_eq in E3. by rewrite E3.
  - destruct b; [apply Forall_singleton, Hp|constructor].
  - constructor.
Qed.

Lemma spec_request_msgs ip stale ports port rq R :
  outs_are (fun m => m_src m = ip /\ a_ctr R < m_bid m) (spec_request ip stale ports port rq R).2.
Proof.
  unfold spec_request, outs_are. destruct (decide _); [by destruct (ports _); repeat constructor|].
  pose proof (proj1 (a_lookup_frame stale (q_flag rq) (q_dst rq) R)) as Hc.
  cbv zeta. destruct (a_routes _ !! _); [by repeat constructor|]. apply Forall_singleton. split; [done|cbn; lia].
Qed.

Lemma spec_request_route ip stale ports port rq R k :
  (forall r, q_dst rq <> ip -> q_dst rq = k -> a_routes R !! k = Some r ->
     a_expired stale (os_time (a_clock R)) (q_flag rq) r = false) ->
  a_routes (spec_request ip stale ports port rq R).1 !! k = a_routes R !! k.
Proof.
  intros Hk. unfold spec_request. destruct (decide _) as [|Hne]; [done|].
  assert (a_routes (a_lookup stale (q_flag rq) (q_dst rq) R) !! k = a_routes R !! k) as Hl.
  { rewrite a_lookup_routes. destruct (a_routes R !! k) as [r|] eqn:E; [|done].
    destruct (decide _) as [->|]; [|done]. by rewrite (Hk r). }
  cbv zeta. destruct (a_routes (a_lookup stale (q_flag rq) (q_dst rq) R) !! q_dst rq); exact Hl.
Qed.
End Router.

(** * The invariant holds *)

Section Invariant.
Context (tp : topology) (os_of : buf -> OS) (stale_of : buf -> Z).
Context (s d : buf) (B : Z).

Abbreviation learned := (learned s B).
Abbreviation copy := (copy_of s d B).
Abbreviation reached := (reached s B).
Abbreviation covered := (covered s d B).
Abbreviation flood_inv := (flood_inv tp s d B).

(** From one network to a later one. *)
Definition goes_on (w w' : net) : Prop :=
  (forall v r, learned w v r -> exists r', learned w' v r' /\ r_hops r' <= r_hops r) /\
  (forall p, p ∈ n_pool w -> copy (p_msg p) ->
     p ∈ n_pool w' \/ exists r, learned w' (p_to p) r /\ r_hops r <= m_hop (p_msg p) + 1).

Lemma goes_on_reached w w' u h : goes_on w w' -> reached w u h -> reached w' u h.
Proof.
  intros [Hl _] [->|(r & Hr & Hh)]; [by left|]. right.
  destruct (Hl _ _ Hr) as (r' & Hr' & ?). exists r'. split; [done|lia].
Qed.

Lemma goes_on_covered w w' v h : goes_on w w' -> covered w v h -> covered w' v h.
Proof.
  intros [Hl Hp] [->|[(r & Hr & Hh)|(p & Hin & Hc & <- & Hm)]]; [by left| |]; right.
  - left. destruct (Hl _ _ Hr) as (r' & Hr' & ?). exists r'. split; [done|lia].
  - destruct (Hp p Hin Hc) as [Hin'|(r & Hr & Hh)].
    + right. by exists p.
    + left. exists r. split; [done|lia].
Qed.

Lemma covered_mono w v h h' : h <= h' -> covered w v h -> covered w v h'.
Proof.
  intros Hle [->|[(r & Hr & Hh)|(p & Hin & Hc & Hto & Hm)]]; [by left| |]; right.
  - left. exists r. split; [done|lia].
  - right. exists p. split_and!; try done. lia.
Qed.

Lemma goes_on_packet w w' p : goes_on w w' -> packet_ok tp s d B w p -> packet_ok tp s d B w' p.
Proof.
  intros Hg (u & i & Hl & Hfr & H0 & Hw & Hr & Hc). exists u, i. split_and!; try done.
  - by eapply goes_on_reached.
  - intros v j Hv. eapply goes_on_covered; [done|]. by eapply Hc.
Qed.

Lemma goes_on_route w w' v r : goes_on w w' -> route_ok tp s B w v r -> route_ok tp s B w' v r.
Proof.
  intros Hg (u & i & Hl & Hv & H1 & Hw & Hr). exists u, i. split_and!; try done.
  by eapply goes_on_reached.
Qed.

(** A step that does not touch the routes to [s] nor the copies. *)
Lemma flood_inv_other w w' :
  flood_inv w ->
  (forall v, a_routes (n_router w' v) !! s = a_routes (n_router w v) !! s) ->
  a_ctr (n_router w s) <= a_ctr (n_router w' s) ->
  (forall p, copy (p_msg p) -> p ∈ n_pool w' <-> p ∈ n_pool w) -> flood_inv w'.
Proof.
  intros [H1 H2 H3 H4 H5 H6] Hr Hc Hp.
  assert (forall v r, learned w' v r <-> learned w v r) as Hl
    by (intros v r; unfold Shortest.learned; by rewrite Hr).
  assert (goes_on w w') as Hg.
  { split; [|intros p Hin Hcp; left; by apply Hp].
    intros v r Hv. exists r. split; [by apply Hl|lia]. }
  split.
  - intros v r. rewrite Hr. apply H1.
  - lia.
  - intros p Hin Hcp. eapply goes_on_packet; [done|]. apply H3; [by apply Hp|done].
  - intros v r Hv%Hl. eapply goes_on_route; [done|]. by apply H4.
  - intros i v j Hv. eapply goes_on_covered; [done|]. by eapply H5.
  - intros u r i v j Hu%Hl Hd Hv. eapply goes_on_covered; [done|]. by eapply H6.
Qed.

(** The copies a machine sends. *)
Lemma emitted n i q ex m os :
  Flood ex m ∈ os -> i ∈ ifs_of tp n -> i <> ex -> q ∈ peers tp (n, i) ->
  on_link tp n i m q ∈ emit_outs tp n os.
Proof.
  intros Ho Hi Hne Hq. apply list_elem_of_bind. exists (Flood ex m). split; [|done]. cbn.
  apply list_elem_of_bind. exists i. split; [by apply list_elem_of_fmap_2|].
  by apply list_elem_of_filter.
Qed.

(** Every frame sent comes from the machine; a flooded one goes to all others on
    its segment. *)
Lemma emitted_inv n os p :
  p ∈ emit_outs tp n os -> is_flood (p_msg p) = true -> outs_are (fun _ => True) os ->
  exists i, linked tp n i (p_to p) (p_if p) /\ p_from p = t_mac tp (n, i) /\
    forall v j, linked tp n i v j -> Packet v j (t_mac tp (n, i)) (p_msg p) ∈ emit_outs tp n os.
Proof.
  intros (o & Hp & Ho)%list_elem_of_bind Hf Hos.
  unfold outs_are in Hos. rewrite Forall_forall in Hos. specialize (Hos o Ho).
  destruct o as [r m|ex m|]; cbn in Hp.
  - apply list_elem_of_fmap in Hp as (q & -> & _). cbn in Hf. congruence.
  - apply list_elem_of_bind in Hp as (i & Hp & [Hne Hi]%list_elem_of_filter).
    apply list_elem_of_fmap in Hp as ([v j] & -> & Hq). cbn. exists i. split_and!; [|done|].
    + split; [by apply elem_of_ifs|done].
    + intros v' j' [_ Hv']. by eapply (emitted n i (v', j') ex).
  - by apply elem_of_nil in Hp.
Qed.

Lemma outs_are_weaken F os : outs_are F os -> outs_are (fun _ => True) os.
Proof. intros H. eapply Forall_impl; [exact H|]. by intros []. Qed.

(** Other frames: nothing about the flood changes. *)
Lemma step_other w l1 p l2 ports parks :
  flood_inv w -> n_pool w = l1 ++ p :: l2 -> quiet os_of stale_of s d B w (Recv p ports) ->
  m_src (p_msg p) <> s ->
  flood_inv (moved tp w (p_to p) (received os_of stale_of w p ports) (l1 ++ l2) parks).
Proof.
  intros Hinv Hl [_ Hk] Hs. set (n := p_to p) in *. set (res := received os_of stale_of w p ports).
  assert (a_ctr (n_router w n) <= a_ctr res.1) as Hc
    by (by destruct (@spec_frame_ctr (os_of n) n (stale_of n) ports (p_if p) (p_from p) (p_msg p) (n_router w n))).
  assert (outs_are (flooded_by n (n_router w n) (p_msg p)) res.2) as Ho by apply spec_frame_msgs.
  apply (flood_inv_other w); [done| | |].
  - intros v. cbn. destruct (decide (n = v)) as [<-|]; [|by rewrite fn_lookup_insert_ne].
    rewrite fn_lookup_insert. by apply spec_frame_other_route.
  - cbn. destruct (decide (n = s)) as [<-|]; [rewrite fn_lookup_insert; lia|].
    by rewrite fn_lookup_insert_ne.
  - intros q Hq. cbn [n_pool moved]. rewrite Hl, !elem_of_app, elem_of_cons. split; [|intros [?|[->|?]]; auto].
    + intros [[?|?]|Hin]; [auto..|]. exfalso. destruct Hq as (Hf & Hsrc & Hbid & _).
      destruct (emit_msgs tp _ _ _ _ Ho Hin Hf) as [[ty E]|[E1 E2]].
      * rewrite E in Hsrc. by cbn in Hsrc.
      * pose proof (fi_ctr _ _ _ _ _ Hinv) as HB. rewrite <- Hsrc, E1 in HB. lia.
    + destruct Hq as (_ & Hsrc & _). done.
Qed.

(** A local request: its flood is another one. *)
Lemma step_ask w n port rq ports :
  flood_inv w -> quiet os_of stale_of s d B w (Ask n port rq ports) ->
  flood_inv (moved tp w n (asked os_of stale_of w n port rq ports) (n_pool w) 0).
Proof.
  intros Hinv Hk. set (res := asked os_of stale_of w n port rq ports).
  assert (a_ctr (n_router w n) <= a_ctr res.1) as Hc
    by (by destruct (@spec_request_ctr (os_of n) n (stale_of n) ports port rq (n_router w n))).
  assert (outs_are (fun m => m_src m = n /\ a_ctr (n_router w n) < m_bid m) res.2) as Ho
    by apply spec_request_msgs.
  apply (flood_inv_other w); [done| | |].
  - intros v. cbn. destruct (decide (n = v)) as [<-|]; [|by rewrite fn_lookup_insert_ne].
    rewrite fn_lookup_insert. apply spec_request_route. intros r H1 H2 H3. by eapply Hk.
  - cbn. destruct (decide (n = s)) as [<-|]; [rewrite fn_lookup_insert; lia|].
    by rewrite fn_lookup_insert_ne.
  - intros q (Hf & Hsrc & Hbid & _). cbn [n_pool moved]. rewrite elem_of_app. split; [|by left].
    intros [?|Hin]; [done|]. exfalso. destruct (emit_msgs tp _ _ _ _ Ho Hin Hf) as [E1 E2].
    pose proof (fi_ctr _ _ _ _ _ Hinv) as HB. rewrite <- Hsrc, E1 in HB. lia.
Qed.
(** Two machines on the segment of a third. *)
Lemma same_segment u i n j v k :
  linked tp u i n j -> linked tp n j v k -> (v, k) = (u, i) \/ linked tp u i v k.
Proof.
  unfold linked. rewrite !elem_of_peers. intros (H1 & H2 & H3 & H4) (H5 & H6 & H7 & H8).
  destruct (decide ((v, k) = (u, i))) as [|Hne]; [by left|]. right. split_and!; try done. congruence.
Qed.

Lemma passed_on_copy ty m : ty = __RREQ \/ ty = __ASENT -> copy m -> copy (passed_on ty m).
Proof. intros Hty (Hf & ? & ? & ? & ?). split_and!; try done. by destruct Hty as [-> | ->]. Qed.

Lemma reached_covered w u h h' : h <= h' + 1 -> reached w u h -> covered w u h'.
Proof. intros Hle [->|(r & Hr & ?)]; [by left|]. right. left. exists r. split; [done|lia]. Qed.

Section CopyReceived.
Context (w : net) (l1 l2 : list packet) (p : packet) (ports : Z -> option buf) (parks : nat).
Hypothesis Hinv : flood_inv w.
Hypothesis Hpool : n_pool w = l1 ++ p :: l2.
Hypothesis Hcopy : copy (p_msg p).
Hypothesis Hkeep : forall r, a_routes (n_router w (p_to p)) !! s = Some r ->
  ~ @dropped (os_of (p_to p)) (stale_of (p_to p)) (p_msg p) (n_router w (p_to p)) s r.

Abbreviation res := (received os_of stale_of w p ports).
Abbreviation w' := (moved tp w (p_to p) res (l1 ++ l2) parks).

Lemma p_in_pool : p ∈ n_pool w.
Proof using Hpool. rewrite Hpool, elem_of_app, elem_of_cons. auto. Qed.

(** What the receiver knows afterwards. *)
Lemma copy_learned : exists r, learned w' (p_to p) r /\ r_hops r <= m_hop (p_msg p) + 1 /\
  (learned w (p_to p) r \/
   r_via r = take HWADDR (p_from p) /\ r_if r = p_if p /\ r_hops r = m_hop (p_msg p) + 1 /\
   (p_to p <> d -> exists ty, (ty = __RREQ \/ ty = __ASENT) /\
                              Flood (p_if p) (passed_on ty (p_msg p)) ∈ res.2)).
Proof using Hinv Hcopy Hkeep.
  destruct (@spec_frame_copy (os_of (p_to p)) s d B (p_to p) (stale_of (p_to p)) ports (p_if p) (p_from p)
              (p_msg p) (n_router w (p_to p)) Hcopy) as (r & Hr & Hb & Hh & Hcase).
  { intros r Hr. split; [by eapply fi_bid|by apply Hkeep]. }
  exists r. split_and!; [|done|].
  - split; [|done]. cbn. by rewrite fn_lookup_insert.
  - destruct Hcase as [?|?]; [left; done|by right].
Qed.

Lemma learned_elsewhere v r : v <> p_to p -> learned w' v r <-> learned w v r.
Proof. intros Hv. unfold Shortest.learned. cbn. by rewrite fn_lookup_insert_ne. Qed.

Lemma copy_goes_on : goes_on w w'.
Proof using Hinv Hpool Hcopy Hkeep.
  destruct copy_learned as (r & Hr & Hh & _). split.
  - intros v r0 Hr0. destruct (decide (v = p_to p)) as [->|Hv].
    + exists r. split; [done|].
      destruct (@spec_frame_freshness (os_of (p_to p)) (p_to p) (stale_of (p_to p)) ports (p_if p)
                  (p_from p) (p_msg p) _ s r0 (proj1 Hr0)) as [(r' & Hr' & Hn)|Hd];
        [|by destruct (Hkeep r0 (proj1 Hr0))].
      destruct Hr as [Hr Hb]. cbn in Hr. rewrite fn_lookup_insert in Hr.
      assert (r' = r) as -> by (unfold received in Hr; congruence).
      destruct Hr0 as [_ Hb0]. destruct Hn as [?|[_ ?]]; lia.
    + exists r0. split; [by apply learned_elsewhere|lia].
  - intros q Hq _. rewrite Hpool in Hq. cbn [n_pool moved].
    rewrite elem_of_app, elem_of_cons in Hq. rewrite !elem_of_app.
    destruct Hq as [?|[->|?]]; [tauto|right; by exists r|tauto].
Qed.

(** A copy the receiver sends on is in order. *)
Lemma sent_copy_ok q :
  q ∈ emit_outs tp (p_to p) res.2 -> copy (p_msg q) -> packet_ok tp s d B w' q.
Proof using Hinv Hpool Hcopy Hkeep.
  intros Hq Hc. destruct copy_learned as (r & Hr & Hh & _).
  destruct (fi_packets _ _ _ _ _ Hinv p p_in_pool Hcopy) as (u & i & Hl & _ & H0 & Hw & _ & _).
  pose proof (@spec_frame_msgs (os_of (p_to p)) (p_to p) (stale_of (p_to p)) ports (p_if p) (p_from p)
                (p_msg p) (n_router w (p_to p)) : outs_are _ res.2) as Ho.
  destruct (emitted_inv _ _ _ Hq (proj1 Hc) (outs_are_weaken _ _ Ho)) as (i' & Hl' & Hf' & Hall).
  assert (exists ty, p_msg q = passed_on ty (p_msg p)) as [ty Ety].
  { destruct (emit_msgs tp _ _ _ _ Ho Hq (proj1 Hc)) as [H|[E1 E2]]; [done|]. exfalso.
    pose proof (fi_ctr _ _ _ _ _ Hinv) as HB. destruct Hc as (_ & Hs & Hb & _).
    rewrite <- Hs, E1 in HB. lia. }
  assert (m_hop (p_msg q) = m_hop (p_msg p) + 1) as Eh by (by rewrite Ety).
  exists (p_to p), i'. rewrite Eh. split_and!; [done|done|lia| | |].
  - rewrite Z2Nat.inj_add by lia. rewrite Nat.add_1_r. by eapply walk_snoc.
  - right. by exists r.
  - intros v j Hv. right. right. exists (Packet v j (t_mac tp (p_to p, i')) (p_msg q)).
    split_and!; [|done|done|cbn; lia]. cbn. apply elem_of_app. right. by apply Hall.
Qed.

(** Learning from the copy spreads it further. *)
Lemma new_route_spreads r i v j :
  learned w' (p_to p) r -> r_hops r = m_hop (p_msg p) + 1 ->
  (exists ty, (ty = __RREQ \/ ty = __ASENT) /\ Flood (p_if p) (passed_on ty (p_msg p)) ∈ res.2) ->
  linked tp (p_to p) i v j -> covered w' v (r_hops r).
Proof using Hinv Hpool Hcopy Hkeep.
  intros Hr Hh (ty & Hty & Ho) Hl. pose proof copy_goes_on as Hg.
  destruct (decide (i = p_if p)) as [->|Hi].
  - destruct (fi_packets _ _ _ _ _ Hinv p p_in_pool Hcopy) as (u & i & Hul & _ & _ & _ & Hur & Hcov).
    destruct (same_segment _ _ _ _ _ _ Hul Hl) as [[= -> ->]|Hv].
    + eapply reached_covered; [|by eapply goes_on_reached]. lia.
    + eapply covered_mono; [|eapply goes_on_covered; [done|by eapply Hcov]]. lia.
  - right. right. exists (on_link tp (p_to p) i (passed_on ty (p_msg p)) (v, j)). destruct Hl as [Hi' Hv].
    split_and!; [|by apply passed_on_copy|done|cbn; lia]. cbn. apply elem_of_app. right.
    eapply emitted; [done| |done|done]. by apply elem_of_ifs.
Qed.

Lemma step_copy : flood_inv w'.
Proof using Hinv Hpool Hcopy Hkeep.
  pose proof copy_goes_on as Hg. destruct copy_learned as (r & Hr & Hh & Hcase).
  assert (forall r', learned w' (p_to p) r' -> r' = r) as Huniq.
  { intros r' [Hr' _]. destruct Hr as [Hr _]. congruence. }
  split.
  - intros v r' Hr'. destruct (decide (v = p_to p)) as [->|Hv].
    + destruct Hr as [Hr Hb]. assert (r' = r) as -> by congruence. lia.
    + cbn in Hr'. rewrite fn_lookup_insert_ne in Hr' by done. by eapply fi_bid.
  - etransitivity; [apply (fi_ctr _ _ _ _ _ Hinv)|]. cbn.
    destruct (decide (p_to p = s)) as [<-|]; [|by rewrite fn_lookup_insert_ne].
    rewrite fn_lookup_insert. by apply spec_frame_ctr.
  - intros q Hq Hc. cbn [n_pool moved] in Hq. apply elem_of_app in Hq as [Hq|Hq]; [|by apply sent_copy_ok].
    eapply goes_on_packet; [done|]. apply (fi_packets _ _ _ _ _ Hinv); [|done].
    rewrite elem_of_app in Hq. rewrite Hpool, elem_of_app, elem_of_cons. tauto.
  - intros v r' Hr'. destruct (decide (v = p_to p)) as [->|Hv].
    2: { apply learned_elsewhere in Hr'; [|done]. eapply goes_on_route; [done|]. by eapply fi_routes. }
    rewrite (Huniq r' Hr'). destruct Hcase as [Hold|(Hvia & Hif & Hhop & _)].
    { eapply goes_on_route; [done|]. by eapply fi_routes. }
    destruct (fi_packets _ _ _ _ _ Hinv p p_in_pool Hcopy) as (u & i & Hl & Hf & H0 & Hw & Hu & _).
    exists u, i. rewrite Hif, Hvia, Hhop, Hf. split_and!; [done|done|lia| |].
    + rewrite Z2Nat.inj_add by lia. rewrite Nat.add_1_r. by eapply walk_snoc.
    + replace (m_hop (p_msg p) + 1 - 1) with (m_hop (p_msg p)) by lia. by eapply goes_on_reached.
  - intros i v j Hv. eapply goes_on_covered; [done|]. by eapply fi_start.
  - intros u r' i v j Hu Hd Hl. destruct (decide (u = p_to p)) as [->|Hne].
    2: { apply learned_elsewhere in Hu; [|done]. eapply goes_on_covered; [done|]. by eapply fi_spread. }
    rewrite (Huniq r' Hu). destruct Hcase as [Hold|(_ & _ & Hhop & Hfl)].
    + eapply goes_on_covered; [done|]. by eapply fi_spread.
    + by eapply new_route_spreads; [| |apply Hfl|].
Qed.
End CopyReceived.

Lemma just_asked_inv w : just_asked tp s d B w -> flood_inv w.
Proof.
  intros [H1 H2 H3 H4].
  assert (forall v r, ~ learned w v r) as Hno by (intros v r [Hr Hb]; apply H1 in Hr; lia).
  assert (forall i v j, linked tp s i v j -> covered w v 0) as Hc.
  { intros i v j Hl. destruct (H4 _ _ _ Hl) as (p & Hp & Hcp & Hto & Hh). right. right.
    exists p. split_and!; try done. lia. }
  split; [| |intros p Hp Hcp|by intros v r ?%Hno|done|by intros u r i v j ?%Hno].
  - intros v r Hr. apply H1 in Hr. lia.
  - done.
  - destruct (H3 p Hp Hcp) as (Hh & i & Hl & Hf). exists s, i. rewrite Hh.
    split_and!; [done|done|done|apply walk_nil|by left|intros v j; apply Hc].
Qed.

Lemma quiet_run_inv w0 w :
  just_asked tp s d B w0 -> quiet_run tp os_of stale_of s d B w0 w -> flood_inv w.
Proof.
  intros H0 Hrun. induction Hrun as [|w e w' _ IH Hs Hq]; [by apply just_asked_inv|].
  destruct Hs as [l1 p l2 ports Hl|n port rq ports|l1 p l2 Hl|n c].
  - destruct (proj1 Hq) as [Hc|Hne]; [apply step_copy; [done..|apply Hq]|by apply step_other].
  - by apply step_ask.
  - apply (flood_inv_other w); [done..|]. intros q Hc. cbn. rewrite Hl.
    rewrite !elem_of_app, elem_of_cons. split; [tauto|]. intros [?|[->|?]]; [tauto| |tauto]. done.
  - apply (flood_inv_other w); [done| | |].
    + intros v. cbn. destruct (decide (n = v)) as [<-|]; [by rewrite fn_lookup_insert|].
      by rewrite fn_lookup_insert_ne.
    + cbn. destruct (decide (n = s)) as [<-|]; [by rewrite fn_lookup_insert|]. by rewrite fn_lookup_insert_ne.
    + intros q Hc. cbn. by rewrite app_nil_r.
Qed.
End Invariant.

(** ** Following the routes *)

Section Results.
Context (tp : topology) (os_of : buf -> OS) (stale_of : buf -> Z).
Context (s d : buf) (B : Z).

Lemma routes_lead_home w v r :
  flood_inv tp s d B w -> learned s B w v r ->
  exists n, leads_home tp s B w v n /\ Z.of_nat n <= r_hops r.
Proof.
  intros Hinv Hr. assert (1 <= r_hops r) as H1 by (by destruct (fi_routes _ _ _ _ _ Hinv v r Hr) as (?&?&?&?&?&_)).
  remember (Z.to_nat (r_hops r)) as k eqn:Ek. revert v r Hr H1 Ek.
  induction (lt_wf k) as [k _ IH]. intros v r Hr H1 Ek.
  destruct (fi_routes _ _ _ _ _ Hinv v r Hr) as (u & i & Hl & Hv & _ & _ & [->|(r' & Hr' & Hle)]).
  - exists 1%nat. split; [|lia]. eapply home_hop; [done..|constructor].
  - assert (1 <= r_hops r') as H1' by (by destruct (fi_routes _ _ _ _ _ Hinv u r' Hr') as (?&?&?&?&?&_)).
    destruct (IH (Z.to_nat (r_hops r')) ltac:(lia) u r' Hr' H1' eq_refl) as (n & Hn & Hnle).
    exists (S n). split; [by eapply home_hop|lia].
Qed.

(** At rest, a machine is covered only by what it knows. *)
Lemma covered_at_rest w v h :
  (forall p, p ∈ n_pool w -> ~ copy_of s d B (p_msg p)) -> covered s d B w v h -> v <> s ->
  exists r, learned s B w v r /\ r_hops r <= h + 1.
Proof. intros Hrest [->|[?|(p & Hp & Hc & _)]] Hv; [done|done|by destruct (Hrest p Hp)]. Qed.

Lemma open_walk_bound w v k :
  flood_inv tp s d B w -> (forall p, p ∈ n_pool w -> ~ copy_of s d B (p_msg p)) ->
  open_walk tp s d v k -> v <> s -> exists r, learned s B w v r /\ r_hops r <= Z.of_nat k.
Proof.
  intros Hinv Hrest Hw. induction Hw as [|u i v j k _ IH Hd Hl]; intros Hv; [done|].
  destruct (decide (u = s)) as [->|Hu].
  - destruct (covered_at_rest w v 0 Hrest) as (r & Hr & Hle); [by eapply fi_start|done|].
    exists r. split; [done|lia].
  - destruct (IH Hu) as (r & Hr & Hle).
    destruct (covered_at_rest w v (r_hops r) Hrest) as (r' & Hr' & Hle'); [by eapply fi_spread|done|].
    exists r'. split; [done|lia].
Qed.

(** A walk to [d] can be cut where it first meets [d]. *)
Lemma walk_cut v k :
  s <> d -> walk tp s v k ->
  open_walk tp s d v k \/ exists k', (k' <= k)%nat /\ open_walk tp s d d k'.
Proof.
  intros Hsd Hw. induction Hw as [|u i v j k _ IH Hl]; [left; constructor|].
  destruct IH as [IH|(k' & Hk' & IH)]; [|right; exists k'; split; [lia|done]].
  destruct (decide (u = d)) as [->|Hu]; [right; exists k; split; [lia|done]|].
  left. by eapply open_snoc.
Qed.

(** What a machine knows at rest, if a walk from [s] leads to it. *)
Lemma shortest_at_rest w v k :
  s <> d -> flood_inv tp s d B w -> (forall p, p ∈ n_pool w -> ~ copy_of s d B (p_msg p)) ->
  v <> s -> open_walk tp s d v k \/ (v = d /\ walk tp s d k) ->
  exists r, learned s B w v r /\ r_hops r <= Z.of_nat k /\ walk tp s v (Z.to_nat (r_hops r)).
Proof.
  intros Hsd Hinv Hrest Hv Hw.
  assert (exists k', (k' <= k)%nat /\ open_walk tp s d v k') as (k' & Hk & Ho).
  { destruct Hw as [Ho|[-> Hw]]; [by exists k|].
    destruct (walk_cut d k Hsd Hw) as [Ho|(k' & ? & Ho)]; [by exists k|by exists k']. }
  destruct (open_walk_bound w v k' Hinv Hrest Ho Hv) as (r & Hr & Hle). exists r.
  split_and!; [done|lia|]. by destruct (fi_routes _ _ _ _ _ Hinv v r Hr) as (? & ? & _ & _ & _ & ? & _).
Qed.
End Results.

(** ** Properties *)

(** [s] floods a request for [d], and the copies are received in any order,
    among any other traffic, until none is on the way.  Then every machine that
    can be reached from [s] without passing through [d] has a route to [s] from
    this flood, whose hop count is the length of a walk and at most that of any
    such walk; and the hop count at [d] is the distance of [d] from [s]. *)
Theorem flood_finds_shortest tp os_of stale_of s d B w0 w :
  s <> d -> just_asked tp s d B w0 -> quiet_run tp os_of stale_of s d B w0 w ->
  (forall p, p ∈ n_pool w -> ~ copy_of s d B (p_msg p)) ->
  (forall v k, v <> s -> open_walk tp s d v k ->
     exists r, learned s B w v r /\ r_hops r <= Z.of_nat k /\
               walk tp s v (Z.to_nat (r_hops r))) /\
  (forall k, walk tp s d k ->
     exists r, learned s B w d r /\ r_hops r <= Z.of_nat k /\
               walk tp s d (Z.to_nat (r_hops r))).
Proof.
  intros Hsd H0 Hrun Hrest. pose proof (quiet_run_inv _ _ _ _ _ _ _ _ H0 Hrun) as Hinv.
  split; intros; (eapply shortest_at_rest; [done..| |]); [done|by left|done|by right].
Qed.

(** At any moment of the flood the routes to [s] learned from it lead to
    [s]: from machine to machine over existing links, in at most as many links as
    the hop count says, and so without a loop.  These are the routes a reply
    follows. *)
Theorem reverse_routes_lead_home tp os_of stale_of s d B w0 w v r :
  just_asked tp s d B w0 -> quiet_run tp os_of stale_of s d B w0 w -> learned s B w v r ->
  exists n, leads_home tp s B w v n /\ Z.of_nat n <= r_hops r.
Proof.
  intros H0 Hrun. apply (routes_lead_home tp s d). by eapply quiet_run_inv.
Qed.

(** ** How a flood starts *)

Lemma ask_just_asked tp os_of stale_of w s d port rq ports :
  (forall i, (s, i) ∈ t_ports tp -> i <> -1) ->
  (forall v r, a_routes (n_router w v) !! s = Some r -> r_bid r <= a_ctr (n_router w s)) ->
  Forall (fun p => m_src (p_msg p) = s -> m_bid (p_msg p) <= a_ctr (n_router w s)) (n_pool w) ->
  q_dst rq = d -> d <> s -> q_flag rq <> 1 -> a_routes (n_router w s) !! d = None ->
  just_asked tp s d (a_ctr (n_router w s) + 1) (do_ask tp os_of stale_of s port rq ports w).
Proof.
  intros Hif Hbid Hpool Hd Hne Hfl Hno. rewrite Forall_forall in Hpool.
  unfold do_ask, asked, spec_request. rewrite decide_False by congruence.
  pose proof (@a_lookup_frame (os_of s) (stale_of s) (q_flag rq) (q_dst rq) (n_router w s)) as [Hc _].
  pose proof (@a_lookup_routes (os_of s) (stale_of s) (q_flag rq) (q_dst rq) (n_router w s)) as Hl.
  set (R1 := a_lookup _ _ _ _) in *. cbv zeta.
  assert (a_routes R1 !! q_dst rq = None) as -> by (by rewrite Hl, Hd, Hno).
  rewrite Hc. set (B := a_ctr (n_router w s) + 1). set (m := request_msg s port rq B).
  assert (copy_of s d B m) as Hm by (by split_and!).
  split; cbn [n_router n_pool moved].
  - intros v r. destruct (decide (s = v)) as [<-|Hv].
    + rewrite fn_lookup_insert. cbn. rewrite Hl.
      destruct (a_routes (n_router w s) !! s) as [r0|] eqn:E; [|done]. apply Hbid in E.
      destruct (decide _); [destruct (a_expired _ _ _ _); [done|]|]; intros [= <-]; lia.
    + rewrite fn_lookup_insert_ne by done. intros Hr. apply Hbid in Hr. lia.
  - rewrite fn_lookup_insert. cbn. lia.
  - intros p Hp Hcp. apply elem_of_app in Hp as [Hp|Hp].
    { destruct Hcp as (_ & Hs & Hb & _). pose proof (Hpool p Hp Hs). lia. }
    assert (p_msg p = m) as Em.
    { cbn in Hp. rewrite app_nil_r in Hp. apply list_elem_of_bind in Hp as (i & Hp & _).
      by apply list_elem_of_fmap in Hp as (q & -> & _). }
    destruct (emitted_inv tp s _ p Hp (proj1 Hcp)) as (i & H1 & H2 & _); [by repeat constructor|].
    rewrite Em. split; [done|]. by exists i.
  - intros i v j Hv. exists (on_link tp s i m (v, j)). split_and!; try done.
    apply elem_of_app. right. destruct Hv as [Hi Hv].
    eapply emitted; [constructor|by apply elem_of_ifs|by apply Hif|done].
Qed.

(** ** A ring of machines

    vm1 to vm4 in a ring; vm1 asks for vm3, to which both ways are equally
    long. *)
Definition ring4 : topology :=
  Topology [(vm_ip 1, 3); (vm_ip 1, 4); (vm_ip 2, 3); (vm_ip 2, 4);
            (vm_ip 3, 3); (vm_ip 3, 4); (vm_ip 4, 3); (vm_ip 4, 4)]
           (fun p => if p.2 =? 4 then vm_index p.1 else (vm_index p.1 + 2) mod 4 + 1)
           (fun p => bytes [0; 12; 41; 62 + p.2; 227; vm_index p.1]).

Definition ring_asked : net :=
  do_ask ring4 line_os line_stale (vm_ip 1) 909 (mkRequest (vm_ip 3) 5500 (chars "time?") 0)
    (fun _ => None) (net_init (fun _ => 10)).

#[export] Instance copy_of_dec s d B m : Decision (copy_of s d B m).
Proof. unfold copy_of. solve_decision. Defined.

(** Deliveries in order, as long as they leave the flood alone. *)
Section QuietRecvs.
Context (tp : topology) (os_of : buf -> OS) (stale_of : buf -> Z) (s d : buf) (B : Z).

Fixpoint quiet_recvs (fuel : nat) (ports : buf -> Z -> option buf) (w : net) : option net :=
  match fuel, n_pool w with
  | S fuel', p :: _ =>
      if decide (copy_of s d B (p_msg p) \/ m_src (p_msg p) <> s) then
        match a_routes (n_router w (p_to p)) !! s with
        | Some r =>
            if decide (@dropped (os_of (p_to p)) (stale_of (p_to p)) (p_msg p) (n_router w (p_to p)) s r)
            then None else quiet_recvs fuel' ports (do_recv tp os_of stale_of ports w)
        | None => quiet_recvs fuel' ports (do_recv tp os_of stale_of ports w)
        end
      else None
  | _, _ => Some w
  end.

Lemma quiet_recvs_run fuel ports w0 w w' :
  quiet_run tp os_of stale_of s d B w0 w -> quiet_recvs fuel ports w = Some w' ->
  quiet_run tp os_of stale_of s d B w0 w'.
Proof.
  revert w. induction fuel as [|fuel IH]; intros w Hrun; cbn; [by intros [= <-]|].
  destruct (n_pool w) as [|p rest] eqn:Ep; [by intros [= <-]|].
  destruct (decide (_ \/ _)) as [Hc|]; [|done].
  assert ((forall r, a_routes (n_router w (p_to p)) !! s = Some r ->
             ~ @dropped (os_of (p_to p)) (stale_of (p_to p)) (p_msg p) (n_router w (p_to p)) s r) ->
          quiet_recvs fuel ports (do_recv tp os_of stale_of ports w) = Some w' ->
          quiet_run tp os_of stale_of s d B w0 w') as Hgo.
  { intros Hk. apply IH. apply (quiet_snoc _ _ _ _ _ _ _ w (Recv p (ports (p_to p)))); [done| |done].
    unfold do_recv. rewrite Ep. by apply (net_recv _ _ _ _ [] p rest). }
  destruct (a_routes (n_router w (p_to p)) !! s) as [r|]; [|by apply Hgo].
  destruct (decide _); [done|]. apply Hgo. by intros ? [= <-].
Qed.
End QuietRecvs.

Definition ring_flooded : option net :=
  quiet_recvs ring4 line_os line_stale (vm_ip 1) (vm_ip 3) 11 4 line_ports ring_asked.

Lemma ring_just_asked : just_asked ring4 (vm_ip 1) (vm_ip 3) 11 ring_asked.
Proof.
  apply (ask_just_asked ring4 line_os line_stale (net_init (fun _ => 10)));
    [|by intros v r; cbn; rewrite lookup_empty|constructor|done|by vm_compute|done|done].
  intros i Hi. assert (Forall (fun p : buf * Z => p.2 <> -1) (t_ports ring4)) as H by (by repeat constructor).
  rewrite Forall_forall in H. by apply (H (vm_ip 1, i)).
Qed.

Lemma flood_finds_shortest_witness :
  match ring_flooded with
  | Some w =>
      (forall v k, v <> vm_ip 1 -> open_walk ring4 (vm_ip 1) (vm_ip 3) v k ->
         exists r, learned (vm_ip 1) 11 w v r /\ r_hops r <= Z.of_nat k /\
                   walk ring4 (vm_ip 1) v (Z.to_nat (r_hops r))) /\
      (forall k, walk ring4 (vm_ip 1) (vm_ip 3) k ->
         exists r, learned (vm_ip 1) 11 w (vm_ip 3) r /\ r_hops r <= Z.of_nat k /\
                   walk ring4 (vm_ip 1) (vm_ip 3) (Z.to_nat (r_hops r)))
  | None => False
  end.
Proof.
  assert ((fun w => bool_decide (Forall (fun p => ~ copy_of (vm_ip 1) (vm_ip 3) 11 (p_msg p)) (n_pool w)))
            <$> ring_flooded = Some true) as Hrest by (vm_compute; reflexivity).
  destruct ring_flooded as [w|] eqn:E; [|discriminate Hrest].
  injection Hrest as Hrest. apply bool_decide_eq_true in Hrest. rewrite Forall_forall in Hrest.
  apply (flood_finds_shortest ring4 line_os line_stale (vm_ip 1) (vm_ip 3) 11 ring_asked w);
    [by vm_compute | apply ring_just_asked | | exact Hrest].
  eapply quiet_recvs_run; [apply quiet_nil|exact E].
Defined.

(** The route of vm3 to vm1 during the flood. *)
Lemma reverse_routes_lead_home_witness :
  match ring_flooded with
  | Some w =>
      match a_routes (n_router w (vm_ip 3)) !! vm_ip 1 with
      | Some r => exists n, leads_home ring4 (vm_ip 1) 11 w (vm_ip 3) n /\ Z.of_nat n <= r_hops r
      | None => False
      end
  | None => False
  end.
Proof.
  assert ((fun w => r_bid <$> a_routes (n_router w (vm_ip 3)) !! vm_ip 1) <$> ring_flooded
          = Some (Some 11)) as Hb by (vm_compute; reflexivity).
  destruct ring_flooded as [w|] eqn:E; [|discriminate Hb]. injection Hb as Hb.
  destruct (a_routes (n_router w (vm_ip 3)) !! vm_ip 1) as [r|] eqn:Er; [|discriminate Hb].
  injection Hb as Hb.
  apply (reverse_routes_lead_home ring4 line_os line_stale (vm_ip 1) (vm_ip 3) 11 ring_asked w);
    [apply ring_just_asked | | by split].
  eapply quiet_recvs_run; [apply quiet_nil|exact E].
Defined.
