(* ===== verification/Chain.v ===== *)
(** * Delivery along a chain of machines

    Machines in a line, of any number.  A process at one end sends data to a
    process at the other end, no route being known.  Whatever the order in which
    frames are delivered, the request travels to the far end, the reply comes
    back, and the data arrives: the discovery of a route and its use, over all
    machines together. *)

From stdpp Require Import functions.
From S2P Require Import Prelude CLib Inet Frame DList Node Demo Utils Ports RTable PQueue Send.
From S2P Require Import Spec SpecFacts Network NetDemo.

(** ** Time

    A route is dropped when it is older than the staleness parameter.  Up to the
    reading [c] of the clock no time read has been that long ago. *)
Definition recent {os : OS} (stale : Z) (c : nat) : Prop :=
  forall c1 c2, (c1 <= c2 <= c)%nat -> tv_sec (os_time c2) - tv_sec (os_time c1) < stale.

Definition all_recent (tp : topology) (os_of : buf -> OS) (stale_of : buf -> Z) (w : net) : Prop :=
  forall u i, (u, i) ∈ t_ports tp -> @recent (os_of u) (stale_of u) (a_clock (n_router w u)).

Lemma recent_before {os : OS} stale c c' : (c' <= c)%nat -> recent stale c -> recent stale c'.
Proof. intros Hc Hy c1 c2 H. apply Hy. lia. Qed.

(** ** What must happen

    [eventually P w]: deliveries of the frames on the way, in whatever order,
    lead from [w] to a state with [P], there is always a frame to deliver until
    then, and the states before satisfy [ok]; all this as long as the staleness time
    of no machine has passed. *)
Definition within (hmax lo hi : Z) (w : net) : Prop :=
  Forall (fun p => 0 <= m_hop (p_msg p) <= hmax /\ lo <= a_ctr (n_router w (p_to p)) <= hi) (n_pool w).

Section Eventually.
Context (tp : topology) (os_of : buf -> OS) (stale_of : buf -> Z) (ports : buf -> Z -> option buf).
Context (ok : net -> Prop).

Inductive eventually (P : net -> Prop) (w : net) : Prop :=
  | ev_now : P w -> eventually P w
  | ev_recv :
      n_pool w <> [] -> ok w ->
      (forall p w', net_step tp os_of stale_of w (Recv p (ports (p_to p))) w' ->
         all_recent tp os_of stale_of w' -> eventually P w') ->
      eventually P w.

Lemma eventually_trans (P Q : net -> Prop) w :
  eventually P w -> (forall w', P w' -> eventually Q w') -> eventually Q w.
Proof. intros H HQ. induction H as [w HP|w Hne Hok _ IH]; [by apply HQ|]. by apply ev_recv. Qed.

(** One frame on the way: what its receiver does decides. *)
Lemma eventually_one (P : net -> Prop) w p :
  n_pool w = [p] -> ok w ->
  (let res := received os_of stale_of w p (ports (p_to p)) in
   forall parks, all_recent tp os_of stale_of (moved tp w (p_to p) res [] parks) ->
     P (moved tp w (p_to p) res [] parks)) ->
  eventually P w.
Proof.
  intros Hp Hok HP. apply ev_recv; [by rewrite Hp|done|]. intros q w' Hs Hy. apply ev_now.
  inversion Hs as [l1 q' l2 ports' Hl Hq| | |]. subst. rewrite Hp in Hl.
  destruct l1 as [|x l1]; [|by destruct l1]. injection Hl as <- <-. by apply HP.
Qed.
End Eventually.

(** ** One machine *)

Section Router.
Context {os : OS} (stale : Z).
Implicit Types (R : router) (m : msg) (r : route).

(** The routes were learnt at times read before. *)
Definition timed R : Prop :=
  map_Forall (fun _ r => exists c, (c <= a_clock R)%nat /\ r_seen r = os_time c) (a_routes R).

Lemma timed_later R R' :
  a_routes R' = a_routes R -> (a_clock R <= a_clock R')%nat -> timed R -> timed R'.
Proof. intros HR Hc Ht k r. rewrite HR. intros (c & ? & ?)%Ht. exists c. split; [lia|done]. Qed.

(** The route to [k]: neighbour, interface, hops, broadcast id. *)
Definition has R (k via : buf) (i h b : Z) : Prop :=
  exists t, a_routes R !! k = Some (mkRoute via i h b t).

Lemma a_lookup_later flag k R : (a_clock R <= a_clock (a_lookup stale flag k R))%nat.
Proof. destruct (a_lookup_clock stale flag k R) as [-> | ->]; lia. Qed.

Lemma lookup_timed flag k R :
  recent stale (a_clock R) -> flag <> 1 -> timed R -> a_routes (a_lookup stale flag k R) = a_routes R.
Proof.
  intros Hy Hf Ht. apply map_eq. intros j. rewrite a_lookup_routes.
  destruct (a_routes R !! j) as [r|] eqn:E; [|done]. destruct (decide _); [|done].
  destruct (Ht j r E) as (c & Hc & Hs). unfold a_expired. rewrite Hs, (proj2 (Z.eqb_neq _ _) Hf), orb_false_r.
  specialize (Hy c (a_clock R) ltac:(lia)). rewrite Z.geb_leb.
  by rewrite (proj2 (Z.leb_gt _ _) Hy).
Qed.

(** The state the switch starts from differs from the state of the router in the
    clock only. *)
Lemma lookups_timed m R :
  m_rdf m <> 1 -> timed R ->
  let R2 := a_lookup stale 0 (m_src m) (a_lookup stale (m_rdf m) (m_dst m) R) in
  recent stale (a_clock R2) ->
  a_routes R2 = a_routes R /\ a_parked R2 = a_parked R /\ a_ctr R2 = a_ctr R /\ (a_clock R <= a_clock R2)%nat.
Proof.
  intros Hf Ht R2. unfold R2. set (R1 := a_lookup stale (m_rdf m) (m_dst m) R). intros Hy2.
  pose proof (a_lookup_later (m_rdf m) (m_dst m) R) as L1. fold R1 in L1.
  pose proof (a_lookup_later 0 (m_src m) R1) as L2.
  assert (recent stale (a_clock R)) as Hy by (eapply recent_before; [|exact Hy2]; lia).
  pose proof (lookup_timed (m_rdf m) (m_dst m) R Hy Hf Ht) as H1. fold R1 in H1.
  rewrite lookup_timed, H1; [|by eapply recent_before|done|by eapply timed_later]. unfold R1 in *.
  destruct (a_lookup_frame stale 0 (m_src m) (a_lookup stale (m_rdf m) (m_dst m) R)) as [-> ->].
  destruct (a_lookup_frame stale (m_rdf m) (m_dst m) R) as [-> ->]. split_and!; [done..|lia].
Qed.

(** A message of a source without a route. *)
Lemma learn_new m intf via R :
  timed R -> a_routes R !! m_src m = None ->
  exists r R', a_learn m intf via R = (true, r, R') /\
    (r_via r = take HWADDR via /\ r_if r = intf /\ r_hops r = m_hop m + 1 /\ r_bid r = m_bid m) /\
    a_routes R' = <[m_src m := r]> (a_routes R) /\ a_parked R' = a_parked R /\
    a_ctr R' = a_ctr R /\ timed R'.
Proof.
  intros Ht Hn. unfold a_learn. rewrite Hn. eexists _, _. split; [reflexivity|]. split_and!; try done.
  intros k r. cbn. rewrite lookup_insert. destruct (decide _).
  - intros [= <-]. exists (a_clock R). split; [lia|done].
  - intros (c & Hc & Hs)%Ht. exists c. split; [lia|done].
Qed.

(** A message whose broadcast id is older than the route to its source. *)
Lemma learn_old m intf via R r :
  a_routes R !! m_src m = Some r -> m_bid m < r_bid r -> a_learn m intf via R = (false, r, R).
Proof. intros Hr Hb. unfold a_learn. rewrite Hr. rewrite decide_False; [done|]. unfold a_better. lia. Qed.

(** The outcome of a frame whose source was unknown. *)
Definition learns (m : msg) (intf : Z) (via : buf) R (res : router * list out) (q : list (buf * msg))
    (ctr : Z) (outs : route -> list out) : Prop :=
  exists r, (r_via r = take HWADDR via /\ r_if r = intf /\ r_hops r = m_hop m + 1 /\ r_bid r = m_bid m) /\
    a_routes res.1 = <[m_src m := r]> (a_routes R) /\ a_parked res.1 = q /\ a_ctr res.1 = ctr /\
    timed res.1 /\ res.2 = outs r.

Lemma learns_facts m intf via R res q ctr outs :
  learns m intf via R res q ctr outs -> length via = HWADDR ->
  has res.1 (m_src m) via intf (m_hop m + 1) (m_bid m) /\
  (forall k, k <> m_src m -> a_routes res.1 !! k = a_routes R !! k) /\
  a_parked res.1 = q /\ a_ctr res.1 = ctr /\ timed res.1 /\
  exists r, r_via r = via /\ r_if r = intf /\ res.2 = outs r.
Proof.
  intros (r & (Hv & Hi & Hh & Hb) & HR & Hq & Hc & Ht & Ho) Hl. rewrite take_ge in Hv by (by rewrite Hl).
  split_and!; [| |done|done|done|by exists r].
  - exists (r_seen r). rewrite HR, lookup_insert_eq. destruct r; cbn in *. by subst.
  - intros k Hk. rewrite HR. by rewrite lookup_insert_ne.
Qed.

Section Frames.
Context (ip : buf) (ports : Z -> option buf) (intf : Z) (via : buf) (m : msg) (R : router).
Hypothesis Hrdf : m_rdf m <> 1.
Hypothesis Htimed : timed R.
Abbreviation res := (spec_frame ip stale ports intf via m R).2.
Hypothesis Hrecent : recent stale (a_clock res.1).

Lemma frame_switch :
  exists R2, res = (spec_switch ip ports intf via m R2).2 /\ timed R2 /\
    a_routes R2 = a_routes R /\ a_parked R2 = a_parked R /\ a_ctr R2 = a_ctr R.
Proof using Hrecent Hrdf Htimed.
  revert Hrecent.
  rewrite spec_frame_switch. unfold a_duplicate. rewrite (proj2 (Z.eqb_neq _ _) Hrdf). cbn [andb]. intros Hy.
  apply (recent_before _ _ _ (spec_switch_clock _ _ _ _ _ _)) in Hy.
  destruct (lookups_timed m R Hrdf Htimed Hy) as (H1 & H2 & H3 & H4). eexists. split; [reflexivity|].
  split_and!; [|done..]. by eapply timed_later.
Qed.

Lemma switch_rreq R2 :
  m_type m = __RREQ -> spec_switch ip ports intf via m R2 = (0, spec_rreq ip intf via m R2).
Proof. unfold spec_switch. by intros ->. Qed.
Lemma switch_rrep R2 :
  m_type m = __RREP -> spec_switch ip ports intf via m R2 = (0, spec_rrep ip intf via m R2).
Proof. unfold spec_switch. by intros ->. Qed.
Lemma switch_data R2 :
  m_type m = __DATA -> spec_switch ip ports intf via m R2 = (0, spec_data ip ports intf via m R2).
Proof. unfold spec_switch. by intros ->. Qed.

(** The frame is processed from [R2], which learns the source. *)
Ltac learning :=
  let E := fresh "E" in
  destruct frame_switch as (R2 & E & Ht2 & HR2 & Hq2 & Hc2); rewrite E;
  destruct (learn_new m intf via R2 Ht2) as (r & R' & HL & Hr & HR' & Hq' & Hc' & Ht'); [by rewrite HR2|];
  exists r; rewrite HR2 in HR'; rewrite Hq2 in Hq'; rewrite Hc2 in Hc'.

Ltac learnt := cbn [fst snd]; split; [assumption|]; split_and!; done.

Lemma frame_passes :
  m_type m = __RREQ -> m_dst m <> ip -> m_src m <> m_dst m ->
  a_routes R !! m_src m = None -> a_routes R !! m_dst m = None ->
  learns m intf via R res (a_parked R) (a_ctr R) (fun _ => [Flood intf (passed_on __RREQ m)]).
Proof using Hrecent Hrdf Htimed.
  intros Hty Hd Hne Hs Hdn. learning. rewrite switch_rreq by done. unfold spec_rreq. rewrite HL. cbn [snd].
  rewrite decide_False by done. rewrite HR', lookup_insert_ne, Hdn by done. learnt.
Qed.

Lemma frame_answers :
  m_type m = __RREQ -> m_dst m = ip -> a_routes R !! m_src m = None ->
  learns m intf via R res (a_parked R) (a_ctr R + 1) (fun r => [Unicast r (reply m 0 (a_ctr R + 1))]).
Proof using Hrecent Hrdf Htimed.
  intros Hty Hd Hs. learning. rewrite switch_rreq by done. unfold spec_rreq. rewrite HL. cbn [snd].
  rewrite decide_True by done. rewrite Hc'. learnt.
Qed.

Lemma frame_reply_passes rd :
  m_type m = __RREP -> m_dst m <> ip -> m_src m <> m_dst m ->
  a_routes R !! m_src m = None -> a_routes R !! m_dst m = Some rd ->
  learns m intf via R res (a_parked R) (a_ctr R) (fun _ => [Unicast rd (fwd_reply m (m_hop m + 1))]).
Proof using Hrecent Hrdf Htimed.
  intros Hty Hd Hne Hs Hdr. learning. rewrite switch_rrep by done. unfold spec_rrep. rewrite HL. cbn [snd].
  rewrite decide_False by done. rewrite HR', lookup_insert_ne, Hdr by done.
  cbn [fst snd]. split; [exact Hr|]. rewrite (proj1 (proj2 (proj2 Hr))). by split_and!.
Qed.

Lemma frame_releases pm q :
  m_type m = __RREP -> m_dst m = ip -> a_routes R !! m_src m = None ->
  a_parked R = (m_src m, pm) :: q -> m_type pm = __DATA ->
  learns m intf via R res q (a_ctr R) (fun r => [Unicast r pm]).
Proof using Hrecent Hrdf Htimed.
  intros Hty Hd Hs Hq Hp. learning. rewrite switch_rrep by done. unfold spec_rrep. rewrite HL. cbn [snd].
  rewrite decide_True by done. rewrite Hq', Hq. cbn [a_take]. rewrite decide_True by done.
  rewrite Hp. learnt.
Qed.

(** Data from a source with a newer route leaves the routes alone. *)
Lemma frame_data_passes rs rd :
  m_type m = __DATA -> m_dst m <> ip -> a_routes R !! m_src m = Some rs -> m_bid m < r_bid rs ->
  a_routes R !! m_dst m = Some rd ->
  a_routes res.1 = a_routes R /\ timed res.1 /\ a_ctr res.1 = a_ctr R /\
  res.2 = [Unicast rd (set_hop (r_hops rs) m)].
Proof using Hrecent Hrdf Htimed.
  intros Hty Hd Hs Hb Hr. destruct frame_switch as (R2 & -> & Ht & HR2 & _ & Hc2).
  rewrite switch_data by done. unfold spec_data. cbn [snd].
  rewrite (learn_old m intf via R2 rs) by (by rewrite ?HR2).
  rewrite decide_False by done. by rewrite HR2, Hr.
Qed.

Lemma frame_delivers rs path :
  m_type m = __DATA -> m_dst m = ip -> a_routes R !! m_src m = Some rs -> m_bid m < r_bid rs ->
  ports (m_dport m) = Some path ->
  a_routes res.1 = a_routes R /\ timed res.1 /\ a_ctr res.1 = a_ctr R /\
  res.2 = [Deliver path (peer_text (m_src m) (m_sport m) (m_data m))].
Proof using Hrecent Hrdf Htimed.
  intros Hty Hd Hs Hb Hp. destruct frame_switch as (R2 & -> & Ht & HR2 & _ & Hc2).
  rewrite switch_data by done. unfold spec_data. cbn [snd].
  rewrite (learn_old m intf via R2 rs) by (by rewrite ?HR2).
  rewrite decide_True by done. by rewrite Hp.
Qed.
End Frames.
End Router.

(** ** The chain *)

(** Machines [v 0] to [v n]; interface [rgt k] of each is connected to interface
    [lft (k + 1)] of the next, and to nothing else. *)
Record chain (tp : topology) (n : nat) (v : nat -> buf) (lft rgt : nat -> Z) : Prop := {
  ch_inj : forall i j, (i <= n)%nat -> (j <= n)%nat -> v i = v j -> i = j;
  ch_right : forall k, (k < n)%nat -> peers tp (v k, rgt k) = [(v (S k), lft (S k))];
  ch_left : forall k, (k < n)%nat -> peers tp (v (S k), lft (S k)) = [(v k, rgt k)];
  ch_first : ifs_of tp (v 0%nat) = [rgt 0%nat] /\ rgt 0%nat <> -1;
  ch_ifs : forall k, (0 < k < n)%nat -> ifs_of tp (v k) = [lft k; rgt k];
  ch_mac : forall p, length (t_mac tp p) = HWADDR;
}.

Section Chain.
Context (tp : topology) (os_of : buf -> OS) (stale_of : buf -> Z) (ports : buf -> Z -> option buf).
Context (n : nat) (v : nat -> buf) (lft rgt : nat -> Z).
Hypothesis Hchain : chain tp n v lft rgt.
(** The request: data for the process at [path] of the last machine, under
    broadcast id [B]; the reply has broadcast id [B']. *)
Context (port : Z) (rq : request) (path : buf) (B B' : Z).
(** Limits for hop counts and broadcast counters. *)
Context (hmax lo hi : Z).
Hypothesis Hlim : Z.of_nat n <= hmax /\ 0 <= B + 1 <= hmax /\ lo <= B' <= hi.

Abbreviation mr k := (t_mac tp (v k, rgt k)).
Abbreviation ml k := (t_mac tp (v k, lft k)).
Abbreviation R w i := (n_router w (v i)).

(** *** Frames between neighbours *)

Lemma lft_rgt k : (0 < k < n)%nat -> lft k <> rgt k.
Proof using Hchain.
  intros Hk E. destruct k as [|k]; [lia|]. pose proof (ch_left _ _ _ _ _ Hchain k ltac:(lia)) as H1.
  pose proof (ch_right _ _ _ _ _ Hchain (S k) ltac:(lia)) as H2. rewrite E, H2 in H1. injection H1 as H1 _.
  apply (ch_inj _ _ _ _ _ Hchain) in H1; lia.
Qed.

Lemma v_ne i j : (i <= n)%nat -> (j <= n)%nat -> i <> j -> v i <> v j.
Proof using Hchain. intros Hi Hj Hne E. by apply Hne, (ch_inj _ _ _ _ _ Hchain). Qed.

Lemma emit_first m :
  (0 < n)%nat -> emit_outs tp (v 0%nat) [Flood (-1) m] = [Packet (v 1%nat) (lft 1%nat) (mr 0%nat) m].
Proof using Hchain.
  intros Hn. unfold emit_outs. cbn [mbind list_bind emit_out app]. destruct (ch_first _ _ _ _ _ Hchain) as [-> Hf].
  rewrite filter_cons_True by done. cbn [mbind list_bind filter list_filter].
  by rewrite (ch_right _ _ _ _ _ Hchain 0%nat Hn).
Qed.

Lemma emit_on k m :
  (0 < k < n)%nat ->
  emit_outs tp (v k) [Flood (lft k) m] = [Packet (v (S k)) (lft (S k)) (mr k) m].
Proof using Hchain.
  intros Hk. unfold emit_outs. cbn [mbind list_bind emit_out app]. rewrite (ch_ifs _ _ _ _ _ Hchain k Hk).
  rewrite filter_cons_False by (by intros []). rewrite filter_cons_True by (by apply not_eq_sym, lft_rgt).
  cbn [mbind list_bind filter list_filter]. by rewrite (ch_right _ _ _ _ _ Hchain k) by lia.
Qed.

Lemma emit_back k r m :
  (k < n)%nat -> r_via r = mr k -> r_if r = lft (S k) ->
  emit_outs tp (v (S k)) [Unicast r m] = [Packet (v k) (rgt k) (ml (S k)) m].
Proof using Hchain.
  intros Hk Hv Hi. unfold emit_outs. cbn [mbind list_bind emit_out app]. rewrite Hi, Hv.
  by rewrite (ch_left _ _ _ _ _ Hchain k Hk), filter_cons_True.
Qed.

Lemma emit_forth k r m :
  (k < n)%nat -> r_via r = ml (S k) -> r_if r = rgt k ->
  emit_outs tp (v k) [Unicast r m] = [Packet (v (S k)) (lft (S k)) (mr k) m].
Proof using Hchain.
  intros Hk Hv Hi. unfold emit_outs. cbn [mbind list_bind emit_out app]. rewrite Hi, Hv.
  by rewrite (ch_right _ _ _ _ _ Hchain k Hk), filter_cons_True.
Qed.

(** *** The frames of the discovery *)

Definition ask_msg (h : Z) : msg :=
  mkMsg __RREQ B h 0 (q_flag rq) port (q_dport rq) (v n) (v 0%nat) [].
Definition reply_msg (h : Z) : msg :=
  mkMsg __RREP B' h 0 0 (q_dport rq) port (v 0%nat) (v n) [].
Definition data_at (h : Z) : msg :=
  mkMsg __DATA 0 h PAYLOAD_SIZE 0 port (q_dport rq) (v n) (v 0%nat) (q_data rq).

(** Machine [k + 1] has a route back to the first machine; machine [k] has one to
    the last. *)
Definition back (w : net) (k : nat) : Prop :=
  has (R w (S k)) (v 0%nat) (mr k) (lft (S k)) (Z.of_nat (S k)) B.
Definition forth (w : net) (k : nat) : Prop :=
  has (R w k) (v n) (ml (S k)) (rgt k) (Z.of_nat (n - k)) B'.

Definition ctrs_ok (w : net) : Prop := forall i, (i <= n)%nat -> lo <= a_ctr (R w i) <= hi.

Definition all_timed (w : net) : Prop := forall i, (i <= n)%nat -> @timed (os_of (v i)) (R w i).

(** The request is on its way to machine [k + 1]. *)
Record asking (log : list (buf * buf * buf)) (k : nat) (w : net) : Prop := {
  as_pool : n_pool w = [Packet (v (S k)) (lft (S k)) (mr k) (ask_msg (Z.of_nat k))];
  as_timed : all_timed w;
  as_back : forall j, (j < k)%nat -> back w j;
  as_new : forall i, (k < i <= n)%nat -> a_routes (R w i) !! v 0%nat = None;
  as_none : forall i, (i <= n)%nat -> a_routes (R w i) !! v n = None;
  as_parked : a_parked (R w 0%nat) = [(v n, data_at (B + 1))];
  as_ctr : a_ctr (R w n) + 1 = B';
  as_log : n_log w = log;
  as_ctrs : ctrs_ok w;
}.

(** The reply is on its way to machine [k]. *)
Record replying (log : list (buf * buf * buf)) (k : nat) (w : net) : Prop := {
  re_pool : n_pool w = [Packet (v k) (rgt k) (ml (S k)) (reply_msg (Z.of_nat (n - S k)))];
  re_timed : all_timed w;
  re_back : forall j, (j < n)%nat -> back w j;
  re_forth : forall j, (k < j < n)%nat -> forth w j;
  re_none : forall i, (i <= k)%nat -> a_routes (R w i) !! v n = None;
  re_parked : a_parked (R w 0%nat) = [(v n, data_at (B + 1))];
  re_log : n_log w = log;
  re_ctrs : ctrs_ok w;
}.

(** The data is on its way to machine [k + 1]. *)
Record sending (log : list (buf * buf * buf)) (k : nat) (w : net) : Prop := {
  se_pool : exists h, 0 <= h <= hmax /\ n_pool w = [Packet (v (S k)) (lft (S k)) (mr k) (data_at h)];
  se_timed : all_timed w;
  se_back : forall j, (j < n)%nat -> back w j;
  se_forth : forall j, (j < n)%nat -> forth w j;
  se_log : n_log w = log;
  se_ctrs : ctrs_ok w;
}.

(** The data has arrived, nothing is on the way, and every machine has routes to
    both ends. *)
Record arrived (log : list (buf * buf * buf)) (w : net) : Prop := {
  ar_pool : n_pool w = [];
  ar_log : n_log w = log ++ [(v n, path, peer_text (v 0%nat) port (q_data rq))];
  ar_back : forall j, (j < n)%nat -> back w j;
  ar_forth : forall j, (j < n)%nat -> forth w j;
  ar_timed : all_timed w;
  ar_ctrs : ctrs_ok w;
}.

(** *** Steps *)

Section Move.
Context (w : net) (k : nat) (res : router * list out) (parks : nat).
Hypothesis Hk : (k <= n)%nat.
Abbreviation w' := (moved tp w (v k) res [] parks).

Lemma moved_same : R w' k = res.1.
Proof using Type. cbn. by rewrite fn_lookup_insert. Qed.

(** The machine has a cable. *)
Lemma v_port : (0 < n)%nat -> exists j, (v k, j) ∈ t_ports tp.
Proof using Hchain Hk.
  intros Hn. clear Hlim. destruct (decide (k = n)) as [->|Hne].
  - destruct n as [|n']; [lia|]. exists (lft (S n')).
    assert ((v (S n'), lft (S n')) ∈ peers tp (v n', rgt n')) as H by (rewrite (ch_right _ _ _ _ _ Hchain) by lia; by left).
    by apply elem_of_peers in H as [? _].
  - exists (rgt k). assert ((v k, rgt k) ∈ peers tp (v (S k), lft (S k))) as H by (rewrite (ch_left _ _ _ _ _ Hchain) by lia; by left).
    by apply elem_of_peers in H as [? _].
Qed.

Lemma moved_recent :
  (0 < n)%nat -> all_recent tp os_of stale_of w' -> @recent (os_of (v k)) (stale_of (v k)) (a_clock res.1).
Proof using Hchain Hk. intros Hn Hy. rewrite <- moved_same. destruct (v_port Hn) as [j Hj]. by apply (Hy _ j). Qed.

Lemma moved_other i : (i <= n)%nat -> i <> k -> R w' i = R w i.
Proof using Hchain Hk. intros Hi Hne. cbn. rewrite fn_lookup_insert_ne; [done|]. by apply v_ne. Qed.

Lemma moved_ctrs : ctrs_ok w -> lo <= a_ctr res.1 <= hi -> ctrs_ok w'.
Proof using Hchain Hk.
  intros Hc Hr i Hi. destruct (decide (i = k)) as [->|Hne]; [by rewrite moved_same|].
  rewrite moved_other by done. by apply Hc.
Qed.

Lemma moved_timed : all_timed w -> @timed (os_of (v k)) res.1 -> all_timed w'.
Proof using Hchain Hk.
  intros Ht Hr i Hi. destruct (decide (i = k)) as [->|Hne]; [by rewrite moved_same|].
  rewrite moved_other by done. by apply Ht.
Qed.

(** A route of a machine, unless the step has changed it. *)
Lemma moved_lookup i key :
  (i <= n)%nat -> (i = k -> a_routes res.1 !! key = a_routes (R w k) !! key) ->
  a_routes (R w' i) !! key = a_routes (R w i) !! key.
Proof using Hchain Hk.
  intros Hi Hs. destruct (decide (i = k)) as [->|Hne]; [by rewrite moved_same, Hs|by rewrite moved_other].
Qed.

Lemma moved_has i key via j h b :
  (i <= n)%nat -> (i = k -> a_routes res.1 !! key = a_routes (R w k) !! key) ->
  has (R w i) key via j h b -> has (R w' i) key via j h b.
Proof using Hchain Hk. unfold has. intros Hi Hs. by rewrite moved_lookup. Qed.
End Move.

Lemma within_one w i intf via m :
  (i <= n)%nat -> n_pool w = [Packet (v i) intf via m] -> 0 <= m_hop m <= hmax -> ctrs_ok w -> within hmax lo hi w.
Proof using Type.
  intros Hi Hp Hm Hc. unfold within. rewrite Hp. apply Forall_singleton. split; [done|]. by apply Hc.
Qed.

Lemma ask_step log k w :
  q_flag rq <> 1 -> (S k < n)%nat -> asking log k w ->
  eventually tp os_of stale_of ports (within hmax lo hi) (asking log (S k)) w.
Proof using Hchain Hlim.
  intros Hfl Hk [Hp Ht Hb Hnew Hnone Hq Hc Hl Hcs].
  eapply eventually_one; [done|eapply within_one; [|done|cbn; lia|done]; lia|]. intros res parks Hy.
  cbn [p_to] in *. apply moved_recent in Hy; [|lia..].
  assert (v 0%nat <> v n) as H0n by (apply v_ne; lia).
  assert (@learns (os_of (v (S k))) (ask_msg (Z.of_nat k)) (lft (S k)) (mr k) (R w (S k)) res (a_parked (R w (S k)))
            (a_ctr (R w (S k))) (fun _ => [Flood (lft (S k)) (passed_on __RREQ (ask_msg (Z.of_nat k)))])) as HL.
  { apply frame_passes; try done; [apply Ht; lia|apply v_ne; lia|apply Hnew; lia|apply Hnone; lia]. }
  destruct (learns_facts _ _ _ _ _ _ _ _ HL (ch_mac _ _ _ _ _ Hchain _)) as (Hhas & Hoth & Hq' & Hc' & Ht' & r & _ & _ & Ho).
  clearbody res. split.
  - cbn [moved n_pool app]. rewrite Ho, emit_on by lia. unfold passed_on, ask_msg. cbn.
    do 3 f_equal. lia.
  - apply moved_timed; [lia|done|done].
  - intros j Hj. destruct (decide (j = k)) as [->|Hne].
    + unfold back. rewrite moved_same. cbn [m_src m_hop m_bid ask_msg] in Hhas.
      by replace (Z.of_nat (S k)) with (Z.of_nat k + 1) by lia.
    + apply moved_has; [lia|lia|lia|]. apply Hb. lia.
  - intros i Hi. rewrite moved_lookup by lia. apply Hnew. lia.
  - intros i Hi. rewrite moved_lookup; [by apply Hnone|lia|lia|]. intros ->. by apply Hoth.
  - by rewrite moved_other by lia.
  - rewrite moved_other by lia. done.
  - cbn. rewrite Hl, Ho. by rewrite app_nil_r.
  - apply moved_ctrs; [lia|done|]. rewrite Hc'. apply Hcs. lia.
Qed.

(** The last machine answers. *)
Lemma answer_step log k w :
  q_flag rq <> 1 -> S k = n -> asking log k w ->
  eventually tp os_of stale_of ports (within hmax lo hi) (replying log k) w.
Proof using Hchain Hlim.
  intros Hfl Hk [Hp Ht Hb Hnew Hnone Hq Hc Hl Hcs].
  eapply eventually_one; [done|eapply within_one; [|done|cbn; lia|done]; lia|]. intros res parks Hy.
  cbn [p_to] in *. apply moved_recent in Hy; [|lia..].
  assert (@learns (os_of (v (S k))) (ask_msg (Z.of_nat k)) (lft (S k)) (mr k) (R w (S k)) res
            (a_parked (R w (S k))) (a_ctr (R w (S k)) + 1)
            (fun r => [Unicast r (reply (ask_msg (Z.of_nat k)) 0 (a_ctr (R w (S k)) + 1))])) as HL.
  { apply frame_answers; try done; [apply Ht; lia|by rewrite Hk|apply Hnew; lia]. }
  destruct (learns_facts _ _ _ _ _ _ _ _ HL (ch_mac _ _ _ _ _ Hchain _))
    as (Hhas & Hoth & Hq' & Hc' & Ht' & r & Hv & Hi & Ho).
  clearbody res. split.
  - cbn [moved n_pool app]. rewrite Ho, (emit_back k) by (lia || done). rewrite Hk, Hc, Nat.sub_diag.
    reflexivity.
  - apply moved_timed; [lia|done|done].
  - intros j Hj. destruct (decide (j = k)) as [->|Hne].
    + unfold back. rewrite moved_same. cbn [m_src m_hop m_bid ask_msg] in Hhas.
      by replace (Z.of_nat (S k)) with (Z.of_nat k + 1) by lia.
    + apply moved_has; [lia|lia|lia|]. apply Hb. lia.
  - lia.
  - intros i Hi'. rewrite moved_lookup by lia. apply Hnone. lia.
  - by rewrite moved_other by lia.
  - cbn. rewrite Hl, Ho. by rewrite app_nil_r.
  - apply moved_ctrs; [lia|done|]. rewrite Hc', Hk, Hc. lia.
Qed.

Lemma reply_step log k w :
  (S k < n)%nat -> replying log (S k) w ->
  eventually tp os_of stale_of ports (within hmax lo hi) (replying log k) w.
Proof using Hchain Hlim.
  intros Hk [Hp Ht Hb Hf Hnone Hq Hl Hcs].
  eapply eventually_one; [done|eapply within_one; [|done|cbn; lia|done]; lia|]. intros res parks Hy.
  cbn [p_to] in *. apply moved_recent in Hy; [|lia..]. destruct (Hb k ltac:(lia)) as [t Hr].
  assert (v 0%nat <> v n) as H0n by (apply v_ne; lia).
  set (h := Z.of_nat (n - S (S k))) in *.
  assert (@learns (os_of (v (S k))) (reply_msg h) (rgt (S k)) (ml (S (S k))) (R w (S k)) res
            (a_parked (R w (S k))) (a_ctr (R w (S k)))
            (fun _ => [Unicast (mkRoute (mr k) (lft (S k)) (Z.of_nat (S k)) B t)
                               (fwd_reply (reply_msg h) (h + 1))])) as HL.
  { apply frame_reply_passes; try done;
      [apply Ht; lia|apply v_ne; lia|apply Hnone; lia]. }
  destruct (learns_facts _ _ _ _ _ _ _ _ HL (ch_mac _ _ _ _ _ Hchain _))
    as (Hhas & Hoth & Hq' & Hc' & Ht' & r & _ & _ & Ho).
  clearbody res. assert (Z.of_nat (n - S k) = h + 1) as Eh by lia. split.
  - cbn [moved n_pool app]. rewrite Ho, (emit_back k) by (lia || done). by rewrite Eh.
  - apply moved_timed; [lia|done|done].
  - intros j Hj. apply moved_has; [lia|lia| |by apply Hb]. intros _. by apply Hoth.
  - intros j Hj. destruct (decide (j = S k)) as [->|Hne].
    + unfold forth. rewrite moved_same, Eh. exact Hhas.
    + apply moved_has; [lia|lia|lia|]. apply Hf. lia.
  - intros i Hi'. rewrite moved_lookup by lia. apply Hnone. lia.
  - by rewrite moved_other by lia.
  - cbn. rewrite Hl, Ho. by rewrite app_nil_r.
  - apply moved_ctrs; [lia|done|]. rewrite Hc'. apply Hcs. lia.
Qed.

(** The reply reaches the first machine, which sends the data. *)
Lemma release_step log w :
  (0 < n)%nat -> replying log 0 w -> eventually tp os_of stale_of ports (within hmax lo hi) (sending log 0) w.
Proof using Hchain Hlim.
  intros Hn [Hp Ht Hb Hf Hnone Hq Hl Hcs].
  eapply eventually_one; [done|eapply within_one; [|done|cbn; lia|done]; lia|]. intros res parks Hy.
  cbn [p_to] in *. apply moved_recent in Hy; [|lia..].
  assert (v 0%nat <> v n) as H0n by (apply v_ne; lia).
  set (h := Z.of_nat (n - 1)) in *.
  assert (@learns (os_of (v 0%nat)) (reply_msg h) (rgt 0%nat) (ml 1%nat) (R w 0%nat) res
            [] (a_ctr (R w 0%nat)) (fun r => [Unicast r (data_at (B + 1))])) as HL.
  { apply frame_releases; try done; [apply Ht; lia|apply Hnone; lia]. }
  destruct (learns_facts _ _ _ _ _ _ _ _ HL (ch_mac _ _ _ _ _ Hchain _))
    as (Hhas & Hoth & Hq' & Hc' & Ht' & r & Hv & Hi & Ho).
  clearbody res. split.
  - exists (B + 1). split; [lia|]. cbn [moved n_pool app]. by rewrite Ho, (emit_forth 0) by (lia || done).
  - apply moved_timed; [lia|done|done].
  - intros j Hj. apply moved_has; [lia|lia|lia|by apply Hb].
  - intros j Hj. destruct (decide (j = 0%nat)) as [->|Hne].
    + unfold forth. rewrite moved_same. replace (Z.of_nat (n - 0)) with (h + 1) by lia. exact Hhas.
    + apply moved_has; [lia|lia|lia|]. apply Hf. lia.
  - cbn. rewrite Hl, Ho. by rewrite app_nil_r.
  - apply moved_ctrs; [lia|done|]. rewrite Hc'. apply Hcs. lia.
Qed.

Lemma data_step log k w :
  0 < B -> (S k < n)%nat -> sending log k w ->
  eventually tp os_of stale_of ports (within hmax lo hi) (sending log (S k)) w.
Proof using Hchain Hlim.
  intros HB Hk [(h & Hh & Hp) Ht Hb Hf Hl Hcs].
  eapply eventually_one; [done|eapply within_one; [|done|cbn; lia|done]; lia|]. intros res parks Hy.
  cbn [p_to] in *. apply moved_recent in Hy; [|lia..]. destruct (Hb k ltac:(lia)) as [t Hr]. destruct (Hf (S k) ltac:(lia)) as [t' Hr'].
  destruct (frame_data_passes (os := os_of (v (S k))) (stale_of (v (S k))) (v (S k))
              (ports (v (S k))) (lft (S k)) (mr k) (data_at h) (R w (S k)) ltac:(done)
              (Ht (S k) ltac:(lia)) Hy _ _ eq_refl (v_ne n (S k) ltac:(lia) ltac:(lia) ltac:(lia)) Hr HB Hr')
    as (HR & Ht' & Hc' & Ho).
  change (spec_frame _ _ _ _ _ _ _).2 with res in HR, Ht', Hc', Ho. clearbody res. split.
  - exists (Z.of_nat (S k)). split; [lia|]. cbn [moved n_pool app]. by rewrite Ho, (emit_forth (S k)) by (lia || done).
  - apply moved_timed; [lia|done|done].
  - intros j Hj. apply moved_has; [lia|lia|by rewrite HR|by apply Hb].
  - intros j Hj. apply moved_has; [lia|lia|by rewrite HR|by apply Hf].
  - cbn. rewrite Hl, Ho. by rewrite app_nil_r.
  - apply moved_ctrs; [lia|done|]. rewrite Hc'. apply Hcs. lia.
Qed.

Lemma deliver_step log k w :
  0 < B -> S k = n -> ports (v n) (q_dport rq) = Some path -> sending log k w ->
  eventually tp os_of stale_of ports (within hmax lo hi) (arrived log) w.
Proof using Hchain Hlim.
  intros HB Hk Hpt [(h & Hh & Hp) Ht Hb Hf Hl Hcs].
  eapply eventually_one; [done|eapply within_one; [|done|cbn; lia|done]; lia|]. intros res parks Hy.
  cbn [p_to] in *. apply moved_recent in Hy; [|lia..]. destruct (Hb k ltac:(lia)) as [t Hr].
  destruct (frame_delivers (os := os_of (v (S k))) (stale_of (v (S k))) (v (S k))
              (ports (v (S k))) (lft (S k)) (mr k) (data_at h) (R w (S k)) ltac:(done)
              (Ht (S k) ltac:(lia)) Hy _ path eq_refl ltac:(cbn; by rewrite Hk) Hr HB ltac:(by rewrite Hk))
    as (HR & Ht' & Hc' & Ho).
  change (spec_frame _ _ _ _ _ _ _).2 with res in HR, Ht', Hc', Ho. clearbody res. split.
  - cbn [moved n_pool app]. by rewrite Ho.
  - cbn. rewrite Hl, Ho. cbn. by rewrite Hk.
  - intros j Hj. apply moved_has; [lia|lia|by rewrite HR|by apply Hb].
  - intros j Hj. apply moved_has; [lia|lia|by rewrite HR|by apply Hf].
  - apply moved_timed; [lia|done|done].
  - apply moved_ctrs; [lia|done|]. rewrite Hc'. apply Hcs. lia.
Qed.

(** *** From end to end *)

Lemma asking_ends log k d w :
  q_flag rq <> 1 -> (S (k + d) = n)%nat -> asking log k w ->
  eventually tp os_of stale_of ports (within hmax lo hi) (replying log (n - 1)) w.
Proof using Hchain Hlim.
  intros Hfl. revert k w. induction d as [|d IH]; intros k w Hk H.
  - replace (n - 1)%nat with k by lia. apply (answer_step log k); [done|lia|done].
  - eapply eventually_trans; [apply (ask_step log k); [done|lia|done]|]. intros w'. apply IH. lia.
Qed.

Lemma replying_ends log k w :
  (k < n)%nat -> replying log k w -> eventually tp os_of stale_of ports (within hmax lo hi) (sending log 0) w.
Proof using Hchain Hlim.
  revert w. induction k as [|k IH]; intros w Hk H; [by apply release_step|].
  eapply eventually_trans; [by apply (reply_step log k)|]. intros w'. apply IH. lia.
Qed.

Lemma sending_ends log k d w :
  0 < B -> (S (k + d) = n)%nat -> ports (v n) (q_dport rq) = Some path -> sending log k w ->
  eventually tp os_of stale_of ports (within hmax lo hi) (arrived log) w.
Proof using Hchain Hlim.
  intros HB. revert k w. induction d as [|d IH]; intros k w Hk Hp H.
  - apply (deliver_step log k); [done|lia|done|done].
  - eapply eventually_trans; [apply (data_step log k); [done|lia|done]|]. intros w'. apply IH; [lia|done].
Qed.

Lemma asking_arrives log w :
  0 < B -> (0 < n)%nat -> q_flag rq <> 1 -> ports (v n) (q_dport rq) = Some path -> asking log 0 w ->
  eventually tp os_of stale_of ports (within hmax lo hi) (arrived log) w.
Proof using Hchain Hlim.
  intros HB Hn Hfl Hp H. eapply eventually_trans; [apply (asking_ends log 0 (n - 1)); [done|lia|done]|].
  intros w1 H1. eapply eventually_trans; [apply (replying_ends log (n - 1)); [lia|done]|].
  intros w2 H2. apply (sending_ends log 0 (n - 1)); [done|lia|done|done].
Qed.
End Chain.

(** All daemons have just started, with the broadcast counters [c]. *)
Record fresh_net (c : buf -> Z) (w : net) : Prop := {
  fn_pool : n_pool w = [];
  fn_log : n_log w = [];
  fn_router : forall u, a_routes (n_router w u) = ∅ /\ a_parked (n_router w u) = [] /\ a_ctr (n_router w u) = c u;
}.

(** The request of the first machine. *)
Lemma first_asking tp os_of stale_of n v lft rgt lo hi c port rq pts w :
  (0 < n)%nat -> chain tp n v lft rgt -> q_dst rq = v n -> fresh_net c w ->
  (forall i, (i <= n)%nat -> lo <= c (v i) /\ c (v i) + 2 <= hi) ->
  asking tp os_of n v lft rgt port rq (c (v 0%nat) + 1) (c (v n) + 1) lo hi [] 0
    (do_ask tp os_of stale_of (v 0%nat) port rq pts w).
Proof.
  intros Hn Hch Hd [Hp0 Hl0 H0] Hlim. assert (v n <> v 0%nat) as Hne by (apply (v_ne tp n v lft rgt Hch); lia).
  destruct (H0 (v 0%nat)) as (HR0 & Hq0 & Hc0). set (R0 := n_router w (v 0%nat)) in *.
  assert (asked os_of stale_of w (v 0%nat) port rq pts =
          (upd_ctr (c (v 0%nat) + 2) (upd_parked [(v n, parked_msg (v 0%nat) port rq (c (v 0%nat) + 2))] R0),
           [Flood (-1) (request_msg (v 0%nat) port rq (c (v 0%nat) + 1))])) as Ha.
  { unfold asked, spec_request. rewrite decide_False by congruence. cbv zeta. unfold a_lookup. fold R0.
    rewrite HR0, lookup_empty, decide_True, HR0, lookup_empty, Hc0, Hq0, Hd by done. done. }
  set (w1 := do_ask tp os_of stale_of (v 0%nat) port rq pts w).
  assert (n_router w1 (v 0%nat) = upd_ctr (c (v 0%nat) + 2) (upd_parked [(v n, parked_msg (v 0%nat) port rq
            (c (v 0%nat) + 2))] R0)) as E0
    by (unfold w1, do_ask; rewrite Ha; cbn; by rewrite fn_lookup_insert).
  assert (forall u, u <> v 0%nat -> n_router w1 u = n_router w u) as Eu
    by (intros u Hu; unfold w1, do_ask; rewrite Ha; cbn; by rewrite fn_lookup_insert_ne).
  assert (forall u, a_routes (n_router w1 u) = ∅) as HR.
  { intros u. destruct (decide (u = v 0%nat)) as [->|Hu]; [by rewrite E0|]. rewrite Eu by done. apply H0. }
  split.
  - unfold w1, do_ask. rewrite Ha. cbn [moved n_pool snd]. rewrite Hp0. cbn [app].
    rewrite (emit_first tp n v lft rgt Hch) by done. unfold request_msg, ask_msg. by rewrite Hd.
  - intros i _ k r. rewrite HR. by rewrite lookup_empty.
  - lia.
  - intros i _. by rewrite HR.
  - intros i _. by rewrite HR.
  - rewrite E0. cbn. unfold parked_msg, data_at. rewrite Hd. do 3 f_equal. lia.
  - rewrite Eu by done. by rewrite (proj2 (proj2 (H0 (v n)))).
  - unfold w1, do_ask. rewrite Ha. cbn. by rewrite Hl0.
  - intros i Hi. destruct (decide (v i = v 0%nat)) as [->|Hu]; [rewrite E0|rewrite Eu by done].
    + cbn. specialize (Hlim 0%nat ltac:(lia)). lia.
    + rewrite (proj2 (proj2 (H0 (v i)))). specialize (Hlim i Hi). lia.
Qed.

(** In a chain of any number of machines whose daemons have just started, a
    process at one end sends data to a process at the other.  Whatever the order
    of deliveries, the frames come to rest with the data delivered exactly once,
    and with every machine having a route to both ends, with the number of links
    as its hop count; until then hop counts and counters stay within limits; all this
    as long as the staleness time has not passed. *)
Lemma chain_arrives tp os_of stale_of ports n v lft rgt hmax lo hi c port rq path pts w :
  (0 < n)%nat -> chain tp n v lft rgt ->
  fresh_net c w -> 0 <= c (v 0%nat) -> Z.of_nat n <= hmax -> c (v 0%nat) + 2 <= hmax ->
  (forall i, (i <= n)%nat -> lo <= c (v i) /\ c (v i) + 2 <= hi) ->
  q_dst rq = v n -> q_flag rq <> 1 -> ports (v n) (q_dport rq) = Some path ->
  eventually tp os_of stale_of ports (within hmax lo hi)
    (arrived tp os_of n v lft rgt port rq path (c (v 0%nat) + 1) (c (v n) + 1) lo hi [])
    (do_ask tp os_of stale_of (v 0%nat) port rq pts w).
Proof.
  intros Hn Hch Hw Hc Hh1 Hh2 Hlim Hd Hf Hp. pose proof (Hlim n ltac:(lia)).
  eapply asking_arrives; try done; [lia|lia|]. by apply first_asking.
Qed.

(** ** The test bed in a line: vm1 to vm10 *)

Definition line10 : topology :=
  Topology (filter (fun p => p <> (vm_ip 1, 3) /\ p <> (vm_ip 10, 4))
              ([1; 2; 3; 4; 5; 6; 7; 8; 9; 10] ≫= fun k => [(vm_ip k, 3); (vm_ip k, 4)]))
           (fun p => if p.2 =? 4 then vm_index p.1 else vm_index p.1 - 1)
           (fun p => bytes [0; 12; 41; 62 + p.2; 227; vm_index p.1]).
Definition vm_at (k : nat) : buf := vm_ip (Z.of_nat k + 1).

Lemma below_all (P : nat -> Prop) `{!forall k, Decision (P k)} m :
  bool_decide (Forall P (seq 0 m)) = true -> forall k, (k < m)%nat -> P k.
Proof.
  intros Hb%bool_decide_eq_true k Hk. rewrite Forall_forall in Hb. apply Hb, elem_of_seq. lia.
Qed.

Lemma line10_chain : chain line10 9 vm_at (fun _ => 3) (fun _ => 4).
Proof.
  split.
  - intros i j Hi Hj E. apply (f_equal vm_index) in E.
    assert (forall k, (k < 10)%nat -> vm_index (vm_at k) = Z.of_nat k + 1) as Hv
      by (apply (below_all (fun k => vm_index (vm_at k) = Z.of_nat k + 1)); vm_compute; reflexivity).
    rewrite !Hv in E by lia. lia.
  - apply (below_all (fun k => peers line10 (vm_at k, 4) = [(vm_at (S k), 3)])). vm_compute. reflexivity.
  - apply (below_all (fun k => peers line10 (vm_at (S k), 3) = [(vm_at k, 4)])). vm_compute. reflexivity.
  - split; [vm_compute; reflexivity|done].
  - intros [|k] Hk; [lia|]. revert Hk. intros [_ Hk%Nat.succ_lt_mono]. revert k Hk.
    apply (below_all (fun k => ifs_of line10 (vm_at (S k)) = [3; 4]) 8). vm_compute. reflexivity.
  - intros p. apply length_bytes.
Qed.
