(* ===== verification/Talk.v ===== *)
(** * Exchanges along a chain of machines

    Once the routes between the two ends of a chain of machines are known in both
    directions, messages travel either way, any number of times, whatever the
    order of deliveries; the routes stay as they are, up to the broadcast ids that
    the messages renew. *)

From stdpp Require Import functions.
From S2P Require Import Prelude CLib Inet Frame DList Node Demo Utils Ports RTable PQueue Send.
From S2P Require Import Spec SpecFacts Network NetDemo Chain.

(** ** One machine *)

Section Router.
Context {os : OS} (stale : Z).

(** Two routes that differ in broadcast id and age only. *)
Definition same_way (r r' : route) : Prop := r_via r' = r_via r /\ r_if r' = r_if r /\ r_hops r' = r_hops r.

(** A message over the route that is known to its source renews that route, or
    leaves it. *)
Lemma learn_again m intf via R r :
  timed R -> a_routes R !! m_src m = Some r ->
  r_via r = take HWADDR via -> r_if r = intf -> r_hops r = m_hop m + 1 ->
  exists b r' R', a_learn m intf via R = (b, r', R') /\ same_way r r' /\
    a_routes R' = <[m_src m := r']> (a_routes R) /\ a_parked R' = a_parked R /\ a_ctr R' = a_ctr R /\ timed R'.
Proof.
  intros Ht Hr Hv Hi Hh. unfold a_learn. rewrite Hr. destruct (decide (a_better m r)) as [Hb|Hb].
  - eexists _, _, _. split; [reflexivity|]. split; [by split_and!|]. split_and!; [done..|].
    intros k x. cbn. rewrite lookup_insert. destruct (decide _).
    + intros [= <-]. exists (a_clock R). split; [lia|done].
    + intros (c & Hc & Hs)%Ht. exists c. split; [lia|done].
  - exists false, r, R. split_and!; [done| |by rewrite insert_id|done..]. by split_and!.
Qed.

Section Frames.
Context (ip : buf) (ports : Z -> option buf) (intf : Z) (via : buf) (m : msg) (R : router) (rs : route).
Hypothesis Hrdf : m_rdf m <> 1.
Hypothesis Htimed : timed R.
Hypothesis Hdata : m_type m = __DATA.
Hypothesis Hsrc : a_routes R !! m_src m = Some rs.
Hypothesis Hway : r_via rs = take HWADDR via /\ r_if rs = intf /\ r_hops rs = m_hop m + 1.
Abbreviation res := (spec_frame ip stale ports intf via m R).2.
Hypothesis Hrecent : recent stale (a_clock res.1).

(** What data from a known source does to the router, and what it makes it send. *)
Definition renews (res : router * list out) (outs : list out) : Prop :=
  (exists r', same_way rs r' /\ a_routes res.1 = <[m_src m := r']> (a_routes R)) /\
  timed res.1 /\ a_ctr res.1 = a_ctr R /\ res.2 = outs.

Lemma data_passes rd :
  m_dst m <> ip -> m_src m <> m_dst m -> a_routes R !! m_dst m = Some rd ->
  renews res [Unicast rd (set_hop (m_hop m + 1) m)].
Proof using Hrecent Hrdf Htimed Hdata Hsrc Hway.
  intros Hd Hne Hr. destruct (frame_switch stale ip ports intf via m R Hrdf Htimed Hrecent) as (R2 & -> & Ht & HR2 & _ & Hc2).
  rewrite switch_data by done. unfold spec_data. cbn [snd]. destruct Hway as (H1 & H2 & H3).
  destruct (learn_again m intf via R2 rs Ht) as (b & r' & R' & -> & Hs & HR' & _ & Hc' & Ht'); [by rewrite ?HR2..|].
  rewrite decide_False by done. rewrite HR', lookup_insert_ne, HR2, Hr by done.
  split; [exists r'; cbn [fst]; by rewrite HR', HR2|]. cbn [fst snd]. split; [done|]. split; [congruence|].
  destruct Hs as (_ & _ & ->). by rewrite H3.
Qed.

Lemma data_arrives path :
  m_dst m = ip -> ports (m_dport m) = Some path ->
  renews res [Deliver path (peer_text (m_src m) (m_sport m) (m_data m))].
Proof using Hrecent Hrdf Htimed Hdata Hsrc Hway.
  intros Hd Hp. destruct (frame_switch stale ip ports intf via m R Hrdf Htimed Hrecent) as (R2 & -> & Ht & HR2 & _ & Hc2).
  rewrite switch_data by done. unfold spec_data. cbn [snd]. destruct Hway as (H1 & H2 & H3).
  destruct (learn_again m intf via R2 rs Ht) as (b & r' & R' & -> & Hs & HR' & _ & Hc' & Ht'); [by rewrite ?HR2..|].
  rewrite decide_True by done. rewrite Hp. split; [exists r'; cbn [fst]; by rewrite HR', HR2|].
  cbn [fst snd]. split; [done|]. split; [congruence|done].
Qed.
End Frames.
End Router.

(** ** Machines in a line *)

(** Machines [v 0] to [v n], each connected to the next. *)
Record cable (tp : topology) (n : nat) (v : nat -> buf) (lft rgt : nat -> Z) : Prop := {
  ca_inj : forall i j, (i <= n)%nat -> (j <= n)%nat -> v i = v j -> i = j;
  ca_right : forall k, (k < n)%nat -> peers tp (v k, rgt k) = [(v (S k), lft (S k))];
  ca_left : forall k, (k < n)%nat -> peers tp (v (S k), lft (S k)) = [(v k, rgt k)];
  ca_mac : forall p, length (t_mac tp p) = HWADDR;
}.

Lemma chain_cable tp n v lft rgt : chain tp n v lft rgt -> cable tp n v lft rgt.
Proof. intros []. by split. Qed.

(** Seen from the other end. *)
Definition turned {A} (n : nat) (f : nat -> A) (i : nat) : A := f (n - i)%nat.

Lemma cable_turned tp n v lft rgt :
  cable tp n v lft rgt -> cable tp n (turned n v) (turned n rgt) (turned n lft).
Proof.
  intros [Hi Hr Hl Hm]. unfold turned. split; [| | |done].
  - intros i j Hi' Hj E. apply Hi in E; lia.
  - intros k Hk. specialize (Hl (n - S k)%nat ltac:(lia)). by replace (S (n - S k)) with (n - k)%nat in Hl by lia.
  - intros k Hk. specialize (Hr (n - S k)%nat ltac:(lia)). by replace (S (n - S k)) with (n - k)%nat in Hr by lia.
Qed.

Section Line.
Context (tp : topology) (os_of : buf -> OS) (stale_of : buf -> Z) (ports : buf -> Z -> option buf).
Context (n : nat) (v : nat -> buf) (lft rgt : nat -> Z) (hmax lo hi : Z).

Abbreviation mr k := (t_mac tp (v k, rgt k)).
Abbreviation ml k := (t_mac tp (v k, lft k)).
Abbreviation R w i := (n_router w (v i)).

(** Machine [k + 1] has a route to the first machine; machine [k] to the last. *)
Definition to_left (w : net) (k : nat) : Prop :=
  exists b, has (R w (S k)) (v 0%nat) (mr k) (lft (S k)) (Z.of_nat (S k)) b.
Definition to_right (w : net) (k : nat) : Prop :=
  exists b, has (R w k) (v n) (ml (S k)) (rgt k) (Z.of_nat (n - k)) b.

(** All routes between the two ends are known; [log] has been delivered and [q] is
    on its way. *)
Record open (log : list (buf * buf * buf)) (q : list packet) (w : net) : Prop := {
  op_pool : n_pool w = q;
  op_log : n_log w = log;
  op_left : forall j, (j < n)%nat -> to_left w j;
  op_right : forall j, (j < n)%nat -> to_right w j;
  op_timed : forall i, (i <= n)%nat -> @timed (os_of (v i)) (R w i);
  op_ctrs : forall i, (i <= n)%nat -> lo <= a_ctr (R w i) <= hi;
}.
End Line.

Lemma to_right_turned tp n v lft rgt w j :
  (j < n)%nat -> to_right tp n (turned n v) (turned n rgt) (turned n lft) w j <-> to_left tp v lft rgt w (n - S j).
Proof.
  intros Hj. unfold to_right, to_left, turned. replace (n - n)%nat with 0%nat by lia.
  by replace (S (n - S j)) with (n - j)%nat by lia.
Qed.

Lemma to_left_turned tp n v lft rgt w j :
  (j < n)%nat -> to_left tp (turned n v) (turned n rgt) (turned n lft) w j <-> to_right tp n v lft rgt w (n - S j).
Proof.
  intros Hj. unfold to_right, to_left, turned. replace (n - 0)%nat with n by lia.
  replace (S (n - S j)) with (n - j)%nat by lia. by replace (n - (n - S j))%nat with (S j) by lia.
Qed.

Lemma open_turned tp os_of n v lft rgt lo hi log q w :
  open tp os_of n v lft rgt lo hi log q w ->
  open tp os_of n (turned n v) (turned n rgt) (turned n lft) lo hi log q w.
Proof.
  intros [H1 H2 H3 H4 H5 H6]. split; [done|done| | | |].
  - intros j Hj. apply to_left_turned; [done|]. apply H4. lia.
  - intros j Hj. apply to_right_turned; [done|]. apply H3. lia.
  - intros i Hi. unfold turned. apply H5. lia.
  - intros i Hi. unfold turned. apply H6. lia.
Qed.

Lemma open_turned_inv tp os_of n v lft rgt lo hi log q w :
  open tp os_of n (turned n v) (turned n rgt) (turned n lft) lo hi log q w ->
  open tp os_of n v lft rgt lo hi log q w.
Proof.
  intros [H1 H2 H3 H4 H5 H6]. split; [done|done| | | |].
  - intros j Hj. specialize (H4 (n - S j)%nat ltac:(lia)). rewrite to_right_turned in H4 by lia.
    by replace (n - S (n - S j))%nat with j in H4 by lia.
  - intros j Hj. specialize (H3 (n - S j)%nat ltac:(lia)). rewrite to_left_turned in H3 by lia.
    by replace (n - S (n - S j))%nat with j in H3 by lia.
  - intros i Hi. specialize (H5 (n - i)%nat ltac:(lia)). unfold turned in H5. by replace (n - (n - i))%nat with i in H5 by lia.
  - intros i Hi. specialize (H6 (n - i)%nat ltac:(lia)). unfold turned in H6. by replace (n - (n - i))%nat with i in H6 by lia.
Qed.

Section Travel.
Context (tp : topology) (os_of : buf -> OS) (stale_of : buf -> Z) (ports : buf -> Z -> option buf).
Context (n : nat) (v : nat -> buf) (lft rgt : nat -> Z) (hmax lo hi : Z).
Hypothesis Hcable : cable tp n v lft rgt.
Hypothesis Hn : (0 < n)%nat.
Hypothesis Hmax : Z.of_nat n <= hmax.
(** The request of the process at [port] of the first machine. *)
Context (port : Z) (rq : request).
Hypothesis Hflag : q_flag rq <> 1.

Abbreviation mr k := (t_mac tp (v k, rgt k)).
Abbreviation ml k := (t_mac tp (v k, lft k)).
Abbreviation R w i := (n_router w (v i)).
Abbreviation open := (open tp os_of n v lft rgt lo hi).

Lemma ends_differ : v 0%nat <> v n.
Proof using Hcable Hn. intros E. apply (ca_inj _ _ _ _ _ Hcable) in E; lia. Qed.

Lemma machine_port i : (i <= n)%nat -> exists j, (v i, j) ∈ t_ports tp.
Proof using Hcable Hn.
  intros Hi. destruct (decide (i = n)) as [->|Hne].
  - exists (lft n). assert ((v n, lft n) ∈ peers tp (v (n - 1)%nat, rgt (n - 1)%nat)) as H.
    { rewrite (ca_right _ _ _ _ _ Hcable) by lia. replace (S (n - 1)) with n by lia. by left. }
    by apply elem_of_peers in H as [? _].
  - exists (rgt i). assert ((v i, rgt i) ∈ peers tp (v (S i), lft (S i))) as H
      by (rewrite (ca_left _ _ _ _ _ Hcable) by lia; by left).
    by apply elem_of_peers in H as [? _].
Qed.

Lemma machine_recent i w :
  (i <= n)%nat -> all_recent tp os_of stale_of w -> @recent (os_of (v i)) (stale_of (v i)) (a_clock (R w i)).
Proof using Hcable Hn. intros Hi Hy. destruct (machine_port i Hi) as [j Hj]. by apply (Hy _ j). Qed.

Lemma travel_recent i w res parks :
  (i <= n)%nat -> all_recent tp os_of stale_of (moved tp w (v i) res [] parks) ->
  @recent (os_of (v i)) (stale_of (v i)) (a_clock res.1).
Proof using Hcable Hn.
  intros Hi Hy. apply (machine_recent i) in Hy; [|done]. cbn in Hy. by rewrite fn_lookup_insert in Hy.
Qed.

(** The message, on its way to machine [k + 1]. *)
Definition carried (b h : Z) : msg :=
  mkMsg __DATA b h PAYLOAD_SIZE (q_flag rq) port (q_dport rq) (v n) (v 0%nat) (q_data rq).
Definition under_way (b : Z) (k : nat) : packet :=
  Packet (v (S k)) (lft (S k)) (mr k) (carried b (Z.of_nat k)).

Lemma emit_right k r m :
  (k < n)%nat -> r_via r = ml (S k) -> r_if r = rgt k ->
  emit_outs tp (v k) [Unicast r m] = [Packet (v (S k)) (lft (S k)) (mr k) m].
Proof using Hcable.
  intros Hk Hv Hi. unfold emit_outs. cbn [mbind list_bind emit_out app]. rewrite Hi, Hv.
  by rewrite (ca_right _ _ _ _ _ Hcable k Hk), filter_cons_True.
Qed.

Lemma under_way_within b k log w : (k < n)%nat -> open log [under_way b k] w -> within hmax lo hi w.
Proof using Hmax Hn.
  intros Hk H. unfold within. rewrite (op_pool _ _ _ _ _ _ _ _ _ _ _ H). apply Forall_singleton. cbn. split; [lia|].
  apply (op_ctrs _ _ _ _ _ _ _ _ _ _ _ H). lia.
Qed.

(** A machine that only renews its route to the first machine keeps the routes
    open. *)
Lemma open_moved log q w k rs m res outs parks :
  (S k <= n)%nat -> open log q w -> m_src m = v 0%nat -> a_routes (R w (S k)) !! v 0%nat = Some rs ->
  @renews (os_of (v (S k))) m (R w (S k)) rs res outs ->
  open (log ++ handed (v (S k)) outs) (emit_outs tp (v (S k)) outs) (moved tp w (v (S k)) res [] parks).
Proof using Hcable Hn.
  intros Hk [Hp Hl Hlft Hrgt Ht Hc] Hm Hrs [(r' & (S1 & S2 & S3) & HR) (Htm & Hct & <-)]. rewrite Hm in HR.
  set (w' := moved tp w (v (S k)) res [] parks).
  assert (R w' (S k) = res.1) as Es by (cbn; by rewrite fn_lookup_insert).
  assert (forall i, (i <= n)%nat -> i <> S k -> R w' i = R w i) as Eo.
  { intros i Hi Hne. cbn. rewrite fn_lookup_insert_ne; [done|]. intros E. apply (ca_inj _ _ _ _ _ Hcable) in E; lia. }
  split; [done|cbn; by rewrite Hl| | | |].
  - intros j Hj. destruct (decide (j = k)) as [->|Hne].
    + destruct (Hlft k Hj) as (b & t & E). rewrite E in Hrs. injection Hrs as <-. exists (r_bid r'), (r_seen r').
      rewrite Es, HR, lookup_insert_eq. destruct r'. cbn in *. by subst.
    + destruct (Hlft j Hj) as (b & t & E). exists b, t. by rewrite Eo by lia.
  - intros j Hj. destruct (Hrgt j Hj) as (b & t & E). exists b, t. destruct (decide (j = S k)) as [->|Hne].
    + rewrite Es, HR, lookup_insert_ne; [done|apply ends_differ].
    + by rewrite Eo by lia.
  - intros i Hi. destruct (decide (i = S k)) as [->|Hne]; [by rewrite Es|]. rewrite Eo by done. by apply Ht.
  - intros i Hi. destruct (decide (i = S k)) as [->|Hne]; [rewrite Es, Hct|rewrite Eo by done]; by apply Hc.
Qed.

(** One step of the way. *)
Lemma travel_step b k log w :
  (S k < n)%nat -> open log [under_way b k] w ->
  eventually tp os_of stale_of ports (within hmax lo hi) (open log [under_way b (S k)]) w.
Proof using Hcable Hn Hmax Hflag.
  intros Hk H. pose proof H as [Hp Hl Hlft Hrgt Ht Hc].
  eapply eventually_one; [done|eapply under_way_within; [|done]; lia|]. intros res parks Hy. cbn [p_to under_way] in *.
  apply travel_recent in Hy; [|lia].
  destruct (Hlft k ltac:(lia)) as (bl & tl & Hrl). destruct (Hrgt (S k) ltac:(lia)) as (br & tr & Hrr).
  pose proof (data_passes (os := os_of (v (S k))) (stale_of (v (S k))) (v (S k))
    (ports (v (S k))) (lft (S k)) (mr k) (carried b (Z.of_nat k)) (R w (S k)) _ Hflag (Ht (S k) ltac:(lia)) eq_refl Hrl) as Hren.
  cbn [r_via r_if r_hops m_hop carried] in Hren. specialize (Hren ltac:(split_and!; [|done|lia];
    rewrite take_ge; [done|by rewrite (ca_mac _ _ _ _ _ Hcable)]) Hy _ ltac:(cbn; intros E;
    apply (ca_inj _ _ _ _ _ Hcable) in E; lia) ends_differ Hrr).
  change (spec_frame _ _ _ _ _ _ _).2 with res in Hren. clearbody res.
  pose proof (open_moved log _ w k _ (carried b (Z.of_nat k)) res _ parks ltac:(lia) H eq_refl Hrl Hren) as Ho.
  rewrite emit_right in Ho by (lia || done). cbn [handed] in Ho. rewrite app_nil_r in Ho.
  unfold under_way, carried. unfold set_hop, carried in Ho. cbn in Ho.
  by replace (Z.of_nat (S k)) with (Z.of_nat k + 1) by lia.
Qed.

Lemma travel_ends b k log w path :
  S k = n -> ports (v n) (q_dport rq) = Some path -> open log [under_way b k] w ->
  eventually tp os_of stale_of ports (within hmax lo hi)
    (open (log ++ [(v n, path, peer_text (v 0%nat) port (q_data rq))]) []) w.
Proof using Hcable Hn Hmax Hflag.
  intros Hk Hpath H. pose proof H as [Hp Hl Hlft Hrgt Ht Hc].
  eapply eventually_one; [done|eapply under_way_within; [|done]; lia|]. intros res parks Hy. cbn [p_to under_way] in *.
  apply travel_recent in Hy; [|lia].
  destruct (Hlft k ltac:(lia)) as (bl & tl & Hrl).
  pose proof (data_arrives (os := os_of (v (S k))) (stale_of (v (S k))) (v (S k))
    (ports (v (S k))) (lft (S k)) (mr k) (carried b (Z.of_nat k)) (R w (S k)) _ Hflag (Ht (S k) ltac:(lia)) eq_refl Hrl) as Hren.
  cbn [r_via r_if r_hops m_hop carried] in Hren. specialize (Hren ltac:(split_and!; [|done|lia];
    rewrite take_ge; [done|by rewrite (ca_mac _ _ _ _ _ Hcable)]) Hy path ltac:(cbn; by rewrite Hk) ltac:(cbn; by rewrite Hk)).
  change (spec_frame _ _ _ _ _ _ _).2 with res in Hren. clearbody res.
  pose proof (open_moved log _ w k _ (carried b (Z.of_nat k)) res _ parks ltac:(lia) H eq_refl Hrl Hren) as Ho.
  cbn [emit_outs mbind list_bind emit_out app handed] in Ho. rewrite Hk in *. exact Ho.
Qed.

Lemma travels b k d log w path :
  (S (k + d) = n)%nat -> ports (v n) (q_dport rq) = Some path -> open log [under_way b k] w ->
  eventually tp os_of stale_of ports (within hmax lo hi)
    (open (log ++ [(v n, path, peer_text (v 0%nat) port (q_data rq))]) []) w.
Proof using Hcable Hn Hmax Hflag.
  revert k w. induction d as [|d IH]; intros k w Hk Hp H; [by apply (travel_ends b k); [lia|..]|].
  eapply eventually_trans; [by apply (travel_step b k); [lia|]|]. intros w' H'. apply (IH (S k)); [lia|done|done].
Qed.

(** The first machine sends. *)
Lemma open_asks log w pts :
  open log [] w -> q_dst rq = v n -> all_recent tp os_of stale_of (do_ask tp os_of stale_of (v 0%nat) port rq pts w) ->
  exists b, open log [under_way b 0] (do_ask tp os_of stale_of (v 0%nat) port rq pts w).
Proof using Hcable Hn Hflag.
  intros [Hp Hl Hlft Hrgt Ht Hc] Hd Hy. destruct (Hrgt 0%nat Hn) as (b & t & Hr). exists b.
  set (R1 := @a_lookup (os_of (v 0%nat)) (stale_of (v 0%nat)) (q_flag rq) (v n) (R w 0%nat)).
  pose proof (a_lookup_later (os := os_of (v 0%nat)) (stale_of (v 0%nat)) (q_flag rq) (v n) (R w 0%nat)) as Hcl.
  fold R1 in Hcl.
  assert (a_clock (asked os_of stale_of w (v 0%nat) port rq pts).1 = a_clock R1) as Hck.
  { unfold asked, spec_request. rewrite decide_False by (rewrite Hd; intros E; by apply ends_differ). cbv zeta.
    rewrite Hd. fold R1. by destruct (a_routes R1 !! v n). }
  assert (a_routes R1 = a_routes (R w 0%nat)) as HR1.
  { apply (lookup_timed (os := os_of (v 0%nat)) (stale_of (v 0%nat)) (q_flag rq) (v n) (R w 0%nat)); [|done|apply Ht; lia].
    eapply recent_before; [exact Hcl|]. apply (machine_recent 0) in Hy; [|lia]. unfold do_ask in Hy. cbn in Hy.
    by rewrite fn_lookup_insert, Hck in Hy. }
  destruct (@a_lookup_frame (os_of (v 0%nat)) (stale_of (v 0%nat)) (q_flag rq) (v n) (R w 0%nat)) as [Hct _]. fold R1 in Hct.
  assert (asked os_of stale_of w (v 0%nat) port rq pts =
          (R1, [Unicast (mkRoute (ml 1%nat) (rgt 0%nat) (Z.of_nat (n - 0)) b t) (carried b 0)])) as Ha.
  { unfold asked, spec_request. rewrite decide_False by (rewrite Hd; intros E; by apply ends_differ). cbv zeta.
    rewrite Hd. fold R1. rewrite HR1, Hr. unfold data_msg, carried. by rewrite Hd. }
  set (w1 := do_ask tp os_of stale_of (v 0%nat) port rq pts w).
  assert (R w1 0%nat = R1) as E0 by (unfold w1, do_ask; rewrite Ha; cbn; by rewrite fn_lookup_insert).
  assert (forall i, (i <= n)%nat -> i <> 0%nat -> R w1 i = R w i) as Eu.
  { intros i Hi Hne. unfold w1, do_ask. rewrite Ha. cbn. rewrite fn_lookup_insert_ne; [done|].
    intros E. apply (ca_inj _ _ _ _ _ Hcable) in E; lia. }
  split.
  - unfold w1, do_ask. rewrite Ha. cbn [moved n_pool snd]. rewrite Hp. cbn [app]. by apply emit_right.
  - unfold w1, do_ask. rewrite Ha. cbn. by rewrite Hl, app_nil_r.
  - intros j Hj. destruct (Hlft j Hj) as (b' & t' & E). exists b', t'. by rewrite Eu by lia.
  - intros j Hj. destruct (Hrgt j Hj) as (b' & t' & E). exists b', t'. destruct (decide (j = 0%nat)) as [->|Hne].
    + by rewrite E0, HR1.
    + by rewrite Eu by lia.
  - intros i Hi. destruct (decide (i = 0%nat)) as [->|Hne]; [|by rewrite Eu by done; apply Ht].
    rewrite E0. by eapply timed_later, Ht.
  - intros i Hi. destruct (decide (i = 0%nat)) as [->|Hne]; [rewrite E0, Hct|rewrite Eu by done]; by apply Hc.
Qed.

Lemma open_delivers log w pts path :
  open log [] w -> q_dst rq = v n -> ports (v n) (q_dport rq) = Some path ->
  all_recent tp os_of stale_of (do_ask tp os_of stale_of (v 0%nat) port rq pts w) ->
  eventually tp os_of stale_of ports (within hmax lo hi)
    (open (log ++ [(v n, path, peer_text (v 0%nat) port (q_data rq))]) [])
    (do_ask tp os_of stale_of (v 0%nat) port rq pts w).
Proof using Hcable Hn Hflag Hmax.
  intros Ho Hd Hp Hy. destruct (open_asks log w pts Ho Hd Hy) as [b Hb]. apply (travels b 0 (n - 1)); [lia|done|done].
Qed.
End Travel.

Lemma eventually_impl tp os_of stale_of ports ok (P Q : net -> Prop) w :
  (forall w', P w' -> Q w') -> eventually tp os_of stale_of ports ok P w ->
  eventually tp os_of stale_of ports ok Q w.
Proof. intros HPQ H. eapply eventually_trans; [exact H|]. intros w' Hw'. apply ev_now. by apply HPQ. Qed.

(** The last machine sends. *)
Lemma open_delivers_back tp os_of stale_of ports n v lft rgt hmax lo hi port rq log w pts path :
  cable tp n v lft rgt -> (0 < n)%nat ->
  Z.of_nat n <= hmax -> q_flag rq <> 1 -> open tp os_of n v lft rgt lo hi log [] w ->
  q_dst rq = v 0%nat -> ports (v 0%nat) (q_dport rq) = Some path ->
  all_recent tp os_of stale_of (do_ask tp os_of stale_of (v n) port rq pts w) ->
  eventually tp os_of stale_of ports (within hmax lo hi)
    (open tp os_of n v lft rgt lo hi (log ++ [(v 0%nat, path, peer_text (v n) port (q_data rq))]) [])
    (do_ask tp os_of stale_of (v n) port rq pts w).
Proof.
  intros Hc Hn Hmax Hf Ho Hd Hp Hy. eapply eventually_impl; [intros w'; apply open_turned_inv|].
  pose proof (open_delivers tp os_of stale_of ports n (turned n v) (turned n rgt) (turned n lft) hmax lo hi
    (cable_turned _ _ _ _ _ Hc) Hn) as H.
  assert (turned n v 0 = v n) as E0 by (unfold turned; by rewrite Nat.sub_0_r).
  assert (turned n v n = v 0%nat) as E1 by (unfold turned; by rewrite Nat.sub_diag).
  rewrite E0, E1 in H.
  apply H; [done|done|by apply open_turned|done|done|done].
Qed.

(** The state after a discovery. *)
Lemma arrived_open tp os_of n v lft rgt port rq path B B' lo hi log w :
  arrived tp os_of n v lft rgt port rq path B B' lo hi log w ->
  open tp os_of n v lft rgt lo hi (log ++ [(v n, path, peer_text (v 0%nat) port (q_data rq))]) [] w.
Proof. intros [Hp Hl Hb Hf Ht Hc]. split; [done|done| | |done|done]; intros j Hj; eexists; [by apply Hb|by apply Hf]. Qed.
