(* ===== verification/Refine.v ===== *)
(** * The frame handler implements the protocol

    The invariant of a running node ([inv]), the abstraction from a node to the
    [router] of file Spec ([abs_router]), and the refinement: on a well-formed
    frame [handle_frame] returns, keeps the invariant, and does what
    [spec_frame] says, transmission failures included. *)

From S2P Require Import Prelude CLib Inet Frame DList Node Demo Utils Ports RTable Print PQueue Send.
From S2P Require Import Handlers Spec.

(** ** Abstraction *)

Definition abs_route (xe : loc * r_entry) : route :=
  mkRoute (take HWADDR (next_hop xe.2)) (if_no xe.2) (no_hops xe.2) (r_broadcast_id xe.2)
          (timestamp xe.2).

Definition abs_msg (f : odr_frame) : msg :=
  mkMsg (frame_type f) (broadcast_id f) (hop_count f) (payload_len f) (route_disc_flag f)
        (src_port f) (dst_port f) (default [] (cstr (dest_ip f))) (default [] (cstr (src_ip f)))
        (default [] (cstr (payload f))).

Definition abs_parked (kf : buf * odr_frame) : buf * msg := (kf.1, abs_msg kf.2).

Definition abs_router (s : node) (T : routes) (q : pending) : router :=
  mkRouter (abs_route <$> T) (abs_parked <$> q) (cur_broadcast_id s) (clock s).

(** The port table as a function. *)
Definition abs_ports (s : node) (port : Z) : option buf :=
  find_port port (port_spath_head s) ≫= path_of.

(** [f], in network order, carries the message [m]. *)
Definition wire (m : msg) (f : odr_frame) : Prop :=
  exists g dip sip, frame_wf g dip sip /\ abs_msg g = m /\ f = convert_host_net_order g.

Section Relations.
Context {os : OS}.

(** The [sendto] calls that stand for an output. *)
Inductive realises (ifs : list hwa_info) : out -> list event -> Prop :=
  | real_unicast r m mac f :
      find_hwaddr (r_if r) ifs = Some mac -> wire m f ->
      realises ifs (Unicast r m) [raw_event (r_via r) mac (r_if r) f]
  | real_flood ex m f :
      wire m f -> realises ifs (Flood ex m) (flood_events ex f ifs)
  | real_deliver path data :
      realises ifs (Deliver path data) [SendUnix path data].

Definition realise_all (ifs : list hwa_info) (os : list out) (evs : list event) : Prop :=
  exists evss, Forall2 (realises ifs) os evss /\ evs = concat evss.

(** The log after sending until the first failure, and whether one
    happened. *)
Fixpoint send_log (evs : list event) (o : list (event * Z)) : Z * list (event * Z) :=
  match evs with
  | [] => (0, o)
  | ev :: evs' =>
      let r := os_sendto (length o) ev in
      if r <? 0 then (-1, (ev, r) :: o) else send_log evs' ((ev, r) :: o)
  end.

Record sent (evs : list event) (rc : Z) (s : node) (r : Z) (s' : node) : Prop := {
  sent_outs : outs s' = (send_log evs (outs s)).2;
  sent_ok : (send_log evs (outs s)).1 = 0 -> r = rc;
  sent_fail : r = rc \/ r = -1;
}.

(** ** Invariant *)

Definition route_good (ifs : list hwa_info) (k : buf) (xe : loc * r_entry) : Prop :=
  resolves k /\ is_Some (find_hwaddr (if_no xe.2) ifs) /\
  int_ok (no_hops xe.2) = true /\ int_ok (r_broadcast_id xe.2) = true.

Definition routes_ok (ifs : list hwa_info) (T : routes) : Prop := map_Forall (route_good ifs) T.

Definition parked_good (kf : buf * odr_frame) : Prop :=
  resolves kf.1 /\ exists sip, resolves sip /\ frame_wf kf.2 kf.1 sip.

Record inv (ip : buf) (T : routes) (q : pending) (s : node) : Prop := {
  inv_ready : ready s ip;
  inv_self : resolves ip;
  inv_ports : ports_inv s;
  inv_rt : rt_rep (rt s) T;
  inv_routes : routes_ok (hwa_struct_head s) T;
  inv_pq : pq_rep (pq s) q;
  inv_parked : Forall parked_good q;
}.

(** The variables no handler of received frames writes. *)
Definition kept (s s' : node) : Prop :=
  self_ip_addr s' = self_ip_addr s /\ hwa_struct_head s' = hwa_struct_head s /\
  port_spath_head s' = port_spath_head s /\ next_portno s' = next_portno s /\
  stale_param s' = stale_param s.

(** A frame that arrived on one of the node's interfaces. *)
Record arrival (ifs : list hwa_info) (addr : sockaddr_ll) (fr : odr_frame) (dip sip : buf)
    : Prop := {
  arr_wf : frame_wf fr dip sip;
  arr_dip : resolves dip;
  arr_sip : resolves sip;
  arr_ne : dip <> sip;
  arr_hop : int_ok (hop_count fr + 1) = true;
  arr_if : is_Some (find_hwaddr (sll_ifindex addr) ifs);
  arr_addr : (HWADDR <= length (sll_addr addr))%nat;
}.

(** The specification's verdict [res] is what [s'] and [r] show. *)
Definition meets (ip : buf) (res : router * list out) (rc : Z) (s : node) (r : Z) (s' : node)
    : Prop :=
  exists T' q' evs,
    inv ip T' q' s' /\ abs_router s' T' q' = res.1 /\
    realise_all (hwa_struct_head s) res.2 evs /\ sent evs rc s r s' /\ kept s s'.

(** ** Lemmas on sending *)

Lemma emit_all_log evs s :
  emit_all evs s = ((send_log evs (outs s)).1, set_outs (send_log evs (outs s)).2 s).
Proof.
  revert s. induction evs as [|ev evs IH]; intros s; cbn.
  - by destruct s.
  - destruct (_ <? 0); [done|]. rewrite IH. done.
Qed.

Lemma send_log_01 evs o : (send_log evs o).1 = 0 \/ (send_log evs o).1 = -1.
Proof.
  revert o. induction evs as [|ev evs IH]; intros o; cbn; [by left|].
  destruct (_ <? 0); [by right|]. apply IH.
Qed.

Lemma send_log_app evs1 evs2 o :
  send_log (evs1 ++ evs2) o =
  (if (send_log evs1 o).1 <? 0 then send_log evs1 o else send_log evs2 (send_log evs1 o).2).
Proof.
  revert o. induction evs1 as [|ev evs1 IH]; intros o; cbn; [done|].
  destruct (os_sendto _ _ <? 0); [done|]. apply IH.
Qed.

Lemma realise_nil ifs : realise_all ifs [] [].
Proof. by exists []. Qed.

Lemma realise_cons ifs o os' ev1 evs :
  realises ifs o ev1 -> realise_all ifs os' evs -> realise_all ifs (o :: os') (ev1 ++ evs).
Proof. intros H1 (evss & H2 & ->). exists (ev1 :: evss). split; [by constructor|done]. Qed.

Lemma realise_one ifs o evs : realises ifs o evs -> realise_all ifs [o] evs.
Proof. intros H. rewrite <- (app_nil_r evs). apply realise_cons; [done|apply realise_nil]. Qed.

Lemma realises_route ifs x e m mac f :
  find_hwaddr (if_no e) ifs = Some mac -> wire m f ->
  realises ifs (Unicast (abs_route (x, e)) m) [raw_event (next_hop e) mac (if_no e) f].
Proof.
  intros Hm Hw. pose proof (real_unicast ifs (abs_route (x, e)) m mac f Hm Hw) as H.
  unfold raw_event in *. cbn in H. by rewrite take_take in H.
Qed.

Lemma inv_outs ip T q s o : inv ip T q s -> inv ip T q (set_outs o s).
Proof. by intros []. Qed.
Lemma inv_bid ip T q s b : inv ip T q s -> inv ip T q (set_bid b s).
Proof. by intros []. Qed.

(** ** Wire form of the frames [construct_odr] makes *)

Lemma wire_intro f g dip sip :
  frame_wf f dip sip -> f = convert_host_net_order g ->
  Forall (fun z => int_ok z = true)
    [frame_type g; broadcast_id g; hop_count g; payload_len g; route_disc_flag g;
     src_port g; dst_port g] ->
  dest_ip g = dest_ip f -> src_ip g = src_ip f -> payload g = payload f ->
  wire (abs_msg g) f.
Proof.
  intros [[_ Hd Hs Hp] Hdc Hsc Hpc] Hf Hi Ed Es Ep. exists g, dip, sip. split; [|done].
  split; rewrite ?Ed, ?Es, ?Ep; try done. split; rewrite ?Ed, ?Es, ?Ep; done.
Qed.

Lemma wire_construct type bid hop len rdf sp dp dstip srcip pl d s' p fr :
  construct_odr type bid hop len rdf sp dp dstip srcip pl = Def fr ->
  cstr dstip = Some d -> (length d < INET_ADDRSTRLEN)%nat ->
  cstr srcip = Some s' -> (length s' < INET_ADDRSTRLEN)%nat ->
  (type = __DATA -> cstr pl = Some p /\ (length p < Z.to_nat PAYLOAD_SIZE)%nat) ->
  Forall (fun z => int_ok z = true) [type; bid; hop; len; rdf; sp; dp] ->
  wire (mkMsg type bid hop len rdf sp dp d s' (if type =? __DATA then p else [])) fr.
Proof.
  intros Hc Hd Hdl Hs Hsl Hp Hi.
  destruct (construct_odr_ok type bid hop len rdf sp dp dstip srcip pl d s' p)
    as (fr' & Hc' & Hwf & Hpl & Heq); try done.
  rewrite Hc in Hc'. injection Hc' as <-.
  pose proof (wire_intro _ _ _ _ Hwf Heq Hi eq_refl eq_refl eq_refl) as Hw.
  unfold abs_msg in Hw. cbn in Hw.
  by rewrite Hpl, (wf_dest _ _ _ Hwf), (wf_src _ _ _ Hwf) in Hw.
Qed.

Lemma wire_frame g dip sip : frame_wf g dip sip -> wire (abs_msg g) (convert_host_net_order g).
Proof. intros Hg. by exists g, dip, sip. Qed.

Lemma abs_msg_dst fr dip sip : frame_wf fr dip sip -> m_dst (abs_msg fr) = dip.
Proof. intros [_ H _ _]. cbn. by rewrite H. Qed.
Lemma abs_msg_src fr dip sip : frame_wf fr dip sip -> m_src (abs_msg fr) = sip.
Proof. intros [_ _ H _]. cbn. by rewrite H. Qed.

(** ** Composition *)

Lemma kept_refl s : kept s s.
Proof. by repeat split. Qed.

Lemma kept_trans s1 s2 s3 : kept s1 s2 -> kept s2 s3 -> kept s1 s3.
Proof. unfold kept. intuition congruence. Qed.

(** Work that sends nothing before work that does. *)
Lemma meets_after ip res rc s s1 r s' :
  outs s1 = outs s -> kept s s1 -> meets ip res rc s1 r s' -> meets ip res rc s r s'.
Proof.
  intros Ho Hk (T' & q' & evs & Hi & Ha & Hr & [H1 H2 H3] & Hk').
  pose proof Hk as (_ & Hh & _).
  exists T', q', evs. split; [done|]. split; [done|]. rewrite <- Hh. split; [done|].
  rewrite Ho in H1, H2. split; [done|]. by eapply kept_trans.
Qed.

Lemma sent_emit ev s s1 :
  outs s1 = outs s ->
  sent [ev] 0 s (if os_sendto (length (outs s)) ev <? 0 then -1 else 0) (emit ev s1).
Proof. intros Ho. split; cbn; rewrite ?Ho; destruct (_ <? 0); cbn; auto; lia. Qed.

Lemma sent_none s rc s1 : outs s1 = outs s -> sent [] rc s rc s1.
Proof. intros Ho. by split; auto. Qed.

Lemma sent_flood evs s s1 :
  outs s1 = outs s ->
  sent evs 0 s (if (send_log evs (outs s)).1 <? 0 then -1 else 0)
       (set_outs (send_log evs (outs s1)).2 s1).
Proof.
  intros Ho. destruct (send_log_01 evs (outs s)) as [E|E]; split; cbn; rewrite ?Ho, ?E; auto; lia.
Qed.

(** Nothing sent, and one flood. *)
Lemma meets_quiet ip T q rc s : inv ip T q s -> meets ip (abs_router s T q, []) rc s rc s.
Proof.
  intros Hi. exists T, q, []. split; [done|]. split; [done|]. split; [apply realise_nil|].
  split; [by apply sent_none|apply kept_refl].
Qed.

Lemma meets_flood ip T q ex m evs s :
  inv ip T q s -> realises (hwa_struct_head s) (Flood ex m) evs ->
  meets ip (abs_router s T q, [Flood ex m]) 0 s
    (if (send_log evs (outs s)).1 <? 0 then -1 else 0) (set_outs (send_log evs (outs s)).2 s).
Proof.
  intros Hi Hevs. exists T, q, evs. split; [by apply inv_outs|]. split; [done|].
  split; [by apply realise_one|]. split; [by apply sent_flood|done].
Qed.

(** ** Parts of the handlers *)

Lemma wp_learn_source fr sp src addr ip T q dip sip (Q : Z * loc -> node -> Prop) s :
  inv ip T q s -> arrival (hwa_struct_head s) addr fr dip sip -> found T sip sp src ->
  (forall (changed : bool) x e T' s',
     inv ip T' q s' -> T' !! sip = Some (x, e) ->
     (forall k, k <> sip -> T' !! k = T !! k) ->
     a_learn (abs_msg fr) (sll_ifindex addr) (sll_addr addr) (abs_router s T q)
       = (changed, abs_route (x, e), abs_router s' T' q) ->
     outs s' = outs s -> kept s s' -> cur_broadcast_id s' = cur_broadcast_id s ->
     Q (if changed then 1 else 0, x) s') ->
  wp (learn_source fr sp src (sll_ifindex addr) (sll_addr addr)) Q s.
Proof.
  intros Hinv [Hwf Hd Hs Hne Hhop Hif Hal] Hf HQ. pose proof Hinv as [Hr Hself Hp Hrt Hro Hpq Hpk].
  assert (upd_ok fr sip (sll_addr addr)) as Hupd by (split; [apply Hwf|done..]).
  assert (forall x e d, route_of fr sip (sll_ifindex addr) (sll_addr addr) (os_time (clock s)) e ->
            rt_rep d (<[sip := (x, e)]> T) ->
            inv ip (<[sip := (x, e)]> T) q (set_rt d (set_clock (S (clock s)) s))) as Hinv'.
  { intros x e d [He _ Hei Heh Heb _] Hd'. split; try done.
    apply map_Forall_insert_2; [|done]. split_and!; try done; cbn; rewrite ?Hei, ?Heh, ?Heb; try done.
    destruct Hwf as [[Hi _ _ _] _ _ _]. by split_all Hi. }
  assert (forall x e, route_of fr sip (sll_ifindex addr) (sll_addr addr) (os_time (clock s)) e ->
            mkRoute (take HWADDR (sll_addr addr)) (sll_ifindex addr) (hop_count fr + 1)
              (broadcast_id fr) (os_time (clock s)) = abs_route (x, e)) as Habs.
  { intros x e [_ H1 H2 H3 H4 H5]. unfold abs_route. cbn [snd].
    by rewrite H1, H2, H3, H4, H5. }
  unfold learn_source, found in *. unfold a_learn in HQ.
  rewrite (abs_msg_src _ _ _ Hwf) in HQ. cbn [a_routes abs_router a_clock m_hop m_bid abs_msg] in HQ.
  rewrite lookup_fmap in HQ.
  destruct (T !! sip) as [[x e]|] eqn:E; cbn [fmap option_fmap option_map] in HQ.
  - destruct Hf as [-> ->]. cbn [Z.gtb Z.compare]. wp_step. unfold assigned.
    eapply wp_lift; [done|]. wp_step.
    eapply wp_check_r_entry; [exact Hrt|exact E|done|..].
    + intros Hb e' d He' Hd'. wp_step. apply (HQ true x e' (<[sip := (x, e')]> T)); try done.
      * by apply Hinv'.
      * by rewrite lookup_insert_eq.
      * intros k Hk. by rewrite lookup_insert_ne.
      * rewrite decide_True by exact Hb. rewrite (Habs x e' He').
        unfold abs_router, upd_clock, upd_routes. cbn. by rewrite fmap_insert.
    + intros Hb. wp_step. apply (HQ false x e T); try done.
      rewrite decide_False by exact Hb. done.
  - destruct Hf as [Hle ->]. rewrite Z.gtb_ltb, (proj2 (Z.ltb_ge 0 sp) Hle).
    wp_step. eapply wp_insert_r_entry; [exact Hrt|exact E|done|].
    intros x e d He Hd'. cbn beta. wp_step. apply (HQ true x e (<[sip := (x, e)]> T)); try done.
    + by apply Hinv'.
    + by rewrite lookup_insert_eq.
    + intros k Hk. by rewrite lookup_insert_ne.
    + rewrite (Habs x e He). unfold abs_router, upd_clock, upd_routes. cbn. by rewrite fmap_insert.
Qed.

Lemma wp_forward_data g x e T q k ip dip sip m s :
  inv ip T q s -> T !! k = Some (x, e) -> frame_wf g dip sip -> abs_msg g = m ->
  wp (forward_data (convert_host_net_order g) x)
     (meets ip (abs_router s T q, [Unicast (abs_route (x, e)) m]) 0 s) s.
Proof.
  intros Hinv Hx Hg <-. pose proof Hinv as [Hr Hself _ Hrt Hro _ _].
  destruct (rt_rep_load _ _ _ _ _ Hrt Hx) as (n & Hn & <-).
  pose proof (rt_rep_ok _ _ _ _ _ Hrt Hx) as [Hk _ Hnh].
  destruct (Hro _ _ Hx) as (Hkr & [mac Hmac] & _). cbn in Hmac.
  unfold forward_data. wp_step. eapply wp_rt_load; [exact Hn|].
  wp_step. apply wp_get_hwaddr_from_int; [apply Hr|]. rewrite Hmac. wp_step.
  eapply wp_send_raw_frame; [exact Hr|done| | rewrite Hnh; unfold HW_ADDR, HWADDR; lia |].
  { by rewrite (find_hwaddr_length _ _ _ (ready_ok _ _ _ Hr) Hmac). }
  cbv zeta. set (ev := raw_event _ _ _ _).
  assert (meets ip (abs_router s T q, [Unicast (abs_route (x, dval n)) (abs_msg g)]) 0 s
            (if os_sendto (length (outs s)) ev <? 0 then -1 else 0) (emit ev s)) as HM.
  { exists T, q, [ev]. split; [by apply inv_outs|]. split; [done|]. split.
    - apply realise_one, realises_route; [done|]. by eapply wire_frame.
    - split; [by apply sent_emit|done]. }
  destruct (_ <? 0); [by wp_step|]. wp_step. eapply wp_get_name_ip; [exact Hk|done|].
  intros _ _ _. by wp_step.
Qed.

(** The message a reply to, or a forwarded copy of, [m] carries. *)
Definition rrep_msg (swap : bool) (m : msg) (hop bid : Z) : msg :=
  if swap then reply m hop bid else fwd_reply m hop.

Lemma wp_rrep fr x e T q k ip dip sip hop (swap : bool) (Q : Z -> node -> Prop) s :
  inv ip T q s -> frame_wf fr dip sip -> resolves dip -> resolves sip ->
  T !! k = Some (x, e) -> int_ok hop = true ->
  INT_MIN < cur_broadcast_id s < INT_MAX ->
  (forall ev, realises (hwa_struct_head s)
                (Unicast (abs_route (x, e))
                   (rrep_msg swap (abs_msg fr) hop (cur_broadcast_id s + 1))) [ev] ->
     Q (if os_sendto (length (outs s)) ev <? 0 then -1 else 0)
       (emit ev (if swap then set_bid (cur_broadcast_id s + 1) s else s))) ->
  wp (send_rrep_packet fr x hop swap) Q s.
Proof.
  intros [Hr Hself _ Hrt Hro _ _] Hwf Hd Hs Hx Hhop Hbid HQ.
  destruct (Hro _ _ Hx) as (_ & [mac Hmac] & _). cbn in Hmac.
  eapply wp_send_rrep_packet; [exact Hr|done|exact Hwf|done|done|exact Hrt|exact Hx|exact Hmac|done|].
  intros fr' Hwf' Hpl bid Heq ev s1.
  replace s1 with (if swap then set_bid (cur_broadcast_id s + 1) s else s)
    by (unfold s1, bid; by destruct swap).
  apply HQ, realises_route; [done|].
  pose proof (wf_shape _ _ _ Hwf) as [Hi _ _ _]. split_all Hi.
  assert (int_ok bid = true).
  { unfold bid. destruct swap; [|done]. apply int_ok_spec. lia. }
  pose proof (fun H => wire_intro _ _ _ _ Hwf' Heq H eq_refl eq_refl eq_refl) as Hw.
  replace (rrep_msg _ _ _ _) with (abs_msg
    (mkFrame __RREP bid hop (payload_len fr) 0 (if swap then dst_port fr else src_port fr)
       (if swap then src_port fr else dst_port fr) (dest_ip fr') (src_ip fr') (payload fr'))).
  - apply Hw. cbn. destruct swap; repeat constructor; done.
  - unfold abs_msg, rrep_msg, reply, fwd_reply. cbn.
    rewrite Hpl, (wf_dest _ _ _ Hwf'), (wf_src _ _ _ Hwf'), (wf_dest _ _ _ Hwf), (wf_src _ _ _ Hwf).
    by destruct swap.
Qed.

Definition flood_type (asent : Z) : Z := if asent =? 1 then __ASENT else __RREQ.

Lemma wp_flood intf bid sp dp hop rdf dstip srcip pl asent dip sip ip T q
    (Q : Z -> node -> Prop) s :
  inv ip T q s ->
  cstr dstip = Some dip -> resolves dip -> cstr srcip = Some sip -> resolves sip ->
  Forall (fun z => int_ok z = true) [bid; hop; rdf; sp; dp] ->
  (forall evs, realises (hwa_struct_head s)
                 (Flood intf (mkMsg (flood_type asent) bid hop 0 rdf sp dp dip sip [])) evs ->
     Q (send_log evs (outs s)).1 (set_outs (send_log evs (outs s)).2 s)) ->
  wp (send_req_broadcast intf bid sp dp hop rdf dstip srcip pl asent) Q s.
Proof.
  intros [Hr Hself _ _ _ _ _] Hd Hdr Hs Hsr Hi HQ.
  split_all Hi.
  eapply wp_send_req_broadcast; [exact Hr|done|exact Hd|done|exact Hs|done|].
  intros fr Hc Hwf. rewrite emit_all_log. apply HQ, real_flood. fold (flood_type asent) in Hc.
  assert (flood_type asent <> __DATA /\ int_ok (flood_type asent) = true) as [Ht Hti]
    by (unfold flood_type; by destruct (asent =? 1)).
  pose proof (wire_construct _ _ _ _ _ _ _ _ _ _ dip sip [] _ Hc Hd) as Hw.
  rewrite (proj2 (Z.eqb_neq _ _) Ht) in Hw.
  apply Hw; try done; [by apply resolves_length.. |]. by repeat constructor.
Qed.

Lemma wp_reflood fr addr asent ip T q dip sip s :
  inv ip T q s -> arrival (hwa_struct_head s) addr fr dip sip ->
  wp (reflood fr (sll_ifindex addr) asent)
     (fun r s' => exists evs,
        realises (hwa_struct_head s)
          (Flood (sll_ifindex addr) (passed_on (flood_type asent) (abs_msg fr))) evs /\
        s' = set_outs (send_log evs (outs s)).2 s /\
        r = if (send_log evs (outs s)).1 <? 0 then -1 else 0) s.
Proof.
  intros Hinv [Hwf Hd Hs _ Hhop _ _]. unfold reflood.
  wp_step. eapply wp_lift; [unfold int_add; by rewrite Hhop|]. cbn beta. wp_step.
  pose proof Hwf as [[Hi _ _ _] Hdc Hsc _]. split_all Hi.
  eapply wp_flood; [exact Hinv|exact Hdc|done|exact Hsc|done|by repeat constructor|].
  intros evs Hevs.
  assert (exists evs',
        realises (hwa_struct_head s)
          (Flood (sll_ifindex addr) (passed_on (flood_type asent) (abs_msg fr))) evs' /\
        set_outs (send_log evs (outs s)).2 s = set_outs (send_log evs' (outs s)).2 s /\
        (if (send_log evs (outs s)).1 <? 0 then -1 else 0)
        = if (send_log evs' (outs s)).1 <? 0 then -1 else 0) as HE.
  { exists evs. split; [|done]. unfold passed_on.
    rewrite (abs_msg_dst _ _ _ Hwf), (abs_msg_src _ _ _ Hwf). exact Hevs. }
  destruct ((send_log evs (outs s)).1 <? 0); by wp_step.
Qed.

Lemma wp_park_and_request fr addr self ip T q dip sip s :
  inv ip T q s -> arrival (hwa_struct_head s) addr fr dip sip -> cstr self = Some ip ->
  INT_MIN < cur_broadcast_id s < INT_MAX ->
  wp (park_and_request fr (sll_ifindex addr) self)
     (meets ip (a_park (abs_msg fr) (sll_ifindex addr) ip (abs_router s T q)) 0 s) s.
Proof.
  intros Hinv [Hwf Hd Hs _ Hhop _ _] Hself Hb. unfold park_and_request.
  pose proof Hwf as [[Hi _ _ _] Hdc Hsc _]. split_all Hi.
  wp_step. apply wp_get_broadcast_id; [done|]. wp_step.
  eapply wp_insert_pending_queue; [exact (inv_pq _ _ _ _ Hinv)|exact Hdc|by apply resolves_length|].
  intros d Hpq. cbn beta. cbn [Z.ltb Z.compare]. wp_step.
  set (s1 := set_pq d (set_bid (cur_broadcast_id s + 1) s)).
  assert (inv ip T ((dip, fr) :: q) s1) as Hinv1.
  { destruct Hinv. split; try done. constructor; [|done]. split; [done|]. by exists sip. }
  eapply wp_flood; [exact Hinv1|exact Hdc|done|exact Hself|apply Hinv| |].
  { repeat constructor; try done. apply int_ok_spec. lia. }
  intros evs Hevs.
  assert (meets ip (a_park (abs_msg fr) (sll_ifindex addr) ip (abs_router s T q)) 0 s
            (if (send_log evs (outs s)).1 <? 0 then -1 else 0)
            (set_outs (send_log evs (outs s)).2 s1)) as HM.
  { exists T, ((dip, fr) :: q), evs. split; [by apply inv_outs|].
    unfold a_park. rewrite (abs_msg_dst _ _ _ Hwf). cbn [fst snd]. split; [done|].
    split; [apply realise_one|].
    - unfold request_for. rewrite (abs_msg_dst _ _ _ Hwf). exact Hevs.
    - split; [by apply (sent_flood evs s s1)|done]. }
  cbn [outs s1 set_pq set_bid]. destruct ((send_log evs (outs s)).1 <? 0); by wp_step.
Qed.

(** A reply and nothing else. *)
Lemma wp_rrep_meets fr x e T q k ip dip sip hop (swap : bool) s :
  inv ip T q s -> frame_wf fr dip sip -> resolves dip -> resolves sip ->
  T !! k = Some (x, e) -> int_ok hop = true ->
  INT_MIN < cur_broadcast_id s < INT_MAX ->
  wp (r ← send_rrep_packet fr x hop swap; if r <? 0 then mret (-1) else mret 0)
     (meets ip (if swap then upd_ctr (cur_broadcast_id s + 1) (abs_router s T q)
                else abs_router s T q,
                [Unicast (abs_route (x, e))
                   (rrep_msg swap (abs_msg fr) hop (cur_broadcast_id s + 1))]) 0 s) s.
Proof.
  intros Hinv Hwf Hd Hs Hx Hhop Hbid. wp_step.
  eapply wp_rrep; [exact Hinv|exact Hwf|done|done|exact Hx|done|done|].
  intros ev Hev. set (s1 := if swap then set_bid _ s else s).
  assert (inv ip T q s1) by (unfold s1; destruct swap; [by apply inv_bid|done]).
  assert (outs s1 = outs s /\ kept s s1) as [Ho Hk] by (unfold s1; by destruct swap).
  cbn beta.
  match goal with |- wp _ ?P _ => assert (P (if os_sendto (length (outs s)) ev <? 0 then -1 else 0)
                                           (emit ev s1)) as HM end.
  { exists T, q, [ev]. split; [by apply inv_outs|]. split; [unfold s1; by destruct swap|].
    split; [by apply realise_one|]. split; [by apply sent_emit|done]. }
  destruct (os_sendto _ _ <? 0); cbn [Z.ltb Z.compare]; by wp_step.
Qed.

(** The copy of a request that is passed on can always be built. *)
Lemma passed_on_wire fr dip sip asent :
  frame_wf fr dip sip -> int_ok (hop_count fr + 1) = true ->
  exists f, wire (passed_on (flood_type asent) (abs_msg fr)) f.
Proof.
  intros Hwf Hhop. pose proof Hwf as [[Hi Hl1 Hl2 _] Hdc Hsc _].
  split_all Hi.
  set (g := mkFrame (flood_type asent) (broadcast_id fr) (hop_count fr + 1) 0
              (route_disc_flag fr) (src_port fr) (dst_port fr) (dest_ip fr) (src_ip fr)
              (payload zero_frame)).
  replace (passed_on _ _) with (abs_msg g) by done.
  eexists. eapply (wire_frame g dip sip). split; try done; [|by exists []].
  assert (int_ok (flood_type asent) = true) by (unfold flood_type; by destruct (asent =? 1)).
  split; [by repeat (apply Forall_cons; split)|done..].
Qed.

(** A frame for this node: delivered to the process that owns the port, if
    there is one.  The result of the delivery is not looked at. *)
Lemma wp_process_data_message fr ip T q dip sip s :
  inv ip T q s -> frame_wf fr dip sip -> dip = ip -> resolves sip ->
  wp (process_data_message fr;; mret 0)
     (meets ip (abs_router s T q,
        match abs_ports s (dst_port fr) with
        | Some path => [Deliver path (peer_text sip (src_port fr) (m_data (abs_msg fr)))]
        | None => []
        end) 0 s) s.
Proof.
  intros Hinv Hwf -> Hs. pose proof Hinv as [[(b & Hb & Hbc) _ _] _ [Hpp _ _ _ _ _] _ _ _ _].
  pose proof Hwf as [[Hi _ _ Hpl] Hdc Hsc [p Hp]]. split_all Hi.
  wp_step. unfold process_data_message. wp_step. eapply wp_get_self_ip; [exact Hb|].
  wp_step. eapply wp_lift; [by apply streq_Some|]. rewrite bool_decide_eq_true_2 by done.
  wp_step. unfold fetch_entry_port, abs_ports. wp_steps.
  destruct (find_port _ _) as [e|] eqn:Ef; cbn [mbind option_bind].
  - apply find_port_Some in Ef as [Hin _]. rewrite Forall_forall in Hpp.
    destruct (Hpp _ Hin) as [[path Hpath] Hsl]. rewrite Hpath. unfold path_of in Hpath.
    pose proof (cstr_length _ _ Hpath). pose proof (cstr_length _ _ Hp).
    wp_step. eapply wp_send_to_peer_process; [exact Hpath| |exact Hsc|by apply resolves_length|
      done|exact Hp|lia|].
    { rewrite Hsl in *. unfold SUN_PATH_SIZE, SUN_PATH_UN in *. lia. }
    cbv zeta. set (ev := SendUnix _ _).
    assert (meets ip (abs_router s T q,
      [Deliver path (peer_text sip (src_port fr) (m_data (abs_msg fr)))]) 0 s 0 (emit ev s)) as HM.
    { exists T, q, [ev]. split; [by apply inv_outs|]. split; [done|]. split.
      - apply realise_one. cbn. rewrite Hp. constructor.
      - split; [|done]. split; [|done|by left]. cbn. by destruct (_ <? 0). }
    destruct (_ <=? 0); by wp_steps.
  - wp_steps. by apply meets_quiet.
Qed.

(** A reply for this node: the newest frame parked for its source is
    sent. *)
Lemma pq_take_abs k (q : pending) :
  a_take k (abs_parked <$> q) = (abs_msg <$> (pq_take k q).1, abs_parked <$> (pq_take k q).2).
Proof.
  induction q as [|[k' f] q IH]; [done|]. cbn. destruct (decide (k' = k)); [done|].
  fold (abs_parked <$> q). rewrite IH. by destruct (pq_take k q).
Qed.

Lemma pq_take_good k (q : pending) :
  Forall parked_good q ->
  Forall parked_good (pq_take k q).2 /\
  (forall f, (pq_take k q).1 = Some f -> parked_good (k, f)).
Proof.
  induction 1 as [|[k' f] q Hf Hq [IH1 IH2]]; [done|]. cbn. destruct (decide (k' = k)) as [->|].
  - cbn. split; [done|]. by intros g [= <-].
  - destruct (pq_take k q) as [r q'']. cbn in *. split; [by constructor|done].
Qed.

Lemma wp_rrep_mine fr x e T q ip sip s :
  inv ip T q s -> cstr (src_ip fr) = Some sip -> T !! sip = Some (x, e) ->
  INT_MIN < cur_broadcast_id s < INT_MAX ->
  wp (p ← lookup_pending_queue (src_ip fr); release_parked x p)
     (meets ip (let '(p, q') := a_take sip (a_parked (abs_router s T q)) in
        (upd_parked q' (abs_router s T q),
         match p with
         | None => []
         | Some pm =>
             if m_type pm =? __RREP then [Unicast (abs_route (x, e)) (fwd_reply pm (m_hop pm))]
             else if m_type pm =? __DATA then [Unicast (abs_route (x, e)) pm]
             else []
         end)) 0 s) s.
Proof.
  intros Hinv Hsc Hx Hb. wp_step.
  eapply wp_lookup_pending_queue; [exact (inv_pq _ _ _ _ Hinv)|exact Hsc|]. intros d Hd.
  cbn [a_parked abs_router]. rewrite pq_take_abs.
  destruct (pq_take_good sip q (inv_parked _ _ _ _ Hinv)) as [Hq Hp].
  destruct (pq_take sip q) as [p q']. cbn [fst snd] in *. set (s1 := set_pq d s).
  assert (inv ip T q' s1) as Hinv1 by (destruct Hinv; by split).
  eapply wp_mono; [|intros r s2; apply (meets_after _ _ _ _ s1); done].
  pose proof (meets_quiet _ _ _ 0 _ Hinv1) as Hnone.
  destruct p as [f|]; cbn [fmap option_fmap option_map release_parked]; [|by wp_step].
  destruct (Hp f eq_refl) as (Hsr & sip' & Hsr' & Hf). cbn [fst snd] in *.
  pose proof Hf as [[Hi _ _ _] _ _ _]. split_all Hi.
  cbn [m_type abs_msg m_hop].
  destruct (frame_type f =? __RREP).
  - by eapply (wp_rrep_meets f x e T q' sip ip sip sip' _ false).
  - destruct (frame_type f =? __DATA); [|by wp_step].
    by eapply (wp_forward_data f x e T q' sip ip).
Qed.

(** A reply on behalf of the destination, then perhaps the flood that tells
    the others that one was sent. *)
Lemma wp_reply_and_pass fr addr ip T q dip sip s x e hop (changed : bool) :
  inv ip T q s -> arrival (hwa_struct_head s) addr fr dip sip ->
  INT_MIN < cur_broadcast_id s < INT_MAX ->
  T !! sip = Some (x, e) -> int_ok hop = true ->
  wp (r ← send_rrep_packet fr x hop true;
      if r <? 0 then mret (-1) else
      if (if changed then 1 else 0) =? 1 then reflood fr (sll_ifindex addr) 1 else mret 0)
     (meets ip (upd_ctr (cur_broadcast_id s + 1) (abs_router s T q),
        Unicast (abs_route (x, e)) (reply (abs_msg fr) hop (cur_broadcast_id s + 1)) ::
        if changed then [Flood (sll_ifindex addr) (passed_on __ASENT (abs_msg fr))] else []) 0 s) s.
Proof.
  intros Hinv Harr Hbid Hx Hhop'. pose proof Harr as [Hwf Hd Hs _ Hhop _ _].
  destruct changed; [|by eapply (wp_rrep_meets fr x e T q sip ip dip sip hop true)].
  wp_step. eapply wp_rrep; [exact Hinv|exact Hwf|done|done|exact Hx|done|done|].
  intros ev Hev. cbn beta. set (s1 := set_bid _ s). assert (inv ip T q s1) as Hinv1 by by apply inv_bid.
  assert (forall evs r s2,
    realises (hwa_struct_head s) (Flood (sll_ifindex addr) (passed_on __ASENT (abs_msg fr))) evs ->
    s2 = set_outs (send_log ([ev] ++ evs) (outs s)).2 s1 ->
    r = (if (send_log ([ev] ++ evs) (outs s)).1 <? 0 then -1 else 0) ->
    meets ip (upd_ctr (cur_broadcast_id s + 1) (abs_router s T q),
        [Unicast (abs_route (x, e)) (reply (abs_msg fr) hop (cur_broadcast_id s + 1));
         Flood (sll_ifindex addr) (passed_on __ASENT (abs_msg fr))]) 0 s r s2) as HM.
  { intros evs r s2 Hevs -> ->. exists T, q, ([ev] ++ evs). split; [by apply inv_outs|].
    split; [done|]. split; [by apply realise_cons, realise_one|].
    split; [by apply (sent_flood _ s s1)|done]. }
  destruct (os_sendto (length (outs s)) ev <? 0) eqn:Er; cbn [Z.ltb Z.compare Z.eqb Pos.eqb].
  - wp_step. destruct (passed_on_wire fr dip sip 1 Hwf Hhop) as [f Hf].
    eapply HM; [by apply (real_flood _ (sll_ifindex addr) _ f)|..]; rewrite send_log_app; cbn; by rewrite Er.
  - eapply wp_mono; [eapply (wp_reflood fr addr); [by apply (inv_outs _ _ _ s1)|exact Harr]|].
    cbn beta. intros r s2 (evs & Hevs & -> & ->).
    eapply HM; [exact Hevs|..]; cbn; by rewrite Er.
Qed.

(** Looking a route up, with the expired one dropped. *)
Lemma wp_lookup_route b k flag ip T q (Q : Z * option loc -> node -> Prop) s :
  inv ip T q s -> cstr b = Some k ->
  (forall r p T' s', inv ip T' q s' -> found T' k r p ->
     abs_router s' T' q = a_lookup (stale_param s) flag k (abs_router s T q) ->
     (forall k', k' <> k -> T' !! k' = T !! k') ->
     outs s' = outs s -> kept s s' -> cur_broadcast_id s' = cur_broadcast_id s ->
     Q (r, p) s') ->
  wp (get_r_entry b flag) Q s.
Proof.
  intros Hinv Hb HQ. pose proof Hinv as [H1 H2 H3 Hrt Hro H6 H7].
  eapply wp_get_r_entry; [exact Hrt|exact Hb|]. intros T' r p d Hd Hf.
  apply (HQ r p T'); try done.
  - split; try done. intros k' v Hv. apply Hro. eapply lookup_weaken; [exact Hv|]. apply purge_subseteq.
  - unfold a_lookup, abs_router, T', purge, tick. cbn. rewrite lookup_fmap.
    assert (forall (X Y : nat), (if decide (T = ∅) then X else Y)
              = if decide (abs_route <$> T = ∅) then X else Y) as Ht.
    { intros X Y. apply decide_ext. by rewrite fmap_empty_iff. }
    rewrite Ht.
    destruct (decide (abs_route <$> T = ∅)), (T !! k) as [[x ee]|]; cbn; try done;
      unfold a_expired, entry_expired; cbn;
      (destruct ((tv_sec _ - tv_sec _ >=? _) || (flag =? 1)); [by rewrite fmap_delete|done]).
  - intros k' Hk. by apply purge_ne.
Qed.

(** ** The cases of the switch *)

Section Cases.
Context (fr : odr_frame) (addr : sockaddr_ll) (self ip : buf) (T : routes) (q : pending).
Context (dip sip : buf) (s : node) (dp sp : Z) (dest src : option loc).
Hypothesis Hinv : inv ip T q s.
Hypothesis Harr : arrival (hwa_struct_head s) addr fr dip sip.
Hypothesis Hself : cstr self = Some ip.
Hypothesis Hbid : INT_MIN < cur_broadcast_id s < INT_MAX.
Hypothesis Hdest : found T dip dp dest.
Hypothesis Hsrc : found T sip sp src.

Let intf := sll_ifindex addr.
Let via := sll_addr addr.
Let m := abs_msg fr.

Lemma streq_mine : streq (dest_ip fr) self = Def (bool_decide (dip = ip)).
Proof using Harr Hself. destruct Harr as [[_ Hd _ _] _ _ _ _ _ _]. by apply streq_Some. Qed.

Lemma m_dst_dip : m_dst m = dip.
Proof using Harr. destruct Harr. by eapply abs_msg_dst. Qed.
Lemma m_src_sip : m_src m = sip.
Proof using Harr. destruct Harr. by eapply abs_msg_src. Qed.

Lemma wp_on_asent :
  wp (on_asent fr intf via sp src) (meets ip (spec_asent intf via m (abs_router s T q)) 0 s) s.
Proof using All.
  unfold on_asent, spec_asent. wp_step. eapply wp_learn_source; [done..|].
  intros changed x e T' s' Hinv' _ _ Hl Ho Hk Hb. fold intf via m in Hl. rewrite Hl. cbn beta iota.
  destruct changed; cbn [Z.eqb Pos.eqb].
  - eapply wp_mono; [eapply (wp_reflood fr addr); [exact Hinv'|]|].
    { destruct Hk as (_ & Hk & _). rewrite Hk. exact Harr. }
    cbn beta. intros r s2 (evs & Hevs & -> & ->). apply (meets_after _ _ _ _ s'); [done..|].
    by apply meets_flood.
  - wp_step. apply (meets_after _ _ _ _ s'); [done..|]. by apply meets_quiet.
Qed.

Lemma wp_on_data :
  wp (on_data fr self intf via dp sp dest src)
     (meets ip (spec_data ip (abs_ports s) intf via m (abs_router s T q)) 0 s) s.
Proof using All.
  pose proof Harr as [Hwf Hd Hs Hne Hhop _ _].
  unfold on_data, spec_data. wp_step. eapply wp_learn_source; [done..|].
  intros changed x e T' s' Hinv' Hx HT' Hl Ho Hk Hb. fold intf via m in Hl. rewrite Hl. cbn beta iota.
  wp_step. eapply wp_lift; [apply streq_mine|]. cbn beta iota.
  eapply wp_mono; [|intros r s2; apply (meets_after _ _ _ _ s'); done].
  pose proof Hk as (_ & Hhw & Hpo & _).
  destruct (decide (m_dst m = ip)) as [E|E]; rewrite m_dst_dip in E.
  - rewrite bool_decide_eq_true_2 by done.
    replace (abs_ports s) with (abs_ports s') by (unfold abs_ports; by rewrite Hpo).
    rewrite m_src_sip. by apply (wp_process_data_message _ _ _ _ dip).
  - rewrite bool_decide_eq_false_2 by done. cbn [a_routes abs_router].
    rewrite m_dst_dip, lookup_fmap, HT' by done. unfold found in Hdest.
    destruct (T !! dip) as [[xd ed]|] eqn:Ed; cbn [fmap option_fmap option_map].
    + destruct Hdest as [-> ->]. cbn [Z.gtb Z.compare]. wp_step. eapply wp_lift; [done|]. cbn beta.
      destruct (rt_rep_load _ _ _ _ _ (inv_rt _ _ _ _ Hinv') Hx) as (n & Hn & <-).
      wp_step. eapply wp_rt_load; [exact Hn|].
      eapply (wp_forward_data _ _ _ _ _ dip _ dip sip); [exact Hinv'|by rewrite HT'| |done].
      destruct Hwf as [[Hi Hl1 Hl2 Hl3] Hdc Hsc Hpc]. split; try done. split; try done.
      destruct (inv_routes _ _ _ _ Hinv' _ _ Hx) as (_ & _ & Hho & _).
      split_all Hi. by repeat constructor.
    + destruct Hdest as [Hle ->]. rewrite Z.gtb_ltb, (proj2 (Z.ltb_ge 0 dp) Hle).
      eapply wp_park_and_request; [exact Hinv'|by rewrite Hhw|done|by rewrite Hb].
Qed.

Lemma wp_on_rrep :
  wp (on_rrep fr self intf via dp sp dest src)
     (meets ip (spec_rrep ip intf via m (abs_router s T q)) 0 s) s.
Proof using All.
  pose proof Harr as [Hwf Hd Hs Hne Hhop _ _].
  unfold on_rrep, spec_rrep. wp_step. eapply wp_learn_source; [done..|].
  intros changed x e T' s' Hinv' Hx HT' Hl Ho Hk Hb. fold intf via m in Hl. rewrite Hl. cbn beta iota.
  wp_step. eapply wp_lift; [apply streq_mine|]. cbn beta iota.
  eapply wp_mono; [|intros r s2; apply (meets_after _ _ _ _ s'); done].
  pose proof Hk as (_ & Hhw & _).
  destruct (decide (m_dst m = ip)) as [E|E]; rewrite m_dst_dip in E.
  - rewrite bool_decide_eq_true_2 by done. rewrite m_src_sip.
    eapply wp_rrep_mine; [done|apply Hwf|done|by rewrite Hb].
  - rewrite bool_decide_eq_false_2 by done. cbn [a_routes abs_router].
    rewrite m_dst_dip, lookup_fmap, HT' by done. unfold found in Hdest.
    destruct (T !! dip) as [[xd ed]|] eqn:Ed; cbn [fmap option_fmap option_map].
    + destruct Hdest as [-> ->]. cbn [Z.gtb Z.compare]. wp_step. eapply wp_lift; [done|]. cbn beta.
      destruct (rt_rep_load _ _ _ _ _ (inv_rt _ _ _ _ Hinv') Hx) as (n & Hn & <-).
      wp_step. eapply wp_rt_load; [exact Hn|].
      destruct (inv_routes _ _ _ _ Hinv' _ _ Hx) as (_ & _ & Hho & _).
      eapply (wp_rrep_meets fr xd ed T' q dip ip dip sip _ false); try done;
        [by rewrite HT'|by rewrite Hb].
    + destruct Hdest as [Hle ->]. rewrite Z.gtb_ltb, (proj2 (Z.ltb_ge 0 dp) Hle).
      eapply wp_park_and_request; [exact Hinv'|by rewrite Hhw|done|by rewrite Hb].
Qed.

Lemma wp_on_rreq :
  wp (on_rreq fr self intf via dp sp dest src)
     (meets ip (spec_rreq ip intf via m (abs_router s T q)) 0 s) s.
Proof using All.
  pose proof Harr as [Hwf Hd Hs Hne Hhop _ _].
  unfold on_rreq, spec_rreq. wp_step. eapply wp_learn_source; [done..|].
  intros changed x e T' s' Hinv' Hx HT' Hl Ho Hk Hb. fold intf via m in Hl. rewrite Hl. cbn beta iota.
  wp_step. eapply wp_lift; [apply streq_mine|]. cbn beta iota.
  eapply wp_mono; [|intros r s2; apply (meets_after _ _ _ _ s'); done].
  pose proof Hk as (_ & Hhw & _).
  assert (arrival (hwa_struct_head s') addr fr dip sip) as Harr' by (by rewrite Hhw).
  destruct (decide (m_dst m = ip)) as [E|E]; rewrite m_dst_dip in E.
  - rewrite bool_decide_eq_true_2 by done.
    eapply (wp_rrep_meets fr x e T' q sip ip dip sip 0 true); try done; by rewrite Hb.
  - rewrite bool_decide_eq_false_2 by done. cbn [a_routes abs_router].
    rewrite m_dst_dip, lookup_fmap, HT' by done. unfold found in Hdest.
    destruct (T !! dip) as [[xd ed]|] eqn:Ed; cbn [fmap option_fmap option_map].
    + destruct Hdest as [-> ->]. cbn [Z.gtb Z.compare]. wp_step. eapply wp_lift; [done|]. cbn beta.
      rewrite <- (HT' dip) in Ed by done.
      destruct (rt_rep_load _ _ _ _ _ (inv_rt _ _ _ _ Hinv') Ed) as (n & Hn & <-).
      wp_step. eapply wp_rt_load; [exact Hn|].
      destruct (inv_routes _ _ _ _ Hinv' _ _ Ed) as (_ & _ & Hho & _).
      eapply wp_reply_and_pass; try done; by rewrite Hb.
    + destruct Hdest as [Hle ->]. rewrite Z.gtb_ltb, (proj2 (Z.ltb_ge 0 dp) Hle).
      destruct changed; cbn [Z.eqb].
      * eapply wp_mono; [eapply (wp_reflood fr addr); [exact Hinv'|exact Harr']|].
        cbn beta. intros r s2 (evs & Hevs & -> & ->).
        by apply meets_flood.
      * wp_step. by apply meets_quiet.
Qed.
End Cases.

(** ** The handler *)

Lemma meets_rc ip res s r s' : meets ip res 0 s r s' -> r = 0 \/ r = -1.
Proof. by intros (T' & q' & evs & _ & _ & _ & [_ _ Hr] & _). Qed.

Lemma handle_frame_case (c : MN Z) ip res (Q : Z -> node -> Prop) s :
  wp c (meets ip res 0 s) s -> (forall r s', meets ip res 0 s r s' -> Q r s') ->
  wp (r ← c; if r <? 0 then mret (-1) else print_routing_table;; mret 0) Q s.
Proof.
  intros Hc HQ. wp_step. eapply wp_mono; [exact Hc|]. cbn beta. intros r s' Hm.
  destruct (meets_rc _ _ _ _ _ Hm) as [-> | ->]; cbn [Z.ltb Z.compare]; [|wp_step; by apply HQ].
  pose proof Hm as (T' & q' & evs & Hinv & _). wp_step.
  eapply wp_print_routing_table; [apply Hinv|]. intros _. wp_step. by apply HQ.
Qed.

Lemma wp_duplicate fr ip T q sip dip s (Q : bool -> node -> Prop) :
  inv ip T q s -> frame_wf fr dip sip ->
  Q (a_duplicate (abs_msg fr) (abs_router s T q)) s ->
  wp (if route_disc_flag fr =? 1 then
        r ← is_broadid_greater (src_ip fr) (broadcast_id fr); mret (r <? 0)
      else mret false) Q s.
Proof.
  intros Hinv Hwf HQ. unfold a_duplicate in HQ. rewrite (abs_msg_src _ _ _ Hwf) in HQ.
  cbn [m_rdf abs_msg m_bid a_routes abs_router] in HQ. rewrite lookup_fmap in HQ.
  destruct (route_disc_flag fr =? 1); cbn [andb] in HQ; [|by wp_step].
  wp_step. eapply wp_is_broadid_greater; [apply Hinv|apply Hwf|]. wp_step.
  destruct (T !! sip) as [[x e]|]; cbn in *; [|done]. by destruct (broadcast_id fr <=? _).
Qed.

Lemma wp_handle_frame ip T q s addr fr self dip sip :
  inv ip T q s -> arrival (hwa_struct_head s) addr fr dip sip -> cstr self = Some ip ->
  INT_MIN < cur_broadcast_id s < INT_MAX ->
  let spec := spec_frame ip (stale_param s) (abs_ports s) (sll_ifindex addr) (sll_addr addr)
                (abs_msg fr) (abs_router s T q) in
  wp (handle_frame addr fr self) (meets ip spec.2 spec.1 s) s.
Proof.
  intros Hinv Harr Hself Hbid spec. pose proof Harr as [Hwf Hd Hs Hne Hhop Hif Hal].
  unfold spec, spec_frame, handle_frame. clear spec. cbv zeta.
  wp_step. eapply wp_duplicate; [done..|]. destruct (a_duplicate _ _); cbn [fst snd].
  { wp_step. by apply meets_quiet. }
  wp_step. eapply wp_lookup_route; [exact Hinv|apply Hwf|].
  intros dp dest T1 s1 Hinv1 Hf1 Ha1 HT1 Ho1 Hk1 Hb1. cbn beta iota.
  wp_step. eapply wp_lookup_route; [exact Hinv1|apply Hwf|].
  intros sp src T2 s2 Hinv2 Hf2 Ha2 HT2 Ho2 Hk2 Hb2. cbn beta iota.
  assert (kept s s2) as Hk by (by eapply kept_trans).
  wp_step. eapply wp_copy_vmname; [apply Hwf|done|]. intros _.
  wp_step. eapply wp_copy_vmname; [apply Hwf|done|]. intros _.
  rewrite (abs_msg_dst _ _ _ Hwf), (abs_msg_src _ _ _ Hwf).
  pose proof Hk1 as (_ & _ & _ & _ & Hst). rewrite Ha1, Hst in Ha2.
  change (m_rdf (abs_msg fr)) with (route_disc_flag fr). rewrite <- Ha2.
  pose proof Hk as (_ & Hh & Hpo & _).
  replace (abs_ports s) with (abs_ports s2) by (unfold abs_ports; by rewrite Hpo).
  assert (arrival (hwa_struct_head s2) addr fr dip sip) as Harr2 by (by rewrite Hh).
  assert (INT_MIN < cur_broadcast_id s2 < INT_MAX) as Hbid2 by (by rewrite Hb2, Hb1).
  assert (found T2 dip dp dest) as Hf1' by (unfold found in *; by rewrite HT2).
  assert (outs s2 = outs s) as Ho by congruence.
  change (m_type (abs_msg fr)) with (frame_type fr).
  repeat (match goal with |- context [frame_type fr =? ?c] =>
    destruct (frame_type fr =? c); cbn [fst snd];
    [eapply handle_frame_case; [|intros r s'; by apply meets_after] | ] end).
  - by eapply wp_on_rreq.
  - by eapply wp_on_rrep.
  - by eapply wp_on_data.
  - by eapply wp_on_asent.
  - wp_step. wp_step. cbn [Z.ltb Z.compare]. wp_step.
    apply (meets_after _ _ _ _ s2); [done..|]. by apply meets_quiet.
Qed.
End Relations.

(** ** A running node *)

(** vm2 with routes to vm1 and vm3 through eth1. *)
Definition demo_node : node :=
  set_stale 5 (set_rt demo_table (demo_self 2 (demo_ports 909))).

Definition demo_arrival_addr : sockaddr_ll := mkSll 8 3 1 3 6 demo_mac.

Lemma demo_routes_ok : @routes_ok (demo_os (demo_ifs 2)) (demo_hwa 2) demo_routes.
Proof.
  intros k xe H. apply elem_of_list_to_map_2 in H.
  apply elem_of_cons in H as [[= -> ->]|[= -> ->]%list_elem_of_singleton];
    (split; [by apply demo_resolves|]); (split; [eexists; by vm_compute|done]).
Qed.

Lemma demo_inv : @inv (demo_os (demo_ifs 2)) (vm_ip 2) demo_routes [] demo_node.
Proof.
  split.
  - apply demo_ready.
  - by apply demo_resolves.
  - apply (demo_ports_inv 909). unfold __SERV_PORT. lia.
  - exact demo_table_rep.
  - exact demo_routes_ok.
  - exact pq_rep_empty.
  - constructor.
Qed.

Lemma demo_frame_wf ty bid hop src dst data :
  int_ok ty = true -> int_ok bid = true -> int_ok hop = true ->
  1 <= src <= 10 -> 1 <= dst <= 10 -> nonul data -> (length data < Z.to_nat PAYLOAD_SIZE)%nat ->
  frame_wf (demo_frame ty bid hop src dst data) (vm_ip dst) (vm_ip src).
Proof.
  intros Ht Hb Hh Hs Hd Hn Hl.
  assert (forall w n, nonul w -> (length w < n)%nat -> length (pad n w) = n /\ cstr (pad n w) = Some w)
    as Hpad.
  { intros w n Hw Hwl. split; [apply length_pad; lia|]. unfold pad.
    by apply cstr_pad. }
  assert (forall k, nonul (vm_ip k) /\ (length (vm_ip k) < INET_ADDRSTRLEN)%nat) as Hvm.
  { intros k. split; [apply dotted_quad_nonul|]. pose proof (dotted_quad_length (bytes (vm_addr k))).
    unfold vm_ip, INET_ADDRSTRLEN. lia. }
  destruct (Hvm src) as [S1 S2], (Hvm dst) as [D1 D2].
  destruct (Hpad _ _ S1 S2) as [S3 S4], (Hpad _ _ D1 D2) as [D3 D4], (Hpad _ _ Hn Hl) as [P3 P4].
  split; [|done|done|by eexists]. split; try done. by repeat constructor.
Qed.

Lemma demo_arrival ty bid hop src dst data :
  int_ok ty = true -> int_ok bid = true -> int_ok hop = true -> int_ok (hop + 1) = true ->
  1 <= src <= 10 -> 1 <= dst <= 10 -> vm_ip dst <> vm_ip src ->
  nonul data -> (length data < Z.to_nat PAYLOAD_SIZE)%nat ->
  @arrival (demo_os (demo_ifs 2)) (demo_hwa 2) demo_arrival_addr
    (demo_frame ty bid hop src dst data) (vm_ip dst) (vm_ip src).
Proof.
  intros Ht Hb Hh Hh1 Hs Hd Hne Hn Hl. split; try done.
  - by apply demo_frame_wf.
  - by apply demo_resolves.
  - by apply demo_resolves.
  - cbn. unfold HWADDR. lia.
Qed.

(** The bytes of a frame on their way to vm2. *)
Definition demo_wire (fr : odr_frame) : buf :=
  eth_frame (replicate 6 NUL) (take HWADDR demo_mac) (convert_host_net_order fr).

Lemma demo_wire_recvd fr :
  frame_shape fr -> process_recvd_frame (demo_wire fr) = Def fr.
Proof.
  intros Hf. unfold demo_wire. rewrite process_eth_frame; [by rewrite host_net_host| |done|done].
  by apply host_net_shape.
Qed.
