(* ===== verification/Peer.v ===== *)
(** * Requests of local processes

    [handle_peer_msg] implements [spec_request] of file Spec: it registers the
    port of the process that asks, then delivers locally, sends along a known
    route, or floods a request and parks the data.  When a transmission fails
    the handler returns -1 (and the daemon ends); the invariant holds even
    then. *)

From S2P Require Import Prelude CLib Inet Frame DList Node Demo Utils Ports RTable PQueue Send.
From S2P Require Import Handlers Spec Refine.

Section Peer.
Context {os : OS}.

(** The request in a [send_params_t]. *)
Definition abs_request (sp : send_params) : request :=
  mkRequest (default [] (cstr (sp_destip sp))) (sp_destport sp)
            (default [] (cstr (sp_msg sp))) (sp_route_disc_flag sp).

(** Well-formed parameters from the process at [path]. *)
Record request_ok (sp : send_params) (dip data path : buf) : Prop := {
  rq_dst : cstr (sp_destip sp) = Some dip;
  rq_res : resolves dip;
  rq_data : cstr (sp_msg sp) = Some data;
  rq_len : (length data < Z.to_nat PAYLOAD_SIZE)%nat;
  rq_path : cstr (sp_filename sp) = Some path;
  rq_path_len : (length path < SUN_PATH_SIZE)%nat;
  rq_port : int_ok (sp_destport sp) = true;
  rq_flag : int_ok (sp_route_disc_flag sp) = true;
}.

(** Every datagram of [evs] is accepted. *)
Fixpoint all_accepted (evs : list event) (n : nat) : bool :=
  match evs with
  | [] => true
  | ev :: evs' => (0 <? os_sendto n ev) && all_accepted evs' (S n)
  end.

Lemma all_accepted_log evs o : all_accepted evs (length o) = true -> (send_log evs o).1 = 0.
Proof.
  revert o. induction evs as [|ev evs IH]; intros o; cbn; [done|].
  intros [H1 H2]%andb_true_iff. apply Z.ltb_lt in H1.
  rewrite (proj2 (Z.ltb_ge _ _)) by lia. by apply IH.
Qed.

Lemma all_accepted_always evs n : (forall n ev, 0 < os_sendto n ev) -> all_accepted evs n = true.
Proof.
  intros Hs. revert n. induction evs as [|ev evs IH]; intros n; cbn; [done|].
  rewrite (proj2 (Z.ltb_lt _ _)) by apply Hs. apply IH.
Qed.

(** The outcome of a request: whatever happens the invariant holds; the
    outputs are those of the specification, up to the first failure; with
    result 1 the new state is the specification's; and the result is 1 if
    every datagram is accepted. *)
Definition answers (ip : buf) (res : router * list out) (s : node) (r : Z) (s' : node) : Prop :=
  exists T' q' evs,
    inv ip T' q' s' /\ realise_all (hwa_struct_head s) res.2 evs /\
    outs s' = (send_log evs (outs s)).2 /\
    (r = 1 \/ r = -1) /\ (r = 1 -> abs_router s' T' q' = res.1) /\
    (all_accepted evs (length (outs s)) = true -> r = 1) /\ kept s s'.

Lemma answers_after ip res s s1 r s' :
  outs s1 = outs s -> kept s s1 -> answers ip res s1 r s' -> answers ip res s r s'.
Proof.
  intros Ho Hk (T' & q' & evs & Hi & Hr & Ho' & Hr1 & Ha & Hacc & Hk').
  pose proof Hk as (_ & Hh & _). exists T', q', evs. rewrite <- Hh, <- Ho.
  split_and!; try done. by eapply kept_trans.
Qed.

(** One datagram. *)
Lemma answers_one ip T q R o ev s :
  inv ip T q s -> realises (hwa_struct_head s) o [ev] -> abs_router s T q = R ->
  answers ip (R, [o]) s (if os_sendto (length (outs s)) ev <? 0 then -1 else 1) (emit ev s) /\
  answers ip (R, [o]) s (if os_sendto (length (outs s)) ev <=? 0 then -1 else 1) (emit ev s).
Proof.
  intros Hi Ho Ha.
  assert (outs (emit ev s) = (send_log [ev] (outs s)).2) as Hl by (cbn; by destruct (_ <? 0)).
  split; exists T, q, [ev].
  all: split; [by apply inv_outs|]; split; [by apply realise_one|]; split; [done|].
  - destruct (Z.ltb_spec (os_sendto (length (outs s)) ev) 0).
    all: split; [by auto|]; split; [by auto|]; split; [|done]; cbn.
    all: intros [H1%Z.ltb_lt _]%andb_true_iff; lia.
  - destruct (Z.leb_spec (os_sendto (length (outs s)) ev) 0).
    all: split; [by auto|]; split; [by auto|]; split; [|done]; cbn.
    all: intros [H1%Z.ltb_lt _]%andb_true_iff; lia.
Qed.

(** ** The three branches *)

Section Branches.
Context (sp : send_params) (dip data path ip self : buf) (T : routes) (q : pending) (port : Z).
Hypothesis Hrq : request_ok sp dip data path.
Hypothesis Hself : cstr self = Some ip.
Hypothesis Hport : int_ok port = true.

Lemma abs_request_eq :
  abs_request sp = mkRequest dip (sp_destport sp) data (sp_route_disc_flag sp).
Proof using Hrq. destruct Hrq. unfold abs_request. by rewrite rq_dst0, rq_data0. Qed.

Lemma wp_request_route s :
  inv ip T q s -> INT_MIN < cur_broadcast_id s -> cur_broadcast_id s + 1 < INT_MAX ->
  wp (request_route sp self port)
     (answers ip
        (upd_ctr (cur_broadcast_id s + 2)
           (upd_parked ((dip, parked_msg ip port (abs_request sp) (cur_broadcast_id s + 2))
                        :: (abs_parked <$> q)) (abs_router s T q)),
         [Flood (-1) (request_msg ip port (abs_request sp) (cur_broadcast_id s + 1))]) s) s.
Proof using Hrq Hself Hport.
  intros Hinv Hb1 Hb2. rewrite abs_request_eq. destruct Hrq as [Hd Hdr Hm Hml _ _ Hpo Hfl].
  unfold request_route. wp_step. apply wp_get_broadcast_id; [lia|]. wp_step.
  set (s1 := set_bid _ s). assert (inv ip T q s1) as Hinv1 by (by apply inv_bid).
  eapply wp_flood; [exact Hinv1|exact Hd|done|exact Hself|apply Hinv| |].
  { repeat constructor; try done. apply int_ok_spec. lia. }
  intros evs Hevs. cbn beta. cbn [outs s1 set_bid].
  set (s2 := set_outs _ s1). assert (inv ip T q s2) as Hinv2 by (by apply inv_outs).
  assert (kept s s2) as Hk by done. assert (outs s2 = (send_log evs (outs s)).2) as Ho by done.
  destruct (send_log_01 evs (outs s)) as [E|E]; rewrite E; cbn [Z.ltb Z.compare].
  2: { wp_step. exists T, q, evs. split_and!; try done; [by apply realise_one|by right|].
       intros Hacc. apply all_accepted_log in Hacc. lia. }
  wp_step. apply wp_get_broadcast_id; [cbn; lia|].
  destruct (construct_odr_ok __DATA 0 (cur_broadcast_id s + 2) PAYLOAD_SIZE 0 port
              (sp_destport sp) (sp_destip sp) self (sp_msg sp) dip ip data)
    as (fr & Hfr & Hwf & Hpl & Heq); try done;
    [by apply resolves_length|by apply resolves_length, Hinv|].
  wp_step. cbn [cur_broadcast_id s2 s1 set_outs set_bid].
  replace (cur_broadcast_id s + 1 + 1) with (cur_broadcast_id s + 2) by lia.
  eapply wp_lift; [exact Hfr|]. wp_step.
  set (s3 := set_bid _ s2). assert (inv ip T q s3) as Hinv3 by (by apply inv_bid).
  set (g := mkFrame _ _ _ _ _ _ _ _ _ _) in Heq.
  assert (frame_wf g dip ip) as Hg.
  { destruct Hwf as [[_ H1 H2 H3] H4 H5 H6]. split; try done. split; try done.
    repeat constructor; try done. apply int_ok_spec. unfold g; cbn [hop_count]; lia. }
  replace (convert_net_host_order fr) with g
    by (rewrite Heq; symmetry; apply host_net_host, Hg).
  eapply wp_insert_pending_queue; [apply Hinv3|exact Hd|by apply resolves_length|].
  intros d Hq. cbn beta. cbn [Z.ltb Z.compare]. wp_step.
  eapply wp_copy_vmname; [exact Hd|done|]. intros _. wp_step.
  exists T, ((dip, g) :: q), evs. split_and!; try done.
  - destruct Hinv3. split; try done. constructor; [|done]. split; [done|].
    exists ip. split; [apply Hinv|done].
  - by apply realise_one.
  - by left.
  - intros _. unfold abs_router, upd_ctr, upd_parked, parked_msg, abs_parked, abs_msg. cbn.
    by rewrite Hpl, (wf_dest _ _ _ Hwf), (wf_src _ _ _ Hwf).
Qed.

Lemma wp_deliver_local s path' :
  inv ip T q s -> dip = ip -> abs_ports s (sp_destport sp) = Some path' ->
  wp (pe ← fetch_entry_port (sp_destport sp);
      peer_entry ← assert_some pe;
      r ← send_to_peer_process (sun_path peer_entry) self port (sp_msg sp);
      if r <? 0 then mret (-1) else mret 1)
     (answers ip (abs_router s T q, [Deliver path' (peer_text ip port data)]) s) s.
Proof using Hrq Hself Hport.
  intros Hinv Ed Hp. destruct Hrq as [Hd Hdr Hm Hml _ _ Hpo Hfl]. unfold abs_ports in Hp.
  destruct (find_port _ _) as [e|] eqn:Ef; [|done]. cbn in Hp.
  wp_step. unfold fetch_entry_port. wp_steps. rewrite Ef. eapply wp_assert_some; [done|]. wp_step.
  apply find_port_Some in Ef as [Hin _].
  pose proof (pinv_paths _ _ (inv_ports _ _ _ _ Hinv)) as Hpp. rewrite Forall_forall in Hpp.
  destruct (Hpp _ Hin) as [_ Hsl]. unfold path_of in Hp. pose proof (cstr_length _ _ Hp).
  eapply wp_send_to_peer_process; [exact Hp| |exact Hself|by apply resolves_length, Hinv|done|
    exact Hm|done|].
  { rewrite Hsl in *. unfold SUN_PATH_SIZE, SUN_PATH_UN in *. lia. }
  cbv zeta. destruct (answers_one ip T q (abs_router s T q) (Deliver path' (peer_text ip port data))
                        (SendUnix path' (peer_text ip port data)) s Hinv) as [_ HA];
    [constructor|done|].
  destruct (_ <=? 0); cbn [Z.ltb Z.compare]; by wp_step.
Qed.

Lemma wp_send_known x e s :
  inv ip T q s -> T !! dip = Some (x, e) ->
  wp (copy_vmname (sp_destip sp);; r ← send_data_message port sp x;
      if r <? 0 then mret (-1) else mret 1)
     (answers ip (abs_router s T q,
        [Unicast (abs_route (x, e)) (data_msg ip port (abs_request sp) (r_broadcast_id e))]) s) s.
Proof using Hrq Hport.
  intros Hinv Hx. rewrite abs_request_eq. destruct Hrq as [Hd Hdr Hm Hml _ _ Hpo Hfl].
  destruct (inv_routes _ _ _ _ Hinv _ _ Hx) as (_ & [mac Hmac] & _ & Hb). cbn in Hmac, Hb.
  wp_step. eapply wp_copy_vmname; [exact Hd|done|]. intros _. wp_step.
  eapply wp_send_data_message; [apply Hinv|apply Hinv|exact Hd|done|exact Hm|done|apply Hinv|
    exact Hx|exact Hmac|].
  intros fr Hwf Hpl Heq. cbv zeta. set (ev := raw_event _ _ _ _).
  destruct (answers_one ip T q (abs_router s T q) (Unicast (abs_route (x, e))
    (data_msg ip port (mkRequest dip (sp_destport sp) data (sp_route_disc_flag sp))
       (r_broadcast_id e))) ev s Hinv) as [HA _]; [|done|].
  - apply realises_route; [done|].
    pose proof (fun H => wire_intro _ _ _ _ Hwf Heq H eq_refl eq_refl eq_refl) as Hw.
    unfold abs_msg in Hw. cbn in Hw.
    rewrite Hpl, (wf_dest _ _ _ Hwf), (wf_src _ _ _ Hwf) in Hw. apply Hw.
    by repeat constructor.
  - destruct (_ <? 0); cbn [Z.ltb Z.compare]; by wp_step.
Qed.
End Branches.

(** ** The handler *)

(** Registering a path changes nothing but the port table. *)
Lemma abs_ports_in s e p :
  ports_inv s -> e ∈ port_spath_head s -> path_of e = Some p -> abs_ports s (portno e) = Some p.
Proof. intros [_ H _ _ _ _] Hin Hp. unfold abs_ports. by rewrite find_port_in. Qed.

Lemma inv_ports_step ip T q s s1 : inv ip T q s -> ports_step s s1 -> ports_inv s1 -> inv ip T q s1.
Proof. intros [] (l & n & c & _ & ->) Hp. by split. Qed.

Definition registered (path : buf) (s s1 : node) (port : Z) : Prop :=
  ports_step s s1 /\ abs_ports s1 port = Some path /\
  (forall p x, abs_ports s p = Some x -> abs_ports s1 p = Some x) /\
  next_portno s <= next_portno s1 <= next_portno s + 1.

(** A request of a process, and the one way to stop the daemon: a request for a port
    of this machine that is not in use. *)
Lemma wpe_handle_peer_msg sp dip data path ip T q s :
  inv ip T q s -> request_ok sp dip data path -> next_portno s < __SERV_PORT ->
  INT_MIN < cur_broadcast_id s -> cur_broadcast_id s + 1 < INT_MAX ->
  wpe (handle_peer_msg sp)
      (fun r s' => exists s1 port, registered path s s1 port /\ inv ip T q s1 /\
         answers ip (spec_request ip (stale_param s) (abs_ports s1) port (abs_request sp)
                       (abs_router s1 T q)) s1 r s')
      (fun w => w = AssertFailed /\ dip = ip /\ abs_ports s (sp_destport sp) = None) s.
Proof.
  intros Hinv Hrq Hn Hb1 Hb2. pose proof Hinv as [[(self & Hs & Hself) _ _] _ Hp _ _ _ _].
  unfold handle_peer_msg. apply wpe_wp_bind. eapply wp_get_self_ip; [exact Hs|].
  apply wpe_wp_bind. eapply wp_fetch_entry_path; [done|apply Hrq|apply Hrq|done|].
  intros e s1 Hp1 Hst Hin Hpe Hsub Hnext.
  pose proof (inv_ports_step _ _ _ _ _ Hinv Hst Hp1) as Hinv1.
  assert (registered path s s1 (portno e)) as Hreg.
  { split; [done|]. split; [by apply abs_ports_in|]. split; [|done]. intros p x Hx. unfold abs_ports in Hx.
    destruct (find_port p _) as [e'|] eqn:Ef; [|done]. apply find_port_Some in Ef as [Hin' <-].
    apply abs_ports_in; [done|by apply Hsub|done]. }
  assert (int_ok (portno e) = true) as Hpi.
  { pose proof (pinv_range _ _ Hp1) as Hr. rewrite Forall_forall in Hr. specialize (Hr _ Hin).
    pose proof (pinv_next _ _ Hp1). apply int_ok_spec. unfold __SERV_PORT, INT_MIN, INT_MAX in *. lia. }
  assert (stale_param s1 = stale_param s /\ cur_broadcast_id s1 = cur_broadcast_id s) as [Hst1 Hbs]
    by (by destruct Hst as (l & n & c & _ & ->)).
  eapply wpe_post; [|intros r s' HA; exists s1, (portno e); split_and!; [done|done|exact HA]].
  apply wpe_wp_bind. eapply wp_copy_vmname; [exact Hself|apply Hinv|]. intros _.
  apply wpe_wp_bind. eapply wp_copy_vmname; [apply Hrq|apply Hrq|]. intros _.
  apply wpe_wp_bind. eapply wp_lift; [apply streq_Some; [exact Hself|apply Hrq]|]. cbn beta iota.
  unfold spec_request. rewrite (abs_request_eq _ _ _ _ Hrq). cbn [q_dst q_dport q_data q_flag].
  destruct (decide (dip = ip)) as [Ed|Ed].
  - rewrite bool_decide_eq_true_2 by done. destruct (abs_ports s1 (sp_destport sp)) as [path'|] eqn:Hpath'.
    + apply wpe_wp. by eapply wp_deliver_local.
    + destruct Hreg as (_ & _ & Hmono & _). apply wpe_wp_bind. unfold fetch_entry_port. wp_steps.
      unfold abs_ports in Hpath'. destruct (find_port _ _) as [e'|] eqn:Ef; [|].
      { apply find_port_Some in Ef as [Hin' _]. pose proof (pinv_paths _ _ Hp1) as Hpp. rewrite Forall_forall in Hpp.
        destruct (Hpp _ Hin') as [[x Hx] _]. cbn in Hpath'. congruence. }
      unfold wpe, assert_some, mbind, M_bind. split; [done|]. split; [done|].
      destruct (abs_ports s (sp_destport sp)) as [x|] eqn:Ex; [|done]. apply Hmono in Ex.
      unfold abs_ports in Ex. by rewrite Ef in Ex.
  - rewrite bool_decide_eq_false_2 by done. rewrite <- Hst1. apply wpe_wp.
    wp_step. eapply wp_lookup_route; [exact Hinv1|apply Hrq|].
    intros r p T' s2 Hinv2 Hf Ha _ Ho Hk Hb. rewrite <- Ha. cbn beta iota.
    eapply wp_mono; [|intros r' s'; by apply answers_after].
    cbn [a_routes abs_router a_ctr]. rewrite lookup_fmap. unfold found in Hf.
    destruct (T' !! dip) as [[x ed]|] eqn:Ex; cbn [fmap option_fmap option_map].
    + destruct Hf as [-> ->]. cbn [Z.leb Z.compare]. wp_step. eapply wp_lift; [done|].
      rewrite <- (abs_request_eq _ _ _ _ Hrq). by eapply (wp_send_known sp dip data path).
    + destruct Hf as [Hr ->]. rewrite (proj2 (Z.leb_le _ _) Hr).
      rewrite <- (abs_request_eq _ _ _ _ Hrq).
      eapply (wp_request_route sp dip data path); [done|done|done|done|lia|lia].
Qed.
Lemma wp_handle_peer_msg sp dip data path ip T q s :
  inv ip T q s -> request_ok sp dip data path -> next_portno s < __SERV_PORT ->
  INT_MIN < cur_broadcast_id s -> cur_broadcast_id s + 1 < INT_MAX ->
  (dip = ip -> is_Some (abs_ports s (sp_destport sp))) ->
  wp (handle_peer_msg sp)
     (fun r s' => exists s1 port, registered path s s1 port /\ inv ip T q s1 /\
        answers ip (spec_request ip (stale_param s) (abs_ports s1) port (abs_request sp)
                      (abs_router s1 T q)) s1 r s') s.
Proof.
  intros Hinv Hrq Hn Hb1 Hb2 Hloc. apply wp_wpe. eapply wpe_mono; [by eapply wpe_handle_peer_msg|done|].
  intros w (_ & Ed & E). destruct (Hloc Ed) as [x Hx]. congruence.
Qed.
End Peer.
