(* ===== verification/Api.v ===== *)
(** * The messaging interface of the daemon

    The text that passes between the daemon and the local processes: the API
    calls [msg_send] and [msg_recv] of utils.c, which the client and the server
    use, and [get_send_params] of odr_and.c, which takes a request apart.  Both
    directions are round trips on messages without commas, apostrophes and
    NULs. *)

From S2P Require Import Prelude CLib Inet Frame DList Node Demo Utils Ports RTable PQueue Send.
From S2P Require Import Handlers Spec Refine Peer.

Definition IP_LEN : nat := 50.

(** The scanset [[^',']] refuses the comma and the apostrophe. *)
Definition sep (c : ascii) : bool := Ascii.eqb c ","%char || Ascii.eqb c "'"%char.

(** A datagram received into a cleared buffer of [n] bytes. *)
Definition recv_into (n : nat) (data : buf) : buf :=
  take n data ++ replicate (n - length data) NUL.

(** What the next [select] and [recvfrom] of a process yield. *)
Inductive received :=
  | Interrupted                (** [select] fails with EINTR *)
  | RecvFailed                 (** [recvfrom] fails *)
  | Received (data : buf).

(** [msg_params_t]. *)
Record msg_params := mkMsgParams { mp_cli_ip : buf; mp_msg : buf; mp_port : Z }.

(** The arguments of [msg_recv] that are written through. *)
Record recv_args := mkRecvArgs {
  ra_msg_buf : buf;
  ra_destip : buf;
  ra_destport : Z;
  ra_tt : msg_params;
}.

Section Api.
Context {os : OS}.

(** ["%s,%d,%s,%s,%d\n"]. *)
Definition send_text (dip : buf) (dport : Z) (m path : buf) (flag : Z) : buf :=
  dip ++ ","%char :: print_int dport ++ ","%char :: m ++ ","%char :: path ++ ","%char ::
  print_int flag ++ [byte_of_Z 10].

Definition msg_send (destip : buf) (destport : Z) (m : buf) (route_disc_flag : Z)
    (tempfile : buf) : MN Z :=
  dip ← lift (need_str destip);
  t ← lift (need_str m);
  path ← lift (need_str tempfile);
  str_seq ← lift (strcpy (replicate MAXLINE NUL)
                    (send_text dip destport t path route_disc_flag ++ [NUL]));
  data ← lift (need_str str_seq);
  r ← sendto (SendUnix (chars __UNIX_PROC_PATH) data);
  if r <=? 0 then mret (-1) else mret 0.

(** [msg_recv]: what it leaves in its arguments.  Fewer than two fields leave
    [ip] or [port] unset, which the code then reads; [msg] was cleared. *)
Definition parse_recv (a : recv_args) (buff : buf) : chk recv_args :=
  ws ← sscanf buff [DSet IP_LEN sep; DLit ","%char; DSet 10 sep; DLit ","%char;
                    DSet MAXLINE sep; DLit ","%char; DStr 2];
  match ws with
  | ip :: port :: rest =>
      let m := match rest with w :: _ => w | [] => [] end in
      let m := m ++ replicate (MAXLINE - length m) NUL in
      p ← atoi (port ++ [NUL]);
      mb ← strncpy (ra_msg_buf a) m MAXLINE;
      di ← strncpy (ra_destip a) (ip ++ [NUL]) IP_LEN;
      tm ← strncpy (mp_msg (ra_tt a)) m MAXLINE;
      ti ← strncpy (mp_cli_ip (ra_tt a)) (ip ++ [NUL]) IP_LEN;
      mret (mkRecvArgs mb di p (mkMsgParams ti tm p))
  | _ => Bad Uninitialised
  end.

Definition msg_recv (a : recv_args) (r : received) : chk recv_args :=
  match r with
  | Interrupted => mret a
  | RecvFailed => mret a
  | Received data => parse_recv a (recv_into MAXLINE data)
  end.

(** [get_send_params]; [sp] is the uninitialised storage [malloc] returned. *)
Definition get_send_params (sp : send_params) (str : buf) : chk send_params :=
  ws ← sscanf str [DSet MAXLINE sep; DLit ","%char; DSet IP_LEN sep; DLit ","%char;
                   DSet MAXLINE sep; DLit ","%char; DSet MAXLINE sep; DLit ","%char;
                   DStr IP_LEN];
  match ws with
  | [dstip; dstport; m; filename; flag] =>
      di ← strncpy (sp_destip sp) (dstip ++ [NUL]) (length dstip);
      ms ← strncpy (sp_msg sp) (m ++ [NUL]) (length m);
      fn ← strncpy (sp_filename sp) (filename ++ [NUL]) (length filename);
      dp ← atoi (dstport ++ [NUL]);
      rf ← atoi (flag ++ [NUL]);
      mret (mkSendParams di fn ms dp rf)
  | _ => Bad Uninitialised
  end.

(** ** Lemmas *)

(** A field of a message: not empty, no separators, no NUL. *)
Record field (w : buf) : Prop := {
  field_ne : w <> [];
  field_sep : Forall (fun c => sep c = false) w;
  field_nonul : nonul w;
}.

Lemma field_len w n : field w -> (length w < n)%nat -> (0 < length w < n)%nat.
Proof. intros [H _ _]. destruct w; [done|]. cbn. lia. Qed.

Lemma sep_print_int z : Forall (fun c => sep c = false) (print_int z).
Proof.
  apply Forall_print_int; [done|]. intros d Hd.
  apply (digit_forall (fun c => negb (sep c))) in Hd; [by destruct (sep (digit d))|done].
Qed.

#[local] Hint Resolve sep_print_int : odr.

Lemma send_text_nonul dip dport m path flag :
  nonul dip -> nonul m -> nonul path -> nonul (send_text dip dport m path flag).
Proof. intros Hd Hm Hp. unfold send_text. all_pieces. Qed.

Lemma field_print_int z : field (print_int z).
Proof.
  split; [|apply sep_print_int|apply nonul_print_int].
  destruct (print_int_cons z) as (c & s & ->). done.
Qed.

Lemma isspace_print_int z : Forall (fun c => isspace c = false) (print_int z).
Proof.
  apply Forall_print_int; [done|]. intros d Hd. by apply isspace_digit.
Qed.

Lemma cstr_recv n data : nonul data -> (length data < n)%nat -> cstr (recv_into n data) = Some data.
Proof.
  intros Hd Hl. unfold recv_into. rewrite take_ge by lia. by apply cstr_pad.
Qed.

Lemma strncpy_field dst w :
  nonul w -> (length w <= length dst)%nat ->
  strncpy dst (w ++ [NUL]) (length w) = Def (w ++ drop (length w) dst).
Proof. intros Hw Hl. apply strncpy_strlen; [by apply cstr_term|done]. Qed.

Lemma print_int_len_ok z : int_ok z = true -> (length (print_int z) < IP_LEN)%nat.
Proof. intros Hz. pose proof (length_print_int z Hz). unfold IP_LEN. lia. Qed.

(** The text of a request, taken apart. *)
Lemma get_send_params_text sp dip dport m path flag :
  field dip -> field m -> field path -> int_ok dport = true -> int_ok flag = true ->
  (length (send_text dip dport m path flag) < MAXLINE)%nat ->
  (length dip <= length (sp_destip sp))%nat -> (length m <= length (sp_msg sp))%nat ->
  (length path <= length (sp_filename sp))%nat ->
  get_send_params sp (recv_into MAXLINE (send_text dip dport m path flag))
  = Def (mkSendParams (dip ++ drop (length dip) (sp_destip sp))
           (path ++ drop (length path) (sp_filename sp))
           (m ++ drop (length m) (sp_msg sp)) dport flag).
Proof.
  intros Hd Hm Hp Hdp Hfl Hlen L1 L2 L3. unfold get_send_params, sscanf.
  pose proof (field_print_int dport) as Fd. pose proof (field_print_int flag) as Ff.
  assert (nonul (send_text dip dport m path flag)) as Hnn
    by (apply send_text_nonul; [apply Hd|apply Hm|apply Hp]).
  rewrite (need_str_Some _ _ (cstr_recv _ _ Hnn Hlen)), chk_bind_Def.
  assert (length dip < MAXLINE /\ length m < MAXLINE /\ length path < MAXLINE)%nat
    as (B1 & B2 & B3).
  { unfold send_text in Hlen. repeat (rewrite length_app in Hlen; cbn [length] in Hlen). lia. }
  unfold send_text.
  rewrite sscanf_set_lit by (apply Hd || done || by apply field_len).
  rewrite sscanf_set_lit by (apply Fd || done || by apply field_len, print_int_len_ok).
  rewrite sscanf_set_lit by (apply Hm || done || by apply field_len).
  rewrite sscanf_set_lit by (apply Hp || done || by apply field_len).
  rewrite sscanf_str_last; [|apply isspace_print_int|by intros c r' [= <- _]|
                            by apply field_len, print_int_len_ok].
  rewrite !chk_bind_Def. cbn beta iota.
  rewrite !strncpy_field by (apply Hd || apply Hm || apply Hp || done). rewrite !chk_bind_Def.
  rewrite !atoi_print by done. done.
Qed.

(** The scan of a delivered message: the payload may be empty. *)
Lemma scan_peer_text sip sport pl :
  field sip -> (length sip < IP_LEN)%nat -> (length (print_int sport) < 10)%nat ->
  Forall (fun c => sep c = false) pl -> (length pl < MAXLINE)%nat ->
  exists rest,
    sscanf_str [DSet IP_LEN sep; DLit ","%char; DSet 10 sep; DLit ","%char;
                DSet MAXLINE sep; DLit ","%char; DStr 2] (peer_text sip sport pl)
    = Def (sip :: print_int sport :: rest) /\
    match rest with w :: _ => w | [] => [] end = pl.
Proof.
  intros Hs Hsl Hp Hpl Hl. unfold peer_text.
  rewrite sscanf_set_lit by (apply Hs || done || by apply field_len).
  rewrite sscanf_set_lit by (apply field_print_int || done || by apply field_len, Hp; apply field_print_int).
  destruct pl as [|c pl].
  - eexists. split; [reflexivity|done].
  - rewrite sscanf_set_lit by (done || (cbn in *; lia)).
    rewrite sscanf_str_last; [|apply isspace_print_int|by intros x r' [= <- _]|change (0 < 1 < 2)%nat; lia].
    eexists. split; [reflexivity|done].
Qed.

(** Buffers of the sizes the callers pass. *)
Record recv_bufs (a : recv_args) : Prop := {
  rb_msg : length (ra_msg_buf a) = MAXLINE;
  rb_ip : length (ra_destip a) = IP_LEN;
  rb_tt_msg : length (mp_msg (ra_tt a)) = MAXLINE;
  rb_tt_ip : length (mp_cli_ip (ra_tt a)) = IP_LEN;
}.

(** What [msg_recv] hands over. *)
Record got (a : recv_args) (sip : buf) (sport : Z) (pl : buf) : Prop := {
  got_msg : cstr (ra_msg_buf a) = Some pl;
  got_ip : cstr (ra_destip a) = Some sip;
  got_port : ra_destport a = sport;
  got_tt_msg : cstr (mp_msg (ra_tt a)) = Some pl;
  got_tt_ip : cstr (mp_cli_ip (ra_tt a)) = Some sip;
  got_tt_port : mp_port (ra_tt a) = sport;
}.

Lemma msg_recv_text a sip sport pl :
  recv_bufs a -> field sip -> (length sip < IP_LEN)%nat ->
  int_ok sport = true -> (length (print_int sport) < 10)%nat ->
  Forall (fun c => sep c = false) pl -> nonul pl ->
  (length (peer_text sip sport pl) < MAXLINE)%nat ->
  exists a', msg_recv a (Received (peer_text sip sport pl)) = Def a' /\
    recv_bufs a' /\ got a' sip sport pl.
Proof.
  intros [B1 B2 B3 B4] Hs Hsl Hi Hpi Hpl Hnn Hlen. cbn [msg_recv]. unfold parse_recv, sscanf.
  rewrite (need_str_Some _ _ (cstr_recv _ _ (peer_text_nonul _ _ _ (field_nonul _ Hs) Hnn) Hlen)).
  rewrite chk_bind_Def.
  assert (length pl < MAXLINE)%nat as Hpll.
  { unfold peer_text in Hlen. repeat (rewrite length_app in Hlen; cbn [length] in Hlen). lia. }
  destruct (scan_peer_text sip sport pl) as (rest & -> & Hrest); [done..|].
  rewrite chk_bind_Def. cbv zeta. rewrite Hrest, atoi_print by done. rewrite chk_bind_Def.
  set (m := pl ++ replicate _ NUL).
  assert (cstr m = Some pl) as Hm.
  { by apply cstr_pad. }
  assert (cstr (sip ++ [NUL]) = Some sip) as Hsc by (apply cstr_term, Hs).
  destruct (strncpy_Some (ra_msg_buf a) m pl MAXLINE) as (d1 & -> & C1 & L1); [done..|by rewrite B1|].
  destruct (strncpy_Some (ra_destip a) (sip ++ [NUL]) sip IP_LEN) as (d2 & -> & C2 & L2);
    [done..|by rewrite B2|].
  destruct (strncpy_Some (mp_msg (ra_tt a)) m pl MAXLINE) as (d3 & -> & C3 & L3);
    [done..|by rewrite B3|].
  destruct (strncpy_Some (mp_cli_ip (ra_tt a)) (sip ++ [NUL]) sip IP_LEN) as (d4 & -> & C4 & L4);
    [done..|by rewrite B4|].
  rewrite !chk_bind_Def. eexists. split; [reflexivity|]. split; split; cbn; congruence.
Qed.

Lemma wp_msg_send destip dip dport mb m flag pathb path (Q : Z -> node -> Prop) s :
  cstr destip = Some dip -> cstr mb = Some m -> cstr pathb = Some path ->
  (length (send_text dip dport m path flag) < MAXLINE)%nat ->
  (let ev := SendUnix (chars __UNIX_PROC_PATH) (send_text dip dport m path flag) in
   Q (if os_sendto (length (outs s)) ev <=? 0 then -1 else 0) (emit ev s)) ->
  wp (msg_send destip dport mb flag pathb) Q s.
Proof.
  intros Hd Hm Hp Hl HQ. unfold msg_send.
  wp_step. eapply wp_lift; [by apply need_str_Some|].
  wp_step. eapply wp_lift; [by apply need_str_Some|].
  wp_step. eapply wp_lift; [by apply need_str_Some|]. cbn beta.
  set (t := send_text dip dport m path flag) in *.
  assert (nonul t) as Ht by (apply send_text_nonul; by eapply cstr_nonul).
  destruct (strcpy_Some (replicate MAXLINE NUL) (t ++ [NUL]) t) as (d & Hd' & Hc & _);
    [by apply cstr_term|by rewrite length_replicate|].
  wp_step. eapply wp_lift; [exact Hd'|]. wp_step. eapply wp_lift; [by apply need_str_Some|].
  wp_step. unfold sendto, wp at 1. cbn beta zeta. cbv zeta in HQ.
  fold (emit (SendUnix (chars __UNIX_PROC_PATH) t) s). destruct (_ <=? 0); by wp_step.
Qed.

Lemma field_resolves dip : resolves dip -> field dip.
Proof.
  intros Hr. pose proof (resolves_nonul _ Hr) as Hn. destruct Hr as (a & n & Ha & -> & _).
  destruct a as [|a1 [|a2 [|a3 [|a4 [|]]]]]; try done. split; [| |done]; cbn [dotted_quad].
  - destruct (print_int_cons (Z_of_byte a1)) as (c & r & ->). done.
  - all_pieces.
Qed.

(** Storage that [malloc] returns zeroed. *)
Definition zero_params : send_params :=
  mkSendParams (replicate MAXLINE NUL) (replicate MAXLINE NUL)
               (replicate (Z.to_nat PAYLOAD_SIZE) NUL) 0 0.

Lemma cstr_zero_tail w n :
  nonul w -> (length w < n)%nat -> cstr (w ++ drop (length w) (replicate n NUL)) = Some w.
Proof.
  intros Hw Hl. rewrite drop_replicate. by apply cstr_pad.
Qed.

(** The copies of [get_send_params] write no terminator: the texts are terminated when
    the storage that [malloc] returns happens to have a NUL right behind each of them. *)
Record clean_behind (sp : send_params) (dip m path : buf) : Prop := {
  cb_destip : sp_destip sp !! length dip = Some NUL;
  cb_msg : sp_msg sp !! length m = Some NUL;
  cb_filename : sp_filename sp !! length path = Some NUL;
}.

Lemma cstr_behind w dst : nonul w -> dst !! length w = Some NUL -> cstr (w ++ drop (length w) dst) = Some w.
Proof. intros Hw Hc. rewrite (drop_S _ _ _ Hc). apply cstr_Some. split; [done|]. by eexists. Qed.

Lemma clean_zero dip m path :
  (length dip < MAXLINE)%nat -> (length m < Z.to_nat PAYLOAD_SIZE)%nat -> (length path < MAXLINE)%nat ->
  clean_behind zero_params dip m path.
Proof. intros. split; cbn [sp_destip sp_msg sp_filename zero_params]; by apply lookup_replicate_2. Qed.

(** The text of a request, taken apart in such storage. *)
Lemma get_send_params_clean sp dip dport m path flag :
  clean_behind sp dip m path -> resolves dip -> field m -> field path ->
  (length m < Z.to_nat PAYLOAD_SIZE)%nat -> (length path < SUN_PATH_SIZE)%nat ->
  int_ok dport = true -> int_ok flag = true ->
  (length (send_text dip dport m path flag) < MAXLINE)%nat ->
  exists sp', get_send_params sp (recv_into MAXLINE (send_text dip dport m path flag)) = Def sp' /\
    request_ok sp' dip m path /\ sp_destport sp' = dport /\ sp_route_disc_flag sp' = flag.
Proof.
  intros [C1 C2 C3] Hr Hm Hp Hml Hpl Hd Hf Hlen. eexists.
  split; [apply get_send_params_text; try done; [by apply field_resolves|..];
          apply Nat.lt_le_incl; by eapply lookup_lt_Some|].
  split; [|done]. split; try done; cbn [sp_destip sp_msg sp_filename]; apply cstr_behind; try done;
    [by apply resolves_nonul|apply Hm|apply Hp].
Qed.

(** ** Properties *)

(** C18: what a process hands to [msg_send] is what the daemon works on: the
    text the call sends to the daemon's socket, received there and taken apart
    by [get_send_params] into zeroed storage, yields the destination, the port,
    the message, the path of the sender and the flag, unchanged, for messages
    without commas and apostrophes that fit a frame. *)
Theorem request_text_roundtrip destip dip dport mb m flag pathb path s :
  cstr destip = Some dip -> cstr mb = Some m -> cstr pathb = Some path ->
  field dip -> field m -> field path -> int_ok dport = true -> int_ok flag = true ->
  (length m < Z.to_nat PAYLOAD_SIZE)%nat ->
  (length (send_text dip dport m path flag) < MAXLINE)%nat ->
  exists data sp, let ev := SendUnix (chars __UNIX_PROC_PATH) data in
    msg_send destip dport mb flag pathb s
    = Ok (if os_sendto (length (outs s)) ev <=? 0 then -1 else 0) (emit ev s) /\
    get_send_params zero_params (recv_into MAXLINE data) = Def sp /\
    cstr (sp_destip sp) = Some dip /\ cstr (sp_msg sp) = Some m /\
    cstr (sp_filename sp) = Some path /\ sp_destport sp = dport /\ sp_route_disc_flag sp = flag.
Proof.
  intros Hd Hm Hp Fd Fm Fp Hdp Hfl Hml Hlen.
  assert (length dip < MAXLINE /\ length path < MAXLINE)%nat as [B1 B3].
  { unfold send_text in Hlen. repeat (rewrite length_app in Hlen; cbn [length] in Hlen). lia. }
  exists (send_text dip dport m path flag). eexists. cbv zeta. split_and!.
  - assert (wp (msg_send destip dport mb flag pathb) (fun r s' =>
      let ev := SendUnix (chars __UNIX_PROC_PATH) (send_text dip dport m path flag) in
      r = (if os_sendto (length (outs s)) ev <=? 0 then -1 else 0) /\ s' = emit ev s) s)
      as (r & s' & -> & -> & ->)%wp_run by (by eapply wp_msg_send). done.
  - apply get_send_params_text; try done;
      cbn [sp_destip sp_msg sp_filename zero_params]; rewrite length_replicate; lia.
  - by apply cstr_zero_tail; [apply Fd|].
  - by apply cstr_zero_tail; [apply Fm|].
  - by apply cstr_zero_tail; [apply Fp|].
  - done.
  - done.
Qed.

(** The copies into the parameters write no terminator: in storage that
    is not zero behind the address, the destination the daemon then reads is
    not the one that was sent. *)
Theorem unclean_storage_changes_destination sp dip dport m path flag c :
  field dip -> field m -> field path -> int_ok dport = true -> int_ok flag = true ->
  (length (send_text dip dport m path flag) < MAXLINE)%nat ->
  (length m <= length (sp_msg sp))%nat -> (length path <= length (sp_filename sp))%nat ->
  sp_destip sp !! length dip = Some c -> c <> NUL ->
  exists sp', get_send_params sp (recv_into MAXLINE (send_text dip dport m path flag)) = Def sp' /\
    cstr (sp_destip sp') <> Some dip.
Proof.
  intros Fd Fm Fp Hdp Hfl Hlen L2 L3 Hc Hne. pose proof (lookup_lt_Some _ _ _ Hc) as Hl.
  eexists. split; [apply get_send_params_text; try done; lia|]. cbn [sp_destip].
  rewrite (drop_S _ _ _ Hc). intros [_ [r Hr]]%cstr_Some.
  apply app_inv_head in Hr. by injection Hr as -> _.
Qed.

(** C19: what the daemon delivers is what a process receives: the text
    [send_to_peer_process] sends to the path of the process, read with
    [msg_recv], yields the payload (which may be empty), the address and the
    port of the sender. *)
Theorem delivery_roundtrip spath path srcip sip sport pl p a s :
  cstr spath = Some path -> (length path < SUN_PATH_UN)%nat ->
  cstr srcip = Some sip -> resolves sip ->
  int_ok sport = true -> (length (print_int sport) < 10)%nat ->
  cstr pl = Some p -> (length p < Z.to_nat PAYLOAD_SIZE)%nat ->
  Forall (fun c => sep c = false) p -> recv_bufs a ->
  exists data a', let ev := SendUnix path data in
    send_to_peer_process spath srcip sport pl s
    = Ok (if os_sendto (length (outs s)) ev <=? 0 then -1 else 0) (emit ev s) /\
    msg_recv a (Received data) = Def a' /\ recv_bufs a' /\ got a' sip sport p.
Proof.
  intros Hsp Hpl Hs Hr Hi Hi10 Hp Hpll Hsep Hb.
  pose proof (resolves_length _ Hr) as Hsl. pose proof (field_resolves _ Hr) as Fs.
  exists (peer_text sip sport p).
  destruct (msg_recv_text a sip sport p) as (a' & Ha & Hb' & Hg); try done.
  { unfold INET_ADDRSTRLEN, IP_LEN in *. lia. }
  { by eapply cstr_nonul. }
  { pose proof (peer_text_length sip sport p Hsl Hi Hpll). unfold ETH_FRAME_LEN, MAXLINE in *. lia. }
  exists a'. cbv zeta. split; [|done].
  assert (wp (send_to_peer_process spath srcip sport pl) (fun r s' =>
    let ev := SendUnix path (peer_text sip sport p) in
    r = (if os_sendto (length (outs s)) ev <=? 0 then -1 else 0) /\ s' = emit ev s) s)
    as (r & s' & -> & -> & ->)%wp_run; [|done].
  by eapply wp_send_to_peer_process.
Qed.
End Api.

(** ** Witnesses *)

Lemma field_chars (w : string) :
  chars w <> [] -> forallb (fun c => negb (sep c) && negb (Ascii.eqb c NUL)) (chars w) = true ->
  field (chars w).
Proof.
  intros Hne H. rewrite forallb_forall in H.
  split; [done| |]; apply Forall_forall; intros c Hc; specialize (H c);
    rewrite <- list_elem_of_In in H; specialize (H Hc); apply andb_true_iff in H as [H1 H2].
  - by destruct (sep c).
  - by destruct (Ascii.eqb_spec c NUL).
Qed.

Lemma request_text_roundtrip_witness :
  exists data sp, let ev := SendUnix (chars __UNIX_PROC_PATH) data in
    @msg_send (demo_os []) (lit "130.245.156.23") 5500 (lit "hello world") 0 (lit "/tmp/file_and_1") node_init
    = Ok (if @os_sendto (demo_os []) 0 ev <=? 0 then -1 else 0) (@emit (demo_os []) ev node_init) /\
    get_send_params zero_params (recv_into MAXLINE data) = Def sp /\
    cstr (sp_destip sp) = Some (chars "130.245.156.23") /\
    cstr (sp_msg sp) = Some (chars "hello world") /\
    cstr (sp_filename sp) = Some (chars "/tmp/file_and_1") /\
    sp_destport sp = 5500 /\ sp_route_disc_flag sp = 0.
Proof.
  apply (@request_text_roundtrip (demo_os []) (lit "130.245.156.23") (chars "130.245.156.23") 5500
           (lit "hello world") (chars "hello world") 0 (lit "/tmp/file_and_1")
           (chars "/tmp/file_and_1") node_init);
    first [ reflexivity | by apply field_chars | apply Nat.ltb_lt; by vm_compute ].
Defined.

(** Storage left over from another request. *)
Definition used_params : send_params :=
  mkSendParams (replicate MAXLINE "1"%char) (replicate MAXLINE NUL)
               (replicate (Z.to_nat PAYLOAD_SIZE) NUL) 0 0.

Lemma unclean_storage_changes_destination_witness :
  exists sp', get_send_params used_params
                (recv_into MAXLINE (send_text (chars "130.245.156.23") 5500 (chars "hello world")
                                      (chars "/tmp/file_and_1") 0)) = Def sp' /\
    cstr (sp_destip sp') <> Some (chars "130.245.156.23").
Proof.
  apply (unclean_storage_changes_destination used_params (chars "130.245.156.23") 5500
           (chars "hello world") (chars "/tmp/file_and_1") 0 "1"%char);
    first [ reflexivity | by apply field_chars | done | apply Nat.ltb_lt; by vm_compute
          | apply Nat.leb_le; by vm_compute ].
Defined.

Definition demo_recv_args : recv_args :=
  mkRecvArgs (replicate MAXLINE NUL) (replicate IP_LEN NUL) 0
             (mkMsgParams (replicate IP_LEN NUL) (replicate MAXLINE NUL) 0).

Lemma delivery_roundtrip_witness :
  exists data a', let ev := SendUnix (chars "servpathfile") data in
    @send_to_peer_process (demo_os []) (lit "servpathfile") (lit "130.245.156.21") 909 (lit "hello") node_init
    = Ok (if @os_sendto (demo_os []) 0 ev <=? 0 then -1 else 0) (@emit (demo_os []) ev node_init) /\
    msg_recv demo_recv_args (Received data) = Def a' /\ recv_bufs a' /\
    got a' (vm_ip 1) 909 (chars "hello").
Proof.
  apply (@delivery_roundtrip (demo_os []) (lit "servpathfile") (chars "servpathfile")
           (lit "130.245.156.21") (vm_ip 1) 909 (lit "hello") (chars "hello") demo_recv_args node_init).
  - reflexivity.
  - apply Nat.ltb_lt. reflexivity.
  - by vm_compute.
  - by apply demo_resolves.
  - reflexivity.
  - apply Nat.ltb_lt. reflexivity.
  - reflexivity.
  - apply Nat.ltb_lt. reflexivity.
  - by repeat constructor.
  - by split.
Defined.
