(* ===== verification/Behaviour.v ===== *)
(** * What a node does with a received frame

    The refinement of file Refine at the level of the bytes a node receives,
    and its consequences for the program: duplicates, unknown types, bounds on
    the traffic a frame can cause, completion of a route discovery, and the
    cases in which the handler does something other than what its comments or
    the README say. *)

From S2P Require Import Prelude CLib Inet Frame DList Node Demo Utils Ports RTable PQueue Send.
From S2P Require Import Handlers Spec SpecFacts Refine Peer.

Section Behaviour.
Context {os : OS}.

(** The specification's verdict on a frame, for a node in state [s]. *)
Definition verdict (ip : buf) (T : routes) (q : pending) (s : node) (addr : sockaddr_ll)
    (fr : odr_frame) : Z * (router * list out) :=
  spec_frame ip (stale_param s) (abs_ports s) (sll_ifindex addr) (sll_addr addr)
    (abs_msg fr) (abs_router s T q).

Lemma run_ethernet ip T q s addr b fr dip sip :
  inv ip T q s -> process_recvd_frame b = Def fr ->
  arrival (hwa_struct_head s) addr fr dip sip -> INT_MIN < cur_broadcast_id s < INT_MAX ->
  exists r s', handle_ethernet_msg addr b s = Ok r s' /\
    meets ip (verdict ip T q s addr fr).2 (verdict ip T q s addr fr).1 s r s'.
Proof.
  intros Hinv Hb Harr Hbid. apply wp_run. unfold handle_ethernet_msg.
  pose proof (ready_ip _ _ _ (inv_ready _ _ _ _ Hinv)) as (self & Hs & Hself).
  wp_step. eapply wp_get_self_ip; [exact Hs|]. wp_step. eapply wp_lift; [exact Hb|].
  by eapply wp_handle_frame.
Qed.

(** C2: on the bytes of a well-formed frame that arrives on one of the node's
    interfaces, [handle_ethernet_msg] returns; the invariant of the node holds
    again; routes, parked messages, broadcast counter and clock are those the
    protocol specification computes; and the [sendto] calls made are the wire
    forms of the specified outputs, in order, up to the first that fails, with
    the specified result when none does. *)
Theorem handle_ethernet_msg_refines ip T q s addr b fr dip sip :
  inv ip T q s -> process_recvd_frame b = Def fr ->
  arrival (hwa_struct_head s) addr fr dip sip -> INT_MIN < cur_broadcast_id s < INT_MAX ->
  exists r s', handle_ethernet_msg addr b s = Ok r s' /\
    meets ip (verdict ip T q s addr fr).2 (verdict ip T q s addr fr).1 s r s'.
Proof. apply run_ethernet. Qed.

(** A frame with the route-discovery flag whose broadcast id is not
    larger than that of the route to its source is dropped: the handler
    returns 1, sends nothing and changes nothing. *)
Theorem flagged_duplicate_dropped ip T q s addr b fr dip sip x e :
  inv ip T q s -> process_recvd_frame b = Def fr -> frame_wf fr dip sip ->
  route_disc_flag fr = 1 -> T !! sip = Some (x, e) -> broadcast_id fr <= r_broadcast_id e ->
  handle_ethernet_msg addr b s = Ok 1 s.
Proof.
  intros Hinv Hb Hwf Hfl Hx Hbid.
  pose proof (ready_ip _ _ _ (inv_ready _ _ _ _ Hinv)) as (self & Hs & Hself).
  assert (wp (handle_ethernet_msg addr b) (fun r s' => r = 1 /\ s' = s) s)
    as (r & s' & -> & -> & ->)%wp_run; [|done].
  unfold handle_ethernet_msg. wp_step. eapply wp_get_self_ip; [exact Hs|].
  wp_step. eapply wp_lift; [exact Hb|]. unfold handle_frame. cbv zeta. wp_step.
  eapply wp_duplicate; [exact Hinv|exact Hwf|].
  unfold a_duplicate. rewrite (abs_msg_src _ _ _ Hwf). cbn [m_rdf abs_msg m_bid a_routes abs_router].
  rewrite lookup_fmap, Hx, Hfl. cbn. rewrite (proj2 (Z.leb_le _ _) Hbid). by wp_step.
Qed.

(** ** Bound on the traffic *)

Lemma send_log_length evs o : (length (send_log evs o).2 <= length o + length evs)%nat.
Proof.
  revert o. induction evs as [|ev evs IH]; intros o; cbn; [lia|].
  destruct (_ <? 0); cbn; [lia|]. specialize (IH ((ev, os_sendto (length o) ev) :: o)).
  cbn in IH. lia.
Qed.

Lemma realises_length ifs o evs :
  realises ifs o evs ->
  (length evs <= match o with Flood _ _ => length ifs | _ => 1 end)%nat.
Proof.
  destruct 1; cbn; [lia| |lia]. unfold flood_events. rewrite length_fmap. apply length_filter.
Qed.

(** C21: one received frame causes at most one [sendto] more than the node has
    interfaces, and moves the broadcast counter by at most one. *)
Theorem frame_traffic_bound ip T q s addr b fr dip sip :
  inv ip T q s -> process_recvd_frame b = Def fr ->
  arrival (hwa_struct_head s) addr fr dip sip -> INT_MIN < cur_broadcast_id s < INT_MAX ->
  exists r s', handle_ethernet_msg addr b s = Ok r s' /\
    (length (outs s') <= length (outs s) + S (length (hwa_struct_head s)))%nat /\
    cur_broadcast_id s <= cur_broadcast_id s' <= cur_broadcast_id s + 1.
Proof.
  intros Hinv Hb Harr Hbid.
  destruct (run_ethernet ip T q s addr b fr dip sip) as (r & s' & Hr & HM); [done..|].
  exists r, s'. split; [done|]. destruct HM as (T' & q' & evs & _ & Habs & Hre & [Ho _ _] & _).
  split.
  - rewrite Ho. pose proof (send_log_length evs (outs s)) as Hl.
    assert (length evs <= S (length (hwa_struct_head s)))%nat; [|lia].
    destruct Hre as (evss & HF & ->).
    pose proof (spec_frame_outs ip (stale_param s) (abs_ports s) (sll_ifindex addr) (sll_addr addr)
                  (abs_msg fr) (abs_router s T q)) as Hsm.
    fold (verdict ip T q s addr fr) in Hsm.
    destruct (verdict ip T q s addr fr).2.2 as [|o1 [|o2 [|]]] eqn:Eo; try by destruct o1, o2.
    + by inversion HF; subst; cbn; lia.
    + inversion HF as [|? e1 ? ? H1 H2]; subst. inversion H2; subst. cbn. rewrite app_nil_r.
      apply realises_length in H1. destruct o1; lia.
    + destruct o1 as [r1 m1| |], o2 as [|ex m2|]; try done.
      inversion HF as [|? e1 ? ? H1 H2]; subst. inversion H2 as [|? e2 ? ? H3 H4]; subst.
      inversion H4; subst. cbn. rewrite app_nil_r, length_app.
      apply realises_length in H1, H3. lia.
  - pose proof (spec_frame_ctr ip (stale_param s) (abs_ports s) (sll_ifindex addr) (sll_addr addr)
                  (abs_msg fr) (abs_router s T q)) as Hc.
    fold (verdict ip T q s addr fr) in Hc. rewrite <- Habs in Hc. exact Hc.
Qed.

(** C9: handling a frame never makes a route worse: a route that was in the
    table is still there with a larger broadcast id, or with the same one and
    no more hops, unless a lookup of this frame dropped it as stale (or
    because rediscovery was asked for). *)
Theorem routes_never_get_worse ip T q s addr b fr dip sip :
  inv ip T q s -> process_recvd_frame b = Def fr ->
  arrival (hwa_struct_head s) addr fr dip sip -> INT_MIN < cur_broadcast_id s < INT_MAX ->
  exists r s' T' q', handle_ethernet_msg addr b s = Ok r s' /\ inv ip T' q' s' /\
    forall k xe, T !! k = Some xe ->
      (exists xe', T' !! k = Some xe' /\ no_worse (abs_route xe') (abs_route xe)) \/
      dropped (stale_param s) (abs_msg fr) (abs_router s T q) k (abs_route xe).
Proof.
  intros Hinv Hb Harr Hbid.
  destruct (run_ethernet ip T q s addr b fr dip sip)
    as (r & s' & Hr & T' & q' & evs & Hinv' & Habs & _); [done..|].
  exists r, s', T', q'. split; [done|]. split; [done|]. intros k xe Hk.
  destruct (spec_frame_freshness ip (stale_param s) (abs_ports s) (sll_ifindex addr) (sll_addr addr)
              (abs_msg fr) (abs_router s T q) k (abs_route xe)) as [(r' & H1 & H2)|]; [| |by right].
  { cbn. by rewrite lookup_fmap, Hk. }
  left. fold (verdict ip T q s addr fr) in H1. rewrite <- Habs in H1. cbn in H1.
  rewrite lookup_fmap in H1. destruct (T' !! k) as [xe'|]; [|done]. injection H1 as <-.
  by exists xe'.
Qed.

(** A frame of an unknown type is refused with -1: nothing is sent, and
    the only change is what the lookups of its destination and source do
    (dropping a stale route, reading the clock). *)
Theorem unknown_type_refused ip T q s addr b fr dip sip :
  inv ip T q s -> process_recvd_frame b = Def fr ->
  arrival (hwa_struct_head s) addr fr dip sip -> INT_MIN < cur_broadcast_id s < INT_MAX ->
  frame_type fr ∉ [__RREQ; __RREP; __DATA; __ASENT] -> route_disc_flag fr <> 1 ->
  exists s' T' q', handle_ethernet_msg addr b s = Ok (-1) s' /\ inv ip T' q' s' /\
    outs s' = outs s /\
    abs_router s' T' q' = a_lookup (stale_param s) 0 sip
      (a_lookup (stale_param s) (route_disc_flag fr) dip (abs_router s T q)).
Proof.
  intros Hinv Hb Harr Hbid Hty Hfl. pose proof (arr_wf _ _ _ _ _ Harr) as Hwf.
  destruct (run_ethernet ip T q s addr b fr dip sip)
    as (r & s' & Hr & T' & q' & evs & Hinv' & Habs & (evss & HF & ->) & [Ho Hok _] & _); [done..|].
  assert (verdict ip T q s addr fr = (-1, (a_lookup (stale_param s) 0 sip
      (a_lookup (stale_param s) (route_disc_flag fr) dip (abs_router s T q)), []))) as HV.
  { unfold verdict, spec_frame, a_duplicate. rewrite (abs_msg_src _ _ _ Hwf), (abs_msg_dst _ _ _ Hwf).
    cbn [m_rdf abs_msg m_type]. rewrite (proj2 (Z.eqb_neq _ _) Hfl). cbn [andb].
    rewrite !not_elem_of_cons in Hty. destruct Hty as (H1 & H2 & H3 & H4 & _).
    by rewrite !(proj2 (Z.eqb_neq _ _)). }
  rewrite HV in *. cbn [fst snd] in *. inversion HF; subst. cbn in Ho, Hok.
  rewrite (Hok eq_refl) in Hr. by exists s', T', q'.
Qed.

(** ** Requests that are passed on *)

Lemma passes_on ip T q s addr b fr dip sip rs R2 :
  inv ip T q s -> process_recvd_frame b = Def fr ->
  arrival (hwa_struct_head s) addr fr dip sip -> INT_MIN < cur_broadcast_id s < INT_MAX ->
  frame_type fr = __RREQ -> route_disc_flag fr <> 1 -> dip <> ip -> T !! dip = None ->
  a_learn (abs_msg fr) (sll_ifindex addr) (sll_addr addr)
    (a_lookup (stale_param s) 0 sip (a_lookup (stale_param s) (route_disc_flag fr) dip
       (abs_router s T q))) = (true, rs, R2) ->
  exists r s' T' q' evs, handle_ethernet_msg addr b s = Ok r s' /\ inv ip T' q' s' /\
    abs_route <$> T' !! sip = Some rs /\
    realises (hwa_struct_head s)
      (Flood (sll_ifindex addr) (passed_on __RREQ (abs_msg fr))) evs /\
    outs s' = (send_log evs (outs s)).2.
Proof.
  intros Hinv Hb Harr Hbid Ht Hf Hip Hd HL. pose proof (arr_wf _ _ _ _ _ Harr) as Hwf.
  destruct (run_ethernet ip T q s addr b fr dip sip)
    as (r & s' & Hr & T' & q' & evs & Hinv' & Habs & (evss & HF & ->) & [Ho _ _] & _); [done..|].
  assert (verdict ip T q s addr fr
          = (0, (R2, [Flood (sll_ifindex addr) (passed_on __RREQ (abs_msg fr))]))) as HV.
  { unfold verdict. apply (spec_rreq_passes _ _ _ _ _ _ _ rs); try done;
      rewrite ?(abs_msg_dst _ _ _ Hwf), ?(abs_msg_src _ _ _ Hwf); try done.
    - apply Harr.
    - cbn. by rewrite lookup_fmap, Hd. }
  rewrite HV in *. cbn [fst snd] in *.
  inversion HF as [|? e1 ? ? H1 H2]; subst. inversion H2; subst. cbn in Ho. rewrite app_nil_r in Ho.
  exists r, s', T', q', e1. split_and!; try done.
  apply a_learn_frame in HL as (_ & _ & HL & _). rewrite (abs_msg_src _ _ _ Hwf) in HL.
  rewrite <- lookup_fmap. exact HL.
Qed.

(** A node's own request that comes back is not recognised: the test
    against its own address compares two pointers that always differ.  The
    node learns a route to itself through the neighbour that returned the
    request, and floods the request again. *)
Theorem own_request_relearned ip T q s addr b fr dip :
  inv ip T q s -> process_recvd_frame b = Def fr ->
  arrival (hwa_struct_head s) addr fr dip ip -> INT_MIN < cur_broadcast_id s < INT_MAX ->
  frame_type fr = __RREQ -> route_disc_flag fr <> 1 -> T !! dip = None -> T !! ip = None ->
  exists r s' T' q' evs x e, handle_ethernet_msg addr b s = Ok r s' /\ inv ip T' q' s' /\
    T' !! ip = Some (x, e) /\ take HWADDR (next_hop e) = take HWADDR (sll_addr addr) /\
    no_hops e = hop_count fr + 1 /\
    realises (hwa_struct_head s)
      (Flood (sll_ifindex addr) (passed_on __RREQ (abs_msg fr))) evs /\
    outs s' = (send_log evs (outs s)).2.
Proof.
  intros Hinv Hb Harr Hbid Ht Hf Hd Hi. pose proof (arr_wf _ _ _ _ _ Harr) as Hwf.
  pose proof (arr_ne _ _ _ _ _ Harr) as Hne.
  set (R := a_lookup (stale_param s) 0 ip (a_lookup (stale_param s) (route_disc_flag fr) dip
              (abs_router s T q))).
  assert (a_routes R !! ip = None) as HR.
  { unfold R. rewrite !a_lookup_routes. cbn. by rewrite lookup_fmap, Hi. }
  edestruct (passes_on ip T q s addr b fr dip ip) as (r & s' & T' & q' & evs & H1 & H2 & H3 & H4 & H5);
    [done..| |].
  { unfold a_learn. rewrite (abs_msg_src _ _ _ Hwf). fold R. by rewrite HR. }
  destruct (T' !! ip) as [[x e]|] eqn:Ex; [|done]. injection H3 as E1 E2 E3 _ _.
  by exists r, s', T', q', evs, x, e.
Qed.

(** A second copy of a request that arrives over a path as long as the
    first is flooded again: the update policy also accepts an equal hop
    count. *)
Theorem equal_hops_flooded_again ip T q s addr b fr dip sip x e :
  inv ip T q s -> process_recvd_frame b = Def fr ->
  arrival (hwa_struct_head s) addr fr dip sip -> INT_MIN < cur_broadcast_id s < INT_MAX ->
  frame_type fr = __RREQ -> route_disc_flag fr <> 1 -> dip <> ip -> T !! dip = None ->
  T !! sip = Some (x, e) -> r_broadcast_id e = broadcast_id fr -> no_hops e = hop_count fr + 1 ->
  tv_sec (os_time (S (clock s))) - tv_sec (timestamp e) < stale_param s ->
  exists r s' T' q' evs, handle_ethernet_msg addr b s = Ok r s' /\ inv ip T' q' s' /\
    realises (hwa_struct_head s)
      (Flood (sll_ifindex addr) (passed_on __RREQ (abs_msg fr))) evs /\
    outs s' = (send_log evs (outs s)).2.
Proof.
  intros Hinv Hb Harr Hbid Ht Hf Hip Hd Hx Hbe Hho Hfresh. pose proof (arr_wf _ _ _ _ _ Harr) as Hwf.
  pose proof (arr_ne _ _ _ _ _ Harr) as Hne.
  set (R1 := a_lookup (stale_param s) (route_disc_flag fr) dip (abs_router s T q)).
  set (R := a_lookup (stale_param s) 0 sip R1).
  assert (a_clock R1 = S (clock s)) as Hc.
  { unfold R1, a_lookup. cbn. rewrite lookup_fmap, Hd. rewrite decide_False; [done|].
    rewrite fmap_empty_iff. intros ->. by rewrite lookup_empty in Hx. }
  assert (a_routes R !! sip = Some (abs_route (x, e))) as HR.
  { unfold R. rewrite a_lookup_routes. unfold R1 at 1. rewrite a_lookup_routes. cbn.
    rewrite lookup_fmap, Hx. cbn. rewrite decide_False, decide_True by done.
    unfold a_expired. cbn. rewrite Hc. rewrite Z.geb_leb, (proj2 (Z.leb_gt _ _)) by lia. done. }
  edestruct (passes_on ip T q s addr b fr dip sip) as (r & s' & T' & q' & evs & H1 & H2 & H3 & H4 & H5);
    [done..| |by exists r, s', T', q', evs].
  unfold a_learn. rewrite (abs_msg_src _ _ _ Hwf). fold R1. fold R. rewrite HR.
  rewrite decide_True; [done|]. right. cbn. lia.
Qed.

(** ** Route discovery, from the request to the data *)

(** A reply that reaches the node which parked data for its source. *)
Lemma spec_rrep_releases ip stale ports intf via m R pm q :
  m_type m = __RREP -> m_rdf m <> 1 -> m_dst m = ip ->
  a_routes R !! m_src m = None -> a_parked R = (m_src m, pm) :: q -> m_type pm = __DATA ->
  exists rs R', spec_frame ip stale ports intf via m R = (0, (R', [Unicast rs pm])) /\
    r_via rs = take HWADDR via /\ r_if rs = intf /\ a_parked R' = q.
Proof.
  intros Ht Hf Hd Hs Hp Hpm. rewrite spec_frame_switch. unfold a_duplicate.
  rewrite (proj2 (Z.eqb_neq _ _) Hf). cbn [andb]. unfold spec_switch. rewrite Ht.
  cbn [Z.eqb __RREQ __RREP Pos.eqb]. unfold spec_rrep.
  set (R1 := a_lookup stale 0 (m_src m) _).
  assert (a_routes R1 !! m_src m = None) as HR by (unfold R1; by rewrite !a_lookup_routes, Hs).
  assert (a_parked R1 = (m_src m, pm) :: q) as HP
    by (unfold R1; by rewrite !(proj2 (a_lookup_frame _ _ _ _))).
  unfold a_learn. rewrite HR. rewrite decide_True by done. cbn [a_parked upd_clock upd_routes].
  rewrite HP. cbn [a_take]. rewrite decide_True by done. rewrite Hpm. cbn [Z.eqb __DATA Pos.eqb].
  eexists _, _. split; [reflexivity|]. done.
Qed.

(** ** What was sent *)

Lemma send_log_ext evs o : exists new, (send_log evs o).2 = new ++ o.
Proof.
  revert o. induction evs as [|ev evs IH]; intros o; cbn; [by exists []|]. destruct (_ <? 0).
  - by exists [(ev, os_sendto (length o) ev)].
  - destruct (IH ((ev, os_sendto (length o) ev) :: o)) as [new ->].
    exists (new ++ [(ev, os_sendto (length o) ev)]). by rewrite <- app_assoc.
Qed.

(** If not everything was accepted, the log shows it. *)
Lemma send_log_failed evs o :
  all_accepted evs (length o) = false \/ (send_log evs o).1 <> 0 ->
  exists new, (send_log evs o).2 = new ++ o /\ Exists (fun er => er.2 <= 0) new.
Proof.
  revert o. induction evs as [|ev evs IH]; intros o; cbn; [by intros [?|?]|].
  set (r := os_sendto (length o) ev). destruct (Z.ltb_spec r 0) as [Hr|Hr].
  { intros _. exists [(ev, r)]. split; [done|]. apply Exists_cons_hd. cbn. lia. }
  destruct (send_log_ext evs ((ev, r) :: o)) as [new0 E0].
  destruct (Z.ltb_spec 0 r) as [Hr'|Hr'].
  - cbn [andb]. intros H. destruct (IH ((ev, r) :: o) H) as (new & -> & Hnew).
    exists (new ++ [(ev, r)]). split; [by rewrite <- app_assoc|]. apply Exists_app. by left.
  - intros _. exists (new0 ++ [(ev, r)]). split; [by rewrite E0, <- app_assoc|]. apply Exists_app. right.
    apply Exists_cons_hd. cbn. lia.
Qed.

(** The queue after an answer that parked data. *)
Lemma parked_first q (m : msg) k (l : pending) :
  abs_parked <$> q = (k, m) :: (abs_parked <$> l) ->
  exists g q1, q = (k, g) :: q1 /\ abs_msg g = m /\ abs_parked <$> q1 = abs_parked <$> l.
Proof. destruct q as [|[k' g] q1]; [done|]. cbn. intros [= -> <- E]. by exists g, q1. Qed.

(** C8: a route discovery completes.  A local process asks for data to be
    sent to a machine the node has no route to: the handler parks the data at the
    front of the queue and floods a request, or returns -1 because a datagram was
    not accepted.  When the next frame is a reply of that machine (not flagged), the
    handler takes the data from the queue, which is then what it was before, and sends
    it to the neighbour the reply came from, on the interface it came in on; nothing
    else is sent, and it returns 0 if the kernel accepts the frame.  The data frame
    carries the node's broadcast counter (two more than before the request) as its hop
    count. *)
Theorem discovery_completes sp dip data path ip T q s addr b fr :
  inv ip T q s -> request_ok sp dip data path -> next_portno s < __SERV_PORT ->
  INT_MIN < cur_broadcast_id s -> cur_broadcast_id s + 2 < INT_MAX ->
  dip <> ip -> T !! dip = None -> process_recvd_frame b = Def fr ->
  arrival (hwa_struct_head s) addr fr ip dip -> frame_type fr = __RREP ->
  route_disc_flag fr <> 1 ->
  exists r1 s1, handle_peer_msg sp s = Ok r1 s1 /\
    ((r1 = -1 /\ exists new, outs s1 = new ++ outs s /\ Exists (fun er => er.2 <= 0) new) \/
     (r1 = 1 /\ exists T1 q1 port g,
        inv ip T1 ((dip, g) :: q1) s1 /\ abs_parked <$> q1 = abs_parked <$> q /\
        abs_msg g = parked_msg ip port (abs_request sp) (cur_broadcast_id s + 2) /\
        exists r2 s2 T2 q2 f mac, handle_ethernet_msg addr b s1 = Ok r2 s2 /\
          inv ip T2 q2 s2 /\ abs_parked <$> q2 = abs_parked <$> q /\
          wire (abs_msg g) f /\ find_hwaddr (sll_ifindex addr) (hwa_struct_head s) = Some mac /\
          let ev := raw_event (take HWADDR (sll_addr addr)) mac (sll_ifindex addr) f in
          outs s2 = (ev, os_sendto (length (outs s1)) ev) :: outs s1 /\
          (0 <= os_sendto (length (outs s1)) ev -> r2 = 0))).
Proof.
  intros Hinv Hrq Hn Hb1 Hb2 Hne HT Hb Harr Ht Hf.
  pose proof (wp_handle_peer_msg sp dip data path ip T q s Hinv Hrq Hn Hb1) as Hw.
  destruct (proj1 (wp_run _ _ _) (Hw ltac:(lia) ltac:(done))) as (r1 & s1 & Hr1 & s0 & port & Hreg & Hinv0 & HA).
  clear Hw. destruct HA as (T1 & qq & evs1 & Hinv1 & _ & Ho1 & Hr & Habs1 & Hacc & Hk1).
  exists r1, s1. split; [done|].
  assert (hwa_struct_head s1 = hwa_struct_head s /\ cur_broadcast_id s0 = cur_broadcast_id s /\ outs s0 = outs s)
    as (Hh & Hb0 & Ho0).
  { destruct Hk1 as (_ & -> & _). by destruct Hreg as [(? & ? & ? & _ & ->) _]. }
  destruct Hr as [-> | ->].
  2: { left. split; [done|]. rewrite <- Ho0, Ho1. apply send_log_failed. left.
       destruct (all_accepted evs1 (length (outs s0))); [by specialize (Hacc eq_refl)|done]. }
  right. split; [done|]. specialize (Habs1 eq_refl).
  set (R0 := abs_router s0 T q) in *. set (rq := abs_request sp) in *.
  assert (q_dst rq = dip) as Hqd by (unfold rq; by rewrite (abs_request_eq _ _ _ _ Hrq)).
  unfold spec_request in Habs1. rewrite Hqd, decide_False in Habs1 by done. cbv zeta in Habs1.
  set (R1 := a_lookup _ _ _ _) in Habs1.
  assert (a_routes R1 !! dip = None) as HR1.
  { unfold R1. rewrite a_lookup_routes. unfold R0. cbn. by rewrite lookup_fmap, HT. }
  assert (a_ctr R1 = cur_broadcast_id s /\ a_parked R1 = abs_parked <$> q) as [Hc1 Hp1]
    by (unfold R1; rewrite (proj1 (a_lookup_frame _ _ _ _)), (proj2 (a_lookup_frame _ _ _ _)); by split).
  rewrite HR1 in Habs1. cbn [fst] in Habs1. rewrite Hc1, Hp1 in Habs1.
  pose proof (f_equal a_ctr Habs1) as Hc2. cbn in Hc2.
  pose proof (f_equal a_parked Habs1) as Hq1. cbn in Hq1.
  destruct (parked_first qq _ dip q Hq1) as (g & q1 & -> & Hg & Hq1').
  exists T1, q1, port, g. split; [done|]. split; [done|]. split; [done|].
  destruct (run_ethernet ip T1 ((dip, g) :: q1) s1 addr b fr ip dip)
    as (r2 & s2 & Hr2 & T2 & q2 & evs & Hinv2 & Habs2 & (evss & HF & ->) & [Ho Hok _] & _);
    [done|done|by rewrite Hh|lia|].
  pose proof (arr_wf _ _ _ _ _ Harr) as Hwf.
  destruct (spec_rrep_releases ip (stale_param s1) (abs_ports s1) (sll_ifindex addr) (sll_addr addr)
              (abs_msg fr) (abs_router s1 T1 ((dip, g) :: q1)) (parked_msg ip port rq (cur_broadcast_id s + 2))
              (abs_parked <$> q)) as (rs & R' & HV & Hvia & Hif & HpR); try done.
  { by rewrite (abs_msg_dst _ _ _ Hwf). }
  { by rewrite (abs_msg_src _ _ _ Hwf), Habs1. }
  { by rewrite (abs_msg_src _ _ _ Hwf), Habs1. }
  fold (verdict ip T1 ((dip, g) :: q1) s1 addr fr) in HV. rewrite HV in *. cbn [fst snd] in *.
  inversion HF as [|? e1 ? ? H1 H2]; subst. inversion H2; subst. cbn in Ho, Hok.
  inversion H1 as [r' m' mac f Hmac Hwire| |]; subst. cbn in Ho, Hok.
  exists r2, s2, T2, q2, f, mac. split_and!; try done.
  - by rewrite Hg.
  - by rewrite <- Hh, <- Hif.
  - rewrite Ho, Hvia, Hif. by match goal with |- context [if ?b then _ else _] => destruct b end.
  - intros Hge. apply Hok. rewrite Hvia, Hif. by rewrite (proj2 (Z.ltb_ge _ _) Hge).
Qed.

(** C5: a request of a local process.  [handle_peer_msg] returns 1 or -1 and
    keeps the invariant; it registers the process in the port table (all other
    ports keep their owners), then does what the protocol specifies: deliver
    to the local owner of the destination port, send along the known route, or
    flood a request and park the data.  The datagrams sent are the wire forms
    of the specified ones up to the first that fails; with result 1 the new
    state is the specified one, and the result is 1 if all are accepted. *)
Theorem handle_peer_msg_refines sp dip data path ip T q s :
  inv ip T q s -> request_ok sp dip data path -> next_portno s < __SERV_PORT ->
  INT_MIN < cur_broadcast_id s -> cur_broadcast_id s + 1 < INT_MAX ->
  (dip = ip -> is_Some (abs_ports s (sp_destport sp))) ->
  exists r s' s1 port, handle_peer_msg sp s = Ok r s' /\
    registered path s s1 port /\ inv ip T q s1 /\
    answers ip (spec_request ip (stale_param s) (abs_ports s1) port (abs_request sp)
                  (abs_router s1 T q)) s1 r s'.
Proof.
  intros H1 H2 H3 H4 H5 H6.
  destruct (proj1 (wp_run _ _ _) (wp_handle_peer_msg sp dip data path ip T q s H1 H2 H3 H4 H5 H6))
    as (r & s' & Hr & s1 & port & H). by exists r, s', s1, port.
Qed.

(** A local process that addresses a port of its own machine which no
    process owns stops the daemon: the assertion on the port entry fails. *)
Theorem unknown_local_port_aborts sp dip data path ip T q s :
  inv ip T q s -> request_ok sp dip data path -> dip = ip ->
  (exists e, find_path (sp_filename sp) (port_spath_head s) = Def (Some e)) ->
  find_port (sp_destport sp) (port_spath_head s) = None ->
  handle_peer_msg sp s = Aborted AssertFailed.
Proof.
  intros Hinv Hrq Ed [e He] Hno.
  pose proof (ready_ip _ _ _ (inv_ready _ _ _ _ Hinv)) as (self & Hs & Hself).
  unfold handle_peer_msg. erewrite bind_Ok.
  2: { unfold get_self_ip. erewrite bind_Ok; [|done]. by rewrite Hs. }
  cbn beta iota. rewrite (bind_Ok _ _ _ (Some e) s).
  2: { unfold fetch_entry_path. erewrite bind_Ok; [|done].
       destruct (port_spath_head s) as [|x l] eqn:El; [done|]. rewrite <- El in *.
       erewrite bind_Ok; [|unfold lift; by rewrite He]. reflexivity. }
  cbn beta iota.
  assert (forall b k, cstr b = Some k -> resolves k -> exists v, copy_vmname b s = Ok v s) as Hcv.
  { intros b k Hb Hk. assert (wp (copy_vmname b) (fun _ s' => s' = s) s)
      as (v & s' & Hv & ->)%wp_run by (by eapply wp_copy_vmname). by exists v. }
  destruct (Hcv self ip Hself) as [v1 Hv1]; [apply Hinv|]. erewrite bind_Ok; [|exact Hv1].
  destruct (Hcv (sp_destip sp) dip) as [v2 Hv2]; [apply Hrq|apply Hrq|].
  erewrite bind_Ok; [|exact Hv2].
  erewrite bind_Ok; [|unfold lift; by rewrite (streq_Some _ _ ip dip Hself (rq_dst _ _ _ _ Hrq))].
  rewrite bool_decide_eq_true_2 by done. erewrite bind_Ok; [|done]. by rewrite Hno.
Qed.
End Behaviour.

(** ** Witnesses *)

Definition demo_data : odr_frame := demo_frame __DATA 30 1 1 3 (chars "hello").

Lemma demo_data_arrival :
  @arrival (demo_os (demo_ifs 2)) (demo_hwa 2) demo_arrival_addr demo_data (vm_ip 3) (vm_ip 1).
Proof.
  apply demo_arrival; try done; [by repeat constructor|apply Nat.ltb_lt; reflexivity].
Qed.

Lemma demo_bid : INT_MIN < cur_broadcast_id demo_node < INT_MAX.
Proof. done. Qed.

Lemma handle_ethernet_msg_refines_witness :
  exists r s', @handle_ethernet_msg (demo_os (demo_ifs 2)) demo_arrival_addr (demo_wire demo_data) demo_node
               = Ok r s' /\
    @meets (demo_os (demo_ifs 2)) (vm_ip 2)
      (@verdict (demo_os (demo_ifs 2)) (vm_ip 2) demo_routes [] demo_node demo_arrival_addr demo_data).2
      (@verdict (demo_os (demo_ifs 2)) (vm_ip 2) demo_routes [] demo_node demo_arrival_addr demo_data).1
      demo_node r s'.
Proof.
  exact (@handle_ethernet_msg_refines (demo_os (demo_ifs 2)) (vm_ip 2) demo_routes [] demo_node
           demo_arrival_addr (demo_wire demo_data) demo_data (vm_ip 3) (vm_ip 1) demo_inv
           (demo_wire_recvd _ (wf_shape _ _ _ (arr_wf _ _ _ _ _ demo_data_arrival)))
           demo_data_arrival demo_bid).
Defined.

Lemma frame_traffic_bound_witness :
  exists r s', @handle_ethernet_msg (demo_os (demo_ifs 2)) demo_arrival_addr (demo_wire demo_data) demo_node
               = Ok r s' /\
    (length (outs s') <= length (outs demo_node) + S (length (hwa_struct_head demo_node)))%nat /\
    cur_broadcast_id demo_node <= cur_broadcast_id s' <= cur_broadcast_id demo_node + 1.
Proof.
  exact (@frame_traffic_bound (demo_os (demo_ifs 2)) (vm_ip 2) demo_routes [] demo_node
           demo_arrival_addr (demo_wire demo_data) demo_data (vm_ip 3) (vm_ip 1) demo_inv
           (demo_wire_recvd _ (wf_shape _ _ _ (arr_wf _ _ _ _ _ demo_data_arrival)))
           demo_data_arrival demo_bid).
Defined.

Lemma routes_never_get_worse_witness :
  exists r s' T' q', @handle_ethernet_msg (demo_os (demo_ifs 2)) demo_arrival_addr (demo_wire demo_data)
                       demo_node = Ok r s' /\ @inv (demo_os (demo_ifs 2)) (vm_ip 2) T' q' s' /\
    forall k xe, demo_routes !! k = Some xe ->
      (exists xe', T' !! k = Some xe' /\ no_worse (abs_route xe') (abs_route xe)) \/
      @dropped (demo_os (demo_ifs 2)) 5 (abs_msg demo_data) (abs_router demo_node demo_routes []) k
        (abs_route xe).
Proof.
  exact (@routes_never_get_worse (demo_os (demo_ifs 2)) (vm_ip 2) demo_routes [] demo_node
           demo_arrival_addr (demo_wire demo_data) demo_data (vm_ip 3) (vm_ip 1) demo_inv
           (demo_wire_recvd _ (wf_shape _ _ _ (arr_wf _ _ _ _ _ demo_data_arrival)))
           demo_data_arrival demo_bid).
Defined.

(** A flagged request of vm1 with the broadcast id the table already has. *)
Definition demo_flagged : odr_frame :=
  let f := demo_frame __RREQ 20 0 1 3 [] in
  mkFrame (frame_type f) (broadcast_id f) (hop_count f) (payload_len f) 1 (src_port f) (dst_port f)
          (dest_ip f) (src_ip f) (payload f).

Lemma demo_flagged_wf : frame_wf demo_flagged (vm_ip 3) (vm_ip 1).
Proof.
  destruct (demo_frame_wf __RREQ 20 0 1 3 []) as [[_ H1 H2 H3] H4 H5 H6];
    try done; [constructor|apply Nat.ltb_lt; reflexivity|].
  split; try done. split; try done. by repeat constructor.
Qed.

Lemma flagged_duplicate_dropped_witness :
  @handle_ethernet_msg (demo_os (demo_ifs 2)) demo_arrival_addr (demo_wire demo_flagged) demo_node
  = Ok 1 demo_node.
Proof.
  assert (demo_routes !! vm_ip 1 = Some (2%positive, demo_entry 1)) as Hx by (by vm_compute).
  apply (@flagged_duplicate_dropped (demo_os (demo_ifs 2)) (vm_ip 2) demo_routes [] demo_node
           demo_arrival_addr (demo_wire demo_flagged) demo_flagged (vm_ip 3) (vm_ip 1) 2%positive
           (demo_entry 1) demo_inv (demo_wire_recvd _ (wf_shape _ _ _ demo_flagged_wf))
           demo_flagged_wf eq_refl Hx).
  done.
Defined.

Lemma demo_arrival_of ty bid hop src dst :
  int_ok ty = true -> int_ok bid = true -> int_ok hop = true -> int_ok (hop + 1) = true ->
  1 <= src <= 10 -> 1 <= dst <= 10 -> vm_ip dst <> vm_ip src ->
  @arrival (demo_os (demo_ifs 2)) (demo_hwa 2) demo_arrival_addr (demo_frame ty bid hop src dst [])
    (vm_ip dst) (vm_ip src) /\
  process_recvd_frame (demo_wire (demo_frame ty bid hop src dst []))
    = Def (demo_frame ty bid hop src dst []).
Proof.
  intros H1 H2 H3 H4 H5 H6 H7.
  assert (@arrival (demo_os (demo_ifs 2)) (demo_hwa 2) demo_arrival_addr
    (demo_frame ty bid hop src dst []) (vm_ip dst) (vm_ip src)) as Ha.
  { apply demo_arrival; try done; [constructor|apply Nat.ltb_lt; reflexivity]. }
  split; [done|]. apply demo_wire_recvd. apply (arr_wf _ _ _ _ _ Ha).
Qed.

Lemma unknown_type_refused_witness :
  exists s' T' q', @handle_ethernet_msg (demo_os (demo_ifs 2)) demo_arrival_addr
                     (demo_wire (demo_frame 9 1 0 1 3 [])) demo_node = Ok (-1) s' /\
    @inv (demo_os (demo_ifs 2)) (vm_ip 2) T' q' s' /\ outs s' = [] /\
    abs_router s' T' q' = @a_lookup (demo_os (demo_ifs 2)) 5 0 (vm_ip 1)
      (@a_lookup (demo_os (demo_ifs 2)) 5 0 (vm_ip 3) (abs_router demo_node demo_routes [])).
Proof.
  destruct (demo_arrival_of 9 1 0 1 3) as [Ha Hp];
    [done..|by apply (bool_decide_eq_false_1 _); vm_compute|].
  apply (@unknown_type_refused (demo_os (demo_ifs 2)) (vm_ip 2) demo_routes [] demo_node
           demo_arrival_addr _ _ (vm_ip 3) (vm_ip 1) demo_inv Hp Ha demo_bid); [|done].
  intros H. repeat (apply elem_of_cons in H as [H|H]; [done|]). by apply not_elem_of_nil in H.
Defined.

Lemma own_request_relearned_witness :
  exists r s' T' q' evs x e,
    @handle_ethernet_msg (demo_os (demo_ifs 2)) demo_arrival_addr
      (demo_wire (demo_frame __RREQ 11 1 2 5 [])) demo_node = Ok r s' /\
    @inv (demo_os (demo_ifs 2)) (vm_ip 2) T' q' s' /\
    T' !! vm_ip 2 = Some (x, e) /\ take HWADDR (next_hop e) = take HWADDR demo_mac /\
    no_hops e = 2 /\
    realises (demo_hwa 2)
      (Flood 3 (passed_on __RREQ (abs_msg (demo_frame __RREQ 11 1 2 5 [])))) evs /\
    outs s' = (@send_log (demo_os (demo_ifs 2)) evs []).2.
Proof.
  destruct (demo_arrival_of __RREQ 11 1 2 5) as [Ha Hp];
    [done..|by apply (bool_decide_eq_false_1 _); vm_compute|].
  assert (demo_routes !! vm_ip 5 = None) as H5 by (by vm_compute).
  assert (demo_routes !! vm_ip 2 = None) as H2 by (by vm_compute).
  exact (@own_request_relearned (demo_os (demo_ifs 2)) (vm_ip 2) demo_routes [] demo_node
           demo_arrival_addr _ _ (vm_ip 5) demo_inv Hp Ha demo_bid eq_refl ltac:(done) H5 H2).
Defined.

Lemma equal_hops_flooded_again_witness :
  exists r s' T' q' evs,
    @handle_ethernet_msg (demo_os (demo_ifs 2)) demo_arrival_addr
      (demo_wire (demo_frame __RREQ 20 1 1 5 [])) demo_node = Ok r s' /\
    @inv (demo_os (demo_ifs 2)) (vm_ip 2) T' q' s' /\
    realises (demo_hwa 2)
      (Flood 3 (passed_on __RREQ (abs_msg (demo_frame __RREQ 20 1 1 5 [])))) evs /\
    outs s' = (@send_log (demo_os (demo_ifs 2)) evs []).2.
Proof.
  destruct (demo_arrival_of __RREQ 20 1 1 5) as [Ha Hp];
    [done..|by apply (bool_decide_eq_false_1 _); vm_compute|].
  assert (demo_routes !! vm_ip 5 = None) as H5 by (by vm_compute).
  assert (demo_routes !! vm_ip 1 = Some (2%positive, demo_entry 1)) as H1 by (by vm_compute).
  exact (@equal_hops_flooded_again (demo_os (demo_ifs 2)) (vm_ip 2) demo_routes [] demo_node
           demo_arrival_addr _ _ (vm_ip 5) (vm_ip 1) 2%positive (demo_entry 1) demo_inv Hp Ha demo_bid
           eq_refl ltac:(done) ltac:(done) H5 H1 eq_refl eq_refl ltac:(done)).
Defined.

(** A request for the server of vm [k]. *)
Definition demo_request (ip : string) (port : Z) : send_params :=
  mkSendParams (lit ip) (lit "/tmp/file_and_1") (lit "hello") port 0.

Lemma demo_request_ok ip k port :
  1 <= k <= 10 -> cstr (lit ip) = Some (vm_ip k) -> int_ok port = true ->
  @request_ok (demo_os (demo_ifs 2)) (demo_request ip port) (vm_ip k) (chars "hello")
    (chars "/tmp/file_and_1").
Proof.
  intros Hk Hip Hp. split; try done; [by apply demo_resolves| |]; apply Nat.ltb_lt; reflexivity.
Qed.

Lemma handle_peer_msg_refines_witness :
  exists r s' s1 port, @handle_peer_msg (demo_os (demo_ifs 2)) (demo_request "130.245.156.23" 5500) demo_node
                       = Ok r s' /\
    registered (chars "/tmp/file_and_1") demo_node s1 port /\
    @inv (demo_os (demo_ifs 2)) (vm_ip 2) demo_routes [] s1 /\
    @answers (demo_os (demo_ifs 2)) (vm_ip 2)
      (@spec_request (demo_os (demo_ifs 2)) (vm_ip 2) 5 (abs_ports s1) port
         (abs_request (demo_request "130.245.156.23" 5500)) (abs_router s1 demo_routes [])) s1 r s'.
Proof.
  apply (@handle_peer_msg_refines (demo_os (demo_ifs 2)) (demo_request "130.245.156.23" 5500) (vm_ip 3)
           (chars "hello") (chars "/tmp/file_and_1") (vm_ip 2) demo_routes [] demo_node demo_inv).
  - apply (demo_request_ok "130.245.156.23" 3 5500); [done|by vm_compute|done].
  - done.
  - done.
  - done.
  - done.
Defined.

Lemma discovery_completes_witness :
  exists s1 T1 q1 port g r2 s2 T2 q2 f mac,
    @handle_peer_msg (demo_os (demo_ifs 2)) (demo_request "130.245.156.25" 5500) demo_node = Ok 1 s1 /\
    @inv (demo_os (demo_ifs 2)) (vm_ip 2) T1 ((vm_ip 5, g) :: q1) s1 /\
    abs_msg g = parked_msg (vm_ip 2) port (abs_request (demo_request "130.245.156.25" 5500)) 12 /\
    @handle_ethernet_msg (demo_os (demo_ifs 2)) demo_arrival_addr
      (demo_wire (demo_frame __RREP 7 1 5 2 [])) s1 = Ok r2 s2 /\ r2 = 0 /\
    @inv (demo_os (demo_ifs 2)) (vm_ip 2) T2 q2 s2 /\ abs_parked <$> q2 = [] /\
    wire (abs_msg g) f /\ find_hwaddr 3 (demo_hwa 2) = Some mac /\
    map fst (outs s2) = raw_event (take HWADDR demo_mac) mac 3 f :: map fst (outs s1).
Proof.
  destruct (demo_arrival_of __RREP 7 1 5 2) as [Ha Hp];
    [done..|by apply (bool_decide_eq_false_1 _); vm_compute|].
  assert (demo_routes !! vm_ip 5 = None) as H5 by (by vm_compute).
  assert (cstr (lit "130.245.156.25") = Some (vm_ip 5)) as Hl by (by vm_compute).
  pose proof (demo_request_ok "130.245.156.25" 5 5500 ltac:(lia) Hl eq_refl) as Hrq.
  assert (forall n ev, 0 < @os_sendto (demo_os (demo_ifs 2)) n ev) as Hall
    by (intros n ev; apply (Z.lt_le_trans 0 1); [done|apply Z.le_max_l]).
  assert (vm_ip 5 <> vm_ip 2) as Hne by (by apply (bool_decide_eq_false_1 _); vm_compute).
  destruct (@discovery_completes (demo_os (demo_ifs 2)) (demo_request "130.245.156.25" 5500) (vm_ip 5)
           (chars "hello") (chars "/tmp/file_and_1") (vm_ip 2) demo_routes [] demo_node
           demo_arrival_addr _ (demo_frame __RREP 7 1 5 2 []) demo_inv Hrq eq_refl eq_refl eq_refl
           Hne H5 Hp Ha eq_refl) as (r1 & s1 & E1 & [(-> & new & _ & _)|(-> & T1 & q1 & port & g & I1 & _ & G &
             r2 & s2 & T2 & q2 & f & mac & E2 & I2 & Q2 & W & M & O & R)]).
  - discriminate.
  - exfalso. revert E1. unfold demo_node. vm_compute. discriminate.
  - exists s1, T1, q1, port, g, r2, s2, T2, q2, f, mac. split; [exact E1|]. split; [exact I1|]. split; [exact G|].
    split; [exact E2|]. split; [apply R, Z.lt_le_incl, Hall|]. split; [exact I2|]. split; [exact Q2|].
    split; [exact W|]. split; [exact M|]. rewrite O. reflexivity.
Defined.

Lemma unknown_local_port_aborts_witness :
  @handle_peer_msg (demo_os (demo_ifs 2))
    (mkSendParams (lit "130.245.156.22") (lit "servpathfile") (lit "hello") 4242 0) demo_node
  = Aborted AssertFailed.
Proof.
  apply (@unknown_local_port_aborts (demo_os (demo_ifs 2))
           (mkSendParams (lit "130.245.156.22") (lit "servpathfile") (lit "hello") 4242 0) (vm_ip 2)
           (chars "hello") (chars "servpathfile") (vm_ip 2) demo_routes [] demo_node demo_inv).
  - split; try done; [by apply demo_resolves|apply Nat.ltb_lt; reflexivity|apply Nat.ltb_lt; reflexivity].
  - reflexivity.
  - eexists. reflexivity.
  - reflexivity.
Defined.
