(* ===== verification/NetSim.v ===== *)
(** * A network of daemons

    The handlers of odr_and.c, with their heaps and buffers, on every machine of
    a network, exchanging the bytes they hand to [sendto] over Ethernet
    segments.  Every run of such a network is a run of the abstract network of
    file Network, step by step, so that what is proved there holds of the
    routing tables and of the frames of the program. *)

From stdpp Require Import functions.
From S2P Require Import Prelude CLib Inet Frame DList Node Demo Utils Ports RTable Print PQueue Send.
From S2P Require Import Handlers Spec SpecFacts Network NetDemo Flood Shortest Refine Peer Behaviour.

(** A frame on its way, as [recvfrom] will deliver it. *)
Record cpacket := CPacket { c_to : buf; c_addr : sockaddr_ll; c_bytes : buf }.

(** The processes, the frames on the way, and the datagrams for local processes. *)
Record cnet := CNet {
  c_node : buf -> node;
  c_wire : list cpacket;
  c_log : list (buf * buf * buf);
}.

Section Ethernet.
Context (tp : topology).

(** What becomes of a frame machine [n] has sent: it reaches the other
    interfaces of the segment, all of them or those with the destination
    address; [recvfrom] reports the interface and the source address of the
    frame. *)
Definition carry (n : buf) (ev : event) : list cpacket :=
  match ev with
  | SendRaw addr frame =>
      let dst := take HWADDR (sll_addr addr) in
      (fun q : buf * Z =>
         CPacket q.1 (mkSll (sll_protocol addr) q.2 ARPHRD_ETHER 0 (Z.of_nat HWADDR)
                            (take HWADDR (drop HWADDR frame) ++ [NUL; NUL])) frame)
        <$> filter (fun q => dst = bcast_mac \/ t_mac tp q = dst) (peers tp (n, sll_ifindex addr))
  | SendUnix _ _ => []
  end.

Definition datagrams (n : buf) (evs : list event) : list (buf * buf * buf) :=
  omap (fun ev => match ev with SendUnix path data => Some (n, path, data) | _ => None end) evs.

(** The [sendto] calls of a step that were accepted, in order. *)
Definition transmitted (s s' : node) : list event :=
  omap (fun er : event * Z => if er.2 <? 0 then None else Some er.1)
       (rev (take (length (outs s') - length (outs s)) (outs s'))).

(** Every [sendto] of the step was accepted. *)
Definition accepted (s s' : node) : Prop :=
  Forall (fun er : event * Z => 0 < er.2) (take (length (outs s') - length (outs s)) (outs s')).

#[export] Instance accepted_dec s s' : Decision (accepted s s').
Proof. unfold accepted. apply _. Defined.

Definition cmoved (cn : cnet) (n : buf) (s' : node) (rest : list cpacket) : cnet :=
  let evs := transmitted (c_node cn n) s' in
  CNet (<[n := s']> (c_node cn)) (rest ++ (evs ≫= carry n)) (c_log cn ++ datagrams n evs).

Context (os_of : buf -> OS).

(** A machine receives a frame, or a request of a local process; a frame is
    lost.  A handler that returns a negative value ends the daemon, so it does
    not; and the steps are those in which the kernel accepts every datagram. *)
Inductive cevent := CRecv (c : cpacket) | CAsk (n : buf) (sp : send_params) | CLose (c : cpacket).

Inductive cstep (cn : cnet) : cevent -> cnet -> Prop :=
  | cstep_recv l1 c l2 r s' :
      c_wire cn = l1 ++ c :: l2 ->
      @handle_ethernet_msg (os_of (c_to c)) (c_addr c) (c_bytes c) (c_node cn (c_to c)) = Ok r s' ->
      0 <= r -> accepted (c_node cn (c_to c)) s' ->
      cstep cn (CRecv c) (cmoved cn (c_to c) s' (l1 ++ l2))
  | cstep_ask n sp r s' :
      @handle_peer_msg (os_of n) sp (c_node cn n) = Ok r s' ->
      0 <= r -> accepted (c_node cn n) s' ->
      cstep cn (CAsk n sp) (cmoved cn n s' (c_wire cn))
  | cstep_lose l1 c l2 :
      c_wire cn = l1 ++ c :: l2 -> cstep cn (CLose c) (CNet (c_node cn) (l1 ++ l2) (c_log cn)).

(** The other case: the handler returns, but the kernel has refused a datagram. *)
Definition refused (cn : cnet) (e : cevent) : Prop :=
  match e with
  | CRecv c => exists r s', @handle_ethernet_msg (os_of (c_to c)) (c_addr c) (c_bytes c) (c_node cn (c_to c)) = Ok r s' /\
                            ~ accepted (c_node cn (c_to c)) s'
  | CAsk n sp => exists r s', @handle_peer_msg (os_of n) sp (c_node cn n) = Ok r s' /\ ~ accepted (c_node cn n) s'
  | CLose _ => False
  end.
End Ethernet.

(** ** How the two networks correspond *)

Section Correspondence.
Context (tp : topology) (os_of : buf -> OS) (stale_of : buf -> Z) (known : buf -> Prop).

(** A message of one of the four types between machines with known addresses. *)
Definition msg_known (m : msg) : Prop :=
  known (m_dst m) /\ known (m_src m) /\ m_dst m <> m_src m /\ m_type m ∈ [__RREQ; __RREP; __DATA; __ASENT].

Definition out_msg (Q : msg -> Prop) (o : out) : Prop :=
  match o with Unicast _ m | Flood _ m => Q m | Deliver _ _ => True end.

Definition msgs_known (res : router * list out) : Prop :=
  Forall (fun km => msg_known km.2) (a_parked res.1) /\ Forall (out_msg msg_known) res.2.

(** The interfaces of machine [n] are those of the topology: the ones it floods
    on, and the hardware addresses. *)
Definition flooding (h : hwa_info) : Prop := hwa_base h <> chars "lo" /\ hwa_base h <> chars "eth0".
#[export] Instance flooding_dec h : Decision (flooding h).
Proof. unfold flooding. solve_decision. Defined.

Record hw_match (n : buf) (ifs : list hwa_info) : Prop := {
  hw_flood : (fun h => (if_index h, if_haddr h)) <$> filter flooding ifs
             = (fun i => (i, t_mac tp (n, i))) <$> ifs_of tp n;
  hw_find : forall i, (n, i) ∈ t_ports tp -> find_hwaddr i ifs = Some (t_mac tp (n, i));
}.

(** The bytes of a frame carry the message of a packet. *)
Definition carries (c : cpacket) (p : packet) : Prop :=
  c_to c = p_to p /\ sll_ifindex (c_addr c) = p_if p /\
  take HWADDR (sll_addr (c_addr c)) = p_from p /\ (HWADDR <= length (sll_addr (c_addr c)))%nat /\
  exists fr dip sip, process_recvd_frame (c_bytes c) = Def fr /\ frame_wf fr dip sip /\
    abs_msg fr = p_msg p.

(** Machine [n] is in the state [R]. *)
Definition runs (n : buf) (s : node) (R : router) : Prop :=
  stale_param s = stale_of n /\ hw_match n (hwa_struct_head s) /\
  exists T q, @inv (os_of n) n T q s /\ abs_router s T q = R.

Record sim (cn : cnet) (w : net) : Prop := {
  sim_nodes : forall n i, (n, i) ∈ t_ports tp -> runs n (c_node cn n) (n_router w n);
  sim_wire : Forall2 carries (c_wire cn) (n_pool w);
  sim_log : c_log cn = n_log w;
  sim_sound : net_sound tp w;
  sim_known : Forall (fun p => msg_known (p_msg p)) (n_pool w) /\
              forall n, Forall (fun km => msg_known km.2) (a_parked (n_router w n));
  sim_absent : forall n, (forall i, (n, i) ∉ t_ports tp) -> a_routes (n_router w n) = ∅;
}.

(** What is assumed of the machines: hardware addresses of six bytes that are not
    the broadcast address, and name services that know the known addresses, the
    machines' own among them. *)
Record wired : Prop := {
  wd_mac_len : forall p, length (t_mac tp p) = HWADDR;
  wd_mac : forall p, t_mac tp p <> bcast_mac;
  wd_known : forall n b, known b -> @resolves (os_of n) b;
  wd_self : forall n i, (n, i) ∈ t_ports tp -> known n;
}.

(** Steps within the range of [int]: the hop count of the frame received and the
    broadcast counter; for a request also the conditions [msg_send] and the port
    table give. *)
Definition recv_in_range (cn : cnet) (c : cpacket) : Prop :=
  (forall fr, process_recvd_frame (c_bytes c) = Def fr -> int_ok (hop_count fr + 1) = true) /\
  INT_MIN < cur_broadcast_id (c_node cn (c_to c)) < INT_MAX.

Definition ask_in_range (cn : cnet) (n : buf) (sp : send_params) : Prop :=
  exists i dip data path, (n, i) ∈ t_ports tp /\ known dip /\
    @request_ok (os_of n) sp dip data path /\ next_portno (c_node cn n) < __SERV_PORT /\
    INT_MIN < cur_broadcast_id (c_node cn n) /\ cur_broadcast_id (c_node cn n) + 1 < INT_MAX /\
    (dip = n -> is_Some (abs_ports (c_node cn n) (sp_destport sp))).

Definition in_range (cn : cnet) (e : cevent) : Prop :=
  match e with
  | CRecv c => recv_in_range cn c
  | CAsk n sp => ask_in_range cn n sp
  | CLose _ => True
  end.

(** The events that can happen: frames on the way arrive or are lost. *)
Definition possible (cn : cnet) (e : cevent) : Prop :=
  match e with CRecv c | CLose c => c ∈ c_wire cn | CAsk _ _ => True end.

Inductive crun (cn0 : cnet) : cnet -> Prop :=
  | crun_nil : crun cn0 cn0
  | crun_snoc cn e cn' : crun cn0 cn -> in_range cn e -> cstep tp os_of cn e cn' -> crun cn0 cn'.
End Correspondence.

(** * Lemmas *)

Section Known.
Context {os : OS} (known : buf -> Prop).
Abbreviation msg_known := (msg_known known).
Abbreviation msgs_known := (msgs_known known).

Lemma a_park_known ip intf m R :
  known ip -> msg_known m -> m_dst m <> ip ->
  Forall (fun km => msg_known km.2) (a_parked R) -> msgs_known (a_park m intf ip R).
Proof.
  intros Hip Hm Hne Hq. split; [by constructor|]. apply Forall_singleton.
  destruct Hm as (H1 & _ & _). split_and!; [done..|by left].
Qed.

(** A router sends and parks messages of known machines only. *)
Lemma spec_frame_known ip stale ports intf via m R :
  known ip -> msg_known m -> Forall (fun km => msg_known km.2) (a_parked R) ->
  msgs_known (spec_frame ip stale ports intf via m R).2.
Proof.
  intros Hip Hm HR. pose proof Hm as (Hd & Hs & Hne & Hty). rewrite spec_frame_switch.
  destruct (a_duplicate m R); [split; [done|constructor]|]. set (R2 := a_lookup _ _ _ _).
  assert (a_parked R2 = a_parked R) as Hp2 by (unfold R2; by rewrite !(proj2 (a_lookup_frame _ _ _ _))).
  destruct (a_learn m intf via R2) as [[b rs] R3] eqn:EL.
  destruct (a_learn_frame _ _ _ _ _ _ _ EL) as (_ & Hp3 & _).
  assert (Forall (fun km => msg_known km.2) (a_parked R3)) as HR3 by (by rewrite Hp3, Hp2).
  assert (forall h i, msg_known (reply m h i)) as Hrep by (intros h i; split_and!; [done..|by right; left]).
  assert (forall m' h, msg_known m' -> msg_known (fwd_reply m' h)) as Hfwd
    by (intros m' h (? & ? & ? & _); split_and!; [done..|by right; left]).
  assert (forall ty, ty ∈ [__RREQ; __RREP; __DATA; __ASENT] -> msg_known (passed_on ty m)) as Hpass
    by (intros ty Hin; by split_and!).
  unfold spec_switch, spec_rreq, spec_rrep, spec_data, spec_asent. rewrite EL.
  destruct (m_type m =? __RREQ); [|destruct (m_type m =? __RREP);
    [|destruct (m_type m =? __DATA); [|destruct (m_type m =? __ASENT)]]]; cbn [snd].
  - destruct (decide _); [|destruct (a_routes R3 !! _), b]; (split; [done|]);
      repeat first [apply Forall_cons_2; [first [apply Hrep | apply Hpass; set_solver]|] | apply Forall_nil_2].
  - destruct (decide _).
    + destruct (a_take _ _) as [om q] eqn:Et.
      destruct (a_take_sound _ _ _ _ _ HR3 Et) as [Hq Hpm]. split; [done|].
      destruct om as [pm|]; [|constructor]. specialize (Hpm pm eq_refl). cbn in Hpm.
      destruct (m_type pm =? __RREP); [by apply Forall_singleton, Hfwd|].
      destruct (m_type pm =? __DATA); [by apply Forall_singleton|constructor].
    + destruct (a_routes R3 !! _); [split; [done|]; by apply Forall_singleton, Hfwd|by apply a_park_known].
  - destruct (decide _); [split; [done|]; destruct (ports _); [by apply Forall_singleton|constructor]|].
    destruct (a_routes R3 !! _); [split; [done|]; apply Forall_singleton; by split_and!|by apply a_park_known].
  - split; [done|]. destruct b; [apply Forall_singleton, Hpass; set_solver|constructor].
  - split; [|constructor]. cbn [fst]. by rewrite Hp2.
Qed.

Lemma spec_request_known ip stale ports port rq R :
  known ip -> known (q_dst rq) -> Forall (fun km => msg_known km.2) (a_parked R) ->
  msgs_known (spec_request ip stale ports port rq R).
Proof.
  intros Hip Hd HR. unfold spec_request. destruct (decide _).
  { split; [done|]. destruct (ports _); [by apply Forall_singleton|constructor]. }
  pose proof (proj2 (a_lookup_frame stale (q_flag rq) (q_dst rq) R)) as Hp. cbv zeta.
  destruct (a_routes _ !! _); (split; [cbn; rewrite Hp|apply Forall_singleton]); [done| | |].
  - split_and!; [done..|by right; right; left].
  - constructor; [split_and!; [done..|by right; right; left]|done].
  - split_and!; [done..|by left].
Qed.

Lemma emit_known tp n outs :
  Forall (out_msg msg_known) outs -> Forall (fun p => msg_known (p_msg p)) (emit_outs tp n outs).
Proof.
  intros Ho. apply Forall_forall. intros p (o & Hp & Hin)%list_elem_of_bind.
  rewrite Forall_forall in Ho. specialize (Ho o Hin). destruct o as [r m|ex m|]; cbn in Hp.
  - by apply list_elem_of_fmap in Hp as (q & -> & _).
  - apply list_elem_of_bind in Hp as (i & Hp & _). by apply list_elem_of_fmap in Hp as (q & -> & _).
  - by apply elem_of_nil in Hp.
Qed.
End Known.

(** ** On the wire *)

Section Wire.
Context (tp : topology) (os_of : buf -> OS) (known : buf -> Prop).
Hypothesis Hwired : wired tp os_of known.

(** A frame sent with a raw event and received. *)
Lemma carried m f dst i n q j :
  wire m f -> length dst = HWADDR ->
  carries (CPacket q (mkSll j i ARPHRD_ETHER 0 (Z.of_nat HWADDR)
             (take HWADDR (drop HWADDR (eth_frame (take HW_ADDR dst) (take HW_ADDR (t_mac tp n)) f)) ++
              [NUL; NUL]))
             (eth_frame (take HW_ADDR dst) (take HW_ADDR (t_mac tp n)) f))
          (Packet q i (t_mac tp n) m).
Proof using Hwired.
  intros (g & dip & sip & Hg & <- & ->) Hd. pose proof (wd_mac_len _ _ _ Hwired n) as Hm.
  assert (take HW_ADDR dst = dst) as -> by (by apply take_ge; rewrite Hd).
  assert (take HW_ADDR (t_mac tp n) = t_mac tp n) as -> by (by apply take_ge; rewrite Hm).
  assert (take HWADDR (drop HWADDR (eth_frame dst (t_mac tp n) (convert_host_net_order g))) = t_mac tp n) as ->.
  { unfold eth_frame. rewrite (take_ge dst) by (by rewrite Hd).
    rewrite (take_ge (t_mac tp n)) by (by rewrite Hm).
    rewrite drop_app_length' by done. by rewrite take_app_length' by done. }
  split_and!; [done|done| | |].
  - cbn [c_addr sll_addr]. by rewrite take_app_length' by done.
  - cbn [c_addr sll_addr]. rewrite length_app, Hm. lia.
  - exists g, dip, sip. split_and!; [|done|done]. cbn [c_bytes].
    rewrite process_eth_frame; [|apply host_net_shape, Hg|done|done].
    by rewrite host_net_host by apply Hg.
Qed.

Lemma carry_unicast n r m f :
  wire m f -> length (r_via r) = HWADDR -> r_via r <> bcast_mac ->
  Forall2 carries (carry tp n (raw_event (r_via r) (t_mac tp (n, r_if r)) (r_if r) f))
          (emit_out tp n (Unicast r m)).
Proof using Hwired.
  intros Hw Hlen Hb. cbn [carry raw_event sll_addr sll_ifindex sll_protocol emit_out].
  assert (take HWADDR (take HW_ADDR (r_via r) ++ [NUL; NUL]) = r_via r) as ->.
  { change HW_ADDR with HWADDR. rewrite <- Hlen, firstn_all. by rewrite take_app_length. }
  rewrite (list_filter_iff _ (fun q => t_mac tp q = r_via r)) by (intros q; split; [intros [?|?]; done | by right]).
  apply Forall2_fmap_2, Forall_Forall2_diag, Forall_forall. intros [v j] _. by apply carried.
Qed.

Lemma filter_everything {A} (P : A -> Prop) `{!forall x, Decision (P x)} (l : list A) :
  (forall x, P x) -> filter P l = l.
Proof. intros HP. induction l as [|x l IH]; [done|]. rewrite filter_cons_True by apply HP. by rewrite IH. Qed.

Lemma carry_flood n i m f :
  wire m f ->
  Forall2 carries (carry tp n (raw_event bcast_mac (t_mac tp (n, i)) i f))
          (on_link tp n i m <$> peers tp (n, i)).
Proof using Hwired.
  intros Hw. cbn [carry raw_event sll_addr sll_ifindex sll_protocol].
  change (take HWADDR (take HW_ADDR bcast_mac ++ [NUL; NUL])) with bcast_mac.
  assert (filter (fun q => bcast_mac = bcast_mac \/ t_mac tp q = bcast_mac) (peers tp (n, i))
          = peers tp (n, i)) as ->.
  { apply filter_everything. by left. }
  apply Forall2_fmap_2, Forall_Forall2_diag, Forall_forall. intros [v j] _.
  by apply carried.
Qed.
(** The interfaces of the flood, one by one. *)
Lemma carry_floods n ex m f (L : list hwa_info) (I : list Z) :
  wire m f -> (fun h => (if_index h, if_haddr h)) <$> L = (fun i => (i, t_mac tp (n, i))) <$> I ->
  Forall2 carries
    (((fun h => raw_event bcast_mac (if_haddr h) (if_index h) f) <$> filter (fun h => if_index h <> ex) L)
       ≫= carry tp n)
    (filter (fun i => i <> ex) I ≫= fun i => on_link tp n i m <$> peers tp (n, i)).
Proof using Hwired.
  intros Hw. revert I. induction L as [|h L IH]; intros [|i I] H; [constructor|done|done|].
  injection H as Hi Hm H. specialize (IH I H). rewrite !filter_cons, Hi.
  destruct (decide (i <> ex)); [|done]. cbn. rewrite Hm, Hi.
  apply Forall2_app; [by apply carry_flood|done].
Qed.

(** A unicast goes to a neighbour. *)
Definition towards (n : buf) (o : out) : Prop :=
  match o with
  | Unicast r _ => (n, r_if r) ∈ t_ports tp /\ length (r_via r) = HWADDR /\ r_via r <> bcast_mac
  | _ => True
  end.

Lemma carry_out n ifs o evs :
  hw_match tp n ifs -> realises ifs o evs -> towards n o ->
  Forall2 carries (evs ≫= carry tp n) (emit_out tp n o) /\ datagrams n evs = handed n [o].
Proof using Hwired.
  intros [Hfl Hfi] [r m mac f Hmac Hw|ex m f Hw|path data] Ht; [| |by split; [constructor|]].
  - destruct Ht as (Hp & Hl & Hb). rewrite (Hfi _ Hp) in Hmac. injection Hmac as <-.
    split; [|done]. cbn [mbind list_bind]. rewrite app_nil_r. by apply carry_unicast.
  - split.
    + unfold flood_events, emit_out.
      assert (filter (flood_if ex) ifs = filter (fun h => if_index h <> ex) (filter flooding ifs)) as ->.
      { rewrite list_filter_filter. apply list_filter_iff. intros h. unfold flood_if, flooding. tauto. }
      by apply carry_floods.
    + unfold flood_events. cbn. by induction (filter (flood_if ex) ifs).
Qed.

Lemma carry_outs n ifs outs evs :
  hw_match tp n ifs -> realise_all ifs outs evs -> Forall (towards n) outs ->
  Forall2 carries (evs ≫= carry tp n) (emit_outs tp n outs) /\ datagrams n evs = handed n outs.
Proof using Hwired.
  intros Hm (evss & HF & ->) Ht. revert Ht. induction HF as [|o ev outs evss Ho _ IH]; intros Ht.
  { by split; [constructor|]. }
  apply Forall_cons in Ht as [Hto Hts]. destruct (IH Hts) as [IH1 IH2].
  destruct (carry_out n ifs o ev Hm Ho Hto) as [H1 H2]. cbn [concat]. split.
  - rewrite bind_app. by apply Forall2_app.
  - unfold datagrams in *. rewrite omap_app, H2, IH2. unfold handed. by destruct o.
Qed.

(** Unicasts of a sound router go to neighbours. *)
Lemma sound_towards P n outs : Forall (out_sound tp P n) outs -> Forall (towards n) outs.
Proof using Hwired.
  intros H. eapply Forall_impl; [exact H|]. intros [r m|ex m|]; cbn; [|done..].
  intros [(k & u & i & [_ Hl] & Hv & _) _]. apply elem_of_peers in Hl as [Hl _].
  pose proof (wd_mac_len _ _ _ Hwired (u, i)) as Hlen.
  rewrite take_ge in Hv by (by rewrite Hlen). rewrite Hv.
  split_and!; [done|done|apply (wd_mac _ _ _ Hwired)].
Qed.
End Wire.

(** ** What was sent *)

Section Sent.
Context {os : OS}.

Lemma send_log_accepted evs o :
  exists l, (send_log evs o).2 = rev l ++ o /\
    (Forall (fun er : event * Z => 0 < er.2) l ->
     (send_log evs o).1 = 0 /\ l.*1 = evs /\ all_accepted evs (length o) = true).
Proof.
  revert o. induction evs as [|ev evs IH]; intros o; cbn [send_log all_accepted].
  { exists []. by split. }
  destruct (Z.ltb_spec (os_sendto (length o) ev) 0) as [Hr|Hr].
  { exists [(ev, os_sendto (length o) ev)]. split; [done|]. intros [H _]%Forall_cons. cbn in H. lia. }
  destruct (IH ((ev, os_sendto (length o) ev) :: o)) as (l & H1 & H2).
  exists ((ev, os_sendto (length o) ev) :: l). split; [cbn; by rewrite H1, <- app_assoc|].
  intros [Hp (H3 & H4 & H5)%H2]%Forall_cons. cbn in Hp. split; [done|]. split; [cbn; by rewrite H4|].
  rewrite (proj2 (Z.ltb_lt _ _)) by lia. exact H5.
Qed.

(** In a step whose datagrams are accepted everything is transmitted. *)
Lemma accepted_log s s' evs :
  outs s' = (send_log evs (outs s)).2 -> accepted s s' ->
  (send_log evs (outs s)).1 = 0 /\ transmitted s s' = evs /\ all_accepted evs (length (outs s)) = true.
Proof.
  intros Ho. destruct (send_log_accepted evs (outs s)) as (l & Hl & Hpos).
  unfold accepted, transmitted. rewrite Ho, Hl, length_app.
  replace (length (rev l) + length (outs s) - length (outs s))%nat with (length (rev l)) by lia.
  rewrite take_app_length, rev_involutive. intros Ha.
  assert (Forall (fun er : event * Z => 0 < er.2) l) as Hf by (rewrite <- (rev_involutive l); by apply Forall_rev).
  destruct (Hpos Hf) as (H1 & H2 & H3). split_and!; [done| |done]. rewrite <- H2. clear -Hf.
  induction Hf as [|[ev r] l Hr _ IH]; [done|]. cbn in *.
  rewrite (proj2 (Z.ltb_ge r 0)) by lia. by rewrite IH.
Qed.
(** A kernel that accepts every datagram. *)
Lemma always_accepted s s' evs :
  (forall k ev, 0 < os_sendto k ev) -> outs s' = (send_log evs (outs s)).2 -> accepted s s'.
Proof.
  intros Hs Ho. assert (exists l, (send_log evs (outs s)).2 = l ++ outs s /\ Forall (fun er : event * Z => 0 < er.2) l)
    as (l & Hl & Hpos).
  { clear Ho. generalize (outs s). induction evs as [|ev evs IH]; intros o; cbn [send_log].
    { exists []. by split. }
    pose proof (Hs (length o) ev) as Hr. rewrite (proj2 (Z.ltb_ge _ 0)) by lia.
    destruct (IH ((ev, os_sendto (length o) ev) :: o)) as (l & Hl & Hpos).
    exists (l ++ [(ev, os_sendto (length o) ev)]). split; [by rewrite Hl, <- app_assoc|].
    apply Forall_app. split; [done|]. by apply Forall_singleton. }
  unfold accepted. rewrite Ho, Hl, length_app, Nat.add_sub. by rewrite take_app_length.
Qed.
End Sent.

(** ** Steps *)

Section Steps.
Context (tp : topology) (os_of : buf -> OS) (stale_of : buf -> Z) (known : buf -> Prop).
Hypothesis Hwired : wired tp os_of known.

Abbreviation sim := (sim tp os_of stale_of known).

(** The specification looks at the first six bytes of the sender's address. *)
Lemma spec_frame_via {os : OS} ip stale ports intf via m R :
  spec_frame ip stale ports intf via m R = spec_frame ip stale ports intf (take HWADDR via) m R.
Proof.
  assert (forall R', a_learn m intf via R' = a_learn m intf (take HWADDR via) R') as H.
  { intros R'. unfold a_learn. by rewrite take_idemp. }
  unfold spec_frame, spec_rreq, spec_rrep, spec_data, spec_asent. by rewrite !H.
Qed.

(** A step of machine [n] on both sides; the other machines correspond. *)
Lemma sim_moved cn w n s' res l cl parks evs :
  (forall v i, v <> n -> (v, i) ∈ t_ports tp -> runs tp os_of stale_of v (c_node cn v) (n_router w v)) ->
  c_log cn = n_log w -> net_sound tp w ->
  (forall v, Forall (fun km => msg_known known km.2) (a_parked (n_router w v))) ->
  (exists i, (n, i) ∈ t_ports tp) ->
  (forall v, v <> n -> (forall i, (v, i) ∉ t_ports tp) -> a_routes (n_router w v) = ∅) ->
  Forall (fun p => msg_known known (p_msg p)) (n_pool w) ->
  Forall2 carries cl l -> l ⊆ n_pool w ->
  runs tp os_of stale_of n s' res.1 -> transmitted (c_node cn n) s' = evs ->
  realise_all (hwa_struct_head s') res.2 evs ->
  result_sound tp (n_parks w + parks) n res -> msgs_known known res ->
  sim (cmoved tp cn n s' cl) (moved tp w n res l parks).
Proof using Hwired.
  intros Hn Hl Hs Hk2 [i0 Hi0] Habs Hk1 Hcl Hsub Hruns Htr Hreal [HsR HsO] [HkR HkO].
  pose proof Hruns as (_ & Hm & _).
  destruct (carry_outs tp os_of known Hwired n _ _ _ Hm Hreal (sound_towards tp os_of known Hwired _ _ _ HsO))
    as [Hc Hd].
  split; cbn; rewrite ?Htr.
  - intros v i Hv. destruct (decide (n = v)) as [<-|Hne]; [by rewrite !fn_lookup_insert|].
    rewrite !fn_lookup_insert_ne by done. by eapply Hn.
  - by apply Forall2_app.
  - by rewrite Hl, Hd.
  - apply moved_sound; [done| |by split]. destruct Hs as [_ Hp]. rewrite Forall_forall in Hp.
    apply Forall_forall. intros p Hin. by apply Hp, Hsub.
  - split.
    + apply Forall_app. split; [|by apply emit_known]. rewrite Forall_forall in Hk1.
      apply Forall_forall. intros p Hin. by apply Hk1, Hsub.
    + intros v. destruct (decide (n = v)) as [<-|Hne]; [by rewrite fn_lookup_insert|].
      by rewrite fn_lookup_insert_ne.
  - intros v Hv. destruct (decide (n = v)) as [<-|Hne]; [by destruct (Hv i0)|].
    rewrite fn_lookup_insert_ne by done. by apply Habs.
Qed.

(** The specification's verdict on a frame is the abstract network's. *)
Lemma verdict_received w c p fr T q s :
  carries c p -> process_recvd_frame (c_bytes c) = Def fr -> stale_param s = stale_of (p_to p) ->
  abs_router s T q = n_router w (p_to p) ->
  (@verdict (os_of (p_to p)) (p_to p) T q s (c_addr c) fr).2 = received os_of stale_of w p (abs_ports s).
Proof.
  intros (_ & Hif & Hfrom & _ & fr' & dip & sip & Hp & _ & Hm) Hb Hst HR.
  assert (fr' = fr) as -> by congruence. unfold verdict, received.
  by rewrite spec_frame_via, Hif, Hfrom, Hm, HR, Hst.
Qed.

Lemma carries_arrival c p fr dip sip s :
  carries c p -> process_recvd_frame (c_bytes c) = Def fr -> frame_wf fr dip sip ->
  abs_msg fr = p_msg p -> msg_known known (p_msg p) -> int_ok (hop_count fr + 1) = true ->
  (p_to p, p_if p) ∈ t_ports tp -> hw_match tp (p_to p) (hwa_struct_head s) ->
  @arrival (os_of (p_to p)) (hwa_struct_head s) (c_addr c) fr dip sip.
Proof using Hwired.
  intros (_ & Hif & _ & Hlen & _) Hb Hwf Hm (Hd & Hs & Hne & _) Hh Hin [_ Hfi].
  rewrite <- Hm, (abs_msg_dst _ _ _ Hwf) in Hd. rewrite <- Hm, (abs_msg_src _ _ _ Hwf) in Hs.
  rewrite <- Hm, (abs_msg_dst _ _ _ Hwf), (abs_msg_src _ _ _ Hwf) in Hne.
  split; try done; [by apply (wd_known _ _ _ Hwired)..|].
  rewrite Hif. by rewrite (Hfi _ Hin).
Qed.

(** The port table is not touched. *)
Definition same_ports (s s' : node) : Prop :=
  port_spath_head s' = port_spath_head s /\ next_portno s' = next_portno s.

#[export] Instance same_ports_preorder : PreOrder same_ports.
Proof. split; [done|]. intros s1 s2 s3 [H1 H2] [H3 H4]. split; congruence. Qed.

Lemma same_ports_abs s s' : same_ports s s' -> abs_ports s' = abs_ports s.
Proof. intros [H _]. unfold abs_ports. by rewrite H. Qed.

(** A frame of one of the four types does not end the daemon. *)
Lemma verdict_goes_on {os : OS} n T q s addr fr :
  msg_known known (abs_msg fr) -> 0 <= (verdict n T q s addr fr).1.
Proof.
  intros (_ & _ & _ & Hty). by apply spec_frame_goes_on.
Qed.

Lemma sim_recv_ports cn w l1 c l2 :
  sim cn w -> c_wire cn = l1 ++ c :: l2 -> recv_in_range cn c ->
  exists r s' p w',
    @handle_ethernet_msg (os_of (c_to c)) (c_addr c) (c_bytes c) (c_node cn (c_to c)) = Ok r s' /\
    carries c p /\ net_step tp os_of stale_of w (Recv p (abs_ports (c_node cn (c_to c)))) w' /\
    same_ports (c_node cn (c_to c)) s' /\
    (accepted (c_node cn (c_to c)) s' -> sim (cmoved tp cn (c_to c) s' (l1 ++ l2)) w' /\ 0 <= r) /\
    ((forall k ev, 0 < @os_sendto (os_of (c_to c)) k ev) -> accepted (c_node cn (c_to c)) s').
Proof using Hwired.
  intros Hsim Hwire [Hhop Hbid]. pose proof Hsim as [Hn Hw Hlog Hs [Hk1 Hk2] Habs]. rewrite Hwire in Hw.
  apply Forall2_app_inv_l in Hw as (lp1 & lp & Hw1 & Hw & Hpool).
  apply Forall2_cons_inv_l in Hw as (p & lp2 & Hcp & Hw2 & ->).
  assert (packet_sound tp (n_parks w) p) as Hp.
  { destruct Hs as [_ Hs]. rewrite Hpool in Hs. by apply Forall_app in Hs as [_ [? _]%Forall_cons]. }
  assert ((p_to p, p_if p) ∈ t_ports tp) as Hin by (by destruct Hp as (u & i & [_ [? _]%elem_of_peers] & _)).
  assert (msg_known known (p_msg p)) as Hmk.
  { rewrite Hpool in Hk1. by apply Forall_app in Hk1 as [_ [? _]%Forall_cons]. }
  pose proof Hcp as (Hto & _ & _ & _ & fr & dip & sip & Hb & Hwf & Hm). rewrite Hto in *.
  destruct (Hn _ _ Hin) as (Hst & Hhw & T & q & Hinv & HR).
  pose proof (carries_arrival c p fr dip sip (c_node cn (p_to p)) Hcp Hb Hwf Hm Hmk (Hhop fr Hb) Hin Hhw) as Harr.
  destruct (@run_ethernet (os_of (p_to p)) _ _ _ _ _ _ _ _ _ Hinv Hb Harr Hbid)
    as (r & s' & Hrun & T' & q' & evs & Hinv' & HR' & Hreal & Hsent & Hkept).
  rewrite (verdict_received w c p fr T q _ Hcp Hb Hst HR) in HR', Hreal.
  set (ports := abs_ports (c_node cn (p_to p))) in *.
  destruct Hkept as (_ & Hhw' & Hports & Hnext & Hst').
  eexists r, s', p, _. split; [exact Hrun|]. split; [exact Hcp|].
  split; [by apply (net_recv _ _ _ w lp1 p lp2)|].
  split; [done|]. split; [|intros Hpos; exact (@always_accepted (os_of (p_to p)) _ _ _ Hpos (sent_outs _ _ _ _ _ Hsent))].
  intros Hac. destruct (@accepted_log (os_of (p_to p)) _ _ _ (sent_outs _ _ _ _ _ Hsent) Hac) as (Hz & Htr & _).
  split; [|rewrite (sent_ok _ _ _ _ _ Hsent Hz); apply verdict_goes_on; by rewrite Hm].
  apply (sim_moved cn w (p_to p) s' _ (lp1 ++ lp2) (l1 ++ l2) _ evs); [by eauto|done|done|done|by eauto|by eauto|done|..].
  - by apply Forall2_app.
  - rewrite Hpool. intros x. rewrite !elem_of_app, elem_of_cons. tauto.
  - split; [by rewrite Hst'|]. split; [by rewrite Hhw'|]. by exists T', q'.
  - exact Htr.
  - by rewrite Hhw'.
  - by apply received_sound.
  - apply spec_frame_known; [by eapply (wd_self _ _ _ Hwired)|done|apply Hk2].
Qed.

Lemma sim_recv cn w l1 c l2 :
  sim cn w -> c_wire cn = l1 ++ c :: l2 -> recv_in_range cn c ->
  exists r s' p ports w',
    @handle_ethernet_msg (os_of (c_to c)) (c_addr c) (c_bytes c) (c_node cn (c_to c)) = Ok r s' /\
    carries c p /\ net_step tp os_of stale_of w (Recv p ports) w' /\
    (accepted (c_node cn (c_to c)) s' -> sim (cmoved tp cn (c_to c) s' (l1 ++ l2)) w' /\ 0 <= r).
Proof using Hwired.
  intros Hsim Hw Hr. destruct (sim_recv_ports cn w l1 c l2 Hsim Hw Hr) as (r & s' & p & w' & H1 & H2 & H3 & _ & H4 & _).
  by eexists _, _, _, _, _.
Qed.

(** Registering a process changes the port table, and the clock is read. *)
Lemma ports_step_same s s1 :
  ports_step s s1 ->
  outs s1 = outs s /\ hwa_struct_head s1 = hwa_struct_head s /\ stale_param s1 = stale_param s /\
  (clock s <= clock s1)%nat /\
  forall T q, abs_router s1 T q = upd_clock (clock s1) (abs_router s T q).
Proof. by intros (l & n & c & Hc & ->). Qed.

(** The network after the clock of [n] has moved on. *)
Definition ticked (n : buf) (k : nat) (w : net) : net :=
  moved tp w n (upd_clock k (n_router w n), []) (n_pool w) 0.

Lemma sim_ask_ports cn w n sp :
  sim cn w -> ask_in_range tp os_of known cn n sp ->
  exists r s' k port ports path s1, @handle_peer_msg (os_of n) sp (c_node cn n) = Ok r s' /\
    cstr (sp_filename sp) = Some path /\ registered path (c_node cn n) s1 port /\ same_ports s1 s' /\
    (a_clock (n_router w n) <= k)%nat /\
    (accepted (c_node cn n) s' ->
     sim (cmoved tp cn n s' (c_wire cn))
       (do_ask tp os_of stale_of n port (abs_request sp) ports (ticked n k w)) /\ 0 <= r) /\
    ((forall j ev, 0 < @os_sendto (os_of n) j ev) -> accepted (c_node cn n) s').
Proof using Hwired.
  intros Hsim (i & dip & data & path & Hin & Hkn & Hrq & Hnp & Hb1 & Hb2 & Hloc).
  pose proof Hsim as [Hn Hw Hlog Hs [Hk1 Hk2] Habs]. destruct (Hn _ _ Hin) as (Hst & Hhw & T & q & Hinv & HR).
  destruct (proj1 (wp_run _ _ _)
              (@wp_handle_peer_msg (os_of n) sp dip data path n T q _ Hinv Hrq Hnp Hb1 Hb2 Hloc))
    as (r & s' & Hrun & s1 & port & Hreg & _ & T' & q' & evs & Hinv' & Hreal & Ho & _ & HR' & Hacc & Hkept).
  pose proof Hreg as (Hstep & _). destruct (ports_step_same _ _ Hstep) as (Ho1 & Hh1 & Hs1 & Hck & HR1).
  rewrite (HR1 T q), HR, Hst in HR', Hreal. rewrite Ho1 in Ho.
  assert (q_dst (abs_request sp) = dip) as Hdst by (cbn; by rewrite (rq_dst _ _ _ _ Hrq)).
  pose proof (net_tick tp os_of stale_of w n (clock s1)) as Htick.
  fold (ticked n (clock s1) w) in Htick. set (w1 := ticked n (clock s1) w) in *.
  assert (n_router w1 n = upd_clock (clock s1) (n_router w n)) as Ew1 by (cbn; by rewrite fn_lookup_insert).
  assert (forall v, v <> n -> n_router w1 v = n_router w v) as Eo by (intros v Hv; cbn; by rewrite fn_lookup_insert_ne).
  assert (n_pool w1 = n_pool w) as Ep by (cbn; by rewrite app_nil_r).
  assert (forall v, a_parked (n_router w1 v) = a_parked (n_router w v)) as Eq
    by (intros v; destruct (decide (v = n)) as [->|Hv]; [by rewrite Ew1|by rewrite Eo]).
  rewrite <- Ew1 in HR', Hreal. set (ports := abs_ports s1) in *.
  destruct Hkept as (_ & Hhw' & Hph & Hnext & Hst').
  exists r, s', (clock s1), port, ports, path, s1. split; [exact Hrun|].
  split; [apply (rq_path _ _ _ _ Hrq)|]. split; [exact Hreg|]. split; [by split|].
  split; [by rewrite <- HR|].
  split; [|intros Hpos; exact (@always_accepted (os_of n) _ _ _ Hpos Ho)]. intros Hac. rewrite Ho1 in Hacc.
  destruct (@accepted_log (os_of n) _ _ _ Ho Hac) as (_ & Htr & Hall). specialize (Hacc Hall).
  split; [|rewrite Hacc; lia]. fold w1. unfold do_ask. rewrite Ep. apply (sim_moved cn w1 n s' _ (n_pool w) (c_wire cn) 0 evs); try done.
  - intros v j Hv Hvj. rewrite Eo by done. by eapply Hn.
  - rewrite Hlog. cbn. by rewrite app_nil_r.
  - by eapply net_step_sound.
  - intros v. rewrite Eq. apply Hk2.
  - by exists i.
  - intros v Hv. rewrite Eo by done. apply Habs.
  - by rewrite Ep.
  - by rewrite Ep.
  - split; [congruence|]. split; [by rewrite Hhw', Hh1|]. exists T', q'. split; [done|].
    by apply HR'.
  - by rewrite Hhw'.
  - rewrite Nat.add_0_r. apply asked_sound. by eapply net_step_sound.
  - apply spec_request_known; [by eapply (wd_self _ _ _ Hwired)|by rewrite Hdst|rewrite Eq; apply Hk2].
Qed.

Lemma sim_ask cn w n sp :
  sim cn w -> ask_in_range tp os_of known cn n sp ->
  exists r s' k port ports, @handle_peer_msg (os_of n) sp (c_node cn n) = Ok r s' /\
    (accepted (c_node cn n) s' ->
     sim (cmoved tp cn n s' (c_wire cn))
       (do_ask tp os_of stale_of n port (abs_request sp) ports (ticked n k w)) /\ 0 <= r).
Proof using Hwired.
  intros Hsim Hr. destruct (sim_ask_ports cn w n sp Hsim Hr) as (r & s' & k & port & ports & path & s1 & H1 & _ & _ & _ & _ & H2 & _).
  by eexists _, _, _, _, _.
Qed.

Lemma sim_lose cn w l1 c l2 :
  sim cn w -> c_wire cn = l1 ++ c :: l2 ->
  exists p w', carries c p /\ net_step tp os_of stale_of w (Lose p) w' /\
    sim (CNet (c_node cn) (l1 ++ l2) (c_log cn)) w'.
Proof using Hwired.
  intros [Hn Hwr Hlog Hs [Hk1 Hk2] Habs] Hw. rewrite Hw in Hwr.
  apply Forall2_app_inv_l in Hwr as (lp1 & lp & Hw1 & Hwr & Hpool).
  apply Forall2_cons_inv_l in Hwr as (p & lp2 & Hcp & Hw2 & ->).
  pose proof (net_lose tp os_of stale_of w lp1 p lp2 Hpool) as Hstep.
  eexists p, _. split; [done|]. split; [done|].
  split; [done|by apply Forall2_app|done|by eapply net_step_sound| |done]. split; [|done]. cbn.
  rewrite Hpool in Hk1. apply Forall_app in Hk1 as [? [_ ?]%Forall_cons]. by apply Forall_app.
Qed.

(** Each step of the daemons is made of steps of the abstract network. *)
Lemma sim_step cn w e cn' :
  sim cn w -> in_range tp os_of known cn e -> cstep tp os_of cn e cn' ->
  exists es w', net_run tp os_of stale_of w es w' /\ sim cn' w'.
Proof using Hwired.
  intros Hsim Hr Hs. destruct Hs as [l1 c l2 r s' Hw Hh Hge Hac|n sp r s' Hh Hge Hac|l1 c l2 Hw].
  - destruct (sim_recv cn w l1 c l2 Hsim Hw Hr) as (r' & s'' & p & ports & w' & Hh' & _ & Hrun & Hsim').
    assert (s'' = s') as -> by congruence. destruct (Hsim' Hac) as [Hs' _].
    exists [Recv p ports], w'. split; [by apply net_run_one|done].
  - destruct (sim_ask cn w n sp Hsim Hr) as (r' & s'' & k & port & ports & Hh' & Hsim').
    assert (s'' = s') as -> by congruence. destruct (Hsim' Hac) as [Hs' _]. clear Hsim'. rename Hs' into Hsim'. eexists [Tick n k; Ask n port (abs_request sp) ports], _.
    split; [|exact Hsim']. apply (net_run_app _ _ _ _ [_] (ticked n k w) [_] _); [by apply net_run_one, net_tick|].
    apply net_run_one, net_ask.
  - destruct (sim_lose cn w l1 c l2 Hsim Hw) as (p & w' & _ & Hs & Hsim').
    exists [Lose p], w'. split; [by apply net_run_one|done].
Qed.

Lemma sim_run cn0 w0 cn :
  sim cn0 w0 -> crun tp os_of known cn0 cn ->
  exists es w, net_run tp os_of stale_of w0 es w /\ sim cn w.
Proof using Hwired.
  intros Hsim Hrun. induction Hrun as [|cn e cn' _ (es & w & Hes & Hw) Hr Hs].
  { exists [], w0. split; [constructor|done]. }
  destruct (sim_step cn w e cn' Hw Hr Hs) as (es' & w' & Hes' & Hw').
  exists (es ++ es'), w'. split; [by eapply net_run_app|done].
Qed.

(** Nothing is refused by a kernel that accepts every datagram. *)
Lemma never_refused cn w e :
  (forall n k ev, 0 < @os_sendto (os_of n) k ev) ->
  sim cn w -> in_range tp os_of known cn e -> possible cn e -> ~ refused os_of cn e.
Proof using Hwired.
  intros Hpos Hsim Hr Hp. destruct e as [c|n sp|c]; [| |by intros []].
  - apply list_elem_of_split in Hp as (l1 & l2 & Hw). intros (r & s' & Hh & Hno).
    destruct (sim_recv_ports cn w l1 c l2 Hsim Hw Hr) as (r' & s'' & p & w' & Hh' & _ & _ & _ & _ & Hac).
    apply Hno. assert (s'' = s') as <- by congruence. by apply Hac.
  - intros (r & s' & Hh & Hno).
    destruct (sim_ask_ports cn w n sp Hsim Hr) as (r' & s'' & k & port & pts & path & s1 & Hh' & _ & _ & _ & _ & _ & Hac).
    apply Hno. assert (s'' = s') as <- by congruence. by apply Hac.
Qed.

(** Within range, what can happen does happen: the handlers return. *)
Lemma sim_progress cn w e :
  sim cn w -> in_range tp os_of known cn e -> possible cn e ->
  refused os_of cn e \/ exists cn', cstep tp os_of cn e cn'.
Proof using Hwired.
  intros Hsim Hr Hp. destruct e as [c|n sp|c].
  - apply list_elem_of_split in Hp as (l1 & l2 & Hw).
    destruct (sim_recv cn w l1 c l2 Hsim Hw Hr) as (r & s' & p & ports & w' & Hh & _ & _ & Hgo).
    destruct (decide (accepted (c_node cn (c_to c)) s')) as [Hac|Hac]; [right|left; by exists r, s'].
    destruct (Hgo Hac) as [_ Hge]. eexists. by eapply cstep_recv.
  - destruct (sim_ask cn w n sp Hsim Hr) as (r & s' & k & port & ports & Hh & Hgo).
    destruct (decide (accepted (c_node cn n) s')) as [Hac|Hac]; [right|left; by exists r, s'].
    destruct (Hgo Hac) as [_ Hge]. eexists. by eapply cstep_ask.
  - right. apply list_elem_of_split in Hp as (l1 & l2 & Hw). eexists. by eapply cstep_lose.
Qed.
End Steps.

(** ** Properties *)

(** C6: a network of daemons, each running the handlers of odr_and.c on its
    heap and exchanging bytes over Ethernet, is a network of abstract routers:
    every run of the one, in which the kernel accepts every datagram, is a run of the
    other with corresponding tables, queues, frames and deliveries.  And it does not
    get stuck: as long as counts stay within [int], every frame that arrives and every
    proper request of a local process is handled, unless the kernel refuses a datagram
    while it is. *)
Theorem daemons_refine_network tp os_of stale_of known cn0 w0 cn :
  wired tp os_of known -> sim tp os_of stale_of known cn0 w0 -> crun tp os_of known cn0 cn ->
  (exists es w, net_run tp os_of stale_of w0 es w /\ sim tp os_of stale_of known cn w) /\
  (forall e, in_range tp os_of known cn e -> possible cn e ->
   refused os_of cn e \/ exists cn', cstep tp os_of cn e cn').
Proof.
  intros Hw Hsim Hrun. destruct (sim_run _ _ _ _ Hw _ _ _ Hsim Hrun) as (es & w & Hes & Hs).
  split; [by exists es, w|]. intros e. by eapply sim_progress.
Qed.

(** C10: in every network of daemons, after any run in which every sendto made is accepted
    (frames may be lost on their way), the routing table in the heap of each machine
    represents a map all of whose entries name the hardware address of a neighbour on
    the entry's interface, from which the destination can be reached. *)
Theorem daemon_tables_real tp os_of stale_of known cn0 w0 cn n i :
  wired tp os_of known -> sim tp os_of stale_of known cn0 w0 -> crun tp os_of known cn0 cn ->
  (n, i) ∈ t_ports tp ->
  exists T q, @inv (os_of n) n T q (c_node cn n) /\
    forall d x e, T !! d = Some (x, e) ->
      exists u j k, linked tp u j n (if_no e) /\ take HWADDR (next_hop e) = t_mac tp (u, j) /\
                    walk tp d u k.
Proof.
  intros Hw Hsim Hrun Hin. destruct (sim_run _ _ _ _ Hw _ _ _ Hsim Hrun) as (es & w & _ & [Hn _ _ [HR _] _ _]).
  destruct (Hn n i Hin) as (_ & _ & T & q & Hinv & HE). exists T, q. split; [done|]. intros d x e Hd.
  assert (a_routes (n_router w n) !! d = Some (abs_route (x, e))) as Hr.
  { rewrite <- HE. cbn. by rewrite lookup_fmap, Hd. }
  destruct (rs_routes _ _ _ _ (HR n) d _ Hr) as (u & j & Hl & Hv & k & Hk & _).
  exists u, j, k. split_and!; [done| |done]. cbn [abs_route r_via snd] in Hv. rewrite Hv.
  apply take_ge. by rewrite (wd_mac_len _ _ _ Hw).
Qed.

(** ** The ring of vm1 to vm4, as daemons *)

(** Machine [ip] of the test bed after its first call of [get_self_ip]. *)
Definition ring_node (ip : buf) : node := set_stale 60 (demo_self (vm_index ip) (demo_ports 909)).
Definition ring_start : cnet := CNet ring_node [] [].
Definition ring_known (b : buf) : Prop := exists k, 1 <= k <= 10 /\ b = vm_ip k.

Lemma ring_wired : wired ring4 line_os ring_known.
Proof.
  split.
  - intros p. apply length_bytes.
  - intros p H. by apply (f_equal head) in H.
  - intros n b (k & Hk & ->). by apply demo_resolves.
  - intros n i Hin. assert (Forall (fun p : buf * Z => ring_known p.1) (t_ports ring4)) as H.
    { repeat (apply Forall_cons_2; [eexists; (split; [|reflexivity]); lia|]). constructor. }
    rewrite Forall_forall in H. by apply (H (n, i)).
Qed.

(** What has to be checked of one machine with the interfaces [hw]. *)
Definition vm_node (k : Z) (hw : list hwa_info) : node :=
  set_stale 60 (set_self_ip (Some (pad INET_ADDRSTRLEN (vm_ip k))) (set_hwa hw (demo_ports 909))).

Lemma vm_runs tp k hw :
  1 <= k <= 10 -> hw <> [] -> cstr (pad INET_ADDRSTRLEN (vm_ip k)) = Some (vm_ip k) ->
  hw_match tp (vm_ip k) hw -> Forall hwa_ok hw ->
  runs tp line_os line_stale (vm_ip k) (vm_node k hw) (router_init 10).
Proof.
  intros Hk Hne Hip Hhw Hok. split; [done|]. split; [done|].
  exists ∅, []. split; [|unfold abs_router, router_init; by rewrite fmap_empty]. split.
  - split; [by eexists|done|done].
  - by apply demo_resolves.
  - apply (demo_ports_inv 909). unfold __SERV_PORT. lia.
  - exact rt_rep_empty.
  - intros k' xe. by rewrite lookup_empty.
  - exact pq_rep_empty.
  - constructor.
Qed.

Lemma vm_hw_match tp n hw :
  (fun h => (if_index h, if_haddr h)) <$> filter flooding hw
    = (fun i => (i, t_mac tp (n, i))) <$> ifs_of tp n ->
  (fun i => find_hwaddr i hw) <$> ifs_of tp n = (fun i => Some (t_mac tp (n, i))) <$> ifs_of tp n ->
  hw_match tp n hw.
Proof.
  intros H1 H2. split; [exact H1|]. intros i Hi%elem_of_ifs.
  induction (ifs_of tp n) as [|j l IH] in H2, Hi |- *; [by apply elem_of_nil in Hi|].
  injection H2 as Hj H2. apply elem_of_cons in Hi as [->|Hi]; [done|by apply IH].
Qed.

Lemma ring_runs k :
  vm_index (vm_ip k) = k -> 1 <= k <= 10 -> demo_hwa k <> [] ->
  cstr (pad INET_ADDRSTRLEN (vm_ip k)) = Some (vm_ip k) ->
  hw_match ring4 (vm_ip k) (demo_hwa k) -> Forall hwa_ok (demo_hwa k) ->
  runs ring4 line_os line_stale (vm_ip k) (ring_node (vm_ip k)) (router_init 10).
Proof. intros Hi. unfold ring_node. rewrite Hi. apply vm_runs. Qed.

Ltac ring_machine k :=
  apply (ring_runs k);
    [ vm_compute; reflexivity | lia | by vm_compute | vm_compute; reflexivity
    | apply vm_hw_match; vm_compute; reflexivity | apply demo_hwa_ok; vm_compute; reflexivity ].

Lemma ring_sim : sim ring4 line_os line_stale ring_known ring_start (net_init (fun _ => 10)).
Proof.
  split.
  - intros n i Hin. cbn [c_node ring_start n_router net_init].
    assert (Forall (fun p : buf * Z => runs ring4 line_os line_stale p.1 (ring_node p.1) (router_init 10))
              (t_ports ring4)) as H.
    { assert (forall k, k ∈ [1; 2; 3; 4] ->
                runs ring4 line_os line_stale (vm_ip k) (ring_node (vm_ip k)) (router_init 10)) as Hk.
      { intros k Hk. repeat (apply elem_of_cons in Hk as [->|Hk]); [ring_machine 1|ring_machine 2
          |ring_machine 3|ring_machine 4|by apply elem_of_nil in Hk]. }
      repeat (apply Forall_cons_2; [apply Hk; rewrite !elem_of_cons; auto 6|]). constructor. }
    rewrite Forall_forall in H. by apply (H (n, i)).
  - constructor.
  - done.
  - split; [|constructor]. intros n. split; [|constructor|done].
    intros k r. cbn. by rewrite lookup_empty.
  - split; [constructor|]. intros n. constructor.
  - done.
Qed.

(** vm1 asks the server of vm3 for the time. *)
Definition ring_request : cevent := CAsk (vm_ip 1) (demo_request "130.245.156.23" 5500).

Lemma ring_request_in_range : in_range ring4 line_os ring_known ring_start ring_request.
Proof.
  exists 3, (vm_ip 3), (chars "hello"), (chars "/tmp/file_and_1"). split_and!.
  - by constructor.
  - exists 3. split; [lia|done].
  - split; try done; [by apply demo_resolves| |]; apply Nat.ltb_lt; reflexivity.
  - done.
  - done.
  - done.
  - intros H. exfalso. revert H. apply (bool_decide_eq_false_1 (vm_ip 3 = vm_ip 1)). by vm_compute.
Qed.

Lemma ring_not_refused : ~ refused line_os ring_start ring_request.
Proof.
  assert (match @handle_peer_msg (line_os (vm_ip 1)) (demo_request "130.245.156.23" 5500) (ring_node (vm_ip 1)) with
          | Ok _ s' => bool_decide (accepted (ring_node (vm_ip 1)) s')
          | _ => true
          end = true) as H by (vm_compute; reflexivity).
  intros (r & s' & E & Hno). change (c_node ring_start (vm_ip 1)) with (ring_node (vm_ip 1)) in E, Hno.
  rewrite E in H. exact (Hno (bool_decide_eq_true_1 _ H)).
Qed.

Lemma daemons_refine_network_witness :
  exists cn, cstep ring4 line_os ring_start ring_request cn /\
    exists es w, net_run ring4 line_os line_stale (net_init (fun _ => 10)) es w /\
                 sim ring4 line_os line_stale ring_known cn w.
Proof.
  destruct (daemons_refine_network ring4 line_os line_stale ring_known ring_start (net_init (fun _ => 10))
              ring_start ring_wired ring_sim (crun_nil _ _ _ _)) as [_ Hgo].
  destruct (Hgo ring_request ring_request_in_range I) as [Hno|[cn Hcn]]; [destruct (ring_not_refused Hno)|].
  exists cn. split; [exact Hcn|].
  apply (daemons_refine_network ring4 line_os line_stale ring_known ring_start (net_init (fun _ => 10)) cn
           ring_wired ring_sim).
  exact (crun_snoc _ _ _ _ _ _ _ (crun_nil _ _ _ _) ring_request_in_range Hcn).
Defined.
