(* ===== verification/NetFlood.v ===== *)
(** * A flood among daemons

    The result of file Shortest, about the routing tables in the heaps of the
    daemons: a request of a local process is flooded, and when its last copy has
    been received the tables of all machines have shortest routes back.  The
    conditions are conditions on the states of the processes and on the bytes on
    the wire. *)

From stdpp Require Import functions.
From S2P Require Import Prelude CLib Inet Frame DList Node Demo Utils Ports RTable Print PQueue Send.
From S2P Require Import Handlers Spec SpecFacts Network NetDemo Flood Shortest Refine Peer Behaviour.
From S2P Require Import NetSim.

(** The entries of the routing table of a process, in the order of the list. *)
Definition table (st : node) : list r_entry :=
  match dwalk (rt st) with Def l => l | Bad _ => [] end.

(** What is said of a received frame, if it can be read at all. *)
Definition on_frame (c : cpacket) (P : odr_frame -> Prop) : Prop :=
  match process_recvd_frame (c_bytes c) with Def fr => P fr | Bad _ => True end.

Section Definitions.
Context (tp : topology) (os_of : buf -> OS) (known : buf -> Prop) (s d : buf) (B : Z).

(** The entry for [s], if there is one, is not stale at the next two readings of
    the clock. *)
Definition young (n : buf) (st : node) : Prop :=
  Forall (fun e => cstr (destip e) = Some s ->
            tv_sec (@os_time (os_of n) (clock st)) - tv_sec (timestamp e) < stale_param st /\
            tv_sec (@os_time (os_of n) (S (clock st))) - tv_sec (timestamp e) < stale_param st)
         (table st).

(** Steps that leave the flood alone. *)
Definition cquiet (cn : cnet) (e : cevent) : Prop :=
  match e with
  | CRecv c =>
      on_frame c (fun fr => (copy_of s d B (abs_msg fr) \/ m_src (abs_msg fr) <> s) /\
                            (m_dst (abs_msg fr) = s -> route_disc_flag fr <> 1)) /\
      young (c_to c) (c_node cn (c_to c))
  | CAsk _ sp => cstr (sp_destip sp) <> Some s
  | CLose c => on_frame c (fun fr => ~ copy_of s d B (abs_msg fr))
  end.

Inductive cquiet_run (cn0 : cnet) : cnet -> Prop :=
  | cquiet_nil : cquiet_run cn0 cn0
  | cquiet_snoc cn e cn' :
      cquiet_run cn0 cn -> in_range tp os_of known cn e -> cstep tp os_of cn e cn' -> cquiet cn e ->
      cquiet_run cn0 cn'.

(** Machine [v] has an entry for [s] from this flood. *)
Definition entry_of (cn : cnet) (v : buf) (e : r_entry) : Prop :=
  e ∈ table (c_node cn v) /\ cstr (destip e) = Some s /\ r_broadcast_id e = B.

(** Following the next hops of the tables from [v] ends at [s] after [n] links. *)
Inductive tables_lead_home (cn : cnet) : buf -> nat -> Prop :=
  | thome_here : tables_lead_home cn s 0
  | thome_hop v e u i n :
      entry_of cn v e -> linked tp u i v (if_no e) -> take HWADDR (next_hop e) = t_mac tp (u, i) ->
      tables_lead_home cn u n -> tables_lead_home cn v (S n).

(** The request [sp] starts a flood with broadcast id [B]: machine [s] has no
    entry for [d], and [B] is newer than what is known of [s]. *)
Record starts_flood (cn : cnet) (sp : send_params) : Prop := {
  sf_if : forall i, (s, i) ∈ t_ports tp -> i <> -1;
  sf_ne : s <> d;
  sf_dst : cstr (sp_destip sp) = Some d;
  sf_flag : sp_route_disc_flag sp <> 1;
  sf_id : B = cur_broadcast_id (c_node cn s) + 1;
  sf_route : Forall (fun e => cstr (destip e) <> Some d) (table (c_node cn s));
  sf_ids : forall v i, (v, i) ∈ t_ports tp ->
    Forall (fun e => cstr (destip e) = Some s -> r_broadcast_id e < B) (table (c_node cn v));
  sf_wire : Forall (fun c => on_frame c (fun fr =>
    m_src (abs_msg fr) = s -> broadcast_id fr < B)) (c_wire cn);
}.
End Definitions.

(** * Lemmas *)

Lemma table_lookup st T k x e :
  rt_rep (rt st) T -> T !! k = Some (x, e) -> e ∈ table st /\ cstr (destip e) = Some k.
Proof.
  intros (kl & Hrep & Hok & Hnd & ->) Hl. apply elem_of_list_to_map_2 in Hl.
  unfold table. rewrite (dwalk_spec _ _ _ Hrep). split.
  - apply list_elem_of_fmap. exists (x, e). split; [done|]. apply list_elem_of_fmap. by exists (k, (x, e)).
  - rewrite Forall_forall in Hok. apply (Hok _ Hl).
Qed.

Lemma not_expired stale t r : tv_sec t - tv_sec (r_seen r) < stale -> a_expired stale t 0 r = false.
Proof. intros H. unfold a_expired. rewrite orb_false_r, Z.geb_leb. by apply Z.leb_gt. Qed.

(** A route that is fresh at both readings of the clock is not dropped. *)
Lemma fresh_not_dropped {os : OS} stale m R k r :
  tv_sec (os_time (a_clock R)) - tv_sec (r_seen r) < stale ->
  tv_sec (os_time (S (a_clock R))) - tv_sec (r_seen r) < stale -> (k = m_dst m -> m_rdf m <> 1) ->
  ~ dropped stale m R k r.
Proof.
  intros H0 H1 Hrdf [[Hd Hx]|[_ Hx]].
  - pose proof (not_expired stale _ r H0) as Hn. unfold a_expired in Hx, Hn. rewrite orb_false_r in Hn.
    rewrite Hn in Hx. cbn [orb] in Hx. apply Z.eqb_eq in Hx. by apply Hrdf.
  - rewrite not_expired in Hx; [done|]. by destruct (a_lookup_clock stale (m_rdf m) (m_dst m) R) as [->| ->].
Qed.

Section Daemons.
Context (tp : topology) (os_of : buf -> OS) (stale_of : buf -> Z) (known : buf -> Prop).
Context (s d : buf) (B : Z).
Hypothesis Hwired : wired tp os_of known.

Abbreviation sim := (sim tp os_of stale_of known).

(** An abstract route is an entry of the table. *)
Lemma sim_route cn w v i k r :
  sim cn w -> (v, i) ∈ t_ports tp -> a_routes (n_router w v) !! k = Some r ->
  exists x e, e ∈ table (c_node cn v) /\ cstr (destip e) = Some k /\ r = abs_route (x, e).
Proof.
  intros Hsim Hin Hr. destruct (sim_nodes _ _ _ _ _ _ Hsim v i Hin) as (_ & _ & T & q & Hinv & HE).
  rewrite <- HE in Hr. cbn in Hr. rewrite lookup_fmap in Hr.
  destruct (T !! k) as [[x e]|] eqn:ET; [|done]. injection Hr as <-. exists x, e.
  destruct (table_lookup _ _ _ _ _ (inv_rt _ _ _ _ Hinv) ET). by split_and!.
Qed.

Lemma sim_route_machine cn w v k r :
  sim cn w -> a_routes (n_router w v) !! k = Some r -> exists i, (v, i) ∈ t_ports tp.
Proof.
  intros Hsim Hr. destruct (decide (v ∈ (t_ports tp).*1)) as [Hv|Hv].
  { apply list_elem_of_fmap in Hv as ([v' i] & -> & Hi). by exists i. }
  rewrite (sim_absent _ _ _ _ _ _ Hsim) in Hr; [by rewrite lookup_empty in Hr|].
  intros i Hi. apply Hv. apply list_elem_of_fmap. by exists (v, i).
Qed.

Lemma carries_frame c p (P : odr_frame -> Prop) :
  carries c p -> on_frame c P -> exists fr, P fr /\ abs_msg fr = p_msg p.
Proof.
  intros (_ & _ & _ & _ & fr & dip & sip & Hb & _ & Hm) H. unfold on_frame in H. rewrite Hb in H.
  by exists fr.
Qed.

(** The conditions on bytes and heaps are the conditions of file Shortest. *)
Lemma quiet_recv cn w c p ports :
  sim cn w -> carries c p -> (p_to p, p_if p) ∈ t_ports tp -> cquiet os_of s d B cn (CRecv c) ->
  quiet os_of stale_of s d B w (Recv p ports).
Proof.
  intros Hsim Hcp Hin [Hfr Hy]. destruct (carries_frame _ _ _ Hcp Hfr) as (fr & [Hsrc Hrdf] & Hm).
  rewrite Hm in Hsrc, Hrdf. split; [done|]. intros r Hr Hdrop.
  assert (c_to c = p_to p) as Hto by apply Hcp. rewrite Hto in Hy.
  destruct (sim_nodes _ _ _ _ _ _ Hsim _ _ Hin) as (Hst & _ & T & q & _ & HE).
  destruct (sim_route cn w _ _ _ _ Hsim Hin Hr) as (x & e & He & Hip & ->).
  unfold young in Hy. rewrite Forall_forall in Hy. destruct (Hy e He Hip) as [H0 H1]. rewrite Hst in H0, H1.
  assert (a_clock (n_router w (p_to p)) = clock (c_node cn (p_to p))) as Hclk by (by rewrite <- HE).
  revert Hdrop. apply fresh_not_dropped; rewrite ?Hclk; [done..|]. intros Hd. rewrite <- Hm. by apply Hrdf.
Qed.

Lemma ticked_routes n k w v :
  a_routes (n_router (ticked tp n k w) v) = a_routes (n_router w v) /\
  a_ctr (n_router (ticked tp n k w) v) = a_ctr (n_router w v) /\
  n_pool (ticked tp n k w) = n_pool w.
Proof.
  unfold ticked, moved. cbn. rewrite app_nil_r. destruct (decide (n = v)) as [<-|Hv].
  - by rewrite fn_lookup_insert.
  - by rewrite fn_lookup_insert_ne.
Qed.

(** A frame is received on a port of the topology. *)
Lemma sim_port cn w p ports w' :
  sim cn w -> net_step tp os_of stale_of w (Recv p ports) w' -> (p_to p, p_if p) ∈ t_ports tp.
Proof.
  intros Hsim Hstep. inversion Hstep as [lp1 p' lp2 ports' Hpool| | |]; subst.
  destruct (sim_sound _ _ _ _ _ _ Hsim) as [_ Hp]. rewrite Hpool in Hp.
  apply Forall_app in Hp as [_ [(u & i & [_ [? _]%elem_of_peers] & _) _]%Forall_cons]. done.
Qed.

Lemma quiet_step cn w0 w e cn' :
  sim cn w -> quiet_run tp os_of stale_of s d B w0 w ->
  in_range tp os_of known cn e -> cstep tp os_of cn e cn' -> cquiet os_of s d B cn e ->
  exists w', quiet_run tp os_of stale_of s d B w0 w' /\ sim cn' w'.
Proof using Hwired.
  intros Hsim Hrun Hr Hs Hq. destruct Hs as [l1 c l2 r s' Hw Hh Hge Hac|n sp r s' Hh Hge Hac|l1 c l2 Hw].
  - destruct (sim_recv _ _ _ _ Hwired cn w l1 c l2 Hsim Hw Hr)
      as (r' & s'' & p & ports & w' & Hh' & Hcp & Hstep & Hgo).
    assert (s'' = s') as -> by congruence. destruct (Hgo Hac) as [Hsim' _]. exists w'. split; [|done]. eapply quiet_snoc; [done..|].
    eapply quiet_recv; [done..| |done]. exact (sim_port _ _ _ _ _ Hsim Hstep).
  - destruct (sim_ask _ _ _ _ Hwired cn w n sp Hsim Hr) as (r' & s'' & k & port & ports & Hh' & Hgo).
    assert (s'' = s') as -> by congruence. destruct (Hgo Hac) as [Hsim' _]. eexists. split; [|exact Hsim'].
    eapply quiet_snoc; [eapply quiet_snoc; [exact Hrun|apply net_tick|done]|apply net_ask|].
    intros x _ Hd. exfalso. destruct Hr as (i & dip & data & path & _ & _ & Hok & _).
    cbn in Hd. rewrite (rq_dst _ _ _ _ Hok) in Hd. cbn in Hd. apply Hq. by rewrite (rq_dst _ _ _ _ Hok), Hd.
  - destruct (sim_lose _ _ _ _ Hwired cn w l1 c l2 Hsim Hw) as (p & w' & Hcp & Hstep & Hsim').
    exists w'. split; [|done]. eapply quiet_snoc; [done..|].
    destruct (carries_frame _ _ _ Hcp Hq) as (fr & Hc & Hm). cbn. by rewrite <- Hm.
Qed.

Lemma quiet_sim_run cn0 w0 cn :
  sim cn0 w0 -> cquiet_run tp os_of known s d B cn0 cn ->
  exists w, quiet_run tp os_of stale_of s d B w0 w /\ sim cn w.
Proof using Hwired.
  intros Hsim Hrun. induction Hrun as [|cn e cn' _ (w & Hw & Hs) Hr Hstep Hq].
  { exists w0. split; [constructor|done]. }
  by eapply quiet_step.
Qed.

(** The first step: the request. *)
Lemma start_just_asked cn0 w0 sp cn1 :
  sim cn0 w0 -> in_range tp os_of known cn0 (CAsk s sp) -> starts_flood tp s d B cn0 sp ->
  cstep tp os_of cn0 (CAsk s sp) cn1 ->
  exists w1, just_asked tp s d B w1 /\ sim cn1 w1.
Proof using Hwired.
  intros Hsim Hr Hst Hs. inversion Hs as [|n sp' r s' Hh Hge Hac|]; subst.
  destruct Hst as [Hif Hne Hd Hfl HB Hno Hids Hwire].
  destruct (sim_ask _ _ _ _ Hwired cn0 w0 s sp Hsim Hr) as (r' & s'' & k & port & ports & Hh' & Hgo).
  assert (s'' = s') as -> by congruence. destruct (Hgo Hac) as [Hsim' _]. eexists. split; [|exact Hsim'].
  destruct Hr as (i & dip & data & path & Hi & _).
  destruct (sim_nodes _ _ _ _ _ _ Hsim s i Hi) as (_ & _ & T & q & _ & HE).
  assert (cur_broadcast_id (c_node cn0 s) = a_ctr (n_router (ticked tp s k w0) s)) as Hc.
  { rewrite (proj1 (proj2 (ticked_routes s k w0 s))). by rewrite <- HE. }
  rewrite Hc in HB. rewrite HB. apply ask_just_asked; try done.
  - intros v x. rewrite (proj1 (ticked_routes s k w0 v)). intros Hx.
    destruct (sim_route_machine cn0 w0 v s x Hsim Hx) as [j Hj].
    destruct (sim_route cn0 w0 v j s x Hsim Hj Hx) as (l & e & He & Hip & ->).
    pose proof (Hids v j Hj) as Hf. rewrite Forall_forall in Hf. specialize (Hf e He Hip).
    cbn [abs_route r_bid snd]. lia.
  - rewrite (proj2 (proj2 (ticked_routes s k w0 s))). pose proof (sim_wire _ _ _ _ _ _ Hsim) as HF.
    apply (Forall2_Forall_r _ _ _ _ HF). eapply Forall_impl; [exact Hwire|]. intros c Hc' p Hcp.
    destruct (carries_frame c p _ Hcp Hc') as (fr & H & Hm). rewrite <- Hm. intros E.
    specialize (H E). cbn [abs_msg m_bid]. lia.
  - cbn. by rewrite Hd.
  - rewrite (proj1 (ticked_routes s k w0 s)). apply eq_None_not_Some. intros [x Hx].
    destruct (sim_route cn0 w0 s i d x Hsim Hi Hx) as (l & e & He & Hip & _).
    rewrite Forall_forall in Hno. by apply (Hno e He).
Qed.

(** What the abstract network says, about tables. *)
Lemma learned_entry cn w v r :
  sim cn w -> learned s B w v r ->
  exists e, entry_of s B cn v e /\ r_if r = if_no e /\ r_hops r = no_hops e /\
            r_via r = take HWADDR (next_hop e).
Proof.
  intros Hsim [Hr Hb]. destruct (sim_route_machine _ _ _ _ _ Hsim Hr) as [i Hi].
  destruct (sim_route _ _ _ _ _ _ Hsim Hi Hr) as (x & e & He & Hip & ->). by exists e.
Qed.

Lemma leads_home_tables cn w v n :
  sim cn w -> leads_home tp s B w v n -> tables_lead_home tp s B cn v n.
Proof using Hwired.
  intros Hsim Hh. induction Hh as [|v r u i n Hr Hl Hv _ IH]; [constructor|].
  destruct (learned_entry cn w v r Hsim Hr) as (e & He & Ei & _ & Ev).
  rewrite Ei in Hl. econstructor; [done..| |done]. rewrite <- Ev, Hv. apply take_ge.
  by rewrite (wd_mac_len _ _ _ Hwired).
Qed.
End Daemons.

(** * Properties *)


Lemma cquiet_crun tp os_of known s d B cn0 cn1 cn :
  crun tp os_of known cn0 cn1 -> cquiet_run tp os_of known s d B cn1 cn -> crun tp os_of known cn0 cn.
Proof. intros H0 Hq. induction Hq as [|cn e cn' _ IH Hr Hs _]; [done|by eapply crun_snoc]. Qed.

(** ** The ring of vm1 to vm4 *)

(** Deliveries in order, as long as they are in range and leave the flood alone. *)
Section QuietRecvs.
Context (tp : topology) (os_of : buf -> OS) (known : buf -> Prop) (s d : buf) (B : Z).

#[export] Instance on_frame_dec c P `{!forall fr, Decision (P fr)} : Decision (on_frame c P).
Proof. unfold on_frame. destruct (process_recvd_frame (c_bytes c)); apply _. Defined.

#[local] Instance young_dec n st : Decision (young os_of s n st).
Proof. unfold young. apply _. Defined.

#[local] Instance cquiet_recv_dec cn c : Decision (cquiet os_of s d B cn (CRecv c)).
Proof. unfold cquiet. apply _. Defined.

#[export] Instance recv_in_range_dec cn c : Decision (recv_in_range cn c).
Proof.
  unfold recv_in_range. apply and_dec; [|apply _].
  refine (cast_if (decide (on_frame c (fun fr => int_ok (hop_count fr + 1) = true)))); unfold on_frame in *.
  - intros fr H. by rewrite H in *.
  - intros H. destruct (process_recvd_frame (c_bytes c)); [by apply n, H|by apply n].
Defined.

Fixpoint cquiet_recvs (fuel : nat) (cn : cnet) : option cnet :=
  match fuel, c_wire cn with
  | S fuel', c :: rest =>
      if decide (recv_in_range cn c /\ cquiet os_of s d B cn (CRecv c)) then
        match @handle_ethernet_msg (os_of (c_to c)) (c_addr c) (c_bytes c) (c_node cn (c_to c)) with
        | Ok r s' => if decide (0 <= r /\ accepted (c_node cn (c_to c)) s') then cquiet_recvs fuel' (cmoved tp cn (c_to c) s' rest) else None
        | _ => None
        end
      else None
  | _, _ => Some cn
  end.

Lemma cquiet_recvs_run fuel cn0 cn cn' :
  cquiet_run tp os_of known s d B cn0 cn -> cquiet_recvs fuel cn = Some cn' ->
  cquiet_run tp os_of known s d B cn0 cn'.
Proof.
  revert cn. induction fuel as [|fuel IH]; intros cn Hrun; cbn; [by intros [= <-]|].
  destruct (c_wire cn) as [|c rest] eqn:Ew; [by intros [= <-]|].
  destruct (decide _) as [[Hr Hq]|]; [|done].
  destruct (handle_ethernet_msg _ _ _) as [r s'| |] eqn:Eh; [|done..].
  destruct (decide (0 <= r /\ _)) as [[Hge Hac]|]; [|done]. apply IH.
  apply (cquiet_snoc _ _ _ _ _ _ _ cn (CRecv c)); [done|done| |done].
  by apply (cstep_recv tp os_of cn [] c rest r s').
Qed.

(** The request [sp] of a process of machine [s], and deliveries after it. *)
Definition flood_run (cn : cnet) (sp : send_params) (fuel : nat) : option cnet :=
  match @handle_peer_msg (os_of s) sp (c_node cn s) with
  | Ok r s' => if decide (0 <= r /\ accepted (c_node cn s) s') then cquiet_recvs fuel (cmoved tp cn s s' (c_wire cn)) else None
  | _ => None
  end.

Lemma flood_run_steps cn sp fuel cn' :
  flood_run cn sp fuel = Some cn' ->
  exists cn1, cstep tp os_of cn (CAsk s sp) cn1 /\ cquiet_run tp os_of known s d B cn1 cn'.
Proof.
  unfold flood_run. destruct (handle_peer_msg _ _) as [r s'| |] eqn:Eh; [|done..].
  destruct (decide (0 <= r /\ _)) as [[Hge Hac]|]; [|done]. intros Hr.
  eexists. split; [by eapply cstep_ask|]. eapply cquiet_recvs_run; [constructor|done].
Qed.

(** No copy is on the wire. *)
Definition at_rest (cn : cnet) : Prop :=
  Forall (fun c => on_frame c (fun fr => ~ copy_of s d B (abs_msg fr))) (c_wire cn).
#[export] Instance at_rest_dec cn : Decision (at_rest cn).
Proof. unfold at_rest. apply _. Defined.
End QuietRecvs.

Abbreviation ring_rest :=
  (flood_run ring4 line_os (vm_ip 1) (vm_ip 3) 11 ring_start (demo_request "130.245.156.23" 5500) 4).

Lemma ring_starts_flood :
  starts_flood ring4 (vm_ip 1) (vm_ip 3) 11 ring_start (demo_request "130.245.156.23" 5500).
Proof.

  split; try done.
  - intros i Hi. assert (Forall (fun p : buf * Z => p.2 <> -1) (t_ports ring4)) as H by (by repeat constructor).
    rewrite Forall_forall in H. by apply (H (vm_ip 1, i)).
Qed.

(** The flood goes on until no copy is left. *)
Lemma ring_rest_run :
  match ring_rest with
  | Some cn => exists cn1, cstep ring4 line_os ring_start ring_request cn1 /\
      cquiet_run ring4 line_os ring_known (vm_ip 1) (vm_ip 3) 11 cn1 cn /\
      at_rest (vm_ip 1) (vm_ip 3) 11 cn
  | None => False
  end.
Proof.
  assert (match ring_rest with
          | Some cn => bool_decide (at_rest (vm_ip 1) (vm_ip 3) 11 cn)
          | None => false
          end = true) as Hrest by (vm_compute; reflexivity).
  revert Hrest. generalize (flood_run_steps ring4 line_os ring_known (vm_ip 1) (vm_ip 3) 11 ring_start
    (demo_request "130.245.156.23" 5500) 4).
  destruct ring_rest as [cn|]; [|intros _ Hf; discriminate Hf]. intros Hstep Hrest.
  apply bool_decide_eq_true in Hrest. destruct (Hstep cn eq_refl) as (cn1 & Hs & Hrun).
  exists cn1. split; [exact Hs|]. split; [exact Hrun|exact Hrest].
Qed.

Lemma ring_way : walk ring4 (vm_ip 1) (vm_ip 3) 2.
Proof.
  apply (walk_snoc ring4 _ (vm_ip 2) 4 _ 3); [apply (walk_snoc ring4 _ (vm_ip 1) 4 _ 3); [constructor|]|];
    (split; [repeat constructor|]); apply (bool_decide_eq_true_1 _); by vm_compute.
Qed.

(** After the flood vm3 has an entry, and it is real. *)
Lemma daemon_tables_real_witness :
  match ring_rest with
  | Some cn => crun ring4 line_os ring_known ring_start cn /\
      (exists e, table (c_node cn (vm_ip 3)) = [e] /\ cstr (destip e) = Some (vm_ip 1)) /\
      exists T q, @inv (line_os (vm_ip 3)) (vm_ip 3) T q (c_node cn (vm_ip 3)) /\
        forall d x e, T !! d = Some (x, e) ->
          exists u j k, linked ring4 u j (vm_ip 3) (if_no e) /\
            take HWADDR (next_hop e) = t_mac ring4 (u, j) /\ walk ring4 d u k
  | None => False
  end.
Proof.
  assert (match ring_rest with
          | Some cn => match table (c_node cn (vm_ip 3)) with
                       | [e] => bool_decide (cstr (destip e) = Some (vm_ip 1))
                       | _ => false
                       end
          | None => false
          end = true) as Htable by (vm_compute; reflexivity).
  pose proof ring_rest_run as Hrun. destruct ring_rest as [cn|]; [|exact Hrun].
  destruct Hrun as (cn1 & Hs & Hrun & _).
  assert (crun ring4 line_os ring_known ring_start cn) as Hc.
  { refine (cquiet_crun _ _ _ _ _ _ _ _ _ _ Hrun). exact (crun_snoc _ _ _ _ _ _ _ (crun_nil _ _ _ _) ring_request_in_range Hs). }
  split; [exact Hc|]. split.
  - destruct (table (c_node cn (vm_ip 3))) as [|e [|]]; [discriminate Htable| |discriminate Htable].
    exists e. split; [reflexivity|exact (bool_decide_eq_true_1 _ Htable)].
  - apply (daemon_tables_real ring4 line_os line_stale ring_known ring_start (net_init (fun _ => 10)) cn
             (vm_ip 3) 3 ring_wired ring_sim Hc).
    apply (bool_decide_eq_true_1 ((vm_ip 3, 3) ∈ t_ports ring4)). vm_compute. reflexivity.
Defined.

