(* ===== verification/NetBound.v ===== *)
(** * The cost of floods among daemons

    The result of file Flood, about the bytes on the wire and the heaps of the
    daemons: as long as no daemon drops a route, the number of flooded frames
    received is bounded by the frames on the wire at the start and the frames
    parked since. *)

From stdpp Require Import functions.
From S2P Require Import Prelude CLib Inet Frame DList Node Demo Utils Ports RTable Print PQueue Send.
From S2P Require Import Handlers Spec SpecFacts Network NetDemo Flood Shortest Refine Peer Behaviour.
From S2P Require Import NetSim NetFlood.

(** The frames in the pending queue of a process. *)
Definition waiting (st : node) : list pending_msg :=
  match dwalk (pq st) with Def l => l | Bad _ => [] end.

(** A route to [k] is in the table. *)
Definition routed (k : buf) (st : node) : Prop := Exists (fun e => cstr (destip e) = Some k) (table st).

Section Definitions.
Context (tp : topology) (os_of : buf -> OS) (known : buf -> Prop).

(** No entry is stale at the next two readings of the clock. *)
Definition all_young (n : buf) (st : node) : Prop :=
  Forall (fun e => tv_sec (@os_time (os_of n) (clock st)) - tv_sec (timestamp e) < stale_param st /\
                   tv_sec (@os_time (os_of n) (S (clock st))) - tv_sec (timestamp e) < stale_param st)
         (table st).

(** No daemon drops a route in this step: a frame finds only fresh ones and does
    not ask for rediscovery, a request leaves the route to its destination. *)
Definition ckeeps (cn : cnet) (e : cevent) (cn' : cnet) : Prop :=
  match e with
  | CRecv c => on_frame c (fun fr => route_disc_flag fr <> 1) /\ all_young (c_to c) (c_node cn (c_to c))
  | CAsk n sp => forall k, cstr (sp_destip sp) = Some k -> k <> n -> routed k (c_node cn n) -> routed k (c_node cn' n)
  | CLose _ => True
  end.

Definition cflood_received (e : cevent) : nat :=
  match e with
  | CRecv c => match process_recvd_frame (c_bytes c) with
               | Def fr => if (frame_type fr =? __RREQ) || (frame_type fr =? __ASENT) then 1 else 0
               | Bad _ => 0
               end
  | _ => 0
  end.

(** By how much the queue of the machine concerned grows. *)
Definition cparked_by (cn : cnet) (e : cevent) (cn' : cnet) : nat :=
  match e with
  | CRecv c => length (waiting (c_node cn' (c_to c))) - length (waiting (c_node cn (c_to c)))
  | CAsk n _ => length (waiting (c_node cn' n)) - length (waiting (c_node cn n))
  | CLose _ => 0
  end.

Inductive ccalm_run (cn0 : cnet) : nat -> nat -> cnet -> Prop :=
  | ccalm_nil : ccalm_run cn0 0 0 cn0
  | ccalm_snoc f q cn e cn' :
      ccalm_run cn0 f q cn -> in_range tp os_of known cn e -> cstep tp os_of cn e cn' -> ckeeps cn e cn' ->
      ccalm_run cn0 (f + cflood_received e) (q + cparked_by cn e cn') cn'.
End Definitions.

(** * Lemmas *)

Section Daemons.
Context (tp : topology) (os_of : buf -> OS) (stale_of : buf -> Z) (known : buf -> Prop).
Hypothesis Hwired : wired tp os_of known.

Abbreviation sim := (sim tp os_of stale_of known).

Lemma sim_waiting cn w n i :
  sim cn w -> (n, i) ∈ t_ports tp -> length (waiting (c_node cn n)) = length (a_parked (n_router w n)).
Proof.
  intros Hsim Hin. destruct (sim_nodes _ _ _ _ _ _ Hsim n i Hin) as (_ & _ & T & q & Hinv & HE).
  rewrite <- HE. cbn. rewrite length_fmap. destruct (inv_pq _ _ _ _ Hinv) as (p & l & Hrep & HF).
  unfold waiting. rewrite (dwalk_spec _ _ _ Hrep), length_fmap. by eapply Forall2_length.
Qed.

Lemma sim_routed cn w n i k :
  sim cn w -> (n, i) ∈ t_ports tp -> routed k (c_node cn n) <-> is_Some (a_routes (n_router w n) !! k).
Proof.
  intros Hsim Hin. split.
  - destruct (sim_nodes _ _ _ _ _ _ Hsim n i Hin) as (_ & _ & T & q & Hinv & HE). rewrite <- HE.
    destruct (inv_rt _ _ _ _ Hinv) as (kl & Hrep & Hok & Hnd & ->). unfold routed, table.
    rewrite (dwalk_spec _ _ _ Hrep), Exists_exists. intros (e & He & Hk).
    apply list_elem_of_fmap in He as ([x e'] & -> & He). apply list_elem_of_fmap in He as ([k' xe] & E & He).
    cbn in E. subst xe. rewrite Forall_forall in Hok. pose proof (Hok _ He) as Hok'. cbn in Hok'.
    assert (k' = k) as ->. { destruct Hok' as [Hd _]. cbn in Hk. congruence. }
    cbn [abs_router a_routes]. rewrite lookup_fmap, (elem_of_list_to_map_1 _ _ _ Hnd He). by eexists.
  - intros [r Hr]. destruct (sim_route tp os_of stale_of known _ _ _ _ _ _ Hsim Hin Hr) as (x & e & He & Hk & _).
    apply Exists_exists. by exists e.
Qed.

Lemma keeps_recv cn w c p ports cn' :
  sim cn w -> carries c p -> (p_to p, p_if p) ∈ t_ports tp -> ckeeps os_of cn (CRecv c) cn' ->
  keeps os_of stale_of w (Recv p ports).
Proof.
  intros Hsim Hcp Hin [Hfr Hy] k r Hr Hdrop. destruct (carries_frame _ _ _ Hcp Hfr) as (fr & Hrdf & Hm).
  assert (c_to c = p_to p) as Hto by apply Hcp. rewrite Hto in Hy.
  destruct (sim_nodes _ _ _ _ _ _ Hsim _ _ Hin) as (Hst & _ & T & q & _ & HE).
  destruct (sim_route tp os_of stale_of known cn w _ _ _ _ Hsim Hin Hr) as (x & e & He & Hip & ->).
  unfold all_young in Hy. rewrite Forall_forall in Hy. destruct (Hy e He) as [H0 H1]. rewrite Hst in H0, H1.
  assert (a_clock (n_router w (p_to p)) = clock (c_node cn (p_to p))) as Hclk by (by rewrite <- HE).
  revert Hdrop. apply fresh_not_dropped; rewrite ?Hclk; [done..|]. intros _. by rewrite <- Hm.
Qed.

Lemma received_frame c p : carries c p -> cflood_received (CRecv c) = if is_flood (p_msg p) then 1%nat else 0%nat.
Proof. intros (_ & _ & _ & _ & fr & dip & sip & Hb & _ & Hm). cbn. by rewrite Hb, <- Hm. Qed.

(** A route that has aged is dropped by a request and not learned again. *)
Lemma expired_dropped {os : OS} ip stale ports port rq R r :
  q_dst rq <> ip -> a_routes R !! q_dst rq = Some r ->
  a_expired stale (os_time (a_clock R)) (q_flag rq) r = true ->
  a_routes (spec_request ip stale ports port rq R).1 !! q_dst rq = None.
Proof.
  intros Hne Hr Hx. unfold spec_request. rewrite decide_False by done.
  assert (a_routes (a_lookup stale (q_flag rq) (q_dst rq) R) !! q_dst rq = None) as Hn.
  { unfold a_lookup. rewrite Hr, Hx. cbn. apply lookup_delete_eq. }
  cbv zeta. by rewrite Hn.
Qed.

Lemma calm_step cn w0 f q w e cn' :
  sim cn w -> calm_run tp os_of stale_of w0 f q w ->
  in_range tp os_of known cn e -> cstep tp os_of cn e cn' -> ckeeps os_of cn e cn' ->
  exists w', calm_run tp os_of stale_of w0 (f + cflood_received e) (q + cparked_by cn e cn') w' /\ sim cn' w'.
Proof using Hwired.
  intros Hsim Hrun Hr Hs Hk. destruct Hs as [l1 c l2 r s' Hw Hh Hge Hac|n sp r s' Hh Hge Hac|l1 c l2 Hw].
  - destruct (sim_recv _ _ _ _ Hwired cn w l1 c l2 Hsim Hw Hr)
      as (r' & s'' & p & ports & w' & Hh' & Hcp & Hstep & Hgo).
    assert (s'' = s') as -> by congruence. destruct (Hgo Hac) as [Hsim' _]. clear Hgo. exists w'. split; [|done].
    pose proof (sim_port _ _ _ _ _ _ _ _ _ Hsim Hstep) as Hin. assert (c_to c = p_to p) as Hto by apply Hcp.
    rewrite (received_frame c p Hcp). cbn [cparked_by].
    rewrite Hto, (sim_waiting cn w _ _ Hsim Hin), <- Hto, (sim_waiting _ w' (c_to c) (p_if p) Hsim'), Hto by (by rewrite Hto).
    apply (calm_snoc tp os_of stale_of w0 f q w (Recv p ports) w'); [done..|]. by eapply keeps_recv.
  - pose proof Hr as (i & dip & data & path & Hin & _ & Hok & _).
    destruct (sim_ask _ _ _ _ Hwired cn w n sp Hsim Hr) as (r' & s'' & k & port & ports & Hh' & Hgo0).
    assert (s'' = s') as -> by congruence. destruct (Hgo0 Hac) as [Hsim' _]. clear Hgo0. eexists. split; [|exact Hsim'].
    cbn [cparked_by cflood_received]. rewrite (sim_waiting _ _ n i Hsim Hin), (sim_waiting _ _ n i Hsim' Hin).
    assert (calm_run tp os_of stale_of w0 f q (ticked tp n k w)) as Ht.
    { rewrite <- (Nat.add_0_r f), <- (Nat.add_0_r q).
      apply (calm_snoc tp os_of stale_of w0 f q w (Tick n k)); [done|apply net_tick|done]. }
    pose proof (calm_snoc tp os_of stale_of w0 f q _ (Ask n port (abs_request sp) ports) _ Ht (net_ask _ _ _ _ _ _ _ _)) as Hgo.
    cbn [parked_by flood_received] in Hgo. unfold newly_parked in Hgo.
    replace (a_parked (n_router (ticked tp n k w) n)) with (a_parked (n_router w n)) in Hgo
      by (unfold ticked, moved; cbn; by rewrite fn_lookup_insert).
    apply Hgo. intros x Hne Hx. destruct (a_expired _ _ _ _) eqn:Ex; [|done]. exfalso.
    assert (q_dst (abs_request sp) = dip) as Hd by (cbn; by rewrite (rq_dst _ _ _ _ Hok)).
    pose proof (@expired_dropped (os_of n) n (stale_of n) ports port (abs_request sp) _ x Hne Hx Ex) as Hnone.
    rewrite Hd in *. rewrite (proj1 (ticked_routes tp n k w n)) in Hx.
    assert (routed dip (c_node (cmoved tp cn n s' (c_wire cn)) n)) as Hrt.
    { apply (Hk dip); [apply (rq_dst _ _ _ _ Hok)|done|]. apply (sim_routed cn w n i dip Hsim Hin). by exists x. }
    apply (sim_routed _ _ n i dip Hsim' Hin) in Hrt as [y Hy]. revert Hy. unfold do_ask, moved. cbn [n_router].
    rewrite fn_lookup_insert. unfold asked. by rewrite Hnone.
  - destruct (sim_lose _ _ _ _ Hwired cn w l1 c l2 Hsim Hw) as (p & w' & Hcp & Hstep & Hsim').
    exists w'. split; [|done]. cbn [cflood_received cparked_by].
    by apply (calm_snoc tp os_of stale_of w0 f q w (Lose p) w').
Qed.

Lemma calm_sim_run cn0 w0 f q cn :
  sim cn0 w0 -> ccalm_run tp os_of known cn0 f q cn ->
  exists w, calm_run tp os_of stale_of w0 f q w /\ sim cn w.
Proof using Hwired.
  intros Hsim Hrun. induction Hrun as [|f q cn e cn' _ (w & Hw & Hs) Hr Hstep Hk].
  { exists w0. split; [constructor|done]. }
  by eapply calm_step.
Qed.
End Daemons.

(** * Properties *)

(** C12: in a network of daemons, as long as none of them drops a route, floods
    end: the number of flooded frames (requests and their ASENT form) the daemons
    receive is bounded by a constant of the topology for every frame on the wire at
    the start and for every frame put in a pending queue since, whatever the order
    of deliveries, the losses, the requests of local processes and the other
    traffic. *)
Theorem daemons_floods_end tp os_of stale_of known cn0 w0 f q cn :
  wired tp os_of known -> sim tp os_of stale_of known cn0 w0 -> ccalm_run tp os_of known cn0 f q cn ->
  (f <= length (c_wire cn0) * copy_bound tp + q * flood_bound tp)%nat.
Proof.
  intros Hw Hsim Hrun. destruct (calm_sim_run _ _ _ _ Hw _ _ _ _ _ Hsim Hrun) as (w & Hcalm & _).
  rewrite (Forall2_length _ _ _ (sim_wire _ _ _ _ _ _ Hsim)). eapply floods_end; [|exact Hcalm].
  destruct (sim_sound _ _ _ _ _ _ Hsim) as [_ Hp]. eapply Forall_impl; [exact Hp|].
  intros p (u & i & [_ [Hin _]%elem_of_peers] & _). apply elem_of_remove_dups, list_elem_of_fmap. by exists (p_to p, p_if p).
Qed.

(** ** The ring of vm1 to vm4 *)

Section CalmRecvs.
Context (tp : topology) (os_of : buf -> OS) (known : buf -> Prop).

#[local] Instance all_young_dec n st : Decision (all_young os_of n st).
Proof. unfold all_young. apply _. Defined.

(** Deliveries in order, as long as they drop no route. *)
Fixpoint ccalm_recvs (fuel : nat) (f q : nat) (cn : cnet) : option (nat * nat * cnet) :=
  match fuel, c_wire cn with
  | S fuel', c :: rest =>
      if decide (recv_in_range cn c /\ (on_frame c (fun fr => route_disc_flag fr <> 1) /\
                 all_young os_of (c_to c) (c_node cn (c_to c)))) then
        match @handle_ethernet_msg (os_of (c_to c)) (c_addr c) (c_bytes c) (c_node cn (c_to c)) with
        | Ok r s' =>
            if decide (0 <= r /\ accepted (c_node cn (c_to c)) s') then
              let cn' := cmoved tp cn (c_to c) s' rest in
              ccalm_recvs fuel' (f + cflood_received (CRecv c)) (q + cparked_by cn (CRecv c) cn') cn'
            else None
        | _ => None
        end
      else None
  | _, _ => Some (f, q, cn)
  end.

Lemma ccalm_recvs_run fuel cn0 f q cn f' q' cn' :
  ccalm_run tp os_of known cn0 f q cn -> ccalm_recvs fuel f q cn = Some (f', q', cn') ->
  ccalm_run tp os_of known cn0 f' q' cn'.
Proof.
  revert f q cn. induction fuel as [|fuel IH]; intros f q cn Hrun; cbn [ccalm_recvs]; [by intros [= <- <- <-]|].
  destruct (c_wire cn) as [|c rest] eqn:Ew; [by intros [= <- <- <-]|].
  destruct (decide _) as [[Hr Hk]|]; [|done].
  destruct (handle_ethernet_msg _ _ _) as [r s'| |] eqn:Eh; [|done..].
  destruct (decide (0 <= r /\ _)) as [[Hge Hac]|]; [|done]. cbv zeta. apply IH.
  apply (ccalm_snoc tp os_of known cn0 f q cn (CRecv c)); [done|done| |done].
  by apply (cstep_recv tp os_of cn [] c rest r s').
Qed.

(** A request of a process of a machine without routes, and deliveries after it. *)
Definition calm_flood (cn : cnet) (n : buf) (sp : send_params) (fuel : nat) : option (nat * nat * cnet) :=
  match @handle_peer_msg (os_of n) sp (c_node cn n) with
  | Ok r s' =>
      if decide (0 <= r /\ accepted (c_node cn n) s') then
        let cn' := cmoved tp cn n s' (c_wire cn) in ccalm_recvs fuel 0 (cparked_by cn (CAsk n sp) cn') cn'
      else None
  | _ => None
  end.

Lemma calm_flood_run cn n sp fuel f q cn' :
  in_range tp os_of known cn (CAsk n sp) -> table (c_node cn n) = [] ->
  calm_flood cn n sp fuel = Some (f, q, cn') -> ccalm_run tp os_of known cn f q cn'.
Proof.
  intros Hr Ht. unfold calm_flood. destruct (handle_peer_msg _ _) as [r s'| |] eqn:Eh; [|done..].
  destruct (decide (0 <= r /\ _)) as [[Hge Hac]|]; [|done]. cbv zeta.
  apply ccalm_recvs_run. apply (ccalm_snoc tp os_of known cn 0 0 cn (CAsk n sp)); [constructor|done|by eapply cstep_ask|].
  intros k _ _ Hk. exfalso. unfold routed in Hk. rewrite Ht in Hk. by apply Exists_nil in Hk.
Qed.
End CalmRecvs.

Abbreviation ring_flood := (calm_flood ring4 line_os ring_start (vm_ip 1) (demo_request "130.245.156.23" 5500) 12).

(** The discovery of vm3 by vm1: four flooded frames are received, one frame is
    parked, and the wire is empty in the end; [flood_bound] allows 62. *)
Lemma daemons_floods_end_witness :
  match ring_flood with
  | Some (f, q, cn) =>
      f = 4%nat /\ q = 1%nat /\ c_wire cn = [] /\
      (f <= length (c_wire ring_start) * copy_bound ring4 + q * flood_bound ring4)%nat
  | None => False
  end.
Proof.
  assert (match ring_flood with
          | Some (f, q, cn) => (f =? 4)%nat && (q =? 1)%nat && bool_decide (c_wire cn = [])
          | None => false
          end = true) as Hc by (vm_compute; reflexivity).
  revert Hc. generalize (calm_flood_run ring4 line_os ring_known ring_start (vm_ip 1)
    (demo_request "130.245.156.23" 5500) 12).
  destruct ring_flood as [[[f q] cn]|]; [|intros _ Hf; discriminate Hf]. intros Hrun Hc.
  apply andb_true_iff in Hc as [[Hf Hq]%andb_true_iff Hwire].
  split; [by apply Nat.eqb_eq|]. split; [by apply Nat.eqb_eq|]. split; [by apply bool_decide_eq_true in Hwire|].
  apply (daemons_floods_end ring4 line_os line_stale ring_known ring_start (net_init (fun _ => 10)) f q cn
           ring_wired ring_sim).
  apply Hrun; [exact ring_request_in_range|reflexivity|reflexivity].
Defined.
