(* ===== verification/NetChain.v ===== *)
(** * Delivery along a chain of daemons

    The result of file Chain, about the daemons themselves: a process at one end
    of a chain of machines sends data to a process at the other end, and the
    handlers of the daemons, run on the frames in whatever order they arrive,
    deliver it. *)

From stdpp Require Import functions.
From S2P Require Import Prelude CLib Inet Frame DList Node Demo Utils Ports RTable Print PQueue Send.
From S2P Require Import Handlers Spec SpecFacts Network NetDemo Chain Refine Peer Behaviour.
From S2P Require Import NetSim NetFlood.

(** On no machine have two readings of the clock been as far apart as the staleness
    parameter of its daemon. *)
Definition crecent (tp : topology) (os_of : buf -> OS) (cn : cnet) : Prop :=
  forall u i, (u, i) ∈ t_ports tp -> @recent (os_of u) (stale_param (c_node cn u)) (clock (c_node cn u)).

(** Deliveries of the frames on the wire, in whatever order, lead to a state with
    [P]; until then there is always a frame to deliver, and its receiver handles
    it, unless the kernel refuses a datagram while it does.  This holds as long as the
    staleness time has not passed. *)
Inductive ceventually (tp : topology) (os_of : buf -> OS) (P : cnet -> Prop) (cn : cnet) : Prop :=
  | cev_now : P cn -> ceventually tp os_of P cn
  | cev_recv :
      c_wire cn <> [] ->
      (forall c, c ∈ c_wire cn -> refused os_of cn (CRecv c) \/ exists cn', cstep tp os_of cn (CRecv c) cn') ->
      (forall c cn', cstep tp os_of cn (CRecv c) cn' -> crecent tp os_of cn' -> ceventually tp os_of P cn') ->
      ceventually tp os_of P cn.

(** The table of machine [u] has an entry for [k] with this neighbour, interface
    and hop count. *)
Definition has_entry (cn : cnet) (u k via : buf) (i h : Z) : Prop :=
  exists e, e ∈ table (c_node cn u) /\ cstr (destip e) = Some k /\
    take HWADDR (next_hop e) = via /\ if_no e = i /\ no_hops e = h.

(** * Lemmas *)

Lemma ceventually_impl tp os_of (P Q : cnet -> Prop) cn :
  (forall cn', P cn' -> Q cn') -> ceventually tp os_of P cn -> ceventually tp os_of Q cn.
Proof. intros HPQ H. induction H as [cn HP|cn Hne Hgo _ IH]; [by apply cev_now, HPQ|by apply cev_recv]. Qed.

Section Daemons.
Context (tp : topology) (os_of : buf -> OS) (stale_of : buf -> Z) (known : buf -> Prop).
Hypothesis Hwired : wired tp os_of known.

Abbreviation sim := (sim tp os_of stale_of known).

Lemma sim_recent cn w : sim cn w -> crecent tp os_of cn -> all_recent tp os_of stale_of w.
Proof using Type.
  intros Hsim Hy u i Hin. specialize (Hy u i Hin).
  destruct (sim_nodes _ _ _ _ _ _ Hsim u i Hin) as (Hst & _ & T & q & _ & <-). by rewrite <- Hst.
Qed.

(** Frames within limits are within the range of [int]. *)
Lemma within_in_range hmax lo hi cn w c :
  hmax < INT_MAX -> INT_MIN < lo -> hi < INT_MAX -> sim cn w -> within hmax lo hi w -> c ∈ c_wire cn ->
  recv_in_range cn c.
Proof.
  intros Hh Hlo Hhi Hsim Hin Hc. apply list_elem_of_split in Hc as (l1 & l2 & Hw).
  pose proof (sim_wire _ _ _ _ _ _ Hsim) as HF. rewrite Hw in HF.
  apply Forall2_app_inv_l in HF as (lp1 & lp & _ & HF & Hpool). apply Forall2_cons_inv_l in HF as (p & lp2 & Hcp & _ & ->).
  unfold within in Hin. rewrite Hpool in Hin. apply Forall_app in Hin as [_ [[Hm Hct] _]%Forall_cons].
  destruct (sim_sound _ _ _ _ _ _ Hsim) as [_ Hp]. rewrite Hpool in Hp.
  apply Forall_app in Hp as [_ [(u & i & [_ [Hport _]%elem_of_peers] & _) _]%Forall_cons].
  pose proof Hcp as (Hto & _ & _ & _ & fr & dip & sip & Hb & _ & Habs). split.
  - intros fr' Hb'. assert (fr' = fr) as -> by congruence. rewrite <- Habs in Hm. cbn [abs_msg m_hop] in Hm.
    apply int_ok_spec. unfold INT_MIN in *. lia.
  - rewrite Hto. destruct (sim_nodes _ _ _ _ _ _ Hsim _ _ Hport) as (_ & _ & T & q & _ & HE).
    rewrite <- HE in Hct. cbn in Hct. lia.
Qed.

Lemma eventually_lift hmax lo hi ports (P : net -> Prop) w cn :
  hmax < INT_MAX -> INT_MIN < lo -> hi < INT_MAX ->
  eventually tp os_of stale_of ports (within hmax lo hi) P w ->
  sim cn w -> (forall u, abs_ports (c_node cn u) = ports u) ->
  ceventually tp os_of (fun cn' => exists w', P w' /\ sim cn' w' /\
                          forall u, same_ports (c_node cn u) (c_node cn' u)) cn.
Proof using Hwired.
  intros Hh Hlo Hhi Hev. revert cn. induction Hev as [w HP|w Hne Hok _ IH]; intros cn Hsim Hports.
  { apply cev_now. by exists w. }
  apply cev_recv.
  - intros Hw. pose proof (sim_wire _ _ _ _ _ _ Hsim) as HF. rewrite Hw in HF. apply Forall2_nil_inv_l in HF. done.
  - intros c Hc. pose proof (within_in_range hmax lo hi cn w c Hh Hlo Hhi Hsim Hok Hc) as Hr.
    apply list_elem_of_split in Hc as (l1 & l2 & Hw).
    destruct (sim_recv_ports _ _ _ _ Hwired cn w l1 c l2 Hsim Hw Hr) as (r & s' & p & w' & Hh' & _ & _ & _ & Hgo & _).
    destruct (decide (accepted (c_node cn (c_to c)) s')) as [Hac|Hac]; [right|left; by exists r, s'].
    destruct (Hgo Hac) as [_ Hge]. eexists. by eapply cstep_recv.
  - intros c cn' Hs Hy. inversion Hs as [l1 c' l2 r s' Hw Hh' Hge Hac| |]; subst.
    assert (recv_in_range cn c) as Hr.
    { apply (within_in_range hmax lo hi cn w c Hh Hlo Hhi Hsim Hok). rewrite Hw. set_solver. }
    destruct (sim_recv_ports _ _ _ _ Hwired cn w l1 c l2 Hsim Hw Hr) as (r' & s'' & p & w' & E & Hcp & Hstep & Hp & Hgo & _).
    assert (s'' = s') as -> by congruence. destruct (Hgo Hac) as [Hsim' _]. assert (c_to c = p_to p) as Hto by apply Hcp.
    assert (forall u, same_ports (c_node cn u) (c_node (cmoved tp cn (c_to c) s' (l1 ++ l2)) u)) as Hsame.
    { intros u. cbn [cmoved c_node]. destruct (decide (c_to c = u)) as [<-|Hu].
      - by rewrite fn_lookup_insert.
      - by rewrite fn_lookup_insert_ne. }
    rewrite Hports, Hto in Hstep. eapply ceventually_impl; [|eapply IH; [exact Hstep|by eapply sim_recent|exact Hsim'|]].
    + intros cn2 (w2 & H1 & H2 & H3). exists w2. split_and!; [done..|]. intros u. etrans; [apply Hsame|apply H3].
    + intros u. by rewrite (same_ports_abs _ _ (Hsame u)).
Qed.

Lemma ticked_fresh n k c : fresh_net c (ticked tp n k (net_init c)).
Proof.
  split; [done|done|]. intros u. unfold ticked, moved. cbn. destruct (decide (n = u)) as [<-|Hu].
  - by rewrite fn_lookup_insert.
  - by rewrite fn_lookup_insert_ne.
Qed.

Lemma has_table cn w u k via i h b : sim cn w -> has (n_router w u) k via i h b -> has_entry cn u k via i h.
Proof.
  intros Hsim [t Hr]. destruct (sim_route_machine tp os_of stale_of known cn w u k _ Hsim Hr) as [j Hj].
  destruct (sim_route tp os_of stale_of known cn w u j k _ Hsim Hj Hr) as (x & e & He & Hk & E). injection E as -> -> -> -> ->.
  by exists e.
Qed.
End Daemons.

(** * Properties *)

(** The daemons of a chain of any number of machines have just started, and a
    process at one end sends data to a process at the other.  The daemon handles the
    request; then, in whatever order frames are delivered, every daemon handles
    the frames it gets, until no frame is on the wire.  By then the data has been
    handed to the process, exactly once and with the sender's address, nothing else
    has been handed to anybody, and the routing table of every machine has entries
    for both ends with the number of links as hop count.  All this as long as the
    kernel accepts every datagram and the staleness time has not passed on any machine. *)
Theorem daemons_deliver tp os_of stale_of known n v lft rgt cn0 c sp path :
  wired tp os_of known -> sim tp os_of stale_of known cn0 (net_init c) ->
  (0 < n)%nat -> chain tp n v lft rgt ->
  Z.of_nat n < INT_MAX -> 0 <= c (v 0%nat) ->
  (forall i, (i <= n)%nat -> INT_MIN < c (v i) /\ c (v i) + 2 < INT_MAX) ->
  in_range tp os_of known cn0 (CAsk (v 0%nat) sp) ->
  cstr (sp_destip sp) = Some (v n) -> sp_route_disc_flag sp <> 1 ->
  abs_ports (c_node cn0 (v n)) (sp_destport sp) = Some path ->
  refused os_of cn0 (CAsk (v 0%nat) sp) \/
  exists cn1 port, cstep tp os_of cn0 (CAsk (v 0%nat) sp) cn1 /\
    ceventually tp os_of (fun cn =>
      c_wire cn = [] /\
      c_log cn = [(v n, path, peer_text (v 0%nat) port (q_data (abs_request sp)))] /\
      forall j, (j < n)%nat ->
        has_entry cn (v (S j)) (v 0%nat) (t_mac tp (v j, rgt j)) (lft (S j)) (Z.of_nat (S j)) /\
        has_entry cn (v j) (v n) (t_mac tp (v (S j), lft (S j))) (rgt j) (Z.of_nat (n - j))) cn1.
Proof.
  intros Hw Hsim Hn Hch Hnmax Hc0 Hlim Hr Hd Hfl Hp.
  destruct (sim_ask _ _ _ _ Hw cn0 _ (v 0%nat) sp Hsim Hr) as (r & s' & k & port & pts & Hh & Hgo).
  destruct (decide (accepted (c_node cn0 (v 0%nat)) s')) as [Hac|Hac]; [right|left; by exists r, s'].
  destruct (Hgo Hac) as [Hsim1 Hge].
  set (cn1 := cmoved tp cn0 (v 0%nat) s' (c_wire cn0)) in *. exists cn1, port. split; [by eapply cstep_ask|].
  assert (v 0%nat <> v n) as Hne by (apply (v_ne tp n v lft rgt Hch); lia).
  eapply ceventually_impl; [|eapply (eventually_lift tp os_of stale_of known Hw (INT_MAX - 1) (INT_MIN + 1)
    (INT_MAX - 1) (fun u => abs_ports (c_node cn1 u)) (arrived tp os_of n v lft rgt port (abs_request sp) path
      (c (v 0%nat) + 1) (c (v n) + 1) (INT_MIN + 1) (INT_MAX - 1) [])); [lia|lia|lia| |exact Hsim1|done]].
  - intros cn (w & [Hpool Hlog Hb Hf _ _] & Hs & _). split_and!.
    + pose proof (sim_wire _ _ _ _ _ _ Hs) as HF. rewrite Hpool in HF. by apply Forall2_nil_inv_r in HF.
    + by rewrite (sim_log _ _ _ _ _ _ Hs), Hlog.
    + intros j Hj. split; (eapply has_table; [exact Hs|]); [apply (Hb j Hj)|apply (Hf j Hj)].
  - apply chain_arrives; try done.
    + apply ticked_fresh.
    + lia.
    + specialize (Hlim 0%nat ltac:(lia)). lia.
    + intros i Hi. specialize (Hlim i Hi). lia.
    + cbn. by rewrite Hd.
    + cbn. unfold cn1. cbn [cmoved c_node]. by rewrite fn_lookup_insert_ne.
Qed.

(** ** The line of vm1 to vm10, as daemons *)

(** The interfaces of machine [k] that are connected, with lo and eth0. *)
Definition line_hwa (k : Z) : list hwa_info :=
  filter (fun h => if_index h <= 2 \/ if_index h ∈ ifs_of line10 (vm_ip k)) (demo_hwa k).
Definition line_node (ip : buf) : node := vm_node (vm_index ip) (line_hwa (vm_index ip)).
Definition line_start : cnet := CNet line_node [] [].

Lemma line_machine n i : (n, i) ∈ t_ports line10 -> exists k, k ∈ [1; 2; 3; 4; 5; 6; 7; 8; 9; 10] /\ n = vm_ip k.
Proof.
  intros [_ (k & Hin & Hk)%list_elem_of_bind]%list_elem_of_filter. exists k. split; [done|].
  by apply elem_of_cons in Hin as [[= -> _]|[[= -> _]|[]%elem_of_nil]%elem_of_cons].
Qed.

Lemma line_known k : k ∈ [1; 2; 3; 4; 5; 6; 7; 8; 9; 10] -> 1 <= k <= 10.
Proof. rewrite !elem_of_cons, elem_of_nil. lia. Qed.

Lemma line_wired : wired line10 line_os ring_known.
Proof.
  split.
  - intros p. apply length_bytes.
  - intros p H. by apply (f_equal head) in H.
  - intros n b (k & Hk & ->). by apply demo_resolves.
  - intros n i (k & Hk & ->)%line_machine. exists k. split; [by apply line_known|done].
Qed.

(** The machines are as the topology says, by computation. *)
Definition line_check (k : Z) : bool :=
  bool_decide (vm_index (vm_ip k) = k) && bool_decide (line_hwa k <> []) &&
  bool_decide (cstr (pad INET_ADDRSTRLEN (vm_ip k)) = Some (vm_ip k)) &&
  bool_decide ((fun h => (if_index h, if_haddr h)) <$> filter flooding (line_hwa k)
               = (fun i => (i, t_mac line10 (vm_ip k, i))) <$> ifs_of line10 (vm_ip k)) &&
  bool_decide ((fun i => find_hwaddr i (line_hwa k)) <$> ifs_of line10 (vm_ip k)
               = (fun i => Some (t_mac line10 (vm_ip k, i))) <$> ifs_of line10 (vm_ip k)) &&
  forallb (fun h => match cstr (if_name h) with Some _ => true | None => false end &&
                    (length (if_name h) =? IF_NAME)%nat && (length (if_haddr h) =? IF_HADDR)%nat &&
                    (length (ip_addr h) =? 16)%nat) (line_hwa k).

Lemma line_runs k :
  k ∈ [1; 2; 3; 4; 5; 6; 7; 8; 9; 10] ->
  runs line10 line_os line_stale (vm_ip k) (line_node (vm_ip k)) (router_init 10).
Proof.
  assert (forallb line_check [1; 2; 3; 4; 5; 6; 7; 8; 9; 10] = true) as HF by (vm_compute; reflexivity).
  intros Hk. rewrite forallb_forall in HF. pose proof (HF k (proj1 (list_elem_of_In _ _) Hk)) as H.
  apply line_known in Hk. clear HF.
  unfold line_check in H.
  rewrite !andb_true_iff, !bool_decide_eq_true in H. destruct H as [[[[[H1 H2] H3] H4] H5] H6].
  unfold line_node. rewrite H1. apply vm_runs; [done|done|done|by apply vm_hw_match|by apply demo_hwa_ok].
Qed.

Lemma line_sim : sim line10 line_os line_stale ring_known line_start (net_init (fun _ => 10)).
Proof.
  split.
  - intros n i (k & Hk & ->)%line_machine. by apply line_runs.
  - constructor.
  - done.
  - split; [|constructor]. intros n. split; [|constructor|done]. intros k r. cbn. by rewrite lookup_empty.
  - split; [constructor|]. intros n. constructor.
  - done.
Qed.

(** vm1 asks the server of vm10 for the time. *)
Definition line_request : send_params := demo_request "130.245.156.30" 5500.

Lemma line_request_in_range : in_range line10 line_os ring_known line_start (CAsk (vm_ip 1) line_request).
Proof.
  exists 4, (vm_ip 10), (chars "hello"), (chars "/tmp/file_and_1"). split_and!.
  - apply list_elem_of_filter. split; [split; apply (bool_decide_eq_true_1 _); vm_compute; reflexivity|].
    apply list_elem_of_bind. exists 1. split; [by right; left|by left].
  - exists 10. split; [lia|done].
  - split; try done; [by apply demo_resolves| |]; apply Nat.ltb_lt; reflexivity.
  - done.
  - done.
  - done.
  - intros H. exfalso. revert H. apply (bool_decide_eq_false_1 (vm_ip 10 = vm_ip 1)). by vm_compute.
Qed.

Lemma daemons_deliver_witness :
  refused line_os line_start (CAsk (vm_ip 1) line_request) \/
  exists cn1 port, cstep line10 line_os line_start (CAsk (vm_ip 1) line_request) cn1 /\
    ceventually line10 line_os (fun cn =>
      c_wire cn = [] /\
      c_log cn = [(vm_ip 10, chars __UNIX_SERV_PATH, peer_text (vm_ip 1) port (chars "hello"))] /\
      forall j, (j < 9)%nat ->
        has_entry cn (vm_at (S j)) (vm_ip 1) (t_mac line10 (vm_at j, 4)) 3 (Z.of_nat (S j)) /\
        has_entry cn (vm_at j) (vm_ip 10) (t_mac line10 (vm_at (S j), 3)) 4 (Z.of_nat (9 - j))) cn1.
Proof.
  apply (daemons_deliver line10 line_os line_stale ring_known 9 vm_at (fun _ => 3) (fun _ => 4) line_start
           (fun _ => 10) line_request (chars __UNIX_SERV_PATH)).
  - exact line_wired.
  - exact line_sim.
  - lia.
  - exact line10_chain.
  - unfold INT_MAX. lia.
  - lia.
  - intros i Hi. unfold INT_MAX, INT_MIN. lia.
  - exact line_request_in_range.
  - vm_compute. reflexivity.
  - discriminate.
  - vm_compute. reflexivity.
Defined.
