(* ===== verification/Daemon.v ===== *)
(** * The daemon

    [main] of odr_and.c: start-up ([odr_init]), one turn of the event loop
    ([odr_iter]), the states the loop can reach ([reach]), and the proof that
    every turn on well-formed input completes: no undefined behaviour, the invariant
    kept, and no failed assertion but for a request for an unused port of the machine. *)

From S2P Require Import Prelude CLib Inet Frame DList Node Demo Utils Ports RTable PQueue Send.
From S2P Require Import Handlers Spec SpecFacts Refine Peer Api Behaviour.

(** What [select] and the [recvfrom] calls after it yield in one turn.  A
    descriptor that is set comes with the result of its [recvfrom], [None] for
    an error; a request comes with the storage [malloc] returns for its
    parameters. *)
Inductive turn :=
  | TurnEINTR
  | Turn (proc : option (option (buf * send_params)))
         (ether : option (option (sockaddr_ll * buf))).

Section Daemon.
Context {os : OS}.

(** Up to the event loop.  [arg] is [argv[1]]; the booleans are the outcomes
    of the two [socket] calls and of [Bind]. *)
Definition odr_init (arg : option buf) (unix_sock bound packet_sock : bool) : MN bool :=
  r ← insert_map_port_sp __SERV_PORT (lit __UNIX_SERV_PATH);
  if r <? 0 then mret false else
  e ← fetch_entry_port __SERV_PORT;
  match e with
  | None => mret false
  | Some _ =>
      v ← (match arg with None => mret 5 | Some a => lift (atoi a) end);
      modify (set_stale v);;
      if v <? 0 then mret false else
      if negb unix_sock then mret false else
      if negb bound then abort_with ErrExit else
      mret packet_sock
  end.

Definition on_proc (p : option (option (buf * send_params))) : MN bool :=
  match p with
  | None => mret true
  | Some None => mret false
  | Some (Some (data, storage)) =>
      sparams ← lift (get_send_params storage (recv_into MAXLINE data));
      r ← handle_peer_msg sparams;
      mret (negb (r <? 0))
  end.

Definition on_ether (e : option (option (sockaddr_ll * buf))) : MN bool :=
  match e with
  | None => mret true
  | Some None => mret false
  | Some (Some (odr_addr, data)) =>
      r ← handle_ethernet_msg odr_addr (recv_into ETH_FRAME_LEN data);
      mret (negb (r <? 0))
  end.

(** One turn of [while (1)]: whether the loop goes on. *)
Definition odr_iter (t : turn) : MN bool :=
  match t with
  | TurnEINTR => mret true
  | Turn p e => go ← on_proc p; if go : bool then on_ether e else mret false
  end.

(** ** The machine the daemon runs on *)

(** The kernel's interface list [all], the structures [l] made of it and the
    address [ip] of eth0. *)
Record machine (all : list ifreq) (l : list hwa_info) (ip : buf) : Prop := {
  mc_sock : os_ifsock = true;
  mc_kernel : kernel_has all;
  mc_few : Z.of_nat (length all) <= 10080;
  mc_ioctl : ioctl_ok;
  mc_names : exists names, Forall2 ifreq_ok all names;
  mc_list : hwa_of_ifreqs (replicate IF_NAME NUL) all = Def l;
  mc_ip : eth0_ip l = Some ip;
  mc_self : resolves ip;
}.

(** Before the first event: nothing known yet. *)
Record booted (s : node) : Prop := {
  bo_self : self_ip_addr s = None;
  bo_hwa : hwa_struct_head s = [];
  bo_ports : ports_inv s;
  bo_rt : rt s = dempty;
  bo_pq : pq s = dempty;
}.

Definition running (l : list hwa_info) (ip : buf) (s : node) : Prop :=
  booted s \/ (hwa_struct_head s = l /\ exists T q, inv ip T q s).

(** A request a process made with [msg_send], and storage with a NUL right behind each
    of its three texts (without one, what the daemon reads is not what was sent:
    [unclean_storage_changes_destination] of file Api). *)
Record proc_ok (data : buf) (storage : send_params) (dip : buf) (dport : Z) (m path : buf) (flag : Z) : Prop := {
  pr_data : data = send_text dip dport m path flag;
  pr_len : (length data < MAXLINE)%nat;
  pr_dip : resolves dip;
  pr_msg : field m;
  pr_path : field path;
  pr_msg_len : (length m < Z.to_nat PAYLOAD_SIZE)%nat;
  pr_path_len : (length path < SUN_PATH_SIZE)%nat;
  pr_dport : int_ok dport = true;
  pr_flag : int_ok flag = true;
  pr_clean : clean_behind storage dip m path;
}.

(** A frame from a neighbour. *)
Definition ether_ok (l : list hwa_info) (addr : sockaddr_ll) (data : buf) : Prop :=
  exists fr dip sip, process_recvd_frame (recv_into ETH_FRAME_LEN data) = Def fr /\
    arrival l addr fr dip sip.

Definition request_part_ok (p : option (option (buf * send_params))) : Prop :=
  match p with
  | Some (Some (data, storage)) => exists dip dport m path flag, proc_ok data storage dip dport m path flag
  | _ => True
  end.
Definition turn_ok (l : list hwa_info) (t : turn) : Prop :=
  match t with
  | TurnEINTR => True
  | Turn p e =>
      request_part_ok p /\
      match e with Some (Some (addr, data)) => ether_ok l addr data | _ => True end
  end.

(** The turn brings a request for a port of this machine that is not in use. *)
Definition unused_port (ip : buf) (s : node) (p : option (option (buf * send_params))) : Prop :=
  exists data storage dport m path flag,
    p = Some (Some (data, storage)) /\ proc_ok data storage ip dport m path flag /\ abs_ports s dport = None.
Definition for_unused_port (ip : buf) (s : node) (t : turn) : Prop :=
  match t with Turn p _ => unused_port ip s p | TurnEINTR => False end.

(** Why the loop may end: a receive failed, a frame of an unknown type came, or a
    datagram was not accepted. *)
Definition receive_failed (t : turn) : Prop :=
  match t with Turn p e => p = Some None \/ e = Some None | TurnEINTR => False end.

Definition strange_frame (e : option (option (sockaddr_ll * buf))) : Prop :=
  exists addr data fr, e = Some (Some (addr, data)) /\
    process_recvd_frame (recv_into ETH_FRAME_LEN data) = Def fr /\
    frame_type fr ∉ [__RREQ; __RREP; __DATA; __ASENT].

Definition send_failed (s s' : node) : Prop :=
  exists new, outs s' = new ++ outs s /\ Exists (fun er => er.2 <= 0) new.

(** The states after [n] turns of the loop. *)
Inductive reach (l : list hwa_info) : nat -> node -> Prop :=
  | reach_init arg s :
      odr_init arg true true true node_init = Ok true s -> reach l 0 s
  | reach_turn n s t s' :
      reach l n s -> turn_ok l t -> odr_iter t s = Ok true s' -> reach l (S n) s'.

(** ** Start-up *)

(** The entry of the server. *)
Definition server_entry : map_port_sp :=
  mkPortSp (os_time 0) __SERV_PORT (pad SUN_PATH_SIZE (chars __UNIX_SERV_PATH)).

Lemma insert_server :
  insert_map_port_sp __SERV_PORT (lit __UNIX_SERV_PATH) node_init
  = Ok 1 (set_ports [server_entry] (set_clock 1 node_init)).
Proof. reflexivity. Qed.

Lemma server_ports_wf : ports_wf [server_entry] 909.
Proof.
  assert (path_of server_entry = Some (chars __UNIX_SERV_PATH)) as Hp by reflexivity.
  split.
  - apply Forall_singleton. rewrite Hp. split; [by eexists|reflexivity].
  - apply NoDup_singleton.
  - apply NoDup_singleton.
  - exists server_entry. split; [by left|]. done.
  - apply Forall_singleton. by left.
  - unfold __SERV_PORT. lia.
Qed.

(** The state in which the loop starts, for a staleness parameter [v]. *)
Definition odr_start (v : Z) : node :=
  set_stale v (set_ports [server_entry] (set_clock 1 node_init)).

Lemma odr_init_eq arg :
  odr_init arg true true true node_init =
  match (match arg with None => Def 5 | Some a => atoi a end) with
  | Def v => if v <? 0 then Ok false (odr_start v) else Ok true (odr_start v)
  | Bad u => Undef u
  end.
Proof.
  unfold odr_init. rewrite (bind_Ok _ _ _ _ _ insert_server). cbn [Z.ltb Z.compare].
  erewrite bind_Ok; [|reflexivity].
  change (find_port __SERV_PORT _) with (Some server_entry). cbn beta iota.
  destruct arg as [a|]; [destruct (atoi a) as [v|u]|reflexivity]; [|done].
  erewrite bind_Ok; [|done]. erewrite bind_Ok; [|done]. by destruct (v <? 0).
Qed.

Lemma booted_start v : booted (odr_start v).
Proof. split; try done. exact server_ports_wf. Qed.

(** ** From the first event on *)

Section Machine.
Context (all : list ifreq) (l : list hwa_info) (ip : buf).
Hypothesis Hmc : machine all l ip.

(** [get_self_ip], the first call of both handlers, makes a booted node a
    running one; later calls return the cached address. *)
Lemma running_ready s :
  running l ip s ->
  exists b s1, get_self_ip s = Ok (Some b) s1 /\ get_self_ip s1 = Ok (Some b) s1 /\
    cstr b = Some ip /\ hwa_struct_head s1 = l /\ (exists T q, inv ip T q s1) /\
    abs_ports s1 = abs_ports s /\ next_portno s1 = next_portno s /\
    cur_broadcast_id s1 = cur_broadcast_id s /\ outs s1 = outs s.
Proof using Hmc.
  destruct Hmc as [M1 M2 M3 M4 [names M5] M6 M7 M8].
  intros [[B1 B2 B3 B4 B5]|(Hh & T & q & Hinv)].
  - destruct (get_self_ip_boot all names s ip l) as (b & s1 & Hg & Hb & Hrd & ->); try done.
    eexists b, _. split; [exact Hg|]. split; [done|]. split; [done|]. split; [done|].
    split; [|done]. exists ∅, []. split; try done; cbn.
    + rewrite B4. apply rt_rep_empty.
    + rewrite B5. apply pq_rep_empty.
  - pose proof (ready_ip _ _ _ (inv_ready _ _ _ _ Hinv)) as (b & Hb & Hbc).
    assert (get_self_ip s = Ok (Some b) s) as Hg.
    { unfold get_self_ip. erewrite bind_Ok; [|done]. by rewrite Hb. }
    exists b, s. split_and!; try done. by exists T, q.
Qed.

Lemma first_self {A} (k : option buf -> MN A) b s s1 :
  get_self_ip s = Ok (Some b) s1 -> get_self_ip s1 = Ok (Some b) s1 ->
  (x ← get_self_ip; k x) s = (x ← get_self_ip; k x) s1.
Proof. unfold mbind, M_bind. by intros -> ->. Qed.

Lemma wpe_same {A} (m : MN A) Q E s s1 : m s = m s1 -> wpe m Q E s1 -> wpe m Q E s.
Proof. unfold wpe. by intros ->. Qed.

Lemma first_self_wp {A} (k : option buf -> MN A) (Q : A -> node -> Prop) b s s1 :
  get_self_ip s = Ok (Some b) s1 -> get_self_ip s1 = Ok (Some b) s1 ->
  wp (x ← get_self_ip; k x) Q s1 -> wp (x ← get_self_ip; k x) Q s.
Proof. intros H1 H2. unfold wp. by rewrite (first_self k b s s1 H1 H2). Qed.

(** ** The two branches of a turn *)

(** What a branch does to the variables the loop depends on. *)
Definition advanced (dp d : Z) (s s' : node) : Prop :=
  running l ip s' /\
  next_portno s <= next_portno s' <= next_portno s + dp /\
  cur_broadcast_id s <= cur_broadcast_id s' <= cur_broadcast_id s + d /\
  exists new, outs s' = new ++ outs s.

Lemma advanced_refl dp d s : 0 <= dp -> 0 <= d -> running l ip s -> advanced dp d s s.
Proof. intros Hdp Hd Hr. split; [done|]. split; [lia|]. split; [lia|]. by exists []. Qed.

Lemma wpe_on_proc p s :
  running l ip s -> request_part_ok p -> next_portno s < __SERV_PORT ->
  INT_MIN < cur_broadcast_id s -> cur_broadcast_id s + 1 < INT_MAX ->
  wpe (on_proc p) (fun (go : bool) s' => if go then advanced 1 2 s s' else p = Some None \/ send_failed s s')
    (fun w => w = AssertFailed /\ unused_port ip s p) s.
Proof using Hmc.
  intros Hrun Hp Hn Hb1 Hb2. destruct p as [[[data storage]|]|]; cbn [on_proc].
  2: by apply wpe_wp; wp_step; left. 2: by apply wpe_wp; wp_step; apply advanced_refl.
  destruct Hp as (dip & dport & m & path & flag & Hp). pose proof Hp as [-> Hlen Hr Hm Hpa Hml Hpl Hdp Hfl Hcl].
  destruct (get_send_params_clean storage dip dport m path flag) as (sp & Hsp & Hrq & Hd1 & _); try done.
  apply wpe_wp_bind. eapply wp_lift; [exact Hsp|]. cbn beta.
  destruct (running_ready s Hrun)
    as (b & s1 & Hg1 & Hg2 & Hbc & Hh & (T & q & Hinv) & Hpo & Hne & Hbi & Hou).
  apply wpe_bind. apply (wpe_same _ _ _ _ s1); [by apply (first_self _ b)|].
  eapply wpe_mono.
  { eapply (wpe_handle_peer_msg sp dip m path ip T q s1); [done|done|by rewrite Hne|by rewrite Hbi|by rewrite Hbi]. }
  2: { intros w (-> & -> & Hno). split; [done|]. rewrite Hpo, Hd1 in Hno. by exists (send_text ip dport m path flag), storage, dport, m, path, flag. }
  cbn beta. intros r s' (s2 & port & (Hst & _ & _ & Hnext) & Hinv2 & T' & q' & evs & Hinv' & _ & Ho &
                         Hr1 & Habs & Hacc & Hk). apply wpe_wp.
  assert (hwa_struct_head s2 = l /\ cur_broadcast_id s2 = cur_broadcast_id s /\ outs s2 = outs s) as (Hh2 & Hb2' & Ho2)
    by (destruct Hst as (? & ? & ? & _ & ->); split_and!; [exact Hh|exact Hbi|exact Hou]).
  rewrite Ho2 in Ho, Hacc. wp_step. destruct Hr1 as [-> | ->]; cbn [negb Z.ltb Z.compare].
  2: { right. unfold send_failed. rewrite Ho. apply send_log_failed. left.
       destruct (all_accepted evs (length (outs s))); [by specialize (Hacc eq_refl)|done]. }
  destruct Hk as (_ & Hh' & _ & Hn' & _).
  pose proof (spec_request_ctr ip (stale_param s1) (abs_ports s2) port (abs_request sp) (abs_router s2 T q)) as Hc.
  rewrite <- (Habs eq_refl) in Hc. cbn [a_ctr abs_router] in Hc.
  split; [right; split; [congruence|by exists T', q']|]. rewrite Hn', <- Hne. split; [lia|]. split; [lia|].
  rewrite Ho. apply send_log_ext.
Qed.

Lemma wp_on_ether e s :
  running l ip s ->
  match e with Some (Some (addr, data)) => ether_ok l addr data | _ => True end ->
  INT_MIN < cur_broadcast_id s < INT_MAX ->
  wp (on_ether e) (fun (go : bool) s' =>
    if go then advanced 0 1 s s' else e = Some None \/ strange_frame e \/ send_failed s s') s.
Proof using Hmc.
  intros Hrun He Hb. destruct e as [[[addr data]|]|]; cbn [on_ether].
  2: by wp_step; left. 2: by wp_step; apply advanced_refl.
  destruct He as (fr & dip & sip & Hfr & Harr).
  wp_step. destruct (running_ready s Hrun)
    as (b & s1 & Hg1 & Hg2 & Hbc & Hh & (T & q & Hinv) & Hpo & Hne & Hbi & Hou).
  eapply (first_self_wp _ _ b s s1 Hg1 Hg2). wp_step. unfold wp at 1. rewrite Hg2.
  wp_step. eapply wp_lift; [exact Hfr|]. cbn beta.
  eapply wp_mono.
  { eapply (wp_handle_frame ip T q s1 addr fr b dip sip); [done|by rewrite Hh|done|by rewrite Hbi]. }
  cbn beta. intros r s' (T' & q' & evs & Hinv' & Habs & _ & Hsent & Hk). wp_step.
  pose proof (sent_outs _ _ _ _ _ Hsent) as Ho. pose proof (sent_ok _ _ _ _ _ Hsent) as Hok. rewrite Hou in Ho, Hok.
  destruct (Z.ltb_spec r 0) as [Hneg|Hneg]; cbn [negb].
  { right. destruct (decide ((send_log evs (outs s)).1 = 0)) as [Hz|Hz].
    - left. exists addr, data, fr. split_and!; [done..|]. intros Hin. specialize (Hok Hz). rewrite Hok in Hneg.
      revert Hneg. apply Z.le_ngt. by apply spec_frame_goes_on.
    - right. unfold send_failed. rewrite Ho. apply send_log_failed. by right. }
  pose proof (spec_frame_ctr ip (stale_param s1) (abs_ports s1) (sll_ifindex addr) (sll_addr addr)
                (abs_msg fr) (abs_router s1 T q)) as Hc.
  rewrite <- Habs in Hc. cbn [a_ctr abs_router] in Hc.
  destruct Hk as (_ & Hh' & _ & Hn' & _).
  split; [right; split; [congruence|by exists T', q']|]. split; [lia|]. split; [lia|]. rewrite Ho. apply send_log_ext.
Qed.

(** ** A turn of the loop *)

Definition may_end (t : turn) (s s' : node) : Prop :=
  receive_failed t \/ match t with Turn _ e => strange_frame e | _ => False end \/ send_failed s s'.

Lemma wpe_odr_iter t s :
  running l ip s -> turn_ok l t -> next_portno s < __SERV_PORT ->
  INT_MIN < cur_broadcast_id s -> cur_broadcast_id s + 2 < INT_MAX ->
  wpe (odr_iter t) (fun (go : bool) s' => if go then advanced 1 3 s s' else may_end t s s')
      (fun w => w = AssertFailed /\ for_unused_port ip s t) s.
Proof using Hmc.
  intros Hrun Ht Hn Hb1 Hb2. destruct t as [|p e]; cbn [odr_iter].
  { apply wpe_wp. wp_step. by apply advanced_refl. }
  destruct Ht as [Hp He]. apply wpe_bind.
  eapply wpe_post; [apply wpe_on_proc; try done; lia|]. cbn beta. intros [|] s1 H1; apply wpe_wp.
  2: { wp_step. destruct H1 as [->|H1]; [by left; left|by right; right]. }
  destruct H1 as (Hr1 & Hn1 & Hc1 & new1 & Ho1).
  eapply wp_mono; [apply wp_on_ether; try done; lia|]. cbn beta. intros [|] s2 H2.
  - destruct H2 as (Hr2 & Hn2 & Hc2 & new2 & Ho2). split; [done|]. split; [lia|]. split; [lia|].
    exists (new2 ++ new1). by rewrite Ho2, Ho1, app_assoc.
  - destruct H2 as [->|[H2|(new2 & Ho2 & Hf)]]; [by left; right|by right; left|]. right. right.
    exists (new2 ++ new1). split; [by rewrite Ho2, Ho1, app_assoc|]. apply Exists_app. by left.
Qed.

(** The counters after [n] turns. *)
Lemma reach_running n s :
  reach l n s -> Z.of_nat n <= 4591 ->
  running l ip s /\ 909 <= next_portno s <= 909 + Z.of_nat n /\
  10 <= cur_broadcast_id s <= 10 + 3 * Z.of_nat n.
Proof using Hmc.
  induction 1 as [arg s Hi|n s t s' Hr IH Ht Hs]; intros Hn.
  - rewrite odr_init_eq in Hi. destruct (match arg with None => _ | _ => _ end) as [v|]; [|done].
    destruct (v <? 0); [done|]. injection Hi as <-. split; [left; apply booted_start|]. cbn. lia.
  - destruct IH as (Hrun & Hp & Hb); [lia|].
    pose proof (wpe_odr_iter t s Hrun Ht) as Hw. unfold wpe in Hw. rewrite Hs in Hw.
    destruct Hw as (Hrun' & Hp' & Hb' & _); try done;
      [unfold __SERV_PORT; lia|unfold INT_MIN; lia|unfold INT_MAX; lia|].
    split; [done|]. lia.
Qed.

(** A turn in a state the loop reaches. *)
Lemma reach_turn_wpe n s t :
  reach l n s -> Z.of_nat n < 4591 -> turn_ok l t ->
  wpe (odr_iter t) (fun (go : bool) s' => if go then advanced 1 3 s s' else may_end t s s')
      (fun w => w = AssertFailed /\ for_unused_port ip s t) s.
Proof using Hmc.
  intros Hr Hn Ht. destruct (reach_running n s Hr) as (Hrun & Hp & Hb); [lia|].
  apply wpe_odr_iter; try done; unfold __SERV_PORT, INT_MIN, INT_MAX; lia.
Qed.



(** C7: the invariant of the event loop.  In every state it reaches within
    4591 turns on well-formed input (as for C4), the node is as start-up left it or
    satisfies the invariant: the routing table and the pending queue are well-formed
    lists that represent a map and a sequence, every route leads through an existing
    interface, ports and paths are distinct and the server owns its port;
    and the two counters have moved by at most one and three per turn. *)
Theorem daemon_invariant n s :
  reach l n s -> Z.of_nat n <= 4591 ->
  running l ip s /\ ports_inv s /\
  909 <= next_portno s <= 909 + Z.of_nat n /\
  10 <= cur_broadcast_id s <= 10 + 3 * Z.of_nat n.
Proof using Hmc.
  intros Hr Hn. destruct (reach_running n s Hr Hn) as (Hrun & Hp & Hb).
  split; [done|]. split; [|done]. destruct Hrun as [[_ _ H _ _]|(_ & T & q & [_ _ H _ _ _ _])]; done.
Qed.
End Machine.

(** Start-up with both sockets available.  The loop is entered exactly
    when the staleness parameter (5 when there is no argument) is not
    negative; then the routing table and the queue are empty and the server's
    port leads to the server's path. *)
Theorem odr_init_starts arg v :
  match arg with None => Def 5 | Some a => atoi a end = Def v ->
  exists s, odr_init arg true true true node_init = Ok (0 <=? v) s /\
    stale_param s = v /\ rt s = dempty /\ pq s = dempty /\
    abs_ports s __SERV_PORT = Some (chars __UNIX_SERV_PATH).
Proof.
  intros Hv. rewrite odr_init_eq, Hv. exists (odr_start v).
  destruct (Z.ltb_spec v 0), (Z.leb_spec 0 v); try lia; done.
Qed.
End Daemon.

(** ** Witnesses *)

Lemma demo_machine :
  @machine (demo_os (demo_ifs 2)) (demo_ifreq <$> demo_ifs 2) (demo_hwa 2) (vm_ip 2).
Proof.
  split.
  - reflexivity.
  - apply demo_kernel.
  - cbn. lia.
  - apply demo_ioctl_ok. repeat constructor.
  - exists (chars ∘ di_name <$> demo_ifs 2).
    repeat (constructor; [apply demo_ifreq_ok; [by repeat constructor | cbn; lia | done]|]).
    constructor.
  - by vm_compute.
  - by vm_compute.
  - by apply demo_resolves.
Qed.

(** A request of a client for the server of vm3, and a data frame from vm1. *)
Definition demo_turn : turn :=
  Turn (Some (Some (send_text (vm_ip 3) 5500 (chars "hello") (chars "/tmp/file_and_1") 0, zero_params)))
       (Some (Some (demo_arrival_addr, demo_wire demo_data))).

Lemma local_request_ok dip dport :
  resolves (os := demo_os (demo_ifs 2)) dip -> int_ok dport = true ->
  (length (send_text dip dport (chars "hello") (chars "/tmp/file_and_1") 0) < MAXLINE)%nat ->
  @proc_ok (demo_os (demo_ifs 2)) (send_text dip dport (chars "hello") (chars "/tmp/file_and_1") 0) zero_params
    dip dport (chars "hello") (chars "/tmp/file_and_1") 0.
Proof.
  intros Hr Hd Hl. pose proof (resolves_length _ Hr).
  split; try done; [by apply field_chars|by apply field_chars|..]; try (apply Nat.ltb_lt; by vm_compute).
  apply clean_zero; [unfold INET_ADDRSTRLEN, MAXLINE in *; lia|apply Nat.ltb_lt; by vm_compute..].
Qed.

Lemma demo_turn_ok : @turn_ok (demo_os (demo_ifs 2)) (demo_hwa 2) demo_turn.
Proof.
  split.
  - exists (vm_ip 3), 5500, (chars "hello"), (chars "/tmp/file_and_1"), 0.
    apply local_request_ok; [by apply demo_resolves|done|apply Nat.ltb_lt; by vm_compute].
  - exists demo_data, (vm_ip 3), (vm_ip 1). split; [|apply demo_data_arrival].
    unfold recv_into, demo_wire.
    pose proof (host_net_shape _ (wf_shape _ _ _ (arr_wf _ _ _ _ _ demo_data_arrival))) as Hs.
    assert (length (eth_frame (replicate 6 NUL) (take HWADDR demo_mac)
              (convert_host_net_order demo_data)) = ETH_FRAME_LEN) as Hl by (by apply eth_frame_length).
    rewrite take_ge, Hl, Nat.sub_diag, app_nil_r by lia.
    apply demo_wire_recvd. apply (wf_shape _ _ _ (arr_wf _ _ _ _ _ demo_data_arrival)).
Qed.

(** It is not for vm2. *)
Lemma demo_turn_elsewhere s : ~ @for_unused_port (demo_os (demo_ifs 2)) (vm_ip 2) s demo_turn.
Proof.
  intros (data & storage & dport & m & path & flag & E & Hp & _). injection E as <- <-.
  destruct Hp as [E _ Hr _ _ _ _ _ _ _]. apply (f_equal (take 14)) in E.
  revert E. apply (bool_decide_eq_false_1 _). destruct (print_int_cons dport) as (c & r & Hc).
  unfold send_text. rewrite Hc. by vm_compute.
Qed.

Abbreviation demo_start := (@odr_start (demo_os (demo_ifs 2)) 5).

Lemma demo_reach : @reach (demo_os (demo_ifs 2)) (demo_hwa 2) 0 demo_start.
Proof. apply (@reach_init (demo_os (demo_ifs 2)) _ None). apply (@odr_init_eq (demo_os (demo_ifs 2)) None). Qed.

(** After that turn. *)
Definition demo_after : node :=
  match @odr_iter (demo_os (demo_ifs 2)) demo_turn demo_start with Ok _ s => s | _ => node_init end.

Lemma demo_reach_1 : @reach (demo_os (demo_ifs 2)) (demo_hwa 2) 1 demo_after.
Proof.
  eapply (@reach_turn (demo_os (demo_ifs 2)) _ 0); [exact demo_reach|exact demo_turn_ok|].
  vm_compute. reflexivity.
Qed.


(** A frame of type 9 from vm1; a request for a port of vm2 that nobody has. *)
Definition demo_strange : turn := Turn None (Some (Some (demo_arrival_addr, demo_wire (demo_frame 9 1 0 1 3 [])))).
Definition demo_unused : turn :=
  Turn (Some (Some (send_text (vm_ip 2) 1234 (chars "hello") (chars "/tmp/file_and_1") 0, zero_params))) None.

Lemma demo_strange_ok : @turn_ok (demo_os (demo_ifs 2)) (demo_hwa 2) demo_strange.
Proof.
  split; [done|]. destruct (demo_arrival_of 9 1 0 1 3) as [Ha Hp];
    [done..|by apply (bool_decide_eq_false_1 _); vm_compute|].
  exists (demo_frame 9 1 0 1 3 []), (vm_ip 3), (vm_ip 1). split; [|exact Ha].
  vm_compute. reflexivity.
Qed.

Lemma demo_unused_ok : @turn_ok (demo_os (demo_ifs 2)) (demo_hwa 2) demo_unused.
Proof.
  split; [|done]. exists (vm_ip 2), 1234, (chars "hello"), (chars "/tmp/file_and_1"), 0.
  apply local_request_ok; [by apply demo_resolves|done|apply Nat.ltb_lt; by vm_compute].
Qed.


Lemma daemon_invariant_witness :
  @running (demo_os (demo_ifs 2)) (demo_hwa 2) (vm_ip 2) demo_after /\
  ports_inv demo_after /\
  909 <= next_portno demo_after <= 909 + Z.of_nat 1 /\
  10 <= cur_broadcast_id demo_after <= 10 + 3 * Z.of_nat 1 /\
  (** there are a route and two parked messages *)
  (size (dheap (rt demo_after)), size (dheap (pq demo_after))) = (1, 2)%nat.
Proof.
  destruct (@daemon_invariant (demo_os (demo_ifs 2)) (demo_ifreq <$> demo_ifs 2) (demo_hwa 2) (vm_ip 2)
              demo_machine 1 _ demo_reach_1 ltac:(lia)) as (H1 & H2 & H3 & H4).
  split; [exact H1|]. split; [exact H2|]. split; [exact H3|]. split; [exact H4|]. vm_compute. reflexivity.
Defined.

Lemma odr_init_starts_witness :
  exists s, @odr_init (demo_os []) (Some (lit "20")) true true true node_init = Ok true s /\
    stale_param s = 20 /\ rt s = dempty /\ pq s = dempty /\
    abs_ports s __SERV_PORT = Some (chars __UNIX_SERV_PATH).
Proof. apply (@odr_init_starts (demo_os []) (Some (lit "20")) 20). reflexivity. Defined.
