(* ===== verification/Apps.v ===== *)
(** * The client and the time server

    [main] of client_and.c (create a socket under a temporary name; then, in a
    loop, read a host name, send a request, wait for the reply and retransmit
    once on SIGALRM) and [main] of server_and.c (create a socket; then, in a
    loop, receive a request and answer with the time).  Both use the interface of
    file Api; their own copies of the variables of utils.c are a [node].  What
    the user types, the signals, the datagrams and the results of [mkstemp],
    [socket] and [bind] are inputs. *)

From S2P Require Import Prelude CLib Inet Frame DList Node Demo Utils Ports RTable PQueue Send.
From S2P Require Import Handlers Spec Refine Peer Api.

Definition VMNAME_LEN : nat := 10.
Definition hello : buf := lit "hello world".

(** What happens while the client waits in [msg_recv]. *)
Inductive wait_event :=
  | Alarm                 (** SIGALRM: [siglongjmp] back to the retransmission *)
  | Arrives (data : buf). (** a datagram *)

#[export] Instance wait_event_eq_dec : EqDecision wait_event.
Proof. solve_decision. Defined.

(** How a round of the client ends. *)
Inductive round_end :=
  | Exit                          (** the user typed "exit" *)
  | NoSuchServer                  (** the name has no address *)
  | Waiting                       (** no reply so far *)
  | Reply (a : recv_args).

Section Apps.
Context {os : OS}.

(** [memset(&msg, 0, MAXLINE)]. *)
Definition clear_msg (a : recv_args) : recv_args :=
  mkRecvArgs (replicate MAXLINE NUL) (ra_destip a) (ra_destport a) (ra_tt a).

(** From [sigsetjmp] on.  [armed]: the alarm set by [alarm(5)] has not gone
    off yet; it is not set again. *)
Fixpoint client_wait (canon_ip tempfile : buf) (armed : bool) (a : recv_args)
    (evs : list wait_event) : MN round_end :=
  match evs with
  | [] => mret Waiting
  | Alarm :: evs' =>
      if armed then
        msg_send canon_ip __SERV_PORT hello 1 tempfile;;
        client_wait canon_ip tempfile false a evs'
      else client_wait canon_ip tempfile false a evs'
  | Arrives data :: _ =>
      a' ← lift (msg_recv (clear_msg a) (Received data));
      mret (Reply a')
  end.

(** One turn of the client's loop; [word] is what the user types. *)
Definition client_round (word canon_ip tempfile : buf) (a : recv_args) (evs : list wait_event)
    : MN round_end :=
  serv_vm ← lift (strcpy (replicate VMNAME_LEN NUL) (word ++ [NUL]));
  quit ← lift (streq serv_vm (lit "exit"));
  if quit : bool then mret Exit else
  c ← get_canonical_ip serv_vm canon_ip;
  match c with
  | None => mret NoSuchServer
  | Some canon_ip' =>
      msg_send canon_ip' __SERV_PORT hello 0 tempfile;;
      client_wait canon_ip' tempfile true a evs
  end.

(** One turn of the server's loop; [now] is the text [ctime] returns.  The
    result of [msg_recv] is not looked at. *)
Definition server_round (a : recv_args) (r : received) (now : buf) : MN recv_args :=
  a1 ← lift (msg_recv a r);
  t ← lift (need_str now);
  m ← lift (strcpy (ra_msg_buf a1) (take 24 t ++ [byte_of_Z 13; byte_of_Z 10] ++ [NUL]));
  msg_send (mp_cli_ip (ra_tt a1)) (ra_destport a1) m 0 (lit __UNIX_SERV_PATH);;
  mret (mkRecvArgs m (ra_destip a1) (ra_destport a1) (ra_tt a1)).

(** The loop of the client: the words typed, each with what happens while it
    waits for the reply, and how each round ends.  [canon_ip] is written before
    it is read in every round, so its old contents do not matter. *)
Fixpoint client_loop (canon_ip tempfile : buf) (a : recv_args)
    (input : list (buf * list wait_event)) : MN (list round_end) :=
  match input with
  | [] => mret []
  | (word, evs) :: input' =>
      r ← client_round word canon_ip tempfile a evs;
      match r with
      | Exit | Waiting => mret [r]
      | NoSuchServer => rs ← client_loop canon_ip tempfile a input'; mret (r :: rs)
      | Reply a' => rs ← client_loop canon_ip tempfile a' input'; mret (r :: rs)
      end
  end.

(** [main]: [tmp] is the name [mkstemp] has made, [sock] and [bound] say whether
    [socket] and [bind] succeed. *)
Definition client_main (tmp : option buf) (sock bound : bool) (canon_ip : buf) (a : recv_args)
    (input : list (buf * list wait_event)) : MN (list round_end) :=
  match tmp with
  | None => mret []
  | Some tempfile =>
      if negb sock then mret [] else
      lift (strcpy (replicate SUN_PATH_UN NUL) tempfile);;
      if bound then client_loop canon_ip tempfile a input else abort_with ErrExit
  end.

(** The server: what [msg_recv] returns and the time, turn by turn. *)
Fixpoint server_loop (a : recv_args) (input : list (received * buf)) : MN recv_args :=
  match input with
  | [] => mret a
  | (r, now) :: input' => a' ← server_round a r now; server_loop a' input'
  end.

Definition server_main (sock bound : bool) (a : recv_args) (input : list (received * buf))
    : MN (option recv_args) :=
  if negb sock then mret None else
  lift (strcpy (replicate SUN_PATH_UN NUL) (lit __UNIX_SERV_PATH));;
  if bound then a' ← server_loop a input; mret (Some a') else abort_with ErrExit.

(** ** Lemmas *)

(** The request of a client at [path], for the server of [dip]. *)
Definition client_request (dip path : buf) (flag : Z) : event :=
  SendUnix (chars __UNIX_PROC_PATH)
    (send_text dip __SERV_PORT (chars "hello world") path flag).

Lemma hello_str : cstr hello = Some (chars "hello world").
Proof. by vm_compute. Qed.

Lemma send_text_length dip dport m path flag :
  int_ok dport = true -> int_ok flag = true ->
  (length (send_text dip dport m path flag) <= length dip + length m + length path + 27)%nat.
Proof.
  intros Hd Hf. pose proof (length_print_int _ Hd). pose proof (length_print_int _ Hf).
  unfold send_text. repeat (rewrite length_app; cbn [length]). lia.
Qed.

(** Path of the temporary file and address of the server. *)
Record client_ok (canon_ip tempfile dip path : buf) : Prop := {
  cl_ip : cstr canon_ip = Some dip;
  cl_ip_len : (length dip < INET_ADDRSTRLEN)%nat;
  cl_path : cstr tempfile = Some path;
  cl_path_len : (length path < SUN_PATH_UN)%nat;
}.

Lemma wp_client_request canon_ip tempfile dip path flag (Q : Z -> node -> Prop) s :
  client_ok canon_ip tempfile dip path -> int_ok flag = true ->
  (forall r, Q r (emit (client_request dip path flag) s)) ->
  wp (msg_send canon_ip __SERV_PORT hello flag tempfile) Q s.
Proof.
  intros [H1 H2 H3 H4] Hf HQ. eapply wp_msg_send; [exact H1|exact hello_str|exact H3| |apply HQ].
  pose proof (send_text_length dip __SERV_PORT (chars "hello world") path flag eq_refl Hf) as Hl.
  change (length (chars "hello world")) with 11%nat in Hl.
  unfold INET_ADDRSTRLEN, SUN_PATH_UN, MAXLINE in *. lia.
Qed.

(** The datagrams a process can get from the daemon: [peer_text] of an
    address, a port and a payload without separators. *)
Definition delivered (data : buf) (sip : buf) (sport : Z) (pl : buf) : Prop :=
  data = peer_text sip sport pl /\ resolves sip /\ int_ok sport = true /\
  (length (print_int sport) < 10)%nat /\ nonul pl /\ Forall (fun c => sep c = false) pl /\
  (length pl < Z.to_nat PAYLOAD_SIZE)%nat.

Lemma msg_recv_delivered a data sip sport pl :
  delivered data sip sport pl -> recv_bufs a ->
  exists a', msg_recv a (Received data) = Def a' /\ recv_bufs a' /\ got a' sip sport pl.
Proof.
  intros (-> & Hr & Hi & Hi10 & Hn & Hs & Hl) Hb. pose proof (resolves_length _ Hr) as Hsl.
  apply msg_recv_text; try done.
  - by apply field_resolves.
  - unfold INET_ADDRSTRLEN, IP_LEN in *. lia.
  - pose proof (peer_text_length sip sport pl Hsl Hi Hl). unfold ETH_FRAME_LEN, MAXLINE in *. lia.
Qed.

Lemma clear_msg_bufs a : recv_bufs a -> recv_bufs (clear_msg a).
Proof. intros []. by split. Qed.

(** The datagrams that arrive while the client waits come from the daemon. *)
Definition arrivals_ok (evs : list wait_event) : Prop :=
  Forall (fun e => match e with
                   | Alarm => True
                   | Arrives data => exists sip sport pl, delivered data sip sport pl
                   end) evs.

(** How waiting through [evs] ends: with the contents of a datagram, or not. *)
Definition waited (evs : list wait_event) (r : round_end) : Prop :=
  match r with
  | Reply a' => exists data sip sport pl, Arrives data ∈ evs /\
                  delivered data sip sport pl /\ got a' sip sport pl /\ recv_bufs a' /\
                  exists a0, recv_bufs a0 /\ msg_recv a0 (Received data) = Def a'
  | Waiting => Forall (fun e => e = Alarm) evs
  | _ => False
  end.

Lemma waited_alarm evs r : waited evs r -> waited (Alarm :: evs) r.
Proof.
  destruct r as [| | |a']; try done; [by constructor|]. intros (d & x & y & z & Hin & Hdg).
  exists d, x, y, z. split; [by right|done].
Qed.

(** While waiting: at most one request, the flagged one, and only if the alarm
    goes off before the reply. *)
Lemma wp_client_wait canon_ip tempfile dip path (armed : bool) a evs s :
  client_ok canon_ip tempfile dip path -> recv_bufs a -> arrivals_ok evs ->
  wp (client_wait canon_ip tempfile armed a evs)
     (fun r s' =>
        s' = (if armed && bool_decide (head evs = Some Alarm)
              then emit (client_request dip path 1) s else s) /\ waited evs r) s.
Proof.
  intros Hok Hb Hevs. revert armed s.
  induction Hevs as [|e evs He _ IH]; intros armed s; cbn [client_wait].
  { wp_step. rewrite andb_false_r. by split; [|constructor]. }
  destruct e as [|data].
  - rewrite bool_decide_eq_true_2 by done. rewrite andb_true_r. destruct armed.
    + wp_step. eapply wp_client_request; [exact Hok|done|]. intros _.
      eapply wp_mono; [apply IH|]. cbn beta. intros r s' [-> H]. split; [done|by apply waited_alarm].
    + eapply wp_mono; [apply IH|]. cbn beta. intros r s' [-> H]. split; [done|by apply waited_alarm].
  - destruct He as (sip & sport & pl & Hd). rewrite andb_false_r. wp_step.
    destruct (msg_recv_delivered (clear_msg a) data sip sport pl Hd (clear_msg_bufs _ Hb))
      as (a' & Ha & Hb' & Hg).
    eapply wp_lift; [exact Ha|]. wp_step. split; [done|].
    exists data, sip, sport, pl. split; [by left|]. split_and!; [done..|].
    exists (clear_msg a). split; [by apply clear_msg_bufs|done].
Qed.

(** What one round sends, and how it ends. *)
Definition round_sent (path : buf) (we : buf * list wait_event) : list event :=
  if decide (we.1 = chars "exit") then [] else
  match os_gethostbyname we.1 with
  | Some (ad :: _) =>
      client_request (dotted_quad ad) path 0 ::
      if decide (head we.2 = Some Alarm) then [client_request (dotted_quad ad) path 1] else []
  | _ => []
  end.

Definition round_ends (we : buf * list wait_event) (r : round_end) : Prop :=
  if decide (we.1 = chars "exit") then r = Exit
  else if decide (os_gethostbyname we.1 = None) then r = NoSuchServer
  else waited we.2 r.

(** A word that fits, for which the name service has an answer with an address
    if it has one at all. *)
Record round_ok (we : buf * list wait_event) : Prop := {
  ro_word : nonul we.1;
  ro_len : (length we.1 < VMNAME_LEN)%nat;
  ro_addr : os_gethostbyname we.1 <> Some [];
  ro_evs : arrivals_ok we.2;
}.

Definition sent_after (s : node) (evs : list event) : node := foldl (fun s ev => emit ev s) s evs.

Lemma wp_client_round canon_ip tempfile path a we s :
  round_ok we -> length canon_ip = IP_LEN -> cstr tempfile = Some path ->
  (length path < SUN_PATH_UN)%nat -> recv_bufs a ->
  wp (client_round we.1 canon_ip tempfile a we.2)
     (fun r s' => s' = sent_after s (round_sent path we) /\ round_ends we r) s.
Proof.
  destruct we as [word evs]. cbn [fst snd]. intros [Hn Hl Had Hevs] Hc Hpath Hpl Hb. cbn [fst snd] in *.
  unfold client_round, round_ends, round_sent. cbn [fst snd].
  destruct (strcpy_Some (replicate VMNAME_LEN NUL) (word ++ [NUL]) word) as (v & Hv & Hvc & _);
    [by apply cstr_term|by rewrite length_replicate|].
  wp_step. eapply wp_lift; [exact Hv|]. wp_step.
  eapply wp_lift; [apply (streq_Some _ _ word (chars "exit")); [done|by vm_compute]|].
  destruct (decide (word = chars "exit")) as [Hx|Hx];
    [rewrite bool_decide_eq_true_2 by done|rewrite bool_decide_eq_false_2 by done]; wp_step; [done|].
  unfold get_canonical_ip. wp_step. eapply wp_lift; [by apply need_str_Some|].
  destruct (os_gethostbyname word) as [[|ad ads]|] eqn:Hhost; [done| |by wp_step].
  pose proof (dotted_quad_length ad) as Hdl.
  destruct (strcpy_Some canon_ip (dotted_quad ad ++ [NUL]) (dotted_quad ad)) as (c & Hcp & Hcc & _);
    [apply cstr_term, dotted_quad_nonul|rewrite Hc; unfold IP_LEN; lia|].
  wp_step. eapply wp_assert_some; [done|]. wp_step. eapply wp_lift; [exact Hcp|]. wp_step.
  assert (client_ok c tempfile (dotted_quad ad) path) as Hok
    by (split; try done; unfold INET_ADDRSTRLEN; lia).
  wp_step. eapply wp_client_request; [exact Hok|done|]. intros _.
  eapply wp_mono; [by apply (wp_client_wait _ _ _ _ true _ _ _ Hok)|]. cbn beta. intros r s' [-> Hw].
  split; [|by rewrite decide_False]. cbn [andb].
  destruct (decide (head evs = Some Alarm)) as [E|E];
    [by rewrite bool_decide_eq_true_2|by rewrite bool_decide_eq_false_2].
Qed.

(** The rounds that take place: up to "exit", or to a request without a reply. *)
Definition goes_on (we : buf * list wait_event) : bool :=
  negb (bool_decide (we.1 = chars "exit")) &&
  (bool_decide (os_gethostbyname we.1 = None) || negb (bool_decide (Forall (fun e => e = Alarm) we.2))).

Fixpoint played (input : list (buf * list wait_event)) : list (buf * list wait_event) :=
  match input with
  | [] => []
  | we :: input' => we :: if goes_on we then played input' else []
  end.

Lemma not_all_alarms data evs : Arrives data ∈ evs -> ~ Forall (fun e => e = Alarm) evs.
Proof. intros Hin Hf. rewrite Forall_forall in Hf. by specialize (Hf _ Hin). Qed.

Lemma wp_client_loop canon_ip tempfile path a input s :
  Forall round_ok input -> length canon_ip = IP_LEN -> cstr tempfile = Some path ->
  (length path < SUN_PATH_UN)%nat -> recv_bufs a ->
  wp (client_loop canon_ip tempfile a input)
     (fun rs s' => s' = sent_after s (played input ≫= round_sent path) /\
                   Forall2 round_ends (played input) rs) s.
Proof.
  intros Hin Hc Hp Hl. revert a s.
  induction Hin as [|[word evs] input Hr _ IH]; intros a s Hb; cbn [client_loop played]; [by wp_step|].
  wp_step. eapply wp_mono; [by apply (wp_client_round canon_ip tempfile path a (word, evs))|].
  cbn beta. intros r s1 [-> He].
  assert (forall b, goes_on (word, evs) = b -> (b = true -> exists a', recv_bufs a' /\
            (r = NoSuchServer /\ a' = a \/ r = Reply a')) /\ (b = false -> r = Exit \/ r = Waiting)) as Hcase.
  { unfold goes_on, round_ends in *. cbn [fst snd] in *. destruct (decide (word = chars "exit")) as [Hx|Hx].
    { rewrite (bool_decide_eq_true_2 _ Hx). intros b <-. split; [done|by left]. }
    rewrite (bool_decide_eq_false_2 _ Hx). cbn [negb andb].
    destruct (decide (os_gethostbyname word = None)) as [Hh|Hh].
    { rewrite (bool_decide_eq_true_2 _ Hh). intros b <-. split; [|done]. intros _. exists a. auto. }
    rewrite (bool_decide_eq_false_2 _ Hh). cbn [orb]. destruct r as [| | |a']; cbn [waited] in He; try done.
    - rewrite (bool_decide_eq_true_2 _ He). intros b <-. split; [done|by right].
    - destruct He as (data & sip & sport & pl & Hd & _ & _ & Hb' & _).
      rewrite (bool_decide_eq_false_2 _ (not_all_alarms _ _ Hd)). intros b <-. split; [|done].
      intros _. exists a'. auto. }
  unfold sent_after. cbn [mbind list_bind]. rewrite foldl_app. fold (sent_after s (round_sent path (word, evs))).
  destruct (Hcase _ eq_refl) as [Ht Hf]. destruct (goes_on (word, evs)).
  - destruct (Ht eq_refl) as (a' & Hb' & [[-> ->]| ->]); (wp_step; eapply wp_mono; [by apply IH|]);
      cbn beta; intros rs s' [-> Hrs]; wp_step; (split; [done|by constructor]).
  - destruct (Hf eq_refl) as [-> | ->]; wp_step; (split; [done|]; constructor; [done|constructor]).
Qed.

(** The server answers: a request the daemon delivers from port [sport]
    of [sip] makes it send the first 24 characters of the time, with a line
    end, to exactly that port of that address, under its own path. *)
Lemma server_round_answers a data sip sport pl now t s :
  recv_bufs a -> delivered data sip sport pl -> cstr now = Some t ->
  exists a' s', server_round a (Received data) now s = Ok a' s' /\
    s' = emit (SendUnix (chars __UNIX_PROC_PATH)
                 (send_text sip sport (take 24 t ++ [byte_of_Z 13; byte_of_Z 10])
                    (chars __UNIX_SERV_PATH) 0)) s /\
    recv_bufs a'.
Proof.
  intros Hb Hd Hnow. apply wp_run. unfold server_round.
  destruct (msg_recv_delivered a data sip sport pl Hd Hb) as (a1 & Ha & Hb1 & [_ G1 G2 _ G3 _]).
  wp_step. eapply wp_lift; [exact Ha|]. wp_step. eapply wp_lift; [by apply need_str_Some|].
  set (m := take 24 t ++ [byte_of_Z 13; byte_of_Z 10]).
  assert (nonul m) as Hm.
  { apply nonul_app. split; [|by repeat constructor].
    apply Forall_take. by eapply cstr_nonul. }
  assert (length m <= 26)%nat as Hml by (unfold m; rewrite length_app, length_take; cbn [length]; lia).
  destruct (strcpy_Some (ra_msg_buf a1) (m ++ [NUL]) m) as (b & Hbm & Hbc & Hbl);
    [by apply cstr_term|rewrite (rb_msg _ Hb1); unfold MAXLINE; lia|].
  wp_step. rewrite app_assoc. eapply wp_lift; [exact Hbm|]. wp_step.
  destruct Hd as (_ & Hr & Hi & _). pose proof (resolves_length _ Hr) as Hsl.
  rewrite G2. eapply wp_msg_send; [exact G3|exact Hbc|by apply (cstr_lit __UNIX_SERV_PATH); repeat constructor| |].
  { pose proof (send_text_length sip sport m (chars __UNIX_SERV_PATH) 0 Hi eq_refl) as Hl.
    change (length (chars __UNIX_SERV_PATH)) with 12%nat in Hl.
    unfold INET_ADDRSTRLEN, MAXLINE in *. lia. }
  cbv zeta. wp_step. split; [done|].
  destruct Hb1. split; try done. cbn. by rewrite Hbl.
Qed.

(** The requests of a session of the server: source address and port, payload,
    and the time at which each is answered. *)
Definition server_input (q : buf * Z * buf * buf) : received * buf :=
  let '(sip, sport, pl, t) := q in (Received (peer_text sip sport pl), t ++ [NUL]).
Definition server_answer (q : buf * Z * buf * buf) : event :=
  let '(sip, sport, pl, t) := q in
  SendUnix (chars __UNIX_PROC_PATH)
    (send_text sip sport (take 24 t ++ [byte_of_Z 13; byte_of_Z 10]) (chars __UNIX_SERV_PATH) 0).
Definition server_query_ok (q : buf * Z * buf * buf) : Prop :=
  let '(sip, sport, pl, t) := q in delivered (peer_text sip sport pl) sip sport pl /\ nonul t.

Lemma server_loop_answers a qs s :
  recv_bufs a -> Forall server_query_ok qs ->
  exists a', server_loop a (server_input <$> qs) s = Ok a' (sent_after s (server_answer <$> qs)) /\ recv_bufs a'.
Proof.
  intros Hb Hqs. revert a s Hb. induction Hqs as [|[[[sip sport] pl] t] qs [Hd Ht] _ IH]; intros a s Hb.
  { by exists a. }
  destruct (server_round_answers a _ sip sport pl (t ++ [NUL]) t s Hb Hd (cstr_term t Ht))
    as (a1 & s1 & H1 & -> & Hb1).
  destruct (IH a1 (emit (server_answer (sip, sport, pl, t)) s) Hb1) as (a' & H2 & Hb'). exists a'.
  split; [|done]. cbn [fmap list_fmap server_input server_loop]. unfold mbind, M_bind. by rewrite H1.
Qed.

(** ** Properties *)

(** C22: a session of the client, the system calls at its start having
    succeeded.  Every round up to the word "exit", or up to a request that is
    never answered, sends one request to the server named without the flag, and
    one more, with the route-discovery flag, exactly when the alarm goes off
    before anything arrives; nothing else is sent.  A round with an unknown name
    sends nothing.  A round that is answered shows the payload, address and port
    of the datagram that arrived. *)
Theorem client_main_session tempfile path canon_ip a input s :
  Forall round_ok input -> length canon_ip = IP_LEN -> cstr tempfile = Some path ->
  (length path < SUN_PATH_UN)%nat -> recv_bufs a ->
  exists rs s', client_main (Some tempfile) true true canon_ip a input s = Ok rs s' /\
    s' = sent_after s (played input ≫= round_sent path) /\ Forall2 round_ends (played input) rs.
Proof.
  intros Hin Hc Hp Hl Hb. apply wp_run. unfold client_main. cbn [negb].
  destruct (strcpy_Some (replicate SUN_PATH_UN NUL) tempfile path) as (b & Hcp & _ & _);
    [done|by rewrite length_replicate|].
  wp_step. eapply wp_lift; [exact Hcp|]. by apply wp_client_loop.
Qed.

(** C23: a session of the server.  Every request the daemon delivers is answered,
    in order and exactly once, with the first 24 characters of the time and a
    line end, sent under the server's path to exactly the address and port the
    request came from.  Without a socket the program ends at once, without the
    address it stops. *)
Theorem server_main_session (sock bound : bool) a qs s :
  recv_bufs a -> Forall server_query_ok qs ->
  if negb sock then server_main sock bound a (server_input <$> qs) s = Ok None s
  else if negb bound then server_main sock bound a (server_input <$> qs) s = Aborted ErrExit
  else exists a', server_main sock bound a (server_input <$> qs) s
                    = Ok (Some a') (sent_after s (server_answer <$> qs)) /\ recv_bufs a'.
Proof.
  intros Hb Hqs. unfold server_main. destruct sock; [|done]. cbn [negb].
  destruct (strcpy_Some (replicate SUN_PATH_UN NUL) (lit __UNIX_SERV_PATH) (chars __UNIX_SERV_PATH))
    as (b & Hc & _); [by vm_compute|apply Nat.ltb_lt; reflexivity|].
  unfold mbind, M_bind, lift. rewrite Hc. destruct bound; [|done]. cbn [negb].
  destruct (server_loop_answers a qs s Hb Hqs) as (a' & -> & Hb'). by exists a'.
Qed.

(** A host name of ten or more characters overruns the client's name
    buffer. *)
Theorem client_long_name_overflows word canon_ip tempfile a evs s :
  nonul word -> (VMNAME_LEN <= length word)%nat ->
  client_round word canon_ip tempfile a evs s = Undef BufferOverflow.
Proof.
  intros Hn Hl. unfold client_round, mbind, M_bind, lift.
  rewrite (strcpy_overflow _ _ word); [done|by apply cstr_term|by rewrite length_replicate].
Qed.
End Apps.

(** ** Witnesses *)

Definition demo_time : buf := chars "Mon Nov 24 07:21:12 2014".

Lemma demo_delivered data :
  data = peer_text (vm_ip 3) 5500 demo_time ->
  @delivered (demo_os (demo_ifs 2)) data (vm_ip 3) 5500 demo_time.
Proof.
  intros ->. split; [done|]. split; [by apply demo_resolves|]. split; [done|].
  split; [apply Nat.ltb_lt; reflexivity|]. split; [by repeat constructor|].
  split; [by repeat constructor|]. apply Nat.ltb_lt. reflexivity.
Qed.

(** vm2 asks vm3 twice, retransmitting once, then types a name that does not
    exist, and leaves. *)
Definition demo_session : list (buf * list wait_event) :=
  [(chars "vm3", [Alarm; Arrives (peer_text (vm_ip 3) 5500 demo_time)]);
   (chars "vm3", [Arrives (peer_text (vm_ip 3) 5500 demo_time)]);
   (chars "nosuchvm", []); (chars "exit", []); (chars "vm4", [])].

Lemma client_main_session_witness :
  length (@played (demo_os (demo_ifs 2)) demo_session) = 4%nat /\
  exists rs s', @client_main (demo_os (demo_ifs 2)) (Some (lit "/tmp/file_and_1")) true true
                  (replicate IP_LEN NUL) demo_recv_args demo_session node_init = Ok rs s' /\
    s' = @sent_after (demo_os (demo_ifs 2)) node_init
           (@played (demo_os (demo_ifs 2)) demo_session ≫=
            @round_sent (demo_os (demo_ifs 2)) (chars "/tmp/file_and_1")) /\
    Forall2 (@round_ends (demo_os (demo_ifs 2))) (@played (demo_os (demo_ifs 2)) demo_session) rs.
Proof.
  split; [vm_compute; reflexivity|].
  assert (forall evs, evs = [] \/ evs = [Arrives (peer_text (vm_ip 3) 5500 demo_time)] \/
            evs = [Alarm; Arrives (peer_text (vm_ip 3) 5500 demo_time)] ->
            @arrivals_ok (demo_os (demo_ifs 2)) evs) as Harr.
  { assert (exists sip sport pl, @delivered (demo_os (demo_ifs 2))
              (peer_text (vm_ip 3) 5500 demo_time) sip sport pl) as Hd
      by (exists (vm_ip 3), 5500, demo_time; by apply demo_delivered).
    intros evs [-> | [-> | ->]]; [constructor|constructor; [exact Hd|constructor]|].
    constructor; [done|]. constructor; [exact Hd|constructor]. }
  apply (@client_main_session (demo_os (demo_ifs 2)) (lit "/tmp/file_and_1") (chars "/tmp/file_and_1")
           (replicate IP_LEN NUL) demo_recv_args demo_session node_init).
  - repeat (apply Forall_cons_2;
      [split; [by repeat constructor|apply Nat.ltb_lt; reflexivity|by vm_compute|apply Harr; auto]|]).
    constructor.
  - reflexivity.
  - reflexivity.
  - apply Nat.ltb_lt. reflexivity.
  - by split.
Defined.

Lemma server_main_session_witness :
  exists a', @server_main (demo_os (demo_ifs 2)) true true demo_recv_args
      (server_input <$> [(vm_ip 3, 5500, demo_time, chars "Mon Nov 24 07:21:13 2014")]) node_init
    = Ok (Some a') (@sent_after (demo_os (demo_ifs 2)) node_init
        (server_answer <$> [(vm_ip 3, 5500, demo_time, chars "Mon Nov 24 07:21:13 2014")])) /\
    recv_bufs a'.
Proof.
  apply (@server_main_session (demo_os (demo_ifs 2)) true true demo_recv_args
           [(vm_ip 3, 5500, demo_time, chars "Mon Nov 24 07:21:13 2014")] node_init).
  - by split.
  - apply Forall_cons_2; [|constructor]. split; [by apply demo_delivered|by repeat constructor].
Defined.

(** After a retransmission two replies are on the way.  The second is taken for
    the answer to the next request: the user asks vm5 and is shown the time of
    vm3. *)
Example client_takes_late_reply :
  match @client_main (demo_os (demo_ifs 2)) (Some (lit "/tmp/file_and_1")) true true
          (replicate IP_LEN NUL) demo_recv_args
          [(chars "vm3", [Alarm; Arrives (peer_text (vm_ip 3) 5500 demo_time)]);
           (chars "vm5", [Arrives (peer_text (vm_ip 3) 5500 demo_time)])] node_init with
  | Ok [Reply _; Reply a] _ => cstr (mp_cli_ip (ra_tt a)) = Some (vm_ip 3)
  | _ => False
  end.
Proof. vm_compute. reflexivity. Qed.

Lemma client_long_name_overflows_witness :
  @client_round (demo_os []) (chars "vm1.cs.stonybrook.edu") (replicate IP_LEN NUL)
    (lit "/tmp/file_and_1") demo_recv_args [] node_init = Undef BufferOverflow.
Proof.
  apply (@client_long_name_overflows (demo_os []) (chars "vm1.cs.stonybrook.edu")).
  - by repeat constructor.
  - apply Nat.leb_le. reflexivity.
Defined.
