(* ===== verification/System.v ===== *)
(** * The whole system

    A time client at one end of a chain of machines, the time server at the other
    end, and a daemon on every machine: what the client shows its user is the time
    at the server.  The programs are those of file Apps, the daemons run the
    handlers on their heaps (file NetSim), and the texts between them are taken
    apart by the daemons' and the library's own code (file Api). *)

From stdpp Require Import functions.
From S2P Require Import Prelude CLib Inet Frame DList Node Demo Utils Ports RTable Print PQueue Send.
From S2P Require Import Handlers Spec SpecFacts Network NetDemo Chain Talk Refine Peer Api Behaviour.
From S2P Require Import NetSim NetFlood NetChain Daemon Apps.

(** The answer of the server at time [t], as its message. *)
Definition time_text (t : buf) : buf := take 24 t ++ [byte_of_Z 13; byte_of_Z 10].

Section Definitions.
Context (tp : topology) (os_of : buf -> OS).
(** The machine of the client with the word typed by its user, the client's buffer
    for the address, and its socket; the machine of the server. *)
Context (here there word canon_ip tempfile cpath : buf).

(** The client has sent [data] to its daemon and waits. *)
Definition client_sends (data : buf) : Prop := forall a s, recv_bufs a ->
  @client_round (os_of here) word canon_ip tempfile a [] s
  = Ok Waiting (@emit (os_of here) (SendUnix (chars __UNIX_PROC_PATH) data) s).

(** The server, given [data] at time [t], sends [reply] to its daemon. *)
Definition server_answers (data t reply : buf) : Prop := forall a s, recv_bufs a ->
  exists a', @server_round (os_of there) a (Received data) (t ++ [NUL]) s
             = Ok a' (@emit (os_of there) (SendUnix (chars __UNIX_PROC_PATH) reply) s) /\ recv_bufs a'.

(** The client that has waited for [data] shows the time [t] of the server. *)
Definition client_shows (data t : buf) : Prop := forall a s, recv_bufs a ->
  exists a' s', @client_round (os_of here) word canon_ip tempfile a [Arrives data] s = Ok (Reply a') s' /\
    got a' there __SERV_PORT (time_text t) /\ recv_bufs a'.

(** The datagrams of the client and of the server for their daemons; the server
    answers to the port [port] that the daemon has given the client. *)
Definition question : buf := send_text there __SERV_PORT (chars "hello world") cpath 0.
Definition reply_to (port : Z) (t : buf) : buf :=
  send_text here port (time_text t) (chars __UNIX_SERV_PATH) 0.

(** The daemon of [ip] has received [data] from a process, with these texts, and takes
    it apart in the storage that [malloc] returns: any storage with a NUL right behind
    the place of each text.  It acts on the request, and what follows has [P], as long
    as the kernel accepts every datagram and the staleness time has not passed on any
    machine. *)
Definition acts_on (ip data dip m path : buf) (cn : cnet) (P : cnet -> Prop) : Prop :=
  forall st, clean_behind st dip m path ->
    exists sp, get_send_params st (recv_into MAXLINE data) = Def sp /\
      (refused os_of cn (CAsk ip sp) \/
       exists cn', cstep tp os_of cn (CAsk ip sp) cn' /\ (crecent tp os_of cn' -> ceventually tp os_of P cn')).

(** The client asks once for every time of [ts], each time after the answer before
    has arrived: its datagram makes its daemon act; when the wire is empty exactly one
    datagram has been handed to the server; the server's answer makes its daemon act;
    when the wire is empty again exactly one datagram has been handed to the client,
    and it shows the time. *)
Fixpoint exchanges (ts : list buf) (cn : cnet) : Prop :=
  match ts with
  | [] => True
  | t :: ts' =>
      client_sends question /\
      acts_on here question there (chars "hello world") cpath cn (fun cn2 => exists data2 port,
        c_wire cn2 = [] /\ c_log cn2 = c_log cn ++ [(there, chars __UNIX_SERV_PATH, data2)] /\
        server_answers data2 t (reply_to port t) /\
        acts_on there (reply_to port t) here (time_text t) (chars __UNIX_SERV_PATH) cn2 (fun cn4 =>
          exists data4,
            c_wire cn4 = [] /\ c_log cn4 = c_log cn2 ++ [(here, cpath, data4)] /\
            client_shows data4 t /\ exchanges ts' cn4))
  end.
End Definitions.

(** * Lemmas *)

(** ** Ports *)

Lemma abs_ports_entry s p x :
  abs_ports s p = Some x -> exists e, e ∈ port_spath_head s /\ portno e = p /\ path_of e = Some x.
Proof.
  unfold abs_ports. destruct (find_port p _) as [e|] eqn:Ef; [|done]. cbn. intros He.
  apply find_port_Some in Ef as [Hin Hp]. by exists e.
Qed.

Lemma abs_ports_range s p x : ports_inv s -> abs_ports s p = Some x -> 909 <= p <= __SERV_PORT.
Proof.
  intros Hinv (e & Hin & <- & _)%abs_ports_entry. pose proof (pinv_range _ _ Hinv) as Hr.
  rewrite Forall_forall in Hr. specialize (Hr e Hin). pose proof (pinv_next _ _ Hinv). unfold __SERV_PORT in *. lia.
Qed.

Lemma abs_ports_inj s p p' x : ports_inv s -> abs_ports s p = Some x -> abs_ports s p' = Some x -> p = p'.
Proof.
  intros Hinv (e & Hin & <- & Hx)%abs_ports_entry (e' & Hin' & <- & Hx')%abs_ports_entry.
  pose proof (pinv_paths_nodup _ _ Hinv) as Hnd.
  apply list_elem_of_lookup in Hin as [i Hi]. apply list_elem_of_lookup in Hin' as [j Hj].
  assert (i = j) as ->; [|congruence].
  apply (NoDup_lookup _ i j (Some x) Hnd); rewrite list_lookup_fmap; [by rewrite Hi, <- Hx|by rewrite Hj, <- Hx'].
Qed.

Lemma abs_ports_server s : ports_inv s -> abs_ports s __SERV_PORT = Some (chars __UNIX_SERV_PATH).
Proof. intros Hinv. destruct (pinv_serv _ _ Hinv) as (e & Hin & <- & Hp). by apply abs_ports_in. Qed.

(** ** Texts *)

(** A datagram of [msg_send], taken apart. *)
Lemma text_taken_apart {os : OS} st dip dport m path :
  clean_behind st dip m path -> resolves dip -> field m -> field path ->
  (length m < Z.to_nat PAYLOAD_SIZE)%nat -> (length path < SUN_PATH_SIZE)%nat -> int_ok dport = true ->
  exists sp, get_send_params st (recv_into MAXLINE (send_text dip dport m path 0)) = Def sp /\
    request_ok sp dip m path /\ sp_destport sp = dport /\ sp_route_disc_flag sp = 0.
Proof.
  intros Hst Hr Hm Hp Hml Hpl Hd. pose proof (resolves_length _ Hr) as Hdl.
  pose proof (send_text_length dip dport m path 0 Hd eq_refl) as Hl.
  apply get_send_params_clean; try done.
  unfold INET_ADDRSTRLEN, MAXLINE, SUN_PATH_SIZE, PAYLOAD_SIZE in *; lia.
Qed.

Lemma text_delivered {os : OS} sip sport pl :
  resolves sip -> 909 <= sport <= __SERV_PORT -> field pl -> (length pl < Z.to_nat PAYLOAD_SIZE)%nat ->
  delivered (peer_text sip sport pl) sip sport pl.
Proof.
  intros Hr Hs Hf Hl. split; [done|]. split; [done|]. split; [|split; [|split_and!; [apply Hf|apply Hf|done]]].
  - apply int_ok_spec. unfold __SERV_PORT, INT_MIN, INT_MAX in *. lia.
  - assert (forallb (fun p => (length (print_int p) <? 10)%nat) (seqZ 909 4592) = true) as H by (vm_compute; reflexivity).
    rewrite forallb_forall in H. apply Nat.ltb_lt, H, list_elem_of_In, elem_of_seqZ. unfold __SERV_PORT in Hs. lia.
Qed.

(** A time without separators can be sent. *)
Record time_ok (t : buf) : Prop := {
  tk_nonul : nonul t;
  tk_sep : Forall (fun c => sep c = false) t;
}.

Lemma field_time t : time_ok t -> field (time_text t) /\ (length (time_text t) < Z.to_nat PAYLOAD_SIZE)%nat.
Proof.
  intros [Hn Hs]. unfold time_text. split.
  - split.
    + by destruct (take 24 t).
    + apply Forall_app_2; [by apply Forall_take|by repeat constructor].
    + apply Forall_app_2; [by apply Forall_take|by repeat constructor].
  - rewrite length_app, length_take. cbn [length]. unfold PAYLOAD_SIZE. lia.
Qed.

Lemma field_hello : field (chars "hello world").
Proof. by apply field_chars. Qed.

(** ** The programs *)

(** What is asked of the client: a word that names the server's machine, and a
    socket. *)
Record client_at {os : OS} (there word canon_ip tempfile cpath : buf) : Prop := {
  ca_word : nonul word;
  ca_len : (length word < VMNAME_LEN)%nat;
  ca_exit : word <> chars "exit";
  ca_addr : exists ad ads, os_gethostbyname word = Some (ad :: ads) /\ dotted_quad ad = there;
  ca_canon : length canon_ip = IP_LEN;
  ca_file : cstr tempfile = Some cpath;
  ca_path : field cpath;
  ca_path_len : (length cpath < SUN_PATH_SIZE)%nat;
}.

Section Programs.
Context {os : OS} (there word canon_ip tempfile cpath : buf).
Hypothesis Hclient : client_at there word canon_ip tempfile cpath.

Lemma client_runs a evs s :
  recv_bufs a -> arrivals_ok evs -> head evs <> Some Alarm ->
  wp (client_round word canon_ip tempfile a evs)
     (fun r s' => s' = emit (client_request there cpath 0) s /\ waited evs r) s.
Proof using Hclient.
  destruct Hclient as [H1 H2 H3 (ad & ads & H4 & H5) H6 H7 H8 H9]. intros Hb Hevs Hal.
  eapply wp_mono; [apply (wp_client_round canon_ip tempfile cpath a (word, evs)); try done|].
  - split; try done. cbn. by rewrite H4.
  - unfold SUN_PATH_SIZE, SUN_PATH_UN in *. lia.
  - cbn beta. unfold round_sent, round_ends. cbn [fst snd]. rewrite !decide_False by (rewrite ?H4; done).
    rewrite H4, H5, decide_False by done. intros r s' [-> Hr]. by rewrite decide_False in Hr.
Qed.

Lemma client_requests a s :
  recv_bufs a ->
  client_round word canon_ip tempfile a [] s = Ok Waiting (emit (client_request there cpath 0) s).
Proof using Hclient.
  intros Hb. destruct (proj1 (wp_run _ _ _) (client_runs a [] s Hb (Forall_nil_2 _) ltac:(done)))
    as (r & s' & -> & -> & Hw). destruct r as [| | |a']; try done.
  destruct Hw as (data & sip & sport & pl & Hin & _). by apply elem_of_nil in Hin.
Qed.

Lemma client_gets a s data sport pl :
  recv_bufs a -> delivered data there sport pl ->
  exists a' s', client_round word canon_ip tempfile a [Arrives data] s = Ok (Reply a') s' /\
    got a' there sport pl /\ recv_bufs a'.
Proof using Hclient.
  intros Hb Hd. assert (arrivals_ok [Arrives data]) as Hevs by (apply Forall_singleton; by exists there, sport, pl).
  destruct (proj1 (wp_run _ _ _) (client_runs a [Arrives data] s Hb Hevs ltac:(done))) as (r & s' & -> & _ & Hw).
  destruct r as [| | |a']; try done.
  - by destruct (not_all_alarms data [Arrives data] ltac:(by left) Hw).
  - destruct Hw as (data' & sip & sport' & pl' & Hin & _ & _ & Hb' & a0 & Hb0 & Hrecv).
    apply list_elem_of_singleton in Hin as [= ->]. exists a', s'. split; [done|]. split; [|done].
    destruct (msg_recv_delivered a0 data there sport pl Hd Hb0) as (a1 & Ha1 & _ & Hg). congruence.
Qed.
End Programs.

(** ** The network *)

Section Net.
Context (tp : topology) (os_of : buf -> OS) (stale_of : buf -> Z) (known : buf -> Prop).
Hypothesis Hwired : wired tp os_of known.

Abbreviation sim := (sim tp os_of stale_of known).
Abbreviation lo := (INT_MIN + 1).
Abbreviation hi := (INT_MAX - 2).

(** A request, and what must follow if it must follow in the network of routers. *)
Lemma ask_eventually cn w here there sp path (P : Z -> net -> Prop) :
  sim cn w -> in_range tp os_of known cn (CAsk here sp) -> there <> here ->
  abs_ports (c_node cn there) (sp_destport sp) = Some path ->
  (forall k port pts ports, ports there (sp_destport sp) = Some path -> (a_clock (n_router w here) <= k)%nat ->
     all_recent tp os_of stale_of (do_ask tp os_of stale_of here port (abs_request sp) pts (ticked tp here k w)) ->
     eventually tp os_of stale_of ports (within (INT_MAX - 1) lo hi) (P port)
       (do_ask tp os_of stale_of here port (abs_request sp) pts (ticked tp here k w))) ->
  refused os_of cn (CAsk here sp) \/
  exists cn1 w1 port cpath s1,
    cstep tp os_of cn (CAsk here sp) cn1 /\ sim cn1 w1 /\
    cstr (sp_filename sp) = Some cpath /\ registered cpath (c_node cn here) s1 port /\
    same_ports s1 (c_node cn1 here) /\ same_ports (c_node cn there) (c_node cn1 there) /\
    (crecent tp os_of cn1 -> ceventually tp os_of (fun cn2 => (exists w2, P port w2 /\ sim cn2 w2) /\
      forall u, same_ports (c_node cn1 u) (c_node cn2 u)) cn1).
Proof using Hwired.
  intros Hsim Hr Hne Hp Hev.
  destruct (sim_ask_ports _ _ _ _ Hwired cn w here sp Hsim Hr)
    as (r & s' & k & port & pts & cpath & s1 & Hh & Hcp & Hreg & Hsame & Hk & Hgo & _).
  destruct (decide (accepted (c_node cn here) s')) as [Hac|Hac]; [right|left; by exists r, s'].
  destruct (Hgo Hac) as [Hsim1 Hge].
  set (cn1 := cmoved tp cn here s' (c_wire cn)) in *. eexists cn1, _, port, cpath, s1.
  split; [by eapply cstep_ask|]. split; [exact Hsim1|]. split; [done|]. split; [done|].
  assert (c_node cn1 here = s') as E1 by (cbn; by rewrite fn_lookup_insert).
  assert (c_node cn1 there = c_node cn there) as E2 by (cbn; by rewrite fn_lookup_insert_ne).
  split; [by rewrite E1|]. split; [by rewrite E2|].
  intros Hy. eapply ceventually_impl; [|eapply (eventually_lift tp os_of stale_of known Hwired (INT_MAX - 1) lo hi
    (fun u => abs_ports (c_node cn1 u)) (P port)); [lia|lia|lia|apply Hev; [by rewrite E2|done|by eapply sim_recent]
                                                   |exact Hsim1|done]].
  intros cn2 (w2 & H1 & H2 & H3). split; [by exists w2|done].
Qed.

Lemma sim_ports_inv cn w n i : sim cn w -> (n, i) ∈ t_ports tp -> ports_inv (c_node cn n).
Proof. intros Hsim Hin. destruct (sim_nodes _ _ _ _ _ _ Hsim n i Hin) as (_ & _ & T & q & Hinv & _). apply Hinv. Qed.

Lemma open_ticked n v lft rgt l h log u k w :
  (a_clock (n_router w u) <= k)%nat ->
  open tp os_of n v lft rgt l h log [] w -> open tp os_of n v lft rgt l h log [] (ticked tp u k w).
Proof.
  intros Hk [H1 H2 H3 H4 H5 H6]. assert (forall x, a_routes (n_router (ticked tp u k w) x) = a_routes (n_router w x)) as HR
    by (intros x; apply ticked_routes).
  split.
  - cbn. by rewrite H1.
  - cbn. by rewrite H2, app_nil_r.
  - intros j Hj. destruct (H3 j Hj) as (b & t & E). exists b, t. by rewrite HR.
  - intros j Hj. destruct (H4 j Hj) as (b & t & E). exists b, t. by rewrite HR.
  - intros j Hj. eapply timed_later; [apply HR| |by apply H5]. cbn. destruct (decide (u = v j)) as [->|Hu].
    + by rewrite fn_lookup_insert.
    + by rewrite fn_lookup_insert_ne.
  - intros j Hj. rewrite (proj1 (proj2 (ticked_routes tp u k w (v j)))). by apply H6.
Qed.

Section Chained.
Context (n : nat) (v : nat -> buf) (lft rgt : nat -> Z) (c : buf -> Z).
Hypothesis Hchain : chain tp n v lft rgt.
Hypothesis Hn : (0 < n)%nat.
Hypothesis Hnmax : Z.of_nat n < INT_MAX.
Hypothesis Hc0 : 0 <= c (v 0%nat).
Hypothesis Hlim : forall i, (i <= n)%nat -> lo <= c (v i) /\ c (v i) + 2 <= hi.

(** The network between two exchanges: just started, or with the routes known. *)
Definition at_rest_with (log : list (buf * buf * buf)) (cn : cnet) : Prop :=
  exists w, sim cn w /\
    ((w = net_init c /\ log = []) \/ open tp os_of n v lft rgt lo hi log [] w).

Lemma at_rest_facts log cn :
  at_rest_with log cn ->
  c_wire cn = [] /\ c_log cn = log /\
  forall i j, (i <= n)%nat -> (v i, j) ∈ t_ports tp -> lo <= cur_broadcast_id (c_node cn (v i)) <= hi.
Proof using Hlim Hn Hnmax Hc0.
  intros (w & Hsim & Hw). assert (n_pool w = [] /\ n_log w = log /\
    forall i, (i <= n)%nat -> lo <= a_ctr (n_router w (v i)) <= hi) as (Hp & Hl & Hc).
  { destruct Hw as [[-> ->]|Ho]; [split_and!; [done..|]|by destruct Ho].
    intros i Hi. cbn. specialize (Hlim i Hi). lia. }
  split_and!.
  - pose proof (sim_wire _ _ _ _ _ _ Hsim) as HF. rewrite Hp in HF. by apply Forall2_nil_inv_r in HF.
  - by rewrite (sim_log _ _ _ _ _ _ Hsim).
  - intros i j Hi Hin. destruct (sim_nodes _ _ _ _ _ _ Hsim _ _ Hin) as (_ & _ & T & q & _ & HE).
    specialize (Hc i Hi). rewrite <- HE in Hc. exact Hc.
Qed.

(** A message from the first machine to the last, whether or not the way is known. *)
Lemma forward log cn sp path :
  at_rest_with log cn -> in_range tp os_of known cn (CAsk (v 0%nat) sp) ->
  cstr (sp_destip sp) = Some (v n) -> sp_route_disc_flag sp <> 1 ->
  abs_ports (c_node cn (v n)) (sp_destport sp) = Some path ->
  refused os_of cn (CAsk (v 0%nat) sp) \/
  exists cn1 w1 port cpath s1,
    cstep tp os_of cn (CAsk (v 0%nat) sp) cn1 /\ sim cn1 w1 /\
    cstr (sp_filename sp) = Some cpath /\ registered cpath (c_node cn (v 0%nat)) s1 port /\
    same_ports s1 (c_node cn1 (v 0%nat)) /\ same_ports (c_node cn (v n)) (c_node cn1 (v n)) /\
    (crecent tp os_of cn1 -> ceventually tp os_of (fun cn2 =>
      (exists w2, open tp os_of n v lft rgt lo hi (log ++ [(v n, path, peer_text (v 0%nat) port (q_data (abs_request sp)))]) [] w2
                  /\ sim cn2 w2) /\
      forall u, same_ports (c_node cn1 u) (c_node cn2 u)) cn1).
Proof using Hwired Hchain Hn Hnmax Hc0 Hlim.
  intros (w & Hsim & Hw) Hr Hd Hfl Hp.
  assert (v n <> v 0%nat) as Hne by (apply (v_ne tp n v lft rgt Hchain); lia).
  apply (ask_eventually cn w (v 0%nat) (v n) sp path
    (fun port => open tp os_of n v lft rgt lo hi (log ++ [(v n, path, peer_text (v 0%nat) port (q_data (abs_request sp)))]) []));
    [done..|].
  intros k port pts ports Hports Hk Hy. assert (q_dst (abs_request sp) = v n) as Hq by (cbn; by rewrite Hd).
  destruct Hw as [[-> ->]|Ho].
  - eapply eventually_impl; [apply arrived_open|].
    pose proof (Hlim 0%nat ltac:(lia)). apply (chain_arrives tp os_of stale_of ports n v lft rgt (INT_MAX - 1) lo hi c);
      try done; [apply ticked_fresh|lia|lia].
  - apply (open_delivers tp os_of stale_of ports n v lft rgt (INT_MAX - 1) lo hi); try done;
      [by apply chain_cable|lia|by apply open_ticked].
Qed.

(** A message from the last machine to the first, once the way is known. *)
Lemma backward log cn w sp path :
  open tp os_of n v lft rgt lo hi log [] w -> sim cn w -> in_range tp os_of known cn (CAsk (v n) sp) ->
  cstr (sp_destip sp) = Some (v 0%nat) -> sp_route_disc_flag sp <> 1 ->
  abs_ports (c_node cn (v 0%nat)) (sp_destport sp) = Some path ->
  refused os_of cn (CAsk (v n) sp) \/
  exists cn1 w1 port spath s1,
    cstep tp os_of cn (CAsk (v n) sp) cn1 /\ sim cn1 w1 /\
    cstr (sp_filename sp) = Some spath /\ registered spath (c_node cn (v n)) s1 port /\
    same_ports s1 (c_node cn1 (v n)) /\ same_ports (c_node cn (v 0%nat)) (c_node cn1 (v 0%nat)) /\
    (crecent tp os_of cn1 -> ceventually tp os_of (fun cn2 =>
      (exists w2, open tp os_of n v lft rgt lo hi (log ++ [(v 0%nat, path, peer_text (v n) port (q_data (abs_request sp)))]) [] w2
                  /\ sim cn2 w2) /\
      forall u, same_ports (c_node cn1 u) (c_node cn2 u)) cn1).
Proof using Hwired Hchain Hn Hnmax Hc0.
  intros Ho Hsim Hr Hd Hfl Hp.
  assert (v 0%nat <> v n) as Hne by (apply (v_ne tp n v lft rgt Hchain); lia).
  apply (ask_eventually cn w (v n) (v 0%nat) sp path
    (fun port => open tp os_of n v lft rgt lo hi (log ++ [(v 0%nat, path, peer_text (v n) port (q_data (abs_request sp)))]) []));
    [done..|].
  intros k port pts ports Hports Hk Hy. apply open_delivers_back; try done; [by apply chain_cable|lia|by apply open_ticked|].
  cbn. by rewrite Hd.
Qed.

Lemma ends_connected : (v 0%nat, rgt 0%nat) ∈ t_ports tp /\ (v n, lft n) ∈ t_ports tp.
Proof using Hchain Hn.
  split.
  - assert ((v 0%nat, rgt 0%nat) ∈ peers tp (v 1%nat, lft 1%nat)) as H
      by (rewrite (ch_left _ _ _ _ _ Hchain 0 Hn); by left).
    by apply elem_of_peers in H as [? _].
  - assert ((v n, lft n) ∈ peers tp (v (n - 1)%nat, rgt (n - 1)%nat)) as H.
    { rewrite (ch_right _ _ _ _ _ Hchain) by lia. replace (S (n - 1)) with n by lia. by left. }
    by apply elem_of_peers in H as [? _].
Qed.

(** A request of a process of one of the machines, for another. *)
Lemma ask_ok log cn i j sp dip m path :
  at_rest_with log cn -> (i <= n)%nat -> (v i, j) ∈ t_ports tp -> known dip -> dip <> v i ->
  @request_ok (os_of (v i)) sp dip m path -> next_portno (c_node cn (v i)) < __SERV_PORT ->
  in_range tp os_of known cn (CAsk (v i) sp).
Proof using Hlim Hn Hnmax Hc0.
  intros Hrest Hi Hin Hk Hne Hrq Hnext. destruct (at_rest_facts log cn Hrest) as (_ & _ & Hc).
  specialize (Hc i j Hi Hin). exists j, dip, m, path. split_and!; [done..|lia|lia|done].
Qed.

Context (word canon_ip tempfile cpath : buf).
Hypothesis Hclient : @client_at (os_of (v 0%nat)) (v n) word canon_ip tempfile cpath.
Abbreviation exchanges := (exchanges tp os_of (v 0%nat) (v n) word canon_ip tempfile cpath).

(** The answer of the server to the request from [port], and what follows. *)
Lemma answer_exchange ts t log cn2 w2 port :
  time_ok t -> open tp os_of n v lft rgt lo hi log [] w2 -> sim cn2 w2 ->
  abs_ports (c_node cn2 (v 0%nat)) port = Some cpath -> next_portno (c_node cn2 (v n)) < __SERV_PORT ->
  (forall log' cn4, at_rest_with log' cn4 ->
     next_portno (c_node cn4 (v 0%nat)) = next_portno (c_node cn2 (v 0%nat)) ->
     next_portno (c_node cn4 (v n)) <= next_portno (c_node cn2 (v n)) + 1 -> exchanges ts cn4) ->
  server_answers os_of (v n) (peer_text (v 0%nat) port (chars "hello world")) t (reply_to (v 0%nat) port t) /\
  acts_on tp os_of (v n) (reply_to (v 0%nat) port t) (v 0%nat) (time_text t) (chars __UNIX_SERV_PATH) cn2 (fun cn4 =>
    exists data4,
      c_wire cn4 = [] /\ c_log cn4 = c_log cn2 ++ [(v 0%nat, cpath, data4)] /\
      client_shows os_of (v 0%nat) (v n) word canon_ip tempfile data4 t /\ exchanges ts cn4).
Proof using Hwired Hchain Hn Hnmax Hc0 Hlim Hclient.
  intros Ht Ho Hsim Hport Hnext Hrest. destruct ends_connected as [Hin0 Hinn].
  destruct (field_time t Ht) as [Hf Hfl].
  assert (v 0%nat <> v n) as Hne by (apply (v_ne tp n v lft rgt Hchain); lia).
  pose proof (wd_self _ _ _ Hwired _ _ Hin0) as Hk0. pose proof (wd_self _ _ _ Hwired _ _ Hinn) as Hkn.
  pose proof (abs_ports_range _ _ _ (sim_ports_inv _ _ _ _ Hsim Hin0) Hport) as Hrange.
  assert (at_rest_with log cn2) as Hat by (exists w2; by split; [|right]).
  split.
  { intros a s Hb. destruct (@server_round_answers (os_of (v n)) a (peer_text (v 0%nat) port (chars "hello world"))
      (v 0%nat) port (chars "hello world") (t ++ [NUL]) t s Hb) as (a' & s' & H1 & -> & H2).
    + apply text_delivered; [by apply (wd_known _ _ _ Hwired)|done|exact field_hello|apply Nat.ltb_lt; reflexivity].
    + apply cstr_term, Ht.
    + by exists a'. }
  intros st Hst.
  destruct (@text_taken_apart (os_of (v n)) st (v 0%nat) port (time_text t) (chars __UNIX_SERV_PATH))
    as (sp3 & Hsp & Hrq & Hdp & Hflag); try done.
  { by apply (wd_known _ _ _ Hwired). }
  { by apply field_chars. }
  { apply Nat.ltb_lt. reflexivity. }
  { apply int_ok_spec. unfold __SERV_PORT, INT_MIN, INT_MAX in *. lia. }
  exists sp3. split; [exact Hsp|].
  destruct (backward log cn2 w2 sp3 cpath Ho Hsim)
    as [Hno|(cn3 & w3 & port' & spath & s1 & Hstep & Hsim3 & Hsp' & Hreg & Hs1 & Hs0 & Hev)]; [..|by left|].
  { by apply (ask_ok log cn2 n (lft n) sp3 (v 0%nat) (time_text t) (chars __UNIX_SERV_PATH)); try lia. }
  { apply Hrq. }
  { by rewrite Hflag. }
  { by rewrite Hdp. }
  rewrite (rq_path _ _ _ _ Hrq) in Hsp'. injection Hsp' as <-.
  assert (q_data (abs_request sp3) = time_text t) as Hdata by (cbn; by rewrite (rq_data _ _ _ _ Hrq)).
  rewrite Hdata in Hev. destruct Hreg as (_ & Hreg & _ & Hnext').
  assert (port' = __SERV_PORT) as ->.
  { pose proof (sim_ports_inv _ _ _ _ Hsim3 Hinn) as Hpi. rewrite <- (same_ports_abs _ _ Hs1) in Hreg.
    by apply (abs_ports_inj _ _ _ _ Hpi Hreg), abs_ports_server. }
  right. exists cn3. split; [exact Hstep|].
  intros Hy. eapply ceventually_impl; [|exact (Hev Hy)]. intros cn4 [(w4 & Ho4 & Hsim4) Hsame].
    assert (at_rest_with (log ++ [(v 0%nat, cpath, peer_text (v n) __SERV_PORT (time_text t))]) cn4) as Hat4
      by (exists w4; by split; [|right]).
    destruct (at_rest_facts _ _ Hat4) as (Hw4 & Hl4 & _). destruct (at_rest_facts _ _ Hat) as (_ & Hl2 & _).
    eexists. split; [done|]. split; [by rewrite Hl4, Hl2|]. split.
    + intros a s Hb. apply (@client_gets (os_of (v 0%nat)) (v n) word canon_ip tempfile cpath Hclient); [done|].
      apply text_delivered; [by apply (wd_known _ _ _ Hwired)|unfold __SERV_PORT; lia|done|done].
    + apply (Hrest _ _ Hat4).
      * rewrite (proj2 (Hsame (v 0%nat))). apply Hs0.
      * rewrite (proj2 (Hsame (v n))), (proj2 Hs1). lia.
Qed.

Lemma exchanges_hold ts log cn :
  Forall time_ok ts -> at_rest_with log cn ->
  next_portno (c_node cn (v 0%nat)) + Z.of_nat (length ts) <= __SERV_PORT ->
  next_portno (c_node cn (v n)) + Z.of_nat (length ts) <= __SERV_PORT -> exchanges ts cn.
Proof using Hwired Hchain Hn Hnmax Hc0 Hlim Hclient.
  intros Hts. revert log cn. induction Hts as [|t ts Ht _ IH]; intros log cn Hat Hp0 Hpn; [done|].
  cbn [length] in Hp0, Hpn. destruct ends_connected as [Hin0 Hinn].
  assert (v n <> v 0%nat) as Hne by (apply (v_ne tp n v lft rgt Hchain); lia).
  pose proof (wd_self _ _ _ Hwired _ _ Hinn) as Hkn. pose proof Hat as (w & Hsim & _).
  split.
  { intros a s Hb. by apply (@client_requests (os_of (v 0%nat)) (v n) word canon_ip tempfile cpath Hclient). }
  intros st Hst.
  destruct (@text_taken_apart (os_of (v 0%nat)) st (v n) __SERV_PORT (chars "hello world") cpath)
    as (sp1 & Hsp & Hrq & Hdp & Hflag); [exact Hst|..].
  { by apply (wd_known _ _ _ Hwired). }
  { exact field_hello. }
  { apply (ca_path _ _ _ _ _ Hclient). }
  { apply Nat.ltb_lt. reflexivity. }
  { apply (ca_path_len _ _ _ _ _ Hclient). }
  { reflexivity. }
  exists sp1. split; [exact Hsp|].
  destruct (forward log cn sp1 (chars __UNIX_SERV_PATH) Hat)
    as [Hno|(cn1 & w1 & port & cpath' & s1 & Hstep & Hsim1 & Hcp & Hreg & Hs0 & Hsn & Hev)]; [..|by left|].
  { apply (ask_ok log cn 0 (rgt 0%nat) sp1 (v n) (chars "hello world") cpath); try done; lia. }
  { apply Hrq. }
  { by rewrite Hflag. }
  { rewrite Hdp. apply abs_ports_server. by eapply sim_ports_inv. }
  rewrite (rq_path _ _ _ _ Hrq) in Hcp. injection Hcp as <-.
  assert (q_data (abs_request sp1) = chars "hello world") as Hdata by (cbn; by rewrite (rq_data _ _ _ _ Hrq)).
  rewrite Hdata in Hev. destruct Hreg as (_ & Hreg & _ & Hnext).
  right. exists cn1. split; [exact Hstep|].
  intros Hy. eapply ceventually_impl; [|exact (Hev Hy)]. intros cn2 [(w2 & Ho2 & Hsim2) Hsame].
  destruct (answer_exchange ts t _ cn2 w2 port Ht Ho2 Hsim2) as [H1 H2].
  { by rewrite (same_ports_abs _ _ (Hsame (v 0%nat))), (same_ports_abs _ _ Hs0). }
  { rewrite (proj2 (Hsame (v n))), (proj2 Hsn). lia. }
  { intros log' cn4 Hat4 E0 En. apply (IH log' cn4 Hat4).
    - rewrite E0, (proj2 (Hsame (v 0%nat))), (proj2 Hs0). lia.
    - rewrite (proj2 (Hsame (v n))), (proj2 Hsn) in En. lia. }
  assert (at_rest_with _ cn2) as Hat2 by (exists w2; split; [exact Hsim2|right; exact Ho2]).
  destruct (at_rest_facts _ _ Hat2) as (Hw2 & Hl2 & _). destruct (at_rest_facts _ _ Hat) as (_ & Hl & _).
  eexists _, port. split; [done|]. split; [by rewrite Hl2, Hl|]. by split; [exact H1|].
Qed.
End Chained.
End Net.

(** * Properties *)


